(* ===== verification/_CoqProject ===== *)
-Q . S2P
Prelude.v
Primitives.v
FixMsgUtils.v
FixTypes.v
FixTags.v
FixMessageRX.v
FixMessageTX.v
FixFields.v
Pusher.v
PusherThread.v
Splitter.v
Delivery.v
Feeding.v
Disruptor.v
RingQueue.v
Popper.v
Ieee754.v
Marshal.v
MsgDB.v
PusherControl.v
PopperQueues.v
Guards.v
Poppers.v
ConfigFile.v
ConfigItems.v
Config.v
RuleEngine.v
ArgOpt.v
Sockets.v
Ipc.v
Locks.v
Process.v
PusherInit.v
PusherQueues.v
Reception.v
EndToEnd.v
GenericMain.v
Session.v
