(* ===== verification/Prelude.v ===== *)
(** * MercuryFIX: a verification library

    MercuryFIX is a FIX engine in C++ (with a C disruptor).  This library models
    its message layer, its input and output threads, the message database they
    write to, the start of its server processes and the commands between them,
    configuration, rules, the command line and an older session layer, and proves
    what they do.  This file is the root: its header describes the whole library,
    the rest of it is the prelude the other files share.

    ** The program

    A client builds a message in a [FIXMessageTX], which [expose]s it as a
    partial message (the fields between a leading SOH and ["10="]).
    [FIX_Pusher::push] copies it into an entry of one of the queues alfa, bravo
    and charlie; the pusher thread completes the messages in place
    (BeginString, BodyLength, MsgType, MsgSeqNum, CheckSum), records them in
    the message database and writes them to the socket in batches.  On the
    other side the sucker thread of a [FIX_Popper] reads the socket into
    entries of the foxtrot queue; the splitter thread cuts the byte stream into
    messages, checks them and hands them to the delta queue (application
    messages) or the echo queue (session messages), from which [pop] and
    [session_pop] take them; a client reads the fields with a [FIXMessageRX].
    When the other side asks for messages again, [FIX_Pusher::resend] stops the
    pusher thread, takes the partial messages from the database and sends them
    through a queue of its own, romeo.  A process finds its settings in a
    [ConfigFile]; [Config::subscribe] looks a line up and fills a [ConfigItem]
    with it, whose [get] parses it.  A server begins in [generic_main]: [argopt]
    takes the options from the command line, the configuration is read, and the
    master creates a process and a socket pair for each identity; over such
    sockets [send_cmd] and [recv_cmd] exchange commands whose data is
    marshalled.  Apart from these, the rule engine evaluates expressions over
    the tags of an event, and the region lock is a lock between readers and one
    owner that no other part uses.  [FIX_Gateway] and [FIX_Session], which make
    the sockets of a session from its line in the configuration, are no longer
    part of the build.

    ** The files

    - [Prelude]: bytes, machine integers, flat bounds checked memory
      ([get_at], [read_at], [write_at]: [None] is an access outside the
      object), C strings, decimal numerals, tactics and lemmas.
    - [Primitives]: [stdlib/marshal/primitives.h], both byte orders.
    - [FixMsgUtils]: [applib/fixutils/fixmsg_utils.cpp], tags, lengths and
      decimal output; the wire form of a list of fields.
    - [FixTypes]: [applib/fixmsg/fix_types.h] and [.cpp], message types.
    - [FixTags]: the tag tables [applib/fixmsg/FIX40.cpp] to [FIXT11.cpp].
    - [FixMessageRX], [FixMessageTX]: [applib/fixmsg/fixmsg.h],
      [fixmsg_rx.cpp] and [fixmsg_tx.cpp], the two message classes.
    - [FixFields]: the checksum of [applib/fixmsg/fix_fields.h].
    - [Pusher]: [applib/fixio/fix_pusher.cpp], entries, [complete_FIX_message]
      and the push calls; [PusherThread]: [do_writev] and the batching loops.
    - [Splitter]: [splitter_thread_func] of [applib/fixio/fix_popper.cpp] as the
      source has it, a state machine over positions with bulk copies, and
      [pop], [session_pop]; [Delivery]: what it does with whole messages and
      with the output of a pusher; [Feeding]: its loop one round at a time, for
      threads that act between two rounds.
    - [Disruptor]: [stdlib/disruptor/disruptor.h], the ring buffer behind all
      queues, a step relation over publishers and readers at the grain of the
      atomic accesses ([pub_step], [reader_step], [step], [reaches]).
    - [RingQueue]: the ring as whole calls see it, [publish] and its two halves
      ([claim], [commit_entry]), the lemmas by which a ring [holds] a bounded
      queue, a ring with its reader as one [queue], and sequences of calls against
      a reference ([run_refines]).
    - [Popper]: the rest of [fix_popper.cpp], the sucker thread over the answers
      of [recvfrom], and [start] and [stop] as a step relation over the flags
      they share with the threads ([popper_step], [life]).
    - [PopperQueues]: the client side of [fix_popper.cpp]: [init], both versions
      of [pop] and [session_pop] on the rings of [Disruptor], and the settings
      of [start]; calls are atomic there, one that would wait is [Waits].
    - [Guards]: [stdlib/locks/guard.h] and [file_locks.cpp]; [Poppers]: the first
      version of [pop] called by any number of threads at once, one access at a
      time ([pop_step], [take_turn]), between the publishers of [Disruptor].
    - [Ieee754], [Marshal]: [stdlib/marshal/ieee754.cpp] and [marshal.cpp], the
      packing of floating point numbers and of argument lists.
    - [MsgDB]: [applib/fixutils/db_utils.cpp] and [.h], the message database:
      two tables as maps from sequence numbers to rows, changed by the
      statements of the source; SQLite's result codes are arguments.
    - [PusherControl]: the rest of [fix_pusher.cpp]: [start], [stop] and the
      pause protocol as a step relation ([pusher_step]), the settings of
      [start], the time stamps and [resend].
    - [ConfigFile]: [stdlib/config/config_file.cpp], the in-place parser of the
      configuration file, against a description of the file by lines
      ([read_config], [parse_line]).
    - [ConfigItems]: [utillib/config/], the items a line can be parsed as, up to
      the configuration of a FIX session.
    - [Config]: [stdlib/config/config.cpp], the abstract item as a type class
      with its laws, [subscribe] and the refreshing thread.
    - [RuleEngine]: [stdlib/rule_engine/rule_engine.cpp] and [.h], the evaluator
      of rules as a pointer over the text, against expressions as trees
      ([render], [left_to_right]).
    - [ArgOpt]: [stdlib/cmdline/argopt.cpp] and [.h], the option parser called
      once per option, against a parser over the list of arguments
      ([parse_step], [parse]).
    - [Sockets]: [stdlib/network/network.cpp] and [net_interfaces.cpp]: sending,
      descriptors passed between processes, listening and connecting; the state
      is the table of open descriptors.
    - [Ipc]: [utillib/ipc/ipc.cpp], [ipc.h] and [ipc_command.h], commands over
      the answers of [send] and [recvfrom], with the buffer [vsend_cmd] keeps.
    - [Locks]: [stdlib/locks/region_lock.h] as a step relation over the program
      counters of any number of threads ([thread_step], [region_reach]).
    - [Process]: [stdlib/process/] and [stdlib/log/log.cpp]: credentials, the
      descriptors a daemon closes, its process number file, threads, reference
      counts, default identities and the logger.
    - [PusherInit]: the constructor and [init] of [fix_pusher.cpp], on the rings
      of [Disruptor], the database of [MsgDB] and the settings of
      [PusherControl], and [start] and [stop] as calls.
    - [PusherQueues]: [push], [session_push] and a round of the pusher thread on
      the rings [PusherInit] makes, against three bounded queues ([spec_op]), and
      on through [Delivery] to the other side.
    - [Reception]: the sucker, the splitter and the clients of a popper together,
      on the rings of [PopperQueues]: a [recvfrom], the next round of the splitter
      or a pop is one [turn], in any order, against the stream received ([inv]).
    - [EndToEnd]: the clients of a pusher and those of the popper it writes to:
      [PusherQueues], [Feeding] and [Reception] put together.
    - [GenericMain]: [servers/generic/generic_main.cpp]: the command line, the
      master with its loop over the identities, and a slave ([start_server],
      [slave]), on [ArgOpt], [Config], [Process] and [Sockets].
    - [Session]: [applib/fixlib/]: a session from its line in the configuration to
      its sockets and its instances, and the gateway, over the open descriptors,
      the addresses listened on and the time slept ([world]).

    Classes and structs are records with the fields of the source, an operation
    is a function from the state to an [option] of results and new state;
    [None] is always undefined behaviour (an access outside an object, a null or
    dangling pointer, an indeterminate argument), errors the code reports are
    values.  Where a call may have to wait for another thread or for the system,
    the result is a [call] of [RingQueue] ([Returns], [Waits], [Undefined]).
    Memory allocation, the answers of the operating system and, in [Splitter], the
    queue entries are arguments; what is assumed of them is stated in the theorems
    ([SplitterEnv] collects what the splitter relies on, with a concrete instance).

    ** What is proved

    - Numbers and types: the parsers and printers accept and produce exactly
      the numerals they should, with the bounds the code enforces
      ([FixMsgUtils]), the type lookup inverts its table ([FixTypes]), byte
      order round trips ([Primitives]).
    - Messages: [next_field] traverses exactly the fields a message was written
      from; [init], [append_field] and [expose] build exactly the fields
      appended; [clone_from] restores an exposed message.
    - Output: [complete_FIX_message] turns a queued partial message into the
      complete FIX message; the push calls fill exactly one entry or report why
      not; a batch is written as the messages in queue order with consecutive
      numbers.
    - Input: the splitter terminates on every foxtrot entry, its result does not
      depend on how the stream is cut into entries, a stream of consecutive
      messages is delivered completely, in order and to the right queue, a
      message with a wrong checksum is dropped without harm to the next ones.
    - End to end: from [init] on, every message a sequence of pushes and rounds
      of the thread accepts is written once, in the order of three queues and
      under consecutive numbers ([pusher_refines_queues]); an error of [writev]
      in any of the three batches ends the thread ([write_error_ends_thread]).  On
      the other side, in every schedule of the sucker, the splitter and the
      clients in which the splitter takes its first step before the sucker has
      published 1024 entries (nothing in the source enforces it; otherwise
      entries are lost, [early_entries_lost]), and for session messages that fit
      an entry of echo, nothing undefined happens and what is popped is a
      beginning of what was sent ([pushed_is_popped], [received_is_popped]), and
      the threads come to rest with all of it popped ([everything_is_popped]).
    - Database: a stored message is returned with its bytes, its type and what
      is left of its time to live; a range of numbers returns exactly its rows
      in order; handle and statements stay consistent.
    - Marshalling: well typed calls, with floating point numbers that are finite,
      never leave the buffer and succeed exactly when the arguments fit; what was
      marshalled is unmarshalled; packing a normalised number gives its IEEE 754
      format and unpacking inverts it.
    - Configuration: the parser of the file returns on all terminated lines and
      yields what the lines say; vectors, endpoints, times and whole sessions
      are read back as they were written; end to end, a session written to the
      file is the one [get] returns after [init] and [subscribe].
    - Rules: an expression without nested parentheses has its value from left to
      right, although criteria that cannot change it are skipped; the first rule
      that matches is returned.
    - Command line: the calls of [argopt] end, report every argument once and
      leave the operands at the end of [argv]; abbreviations are resolved
      exactly when only one name extends them.
    - Commands: whatever arrives, [recv_cmd] stays in its buffer, and what it puts
      there is a beginning of what arrived; a command sent, however the transport cuts it, is received with its number, its
      length and its values.
    - Servers: what a command line decides is what the reference parser says of
      it; a master creates one slave per identity, and which descriptors each of
      them holds; a first [init] makes a pusher ready to start with the last
      number of its database; a session listens on the addresses and the ports of
      its line in the file, and the destructor closes just these sockets.
    - Helpers: [send_all] sends everything in order; a listening socket is
      bound to the address and port asked for, or nothing is left open; an
      object is deleted by the release of its last reference and not before.
    - Concurrency: in every interleaving at most one thread has a region to
      itself, and nobody is inside then; the ring is a broadcast queue (a
      refinement of [broadcast_step]), a granted entry is never one that is
      still to be read, and the numbers have no gap; the delta queue is a
      bounded queue for the callers of [pop] ([queue_op]); any number of threads
      that call it at the same time take each message once and in order, and none
      of them stays inside ([popped_once], [pop_returns]); a thread that enters a
      free region is inside after four accesses of its own if no exchange fails
      spuriously and nobody changes the lock between them ([region_progress]);
      [start] and [stop] leave the threads running or at rest as their callers
      rely on, unless a thread has ended because the peer closed or a write
      failed, and for the pusher if its first [start] comes after its thread has
      paused ([pusher_stop_race] is what may happen otherwise).
    - Defects, each a theorem about the code as it is: the guard of
      [append_field], a stale pointer after [realloc], partial [writev], a batch
      that fills the vector, null entries after failed allocations, a gap in
      the sequence numbers, an empty message type, an unreachable branch, a
      [stop] that hangs after the peer has gone, a sticky [errno], oversized
      session messages, signed truncation of a data length, a byte order branch
      that does not follow the wire format; a null pointer in [resend], its
      numbering and its gap fills, a [start] that hangs and a [stop] that races
      with the thread; bits counted as bytes in marshalling, infinities and
      subnormals; time stamps bound to the wrong statement; unterminated
      configuration lines, a freed file name, endpoints without a port, stale
      [errno] and text accepted as numbers; expressions on which the rule engine
      runs for ever or leaves the text, and rules sorted the wrong way; poppers
      with a registration of their own, a thread [init] forgets; results whose
      sending is never reported as done, receives that ask for more than the
      command; sockets lost while connecting; a user changed before the group,
      a lock down whose failure nobody notices, defaults that are never used, a
      log prefix that is gone; an [init] that fails and a [start] that then
      pretends, a sequence number taken over from another database; entries that
      an early splitter commits before anybody is registered; sessions that accept
      nobody, hand on closed descriptors and lose open ones.

    ** Bounds and fuel

    [dec] takes one unit of fuel per bit ([dec_fuel_enough]).  [append_again]
    doubles the block at most 64 times before the size wraps.  [do_writev] is
    driven by the list of the kernel's answers.  [splitter_entry] has two rounds
    per byte, which [splitter_entry_terminates] shows to be enough for every
    entry when SOH is not a digit.  The theorems about the disruptor hold for
    runs of fewer than [2^62] steps, in which no 64 bit cursor wraps around; the
    protocols of [Popper] and [PusherControl] have finitely many states, their
    transitions are checked by evaluation.  [pack_fuel] bounds the loops that
    normalise a number by its exponent range ([ieee754_roundtrip] shows it to be
    enough, [pack754_defects] that none is for an infinity).  The loops of
    [ConfigFile] and [ConfigItems] consume a character per round, so the length
    of the buffer is fuel enough, which [itemize_spec], [tokens_loop_fields] and
    [get_loop_fields] show.  [evaluate_expression] has two rounds per character
    and two more, which [expression_left_to_right] shows to be enough for
    well formed expressions and [rule_engine_defects] to be too few, as any
    number is, for others; a command line takes one call of [argopt] per
    argument and one more ([command_line_parsed], [command_line_decides]).
    [send_all] and the loops of [recv_cmd] are driven by the answers of the
    system, the loop over the slaves by the number of identities.  The region
    lock is used by fewer than [2^32] threads, as its header demands.  In
    [Reception] the threads come to rest after a number of turns that [work]
    bounds ([runs_end]): at most eight per byte received and four per entry, apart
    from turns that have to wait; a [pop] of [Poppers] returns after nine steps of
    its own.  The loops of [Session] are driven by the answers of the system, a
    round of the accept loop, an attempt to connect or a sleep each.  Lengths are
    below [2^32] or [2^64] where the source keeps them in such integers; the
    statements say which.

    ** What is not modelled

    Memory orders weaker than sequential consistency, readers that register
    while entries are published, the locks and most allocation failures of the
    configuration, the debug output of the rule engine, the log calls of
    [GenericMain] (their prefix is gone, [logging_prefix_dead]), what the signal handlers
    do when a signal arrives, most destructors.  [fork] is modelled by the state
    the child starts in; the two processes are not interleaved, as neither of them
    uses the commands of [Ipc] yet.  [ipc_server.cpp] is commented out, and the
    thread of a session's instance uses a ring buffer that is declared nowhere.
    SQLite is third party code; [memsizes.c] is a program of the build;
    [stack_utils.h], [scm_state.cpp] and [macros.h] hold a stack trace, strings of
    the build and macros of the compiler; the tests are no part of the program.
    The calls of [RingQueue], [PopperQueues], [PusherQueues] and [Reception] happen
    at once; that publishers and readers may be interleaved is shown for the ring
    ([Disruptor]) and for the callers of [pop] ([Poppers]). *)
From stdpp Require Export base list list_numbers option strings gmap.
From Stdlib Require Export ZArith Lia.

#[global] Open Scope Z_scope.

(** ** Bytes, characters and C strings

    A byte ([uint8_t], or a [char] read as raw storage) is a [Z]; [is_byte]
    is its type invariant.  [schar] is the value the platform's (signed)
    [char] has for that storage: what an integer conversion of a [char]
    sees.  Machine integers are [Z] with the wrap-around written out. *)
Definition is_byte (b : Z) : Prop := 0 ≤ b < 256.

Definition bytes (l : list Z) : Prop := Forall is_byte l.

Definition u8 (z : Z) : Z := z mod 2 ^ 8.
Definition u16 (z : Z) : Z := z mod 2 ^ 16.
Definition u32 (z : Z) : Z := z mod 2 ^ 32.
Definition u64 (z : Z) : Z := z mod 2 ^ 64.

(** Two's complement reinterpretation of the low [w] bits. *)
Definition sint (w z : Z) : Z := (z + 2 ^ (w - 1)) mod 2 ^ w - 2 ^ (w - 1).
Definition schar (b : Z) : Z := sint 8 b.

(** The bytes of a string literal of the source. *)
Definition bytes_of_string (s : string) : list Z :=
  (λ b, Z.of_N (Byte.to_N b)) <$> String.list_byte_of_string s.

Definition ch_0 : Z := 48.
Definition ch_9 : Z := 57.
Definition ch_eq : Z := 61.

(** [isdigit] in the C locale. *)
Definition isdigit (c : Z) : bool := (ch_0 <=? c) && (c <=? ch_9).

(** [isspace] in the C locale. *)
Definition isspace (c : Z) : bool := (c =? 32) || ((9 <=? c) && (c <=? 13)).

Abbreviation zlen l := (Z.of_nat (length l)).

(** ** Flat memory

    A C buffer is the list of its bytes.  Every access is bounds checked:
    [None] is undefined behaviour (an access outside the object), never a
    defined result of the code. *)
Definition get_at (buf : list Z) (off : Z) : option Z :=
  if 0 <=? off then buf !! Z.to_nat off else None.

Definition read_at (buf : list Z) (off n : Z) : option (list Z) :=
  if (0 <=? off) && (0 <=? n) && (off + n <=? zlen buf)
  then Some (take (Z.to_nat n) (drop (Z.to_nat off) buf))
  else None.

Definition write_at (buf : list Z) (off : Z) (data : list Z) : option (list Z) :=
  if (0 <=? off) && (off + zlen data <=? zlen buf)
  then Some (take (Z.to_nat off) buf ++ data
               ++ drop (Z.to_nat off + length data) buf)
  else None.

(** The bytes of a zero terminated string up to (without) its terminator;
    [None] when the terminator is not inside the object. *)
Fixpoint cstr (l : list Z) : option (list Z) :=
  match l with
  | [] => None
  | c :: l' => if c =? 0 then Some [] else s ← cstr l'; Some (c :: s)
  end.

Definition cstr_at (buf : list Z) (off : Z) : option (list Z) :=
  if 0 <=? off then cstr (drop (Z.to_nat off) buf) else None.

(** [None] from a scan is a run off the end of the object.  [span_until c l]
    is the scan [while (c != *p) ++p]: the bytes before the first [c]. *)
Fixpoint span_until (c : Z) (l : list Z) : option (list Z) :=
  match l with
  | [] => None
  | x :: l' => if x =? c then Some [] else s ← span_until c l'; Some (x :: s)
  end.

(** ** Decimal numerals

    [dec n] is the canonical decimal numeral of [n >= 0]: what the C library
    writes for ["%llu"].  [dval] reads a digit string back. *)
Fixpoint dec_fuel (f : nat) (n : Z) : list Z :=
  match f with
  | O => []
  | S f' => if n <? 10 then [ch_0 + n]
            else dec_fuel f' (n / 10) ++ [ch_0 + n mod 10]
  end.

Definition dec (n : Z) : list Z := dec_fuel (S (Z.to_nat (Z.log2 n))) n.

(** [padded k n]: the [k] low order decimal digits, zero padded: ["%0*u"]
    when the value has at most [k] digits. *)
Fixpoint padded (k : nat) (n : Z) : list Z :=
  match k with
  | O => []
  | S k' => padded k' (n / 10) ++ [ch_0 + n mod 10]
  end.

Definition dstep (a c : Z) : Z := 10 * a + (c - ch_0).
Definition dval_from (a : Z) (l : list Z) : Z := foldl dstep a l.
Definition dval (l : list Z) : Z := dval_from 0 l.

Definition digits (l : list Z) : Prop := Forall (λ c, isdigit c = true) l.

(** ** Automation *)

Ltac zlen_simpl := repeat (rewrite length_app || rewrite length_cons || rewrite length_nil
  || rewrite length_replicate || rewrite Nat2Z.inj_add || rewrite Nat2Z.inj_succ).
Tactic Notation "zlen_simpl" "in" "*" :=
  repeat (rewrite length_app in * || rewrite length_cons in * || rewrite length_nil in *
  || rewrite length_replicate in * || rewrite Nat2Z.inj_add in * || rewrite Nat2Z.inj_succ in *).

(** Length arithmetic over concatenations. *)
Ltac llia := simpl length in *; zlen_simpl in *; lia.

(** Resolve the boolean comparisons of a goal one by one, by arithmetic. *)
Ltac bsolve_step :=
  match goal with
  | |- context [?a <? ?b] => first
      [ rewrite (proj2 (Z.ltb_lt a b)) by llia | rewrite (proj2 (Z.ltb_ge a b)) by llia ]
  | |- context [?a <=? ?b] => first
      [ rewrite (proj2 (Z.leb_le a b)) by llia | rewrite (proj2 (Z.leb_gt a b)) by llia ]
  | |- context [?a =? ?b] => first
      [ rewrite (proj2 (Z.eqb_eq a b)) by llia | rewrite (proj2 (Z.eqb_neq a b)) by llia ]
  end.
Ltac bsolve := repeat bsolve_step; cbn [andb orb negb].

(** Turn boolean comparisons of the hypotheses into arithmetic. *)
Ltac bool_hyps :=
  repeat match goal with
  | H : (_ && _)%bool = true |- _ => apply andb_true_iff in H as [? ?]
  | H : (_ || _)%bool = false |- _ => apply orb_false_iff in H as [? ?]
  | H : negb _ = true |- _ => apply negb_true_iff in H
  | H : negb _ = false |- _ => apply negb_false_iff in H
  | H : (_ <? _) = true |- _ => apply Z.ltb_lt in H
  | H : (_ <? _) = false |- _ => apply Z.ltb_ge in H
  | H : (_ <=? _) = true |- _ => apply Z.leb_le in H
  | H : (_ <=? _) = false |- _ => apply Z.leb_gt in H
  | H : (_ =? _) = true |- _ => apply Z.eqb_eq in H
  | H : (_ =? _) = false |- _ => apply Z.eqb_neq in H
  end.

(** Right nested normal form of a concatenation. *)
Ltac app_norm := repeat progress (rewrite <- ?app_assoc; cbn [app]).
Tactic Notation "app_norm" "in" "*" := repeat progress (rewrite <- ?app_assoc in *; cbn [app] in * ).

(** One step of an option computation whose first action is known. *)
Ltac obind := cbn [mbind option_bind].

(** Case analysis on the first action of an option computation. *)
Ltac opt_case :=
  match goal with
  | |- context [@mbind option _ _ _ _ ?x] =>
      first [ is_var x; destruct x | let E := fresh "E" in destruct x eqn:E ]; cbn [mbind option_bind]
  end.

(** The same by rewriting, for computations that must not be unfolded when
    the two sides are compared. *)
Lemma obind_eq {A B} (f : A → option B) (x : A) : (Some x ≫= f) = f x.
Proof. reflexivity. Qed.
Ltac obind_rw := rewrite obind_eq; cbv beta iota.

Create HintDb fix_db discriminated.

(** ** Generic lemmas *)

Lemma bytes_app l k : bytes (l ++ k) ↔ bytes l ∧ bytes k.
Proof. apply Forall_app. Qed.

Lemma bytes_of_string_bytes s : bytes (bytes_of_string s).
Proof.
  unfold bytes, bytes_of_string. rewrite Forall_fmap. apply Forall_true.
  intros b. unfold is_byte; simpl. pose proof (Byte.to_N_bounded b). lia.
Qed.

Lemma schar_small b : 0 ≤ b < 128 → schar b = b.
Proof.
  intros. unfold schar, sint. change (2 ^ (8 - 1)) with 128. change (2 ^ 8) with 256.
  rewrite Z.mod_small; lia.
Qed.

Lemma schar_large b : 128 ≤ b < 256 → schar b = b - 256.
Proof.
  intros. unfold schar, sint. change (2 ^ (8 - 1)) with 128. change (2 ^ 8) with 256.
  rewrite <- (Z_mod_plus_full _ (-1)). rewrite Z.mod_small; lia.
Qed.

Lemma sint_small w z : 0 < w → - 2 ^ (w - 1) ≤ z < 2 ^ (w - 1) → sint w z = z.
Proof.
  intros Hw Hz. unfold sint. assert (E : 2 ^ w = 2 * 2 ^ (w - 1)).
  { rewrite <- Z.pow_succ_r by lia. f_equal. lia. }
  rewrite Z.mod_small; lia.
Qed.

Lemma isdigit_spec c : isdigit c = true ↔ 48 ≤ c ≤ 57.
Proof. unfold isdigit, ch_0, ch_9. rewrite andb_true_iff, !Z.leb_le. lia. Qed.

Lemma isdigit_false c : isdigit c = false ↔ (c < 48 ∨ 57 < c).
Proof.
  destruct (isdigit c) eqn:E.
  - apply isdigit_spec in E. split; [done | lia].
  - split; [|done]. intros _. destruct (decide (48 ≤ c ≤ 57)) as [H|H]; [|lia].
    apply isdigit_spec in H. congruence.
Qed.

(** *** Bits *)

Lemma lor_add a b k : 0 ≤ k → a mod 2 ^ k = 0 → 0 ≤ b < 2 ^ k → Z.lor a b = a + b.
Proof.
  intros Hk Ha Hb.
  assert (Hd : Z.land a b = 0).
  { apply Z.bits_inj'. intros i Hi. rewrite Z.land_spec, Z.bits_0.
    destruct (Z.lt_ge_cases i k).
    - rewrite <- (Z.mod_pow2_bits_low a k i) by lia. by rewrite Ha, Z.bits_0.
    - rewrite <- (Z.mod_small b (2 ^ k)) by lia.
      rewrite (Z.mod_pow2_bits_high b k i) by lia. apply andb_false_r. }
  rewrite <- Z.lxor_lor by done. symmetry. by apply Z.add_nocarry_lxor.
Qed.

Lemma lor_mul q b k : 0 ≤ k → 0 ≤ b < 2 ^ k → Z.lor (q * 2 ^ k) b = q * 2 ^ k + b.
Proof. intros. apply (lor_add _ _ k); [done | apply Z_mod_mult | done]. Qed.

(** *** Memory *)

Lemma get_at_mid (a b : list Z) x off :
  off = zlen a → get_at (a ++ x :: b) off = Some x.
Proof.
  intros ->. unfold get_at. bsolve. rewrite Nat2Z.id. by apply list_lookup_middle.
Qed.

Lemma get_at_inside (l : list Z) off x :
  get_at l off = Some x → 0 ≤ off < zlen l.
Proof.
  unfold get_at. case_match; [|done]. intros Hl%lookup_lt_Some. bool_hyps. lia.
Qed.

Lemma get_at_outside (l : list Z) off : zlen l ≤ off → get_at l off = None.
Proof.
  intros. unfold get_at. case_match; [|done]. apply lookup_ge_None_2. lia.
Qed.

Lemma read_at_mid (a b c : list Z) off n :
  off = zlen a → n = zlen b → read_at (a ++ b ++ c) off n = Some b.
Proof.
  intros -> ->. unfold read_at. bsolve.
  rewrite !Nat2Z.id, drop_app_length, take_app_length. done.
Qed.

Lemma read_at_prefix (b c : list Z) n : n = zlen b → read_at (b ++ c) 0 n = Some b.
Proof. intros ->. by apply (read_at_mid [] b c). Qed.

Lemma write_at_mid (a b c d : list Z) off :
  off = zlen a → length d = length b → write_at (a ++ b ++ c) off d = Some (a ++ d ++ c).
Proof.
  intros -> Hd. unfold write_at. bsolve.
  rewrite Nat2Z.id, take_app_length, Hd, drop_app_add, drop_app_length. done.
Qed.

Lemma write_at_head (b c d : list Z) :
  length d = length b → write_at (b ++ c) 0 d = Some (d ++ c).
Proof. intros. by apply (write_at_mid [] b c d). Qed.

Lemma write_at_length buf off d buf' :
  write_at buf off d = Some buf' → length buf' = length buf.
Proof.
  unfold write_at. case_match eqn:E; [|done]. bool_hyps. intros [= <-].
  rewrite !length_app, length_take, length_drop. lia.
Qed.

Lemma write_at_outside buf off d :
  zlen buf < off + zlen d → write_at buf off d = None.
Proof. intros. unfold write_at. bsolve. by rewrite andb_false_r. Qed.

Lemma write_at_inside buf off d :
  0 ≤ off → off + zlen d ≤ zlen buf → is_Some (write_at buf off d).
Proof. intros. unfold write_at. bsolve. eauto. Qed.

Lemma write_at_split buf off d buf' :
  write_at buf off d = Some buf' →
  ∃ a b c, buf = a ++ b ++ c ∧ buf' = a ++ d ++ c ∧ off = zlen a ∧ length b = length d.
Proof.
  unfold write_at. case_match eqn:E; [|done]. bool_hyps. intros [= <-].
  exists (take (Z.to_nat off) buf), (take (length d) (drop (Z.to_nat off) buf)),
    (drop (Z.to_nat off + length d) buf).
  rewrite <- drop_drop, take_drop, take_drop, !length_take, length_drop.
  repeat split; lia.
Qed.

Lemma read_at_split buf off n d :
  read_at buf off n = Some d →
  ∃ a c, buf = a ++ d ++ c ∧ off = zlen a ∧ n = zlen d.
Proof.
  unfold read_at. case_match eqn:E; [|done]. bool_hyps. intros [= <-].
  exists (take (Z.to_nat off) buf), (drop (Z.to_nat off + Z.to_nat n) buf).
  rewrite <- drop_drop, take_drop, take_drop, !length_take, length_drop.
  repeat split; lia.
Qed.

Lemma read_after_write buf off d buf' :
  write_at buf off d = Some buf' → read_at buf' off (zlen d) = Some d.
Proof.
  intros (a & b & c & _ & -> & -> & _)%write_at_split. by apply read_at_mid.
Qed.

(** A store changes nothing outside the bytes it covers. *)
Lemma get_after_write_other buf off d buf' i :
  write_at buf off d = Some buf' → i < off ∨ off + zlen d ≤ i → get_at buf' i = get_at buf i.
Proof.
  intros (a & b & c & -> & -> & -> & Hb)%write_at_split Hi. unfold get_at.
  case_match; [|done]. bool_hyps. destruct (decide (i < zlen a)).
  - rewrite !lookup_app_l by lia. done.
  - rewrite !(lookup_app_r a), !(lookup_app_r _ c) by lia. by rewrite Hb.
Qed.

Lemma read_after_write_other buf off d buf' o n :
  write_at buf off d = Some buf' → o + n ≤ off ∨ off + zlen d ≤ o → read_at buf' o n = read_at buf o n.
Proof.
  intros Hw Ho. pose proof (write_at_length _ _ _ _ Hw) as Hlen.
  unfold read_at. rewrite Hlen. case_match eqn:E; [|done]. bool_hyps. f_equal.
  apply list_eq. intros i. destruct (decide (i < Z.to_nat n)%nat) as [Hi|Hi].
  - rewrite !lookup_take, !decide_True, !lookup_drop by done.
    pose proof (get_after_write_other _ _ _ _ (o + Z.of_nat i) Hw ltac:(lia)) as Hg.
    unfold get_at in Hg. rewrite !(proj2 (Z.leb_le 0 (o + Z.of_nat i))) in Hg by lia.
    by replace (Z.to_nat (o + Z.of_nat i)) with (Z.to_nat o + i)%nat in Hg by lia.
  - rewrite !lookup_take, !decide_False by lia. done.
Qed.

Lemma cstr_app (s r : list Z) : Forall (λ c, c ≠ 0) s → cstr (s ++ 0 :: r) = Some s.
Proof.
  induction 1 as [|c s Hc _ IH]; [done|]. simpl.
  rewrite (proj2 (Z.eqb_neq c 0)), IH by done. done.
Qed.

Lemma cstr_at_mid (a s r : list Z) off :
  off = zlen a → Forall (λ c, c ≠ 0) s → cstr_at (a ++ s ++ 0 :: r) off = Some s.
Proof.
  intros -> Hs. unfold cstr_at. bsolve. rewrite Nat2Z.id, drop_app_length.
  by apply cstr_app.
Qed.

Lemma span_until_app c (s r : list Z) :
  Forall (λ x, x ≠ c) s → span_until c (s ++ c :: r) = Some s.
Proof.
  induction 1 as [|x s Hx _ IH]; simpl.
  - by rewrite Z.eqb_refl.
  - rewrite (proj2 (Z.eqb_neq x c)), IH by done. done.
Qed.

Lemma span_until_None c (l : list Z) :
  span_until c l = None ↔ Forall (λ x, x ≠ c) l.
Proof.
  induction l as [|x l IH]; simpl; [by split; [constructor|]|].
  destruct (Z.eqb_spec x c) as [->|Hx].
  - split; [done|]. inversion 1; congruence.
  - rewrite Forall_cons. destruct (span_until c l); simpl.
    + split; [done|]. intros [_ H]. by apply IH in H.
    + split; [|done]. intros _. split; [done|]. by apply IH.
Qed.

Lemma span_until_Some c (l s : list Z) :
  span_until c l = Some s → Forall (λ x, x ≠ c) s ∧ ∃ r, l = s ++ c :: r.
Proof.
  revert s. induction l as [|x l IH]; intros s; simpl; [done|].
  destruct (Z.eqb_spec x c) as [->|Hx].
  - intros [= <-]. eauto.
  - destruct (span_until c l) as [s'|] eqn:E; simpl; [|done]. intros [= <-].
    destruct (IH s' eq_refl) as [? [r ->]]. eauto.
Qed.

(** *** Decimal numerals *)

Lemma log2_div10 n : 10 ≤ n → (Z.to_nat (Z.log2 (n / 10)) < Z.to_nat (Z.log2 n))%nat.
Proof.
  intros Hn.
  assert (Hq : 1 ≤ n / 10) by (apply Z.div_le_lower_bound; lia).
  assert (Hlt : Z.log2 (n / 10) < Z.log2 n).
  { apply (Z.lt_le_trans _ (Z.log2 (2 * (n / 10)))).
    - rewrite Z.log2_double by lia. lia.
    - apply Z.log2_le_mono. pose proof (Z.mul_div_le n 10). lia. }
  pose proof (Z.log2_nonneg (n / 10)). lia.
Qed.

Lemma dec_fuel_enough f f' n :
  0 ≤ n → (Z.to_nat (Z.log2 n) < f)%nat → (Z.to_nat (Z.log2 n) < f')%nat →
  dec_fuel f n = dec_fuel f' n.
Proof.
  revert f' n. induction f as [|f IH]; intros f' n Hn Hf Hf'; [lia|].
  destruct f' as [|f']; [lia|]. simpl. destruct (Z.ltb_spec n 10); [done|].
  pose proof (log2_div10 n ltac:(lia)).
  rewrite (IH f' (n / 10)); [done | apply Z.div_pos; lia | lia | lia].
Qed.

Lemma dec_small n : 0 ≤ n < 10 → dec n = [ch_0 + n].
Proof. intros. unfold dec. simpl. by rewrite (proj2 (Z.ltb_lt n 10)) by lia. Qed.

Lemma dec_step n : 10 ≤ n → dec n = dec (n / 10) ++ [ch_0 + n mod 10].
Proof.
  intros Hn. unfold dec at 1. simpl. rewrite (proj2 (Z.ltb_ge n 10)) by lia. f_equal.
  pose proof (log2_div10 n Hn). apply dec_fuel_enough; [apply Z.div_pos; lia | lia | lia].
Qed.

(** Induction along the numeral, most significant digits first. *)
Lemma dec_ind (P : Z → Prop) :
  (∀ n, 0 ≤ n < 10 → P n) → (∀ n, 10 ≤ n → P (n / 10) → P n) → ∀ n, 0 ≤ n → P n.
Proof.
  intros Hs Hstep n Hn. pattern n. apply Zlt_0_ind; [|done].
  intros x IH Hx. destruct (Z.lt_ge_cases x 10); [apply Hs; lia|].
  apply Hstep; [done|]. apply IH. split; [apply Z.div_pos; lia | apply Z.div_lt; lia].
Qed.

Lemma dec_digits n : 0 ≤ n → digits (dec n).
Proof.
  revert n. apply (dec_ind (λ n, digits (dec n))); intros n Hn.
  - rewrite dec_small by done. repeat constructor. apply isdigit_spec. unfold ch_0. lia.
  - intros IH. rewrite dec_step by done. apply Forall_app. split; [done|].
    repeat constructor. apply isdigit_spec. pose proof (Z.mod_pos_bound n 10). unfold ch_0. lia.
Qed.

Lemma dval_from_app a l k : dval_from a (l ++ k) = dval_from (dval_from a l) k.
Proof. apply foldl_app. Qed.

Lemma dval_from_dec a n : 0 ≤ n → dval_from a (dec n) = a * 10 ^ zlen (dec n) + n.
Proof.
  intros Hn. revert n Hn a.
  apply (dec_ind (λ n, ∀ a, dval_from a (dec n) = a * 10 ^ zlen (dec n) + n)); intros n Hn.
  - intros a. rewrite dec_small by done. unfold dval_from, dstep, ch_0. simpl. lia.
  - intros IH a. rewrite dec_step, dval_from_app, IH, length_app by done.
    unfold dval_from at 1, dstep. simpl foldl. simpl length.
    rewrite Nat2Z.inj_add, Z.pow_add_r by lia. change (10 ^ Z.of_nat 1) with 10.
    pose proof (Z.div_mod n 10 ltac:(lia)). lia.
Qed.

Lemma dval_dec n : 0 ≤ n → dval (dec n) = n.
Proof. intros. unfold dval. rewrite dval_from_dec by done. lia. Qed.

Lemma dec_length_pos n : (0 < length (dec n))%nat.
Proof.
  unfold dec. simpl. destruct (n <? 10); simpl; [lia|]. rewrite length_app. simpl. lia.
Qed.

Lemma dec_length_bounds n : 0 < n → 10 ^ (zlen (dec n) - 1) ≤ n < 10 ^ zlen (dec n).
Proof.
  intros Hn. assert (H0 : 0 ≤ n) by lia. revert n H0 Hn.
  apply (dec_ind (λ n, 0 < n → 10 ^ (zlen (dec n) - 1) ≤ n < 10 ^ zlen (dec n))); intros n Hn.
  - intros. rewrite dec_small by done. simpl. lia.
  - intros IH _.
    assert (1 ≤ n / 10) by (apply Z.div_le_lower_bound; lia).
    specialize (IH ltac:(lia)). pose proof (dec_length_pos (n / 10)) as Hp.
    rewrite dec_step, length_app, Nat2Z.inj_add by done.
    simpl (Z.of_nat (length [_])). revert IH Hp.
    generalize (length (dec (n / 10))). intros k IH Hk.
    replace (Z.of_nat k + Z.of_nat 1 - 1) with (Z.of_nat k) by lia. change (Z.of_nat 1) with 1.
    rewrite Z.pow_add_r, Z.pow_1_r by lia.
    assert (E : 10 ^ Z.of_nat k = 10 * 10 ^ (Z.of_nat k - 1))
      by (rewrite <- Z.pow_succ_r by lia; f_equal; lia).
    pose proof (Z.div_mod n 10 ltac:(lia)). pose proof (Z.mod_pos_bound n 10 ltac:(lia)). lia.
Qed.

Lemma dec_length_le n k : 0 ≤ n < 10 ^ k → 1 ≤ k → zlen (dec n) ≤ k.
Proof.
  intros [Hn Hk] H1. destruct (Z.lt_ge_cases n 10) as [|Hge].
  - rewrite dec_small by lia. simpl. lia.
  - destruct (Z.le_gt_cases (zlen (dec n)) k); [done|].
    pose proof (dec_length_bounds n ltac:(lia)).
    pose proof (Z.pow_le_mono_r 10 k (zlen (dec n) - 1)). lia.
Qed.

Lemma dec_length_eq n k : 1 ≤ k → 10 ^ (k - 1) ≤ n < 10 ^ k → zlen (dec n) = k.
Proof.
  intros Hk [Hlo Hhi]. pose proof (Z.pow_pos_nonneg 10 (k - 1) ltac:(lia) ltac:(lia)).
  assert (zlen (dec n) ≤ k) by (apply dec_length_le; lia).
  destruct (Z.lt_ge_cases (zlen (dec n)) k); [|lia].
  pose proof (dec_length_bounds n ltac:(lia)).
  pose proof (Z.pow_le_mono_r 10 (zlen (dec n)) (k - 1)). lia.
Qed.

(** A positive number's numeral does not start with ['0']. *)
Lemma dec_head n : 0 < n → ∃ d r, dec n = d :: r ∧ 49 ≤ d ≤ 57.
Proof.
  intros Hn. assert (H0 : 0 ≤ n) by lia. revert n H0 Hn.
  apply (dec_ind (λ n, 0 < n → ∃ d r, dec n = d :: r ∧ 49 ≤ d ≤ 57)); intros n Hn.
  - intros. rewrite dec_small by done. exists (ch_0 + n), []. unfold ch_0. split; [done | lia].
  - intros IH _. destruct IH as (d & r & Hd & ?); [apply Z.div_str_pos; lia|].
    rewrite dec_step by done. rewrite Hd. simpl. eauto.
Qed.

Lemma digit_range c : isdigit c = true → 0 ≤ c - ch_0 ≤ 9.
Proof. intros ?%isdigit_spec. unfold ch_0. lia. Qed.

Lemma dval_from_ge a l : digits l → 0 ≤ a → a ≤ dval_from a l.
Proof.
  revert a. induction l as [|c l IH]; intros a Hl Ha; [simpl; lia|].
  apply Forall_cons in Hl as [Hc Hl]. apply digit_range in Hc.
  change (dval_from a (c :: l)) with (dval_from (dstep a c) l).
  specialize (IH (dstep a c) Hl). unfold dstep in *. lia.
Qed.

Lemma dval_from_lt a l : digits l → 0 ≤ a → dval_from a l < (a + 1) * 10 ^ zlen l.
Proof.
  revert a. induction l as [|c l IH]; intros a Hl Ha; [simpl; lia|].
  apply Forall_cons in Hl as [Hc Hl]. apply digit_range in Hc.
  change (dval_from a (c :: l)) with (dval_from (dstep a c) l).
  assert (0 ≤ dstep a c) by (unfold dstep; lia).
  specialize (IH (dstep a c) Hl ltac:(done)).
  rewrite length_cons, Nat2Z.inj_succ, Z.pow_succ_r by lia.
  assert (dstep a c + 1 ≤ 10 * (a + 1)) by (unfold dstep; lia).
  pose proof (Z.pow_pos_nonneg 10 (zlen l) ltac:(lia) ltac:(lia)). nia.
Qed.

Lemma dec_nonzero_bytes n : 0 ≤ n → Forall (λ c, c ≠ 0) (dec n).
Proof.
  intros Hn. eapply Forall_impl; [by apply dec_digits|]. intros c ?%isdigit_spec. lia.
Qed.

Lemma length_padded k n : length (padded k n) = k.
Proof. revert n. induction k; intros; simpl; [done|]. rewrite length_app, IHk. simpl. lia. Qed.

Lemma padded_digits k n : digits (padded k n).
Proof.
  revert n. induction k as [|k IH]; intros; simpl; [constructor|].
  apply Forall_app. split; [apply IH|]. repeat constructor. apply isdigit_spec.
  pose proof (Z.mod_pos_bound n 10). unfold ch_0. lia.
Qed.

Lemma dval_padded k n : 0 ≤ n → dval (padded k n) = n mod 10 ^ Z.of_nat k.
Proof.
  revert n. induction k as [|k IH]; intros n Hn; [simpl; by rewrite Z.mod_1_r|].
  simpl padded. unfold dval. rewrite dval_from_app. fold (dval (padded k (n / 10))).
  rewrite IH by (apply Z.div_pos; lia). unfold dval_from, dstep. simpl foldl.
  rewrite Nat2Z.inj_succ, Z.pow_succ_r, Z.rem_mul_r by lia. lia.
Qed.

Lemma padded_dec k n : (length (dec n) = k)%nat → 0 ≤ n → padded k n = dec n.
Proof.
  intros <- Hn. revert n Hn. apply (dec_ind (λ n, padded (length (dec n)) n = dec n)); intros n Hn.
  - rewrite dec_small by done. simpl. by rewrite Z.mod_small.
  - intros IH. rewrite dec_step by done. rewrite length_app, Nat.add_comm. simpl. by rewrite IH.
Qed.

(** *** Finite checks

    A statement about all states of a finite protocol is a test evaluated over
    the enumerations of its components. *)
Definition for_all {X} (l : list X) (f : X → bool) : bool := forallb f l.

Lemma for_all_spec {X} (l : list X) f x : for_all l f = true → In x l → f x = true.
Proof. unfold for_all. rewrite forallb_forall. auto. Qed.

#[export] Hint Resolve dec_digits dec_nonzero_bytes bytes_of_string_bytes : fix_db.

(** Numerals are reasoned about by their equations ([dec_small], [dec_step]),
    never by unfolding; [vm_compute] still evaluates them. *)
#[global] Opaque dec.
