(* ===== verification/Primitives.v ===== *)
(** * Big endian integers in byte buffers: [src/stdlib/marshal/primitives.h]

    [Module LittleEndianHost] is the [HAVE_LITTLE_ENDIAN] branch of the header
    and [Module BigEndianHost] the [HAVE_BIG_ENDIAN] branch; the functions keep
    their names.  A [uint8_t*] argument is a buffer and an offset into it; an
    access outside the buffer is [None].  The other files use the little
    endian branch. *)
From S2P Require Import Prelude.

Module LittleEndianHost.

Definition setu64 (buf : list Z) (off val : Z) : option (list Z) :=
  write_at buf off
    [ Z.shiftr (Z.land val 0xFF00000000000000) 56;
      Z.shiftr (Z.land val 0x00FF000000000000) 48;
      Z.shiftr (Z.land val 0x0000FF0000000000) 40;
      Z.shiftr (Z.land val 0x000000FF00000000) 32;
      Z.shiftr (Z.land val 0x00000000FF000000) 24;
      Z.shiftr (Z.land val 0x0000000000FF0000) 16;
      Z.shiftr (Z.land val 0x000000000000FF00) 8;
      Z.land val 0x00000000000000FF ].

Definition getu64 (buf : list Z) (off : Z) : option Z :=
  match read_at buf off 8 with
  | Some [b0; b1; b2; b3; b4; b5; b6; b7] =>
      let retv := 0 in
      let retv := Z.lor retv (u64 (Z.shiftl b0 56)) in
      let retv := Z.lor retv (u64 (Z.shiftl b1 48)) in
      let retv := Z.lor retv (u64 (Z.shiftl b2 40)) in
      let retv := Z.lor retv (u64 (Z.shiftl b3 32)) in
      let retv := Z.lor retv (u64 (Z.shiftl b4 24)) in
      let retv := Z.lor retv (u64 (Z.shiftl b5 16)) in
      let retv := Z.lor retv (u64 (Z.shiftl b6 8)) in
      Some (Z.lor retv b7)
  | _ => None
  end.

Definition setu32 (buf : list Z) (off val : Z) : option (list Z) :=
  write_at buf off
    [ Z.shiftr (Z.land val 0xFF000000) 24;
      Z.shiftr (Z.land val 0x00FF0000) 16;
      Z.shiftr (Z.land val 0x0000FF00) 8;
      Z.land val 0x000000FF ].

(** The shifts are done at [int] width; the conversion to [uint32_t] of the
    result wraps. *)
Definition getu32 (buf : list Z) (off : Z) : option Z :=
  match read_at buf off 4 with
  | Some [b0; b1; b2; b3] =>
      Some (u32 (Z.lor (Z.lor (Z.lor (Z.shiftl b0 24) (Z.shiftl b1 16))
                              (Z.shiftl b2 8)) b3))
  | _ => None
  end.

Definition setu16 (buf : list Z) (off val : Z) : option (list Z) :=
  write_at buf off [ Z.shiftr (Z.land val 0xFF00) 8; Z.land val 0x00FF ].

Definition getu16 (buf : list Z) (off : Z) : option Z :=
  match read_at buf off 2 with
  | Some [b0; b1] => Some (u16 (Z.lor (Z.shiftl b0 8) b1))
  | _ => None
  end.

End LittleEndianHost.

Module BigEndianHost.

Definition setu64 (buf : list Z) (off val : Z) : option (list Z) :=
  write_at buf off
    [ Z.land val 0x00000000000000FF;
      Z.shiftr (Z.land val 0x000000000000FF00) 8;
      Z.shiftr (Z.land val 0x0000000000FF0000) 16;
      Z.shiftr (Z.land val 0x00000000FF000000) 24;
      Z.shiftr (Z.land val 0x000000FF00000000) 32;
      Z.shiftr (Z.land val 0x0000FF0000000000) 40;
      Z.shiftr (Z.land val 0x00FF000000000000) 48;
      Z.shiftr (Z.land val 0xFF00000000000000) 56 ].

Definition getu64 (buf : list Z) (off : Z) : option Z :=
  match read_at buf off 8 with
  | Some [b0; b1; b2; b3; b4; b5; b6; b7] =>
      let retv := 0 in
      let retv := Z.lor retv (u64 (Z.shiftl b7 56)) in
      let retv := Z.lor retv (u64 (Z.shiftl b6 48)) in
      let retv := Z.lor retv (u64 (Z.shiftl b5 40)) in
      let retv := Z.lor retv (u64 (Z.shiftl b4 32)) in
      let retv := Z.lor retv (u64 (Z.shiftl b3 24)) in
      let retv := Z.lor retv (u64 (Z.shiftl b2 16)) in
      let retv := Z.lor retv (u64 (Z.shiftl b1 8)) in
      Some (Z.lor retv b0)
  | _ => None
  end.

Definition setu32 (buf : list Z) (off val : Z) : option (list Z) :=
  write_at buf off
    [ Z.land val 0x000000FF;
      Z.shiftr (Z.land val 0x0000FF00) 8;
      Z.shiftr (Z.land val 0x00FF0000) 16;
      Z.shiftr (Z.land val 0xFF000000) 24 ].

Definition getu32 (buf : list Z) (off : Z) : option Z :=
  match read_at buf off 4 with
  | Some [b0; b1; b2; b3] =>
      Some (u32 (Z.lor (Z.lor (Z.lor (Z.shiftl b3 24) (Z.shiftl b2 16))
                              (Z.shiftl b1 8)) b0))
  | _ => None
  end.

Definition setu16 (buf : list Z) (off val : Z) : option (list Z) :=
  write_at buf off [ Z.land val 0x00FF; Z.shiftr (Z.land val 0xFF00) 8 ].

Definition getu16 (buf : list Z) (off : Z) : option Z :=
  match read_at buf off 2 with
  | Some [b0; b1] => Some (u16 (Z.lor (Z.shiftl b1 8) b0))
  | _ => None
  end.

End BigEndianHost.

Export LittleEndianHost.

(** ** Bit level lemmas *)

Lemma byte_extract k val :
  0 ≤ k → Z.shiftr (Z.land val (Z.shiftl 255 k)) k = (val / 2 ^ k) mod 256.
Proof.
  intros. rewrite Z.shiftr_land, Z.shiftr_shiftl_l, Z.sub_diag, Z.shiftl_0_r by lia.
  change 255 with (Z.ones 8). rewrite Z.land_ones by lia. by rewrite Z.shiftr_div_pow2.
Qed.

Lemma byte_extract_0 val : Z.land val 255 = val mod 256.
Proof. change 255 with (Z.ones 8). by rewrite Z.land_ones. Qed.

(** The wire form: most significant byte first. *)
Fixpoint be_bytes (n : nat) (val : Z) : list Z :=
  match n with
  | O => []
  | S n' => (val / 2 ^ (8 * Z.of_nat n')) mod 256 :: be_bytes n' val
  end.

Definition be_value (l : list Z) : Z := foldl (λ a b, 256 * a + b) 0 l.

Lemma length_be_bytes n val : length (be_bytes n val) = n.
Proof. induction n; simpl; auto. Qed.

Lemma bytes_be_bytes n val : bytes (be_bytes n val).
Proof.
  induction n; simpl; constructor; [|done].
  unfold is_byte. pose proof (Z.mod_pos_bound (val / 2 ^ (8 * Z.of_nat n)) 256). lia.
Qed.

Lemma be_value_from a l : foldl (λ a b, 256 * a + b) a l = a * 256 ^ zlen l + be_value l.
Proof.
  unfold be_value. revert a. induction l as [|b l IH]; intros a; [simpl; lia|].
  cbn [foldl]. rewrite (IH (256 * a + b)), (IH (256 * 0 + b)), length_cons, Nat2Z.inj_succ,
    Z.pow_succ_r by lia. lia.
Qed.

Lemma be_value_cons b l : be_value (b :: l) = b * 256 ^ zlen l + be_value l.
Proof. unfold be_value at 1. cbn [foldl]. rewrite be_value_from. lia. Qed.

Lemma be_value_be_bytes n val :
  be_value (be_bytes n val) = val mod 2 ^ (8 * Z.of_nat n).
Proof.
  induction n as [|n IH].
  - simpl. by rewrite Z.mod_1_r.
  - cbn [be_bytes]. rewrite be_value_cons, IH, length_be_bytes.
    change 256 with (2 ^ 8) at 2. rewrite <- Z.pow_mul_r by lia.
    replace (8 * Z.of_nat (S n)) with (8 * Z.of_nat n + 8) by lia.
    rewrite Z.pow_add_r, (Z.rem_mul_r val) by lia. change (2 ^ 8) with 256. lia.
Qed.

Lemma be_value_bound l : bytes l → 0 ≤ be_value l < 256 ^ zlen l.
Proof.
  induction 1 as [|b l Hb _ IH]; [done|].
  rewrite be_value_cons, length_cons, Nat2Z.inj_succ, Z.pow_succ_r by lia.
  unfold is_byte in Hb. nia.
Qed.

Lemma be_bytes_be_value l : bytes l → be_bytes (length l) (be_value l) = l.
Proof.
  intros Hl. enough (∀ q, be_bytes (length l) (q * 256 ^ zlen l + be_value l) = l) as H
    by (specialize (H 0); by rewrite Z.mul_0_l, Z.add_0_l in H).
  induction Hl as [|b l Hb Hl IH]; intros q; [done|].
  cbn [length be_bytes]. rewrite be_value_cons, Nat2Z.inj_succ, Z.pow_succ_r by lia.
  replace (q * (256 * 256 ^ zlen l) + (b * 256 ^ zlen l + be_value l))
    with ((256 * q + b) * 256 ^ zlen l + be_value l) by lia.
  f_equal; [|apply IH].
  change 256 with (2 ^ 8) at 2. rewrite <- Z.pow_mul_r by lia.
  pose proof (be_value_bound l Hl) as Hv. change 256 with (2 ^ 8) in Hv.
  rewrite <- Z.pow_mul_r in Hv by lia.
  rewrite Z.div_add_l by lia. rewrite (Z.div_small (be_value l)), Z.add_0_r by lia.
  unfold is_byte in Hb. replace (256 * q + b) with (b + q * 256) by lia.
  rewrite Z_mod_plus_full. apply Z.mod_small. lia.
Qed.

(** ** What the stores write and the loads read *)

Ltac store_bytes f :=
  intros; unfold f; cbn [be_bytes];
  repeat match goal with
  | |- context [8 * Z.of_nat ?n] => let c := eval vm_compute in (8 * Z.of_nat n) in
      change (8 * Z.of_nat n) with c
  end;
  rewrite <- ?byte_extract, ?byte_extract_0 by lia; rewrite ?Z.shiftr_0_r; reflexivity.

Lemma setu64_be buf off val : setu64 buf off val = write_at buf off (be_bytes 8 val).
Proof. store_bytes setu64. Qed.
Lemma setu32_be buf off val : setu32 buf off val = write_at buf off (be_bytes 4 val).
Proof. store_bytes setu32. Qed.
Lemma setu16_be buf off val : setu16 buf off val = write_at buf off (be_bytes 2 val).
Proof. store_bytes setu16. Qed.

(** Accumulating one more byte below the bytes gathered so far. *)
Lemma lor_acc r b m k :
  0 ≤ k → is_byte b → 0 ≤ m → Z.lor (r * 2 ^ (k + 8)) (b * 2 ^ k) = (256 * r + b) * 2 ^ k.
Proof.
  intros Hk Hb Hm. unfold is_byte in Hb.
  rewrite (lor_add _ _ (k + 8)).
  - rewrite Z.pow_add_r by lia. change (2 ^ 8) with 256. lia.
  - lia.
  - apply Z_mod_mult.
  - rewrite Z.pow_add_r by lia. change (2 ^ 8) with 256. nia.
Qed.

Lemma getu64_be buf off l :
  read_at buf off 8 = Some l → bytes l → getu64 buf off = Some (be_value l).
Proof.
  intros Hr Hl. unfold getu64. rewrite Hr.
  assert (Hlen : length l = 8%nat).
  { unfold read_at in Hr. case_match eqn:E; [|done]. bool_hyps. injection Hr as <-.
    rewrite length_take, length_drop. lia. }
  do 8 (destruct l as [|? l]; [discriminate|]). destruct l; [|discriminate].
  unfold bytes in Hl. decompose_Forall.
  unfold be_value. cbn [foldl]. f_equal. unfold u64.
  repeat match goal with |- context [Z.shiftl ?b ?k mod 2 ^ 64] =>
    rewrite (Z.mod_small (Z.shiftl b k)) by
      (rewrite Z.shiftl_mul_pow2 by lia; unfold is_byte in *; lia)
  end.
  rewrite !Z.shiftl_mul_pow2 by lia. rewrite Z.lor_0_l.
  replace (z * 2 ^ 56) with ((256 * 0 + z) * 2 ^ (48 + 8)) by lia.
  rewrite (lor_acc _ z0 0 48) by (done || lia).
  change 48 with (40 + 8) at 1. rewrite (lor_acc _ z1 0 40) by (done || lia).
  change 40 with (32 + 8) at 1. rewrite (lor_acc _ z2 0 32) by (done || lia).
  change 32 with (24 + 8) at 1. rewrite (lor_acc _ z3 0 24) by (done || lia).
  change 24 with (16 + 8) at 1. rewrite (lor_acc _ z4 0 16) by (done || lia).
  change 16 with (8 + 8) at 1. rewrite (lor_acc _ z5 0 8) by (done || lia).
  change 8 with (0 + 8) at 1. rewrite <- (Z.mul_1_r z6) at 1. change 1 with (2 ^ 0).
  rewrite (lor_acc _ z6 0 0) by (done || lia). lia.
Qed.

Lemma getu32_be buf off l :
  read_at buf off 4 = Some l → bytes l → getu32 buf off = Some (be_value l).
Proof.
  intros Hr Hl. unfold getu32. rewrite Hr.
  assert (Hlen : length l = 4%nat).
  { unfold read_at in Hr. case_match eqn:E; [|done]. bool_hyps. injection Hr as <-.
    rewrite length_take, length_drop. lia. }
  pose proof (be_value_bound l Hl) as Hv. rewrite Hlen in Hv.
  do 4 (destruct l as [|? l]; [discriminate|]). destruct l; [|discriminate].
  unfold bytes in Hl. decompose_Forall.
  rewrite <- (Z.mod_small (be_value _) (2 ^ 32)) by (unfold be_value in *; simpl in *; lia).
  unfold u32. do 2 f_equal. unfold be_value. cbn [foldl].
  rewrite !Z.shiftl_mul_pow2 by lia.
  replace (z * 2 ^ 24) with ((256 * 0 + z) * 2 ^ (16 + 8)) by lia.
  rewrite (lor_acc _ z0 0 16) by (done || lia).
  change 16 with (8 + 8) at 1. rewrite (lor_acc _ z1 0 8) by (done || lia).
  change 8 with (0 + 8) at 1. rewrite <- (Z.mul_1_r z2) at 1. change 1 with (2 ^ 0).
  rewrite (lor_acc _ z2 0 0) by (done || lia). lia.
Qed.

Lemma getu16_be buf off l :
  read_at buf off 2 = Some l → bytes l → getu16 buf off = Some (be_value l).
Proof.
  intros Hr Hl. unfold getu16. rewrite Hr.
  destruct (read_at_split _ _ _ _ Hr) as (_ & _ & _ & _ & Hlen).
  pose proof (be_value_bound l Hl) as Hv. rewrite <- Hlen in Hv.
  do 2 (destruct l as [|? l]; [simpl in Hlen; lia|]). destruct l; [|simpl in Hlen; lia].
  unfold bytes in Hl. decompose_Forall.
  rewrite <- (Z.mod_small (be_value _) (2 ^ 16)) by lia.
  unfold u16. do 2 f_equal. unfold be_value. cbn [foldl].
  rewrite !Z.shiftl_mul_pow2 by lia.
  replace (z * 2 ^ 8) with ((256 * 0 + z) * 2 ^ (0 + 8)) by lia.
  rewrite <- (Z.mul_1_r z0) at 1. change 1 with (2 ^ 0).
  rewrite (lor_acc _ z0 0 0) by (done || lia). lia.
Qed.

(** Reading back what a store of [n] big endian bytes left. *)
Lemma be_load_after_store n buf off val buf' (get : list Z → Z → option Z) :
  (∀ b o l, read_at b o (Z.of_nat n) = Some l → bytes l → get b o = Some (be_value l)) →
  0 ≤ val < 2 ^ (8 * Z.of_nat n) →
  write_at buf off (be_bytes n val) = Some buf' → get buf' off = Some val.
Proof.
  intros Hget Hval Hw. pose proof (read_after_write _ _ _ _ Hw) as Hr.
  rewrite length_be_bytes in Hr. rewrite (Hget _ _ _ Hr (bytes_be_bytes _ _)).
  rewrite be_value_be_bytes, Z.mod_small by lia. done.
Qed.

Lemma getu64_setu64 buf off val buf' :
  0 ≤ val < 2 ^ 64 → setu64 buf off val = Some buf' → getu64 buf' off = Some val.
Proof. rewrite setu64_be. intros. by apply (be_load_after_store 8 buf off val buf' _ getu64_be). Qed.

Lemma getu32_setu32 buf off val buf' :
  0 ≤ val < 2 ^ 32 → setu32 buf off val = Some buf' → getu32 buf' off = Some val.
Proof. rewrite setu32_be. intros. by apply (be_load_after_store 4 buf off val buf' _ getu32_be). Qed.

Lemma getu16_setu16 buf off val buf' :
  0 ≤ val < 2 ^ 16 → setu16 buf off val = Some buf' → getu16 buf' off = Some val.
Proof. rewrite setu16_be. intros. by apply (be_load_after_store 2 buf off val buf' _ getu16_be). Qed.

#[export] Hint Resolve getu64_setu64 getu32_setu32 getu16_setu16 : fix_db.

(** ** Properties *)

(** the stores write the value most significant byte first, the loads
    read it back, and nothing outside the stored bytes changes: for every
    buffer and offset, and every value of the 16, 32 or 64 bit type. *)
Theorem primitives_roundtrip buf off val buf' :
  (setu64 buf off val = Some buf' → 0 ≤ val < 2 ^ 64 →
     getu64 buf' off = Some val ∧ read_at buf' off 8 = Some (be_bytes 8 val)
     ∧ ∀ i, i < off ∨ off + 8 ≤ i → get_at buf' i = get_at buf i) ∧
  (setu32 buf off val = Some buf' → 0 ≤ val < 2 ^ 32 →
     getu32 buf' off = Some val ∧ read_at buf' off 4 = Some (be_bytes 4 val)
     ∧ ∀ i, i < off ∨ off + 4 ≤ i → get_at buf' i = get_at buf i) ∧
  (setu16 buf off val = Some buf' → 0 ≤ val < 2 ^ 16 →
     getu16 buf' off = Some val ∧ read_at buf' off 2 = Some (be_bytes 2 val)
     ∧ ∀ i, i < off ∨ off + 2 ≤ i → get_at buf' i = get_at buf i).
Proof.
  split; [|split]; intros Hw Hv; (split; [eauto with fix_db|]);
    rewrite ?setu64_be, ?setu32_be, ?setu16_be in Hw;
    (split; [exact (read_after_write _ _ _ _ Hw)|]);
    intros i Hi; exact (get_after_write_other _ _ _ _ _ Hw Hi).
Qed.

(** The [HAVE_BIG_ENDIAN] branch puts the least significant byte first
    on the wire, the reverse of the header's documented byte order and of what
    the little endian branch writes, for every value. *)
Theorem big_endian_host_reverses_wire buf off val :
  BigEndianHost.setu64 buf off val = write_at buf off (rev (be_bytes 8 val)) ∧
  BigEndianHost.setu32 buf off val = write_at buf off (rev (be_bytes 4 val)) ∧
  BigEndianHost.setu16 buf off val = write_at buf off (rev (be_bytes 2 val)).
Proof.
  repeat split; [unfold BigEndianHost.setu64 | unfold BigEndianHost.setu32
                | unfold BigEndianHost.setu16];
  cbn [be_bytes rev app];
  repeat match goal with
  | |- context [8 * Z.of_nat ?n] => let c := eval vm_compute in (8 * Z.of_nat n) in
      change (8 * Z.of_nat n) with c
  end;
  rewrite <- ?byte_extract, ?byte_extract_0 by lia; rewrite ?Z.shiftr_0_r; reflexivity.
Qed.

Lemma primitives_roundtrip_witness :
  setu64 (replicate 10 255) 1 0x0102030405060708
    = Some [255; 1; 2; 3; 4; 5; 6; 7; 8; 255]
  ∧ getu64 [255; 1; 2; 3; 4; 5; 6; 7; 8; 255] 1 = Some 0x0102030405060708
  ∧ getu32 [255; 128; 0; 0; 9; 255] 1 = Some 0x80000009
  ∧ getu16 [255; 128; 9; 255] 1 = Some 0x8009.
Proof.
  split; [vm_compute; reflexivity|]. split; [|split].
  - apply (proj1 (primitives_roundtrip (replicate 10 255) 1 0x0102030405060708
      [255; 1; 2; 3; 4; 5; 6; 7; 8; 255])); [vm_compute; reflexivity | lia].
  - apply (proj1 (proj2 (primitives_roundtrip (replicate 6 255) 1 0x80000009
      [255; 128; 0; 0; 9; 255]))); [vm_compute; reflexivity | lia].
  - apply (proj2 (proj2 (primitives_roundtrip (replicate 4 255) 1 0x8009
      [255; 128; 9; 255]))); [vm_compute; reflexivity | lia].
Defined.
