(* ===== verification/FixMsgUtils.v ===== *)
(** * Tag, length and decimal conversions: [src/applib/fixutils/fixmsg_utils.cpp]

    The functions that parse a tag or a length value walk a [const char*]
    forward; the argument is the memory from that pointer to the end of the
    object, the result carries what is left of it.  [None] is a run past the
    end of the object. *)
From S2P Require Import Prelude.

Definition INT_MAX : Z := 2 ^ 31 - 1.
Definition LLONG_MAX : Z := 2 ^ 63 - 1.
Definition MAX_TAG__ : Z := (INT_MAX - 9) / 10.
Definition MAX_LENGTH__ : Z := (LLONG_MAX - 9) / 10.

(** The [do ... while (1)] of [get_fix_tag]: [str] starts at the character
    held in [c].  The bytes are [char]s, compared at their signed value. *)
Fixpoint get_fix_tag_loop (num : Z) (str : list Z) : option (Z * list Z) :=
  match str with
  | [] => None
  | c :: str' =>
      if (schar c <? ch_0) || (ch_9 <? schar c) then Some (-1, str)
      else if MAX_TAG__ <? num then Some (-1, str)
      else
        let num := 10 * num + (schar c - ch_0) in
        match str' with
        | [] => None
        | c' :: str'' =>
            if schar c' =? ch_eq then Some (num, str'') else get_fix_tag_loop num str'
        end
  end.

Definition get_fix_tag (str : list Z) : option (Z * list Z) :=
  match str with
  | [] => None
  | c :: _ =>
      if (schar c =? ch_eq) || (schar c =? ch_0) then Some (-1, str)
      else get_fix_tag_loop 0 str
  end.

Fixpoint get_fix_length_value_loop (soh num : Z) (str : list Z) : option Z :=
  match str with
  | [] => None
  | c :: str' =>
      if (schar c <? ch_0) || (ch_9 <? schar c) then Some (-1)
      else if MAX_LENGTH__ <? num then Some (-1)
      else
        let num := 10 * num + (schar c - ch_0) in
        match str' with
        | [] => None
        | c' :: _ =>
            if schar soh =? schar c' then Some num
            else get_fix_length_value_loop soh num str'
        end
  end.

Definition get_fix_length_value (soh : Z) (str : list Z) : option Z :=
  get_fix_length_value_loop soh 0 str.

(** The digits are stored from the terminator backwards: the [do] loop of
    [uint_to_str] below position [pos].  The loop ends when the value is
    zero: 20 rounds are enough for a 64 bit value. *)
Fixpoint store_digits_down (fuel : nat) (value : Z) (buf : list Z) (pos : Z) : option (list Z) :=
  match fuel with
  | O => None
  | S f =>
      buf ← write_at buf (pos - 1) [u8 (ch_0 + value mod 10)];
      if value / 10 =? 0 then Some buf else store_digits_down f (value / 10) buf (pos - 1)
  end.

(** The ladder of comparisons that sizes the numeral; [None] is the branch
    that falls back to [sprintf]. *)
Definition uint_to_str_size (value : Z) : option Z :=
  if 10000 <=? value then
    if 10000000 <=? value then
      if 1000000000 <=? value then
        if 10000000000 <=? value then None else Some 10
      else if 100000000 <=? value then Some 9 else Some 8
    else if 1000000 <=? value then Some 7
    else if 100000 <=? value then Some 6 else Some 5
  else if 100 <=? value then
    if 1000 <=? value then Some 4 else Some 3
  else if 10 <=? value then Some 2 else Some 1.

(** [uint_to_str(terminator, value, &str)] with [str] at offset [off] of
    [buf]: the new buffer and the new offset of [str]. *)
Definition uint_to_str (terminator value : Z) (buf : list Z) (off : Z)
    : option (list Z * Z) :=
  match uint_to_str_size value with
  | None =>
      (* sprintf to str, advance to the NUL, overwrite it *)
      buf ← write_at buf off (dec value ++ [0]);
      s ← cstr_at buf off;
      buf ← write_at buf (off + zlen s) [terminator];
      Some (buf, off + zlen s)
  | Some size =>
      buf ← write_at buf (off + size) [terminator];
      buf ← store_digits_down 20 value buf (off + size);
      Some (buf, off + size)
  end.

(** The [while (pos != *str)] loop of [uint_to_str_zero_padded]: [pos] bytes
    are left in front, [used] counts the bytes written.  [inl ret] is an early
    return. *)
Fixpoint zero_padded_loop (fuel : nat) (available used value pos : Z) (buf : list Z) (str : Z)
    : option (list Z * (Z + Z)) :=
  if pos =? str then Some (buf, inr value)
  else
    match fuel with
    | O => None
    | S f =>
        if used <? available then
          let digit := value mod 10 in
          let value := value / 10 in
          buf ← write_at buf (pos - 1) [u8 (ch_0 + digit)];
          zero_padded_loop f available (used + 1) value (pos - 1) buf str
        else Some (buf, inl 1)
    end.

(** Result: the return value (0 is success), the buffer and the new offset. *)
Definition uint_to_str_zero_padded (available terminator value : Z) (buf : list Z) (str : Z)
    : option (Z * list Z * Z) :=
  if available =? 0 then Some (1, buf, str)
  else
    let pos := str + available in
    buf ← write_at buf (pos - 1) [terminator];
    match zero_padded_loop (Z.to_nat available) available 1 value (pos - 1) buf str with
    | None => None
    | Some (buf, inl ret) => Some (ret, buf, str)
    | Some (buf, inr value) =>
        if value =? 0 then Some (0, buf, str + (available - 1)) else Some (1, buf, str)
    end.

(** ** Parsing a tag *)

Lemma digit_schar c : isdigit c = true → schar c = c.
Proof. intros ?%isdigit_spec. apply schar_small. lia. Qed.

Lemma not_digit_schar c :
  is_byte c → (schar c <? ch_0) || (ch_9 <? schar c) = negb (isdigit c).
Proof.
  intros Hc. unfold is_byte in Hc. destruct (decide (c < 128)).
  - rewrite schar_small by lia. unfold isdigit. rewrite negb_andb, !Z.leb_antisym, !negb_involutive.
    done.
  - rewrite schar_large by lia. rewrite (proj2 (isdigit_false c)) by lia.
    unfold ch_0, ch_9. by rewrite (proj2 (Z.ltb_lt (c - 256) 48)) by lia.
Qed.

Lemma schar_inj a b : is_byte a → is_byte b → schar a = schar b → a = b.
Proof.
  unfold is_byte. intros Ha Hb.
  destruct (decide (a < 128)), (decide (b < 128));
    rewrite ?(schar_small a), ?(schar_large a), ?(schar_small b), ?(schar_large b) by lia; lia.
Qed.

Lemma schar_eqb a b : is_byte a → is_byte b → (schar a =? schar b) = (a =? b).
Proof.
  intros Ha Hb. destruct (Z.eqb_spec a b) as [->|Hne]; [apply Z.eqb_refl|].
  apply Z.eqb_neq. intros ?%schar_inj; done.
Qed.

Lemma schar_eq61 c : is_byte c → (schar c =? ch_eq) = (c =? 61).
Proof. intros. rewrite <- (schar_eqb c 61) by (done || unfold is_byte; lia). done. Qed.

Lemma schar_eq48 c : is_byte c → (schar c =? ch_0) = (c =? 48).
Proof. intros. rewrite <- (schar_eqb c 48) by (done || unfold is_byte; lia). done. Qed.

Lemma isdigit_byte c : isdigit c = true → is_byte c.
Proof. intros ?%isdigit_spec. unfold is_byte. lia. Qed.

Lemma digits_bytes l : digits l → bytes l.
Proof. intros Hl. eapply Forall_impl; [exact Hl | exact isdigit_byte]. Qed.

(** The accepted range: [num] may take one more digit as long as it is at most
    [MAX_TAG__], so every value below [10 * (MAX_TAG__ + 1)] is. *)
Lemma tag_loop_value a d rest :
  digits d → d ≠ [] → 0 ≤ a → dval_from a d < 10 * (MAX_TAG__ + 1) →
  get_fix_tag_loop a (d ++ ch_eq :: rest) = Some (dval_from a d, rest).
Proof.
  revert a. induction d as [|c d IH]; intros a Hd Hne Ha Hv; [done|].
  apply Forall_cons in Hd as [Hc Hd].
  change (dval_from a (c :: d)) with (dval_from (dstep a c) d) in *.
  pose proof (digit_range c Hc). assert (0 ≤ dstep a c) by (unfold dstep; lia).
  pose proof (dval_from_ge (dstep a c) d Hd ltac:(done)).
  simpl. rewrite not_digit_schar, Hc by (by apply isdigit_byte). simpl.
  rewrite (proj2 (Z.ltb_ge MAX_TAG__ a)) by (unfold dstep in *; lia).
  rewrite (digit_schar c) by done. fold (dstep a c).
  destruct d as [|c' d].
  - done.
  - apply Forall_cons in Hd as Hd'. destruct Hd' as [Hc' _]. cbn [app].
    rewrite schar_eq61 by (by apply isdigit_byte). apply isdigit_spec in Hc' as ?.
    rewrite (proj2 (Z.eqb_neq c' 61)) by lia. apply IH; done.
Qed.

Lemma tag_loop_overflow a d rest :
  digits d → d ≠ [] → 0 ≤ a → 10 * (MAX_TAG__ + 1) ≤ dval_from a d →
  ∃ r, get_fix_tag_loop a (d ++ ch_eq :: rest) = Some (-1, r).
Proof.
  revert a. induction d as [|c d IH]; intros a Hd Hne Ha Hv; [done|].
  apply Forall_cons in Hd as [Hc Hd].
  change (dval_from a (c :: d)) with (dval_from (dstep a c) d) in *.
  pose proof (digit_range c Hc). assert (0 ≤ dstep a c) by (unfold dstep; lia).
  simpl. rewrite not_digit_schar, Hc by (by apply isdigit_byte). simpl.
  destruct (Z.ltb_spec MAX_TAG__ a); [eauto|].
  rewrite (digit_schar c) by done. fold (dstep a c).
  destruct d as [|c' d].
  - unfold dval_from, dstep in *. simpl in Hv. lia.
  - apply Forall_cons in Hd as Hd'. destruct Hd' as [Hc' _]. cbn [app].
    rewrite schar_eq61 by (by apply isdigit_byte). apply isdigit_spec in Hc' as ?.
    rewrite (proj2 (Z.eqb_neq c' 61)) by lia. apply IH; done.
Qed.

(** Whatever the loop accepts is a digit string closed by ['=']. *)
Lemma tag_loop_sound a str n rest :
  bytes str → 0 ≤ a → get_fix_tag_loop a str = Some (n, rest) →
  n = -1 ∨ ∃ d, str = d ++ ch_eq :: rest ∧ digits d ∧ d ≠ [] ∧ n = dval_from a d
               ∧ n < 10 * (MAX_TAG__ + 1).
Proof.
  revert a. induction str as [|c str IH]; intros a Hb Ha; simpl; [done|].
  apply Forall_cons in Hb as [Hc Hb]. rewrite not_digit_schar by done.
  destruct (isdigit c) eqn:Ec; simpl; [|intros [= <- <-]; by left].
  destruct (Z.ltb_spec MAX_TAG__ a); [intros [= <- <-]; by left|].
  rewrite (digit_schar c) by done. fold (dstep a c). pose proof (digit_range c Ec).
  destruct str as [|c' str]; [done|].
  apply Forall_cons in Hb as Hb'. destruct Hb' as [Hc' Hb'].
  rewrite schar_eq61 by done. destruct (Z.eqb_spec c' 61) as [->|Hne].
  - intros [= <- <-]. right. exists [c]. repeat split; [by repeat constructor | done |].
    unfold dstep. lia.
  - intros Hl. apply IH in Hl as [->|(d & -> & Hd & ? & -> & ?)];
      [by left | | done | unfold dstep; lia].
    right. exists (c :: d). repeat split; [by constructor | done | done].
Qed.

(** ** Parsing a length *)

Lemma length_loop_value soh a d rest :
  is_byte soh → isdigit soh = false → digits d → d ≠ [] → 0 ≤ a →
  dval_from a d < 10 * (MAX_LENGTH__ + 1) →
  get_fix_length_value_loop soh a (d ++ soh :: rest) = Some (dval_from a d).
Proof.
  intros Hs Hns. revert a. induction d as [|c d IH]; intros a Hd Hne Ha Hv; [done|].
  apply Forall_cons in Hd as [Hc Hd].
  change (dval_from a (c :: d)) with (dval_from (dstep a c) d) in *.
  pose proof (digit_range c Hc). assert (0 ≤ dstep a c) by (unfold dstep; lia).
  pose proof (dval_from_ge (dstep a c) d Hd ltac:(done)).
  simpl. rewrite not_digit_schar, Hc by (by apply isdigit_byte). simpl.
  rewrite (proj2 (Z.ltb_ge MAX_LENGTH__ a)) by (unfold dstep in *; lia).
  rewrite (digit_schar c) by done. fold (dstep a c).
  destruct d as [|c' d]; cbn [app].
  - by rewrite Z.eqb_refl.
  - apply Forall_cons in Hd as Hd'. destruct Hd' as [Hc' _].
    rewrite schar_eqb by (done || by apply isdigit_byte).
    rewrite (proj2 (Z.eqb_neq soh c')) by (intros ->; congruence). apply IH; done.
Qed.

Lemma length_loop_sound soh a str n :
  is_byte soh → bytes str → 0 ≤ a → get_fix_length_value_loop soh a str = Some n →
  n = -1 ∨ ∃ d rest, str = d ++ soh :: rest ∧ digits d ∧ d ≠ [] ∧ n = dval_from a d
               ∧ n < 10 * (MAX_LENGTH__ + 1).
Proof.
  intros Hs. revert a. induction str as [|c str IH]; intros a Hb Ha; simpl; [done|].
  apply Forall_cons in Hb as [Hc Hb]. rewrite not_digit_schar by done.
  destruct (isdigit c) eqn:Ec; simpl; [|intros [= <-]; by left].
  destruct (Z.ltb_spec MAX_LENGTH__ a); [intros [= <-]; by left|].
  rewrite (digit_schar c) by done. fold (dstep a c). pose proof (digit_range c Ec).
  destruct str as [|c' str]; [done|].
  apply Forall_cons in Hb as Hb'. destruct Hb' as [Hc' Hb'].
  rewrite schar_eqb by done. destruct (Z.eqb_spec soh c') as [->|Hne].
  - intros [= <-]. right. exists [c], str. repeat split; [by repeat constructor | done |].
    unfold dstep. lia.
  - intros Hl. apply IH in Hl as [->|(d & rest & -> & Hd & ? & -> & ?)];
      [by left | | done | unfold dstep; lia].
    right. exists (c :: d), rest. repeat split; [by constructor | done | done].
Qed.

(** ** Printing *)

Lemma u8_digit n : 0 ≤ n < 10 → u8 (ch_0 + n) = ch_0 + n.
Proof. intros. unfold u8, ch_0. apply Z.mod_small. lia. Qed.

Lemma store_digits_down_dec f v a b c :
  0 ≤ v → length b = length (dec v) → (length (dec v) ≤ f)%nat →
  store_digits_down f v (a ++ b ++ c) (zlen a + zlen b) = Some (a ++ dec v ++ c).
Proof.
  revert v b c. induction f as [|f IH]; intros v b c Hv Hb Hf.
  - pose proof (dec_length_pos v). lia.
  - pose proof (Z.mod_pos_bound v 10 ltac:(lia)).
    destruct b as [|x b' _] using rev_ind; [pose proof (dec_length_pos v); simpl in Hb; lia|].
    simpl store_digits_down. rewrite <- app_assoc. simpl app at 3.
    rewrite (app_assoc a b' (x :: c)).
    change ((a ++ b') ++ x :: c) with ((a ++ b') ++ [x] ++ c).
    rewrite (write_at_mid (a ++ b') [x] c [u8 (ch_0 + v mod 10)]) by (llia || done).
    rewrite u8_digit by lia. simpl.
    destruct (Z.ltb_spec v 10) as [Hlt|Hge].
    + rewrite Z.div_small, Z.eqb_refl by lia. rewrite dec_small, length_app in Hb by lia.
      destruct b'; [|simpl in Hb; lia]. rewrite dec_small, Z.mod_small, app_nil_r by lia. done.
    + assert (0 < v / 10) by (apply Z.div_str_pos; lia).
      rewrite (proj2 (Z.eqb_neq (v / 10) 0)) by lia.
      rewrite dec_step in Hb, Hf by lia. rewrite !length_app in Hb. rewrite length_app in Hf.
      simpl in Hb, Hf.
      replace (zlen a + zlen (b' ++ [x]) - 1) with (zlen a + zlen b') by llia.
      rewrite <- app_assoc. rewrite IH by lia. rewrite (dec_step v), <- app_assoc by lia. done.
Qed.

Lemma uint_to_str_size_dec v :
  0 ≤ v → uint_to_str_size v = if v <? 10 ^ 10 then Some (zlen (dec v)) else None.
Proof.
  intros Hv. unfold uint_to_str_size.
  assert (Hd : ∀ k, 1 ≤ k → 10 ^ (k - 1) ≤ v < 10 ^ k → zlen (dec v) = k)
    by (intros; by apply dec_length_eq).
  change (10 ^ 10) with 10000000000.
  repeat (case_match; bool_hyps); try lia; try done; f_equal; symmetry;
    first [apply Hd; [lia | split; cbn; lia] | rewrite dec_small by lia; done].
Qed.

Lemma uint_to_str_spec term v a b c :
  0 ≤ v < 2 ^ 64 → length b = S (length (dec v)) →
  uint_to_str term v (a ++ b ++ c) (zlen a) = Some (a ++ dec v ++ term :: c, zlen a + zlen (dec v)).
Proof.
  intros Hv Hb. unfold uint_to_str. rewrite uint_to_str_size_dec by lia.
  destruct (Z.ltb_spec v (10 ^ 10)) as [Hlt|Hge].
  - destruct b as [|x b _] using rev_ind; [simpl in Hb; lia|].
    rewrite length_app in Hb; simpl in Hb.
    rewrite <- app_assoc, (app_assoc a b).
    rewrite (write_at_mid (a ++ b) [x] c [term]) by (llia || done). obind.
    replace (zlen a + zlen (dec v)) with (zlen a + zlen b) by lia.
    change ((a ++ b) ++ term :: c) with ((a ++ b) ++ [term] ++ c). rewrite <- app_assoc.
    rewrite store_digits_down_dec; [done | lia | lia |].
    assert (zlen (dec v) ≤ 20) by (apply dec_length_le; lia). lia.
  - rewrite (write_at_mid a b c (dec v ++ [0])) by (llia || done). obind.
    rewrite <- app_assoc. rewrite (cstr_at_mid a (dec v) c) by eauto with fix_db lia. obind. 
    rewrite (app_assoc a (dec v) ([0] ++ c)).
    rewrite (write_at_mid (a ++ dec v) [0] c [term] (zlen a + zlen (dec v))) by (llia || done). obind.
    by rewrite <- app_assoc.
Qed.

(** Without room for the digits and the terminator the store is out of bounds. *)
Lemma uint_to_str_outside term v buf off :
  0 ≤ v < 10 ^ 10 → zlen buf < off + zlen (dec v) + 1 → uint_to_str term v buf off = None.
Proof.
  intros Hv Hlt. unfold uint_to_str. rewrite uint_to_str_size_dec by lia. bsolve.
  rewrite write_at_outside; [done|]. llia.
Qed.

Lemma zero_padded_loop_spec f avail used v a b c :
  0 ≤ v → (length b ≤ f)%nat → used + zlen b ≤ avail →
  zero_padded_loop f avail used v (zlen a + zlen b) (a ++ b ++ c) (zlen a)
  = Some (a ++ padded (length b) v ++ c, inr (v / 10 ^ zlen b)).
Proof.
  revert used v b c. induction f as [|f IH]; intros used v b c Hv Hf Hu.
  - destruct b; [|simpl in Hf; lia]. simpl. rewrite Z.add_0_r, Z.eqb_refl, Z.div_1_r. done.
  - destruct b as [|x b' _] using rev_ind.
    { simpl. rewrite Z.add_0_r, Z.eqb_refl, Z.div_1_r. done. }
    pose proof (Z.mod_pos_bound v 10 ltac:(lia)). rewrite length_app in *. simpl in Hf, Hu.
    simpl zero_padded_loop. bsolve.
    rewrite <- app_assoc. rewrite (app_assoc a b').
    rewrite (write_at_mid (a ++ b') [x] c [u8 (ch_0 + v mod 10)]) by (llia || done).
    rewrite u8_digit by lia. simpl.
    replace (zlen a + Z.of_nat (length b' + 1) - 1) with (zlen a + zlen b') by lia.
    change ((a ++ b') ++ ?y :: c) with ((a ++ b') ++ [y] ++ c). rewrite <- app_assoc.
    rewrite IH; [| apply Z.div_pos; lia | lia | lia].
    rewrite Nat.add_comm. simpl padded. rewrite <- app_assoc. do 3 f_equal.
    rewrite Nat2Z.inj_succ, Z.pow_succ_r, Z.div_div by lia. done.
Qed.

Lemma uint_to_str_zero_padded_spec k term v a b c :
  0 ≤ v → length b = S k →
  uint_to_str_zero_padded (Z.of_nat (S k)) term v (a ++ b ++ c) (zlen a)
  = Some (if v <? 10 ^ Z.of_nat k then 0 else 1,
          a ++ padded k v ++ term :: c,
          if v <? 10 ^ Z.of_nat k then zlen a + Z.of_nat k else zlen a).
Proof.
  intros Hv Hb. unfold uint_to_str_zero_padded. bsolve.
  destruct b as [|x b _] using rev_ind; [simpl in Hb; lia|].
  rewrite length_app in Hb; simpl in Hb. assert (Hk : length b = k) by lia. subst k.
  rewrite <- app_assoc, (app_assoc a b).
  rewrite (write_at_mid (a ++ b) [x] c [term]) by (llia || done). obind.
  change ((a ++ b) ++ term :: c) with ((a ++ b) ++ [term] ++ c). rewrite <- app_assoc.
  replace (zlen a + Z.of_nat (S (length b)) - 1) with (zlen a + zlen b) by lia.
  rewrite zero_padded_loop_spec by lia.
  pose proof (Z.pow_pos_nonneg 10 (zlen b) ltac:(lia) ltac:(lia)).
  destruct (Z.ltb_spec v (10 ^ zlen b)).
  - rewrite Z.div_small by lia. simpl. do 3 f_equal. lia.
  - assert (0 < v / 10 ^ zlen b) by (apply Z.div_str_pos; lia).
    rewrite (proj2 (Z.eqb_neq _ 0)) by lia. done.
Qed.

(** A digit string without a leading zero is the numeral of its value. *)
Lemma dval_snoc d c : dval (d ++ [c]) = dstep (dval d) c.
Proof. unfold dval. by rewrite dval_from_app. Qed.

Lemma dval_nonneg d : digits d → 0 ≤ dval d.
Proof. intros. by apply dval_from_ge. Qed.

Lemma dval_pos c d : digits (c :: d) → c ≠ 48 → 0 < dval (c :: d).
Proof.
  intros [Hc Hd]%Forall_cons Hne. unfold dval. change (dval_from 0 (c :: d)) with (dval_from (dstep 0 c) d).
  apply isdigit_spec in Hc. pose proof (dval_from_ge (dstep 0 c) d Hd).
  unfold dstep, ch_0 in *. lia.
Qed.

Lemma dec_dval c d : digits (c :: d) → c ≠ 48 → dec (dval (c :: d)) = c :: d.
Proof.
  intros Hd Hne. induction d as [|x d IH] using rev_ind.
  - apply Forall_cons in Hd as [Hc%isdigit_spec _]. unfold dval, dval_from, dstep, ch_0. simpl.
    rewrite dec_small by lia. unfold ch_0. f_equal. lia.
  - rewrite app_comm_cons in Hd |- *. apply Forall_app in Hd as [Hd Hx].
    apply Forall_singleton, digit_range in Hx. specialize (IH Hd).
    pose proof (dval_pos c d Hd Hne). rewrite dval_snoc.
    assert (Hdiv : dstep (dval (c :: d)) x / 10 = dval (c :: d)).
    { unfold dstep. rewrite Z.mul_comm, Z.div_add_l, Z.div_small by lia. lia. }
    assert (Hmod : dstep (dval (c :: d)) x mod 10 = x - ch_0).
    { unfold dstep. rewrite Z.add_comm, Z.mul_comm, Z_mod_plus_full, Z.mod_small by lia. done. }
    rewrite dec_step by (unfold dstep; lia). rewrite Hdiv, Hmod, IH. do 2 f_equal. lia.
Qed.

Lemma get_fix_tag_dec n rest :
  0 < n < 10 * (MAX_TAG__ + 1) → get_fix_tag (dec n ++ ch_eq :: rest) = Some (n, rest).
Proof.
  intros [Hpos Hmax]. destruct (dec_head n Hpos) as (d & r & Hd & Hr).
  pose proof (dec_digits n ltac:(lia)) as Hdig. rewrite Hd. cbn [app get_fix_tag].
  rewrite schar_eq61, schar_eq48 by (unfold is_byte; lia). bsolve.
  assert (Hv : dval_from 0 (dec n) = n) by (fold (dval (dec n)); apply dval_dec; lia).
  rewrite app_comm_cons, <- Hd. rewrite tag_loop_value; rewrite ?Hv; try done. by rewrite Hd.
Qed.

Lemma get_fix_length_value_digits soh d rest :
  is_byte soh → isdigit soh = false → digits d → d ≠ [] → dval d < 10 * (MAX_LENGTH__ + 1) →
  get_fix_length_value soh (d ++ soh :: rest) = Some (dval d).
Proof. intros. by apply length_loop_value. Qed.

(** ** Fields on the wire *)

(** The wire form of a field. *)
Definition wire_field (soh : Z) (f : Z * list Z) : list Z := dec f.1 ++ ch_eq :: f.2 ++ [soh].
Definition wire_fields (soh : Z) (fs : list (Z * list Z)) : list Z := concat (wire_field soh <$> fs).

Lemma length_wire_field soh t v : zlen (wire_field soh (t, v)) = zlen (dec t) + zlen v + 2.
Proof. unfold wire_field. cbn [fst snd]. llia. Qed.

(** ** Properties *)

(** [get_fix_tag] accepts exactly the canonical decimal numerals of the
    tags [1 .. 10 * (MAX_TAG__ + 1) - 1] closed by ['='], returns their value
    and leaves the pointer on the first byte of the field's value.  In
    particular it never accepts 0, a zero padded tag, a sign or a tag whose
    value does not fit the [int] it accumulates. *)
Theorem get_fix_tag_exact str n rest :
  bytes str → 0 ≤ n →
  get_fix_tag str = Some (n, rest) ↔
  0 < n < 10 * (MAX_TAG__ + 1) ∧ str = dec n ++ ch_eq :: rest.
Proof.
  intros Hb Hn. split.
  - destruct str as [|c str]; [done|]. cbn [get_fix_tag].
    apply Forall_cons in Hb as [Hc Hb].
    rewrite schar_eq61, schar_eq48 by done.
    destruct (Z.eqb_spec c 61), (Z.eqb_spec c 48); cbn [orb]; try (intros [= <- <-]; lia).
    intros [->|(d & Hd & Hdig & Hne & -> & Hmax)]%tag_loop_sound; [lia | | by constructor | done].
    destruct d as [|c' d]; [done|]. injection Hd as <- ->.
    pose proof (dval_pos c d Hdig ltac:(done)). fold (dval (c :: d)) in *.
    rewrite dec_dval by done. done.
  - intros [Hr ->]. by apply get_fix_tag_dec.
Qed.

Lemma get_fix_tag_exact_witness :
  get_fix_tag (bytes_of_string "95=12") = Some (95, bytes_of_string "12").
Proof.
  apply (get_fix_tag_exact (bytes_of_string "95=12") 95 (bytes_of_string "12")).
  - apply bytes_of_string_bytes.
  - lia.
  - split; [unfold MAX_TAG__, INT_MAX; vm_compute; done | vm_compute; reflexivity].
Defined.

(** C35: [get_fix_length_value] returns a number only for a run of at least
    one digit closed by SOH, the value is the number the digits denote and it
    fits the [long long]; conversely every such run with a value below
    [10 * (MAX_LENGTH__ + 1)] is accepted, zero padded or not. *)
Theorem get_fix_length_value_exact soh str n :
  is_byte soh → isdigit soh = false → bytes str → 0 ≤ n →
  get_fix_length_value soh str = Some n ↔
  n < 10 * (MAX_LENGTH__ + 1) ∧ 10 * (MAX_LENGTH__ + 1) ≤ 2 ^ 63 ∧
  ∃ d rest, str = d ++ soh :: rest ∧ digits d ∧ d ≠ [] ∧ n = dval d.
Proof.
  intros Hs Hns Hb Hn. unfold get_fix_length_value. split.
  - intros [->|(d & rest & -> & Hd & Hne & -> & Hmax)]%length_loop_sound; [lia | | done..].
    split; [done|]. split; [done|]. by exists d, rest.
  - intros (Hmax & _ & d & rest & -> & Hd & Hne & ->).
    by apply get_fix_length_value_digits.
Qed.

Lemma get_fix_length_value_exact_witness :
  get_fix_length_value 1 (bytes_of_string "0042" ++ [1; 7]) = Some 42.
Proof.
  apply (get_fix_length_value_exact 1 (bytes_of_string "0042" ++ [1; 7]) 42).
  - unfold is_byte. lia.
  - reflexivity.
  - apply bytes_app. split; [apply bytes_of_string_bytes|]. repeat constructor; unfold is_byte; lia.
  - lia.
  - split; [vm_compute; done|]. split; [vm_compute; done|].
    exists (bytes_of_string "0042"), [7]. repeat split; try done.
    apply Forall_forall. intros x Hx. vm_compute in Hx.
    repeat (apply elem_of_cons in Hx as [->|Hx]; [reflexivity|]). by apply elem_of_nil in Hx.
Defined.

(** [uint_to_str] writes the canonical numeral of every [uint64_t] value
    followed by the terminator, touches nothing else of the buffer and leaves
    the pointer on the terminator, on the fast path and on the [sprintf]
    path alike. *)
Theorem uint_to_str_exact term v a b c :
  0 ≤ v < 2 ^ 64 → length b = S (length (dec v)) →
  uint_to_str term v (a ++ b ++ c) (zlen a)
  = Some (a ++ dec v ++ term :: c, zlen a + zlen (dec v)).
Proof. apply uint_to_str_spec. Qed.

Lemma uint_to_str_exact_witness :
  uint_to_str 1 98765432109 ([7] ++ repeat 0 12 ++ [8]) 1
  = Some ([7] ++ bytes_of_string "98765432109" ++ 1 :: [8], 12).
Proof. apply (uint_to_str_exact 1 98765432109 [7] (repeat 0 12) [8]); [lia | reflexivity]. Defined.

(** [uint_to_str_zero_padded] with room for [k + 1] bytes always writes
    exactly the [k] low order digits and the terminator; it reports success,
    and moves the pointer, exactly when the value has at most [k] digits. *)
Theorem uint_to_str_zero_padded_exact k term v a b c :
  0 ≤ v → length b = S k →
  uint_to_str_zero_padded (Z.of_nat (S k)) term v (a ++ b ++ c) (zlen a)
  = Some (if v <? 10 ^ Z.of_nat k then 0 else 1,
          a ++ padded k v ++ term :: c,
          if v <? 10 ^ Z.of_nat k then zlen a + Z.of_nat k else zlen a).
Proof. apply uint_to_str_zero_padded_spec. Qed.

Lemma uint_to_str_zero_padded_exact_witness :
  uint_to_str_zero_padded 4 1 1007 (repeat 9 5) 0
  = Some (1, bytes_of_string "007" ++ 1 :: [9], 0).
Proof. apply (uint_to_str_zero_padded_exact 3 1 1007 [] (repeat 9 4) [9]); [lia | reflexivity]. Defined.
