(* ===== verification/FixTypes.v ===== *)
(** * Message types, field types and versions: [src/applib/fixmsg/fix_types.h], [fix_types.cpp]

    [FIX_MsgType] and the table [fix_msgtype_string] are the source's; the
    two maps are built by the constructors [get_fix_msgtype_ctor] and
    [is_session_message_ctor] from their tables with the key computation of
    the source ([uint_fast32_t] is 64 bits wide on the platform and [char] is
    signed, so a byte above 127 is sign extended into the key). *)
From S2P Require Import Prelude.

Inductive FIX_Version : Set :=
  | CUSTOM | FIX_4_0 | FIX_4_1 | FIX_4_2 | FIX_4_3 | FIX_4_4 | FIX_5_0 | FIX_5_0_SP1
  | FIX_5_0_SP2 | FIXT_1_1.

Definition fix_version_string (v : FIX_Version) : list Z :=
  bytes_of_string match v with
  | CUSTOM => "CUSTOM"
  | FIX_4_0 => "FIX.4.0"
  | FIX_4_1 => "FIX.4.1"
  | FIX_4_2 => "FIX.4.2"
  | FIX_4_3 => "FIX.4.3"
  | FIX_4_4 => "FIX.4.4"
  | FIX_5_0 => "FIX.5.0"
  | FIX_5_0_SP1 => "FIX.5.0.SP1"
  | FIX_5_0_SP2 => "FIX.5.0.SP2"
  | FIXT_1_1 => "FIXT.1.1"
  end.

Inductive FIX_Type : Set :=
  | ft_int | ft_Length | ft_TagNum | ft_SeqNum | ft_NumInGroup | ft_DayOfMonth
  | ft_float | ft_Qty | ft_Price | ft_PriceOffset | ft_Amt | ft_Percentage | ft_char
  | ft_Boolean | ft_String | ft_MultipleCharValue | ft_MultipleStringValue | ft_Country
  | ft_Currency | ft_Exchange | ft_MonthYear | ft_UTCTimestamp | ft_UTCTimeOnly
  | ft_UTCDateOnly | ft_LocalMktDate | ft_TZTimeOnly | ft_TZTimestamp | ft_data
  | ft_Pattern | ft_Tenor | ft_Reserved100Plus | ft_Reserved1000Plus
  | ft_Reserved4000Plus | ft_XMLData | ft_Language.

#[global] Instance FIX_Type_eq_dec : EqDecision FIX_Type.
Proof. solve_decision. Defined.

Record FIX_Tag : Set := mk_tag { tag_tag : Z; tag_type : FIX_Type }.

#[global] Instance FIX_Tag_eq_dec : EqDecision FIX_Tag.
Proof. solve_decision. Defined.

Inductive FIX_MsgType : Set :=
  | fmt_CustomMsg | fmt_Heartbeat | fmt_TestRequest | fmt_ResendRequest | fmt_Reject
  | fmt_SequenceReset | fmt_Logout | fmt_IOI | fmt_Advertisement | fmt_ExecutionReport
  | fmt_OrderCancelReject | fmt_Logon | fmt_DerivativeSecurityList
  | fmt_NewOrderMultileg | fmt_MultilegOrderCancelReplace
  | fmt_TradeCaptureReportRequest | fmt_TradeCaptureReport | fmt_OrderMassStatusRequest
  | fmt_QuoteRequestReject | fmt_RFQRequest | fmt_QuoteStatusReport | fmt_QuoteResponse
  | fmt_Confirmation | fmt_PositionMaintenanceRequest | fmt_PositionMaintenanceReport
  | fmt_RequestForPositions | fmt_RequestForPositionsAck | fmt_PositionReport
  | fmt_TradeCaptureReportRequestAck | fmt_TradeCaptureReportAck | fmt_AllocationReport
  | fmt_AllocationReportAck | fmt_ConfirmationAck | fmt_SettlementInstructionRequest
  | fmt_AssignmentReport | fmt_CollateralRequest | fmt_CollateralAssignment
  | fmt_CollateralResponse | fmt_News | fmt_CollateralReport | fmt_CollateralInquiry
  | fmt_NetworkCounterpartySystemStatusRequest
  | fmt_NetworkCounterpartySystemStatusResponse | fmt_UserRequest | fmt_UserResponse
  | fmt_CollateralInquiryAck | fmt_ConfirmationRequest | fmt_TradingSessionListRequest
  | fmt_TradingSessionList | fmt_SecurityListUpdateReport | fmt_AdjustedPositionReport
  | fmt_AllocationInstructionAlert | fmt_ExecutionAcknowledgement
  | fmt_ContraryIntentionReport | fmt_SecurityDefinitionUpdateReport
  | fmt_SettlementObligationReport | fmt_DerivativeSecurityListUpdateReport
  | fmt_TradingSessionListUpdateReport | fmt_MarketDefinitionRequest
  | fmt_MarketDefinition | fmt_MarketDefinitionUpdateReport
  | fmt_ApplicationMessageRequest | fmt_ApplicationMessageRequestAck
  | fmt_ApplicationMessageReport | fmt_OrderMassActionReport | fmt_Email
  | fmt_OrderMassActionRequest | fmt_UserNotification | fmt_StreamAssignmentRequest
  | fmt_StreamAssignmentReport | fmt_StreamAssignmentReportACK | fmt_NewOrderSingle
  | fmt_NewOrderList | fmt_OrderCancelRequest | fmt_OrderCancelReplaceRequest
  | fmt_OrderStatusRequest | fmt_AllocationInstruction | fmt_ListCancelRequest
  | fmt_ListExecute | fmt_ListStatusRequest | fmt_ListStatus
  | fmt_AllocationInstructionAck | fmt_DontKnowTrade | fmt_QuoteRequest | fmt_Quote
  | fmt_SettlementInstructions | fmt_MarketDataRequest
  | fmt_MarketDataSnapshotFullRefresh | fmt_MarketDataIncrementalRefresh
  | fmt_MarketDataRequestReject | fmt_QuoteCancel | fmt_QuoteStatusRequest
  | fmt_MassQuoteAcknowledgement | fmt_SecurityDefinitionRequest
  | fmt_SecurityDefinition | fmt_SecurityStatusRequest | fmt_SecurityStatus
  | fmt_TradingSessionStatusRequest | fmt_TradingSessionStatus | fmt_MassQuote
  | fmt_BusinessMessageReject | fmt_BidRequest | fmt_BidResponse | fmt_ListStrikePrice
  | fmt_XMLnonFIX | fmt_RegistrationInstructions | fmt_RegistrationInstructionsResponse
  | fmt_OrderMassCancelRequest | fmt_OrderMassCancelReport | fmt_NewOrderCross
  | fmt_CrossOrderCancelReplaceRequest | fmt_CrossOrderCancelRequest
  | fmt_SecurityTypeRequest | fmt_SecurityTypes | fmt_SecurityListRequest
  | fmt_SecurityList | fmt_DerivativeSecurityListRequest.

(** The enumerators in order: the position is the value. *)
Definition FIX_MsgType_enum : list FIX_MsgType :=
  [ fmt_CustomMsg; fmt_Heartbeat; fmt_TestRequest; fmt_ResendRequest; fmt_Reject;
    fmt_SequenceReset; fmt_Logout; fmt_IOI; fmt_Advertisement; fmt_ExecutionReport;
    fmt_OrderCancelReject; fmt_Logon; fmt_DerivativeSecurityList; fmt_NewOrderMultileg;
    fmt_MultilegOrderCancelReplace; fmt_TradeCaptureReportRequest;
    fmt_TradeCaptureReport; fmt_OrderMassStatusRequest; fmt_QuoteRequestReject;
    fmt_RFQRequest; fmt_QuoteStatusReport; fmt_QuoteResponse; fmt_Confirmation;
    fmt_PositionMaintenanceRequest; fmt_PositionMaintenanceReport;
    fmt_RequestForPositions; fmt_RequestForPositionsAck; fmt_PositionReport;
    fmt_TradeCaptureReportRequestAck; fmt_TradeCaptureReportAck; fmt_AllocationReport;
    fmt_AllocationReportAck; fmt_ConfirmationAck; fmt_SettlementInstructionRequest;
    fmt_AssignmentReport; fmt_CollateralRequest; fmt_CollateralAssignment;
    fmt_CollateralResponse; fmt_News; fmt_CollateralReport; fmt_CollateralInquiry;
    fmt_NetworkCounterpartySystemStatusRequest;
    fmt_NetworkCounterpartySystemStatusResponse; fmt_UserRequest; fmt_UserResponse;
    fmt_CollateralInquiryAck; fmt_ConfirmationRequest; fmt_TradingSessionListRequest;
    fmt_TradingSessionList; fmt_SecurityListUpdateReport; fmt_AdjustedPositionReport;
    fmt_AllocationInstructionAlert; fmt_ExecutionAcknowledgement;
    fmt_ContraryIntentionReport; fmt_SecurityDefinitionUpdateReport;
    fmt_SettlementObligationReport; fmt_DerivativeSecurityListUpdateReport;
    fmt_TradingSessionListUpdateReport; fmt_MarketDefinitionRequest;
    fmt_MarketDefinition; fmt_MarketDefinitionUpdateReport;
    fmt_ApplicationMessageRequest; fmt_ApplicationMessageRequestAck;
    fmt_ApplicationMessageReport; fmt_OrderMassActionReport; fmt_Email;
    fmt_OrderMassActionRequest; fmt_UserNotification; fmt_StreamAssignmentRequest;
    fmt_StreamAssignmentReport; fmt_StreamAssignmentReportACK; fmt_NewOrderSingle;
    fmt_NewOrderList; fmt_OrderCancelRequest; fmt_OrderCancelReplaceRequest;
    fmt_OrderStatusRequest; fmt_AllocationInstruction; fmt_ListCancelRequest;
    fmt_ListExecute; fmt_ListStatusRequest; fmt_ListStatus;
    fmt_AllocationInstructionAck; fmt_DontKnowTrade; fmt_QuoteRequest; fmt_Quote;
    fmt_SettlementInstructions; fmt_MarketDataRequest;
    fmt_MarketDataSnapshotFullRefresh; fmt_MarketDataIncrementalRefresh;
    fmt_MarketDataRequestReject; fmt_QuoteCancel; fmt_QuoteStatusRequest;
    fmt_MassQuoteAcknowledgement; fmt_SecurityDefinitionRequest;
    fmt_SecurityDefinition; fmt_SecurityStatusRequest; fmt_SecurityStatus;
    fmt_TradingSessionStatusRequest; fmt_TradingSessionStatus; fmt_MassQuote;
    fmt_BusinessMessageReject; fmt_BidRequest; fmt_BidResponse; fmt_ListStrikePrice;
    fmt_XMLnonFIX; fmt_RegistrationInstructions; fmt_RegistrationInstructionsResponse;
    fmt_OrderMassCancelRequest; fmt_OrderMassCancelReport; fmt_NewOrderCross;
    fmt_CrossOrderCancelReplaceRequest; fmt_CrossOrderCancelRequest;
    fmt_SecurityTypeRequest; fmt_SecurityTypes; fmt_SecurityListRequest;
    fmt_SecurityList; fmt_DerivativeSecurityListRequest ].

Definition FIX_MSGTYPES_COUNT : Z := zlen FIX_MsgType_enum.

Definition FIX_MsgType_value (t : FIX_MsgType) : Z :=
  match t with
  | fmt_CustomMsg => 0 | fmt_Heartbeat => 1 | fmt_TestRequest => 2
  | fmt_ResendRequest => 3 | fmt_Reject => 4 | fmt_SequenceReset => 5 | fmt_Logout => 6
  | fmt_IOI => 7 | fmt_Advertisement => 8 | fmt_ExecutionReport => 9
  | fmt_OrderCancelReject => 10 | fmt_Logon => 11 | fmt_DerivativeSecurityList => 12
  | fmt_NewOrderMultileg => 13 | fmt_MultilegOrderCancelReplace => 14
  | fmt_TradeCaptureReportRequest => 15 | fmt_TradeCaptureReport => 16
  | fmt_OrderMassStatusRequest => 17 | fmt_QuoteRequestReject => 18
  | fmt_RFQRequest => 19 | fmt_QuoteStatusReport => 20 | fmt_QuoteResponse => 21
  | fmt_Confirmation => 22 | fmt_PositionMaintenanceRequest => 23
  | fmt_PositionMaintenanceReport => 24 | fmt_RequestForPositions => 25
  | fmt_RequestForPositionsAck => 26 | fmt_PositionReport => 27
  | fmt_TradeCaptureReportRequestAck => 28 | fmt_TradeCaptureReportAck => 29
  | fmt_AllocationReport => 30 | fmt_AllocationReportAck => 31
  | fmt_ConfirmationAck => 32 | fmt_SettlementInstructionRequest => 33
  | fmt_AssignmentReport => 34 | fmt_CollateralRequest => 35
  | fmt_CollateralAssignment => 36 | fmt_CollateralResponse => 37 | fmt_News => 38
  | fmt_CollateralReport => 39 | fmt_CollateralInquiry => 40
  | fmt_NetworkCounterpartySystemStatusRequest => 41
  | fmt_NetworkCounterpartySystemStatusResponse => 42 | fmt_UserRequest => 43
  | fmt_UserResponse => 44 | fmt_CollateralInquiryAck => 45
  | fmt_ConfirmationRequest => 46 | fmt_TradingSessionListRequest => 47
  | fmt_TradingSessionList => 48 | fmt_SecurityListUpdateReport => 49
  | fmt_AdjustedPositionReport => 50 | fmt_AllocationInstructionAlert => 51
  | fmt_ExecutionAcknowledgement => 52 | fmt_ContraryIntentionReport => 53
  | fmt_SecurityDefinitionUpdateReport => 54 | fmt_SettlementObligationReport => 55
  | fmt_DerivativeSecurityListUpdateReport => 56
  | fmt_TradingSessionListUpdateReport => 57 | fmt_MarketDefinitionRequest => 58
  | fmt_MarketDefinition => 59 | fmt_MarketDefinitionUpdateReport => 60
  | fmt_ApplicationMessageRequest => 61 | fmt_ApplicationMessageRequestAck => 62
  | fmt_ApplicationMessageReport => 63 | fmt_OrderMassActionReport => 64
  | fmt_Email => 65 | fmt_OrderMassActionRequest => 66 | fmt_UserNotification => 67
  | fmt_StreamAssignmentRequest => 68 | fmt_StreamAssignmentReport => 69
  | fmt_StreamAssignmentReportACK => 70 | fmt_NewOrderSingle => 71
  | fmt_NewOrderList => 72 | fmt_OrderCancelRequest => 73
  | fmt_OrderCancelReplaceRequest => 74 | fmt_OrderStatusRequest => 75
  | fmt_AllocationInstruction => 76 | fmt_ListCancelRequest => 77
  | fmt_ListExecute => 78 | fmt_ListStatusRequest => 79 | fmt_ListStatus => 80
  | fmt_AllocationInstructionAck => 81 | fmt_DontKnowTrade => 82
  | fmt_QuoteRequest => 83 | fmt_Quote => 84 | fmt_SettlementInstructions => 85
  | fmt_MarketDataRequest => 86 | fmt_MarketDataSnapshotFullRefresh => 87
  | fmt_MarketDataIncrementalRefresh => 88 | fmt_MarketDataRequestReject => 89
  | fmt_QuoteCancel => 90 | fmt_QuoteStatusRequest => 91
  | fmt_MassQuoteAcknowledgement => 92 | fmt_SecurityDefinitionRequest => 93
  | fmt_SecurityDefinition => 94 | fmt_SecurityStatusRequest => 95
  | fmt_SecurityStatus => 96 | fmt_TradingSessionStatusRequest => 97
  | fmt_TradingSessionStatus => 98 | fmt_MassQuote => 99
  | fmt_BusinessMessageReject => 100 | fmt_BidRequest => 101 | fmt_BidResponse => 102
  | fmt_ListStrikePrice => 103 | fmt_XMLnonFIX => 104
  | fmt_RegistrationInstructions => 105 | fmt_RegistrationInstructionsResponse => 106
  | fmt_OrderMassCancelRequest => 107 | fmt_OrderMassCancelReport => 108
  | fmt_NewOrderCross => 109 | fmt_CrossOrderCancelReplaceRequest => 110
  | fmt_CrossOrderCancelRequest => 111 | fmt_SecurityTypeRequest => 112
  | fmt_SecurityTypes => 113 | fmt_SecurityListRequest => 114 | fmt_SecurityList => 115
  | fmt_DerivativeSecurityListRequest => 116
  end.

(** [fix_msgtype_string]: the rows are zero filled, so a row is the string in it. *)
Definition fix_msgtype_string : list (list Z) :=
  bytes_of_string <$>
  [ EmptyString; "0"; "1"; "2"; "3"; "4"; "5"; "6"; "7"; "8"; "9"; "A"; "AA"; "AB"; "AC"; "AD";
    "AE"; "AF"; "AG"; "AH"; "AI"; "AJ"; "AK"; "AL"; "AM"; "AN"; "AO"; "AP"; "AQ"; "AR";
    "AS"; "AT"; "AU"; "AV"; "AW"; "AX"; "AY"; "AZ"; "B"; "BA"; "BB"; "BC"; "BD"; "BE";
    "BF"; "BG"; "BH"; "BI"; "BJ"; "BK"; "BL"; "BM"; "BN"; "BO"; "BP"; "BQ"; "BR"; "BS";
    "BT"; "BU"; "BV"; "BW"; "BX"; "BY"; "BZ"; "C"; "CA"; "CB"; "CC"; "CD"; "CE"; "D";
    "E"; "F"; "G"; "H"; "J"; "K"; "L"; "M"; "N"; "P"; "Q"; "R"; "S"; "T"; "V"; "W";
    "X"; "Y"; "Z"; "a"; "b"; "c"; "d"; "e"; "f"; "g"; "h"; "i"; "j"; "k"; "l"; "m";
    "n"; "o"; "p"; "q"; "r"; "s"; "t"; "u"; "v"; "w"; "x"; "y"; "z" ].

Definition fix_session_message_types : list FIX_MsgType :=
  [ fmt_Heartbeat; fmt_TestRequest; fmt_ResendRequest; fmt_Reject; fmt_SequenceReset;
    fmt_Logout; fmt_Logon; fmt_XMLnonFIX; fmt_CustomMsg ].

(** The array has one row per entry of [fix_session_message_types]; the
    initialiser names eight, the ninth is zero filled. *)
Definition fix_session_msgtype_string : list (list Z) :=
  bytes_of_string <$> [ "0"; "1"; "2"; "3"; "4"; "5"; "A"; "n"; EmptyString ].

(** [(uint_fast32_t)c] for a [char] held in a byte: sign extension to 64 bits. *)
Definition char_to_fast32 (c : Z) : Z := u64 (schar c).

(** The [switch (len)] all four functions share; [None] is the default case. *)
Definition type_key (s : list Z) : option Z :=
  match s with
  | [] => Some 0
  | [c0] => Some (char_to_fast32 c0)
  | [c0; c1] => Some (Z.lor (u64 (Z.shiftl (char_to_fast32 c1) 8)) (char_to_fast32 c0))
  | [c0; c1; c2] =>
      Some (Z.lor (Z.lor (u64 (Z.shiftl (char_to_fast32 c2) 16))
                         (u64 (Z.shiftl (char_to_fast32 c1) 8))) (char_to_fast32 c0))
  | [c0; c1; c2; c3] =>
      Some (Z.lor (Z.lor (Z.lor (u64 (Z.shiftl (char_to_fast32 c3) 24))
                                (u64 (Z.shiftl (char_to_fast32 c2) 16)))
                         (u64 (Z.shiftl (char_to_fast32 c1) 8))) (char_to_fast32 c0))
  | _ => None
  end.

(** The constructors' loops: row [n] maps to [n]; [None] is [abort()]. *)
Fixpoint msgtype_map_loop (n : Z) (rows : list (list Z)) (m : gmap Z Z) : option (gmap Z Z) :=
  match rows with
  | [] => Some m
  | s :: rows => key ← type_key s; msgtype_map_loop (n + 1) rows (<[key := n]> m)
  end.

Definition get_fix_msgtype_ctor : option (gmap Z Z) := msgtype_map_loop 0 fix_msgtype_string ∅.

Definition is_session_message_ctor : option (gmap Z Z) :=
  msgtype_map_loop 0 fix_session_msgtype_string ∅.

(** [get_fix_msgtype soh str]: [str] is the memory from the first byte of the
    value to the end of the object; [None] runs past it (or the constructor
    aborted). *)
Definition get_fix_msgtype (soh : Z) (str : list Z) : option FIX_MsgType :=
  fix_msgtypes_map ← get_fix_msgtype_ctor;
  s ← span_until soh str;
  match type_key s with
  | None => Some fmt_CustomMsg
  | Some key =>
      match fix_msgtypes_map !! key with
      | None => Some fmt_CustomMsg
      | Some n => FIX_MsgType_enum !! Z.to_nat n
      end
  end.

(** [is_session_message(FIX_MsgType)]: the scan stops at [fmt_CustomMsg]. *)
Fixpoint is_session_type_loop (t : FIX_MsgType) (types : list FIX_MsgType) : option bool :=
  match types with
  | [] => None
  | x :: types =>
      if FIX_MsgType_value x =? FIX_MsgType_value fmt_CustomMsg then Some false
      else if FIX_MsgType_value x =? FIX_MsgType_value t then Some true
      else is_session_type_loop t types
  end.

Definition is_session_message_type (t : FIX_MsgType) : option bool :=
  is_session_type_loop t fix_session_message_types.

(** [is_session_message(soh, str)]. *)
Definition is_session_message (soh : Z) (str : list Z) : option bool :=
  fix_session_msgtypes_map ← is_session_message_ctor;
  s ← span_until soh str;
  match type_key s with
  | None => Some false
  | Some key =>
      match fix_session_msgtypes_map !! key with None => Some false | Some _ => Some true end
  end.

(** ** The key determines the string *)

(** Little endian value of a short string. *)
Definition le_value (s : list Z) : Z := foldr (λ c a, c + 256 * a) 0 s.

Lemma le_value_cons c s : le_value (c :: s) = c + 256 * le_value s.
Proof. done. Qed.

Lemma le_value_nonneg s : Forall (λ c, 0 < c < 256) s → 0 ≤ le_value s.
Proof. induction 1; rewrite ?le_value_cons; [done | lia]. Qed.

Lemma le_value_inj s t :
  Forall (λ c, 0 < c < 256) s → Forall (λ c, 0 < c < 256) t → le_value s = le_value t → s = t.
Proof.
  intros Hs. revert t. induction Hs as [|c s Hc Hs IH]; intros t Ht; destruct Ht as [|d t Hd Ht];
    rewrite ?le_value_cons; intros E; [done | | |].
  - pose proof (le_value_nonneg t Ht). unfold le_value in E at 1. simpl in E. lia.
  - pose proof (le_value_nonneg s Hs). unfold le_value in E at 2. simpl in E. lia.
  - pose proof (le_value_nonneg s Hs). pose proof (le_value_nonneg t Ht).
    assert (c = d) as -> by lia. f_equal. apply IH; [done | lia].
Qed.

Lemma char_to_fast32_low c : 0 ≤ c < 128 → char_to_fast32 c = c.
Proof. intros. unfold char_to_fast32, u64. rewrite schar_small by lia. apply Z.mod_small. lia. Qed.

Lemma shift_low c k : 0 ≤ k ≤ 24 → 0 ≤ c < 128 → u64 (Z.shiftl c k) = c * 2 ^ k.
Proof.
  intros Hk Hc. unfold u64. rewrite Z.shiftl_mul_pow2 by lia. apply Z.mod_small.
  pose proof (Z.pow_le_mono_r 2 k 24 ltac:(lia) ltac:(lia)).
  pose proof (Z.pow_pos_nonneg 2 k). nia.
Qed.

Lemma type_key_low s :
  (length s ≤ 4)%nat → Forall (λ c, 0 < c < 128) s → type_key s = Some (le_value s).
Proof.
  intros Hl Hs.
  destruct s as [|c0 [|c1 [|c2 [|c3 [|? ?]]]]]; simpl in Hl; try lia; decompose_Forall;
    cbn [type_key]; rewrite ?char_to_fast32_low by lia; rewrite ?shift_low by lia;
    unfold le_value; cbn [foldr]; f_equal.
  - lia.
  - rewrite lor_mul by lia. lia.
  - replace (c2 * 2 ^ 16) with ((c2 * 2 ^ 8) * 2 ^ 8) by lia. rewrite <- Z.lor_assoc.
    rewrite (lor_mul c1) by lia. rewrite <- Z.mul_assoc. rewrite (lor_mul c2 _ (8 + 8)) by lia. lia.
  - replace (c2 * 2 ^ 16) with ((c2 * 2 ^ 8) * 2 ^ 8) by lia. rewrite <- !Z.lor_assoc.
    rewrite (lor_mul c1) by lia. rewrite <- Z.mul_assoc. rewrite (lor_mul c2 _ (8 + 8)) by lia.
    rewrite (lor_mul c3) by lia. lia.
Qed.

(** A byte above 127 is sign extended into bit 63 of the key. *)
Lemma char_to_fast32_bit c i :
  is_byte c → 8 ≤ i < 64 → Z.testbit (char_to_fast32 c) i = (128 <=? c).
Proof.
  intros Hc Hi. unfold is_byte in Hc. unfold char_to_fast32, u64.
  rewrite Z.mod_pow2_bits_low by lia. destruct (Z.leb_spec 128 c).
  - rewrite schar_large by lia. replace (c - 256) with (- (Z.succ (255 - c))) by lia.
    rewrite Z.bits_opp, Z.pred_succ by lia.
    rewrite Z.bits_above_log2; [done | lia |].
    destruct (decide (255 - c = 0)) as [->|]; [simpl; lia|]. apply Z.log2_lt_pow2; [lia|].
    pose proof (Z.pow_le_mono_r 2 8 i). lia.
  - rewrite schar_small by lia. rewrite Z.bits_above_log2; [done | lia |].
    destruct (decide (c = 0)) as [->|]; [simpl; lia|]. apply Z.log2_lt_pow2; [lia|].
    pose proof (Z.pow_le_mono_r 2 8 i). lia.
Qed.

Lemma shift_bit c k :
  is_byte c → 0 ≤ k ≤ 24 → Z.testbit (u64 (Z.shiftl (char_to_fast32 c) k)) 63 = (128 <=? c).
Proof.
  intros. unfold u64. rewrite Z.mod_pow2_bits_low, Z.shiftl_spec by lia.
  apply char_to_fast32_bit; [done | lia].
Qed.

Lemma type_key_bit s k :
  bytes s → type_key s = Some k → Z.testbit k 63 = existsb (λ c, 128 <=? c) s.
Proof.
  intros Hs. unfold bytes in Hs.
  destruct s as [|c0 [|c1 [|c2 [|c3 [|? ?]]]]]; repeat (apply Forall_cons in Hs as [? Hs]);
    cbn [type_key]; intros E; try discriminate; apply (inj Some) in E; subst k;
    rewrite ?Z.lor_spec, ?shift_bit, ?char_to_fast32_bit by (done || lia); cbn [existsb];
    rewrite ?orb_false_r;
    repeat match goal with |- context [128 <=? ?c] => destruct (128 <=? c) end; done.
Qed.

(** Equal keys, one of them of an ASCII string: equal strings. *)
Lemma type_key_inj s t k :
  bytes s → Forall (λ c, c ≠ 0) s → Forall (λ c, 0 < c < 128) t → (length t ≤ 4)%nat →
  type_key s = Some k → type_key t = Some k → s = t.
Proof.
  intros Hb Hz Ht Hl Hs Hk.
  assert (Hbt : bytes t).
  { eapply Forall_impl; [exact Ht|]. unfold is_byte. simpl. intros; lia. }
  assert (Hlow : Forall (λ c, 0 < c < 128) s).
  { apply (type_key_bit s k) in Hs; [|done]. apply (type_key_bit t k) in Hk; [|done].
    assert (existsb (λ c, 128 <=? c) t = false) as E.
    { clear -Ht. induction Ht; simpl; [done|]. rewrite IHHt. bsolve. done. }
    rewrite Hk, E in Hs. clear -Hb Hz Hs. induction s as [|c s IH]; [constructor|].
    apply Forall_cons in Hb as [Hc Hb]. apply Forall_cons in Hz as [Hz0 Hz]. simpl in Hs.
    symmetry in Hs. apply orb_false_iff in Hs as [Hs0 Hs]. bool_hyps. unfold is_byte in Hc.
    constructor; [lia | auto]. }
  assert ((length s ≤ 4)%nat) by (destruct s as [|? [|? [|? [|? [|? ?]]]]]; simpl in *; (lia || done)).
  rewrite type_key_low in Hs, Hk by done. simplify_eq.
  apply le_value_inj; [apply (Forall_impl _ _ _ Hlow) | apply (Forall_impl _ _ _ Ht) | congruence];
    simpl; intros; lia.
Qed.

(** ** The maps *)

Lemma msgtype_map_loop_lookup n rows m m' k :
  msgtype_map_loop n rows m = Some m' →
  m' !! k = m !! k ∨
  ∃ i s, rows !! i = Some s ∧ type_key s = Some k ∧ m' !! k = Some (n + Z.of_nat i).
Proof.
  revert n m. induction rows as [|s rows IH]; intros n m; cbn [msgtype_map_loop].
  - intros [= ->]. by left.
  - destruct (type_key s) as [key|] eqn:Ek; [|done]. obind. intros [E|(i & t & Hi & Ht & E)]%IH.
    + destruct (decide (key = k)) as [->|]; [|left; by rewrite E, lookup_insert_ne].
      right. exists O, s. rewrite E, lookup_insert_eq, Z.add_0_r. done.
    + right. exists (S i), t. rewrite E. split; [done|]. split; [done|]. f_equal. lia.
Qed.

(** Every row of a table whose rows are pairwise different ASCII strings is found. *)
Definition ascii_row (s : list Z) : bool :=
  forallb (λ c, (0 <? c) && (c <? 128)) s && (zlen s <=? 4).

Lemma ascii_row_spec s :
  ascii_row s = true → Forall (λ c, 0 < c < 128) s ∧ (length s ≤ 4)%nat.
Proof.
  unfold ascii_row. intros [H ?]%andb_true_iff. bool_hyps. split; [|lia].
  rewrite forallb_forall in H. apply Forall_forall. intros c Hc%list_elem_of_In.
  specialize (H c Hc). bool_hyps. lia.
Qed.

Lemma ascii_rows_lookup rows i s :
  forallb ascii_row rows = true → rows !! i = Some s → ascii_row s = true.
Proof. rewrite forallb_forall. intros H Hi%list_elem_of_lookup_2%list_elem_of_In. by apply H. Qed.

Lemma msgtype_table_lookup rows m s k :
  forallb ascii_row rows = true → NoDup rows → msgtype_map_loop 0 rows ∅ = Some m →
  bytes s → Forall (λ c, c ≠ 0) s → type_key s = Some k →
  (∃ i, rows !! i = Some s ∧ m !! k = Some (Z.of_nat i)) ∨ ((s ∉ rows) ∧ m !! k = None).
Proof.
  intros Hrows Hnd Hm Hb Hz Hk.
  assert (Hmem : ∀ i t, rows !! i = Some t → type_key t = Some k → s = t).
  { intros i t Hi Ht. apply (ascii_rows_lookup rows) in Hi as [? ?]%ascii_row_spec; [|done].
    by apply (type_key_inj s t k). }
  assert (Hin : s ∈ rows → m !! k ≠ None).
  { clear Hmem Hnd. revert Hm. generalize (∅ : gmap Z Z) at 1. generalize 0. clear Hrows Hb Hz.
    induction rows as [|t rows IH]; intros n m0; [by intros _ ?%elem_of_nil|].
    cbn [msgtype_map_loop]. destruct (type_key t) as [key|] eqn:Et; [|done]. obind.
    intros Hm [->|Hin]%elem_of_cons; [|by eapply IH].
    simplify_eq. apply (msgtype_map_loop_lookup _ _ _ _ k) in Hm as [->|(? & ? & ? & ? & ->)];
      [by rewrite lookup_insert_eq | done]. }
  destruct (msgtype_map_loop_lookup _ _ _ _ k Hm) as [E|(i & t & Hi & Ht & E)].
  - right. rewrite lookup_empty in E. split; [|done]. intros ?%Hin. done.
  - left. exists i. rewrite E, Z.add_0_l. split; [|done]. by rewrite (Hmem i t Hi Ht).
Qed.

Lemma msgtype_table_ok :
  forallb ascii_row fix_msgtype_string = true ∧ NoDup fix_msgtype_string.
Proof. split; [vm_compute; reflexivity | apply (bool_decide_unpack _); vm_compute; reflexivity]. Qed.

Lemma session_table_ok :
  forallb ascii_row fix_session_msgtype_string = true ∧ NoDup fix_session_msgtype_string.
Proof. split; [vm_compute; reflexivity | apply (bool_decide_unpack _); vm_compute; reflexivity]. Qed.

Lemma get_fix_msgtype_ctor_Some : is_Some get_fix_msgtype_ctor.
Proof. apply (bool_decide_unpack _). vm_compute. reflexivity. Qed.

Lemma is_session_message_ctor_Some : is_Some is_session_message_ctor.
Proof. apply (bool_decide_unpack _). vm_compute. reflexivity. Qed.

Lemma msgtype_enum_value i t :
  FIX_MsgType_enum !! i = Some t ↔ i = Z.to_nat (FIX_MsgType_value t).
Proof.
  split; [|intros ->; by destruct t].
  intros H. do 117 (destruct i as [|i]; [by injection H as <-|]). done.
Qed.

(** The string of a message type. *)
Definition msgtype_string (t : FIX_MsgType) : list Z :=
  fix_msgtype_string !!! Z.to_nat (FIX_MsgType_value t).

Lemma msgtype_string_lookup t :
  fix_msgtype_string !! Z.to_nat (FIX_MsgType_value t) = Some (msgtype_string t).
Proof. by destruct t. Qed.

Lemma type_key_Some s : is_Some (type_key s) ↔ (length s ≤ 4)%nat.
Proof.
  destruct s as [|? [|? [|? [|? [|? ?]]]]]; simpl; split; intros; (lia || eauto || done || idtac).
  all: match goal with H : is_Some None |- _ => by destruct H end.
Qed.

Lemma get_fix_msgtype_lookup soh s rest :
  bytes s → Forall (λ c, c ≠ 0) s → Forall (λ c, c ≠ soh) s →
  ∃ t, get_fix_msgtype soh (s ++ soh :: rest) = Some t ∧
       (s = msgtype_string t ∨ (t = fmt_CustomMsg ∧ ∀ t', s ≠ msgtype_string t')).
Proof.
  intros Hb Hz Hs. unfold get_fix_msgtype. destruct get_fix_msgtype_ctor_Some as [m Hm].
  rewrite Hm, span_until_app by done. obind. destruct (msgtype_table_ok) as [Hok Hnd].
  assert (Hrow : ∀ t, s = msgtype_string t → s ∈ fix_msgtype_string).
  { intros t ->. eapply list_elem_of_lookup_2, msgtype_string_lookup. }
  destruct (type_key s) as [key|] eqn:Ek.
  - destruct (msgtype_table_lookup _ m s key Hok Hnd Hm Hb Hz Ek) as [(i & Hi & ->)|[Hn ->]].
    + rewrite Nat2Z.id. apply lookup_lt_Some in Hi as Hlt.
      destruct (lookup_lt_is_Some_2 FIX_MsgType_enum i Hlt) as [t Ht]. exists t. split; [done|].
      left. apply msgtype_enum_value in Ht as ->. rewrite msgtype_string_lookup in Hi. congruence.
    + eexists; split; [done|]. right. split; [done|]. intros t E. by apply Hn, (Hrow t).
  - eexists; split; [done|]. right. split; [done|]. intros t E. apply Hrow in E.
    apply list_elem_of_lookup_1 in E as [i Hi].
    apply (ascii_rows_lookup _ _ _ Hok), ascii_row_spec in Hi as [_ Hl%type_key_Some].
    rewrite Ek in Hl. by destruct Hl.
Qed.

Lemma long_not_row rows s :
  forallb ascii_row rows = true → type_key s = None → s ∉ rows.
Proof.
  intros Hok Hs [i Hi]%list_elem_of_lookup_1.
  apply (ascii_rows_lookup _ _ _ Hok), ascii_row_spec in Hi as [_ Hl%type_key_Some].
  rewrite Hs in Hl. by destruct Hl.
Qed.

Lemma is_session_message_lookup soh s rest :
  bytes s → Forall (λ c, c ≠ 0) s → Forall (λ c, c ≠ soh) s →
  is_session_message soh (s ++ soh :: rest) = Some (bool_decide (s ∈ fix_session_msgtype_string)).
Proof.
  intros Hb Hz Hs. unfold is_session_message. destruct is_session_message_ctor_Some as [m Hm].
  rewrite Hm, span_until_app by done. obind. destruct session_table_ok as [Hok Hnd].
  destruct (type_key s) as [key|] eqn:Ek.
  - destruct (msgtype_table_lookup _ m s key Hok Hnd Hm Hb Hz Ek) as [(i & Hi & ->)|[Hn ->]].
    + apply list_elem_of_lookup_2 in Hi. by rewrite bool_decide_eq_true_2.
    + by rewrite bool_decide_eq_false_2.
  - rewrite bool_decide_eq_false_2; [done|]. by apply long_not_row.
Qed.

Lemma is_session_type_rows t :
  is_session_message_type t
  = Some (bool_decide (msgtype_string t ∈ fix_session_msgtype_string ∧ msgtype_string t ≠ [])).
Proof. destruct t; vm_compute; reflexivity. Qed.

Lemma session_rows_in_table s :
  s ∈ fix_session_msgtype_string → ∃ t, s = msgtype_string t.
Proof.
  intros Hs. assert (H : Forall (λ s, Exists (λ t, s = msgtype_string t) FIX_MsgType_enum)
    fix_session_msgtype_string) by (apply (bool_decide_unpack _); vm_compute; reflexivity).
  rewrite Forall_forall in H. apply H, Exists_exists in Hs as (t & _ & ->). eauto.
Qed.

(** ** Properties *)

(** for every NUL free type string [get_fix_msgtype] inverts the table
    [fix_msgtype_string]: it returns the message type whose row is the
    string, and [fmt_CustomMsg] for every string that has no row, strings
    longer than four bytes and bytes above 127 included; it neither aborts
    nor runs past the terminator. *)
Theorem get_fix_msgtype_inverts_table soh s rest :
  bytes s → Forall (λ c, c ≠ 0) s → Forall (λ c, c ≠ soh) s →
  ∃ t, get_fix_msgtype soh (s ++ soh :: rest) = Some t ∧
       (s = msgtype_string t ∨ (t = fmt_CustomMsg ∧ ∀ t', s ≠ msgtype_string t')).
Proof. apply get_fix_msgtype_lookup. Qed.

Lemma get_fix_msgtype_inverts_table_witness :
  ∃ t, get_fix_msgtype 1 (bytes_of_string "AE" ++ 1 :: []) = Some t ∧
       (bytes_of_string "AE" = msgtype_string t ∨
        (t = fmt_CustomMsg ∧ ∀ t', bytes_of_string "AE" ≠ msgtype_string t')).
Proof.
  apply get_fix_msgtype_inverts_table.
  - apply bytes_of_string_bytes.
  - apply (bool_decide_unpack _). vm_compute. reflexivity.
  - apply (bool_decide_unpack _). vm_compute. reflexivity.
Defined.

(** the two overloads of [is_session_message] agree: for every NUL free
    type string the string version returns what the enumeration version
    returns for the type the string denotes, with one exception: the zero
    filled ninth row of [fix_session_msgtype_string] makes the string version
    accept the empty string. *)
Theorem is_session_message_agrees soh s rest :
  bytes s → Forall (λ c, c ≠ 0) s → Forall (λ c, c ≠ soh) s →
  ∃ t b, get_fix_msgtype soh (s ++ soh :: rest) = Some t ∧ is_session_message_type t = Some b ∧
         is_session_message soh (s ++ soh :: rest) = Some (b || bool_decide (s = [])).
Proof.
  intros Hb Hz Hs. rewrite is_session_message_lookup by done.
  destruct (get_fix_msgtype_lookup soh s rest Hb Hz Hs) as (t & -> & Ht). exists t.
  rewrite is_session_type_rows. eexists. split; [done|]. split; [done|]. f_equal.
  assert (Hnil : [] ∈ fix_session_msgtype_string) by (by do 8 apply list_elem_of_further; left).
  destruct Ht as [->|[-> Hn]].
  - destruct (decide (msgtype_string t = [])) as [E|E]; [rewrite E|];
      repeat case_bool_decide; tauto.
  - rewrite (bool_decide_eq_false_2 (s ∈ _)) by (intros [t ?]%session_rows_in_table; by apply (Hn t)).
    rewrite (bool_decide_eq_false_2 (s = [])) by apply (Hn fmt_CustomMsg).
    rewrite bool_decide_eq_false_2; [done|]. by intros [_ []].
Qed.

Lemma is_session_message_agrees_witness :
  ∃ t b, get_fix_msgtype 1 (bytes_of_string "A" ++ 1 :: []) = Some t ∧
         is_session_message_type t = Some b ∧
         is_session_message 1 (bytes_of_string "A" ++ 1 :: [])
         = Some (b || bool_decide (bytes_of_string "A" = [])).
Proof.
  apply is_session_message_agrees.
  - apply bytes_of_string_bytes.
  - apply (bool_decide_unpack _). vm_compute. reflexivity.
  - apply (bool_decide_unpack _). vm_compute. reflexivity.
Defined.
