(* ===== verification/FixTags.v ===== *)
(** * Standard tag tables: [src/applib/fixmsg/FIX40.cpp] .. [FIX50SP2.cpp], [FIXT11.cpp]

    The nine versions' [std_tags] and [std_data_tags] arrays, entry by entry
    with their terminating [{0, ft_int}].  An array longer than 150 entries is
    split into parts of at most 150; the array is their concatenation. *)
From S2P Require Import Prelude FixTypes.

Declare Scope tag_scope.
Delimit Scope tag_scope with tag.
Local Notation "{ n , t }" := (mk_tag n t) (at level 0, n at level 99, t at level 99) : tag_scope.
Local Open Scope tag_scope.

(** ** [FIX40.cpp] *)

Definition fix40_std_tags : list FIX_Tag :=
  [ {1, ft_char}; {2, ft_int}; {3, ft_int}; {4, ft_char}; {5, ft_char}; {6, ft_float};
    {7, ft_int}; {8, ft_char}; {9, ft_int}; {10, ft_char}; {11, ft_char}; {12, ft_float};
    {13, ft_char}; {14, ft_int}; {15, ft_char}; {16, ft_int}; {17, ft_int}; {18, ft_char};
    {19, ft_int}; {20, ft_char}; {21, ft_char}; {22, ft_char}; {23, ft_int}; {24, ft_char};
    {25, ft_char}; {26, ft_int}; {27, ft_char}; {28, ft_char}; {29, ft_char};
    {30, ft_char}; {31, ft_float}; {32, ft_int}; {33, ft_int}; {34, ft_int}; {35, ft_char};
    {36, ft_int}; {37, ft_char}; {38, ft_int}; {39, ft_char}; {40, ft_char}; {41, ft_char};
    {42, ft_UTCTimestamp}; {43, ft_char}; {44, ft_float}; {45, ft_int}; {46, ft_char};
    {47, ft_char}; {48, ft_char}; {49, ft_char}; {50, ft_char}; {52, ft_UTCTimestamp};
    {53, ft_int}; {54, ft_char}; {55, ft_char}; {56, ft_char}; {57, ft_char};
    {58, ft_char}; {59, ft_char}; {60, ft_UTCTimestamp}; {61, ft_char};
    {62, ft_UTCTimestamp}; {63, ft_char}; {64, ft_LocalMktDate}; {65, ft_char};
    {66, ft_char}; {67, ft_int}; {68, ft_int}; {69, ft_char}; {70, ft_int}; {71, ft_char};
    {72, ft_int}; {73, ft_int}; {74, ft_int}; {75, ft_LocalMktDate}; {76, ft_char};
    {77, ft_char}; {78, ft_int}; {79, ft_char}; {80, ft_int}; {81, ft_char}; {82, ft_int};
    {83, ft_int}; {84, ft_int}; {85, ft_int}; {86, ft_char}; {87, ft_int}; {88, ft_int};
    {89, ft_data}; {90, ft_Length}; {91, ft_data}; {92, ft_char}; {93, ft_Length};
    {94, ft_char}; {95, ft_Length}; {96, ft_data}; {97, ft_char}; {98, ft_int};
    {99, ft_float}; {100, ft_char}; {102, ft_int}; {103, ft_int}; {104, ft_char};
    {105, ft_char}; {106, ft_char}; {107, ft_char}; {108, ft_int}; {109, ft_char};
    {110, ft_int}; {111, ft_int}; {112, ft_char}; {113, ft_char}; {114, ft_char};
    {115, ft_char}; {116, ft_char}; {117, ft_char}; {118, ft_float}; {119, ft_float};
    {120, ft_char}; {121, ft_char}; {122, ft_UTCTimestamp}; {123, ft_char}; {124, ft_int};
    {125, ft_char}; {126, ft_UTCTimestamp}; {127, ft_char}; {128, ft_char}; {129, ft_char};
    {130, ft_char}; {131, ft_char}; {132, ft_float}; {133, ft_float}; {134, ft_int};
    {135, ft_int}; {136, ft_int}; {137, ft_float}; {138, ft_char}; {139, ft_char};
    {140, ft_float}; {0, ft_int} ].

Definition fix40_std_data_tags : list FIX_Tag :=
  [ {89, ft_data}; {91, ft_data}; {96, ft_data}; {0, ft_int} ].

(** ** [FIX41.cpp] *)

Definition fix41_std_tags_1 : list FIX_Tag :=
  [ {1, ft_char}; {2, ft_char}; {3, ft_char}; {4, ft_char}; {5, ft_char}; {6, ft_float};
    {7, ft_int}; {8, ft_char}; {9, ft_int}; {10, ft_char}; {11, ft_char}; {12, ft_float};
    {13, ft_char}; {14, ft_int}; {15, ft_char}; {16, ft_int}; {17, ft_char}; {18, ft_char};
    {19, ft_char}; {20, ft_char}; {21, ft_char}; {22, ft_char}; {23, ft_char};
    {24, ft_char}; {25, ft_char}; {26, ft_char}; {27, ft_char}; {28, ft_char};
    {29, ft_char}; {30, ft_char}; {31, ft_float}; {32, ft_int}; {33, ft_int}; {34, ft_int};
    {35, ft_char}; {36, ft_int}; {37, ft_char}; {38, ft_int}; {39, ft_char}; {40, ft_char};
    {41, ft_char}; {42, ft_UTCTimestamp}; {43, ft_char}; {44, ft_float}; {45, ft_int};
    {46, ft_char}; {47, ft_char}; {48, ft_char}; {49, ft_char}; {50, ft_char};
    {52, ft_UTCTimestamp}; {53, ft_int}; {54, ft_char}; {55, ft_char}; {56, ft_char};
    {57, ft_char}; {58, ft_char}; {59, ft_char}; {60, ft_UTCTimestamp}; {61, ft_char};
    {62, ft_UTCTimestamp}; {63, ft_char}; {64, ft_LocalMktDate}; {65, ft_char};
    {66, ft_char}; {67, ft_int}; {68, ft_int}; {69, ft_char}; {70, ft_char}; {71, ft_char};
    {72, ft_char}; {73, ft_int}; {74, ft_int}; {75, ft_LocalMktDate}; {76, ft_char};
    {77, ft_char}; {78, ft_int}; {79, ft_char}; {80, ft_int}; {81, ft_char}; {82, ft_int};
    {83, ft_int}; {84, ft_int}; {87, ft_int}; {88, ft_int}; {89, ft_data}; {90, ft_Length};
    {91, ft_data}; {92, ft_char}; {93, ft_Length}; {94, ft_char}; {95, ft_Length};
    {96, ft_data}; {97, ft_char}; {98, ft_int}; {99, ft_float}; {100, ft_char};
    {102, ft_int}; {103, ft_int}; {104, ft_char}; {105, ft_char}; {106, ft_char};
    {107, ft_char}; {108, ft_int}; {109, ft_char}; {110, ft_int}; {111, ft_int};
    {112, ft_char}; {113, ft_char}; {114, ft_char}; {115, ft_char}; {116, ft_char};
    {117, ft_char}; {118, ft_float}; {119, ft_float}; {120, ft_char}; {121, ft_char};
    {122, ft_UTCTimestamp}; {123, ft_char}; {124, ft_int}; {126, ft_UTCTimestamp};
    {127, ft_char}; {128, ft_char}; {129, ft_char}; {130, ft_char}; {131, ft_char};
    {132, ft_float}; {133, ft_float}; {134, ft_int}; {135, ft_int}; {136, ft_int};
    {137, ft_float}; {138, ft_char}; {139, ft_char}; {140, ft_float}; {141, ft_char};
    {142, ft_char}; {143, ft_char}; {144, ft_char}; {145, ft_char}; {146, ft_int};
    {147, ft_char}; {148, ft_char}; {149, ft_char}; {150, ft_char}; {151, ft_int};
    {152, ft_float}; {153, ft_float}; {154, ft_float}; {155, ft_float} ].

Definition fix41_std_tags_2 : list FIX_Tag :=
  [ {156, ft_char}; {157, ft_int}; {158, ft_float}; {159, ft_float}; {160, ft_char};
    {161, ft_char}; {162, ft_char}; {163, ft_char}; {164, ft_char}; {165, ft_char};
    {166, ft_char}; {167, ft_char}; {168, ft_UTCTimestamp}; {169, ft_int}; {170, ft_char};
    {171, ft_char}; {172, ft_int}; {173, ft_char}; {174, ft_char}; {175, ft_char};
    {176, ft_char}; {177, ft_char}; {178, ft_char}; {179, ft_char}; {180, ft_char};
    {181, ft_char}; {182, ft_char}; {183, ft_char}; {184, ft_char}; {185, ft_char};
    {186, ft_char}; {187, ft_char}; {188, ft_float}; {189, ft_float}; {190, ft_float};
    {191, ft_float}; {192, ft_float}; {193, ft_LocalMktDate}; {194, ft_float};
    {195, ft_float}; {196, ft_char}; {197, ft_int}; {198, ft_char}; {199, ft_int};
    {200, ft_MonthYear}; {201, ft_int}; {202, ft_float}; {203, ft_int}; {204, ft_int};
    {205, ft_DayOfMonth}; {206, ft_char}; {207, ft_char}; {208, ft_char}; {209, ft_int};
    {210, ft_int}; {211, ft_float}; {0, ft_int} ].

Definition fix41_std_tags : list FIX_Tag :=
  fix41_std_tags_1 ++ fix41_std_tags_2.

Definition fix41_std_data_tags : list FIX_Tag :=
  [ {89, ft_data}; {91, ft_data}; {96, ft_data}; {0, ft_int} ].

(** ** [FIX42.cpp] *)

Definition fix42_std_tags_1 : list FIX_Tag :=
  [ {1, ft_String}; {2, ft_String}; {3, ft_String}; {4, ft_char}; {5, ft_String};
    {6, ft_Price}; {7, ft_int}; {8, ft_String}; {9, ft_int}; {10, ft_String};
    {11, ft_String}; {12, ft_Amt}; {13, ft_char}; {14, ft_Qty}; {15, ft_Currency};
    {16, ft_int}; {17, ft_String}; {18, ft_MultipleCharValue}; {19, ft_String};
    {20, ft_char}; {21, ft_char}; {22, ft_String}; {23, ft_String}; {24, ft_char};
    {25, ft_char}; {26, ft_String}; {27, ft_String}; {28, ft_char}; {29, ft_char};
    {30, ft_Exchange}; {31, ft_Price}; {32, ft_Qty}; {33, ft_int}; {34, ft_int};
    {35, ft_String}; {36, ft_int}; {37, ft_String}; {38, ft_Qty}; {39, ft_char};
    {40, ft_char}; {41, ft_String}; {42, ft_UTCTimestamp}; {43, ft_Boolean};
    {44, ft_Price}; {45, ft_int}; {46, ft_String}; {47, ft_char}; {48, ft_String};
    {49, ft_String}; {50, ft_String}; {51, ft_LocalMktDate}; {52, ft_UTCTimestamp};
    {53, ft_Qty}; {54, ft_char}; {55, ft_String}; {56, ft_String}; {57, ft_String};
    {58, ft_String}; {59, ft_char}; {60, ft_UTCTimestamp}; {61, ft_char};
    {62, ft_UTCTimestamp}; {63, ft_char}; {64, ft_LocalMktDate}; {65, ft_String};
    {66, ft_String}; {67, ft_int}; {68, ft_int}; {69, ft_String}; {70, ft_String};
    {71, ft_char}; {72, ft_String}; {73, ft_int}; {74, ft_int}; {75, ft_LocalMktDate};
    {76, ft_String}; {77, ft_char}; {78, ft_int}; {79, ft_String}; {80, ft_Qty};
    {81, ft_char}; {82, ft_int}; {83, ft_int}; {84, ft_Qty}; {85, ft_int}; {86, ft_String};
    {87, ft_int}; {88, ft_int}; {89, ft_data}; {90, ft_Length}; {91, ft_data};
    {92, ft_String}; {93, ft_Length}; {94, ft_char}; {95, ft_Length}; {96, ft_data};
    {97, ft_Boolean}; {98, ft_int}; {99, ft_Price}; {100, ft_Exchange}; {102, ft_int};
    {103, ft_int}; {104, ft_char}; {105, ft_String}; {106, ft_String}; {107, ft_String};
    {108, ft_int}; {109, ft_String}; {110, ft_Qty}; {111, ft_Qty}; {112, ft_String};
    {113, ft_Boolean}; {114, ft_Boolean}; {115, ft_String}; {116, ft_String};
    {117, ft_String}; {118, ft_Amt}; {119, ft_Amt}; {120, ft_Currency}; {121, ft_Boolean};
    {122, ft_UTCTimestamp}; {123, ft_Boolean}; {124, ft_int}; {125, ft_char};
    {126, ft_UTCTimestamp}; {127, ft_char}; {128, ft_String}; {129, ft_String};
    {130, ft_Boolean}; {131, ft_String}; {132, ft_Price}; {133, ft_Price}; {134, ft_Qty};
    {135, ft_Qty}; {136, ft_int}; {137, ft_Amt}; {138, ft_Currency}; {139, ft_char};
    {140, ft_Price}; {141, ft_Boolean}; {142, ft_String}; {143, ft_String};
    {144, ft_String}; {145, ft_String}; {146, ft_int}; {147, ft_String}; {148, ft_String};
    {149, ft_String}; {150, ft_char}; {151, ft_Qty} ].

Definition fix42_std_tags_2 : list FIX_Tag :=
  [ {152, ft_Qty}; {153, ft_Price}; {154, ft_Amt}; {155, ft_float}; {156, ft_char};
    {157, ft_int}; {158, ft_float}; {159, ft_Amt}; {160, ft_char}; {161, ft_String};
    {162, ft_String}; {163, ft_char}; {164, ft_String}; {165, ft_char}; {166, ft_String};
    {167, ft_String}; {168, ft_UTCTimestamp}; {169, ft_int}; {170, ft_String};
    {171, ft_String}; {172, ft_int}; {173, ft_String}; {174, ft_String}; {175, ft_String};
    {176, ft_String}; {177, ft_String}; {178, ft_String}; {179, ft_String};
    {180, ft_String}; {181, ft_String}; {182, ft_String}; {183, ft_String};
    {184, ft_String}; {185, ft_String}; {186, ft_String}; {187, ft_String};
    {188, ft_Price}; {189, ft_Price}; {190, ft_Price}; {191, ft_Price}; {192, ft_Qty};
    {193, ft_LocalMktDate}; {194, ft_Price}; {195, ft_Price}; {196, ft_String};
    {197, ft_int}; {198, ft_String}; {199, ft_int}; {200, ft_MonthYear}; {201, ft_int};
    {202, ft_Price}; {203, ft_int}; {204, ft_int}; {205, ft_DayOfMonth}; {206, ft_char};
    {207, ft_Exchange}; {208, ft_Boolean}; {209, ft_int}; {210, ft_Qty}; {211, ft_Price};
    {212, ft_Length}; {213, ft_data}; {214, ft_String}; {215, ft_int}; {216, ft_int};
    {217, ft_String}; {218, ft_Price}; {219, ft_char}; {223, ft_float}; {231, ft_float};
    {262, ft_String}; {263, ft_char}; {264, ft_int}; {265, ft_int}; {266, ft_Boolean};
    {267, ft_int}; {268, ft_int}; {269, ft_char}; {270, ft_Price}; {271, ft_Qty};
    {272, ft_UTCDateOnly}; {273, ft_UTCTimeOnly}; {274, ft_char}; {275, ft_Exchange};
    {276, ft_MultipleStringValue}; {277, ft_MultipleStringValue}; {278, ft_String};
    {279, ft_char}; {280, ft_String}; {281, ft_char}; {282, ft_String}; {283, ft_String};
    {284, ft_String}; {285, ft_char}; {286, ft_char}; {287, ft_int}; {288, ft_String};
    {289, ft_String}; {290, ft_int}; {291, ft_char}; {292, ft_char}; {293, ft_Qty};
    {294, ft_Qty}; {295, ft_int}; {296, ft_int}; {297, ft_int}; {298, ft_int};
    {299, ft_String}; {300, ft_int}; {301, ft_int}; {302, ft_String}; {303, ft_int};
    {304, ft_int}; {305, ft_String}; {306, ft_String}; {307, ft_String};
    {308, ft_Exchange}; {309, ft_String}; {310, ft_String}; {311, ft_String};
    {312, ft_String}; {313, ft_MonthYear}; {314, ft_DayOfMonth}; {315, ft_int};
    {316, ft_Price}; {317, ft_char}; {318, ft_Currency}; {319, ft_Qty}; {320, ft_String};
    {321, ft_int}; {322, ft_String}; {323, ft_int}; {324, ft_String}; {325, ft_Boolean};
    {326, ft_int}; {327, ft_char}; {328, ft_Boolean}; {329, ft_Boolean}; {330, ft_Qty};
    {331, ft_Qty}; {332, ft_Price}; {333, ft_Price}; {334, ft_int}; {335, ft_String};
    {336, ft_String}; {337, ft_String}; {338, ft_int}; {339, ft_int}; {340, ft_int};
    {341, ft_UTCTimestamp} ].

Definition fix42_std_tags_3 : list FIX_Tag :=
  [ {342, ft_UTCTimestamp}; {343, ft_UTCTimestamp}; {344, ft_UTCTimestamp};
    {345, ft_UTCTimestamp}; {346, ft_int}; {347, ft_String}; {348, ft_Length};
    {349, ft_data}; {350, ft_Length}; {351, ft_data}; {352, ft_Length}; {353, ft_data};
    {354, ft_Length}; {355, ft_data}; {356, ft_Length}; {357, ft_data}; {358, ft_Length};
    {359, ft_data}; {360, ft_Length}; {361, ft_data}; {362, ft_Length}; {363, ft_data};
    {364, ft_Length}; {365, ft_data}; {366, ft_Price}; {367, ft_UTCTimestamp};
    {368, ft_int}; {369, ft_int}; {370, ft_UTCTimestamp}; {371, ft_int}; {372, ft_String};
    {373, ft_int}; {374, ft_char}; {375, ft_String}; {376, ft_String}; {377, ft_Boolean};
    {378, ft_int}; {379, ft_String}; {380, ft_int}; {381, ft_Amt}; {382, ft_int};
    {383, ft_int}; {384, ft_int}; {385, ft_char}; {386, ft_int}; {387, ft_Qty};
    {388, ft_char}; {389, ft_Price}; {390, ft_String}; {391, ft_String}; {392, ft_String};
    {393, ft_int}; {394, ft_int}; {395, ft_int}; {396, ft_Amt}; {397, ft_Amt};
    {398, ft_int}; {399, ft_int}; {400, ft_String}; {401, ft_int}; {402, ft_float};
    {403, ft_float}; {404, ft_Amt}; {405, ft_float}; {406, ft_Amt}; {407, ft_float};
    {408, ft_Amt}; {409, ft_int}; {410, ft_float}; {411, ft_Boolean}; {412, ft_Amt};
    {413, ft_float}; {414, ft_int}; {415, ft_int}; {416, ft_int}; {417, ft_int};
    {418, ft_char}; {419, ft_char}; {420, ft_int}; {421, ft_String}; {422, ft_int};
    {423, ft_int}; {424, ft_Qty}; {425, ft_Qty}; {426, ft_Price}; {427, ft_int};
    {428, ft_int}; {429, ft_int}; {430, ft_int}; {431, ft_int}; {432, ft_LocalMktDate};
    {433, ft_char}; {434, ft_char}; {435, ft_float}; {436, ft_float}; {437, ft_Qty};
    {438, ft_UTCTimestamp}; {439, ft_String}; {440, ft_String}; {441, ft_int};
    {442, ft_char}; {443, ft_UTCTimestamp}; {444, ft_String}; {445, ft_Length};
    {446, ft_data}; {0, ft_int} ].

Definition fix42_std_tags : list FIX_Tag :=
  fix42_std_tags_1 ++ fix42_std_tags_2 ++ fix42_std_tags_3.

Definition fix42_std_data_tags : list FIX_Tag :=
  [ {89, ft_data}; {91, ft_data}; {96, ft_data}; {213, ft_data}; {349, ft_data};
    {351, ft_data}; {353, ft_data}; {355, ft_data}; {357, ft_data}; {359, ft_data};
    {361, ft_data}; {363, ft_data}; {365, ft_data}; {446, ft_data}; {0, ft_int} ].

(** ** [FIX43.cpp] *)

Definition fix43_std_tags_1 : list FIX_Tag :=
  [ {1, ft_String}; {2, ft_String}; {3, ft_String}; {4, ft_char}; {5, ft_String};
    {6, ft_Price}; {7, ft_SeqNum}; {8, ft_String}; {9, ft_Length}; {10, ft_String};
    {11, ft_String}; {12, ft_Amt}; {13, ft_char}; {14, ft_Qty}; {15, ft_Currency};
    {16, ft_SeqNum}; {17, ft_String}; {18, ft_MultipleCharValue}; {19, ft_String};
    {21, ft_char}; {22, ft_String}; {23, ft_String}; {25, ft_char}; {26, ft_String};
    {27, ft_String}; {28, ft_char}; {29, ft_char}; {30, ft_Exchange}; {31, ft_Price};
    {32, ft_Qty}; {33, ft_NumInGroup}; {34, ft_SeqNum}; {35, ft_String}; {36, ft_SeqNum};
    {37, ft_String}; {38, ft_Qty}; {39, ft_char}; {40, ft_char}; {41, ft_String};
    {42, ft_UTCTimestamp}; {43, ft_Boolean}; {44, ft_Price}; {45, ft_SeqNum};
    {47, ft_char}; {48, ft_String}; {49, ft_String}; {50, ft_String};
    {52, ft_UTCTimestamp}; {53, ft_Qty}; {54, ft_char}; {55, ft_String}; {56, ft_String};
    {57, ft_String}; {58, ft_String}; {59, ft_char}; {60, ft_UTCTimestamp}; {61, ft_char};
    {62, ft_UTCTimestamp}; {63, ft_char}; {64, ft_LocalMktDate}; {65, ft_String};
    {66, ft_String}; {67, ft_int}; {68, ft_int}; {69, ft_String}; {70, ft_String};
    {71, ft_char}; {72, ft_String}; {73, ft_NumInGroup}; {74, ft_int};
    {75, ft_LocalMktDate}; {77, ft_char}; {78, ft_NumInGroup}; {79, ft_String};
    {80, ft_Qty}; {81, ft_char}; {82, ft_NumInGroup}; {83, ft_int}; {84, ft_Qty};
    {87, ft_int}; {88, ft_int}; {89, ft_data}; {90, ft_Length}; {91, ft_data};
    {93, ft_Length}; {94, ft_char}; {95, ft_Length}; {96, ft_data}; {97, ft_Boolean};
    {98, ft_int}; {99, ft_Price}; {100, ft_Exchange}; {102, ft_int}; {103, ft_int};
    {104, ft_char}; {106, ft_String}; {107, ft_String}; {108, ft_int}; {110, ft_Qty};
    {111, ft_Qty}; {112, ft_String}; {113, ft_Boolean}; {114, ft_Boolean};
    {115, ft_String}; {116, ft_String}; {117, ft_String}; {118, ft_Amt}; {119, ft_Amt};
    {120, ft_Currency}; {121, ft_Boolean}; {122, ft_UTCTimestamp}; {123, ft_Boolean};
    {124, ft_NumInGroup}; {126, ft_UTCTimestamp}; {127, ft_char}; {128, ft_String};
    {129, ft_String}; {130, ft_Boolean}; {131, ft_String}; {132, ft_Price};
    {133, ft_Price}; {134, ft_Qty}; {135, ft_Qty}; {136, ft_NumInGroup}; {137, ft_Amt};
    {138, ft_Currency}; {139, ft_char}; {140, ft_Price}; {141, ft_Boolean};
    {142, ft_String}; {143, ft_String}; {144, ft_String}; {145, ft_String};
    {146, ft_NumInGroup}; {147, ft_String}; {148, ft_String}; {149, ft_String};
    {150, ft_char}; {151, ft_Qty}; {152, ft_Qty}; {153, ft_Price}; {154, ft_Amt};
    {155, ft_float}; {156, ft_char}; {157, ft_int}; {158, ft_Percentage}; {159, ft_Amt};
    {160, ft_char}; {161, ft_String}; {162, ft_String} ].

Definition fix43_std_tags_2 : list FIX_Tag :=
  [ {163, ft_char}; {164, ft_String}; {165, ft_char}; {167, ft_String};
    {168, ft_UTCTimestamp}; {169, ft_int}; {170, ft_String}; {171, ft_String};
    {172, ft_int}; {173, ft_String}; {174, ft_String}; {175, ft_String}; {176, ft_String};
    {177, ft_String}; {178, ft_String}; {179, ft_String}; {180, ft_String};
    {181, ft_String}; {182, ft_String}; {183, ft_String}; {184, ft_String};
    {185, ft_String}; {186, ft_String}; {187, ft_String}; {188, ft_Price}; {189, ft_Price};
    {190, ft_Price}; {191, ft_Price}; {192, ft_Qty}; {193, ft_LocalMktDate};
    {194, ft_Price}; {195, ft_Price}; {196, ft_String}; {197, ft_int}; {198, ft_String};
    {199, ft_NumInGroup}; {200, ft_MonthYear}; {202, ft_Price}; {203, ft_int};
    {206, ft_char}; {207, ft_Exchange}; {208, ft_Boolean}; {209, ft_int}; {210, ft_Qty};
    {211, ft_Price}; {212, ft_Length}; {213, ft_data}; {214, ft_String};
    {215, ft_NumInGroup}; {216, ft_int}; {217, ft_String}; {218, ft_Price}; {219, ft_char};
    {220, ft_Currency}; {221, ft_String}; {222, ft_String}; {223, ft_Percentage};
    {224, ft_UTCDateOnly}; {225, ft_UTCDateOnly}; {226, ft_int}; {227, ft_Percentage};
    {228, ft_float}; {229, ft_UTCDateOnly}; {230, ft_UTCDateOnly}; {231, ft_float};
    {232, ft_NumInGroup}; {233, ft_String}; {234, ft_String}; {235, ft_String};
    {236, ft_Percentage}; {237, ft_Amt}; {238, ft_Amt}; {239, ft_String};
    {240, ft_UTCDateOnly}; {241, ft_UTCDateOnly}; {242, ft_UTCDateOnly}; {243, ft_String};
    {244, ft_int}; {245, ft_Percentage}; {246, ft_float}; {247, ft_UTCDateOnly};
    {248, ft_UTCDateOnly}; {249, ft_UTCDateOnly}; {250, ft_String}; {251, ft_int};
    {252, ft_Percentage}; {253, ft_float}; {254, ft_UTCDateOnly}; {255, ft_String};
    {256, ft_String}; {257, ft_String}; {258, ft_Boolean}; {259, ft_UTCDateOnly};
    {260, ft_Price}; {262, ft_String}; {263, ft_char}; {264, ft_int}; {265, ft_int};
    {266, ft_Boolean}; {267, ft_NumInGroup}; {268, ft_NumInGroup}; {269, ft_char};
    {270, ft_Price}; {271, ft_Qty}; {272, ft_UTCDateOnly}; {273, ft_UTCTimeOnly};
    {274, ft_char}; {275, ft_Exchange}; {276, ft_MultipleStringValue};
    {277, ft_MultipleStringValue}; {278, ft_String}; {279, ft_char}; {280, ft_String};
    {281, ft_char}; {282, ft_String}; {283, ft_String}; {284, ft_String}; {285, ft_char};
    {286, ft_MultipleStringValue}; {287, ft_int}; {288, ft_String}; {289, ft_String};
    {290, ft_int}; {291, ft_MultipleStringValue}; {292, ft_MultipleStringValue};
    {293, ft_Qty}; {294, ft_Qty}; {295, ft_NumInGroup}; {296, ft_NumInGroup};
    {297, ft_int}; {298, ft_int}; {299, ft_String}; {300, ft_int}; {301, ft_int};
    {302, ft_String}; {303, ft_int}; {304, ft_int}; {305, ft_String}; {306, ft_String};
    {307, ft_String}; {308, ft_Exchange}; {309, ft_String}; {310, ft_String};
    {311, ft_String}; {312, ft_String}; {313, ft_MonthYear}; {315, ft_int};
    {316, ft_Price}; {317, ft_char}; {320, ft_String} ].

Definition fix43_std_tags_3 : list FIX_Tag :=
  [ {321, ft_int}; {322, ft_String}; {323, ft_int}; {324, ft_String}; {325, ft_Boolean};
    {326, ft_int}; {327, ft_char}; {328, ft_Boolean}; {329, ft_Boolean}; {330, ft_Qty};
    {331, ft_Qty}; {332, ft_Price}; {333, ft_Price}; {334, ft_int}; {335, ft_String};
    {336, ft_String}; {337, ft_String}; {338, ft_int}; {339, ft_int}; {340, ft_int};
    {341, ft_UTCTimestamp}; {342, ft_UTCTimestamp}; {343, ft_UTCTimestamp};
    {344, ft_UTCTimestamp}; {345, ft_UTCTimestamp}; {346, ft_int}; {347, ft_String};
    {348, ft_Length}; {349, ft_data}; {350, ft_Length}; {351, ft_data}; {352, ft_Length};
    {353, ft_data}; {354, ft_Length}; {355, ft_data}; {356, ft_Length}; {357, ft_data};
    {358, ft_Length}; {359, ft_data}; {360, ft_Length}; {361, ft_data}; {362, ft_Length};
    {363, ft_data}; {364, ft_Length}; {365, ft_data}; {366, ft_Price};
    {367, ft_UTCTimestamp}; {368, ft_int}; {369, ft_SeqNum}; {370, ft_UTCTimestamp};
    {371, ft_int}; {372, ft_String}; {373, ft_int}; {374, ft_char}; {375, ft_String};
    {376, ft_String}; {377, ft_Boolean}; {378, ft_int}; {379, ft_String}; {380, ft_int};
    {381, ft_Amt}; {382, ft_NumInGroup}; {383, ft_Length}; {384, ft_NumInGroup};
    {385, ft_char}; {386, ft_NumInGroup}; {387, ft_Qty}; {388, ft_char}; {389, ft_Price};
    {390, ft_String}; {391, ft_String}; {392, ft_String}; {393, ft_int}; {394, ft_int};
    {395, ft_int}; {396, ft_Amt}; {397, ft_Amt}; {398, ft_NumInGroup}; {399, ft_int};
    {400, ft_String}; {401, ft_int}; {402, ft_Percentage}; {403, ft_Percentage};
    {404, ft_Amt}; {405, ft_Percentage}; {406, ft_Amt}; {407, ft_Percentage};
    {408, ft_Amt}; {409, ft_int}; {410, ft_Percentage}; {411, ft_Boolean}; {412, ft_Amt};
    {413, ft_Percentage}; {414, ft_int}; {415, ft_int}; {416, ft_int}; {417, ft_int};
    {418, ft_char}; {419, ft_char}; {420, ft_NumInGroup}; {421, ft_Country}; {422, ft_int};
    {423, ft_int}; {424, ft_Qty}; {425, ft_Qty}; {426, ft_Price}; {427, ft_int};
    {428, ft_NumInGroup}; {429, ft_int}; {430, ft_int}; {431, ft_int};
    {432, ft_LocalMktDate}; {433, ft_char}; {434, ft_char}; {435, ft_Percentage};
    {436, ft_float}; {437, ft_Qty}; {438, ft_UTCTimestamp}; {441, ft_int}; {442, ft_char};
    {443, ft_UTCTimestamp}; {444, ft_String}; {445, ft_Length}; {446, ft_data};
    {447, ft_char}; {448, ft_String}; {449, ft_UTCDateOnly}; {450, ft_UTCTimeOnly};
    {451, ft_Price}; {452, ft_int}; {453, ft_NumInGroup}; {454, ft_NumInGroup};
    {455, ft_String}; {456, ft_String}; {457, ft_NumInGroup}; {458, ft_String};
    {459, ft_String}; {460, ft_int}; {461, ft_String}; {462, ft_int}; {463, ft_String};
    {464, ft_Boolean}; {465, ft_int}; {466, ft_String}; {467, ft_String}; {468, ft_char};
    {469, ft_float}; {470, ft_Country}; {471, ft_String}; {472, ft_String} ].

Definition fix43_std_tags_4 : list FIX_Tag :=
  [ {473, ft_NumInGroup}; {474, ft_String}; {475, ft_Country}; {476, ft_String};
    {477, ft_int}; {478, ft_Currency}; {479, ft_Currency}; {480, ft_char}; {481, ft_char};
    {482, ft_String}; {483, ft_UTCTimestamp}; {484, ft_char}; {485, ft_float};
    {486, ft_LocalMktDate}; {487, ft_char}; {488, ft_String}; {489, ft_String};
    {490, ft_LocalMktDate}; {491, ft_String}; {492, ft_int}; {493, ft_String};
    {494, ft_String}; {495, ft_int}; {496, ft_String}; {497, ft_char}; {498, ft_String};
    {499, ft_String}; {500, ft_String}; {501, ft_String}; {503, ft_LocalMktDate};
    {504, ft_LocalMktDate}; {505, ft_String}; {506, ft_char}; {507, ft_int};
    {508, ft_String}; {509, ft_String}; {510, ft_NumInGroup}; {511, ft_String};
    {512, ft_Percentage}; {513, ft_String}; {514, ft_char}; {515, ft_UTCTimestamp};
    {516, ft_Percentage}; {517, ft_char}; {518, ft_NumInGroup}; {519, ft_int};
    {520, ft_float}; {521, ft_Currency}; {522, ft_int}; {523, ft_String}; {524, ft_String};
    {525, ft_char}; {526, ft_String}; {527, ft_String}; {528, ft_char};
    {529, ft_MultipleStringValue}; {530, ft_char}; {531, ft_char}; {532, ft_char};
    {533, ft_int}; {534, ft_NumInGroup}; {535, ft_String}; {536, ft_String}; {537, ft_int};
    {538, ft_int}; {539, ft_NumInGroup}; {540, ft_Amt}; {541, ft_LocalMktDate};
    {542, ft_LocalMktDate}; {543, ft_String}; {544, ft_char}; {545, ft_String};
    {546, ft_MultipleStringValue}; {547, ft_Boolean}; {548, ft_String}; {549, ft_int};
    {550, ft_int}; {551, ft_String}; {552, ft_NumInGroup}; {553, ft_String};
    {554, ft_String}; {555, ft_NumInGroup}; {556, ft_Currency}; {557, ft_int};
    {558, ft_NumInGroup}; {559, ft_int}; {560, ft_int}; {561, ft_Qty}; {562, ft_Qty};
    {563, ft_int}; {564, ft_char}; {565, ft_int}; {566, ft_Price}; {567, ft_int};
    {568, ft_String}; {569, ft_int}; {570, ft_Boolean}; {571, ft_String}; {572, ft_String};
    {573, ft_char}; {574, ft_String}; {575, ft_Boolean}; {576, ft_int}; {577, ft_int};
    {578, ft_String}; {579, ft_String}; {580, ft_NumInGroup}; {581, ft_int}; {582, ft_int};
    {583, ft_String}; {584, ft_String}; {585, ft_int}; {586, ft_UTCTimestamp};
    {587, ft_char}; {588, ft_LocalMktDate}; {589, ft_char}; {590, ft_char}; {591, ft_char};
    {592, ft_Country}; {593, ft_String}; {594, ft_String}; {595, ft_String};
    {596, ft_Country}; {597, ft_String}; {598, ft_String}; {599, ft_String};
    {600, ft_String}; {601, ft_String}; {602, ft_String}; {603, ft_String};
    {604, ft_NumInGroup}; {605, ft_String}; {606, ft_String}; {607, ft_int};
    {608, ft_String}; {609, ft_String}; {610, ft_MonthYear}; {611, ft_LocalMktDate};
    {612, ft_Price}; {613, ft_char}; {614, ft_float}; {615, ft_Percentage};
    {616, ft_Exchange}; {617, ft_String}; {618, ft_Length}; {619, ft_data};
    {620, ft_String}; {621, ft_Length}; {622, ft_data}; {623, ft_float} ].

Definition fix43_std_tags_5 : list FIX_Tag :=
  [ {624, ft_char}; {625, ft_String}; {626, ft_int}; {627, ft_NumInGroup};
    {628, ft_String}; {629, ft_UTCTimestamp}; {630, ft_SeqNum}; {631, ft_Price};
    {632, ft_Percentage}; {633, ft_Percentage}; {634, ft_Percentage}; {635, ft_String};
    {636, ft_Boolean}; {637, ft_Price}; {638, ft_int}; {639, ft_Price}; {640, ft_Price};
    {641, ft_Price}; {642, ft_Price}; {643, ft_Price}; {644, ft_String}; {645, ft_Price};
    {646, ft_Price}; {647, ft_Qty}; {648, ft_Qty}; {649, ft_String}; {650, ft_Boolean};
    {651, ft_Price}; {652, ft_Qty}; {654, ft_String}; {655, ft_String}; {656, ft_float};
    {657, ft_float}; {658, ft_int}; {659, ft_String}; {0, ft_int} ].

Definition fix43_std_tags : list FIX_Tag :=
  fix43_std_tags_1 ++ fix43_std_tags_2 ++ fix43_std_tags_3 ++ fix43_std_tags_4 ++
  fix43_std_tags_5.

Definition fix43_std_data_tags : list FIX_Tag :=
  [ {89, ft_data}; {91, ft_data}; {96, ft_data}; {213, ft_data}; {349, ft_data};
    {351, ft_data}; {353, ft_data}; {355, ft_data}; {357, ft_data}; {359, ft_data};
    {361, ft_data}; {363, ft_data}; {365, ft_data}; {446, ft_data}; {619, ft_data};
    {622, ft_data}; {0, ft_int} ].

(** ** [FIX44.cpp] *)

Definition fix44_std_tags_1 : list FIX_Tag :=
  [ {1, ft_String}; {2, ft_String}; {3, ft_String}; {4, ft_char}; {5, ft_String};
    {6, ft_Price}; {7, ft_SeqNum}; {8, ft_String}; {9, ft_Length}; {10, ft_String};
    {11, ft_String}; {12, ft_Amt}; {13, ft_char}; {14, ft_Qty}; {15, ft_Currency};
    {16, ft_SeqNum}; {17, ft_String}; {18, ft_MultipleCharValue}; {19, ft_String};
    {21, ft_char}; {22, ft_String}; {23, ft_String}; {25, ft_char}; {26, ft_String};
    {27, ft_String}; {28, ft_char}; {29, ft_char}; {30, ft_Exchange}; {31, ft_Price};
    {32, ft_Qty}; {33, ft_NumInGroup}; {34, ft_SeqNum}; {35, ft_String}; {36, ft_SeqNum};
    {37, ft_String}; {38, ft_Qty}; {39, ft_char}; {40, ft_char}; {41, ft_String};
    {42, ft_UTCTimestamp}; {43, ft_Boolean}; {44, ft_Price}; {45, ft_SeqNum};
    {48, ft_String}; {49, ft_String}; {50, ft_String}; {52, ft_UTCTimestamp}; {53, ft_Qty};
    {54, ft_char}; {55, ft_String}; {56, ft_String}; {57, ft_String}; {58, ft_String};
    {59, ft_char}; {60, ft_UTCTimestamp}; {61, ft_char}; {62, ft_UTCTimestamp};
    {63, ft_char}; {64, ft_LocalMktDate}; {65, ft_String}; {66, ft_String}; {67, ft_int};
    {68, ft_int}; {69, ft_String}; {70, ft_String}; {71, ft_char}; {72, ft_String};
    {73, ft_NumInGroup}; {74, ft_int}; {75, ft_LocalMktDate}; {77, ft_char};
    {78, ft_NumInGroup}; {79, ft_String}; {80, ft_Qty}; {81, ft_char}; {82, ft_int};
    {83, ft_int}; {84, ft_Qty}; {85, ft_NumInGroup}; {87, ft_int}; {88, ft_int};
    {89, ft_data}; {90, ft_Length}; {91, ft_data}; {93, ft_Length}; {94, ft_char};
    {95, ft_Length}; {96, ft_data}; {97, ft_Boolean}; {98, ft_int}; {99, ft_Price};
    {100, ft_Exchange}; {102, ft_int}; {103, ft_int}; {104, ft_char}; {106, ft_String};
    {107, ft_String}; {108, ft_int}; {110, ft_Qty}; {111, ft_Qty}; {112, ft_String};
    {113, ft_Boolean}; {114, ft_Boolean}; {115, ft_String}; {116, ft_String};
    {117, ft_String}; {118, ft_Amt}; {119, ft_Amt}; {120, ft_Currency}; {121, ft_Boolean};
    {122, ft_UTCTimestamp}; {123, ft_Boolean}; {124, ft_NumInGroup};
    {126, ft_UTCTimestamp}; {127, ft_char}; {128, ft_String}; {129, ft_String};
    {130, ft_Boolean}; {131, ft_String}; {132, ft_Price}; {133, ft_Price}; {134, ft_Qty};
    {135, ft_Qty}; {136, ft_NumInGroup}; {137, ft_Amt}; {138, ft_Currency}; {139, ft_char};
    {140, ft_Price}; {141, ft_Boolean}; {142, ft_String}; {143, ft_String};
    {144, ft_String}; {145, ft_String}; {146, ft_NumInGroup}; {147, ft_String};
    {148, ft_String}; {149, ft_String}; {150, ft_char}; {151, ft_Qty}; {152, ft_Qty};
    {153, ft_Price}; {154, ft_Amt}; {155, ft_float}; {156, ft_char}; {157, ft_int};
    {158, ft_Percentage}; {159, ft_Amt}; {160, ft_char}; {161, ft_String};
    {162, ft_String} ].

Definition fix44_std_tags_2 : list FIX_Tag :=
  [ {163, ft_char}; {164, ft_String}; {165, ft_char}; {167, ft_String};
    {168, ft_UTCTimestamp}; {169, ft_int}; {170, ft_String}; {171, ft_String};
    {172, ft_int}; {188, ft_Price}; {189, ft_Price}; {190, ft_Price}; {191, ft_Price};
    {192, ft_Qty}; {193, ft_LocalMktDate}; {194, ft_Price}; {195, ft_Price};
    {196, ft_String}; {197, ft_int}; {198, ft_String}; {199, ft_NumInGroup};
    {200, ft_MonthYear}; {201, ft_int}; {202, ft_Price}; {203, ft_int}; {206, ft_char};
    {207, ft_Exchange}; {208, ft_Boolean}; {209, ft_int}; {210, ft_Qty}; {211, ft_float};
    {212, ft_Length}; {213, ft_data}; {214, ft_String}; {215, ft_NumInGroup};
    {216, ft_int}; {217, ft_String}; {218, ft_Price}; {220, ft_Currency}; {221, ft_String};
    {222, ft_String}; {223, ft_Percentage}; {224, ft_LocalMktDate}; {225, ft_LocalMktDate};
    {226, ft_int}; {227, ft_Percentage}; {228, ft_float}; {229, ft_LocalMktDate};
    {230, ft_LocalMktDate}; {231, ft_float}; {232, ft_NumInGroup}; {233, ft_String};
    {234, ft_String}; {235, ft_String}; {236, ft_Percentage}; {237, ft_Amt}; {238, ft_Amt};
    {239, ft_String}; {240, ft_LocalMktDate}; {241, ft_LocalMktDate};
    {242, ft_LocalMktDate}; {243, ft_String}; {244, ft_int}; {245, ft_Percentage};
    {246, ft_float}; {247, ft_LocalMktDate}; {248, ft_LocalMktDate};
    {249, ft_LocalMktDate}; {250, ft_String}; {251, ft_int}; {252, ft_Percentage};
    {253, ft_float}; {254, ft_LocalMktDate}; {255, ft_String}; {256, ft_String};
    {257, ft_String}; {258, ft_Boolean}; {259, ft_LocalMktDate}; {260, ft_Price};
    {262, ft_String}; {263, ft_char}; {264, ft_int}; {265, ft_int}; {266, ft_Boolean};
    {267, ft_NumInGroup}; {268, ft_NumInGroup}; {269, ft_char}; {270, ft_Price};
    {271, ft_Qty}; {272, ft_UTCDateOnly}; {273, ft_UTCTimeOnly}; {274, ft_char};
    {275, ft_Exchange}; {276, ft_MultipleStringValue}; {277, ft_MultipleStringValue};
    {278, ft_String}; {279, ft_char}; {280, ft_String}; {281, ft_char}; {282, ft_String};
    {283, ft_String}; {284, ft_String}; {285, ft_char}; {286, ft_MultipleStringValue};
    {287, ft_int}; {288, ft_String}; {289, ft_String}; {290, ft_int};
    {291, ft_MultipleStringValue}; {292, ft_MultipleStringValue}; {293, ft_Qty};
    {294, ft_Qty}; {295, ft_NumInGroup}; {296, ft_NumInGroup}; {297, ft_int};
    {298, ft_int}; {299, ft_String}; {300, ft_int}; {301, ft_int}; {302, ft_String};
    {303, ft_int}; {304, ft_int}; {305, ft_String}; {306, ft_String}; {307, ft_String};
    {308, ft_Exchange}; {309, ft_String}; {310, ft_String}; {311, ft_String};
    {312, ft_String}; {313, ft_MonthYear}; {315, ft_int}; {316, ft_Price}; {317, ft_char};
    {318, ft_Currency}; {320, ft_String}; {321, ft_int}; {322, ft_String}; {323, ft_int};
    {324, ft_String}; {325, ft_Boolean}; {326, ft_int}; {327, ft_char}; {328, ft_Boolean};
    {329, ft_Boolean}; {330, ft_Qty}; {331, ft_Qty}; {332, ft_Price}; {333, ft_Price};
    {334, ft_int} ].

Definition fix44_std_tags_3 : list FIX_Tag :=
  [ {335, ft_String}; {336, ft_String}; {337, ft_String}; {338, ft_int}; {339, ft_int};
    {340, ft_int}; {341, ft_UTCTimestamp}; {342, ft_UTCTimestamp}; {343, ft_UTCTimestamp};
    {344, ft_UTCTimestamp}; {345, ft_UTCTimestamp}; {346, ft_int}; {347, ft_String};
    {348, ft_Length}; {349, ft_data}; {350, ft_Length}; {351, ft_data}; {352, ft_Length};
    {353, ft_data}; {354, ft_Length}; {355, ft_data}; {356, ft_Length}; {357, ft_data};
    {358, ft_Length}; {359, ft_data}; {360, ft_Length}; {361, ft_data}; {362, ft_Length};
    {363, ft_data}; {364, ft_Length}; {365, ft_data}; {366, ft_Price};
    {367, ft_UTCTimestamp}; {368, ft_int}; {369, ft_SeqNum}; {371, ft_int};
    {372, ft_String}; {373, ft_int}; {374, ft_char}; {375, ft_String}; {376, ft_String};
    {377, ft_Boolean}; {378, ft_int}; {379, ft_String}; {380, ft_int}; {381, ft_Amt};
    {382, ft_NumInGroup}; {383, ft_Length}; {384, ft_NumInGroup}; {385, ft_char};
    {386, ft_NumInGroup}; {387, ft_Qty}; {388, ft_char}; {389, ft_float}; {390, ft_String};
    {391, ft_String}; {392, ft_String}; {393, ft_int}; {394, ft_int}; {395, ft_int};
    {396, ft_Amt}; {397, ft_Amt}; {398, ft_NumInGroup}; {399, ft_int}; {400, ft_String};
    {401, ft_int}; {402, ft_Percentage}; {403, ft_Percentage}; {404, ft_Amt};
    {405, ft_Percentage}; {406, ft_Amt}; {407, ft_Percentage}; {408, ft_Amt};
    {409, ft_int}; {410, ft_Percentage}; {411, ft_Boolean}; {412, ft_Amt};
    {413, ft_Percentage}; {414, ft_int}; {415, ft_int}; {416, ft_int}; {417, ft_int};
    {418, ft_char}; {419, ft_char}; {420, ft_NumInGroup}; {421, ft_Country}; {422, ft_int};
    {423, ft_int}; {424, ft_Qty}; {425, ft_Qty}; {426, ft_Price}; {427, ft_int};
    {428, ft_NumInGroup}; {429, ft_int}; {430, ft_int}; {431, ft_int};
    {432, ft_LocalMktDate}; {433, ft_char}; {434, ft_char}; {435, ft_Percentage};
    {436, ft_float}; {437, ft_Qty}; {438, ft_UTCTimestamp}; {441, ft_int}; {442, ft_char};
    {443, ft_UTCTimestamp}; {444, ft_String}; {445, ft_Length}; {446, ft_data};
    {447, ft_char}; {448, ft_String}; {451, ft_Price}; {452, ft_int}; {453, ft_NumInGroup};
    {454, ft_NumInGroup}; {455, ft_String}; {456, ft_String}; {457, ft_NumInGroup};
    {458, ft_String}; {459, ft_String}; {460, ft_int}; {461, ft_String}; {462, ft_int};
    {463, ft_String}; {464, ft_Boolean}; {466, ft_String}; {467, ft_String};
    {468, ft_char}; {469, ft_float}; {470, ft_Country}; {471, ft_String}; {472, ft_String};
    {473, ft_NumInGroup}; {474, ft_String}; {475, ft_Country}; {476, ft_String};
    {477, ft_int}; {478, ft_Currency}; {479, ft_Currency}; {480, ft_char}; {481, ft_char};
    {482, ft_String}; {483, ft_UTCTimestamp}; {484, ft_char}; {485, ft_float};
    {486, ft_LocalMktDate}; {487, ft_int}; {488, ft_String}; {489, ft_String};
    {490, ft_LocalMktDate} ].

Definition fix44_std_tags_4 : list FIX_Tag :=
  [ {491, ft_String}; {492, ft_int}; {493, ft_String}; {494, ft_String}; {495, ft_int};
    {496, ft_String}; {497, ft_char}; {498, ft_String}; {499, ft_String}; {500, ft_String};
    {501, ft_String}; {502, ft_String}; {503, ft_LocalMktDate}; {504, ft_LocalMktDate};
    {505, ft_String}; {506, ft_char}; {507, ft_int}; {508, ft_String}; {509, ft_String};
    {510, ft_NumInGroup}; {511, ft_String}; {512, ft_Percentage}; {513, ft_String};
    {514, ft_char}; {515, ft_UTCTimestamp}; {516, ft_Percentage}; {517, ft_char};
    {518, ft_NumInGroup}; {519, ft_int}; {520, ft_float}; {521, ft_Currency};
    {522, ft_int}; {523, ft_String}; {524, ft_String}; {525, ft_char}; {526, ft_String};
    {527, ft_String}; {528, ft_char}; {529, ft_MultipleStringValue}; {530, ft_char};
    {531, ft_char}; {532, ft_char}; {533, ft_int}; {534, ft_NumInGroup}; {535, ft_String};
    {536, ft_String}; {537, ft_int}; {538, ft_int}; {539, ft_NumInGroup}; {540, ft_Amt};
    {541, ft_LocalMktDate}; {542, ft_LocalMktDate}; {543, ft_String}; {544, ft_char};
    {545, ft_String}; {546, ft_MultipleStringValue}; {547, ft_Boolean}; {548, ft_String};
    {549, ft_int}; {550, ft_int}; {551, ft_String}; {552, ft_NumInGroup}; {553, ft_String};
    {554, ft_String}; {555, ft_NumInGroup}; {556, ft_Currency}; {557, ft_int};
    {558, ft_NumInGroup}; {559, ft_int}; {560, ft_int}; {561, ft_Qty}; {562, ft_Qty};
    {563, ft_int}; {564, ft_char}; {565, ft_int}; {566, ft_Price}; {567, ft_int};
    {568, ft_String}; {569, ft_int}; {570, ft_Boolean}; {571, ft_String}; {572, ft_String};
    {573, ft_char}; {574, ft_String}; {575, ft_Boolean}; {576, ft_NumInGroup};
    {577, ft_int}; {578, ft_String}; {579, ft_String}; {580, ft_NumInGroup}; {581, ft_int};
    {582, ft_int}; {583, ft_String}; {584, ft_String}; {585, ft_int};
    {586, ft_UTCTimestamp}; {587, ft_char}; {588, ft_LocalMktDate}; {589, ft_char};
    {590, ft_char}; {591, ft_char}; {592, ft_Country}; {593, ft_String}; {594, ft_String};
    {595, ft_String}; {596, ft_Country}; {597, ft_String}; {598, ft_String};
    {599, ft_String}; {600, ft_String}; {601, ft_String}; {602, ft_String};
    {603, ft_String}; {604, ft_NumInGroup}; {605, ft_String}; {606, ft_String};
    {607, ft_int}; {608, ft_String}; {609, ft_String}; {610, ft_MonthYear};
    {611, ft_LocalMktDate}; {612, ft_Price}; {613, ft_char}; {614, ft_float};
    {615, ft_Percentage}; {616, ft_Exchange}; {617, ft_String}; {618, ft_Length};
    {619, ft_data}; {620, ft_String}; {621, ft_Length}; {622, ft_data}; {623, ft_float};
    {624, ft_char}; {625, ft_String}; {626, ft_int}; {627, ft_NumInGroup};
    {628, ft_String}; {629, ft_UTCTimestamp}; {630, ft_SeqNum}; {631, ft_Price};
    {632, ft_Percentage}; {633, ft_Percentage}; {634, ft_Percentage}; {635, ft_String};
    {636, ft_Boolean}; {637, ft_Price}; {638, ft_int}; {639, ft_Price}; {640, ft_Price} ].

Definition fix44_std_tags_5 : list FIX_Tag :=
  [ {641, ft_Price}; {642, ft_Price}; {643, ft_Price}; {644, ft_String}; {645, ft_Price};
    {646, ft_Price}; {647, ft_Qty}; {648, ft_Qty}; {649, ft_String}; {650, ft_Boolean};
    {651, ft_Price}; {652, ft_Qty}; {654, ft_String}; {655, ft_String}; {656, ft_float};
    {657, ft_float}; {658, ft_int}; {659, ft_String}; {660, ft_int}; {661, ft_int};
    {662, ft_Price}; {663, ft_int}; {664, ft_String}; {665, ft_int}; {666, ft_int};
    {667, ft_MonthYear}; {668, ft_int}; {669, ft_Price}; {670, ft_NumInGroup};
    {671, ft_String}; {672, ft_String}; {673, ft_Qty}; {674, ft_String};
    {675, ft_Currency}; {676, ft_Currency}; {677, ft_String}; {678, ft_String};
    {679, ft_Price}; {680, ft_int}; {681, ft_Price}; {682, ft_String};
    {683, ft_NumInGroup}; {684, ft_Price}; {686, ft_int}; {687, ft_Qty}; {688, ft_String};
    {689, ft_String}; {690, ft_int}; {691, ft_String}; {692, ft_int}; {693, ft_String};
    {694, ft_int}; {695, ft_char}; {696, ft_LocalMktDate}; {697, ft_Price}; {698, ft_int};
    {699, ft_String}; {700, ft_Boolean}; {701, ft_LocalMktDate}; {702, ft_NumInGroup};
    {703, ft_String}; {704, ft_Qty}; {705, ft_Qty}; {706, ft_int}; {707, ft_String};
    {708, ft_Amt}; {709, ft_int}; {710, ft_String}; {711, ft_NumInGroup}; {712, ft_int};
    {713, ft_String}; {714, ft_String}; {715, ft_LocalMktDate}; {716, ft_String};
    {717, ft_String}; {718, ft_int}; {719, ft_Boolean}; {720, ft_Boolean};
    {721, ft_String}; {722, ft_int}; {723, ft_int}; {724, ft_int}; {725, ft_int};
    {726, ft_String}; {727, ft_int}; {728, ft_int}; {729, ft_int}; {730, ft_Price};
    {731, ft_int}; {732, ft_Price}; {733, ft_int}; {734, ft_Price}; {735, ft_NumInGroup};
    {736, ft_Currency}; {737, ft_Amt}; {738, ft_Amt}; {739, ft_LocalMktDate};
    {740, ft_String}; {741, ft_Amt}; {742, ft_Amt}; {743, ft_LocalMktDate}; {744, ft_char};
    {745, ft_Qty}; {746, ft_Amt}; {747, ft_char}; {748, ft_int}; {749, ft_int};
    {750, ft_int}; {751, ft_int}; {752, ft_int}; {753, ft_NumInGroup}; {754, ft_Boolean};
    {755, ft_String}; {756, ft_NumInGroup}; {757, ft_String}; {758, ft_char};
    {759, ft_int}; {760, ft_String}; {761, ft_String}; {762, ft_String}; {763, ft_String};
    {764, ft_String}; {765, ft_Percentage}; {766, ft_Amt}; {767, ft_Currency};
    {768, ft_NumInGroup}; {769, ft_UTCTimestamp}; {770, ft_int}; {771, ft_String};
    {772, ft_String}; {773, ft_int}; {774, ft_int}; {775, ft_int}; {776, ft_int};
    {777, ft_String}; {778, ft_NumInGroup}; {779, ft_UTCTimestamp}; {780, ft_int};
    {781, ft_NumInGroup}; {782, ft_String}; {783, ft_char}; {784, ft_int};
    {785, ft_String}; {786, ft_int}; {787, ft_char}; {788, ft_int}; {789, ft_SeqNum};
    {790, ft_String}; {791, ft_String}; {792, ft_int} ].

Definition fix44_std_tags_6 : list FIX_Tag :=
  [ {793, ft_String}; {794, ft_int}; {795, ft_String}; {796, ft_int}; {797, ft_Boolean};
    {798, ft_int}; {799, ft_Price}; {800, ft_Qty}; {801, ft_NumInGroup};
    {802, ft_NumInGroup}; {803, ft_int}; {804, ft_NumInGroup}; {805, ft_int};
    {806, ft_NumInGroup}; {807, ft_int}; {808, ft_int}; {810, ft_Price}; {811, ft_float};
    {812, ft_int}; {813, ft_int}; {814, ft_int}; {815, ft_int}; {816, ft_NumInGroup};
    {817, ft_String}; {818, ft_String}; {819, ft_int}; {820, ft_String}; {821, ft_String};
    {822, ft_String}; {823, ft_String}; {824, ft_String}; {825, ft_String}; {826, ft_int};
    {827, ft_int}; {828, ft_int}; {829, ft_int}; {830, ft_String}; {832, ft_int};
    {833, ft_String}; {834, ft_Price}; {835, ft_int}; {836, ft_int}; {837, ft_int};
    {838, ft_int}; {839, ft_Price}; {840, ft_int}; {841, ft_int}; {842, ft_int};
    {843, ft_int}; {844, ft_int}; {845, ft_Price}; {846, ft_int}; {847, ft_int};
    {848, ft_String}; {849, ft_Percentage}; {850, ft_float}; {851, ft_int};
    {852, ft_Boolean}; {853, ft_int}; {854, ft_int}; {855, ft_int}; {856, ft_int};
    {857, ft_int}; {858, ft_Amt}; {859, ft_String}; {860, ft_Price}; {861, ft_Price};
    {862, ft_NumInGroup}; {863, ft_Qty}; {864, ft_NumInGroup}; {865, ft_int};
    {866, ft_LocalMktDate}; {867, ft_Price}; {868, ft_String}; {869, ft_Percentage};
    {870, ft_NumInGroup}; {871, ft_int}; {872, ft_String}; {873, ft_LocalMktDate};
    {874, ft_LocalMktDate}; {875, ft_int}; {876, ft_String}; {877, ft_String};
    {878, ft_String}; {879, ft_Qty}; {880, ft_String}; {881, ft_String}; {882, ft_Price};
    {883, ft_Price}; {884, ft_Amt}; {885, ft_Amt}; {886, ft_Amt}; {887, ft_NumInGroup};
    {888, ft_String}; {889, ft_String}; {890, ft_Amt}; {891, ft_int}; {892, ft_int};
    {893, ft_Boolean}; {894, ft_String}; {895, ft_int}; {896, ft_int};
    {897, ft_NumInGroup}; {898, ft_Percentage}; {899, ft_Amt}; {900, ft_Amt};
    {901, ft_Amt}; {902, ft_String}; {903, ft_int}; {904, ft_String}; {905, ft_int};
    {906, ft_int}; {907, ft_String}; {908, ft_String}; {909, ft_String}; {910, ft_int};
    {911, ft_int}; {912, ft_Boolean}; {913, ft_String}; {914, ft_String};
    {915, ft_LocalMktDate}; {916, ft_LocalMktDate}; {917, ft_LocalMktDate};
    {918, ft_Currency}; {919, ft_int}; {920, ft_Amt}; {921, ft_Amt}; {922, ft_Amt};
    {923, ft_String}; {924, ft_int}; {925, ft_String}; {926, ft_int}; {927, ft_String};
    {928, ft_int}; {929, ft_String}; {930, ft_String}; {931, ft_String}; {932, ft_String};
    {933, ft_String}; {934, ft_String}; {935, ft_int}; {936, ft_NumInGroup}; {937, ft_int};
    {938, ft_NumInGroup}; {939, ft_int}; {940, ft_int}; {941, ft_Currency};
    {942, ft_Currency}; {943, ft_String}; {944, ft_int} ].

Definition fix44_std_tags_7 : list FIX_Tag :=
  [ {945, ft_int}; {946, ft_int}; {947, ft_Currency}; {948, ft_NumInGroup};
    {949, ft_String}; {950, ft_char}; {951, ft_int}; {952, ft_NumInGroup};
    {953, ft_String}; {954, ft_int}; {955, ft_MonthYear}; {956, ft_LocalMktDate};
    {0, ft_int} ].

Definition fix44_std_tags : list FIX_Tag :=
  fix44_std_tags_1 ++ fix44_std_tags_2 ++ fix44_std_tags_3 ++ fix44_std_tags_4 ++
  fix44_std_tags_5 ++ fix44_std_tags_6 ++ fix44_std_tags_7.

Definition fix44_std_data_tags : list FIX_Tag :=
  [ {89, ft_data}; {91, ft_data}; {96, ft_data}; {213, ft_data}; {349, ft_data};
    {351, ft_data}; {353, ft_data}; {355, ft_data}; {357, ft_data}; {359, ft_data};
    {361, ft_data}; {363, ft_data}; {365, ft_data}; {446, ft_data}; {619, ft_data};
    {622, ft_data}; {0, ft_int} ].

(** ** [FIX50.cpp] *)

Definition fix50_std_tags_1 : list FIX_Tag :=
  [ {1, ft_String}; {2, ft_String}; {3, ft_String}; {4, ft_char}; {5, ft_String};
    {6, ft_Price}; {7, ft_SeqNum}; {8, ft_String}; {9, ft_Length}; {10, ft_String};
    {11, ft_String}; {12, ft_Amt}; {13, ft_char}; {14, ft_Qty}; {15, ft_Currency};
    {16, ft_SeqNum}; {17, ft_String}; {18, ft_MultipleCharValue}; {19, ft_String};
    {21, ft_char}; {22, ft_String}; {23, ft_String}; {25, ft_char}; {26, ft_String};
    {27, ft_String}; {28, ft_char}; {29, ft_char}; {30, ft_Exchange}; {31, ft_Price};
    {32, ft_Qty}; {33, ft_NumInGroup}; {34, ft_SeqNum}; {35, ft_String}; {36, ft_SeqNum};
    {37, ft_String}; {38, ft_Qty}; {39, ft_char}; {40, ft_char}; {41, ft_String};
    {42, ft_UTCTimestamp}; {43, ft_Boolean}; {44, ft_Price}; {45, ft_SeqNum};
    {48, ft_String}; {49, ft_String}; {50, ft_String}; {52, ft_UTCTimestamp}; {53, ft_Qty};
    {54, ft_char}; {55, ft_String}; {56, ft_String}; {57, ft_String}; {58, ft_String};
    {59, ft_char}; {60, ft_UTCTimestamp}; {61, ft_char}; {62, ft_UTCTimestamp};
    {63, ft_String}; {64, ft_LocalMktDate}; {65, ft_String}; {66, ft_String}; {67, ft_int};
    {68, ft_int}; {69, ft_String}; {70, ft_String}; {71, ft_char}; {72, ft_String};
    {73, ft_NumInGroup}; {74, ft_int}; {75, ft_LocalMktDate}; {77, ft_char};
    {78, ft_NumInGroup}; {79, ft_String}; {80, ft_Qty}; {81, ft_char}; {82, ft_int};
    {83, ft_int}; {84, ft_Qty}; {85, ft_NumInGroup}; {87, ft_int}; {88, ft_int};
    {89, ft_data}; {90, ft_Length}; {91, ft_data}; {93, ft_Length}; {94, ft_char};
    {95, ft_Length}; {96, ft_data}; {97, ft_Boolean}; {98, ft_int}; {99, ft_Price};
    {100, ft_Exchange}; {102, ft_int}; {103, ft_int}; {104, ft_char}; {106, ft_String};
    {107, ft_String}; {108, ft_int}; {110, ft_Qty}; {111, ft_Qty}; {112, ft_String};
    {113, ft_Boolean}; {114, ft_Boolean}; {115, ft_String}; {116, ft_String};
    {117, ft_String}; {118, ft_Amt}; {119, ft_Amt}; {120, ft_Currency}; {121, ft_Boolean};
    {122, ft_UTCTimestamp}; {123, ft_Boolean}; {124, ft_NumInGroup};
    {126, ft_UTCTimestamp}; {127, ft_char}; {128, ft_String}; {129, ft_String};
    {130, ft_Boolean}; {131, ft_String}; {132, ft_Price}; {133, ft_Price}; {134, ft_Qty};
    {135, ft_Qty}; {136, ft_NumInGroup}; {137, ft_Amt}; {138, ft_Currency};
    {139, ft_String}; {140, ft_Price}; {141, ft_Boolean}; {142, ft_String};
    {143, ft_String}; {144, ft_String}; {145, ft_String}; {146, ft_NumInGroup};
    {147, ft_String}; {148, ft_String}; {149, ft_String}; {150, ft_char}; {151, ft_Qty};
    {152, ft_Qty}; {153, ft_Price}; {154, ft_Amt}; {155, ft_float}; {156, ft_char};
    {157, ft_int}; {158, ft_Percentage}; {159, ft_Amt}; {160, ft_char}; {161, ft_String};
    {162, ft_String} ].

Definition fix50_std_tags_2 : list FIX_Tag :=
  [ {163, ft_char}; {164, ft_String}; {165, ft_char}; {167, ft_String};
    {168, ft_UTCTimestamp}; {169, ft_int}; {170, ft_String}; {171, ft_String};
    {172, ft_int}; {188, ft_Price}; {189, ft_Price}; {190, ft_Price}; {191, ft_Price};
    {192, ft_Qty}; {193, ft_LocalMktDate}; {194, ft_Price}; {195, ft_Price};
    {196, ft_String}; {197, ft_int}; {198, ft_String}; {199, ft_NumInGroup};
    {200, ft_MonthYear}; {201, ft_int}; {202, ft_Price}; {203, ft_int}; {206, ft_char};
    {207, ft_Exchange}; {208, ft_Boolean}; {209, ft_int}; {210, ft_Qty}; {211, ft_float};
    {212, ft_Length}; {213, ft_data}; {214, ft_String}; {215, ft_NumInGroup};
    {216, ft_int}; {217, ft_String}; {218, ft_Price}; {220, ft_Currency}; {221, ft_String};
    {222, ft_String}; {223, ft_Percentage}; {224, ft_LocalMktDate}; {225, ft_LocalMktDate};
    {226, ft_int}; {227, ft_Percentage}; {228, ft_float}; {229, ft_LocalMktDate};
    {230, ft_LocalMktDate}; {231, ft_float}; {232, ft_NumInGroup}; {233, ft_String};
    {234, ft_String}; {235, ft_String}; {236, ft_Percentage}; {237, ft_Amt}; {238, ft_Amt};
    {239, ft_String}; {240, ft_LocalMktDate}; {241, ft_LocalMktDate};
    {242, ft_LocalMktDate}; {243, ft_String}; {244, ft_int}; {245, ft_Percentage};
    {246, ft_float}; {247, ft_LocalMktDate}; {248, ft_LocalMktDate};
    {249, ft_LocalMktDate}; {250, ft_String}; {251, ft_int}; {252, ft_Percentage};
    {253, ft_float}; {254, ft_LocalMktDate}; {255, ft_String}; {256, ft_String};
    {257, ft_String}; {258, ft_Boolean}; {259, ft_LocalMktDate}; {260, ft_Price};
    {262, ft_String}; {263, ft_char}; {264, ft_int}; {265, ft_int}; {266, ft_Boolean};
    {267, ft_NumInGroup}; {268, ft_NumInGroup}; {269, ft_char}; {270, ft_Price};
    {271, ft_Qty}; {272, ft_UTCDateOnly}; {273, ft_UTCTimeOnly}; {274, ft_char};
    {275, ft_Exchange}; {276, ft_MultipleStringValue}; {277, ft_MultipleStringValue};
    {278, ft_String}; {279, ft_char}; {280, ft_String}; {281, ft_char}; {282, ft_String};
    {283, ft_String}; {284, ft_String}; {285, ft_char}; {286, ft_MultipleCharValue};
    {287, ft_int}; {288, ft_String}; {289, ft_String}; {290, ft_int};
    {291, ft_MultipleCharValue}; {292, ft_MultipleCharValue}; {293, ft_Qty}; {294, ft_Qty};
    {295, ft_NumInGroup}; {296, ft_NumInGroup}; {297, ft_int}; {298, ft_int};
    {299, ft_String}; {300, ft_int}; {301, ft_int}; {302, ft_String}; {303, ft_int};
    {304, ft_int}; {305, ft_String}; {306, ft_String}; {307, ft_String};
    {308, ft_Exchange}; {309, ft_String}; {310, ft_String}; {311, ft_String};
    {312, ft_String}; {313, ft_MonthYear}; {315, ft_int}; {316, ft_Price}; {317, ft_char};
    {318, ft_Currency}; {320, ft_String}; {321, ft_int}; {322, ft_String}; {323, ft_int};
    {324, ft_String}; {325, ft_Boolean}; {326, ft_int}; {327, ft_char}; {328, ft_Boolean};
    {329, ft_Boolean}; {330, ft_Qty}; {331, ft_Qty}; {332, ft_Price}; {333, ft_Price};
    {334, ft_int} ].

Definition fix50_std_tags_3 : list FIX_Tag :=
  [ {335, ft_String}; {336, ft_String}; {337, ft_String}; {338, ft_int}; {339, ft_int};
    {340, ft_int}; {341, ft_UTCTimestamp}; {342, ft_UTCTimestamp}; {343, ft_UTCTimestamp};
    {344, ft_UTCTimestamp}; {345, ft_UTCTimestamp}; {346, ft_int}; {347, ft_String};
    {348, ft_Length}; {349, ft_data}; {350, ft_Length}; {351, ft_data}; {352, ft_Length};
    {353, ft_data}; {354, ft_Length}; {355, ft_data}; {356, ft_Length}; {357, ft_data};
    {358, ft_Length}; {359, ft_data}; {360, ft_Length}; {361, ft_data}; {362, ft_Length};
    {363, ft_data}; {364, ft_Length}; {365, ft_data}; {366, ft_Price};
    {367, ft_UTCTimestamp}; {368, ft_int}; {369, ft_SeqNum}; {371, ft_int};
    {372, ft_String}; {373, ft_int}; {374, ft_char}; {375, ft_String}; {376, ft_String};
    {377, ft_Boolean}; {378, ft_int}; {379, ft_String}; {380, ft_int}; {381, ft_Amt};
    {382, ft_NumInGroup}; {383, ft_Length}; {384, ft_NumInGroup}; {385, ft_char};
    {386, ft_NumInGroup}; {387, ft_Qty}; {388, ft_char}; {389, ft_float}; {390, ft_String};
    {391, ft_String}; {392, ft_String}; {393, ft_int}; {394, ft_int}; {395, ft_int};
    {396, ft_Amt}; {397, ft_Amt}; {398, ft_NumInGroup}; {399, ft_int}; {400, ft_String};
    {401, ft_int}; {402, ft_Percentage}; {403, ft_Percentage}; {404, ft_Amt};
    {405, ft_Percentage}; {406, ft_Amt}; {407, ft_Percentage}; {408, ft_Amt};
    {409, ft_int}; {410, ft_Percentage}; {411, ft_Boolean}; {412, ft_Amt};
    {413, ft_Percentage}; {414, ft_int}; {415, ft_int}; {416, ft_int}; {417, ft_int};
    {418, ft_char}; {419, ft_char}; {420, ft_NumInGroup}; {421, ft_Country}; {422, ft_int};
    {423, ft_int}; {424, ft_Qty}; {425, ft_Qty}; {426, ft_Price}; {427, ft_int};
    {428, ft_NumInGroup}; {429, ft_int}; {430, ft_int}; {431, ft_int};
    {432, ft_LocalMktDate}; {433, ft_char}; {434, ft_char}; {435, ft_Percentage};
    {436, ft_float}; {437, ft_Qty}; {438, ft_UTCTimestamp}; {441, ft_int}; {442, ft_char};
    {443, ft_UTCTimestamp}; {444, ft_String}; {445, ft_Length}; {446, ft_data};
    {447, ft_char}; {448, ft_String}; {451, ft_Price}; {452, ft_int}; {453, ft_NumInGroup};
    {454, ft_NumInGroup}; {455, ft_String}; {456, ft_String}; {457, ft_NumInGroup};
    {458, ft_String}; {459, ft_String}; {460, ft_int}; {461, ft_String}; {462, ft_int};
    {463, ft_String}; {464, ft_Boolean}; {466, ft_String}; {467, ft_String};
    {468, ft_char}; {469, ft_float}; {470, ft_Country}; {471, ft_String}; {472, ft_String};
    {473, ft_NumInGroup}; {474, ft_String}; {475, ft_Country}; {476, ft_String};
    {477, ft_int}; {478, ft_Currency}; {479, ft_Currency}; {480, ft_char}; {481, ft_char};
    {482, ft_String}; {483, ft_UTCTimestamp}; {484, ft_char}; {485, ft_float};
    {486, ft_LocalMktDate}; {487, ft_int}; {488, ft_String}; {489, ft_String};
    {490, ft_LocalMktDate} ].

Definition fix50_std_tags_4 : list FIX_Tag :=
  [ {491, ft_String}; {492, ft_int}; {493, ft_String}; {494, ft_String}; {495, ft_int};
    {496, ft_String}; {497, ft_char}; {498, ft_String}; {499, ft_String}; {500, ft_String};
    {501, ft_String}; {502, ft_String}; {503, ft_LocalMktDate}; {504, ft_LocalMktDate};
    {505, ft_String}; {506, ft_char}; {507, ft_int}; {508, ft_String}; {509, ft_String};
    {510, ft_NumInGroup}; {511, ft_String}; {512, ft_Percentage}; {513, ft_String};
    {514, ft_char}; {515, ft_UTCTimestamp}; {516, ft_Percentage}; {517, ft_char};
    {518, ft_NumInGroup}; {519, ft_int}; {520, ft_float}; {521, ft_Currency};
    {522, ft_int}; {523, ft_String}; {524, ft_String}; {525, ft_char}; {526, ft_String};
    {527, ft_String}; {528, ft_char}; {529, ft_MultipleCharValue}; {530, ft_char};
    {531, ft_char}; {532, ft_int}; {533, ft_int}; {534, ft_NumInGroup}; {535, ft_String};
    {536, ft_String}; {537, ft_int}; {538, ft_int}; {539, ft_NumInGroup}; {540, ft_Amt};
    {541, ft_LocalMktDate}; {542, ft_LocalMktDate}; {543, ft_String}; {544, ft_char};
    {545, ft_String}; {546, ft_MultipleCharValue}; {547, ft_Boolean}; {548, ft_String};
    {549, ft_int}; {550, ft_int}; {551, ft_String}; {552, ft_NumInGroup}; {553, ft_String};
    {554, ft_String}; {555, ft_NumInGroup}; {556, ft_Currency}; {557, ft_int};
    {558, ft_NumInGroup}; {559, ft_int}; {560, ft_int}; {561, ft_Qty}; {562, ft_Qty};
    {563, ft_int}; {564, ft_char}; {565, ft_int}; {566, ft_Price}; {567, ft_int};
    {568, ft_String}; {569, ft_int}; {570, ft_Boolean}; {571, ft_String}; {572, ft_String};
    {573, ft_char}; {574, ft_String}; {575, ft_Boolean}; {576, ft_NumInGroup};
    {577, ft_int}; {578, ft_String}; {579, ft_String}; {580, ft_NumInGroup}; {581, ft_int};
    {582, ft_int}; {583, ft_String}; {584, ft_String}; {585, ft_int};
    {586, ft_UTCTimestamp}; {587, ft_char}; {588, ft_LocalMktDate}; {589, ft_char};
    {590, ft_char}; {591, ft_char}; {592, ft_Country}; {593, ft_String}; {594, ft_String};
    {595, ft_String}; {596, ft_Country}; {597, ft_String}; {598, ft_String};
    {599, ft_String}; {600, ft_String}; {601, ft_String}; {602, ft_String};
    {603, ft_String}; {604, ft_NumInGroup}; {605, ft_String}; {606, ft_String};
    {607, ft_int}; {608, ft_String}; {609, ft_String}; {610, ft_MonthYear};
    {611, ft_LocalMktDate}; {612, ft_Price}; {613, ft_char}; {614, ft_float};
    {615, ft_Percentage}; {616, ft_Exchange}; {617, ft_String}; {618, ft_Length};
    {619, ft_data}; {620, ft_String}; {621, ft_Length}; {622, ft_data}; {623, ft_float};
    {624, ft_char}; {625, ft_String}; {626, ft_int}; {627, ft_NumInGroup};
    {628, ft_String}; {629, ft_UTCTimestamp}; {630, ft_SeqNum}; {631, ft_Price};
    {632, ft_Percentage}; {633, ft_Percentage}; {634, ft_Percentage}; {635, ft_String};
    {636, ft_Boolean}; {637, ft_Price}; {638, ft_int}; {639, ft_Price}; {640, ft_Price} ].

Definition fix50_std_tags_5 : list FIX_Tag :=
  [ {641, ft_Price}; {642, ft_Price}; {643, ft_Price}; {644, ft_String}; {645, ft_Price};
    {646, ft_Price}; {647, ft_Qty}; {648, ft_Qty}; {649, ft_String}; {650, ft_Boolean};
    {651, ft_Price}; {652, ft_Qty}; {654, ft_String}; {655, ft_String}; {656, ft_float};
    {657, ft_float}; {658, ft_int}; {659, ft_String}; {660, ft_int}; {661, ft_int};
    {662, ft_Price}; {663, ft_int}; {664, ft_String}; {665, ft_int}; {666, ft_int};
    {667, ft_MonthYear}; {668, ft_int}; {669, ft_Price}; {670, ft_NumInGroup};
    {671, ft_String}; {672, ft_String}; {673, ft_Qty}; {674, ft_String};
    {675, ft_Currency}; {676, ft_Currency}; {677, ft_String}; {678, ft_String};
    {679, ft_Price}; {680, ft_int}; {681, ft_Price}; {682, ft_String};
    {683, ft_NumInGroup}; {684, ft_Price}; {685, ft_Qty}; {686, ft_int}; {687, ft_Qty};
    {688, ft_String}; {689, ft_String}; {690, ft_int}; {691, ft_String}; {692, ft_int};
    {693, ft_String}; {694, ft_int}; {695, ft_char}; {696, ft_LocalMktDate};
    {697, ft_Price}; {698, ft_int}; {699, ft_String}; {700, ft_Boolean};
    {701, ft_LocalMktDate}; {702, ft_NumInGroup}; {703, ft_String}; {704, ft_Qty};
    {705, ft_Qty}; {706, ft_int}; {707, ft_String}; {708, ft_Amt}; {709, ft_int};
    {710, ft_String}; {711, ft_NumInGroup}; {712, ft_int}; {713, ft_String};
    {714, ft_String}; {715, ft_LocalMktDate}; {716, ft_String}; {717, ft_String};
    {718, ft_int}; {719, ft_Boolean}; {720, ft_Boolean}; {721, ft_String}; {722, ft_int};
    {723, ft_int}; {724, ft_int}; {725, ft_int}; {726, ft_String}; {727, ft_int};
    {728, ft_int}; {729, ft_int}; {730, ft_Price}; {731, ft_int}; {732, ft_Price};
    {733, ft_int}; {734, ft_Price}; {735, ft_NumInGroup}; {736, ft_Currency};
    {737, ft_Amt}; {738, ft_Amt}; {739, ft_LocalMktDate}; {740, ft_String}; {741, ft_Amt};
    {742, ft_Amt}; {743, ft_LocalMktDate}; {744, ft_char}; {745, ft_Qty}; {746, ft_Amt};
    {747, ft_char}; {748, ft_int}; {749, ft_int}; {750, ft_int}; {751, ft_int};
    {752, ft_int}; {753, ft_NumInGroup}; {754, ft_Boolean}; {755, ft_String};
    {756, ft_NumInGroup}; {757, ft_String}; {758, ft_char}; {759, ft_int};
    {760, ft_String}; {761, ft_String}; {762, ft_String}; {763, ft_String};
    {764, ft_String}; {765, ft_Percentage}; {766, ft_Amt}; {767, ft_Currency};
    {768, ft_NumInGroup}; {769, ft_UTCTimestamp}; {770, ft_int}; {771, ft_String};
    {772, ft_String}; {773, ft_int}; {774, ft_int}; {775, ft_int}; {776, ft_int};
    {777, ft_String}; {778, ft_NumInGroup}; {779, ft_UTCTimestamp}; {780, ft_int};
    {781, ft_NumInGroup}; {782, ft_String}; {783, ft_char}; {784, ft_int};
    {785, ft_String}; {786, ft_int}; {787, ft_char}; {788, ft_int}; {789, ft_SeqNum};
    {790, ft_String}; {791, ft_String} ].

Definition fix50_std_tags_6 : list FIX_Tag :=
  [ {792, ft_int}; {793, ft_String}; {794, ft_int}; {795, ft_String}; {796, ft_int};
    {797, ft_Boolean}; {798, ft_int}; {799, ft_Price}; {800, ft_Qty}; {801, ft_NumInGroup};
    {802, ft_NumInGroup}; {803, ft_int}; {804, ft_NumInGroup}; {805, ft_int};
    {806, ft_NumInGroup}; {807, ft_int}; {808, ft_int}; {810, ft_Price}; {811, ft_float};
    {812, ft_int}; {813, ft_int}; {814, ft_int}; {815, ft_int}; {816, ft_NumInGroup};
    {817, ft_String}; {818, ft_String}; {819, ft_int}; {820, ft_String}; {821, ft_String};
    {822, ft_String}; {823, ft_String}; {824, ft_String}; {825, ft_String}; {826, ft_int};
    {827, ft_int}; {828, ft_int}; {829, ft_int}; {830, ft_String}; {832, ft_int};
    {833, ft_String}; {834, ft_Price}; {835, ft_int}; {836, ft_int}; {837, ft_int};
    {838, ft_int}; {839, ft_Price}; {840, ft_int}; {841, ft_int}; {842, ft_int};
    {843, ft_int}; {844, ft_int}; {845, ft_Price}; {846, ft_int}; {847, ft_int};
    {848, ft_String}; {849, ft_Percentage}; {850, ft_float}; {851, ft_int};
    {852, ft_Boolean}; {853, ft_int}; {854, ft_int}; {855, ft_int}; {856, ft_int};
    {857, ft_int}; {858, ft_Amt}; {859, ft_String}; {860, ft_Price}; {861, ft_Price};
    {862, ft_NumInGroup}; {863, ft_Qty}; {864, ft_NumInGroup}; {865, ft_int};
    {866, ft_LocalMktDate}; {867, ft_Price}; {868, ft_String}; {869, ft_Percentage};
    {870, ft_NumInGroup}; {871, ft_int}; {872, ft_String}; {873, ft_LocalMktDate};
    {874, ft_LocalMktDate}; {875, ft_int}; {876, ft_String}; {877, ft_String};
    {878, ft_String}; {879, ft_Qty}; {880, ft_String}; {881, ft_String}; {882, ft_Price};
    {883, ft_Price}; {884, ft_Amt}; {885, ft_Amt}; {886, ft_Amt}; {887, ft_NumInGroup};
    {888, ft_String}; {889, ft_String}; {890, ft_Amt}; {891, ft_int}; {892, ft_int};
    {893, ft_Boolean}; {894, ft_String}; {895, ft_int}; {896, ft_int};
    {897, ft_NumInGroup}; {898, ft_Percentage}; {899, ft_Amt}; {900, ft_Amt};
    {901, ft_Amt}; {902, ft_String}; {903, ft_int}; {904, ft_String}; {905, ft_int};
    {906, ft_int}; {907, ft_String}; {908, ft_String}; {909, ft_String}; {910, ft_int};
    {911, ft_int}; {912, ft_Boolean}; {913, ft_String}; {914, ft_String};
    {915, ft_LocalMktDate}; {916, ft_LocalMktDate}; {917, ft_LocalMktDate};
    {918, ft_Currency}; {919, ft_int}; {920, ft_Amt}; {921, ft_Amt}; {922, ft_Amt};
    {923, ft_String}; {924, ft_int}; {925, ft_String}; {926, ft_int}; {927, ft_String};
    {928, ft_int}; {929, ft_String}; {930, ft_String}; {931, ft_String}; {932, ft_String};
    {933, ft_String}; {934, ft_String}; {935, ft_int}; {936, ft_NumInGroup}; {937, ft_int};
    {938, ft_NumInGroup}; {939, ft_int}; {940, ft_int}; {941, ft_Currency};
    {942, ft_Currency}; {943, ft_String} ].

Definition fix50_std_tags_7 : list FIX_Tag :=
  [ {944, ft_int}; {945, ft_int}; {946, ft_int}; {947, ft_Currency}; {948, ft_NumInGroup};
    {949, ft_String}; {950, ft_char}; {951, ft_int}; {952, ft_NumInGroup};
    {953, ft_String}; {954, ft_int}; {955, ft_MonthYear}; {956, ft_LocalMktDate};
    {957, ft_NumInGroup}; {958, ft_String}; {959, ft_int}; {960, ft_String};
    {961, ft_String}; {962, ft_UTCTimestamp}; {963, ft_int}; {964, ft_int};
    {965, ft_String}; {966, ft_String}; {967, ft_float}; {968, ft_float}; {969, ft_float};
    {970, ft_int}; {971, ft_int}; {972, ft_Percentage}; {973, ft_Amt}; {974, ft_String};
    {975, ft_int}; {976, ft_LocalMktDate}; {977, ft_String}; {978, ft_Boolean};
    {979, ft_String}; {980, ft_char}; {981, ft_NumInGroup}; {982, ft_int}; {983, ft_Qty};
    {984, ft_NumInGroup}; {985, ft_Amt}; {986, ft_Amt}; {987, ft_LocalMktDate};
    {988, ft_String}; {989, ft_String}; {990, ft_String}; {991, ft_Price}; {992, ft_int};
    {993, ft_String}; {994, ft_String}; {996, ft_String}; {997, ft_String};
    {998, ft_String}; {999, ft_String}; {1000, ft_String}; {1001, ft_String};
    {1002, ft_int}; {1003, ft_String}; {1005, ft_String}; {1006, ft_String};
    {1007, ft_String}; {1008, ft_int}; {1009, ft_int}; {1011, ft_String};
    {1012, ft_UTCTimestamp}; {1013, ft_int}; {1014, ft_String}; {1015, ft_char};
    {1016, ft_NumInGroup}; {1017, ft_float}; {1018, ft_NumInGroup}; {1019, ft_String};
    {1020, ft_Qty}; {1021, ft_int}; {1022, ft_String}; {1023, ft_int}; {1024, ft_int};
    {1025, ft_Price}; {1026, ft_float}; {1027, ft_Price}; {1028, ft_Boolean};
    {1029, ft_Boolean}; {1030, ft_String}; {1031, ft_MultipleStringValue}; {1032, ft_int};
    {1033, ft_String}; {1034, ft_int}; {1035, ft_MultipleStringValue}; {1036, ft_char};
    {1037, ft_Amt}; {1038, ft_Amt}; {1039, ft_String}; {1040, ft_String};
    {1041, ft_String}; {1042, ft_String}; {1043, ft_int}; {1044, ft_Qty}; {1045, ft_float};
    {1046, ft_char}; {1047, ft_char}; {1048, ft_Price}; {1049, ft_char}; {1050, ft_char};
    {1051, ft_int}; {1052, ft_NumInGroup}; {1053, ft_String}; {1054, ft_int};
    {1055, ft_String}; {1056, ft_Qty}; {1057, ft_Boolean}; {1058, ft_NumInGroup};
    {1059, ft_String}; {1060, ft_char}; {1061, ft_int}; {1062, ft_NumInGroup};
    {1063, ft_String}; {1064, ft_int}; {1065, ft_Price}; {1066, ft_Price};
    {1067, ft_Price}; {1068, ft_Price}; {1069, ft_Price}; {1070, ft_int}; {1071, ft_Price};
    {1072, ft_Amt}; {1073, ft_Price}; {1074, ft_Qty}; {1075, ft_Amt};
    {1079, ft_TZTimeOnly}; {1080, ft_String}; {1081, ft_char}; {1082, ft_Qty};
    {1083, ft_char}; {1084, ft_char}; {1085, ft_Qty}; {1086, ft_Qty}; {1087, ft_Qty};
    {1088, ft_Qty}; {1089, ft_Qty}; {1090, ft_int}; {1091, ft_Boolean}; {1092, ft_char};
    {1093, ft_char}; {1094, ft_int}; {1095, ft_Price}; {1096, ft_String};
    {1097, ft_String}; {1098, ft_String}; {1099, ft_String} ].

Definition fix50_std_tags_8 : list FIX_Tag :=
  [ {1100, ft_char}; {1101, ft_char}; {1102, ft_Price}; {1103, ft_String};
    {1104, ft_String}; {1105, ft_String}; {1106, ft_String}; {1107, ft_char};
    {1108, ft_char}; {1109, ft_char}; {1110, ft_Price}; {1111, ft_char}; {1112, ft_Qty};
    {1113, ft_String}; {1114, ft_String}; {1115, ft_char}; {1116, ft_NumInGroup};
    {1117, ft_String}; {1118, ft_char}; {1119, ft_int}; {1120, ft_NumInGroup};
    {1121, ft_String}; {1122, ft_int}; {1123, ft_char}; {1124, ft_char};
    {1125, ft_LocalMktDate}; {1126, ft_String}; {1127, ft_String}; {1128, ft_String};
    {1129, ft_String}; {1130, ft_String}; {1131, ft_String}; {1132, ft_TZTimestamp};
    {1133, ft_char}; {1134, ft_Boolean}; {1135, ft_String}; {1136, ft_String};
    {1137, ft_String}; {1138, ft_Qty}; {1139, ft_String}; {0, ft_int} ].

Definition fix50_std_tags : list FIX_Tag :=
  fix50_std_tags_1 ++ fix50_std_tags_2 ++ fix50_std_tags_3 ++ fix50_std_tags_4 ++
  fix50_std_tags_5 ++ fix50_std_tags_6 ++ fix50_std_tags_7 ++ fix50_std_tags_8.

Definition fix50_std_data_tags : list FIX_Tag :=
  [ {89, ft_data}; {91, ft_data}; {96, ft_data}; {213, ft_data}; {349, ft_data};
    {351, ft_data}; {353, ft_data}; {355, ft_data}; {357, ft_data}; {359, ft_data};
    {361, ft_data}; {363, ft_data}; {365, ft_data}; {446, ft_data}; {619, ft_data};
    {622, ft_data}; {0, ft_int} ].

(** ** [FIX50SP1.cpp] *)

Definition fix50sp1_std_tags_1 : list FIX_Tag :=
  [ {1, ft_String}; {2, ft_String}; {3, ft_String}; {4, ft_char}; {5, ft_String};
    {6, ft_Price}; {7, ft_SeqNum}; {8, ft_String}; {9, ft_Length}; {10, ft_String};
    {11, ft_String}; {12, ft_Amt}; {13, ft_char}; {14, ft_Qty}; {15, ft_Currency};
    {16, ft_SeqNum}; {17, ft_String}; {18, ft_MultipleCharValue}; {19, ft_String};
    {21, ft_char}; {22, ft_String}; {23, ft_String}; {25, ft_char}; {26, ft_String};
    {27, ft_String}; {28, ft_char}; {29, ft_char}; {30, ft_Exchange}; {31, ft_Price};
    {32, ft_Qty}; {33, ft_NumInGroup}; {34, ft_SeqNum}; {35, ft_String}; {36, ft_SeqNum};
    {37, ft_String}; {38, ft_Qty}; {39, ft_char}; {40, ft_char}; {41, ft_String};
    {42, ft_UTCTimestamp}; {43, ft_Boolean}; {44, ft_Price}; {45, ft_SeqNum};
    {48, ft_String}; {49, ft_String}; {50, ft_String}; {52, ft_UTCTimestamp}; {53, ft_Qty};
    {54, ft_char}; {55, ft_String}; {56, ft_String}; {57, ft_String}; {58, ft_String};
    {59, ft_char}; {60, ft_UTCTimestamp}; {61, ft_char}; {62, ft_UTCTimestamp};
    {63, ft_String}; {64, ft_LocalMktDate}; {65, ft_String}; {66, ft_String}; {67, ft_int};
    {68, ft_int}; {69, ft_String}; {70, ft_String}; {71, ft_char}; {72, ft_String};
    {73, ft_NumInGroup}; {74, ft_int}; {75, ft_LocalMktDate}; {77, ft_char};
    {78, ft_NumInGroup}; {79, ft_String}; {80, ft_Qty}; {81, ft_char}; {82, ft_int};
    {83, ft_int}; {84, ft_Qty}; {85, ft_NumInGroup}; {87, ft_int}; {88, ft_int};
    {89, ft_data}; {90, ft_Length}; {91, ft_data}; {93, ft_Length}; {94, ft_char};
    {95, ft_Length}; {96, ft_data}; {97, ft_Boolean}; {98, ft_int}; {99, ft_Price};
    {100, ft_Exchange}; {102, ft_int}; {103, ft_int}; {104, ft_char}; {106, ft_String};
    {107, ft_String}; {108, ft_int}; {110, ft_Qty}; {111, ft_Qty}; {112, ft_String};
    {113, ft_Boolean}; {114, ft_Boolean}; {115, ft_String}; {116, ft_String};
    {117, ft_String}; {118, ft_Amt}; {119, ft_Amt}; {120, ft_Currency}; {121, ft_Boolean};
    {122, ft_UTCTimestamp}; {123, ft_Boolean}; {124, ft_NumInGroup};
    {126, ft_UTCTimestamp}; {127, ft_char}; {128, ft_String}; {129, ft_String};
    {130, ft_Boolean}; {131, ft_String}; {132, ft_Price}; {133, ft_Price}; {134, ft_Qty};
    {135, ft_Qty}; {136, ft_NumInGroup}; {137, ft_Amt}; {138, ft_Currency};
    {139, ft_String}; {140, ft_Price}; {141, ft_Boolean}; {142, ft_String};
    {143, ft_String}; {144, ft_String}; {145, ft_String}; {146, ft_NumInGroup};
    {147, ft_String}; {148, ft_String}; {149, ft_String}; {150, ft_char}; {151, ft_Qty};
    {152, ft_Qty}; {153, ft_Price}; {154, ft_Amt}; {155, ft_float}; {156, ft_char};
    {157, ft_int}; {158, ft_Percentage}; {159, ft_Amt}; {160, ft_char}; {161, ft_String};
    {162, ft_String} ].

Definition fix50sp1_std_tags_2 : list FIX_Tag :=
  [ {163, ft_char}; {164, ft_String}; {165, ft_char}; {167, ft_String};
    {168, ft_UTCTimestamp}; {169, ft_int}; {170, ft_String}; {171, ft_String};
    {172, ft_int}; {188, ft_Price}; {189, ft_Price}; {190, ft_Price}; {191, ft_Price};
    {192, ft_Qty}; {193, ft_LocalMktDate}; {194, ft_Price}; {195, ft_Price};
    {196, ft_String}; {197, ft_int}; {198, ft_String}; {199, ft_NumInGroup};
    {200, ft_MonthYear}; {201, ft_int}; {202, ft_Price}; {203, ft_int}; {206, ft_char};
    {207, ft_Exchange}; {208, ft_Boolean}; {209, ft_int}; {210, ft_Qty}; {211, ft_float};
    {212, ft_Length}; {213, ft_data}; {214, ft_String}; {215, ft_NumInGroup};
    {216, ft_int}; {217, ft_String}; {218, ft_Price}; {220, ft_Currency}; {221, ft_String};
    {222, ft_String}; {223, ft_Percentage}; {224, ft_LocalMktDate}; {225, ft_LocalMktDate};
    {226, ft_int}; {227, ft_Percentage}; {228, ft_float}; {229, ft_LocalMktDate};
    {230, ft_LocalMktDate}; {231, ft_float}; {232, ft_NumInGroup}; {233, ft_String};
    {234, ft_String}; {235, ft_String}; {236, ft_Percentage}; {237, ft_Amt}; {238, ft_Amt};
    {239, ft_String}; {240, ft_LocalMktDate}; {241, ft_LocalMktDate};
    {242, ft_LocalMktDate}; {243, ft_String}; {244, ft_int}; {245, ft_Percentage};
    {246, ft_float}; {247, ft_LocalMktDate}; {248, ft_LocalMktDate};
    {249, ft_LocalMktDate}; {250, ft_String}; {251, ft_int}; {252, ft_Percentage};
    {253, ft_float}; {254, ft_LocalMktDate}; {255, ft_String}; {256, ft_String};
    {257, ft_String}; {258, ft_Boolean}; {259, ft_LocalMktDate}; {260, ft_Price};
    {262, ft_String}; {263, ft_char}; {264, ft_int}; {265, ft_int}; {266, ft_Boolean};
    {267, ft_NumInGroup}; {268, ft_NumInGroup}; {269, ft_char}; {270, ft_Price};
    {271, ft_Qty}; {272, ft_UTCDateOnly}; {273, ft_UTCTimeOnly}; {274, ft_char};
    {275, ft_Exchange}; {276, ft_MultipleStringValue}; {277, ft_MultipleStringValue};
    {278, ft_String}; {279, ft_char}; {280, ft_String}; {281, ft_char}; {282, ft_String};
    {283, ft_String}; {284, ft_String}; {285, ft_char}; {286, ft_MultipleCharValue};
    {287, ft_int}; {288, ft_String}; {289, ft_String}; {290, ft_int};
    {291, ft_MultipleCharValue}; {292, ft_MultipleCharValue}; {293, ft_Qty}; {294, ft_Qty};
    {295, ft_NumInGroup}; {296, ft_NumInGroup}; {297, ft_int}; {298, ft_int};
    {299, ft_String}; {300, ft_int}; {301, ft_int}; {302, ft_String}; {303, ft_int};
    {304, ft_int}; {305, ft_String}; {306, ft_String}; {307, ft_String};
    {308, ft_Exchange}; {309, ft_String}; {310, ft_String}; {311, ft_String};
    {312, ft_String}; {313, ft_MonthYear}; {315, ft_int}; {316, ft_Price}; {317, ft_char};
    {318, ft_Currency}; {320, ft_String}; {321, ft_int}; {322, ft_String}; {323, ft_int};
    {324, ft_String}; {325, ft_Boolean}; {326, ft_int}; {327, ft_char}; {328, ft_Boolean};
    {329, ft_Boolean}; {330, ft_Qty}; {331, ft_Qty}; {332, ft_Price}; {333, ft_Price};
    {334, ft_int} ].

Definition fix50sp1_std_tags_3 : list FIX_Tag :=
  [ {335, ft_String}; {336, ft_String}; {337, ft_String}; {338, ft_int}; {339, ft_int};
    {340, ft_int}; {341, ft_UTCTimestamp}; {342, ft_UTCTimestamp}; {343, ft_UTCTimestamp};
    {344, ft_UTCTimestamp}; {345, ft_UTCTimestamp}; {346, ft_int}; {347, ft_String};
    {348, ft_Length}; {349, ft_data}; {350, ft_Length}; {351, ft_data}; {352, ft_Length};
    {353, ft_data}; {354, ft_Length}; {355, ft_data}; {356, ft_Length}; {357, ft_data};
    {358, ft_Length}; {359, ft_data}; {360, ft_Length}; {361, ft_data}; {362, ft_Length};
    {363, ft_data}; {364, ft_Length}; {365, ft_data}; {366, ft_Price};
    {367, ft_UTCTimestamp}; {368, ft_int}; {369, ft_SeqNum}; {371, ft_int};
    {372, ft_String}; {373, ft_int}; {374, ft_char}; {375, ft_String}; {376, ft_String};
    {377, ft_Boolean}; {378, ft_int}; {379, ft_String}; {380, ft_int}; {381, ft_Amt};
    {382, ft_NumInGroup}; {383, ft_Length}; {384, ft_NumInGroup}; {385, ft_char};
    {386, ft_NumInGroup}; {387, ft_Qty}; {388, ft_char}; {389, ft_float}; {390, ft_String};
    {391, ft_String}; {392, ft_String}; {393, ft_int}; {394, ft_int}; {395, ft_int};
    {396, ft_Amt}; {397, ft_Amt}; {398, ft_NumInGroup}; {399, ft_int}; {400, ft_String};
    {401, ft_int}; {402, ft_Percentage}; {403, ft_Percentage}; {404, ft_Amt};
    {405, ft_Percentage}; {406, ft_Amt}; {407, ft_Percentage}; {408, ft_Amt};
    {409, ft_int}; {410, ft_Percentage}; {411, ft_Boolean}; {412, ft_Amt};
    {413, ft_Percentage}; {414, ft_int}; {415, ft_int}; {416, ft_int}; {417, ft_int};
    {418, ft_char}; {419, ft_char}; {420, ft_NumInGroup}; {421, ft_Country}; {422, ft_int};
    {423, ft_int}; {424, ft_Qty}; {425, ft_Qty}; {426, ft_Price}; {427, ft_int};
    {428, ft_NumInGroup}; {429, ft_int}; {430, ft_int}; {431, ft_int};
    {432, ft_LocalMktDate}; {433, ft_char}; {434, ft_char}; {435, ft_Percentage};
    {436, ft_float}; {437, ft_Qty}; {438, ft_UTCTimestamp}; {441, ft_int}; {442, ft_char};
    {443, ft_UTCTimestamp}; {444, ft_String}; {445, ft_Length}; {446, ft_data};
    {447, ft_char}; {448, ft_String}; {451, ft_Price}; {452, ft_int}; {453, ft_NumInGroup};
    {454, ft_NumInGroup}; {455, ft_String}; {456, ft_String}; {457, ft_NumInGroup};
    {458, ft_String}; {459, ft_String}; {460, ft_int}; {461, ft_String}; {462, ft_int};
    {463, ft_String}; {464, ft_Boolean}; {466, ft_String}; {467, ft_String};
    {468, ft_char}; {469, ft_float}; {470, ft_Country}; {471, ft_String}; {472, ft_String};
    {473, ft_NumInGroup}; {474, ft_String}; {475, ft_Country}; {476, ft_String};
    {477, ft_int}; {478, ft_Currency}; {479, ft_Currency}; {480, ft_char}; {481, ft_char};
    {482, ft_String}; {483, ft_UTCTimestamp}; {484, ft_char}; {485, ft_float};
    {486, ft_LocalMktDate}; {487, ft_int}; {488, ft_String}; {489, ft_String};
    {490, ft_LocalMktDate} ].

Definition fix50sp1_std_tags_4 : list FIX_Tag :=
  [ {491, ft_String}; {492, ft_int}; {493, ft_String}; {494, ft_String}; {495, ft_int};
    {496, ft_String}; {497, ft_char}; {498, ft_String}; {499, ft_String}; {500, ft_String};
    {501, ft_String}; {502, ft_String}; {503, ft_LocalMktDate}; {504, ft_LocalMktDate};
    {505, ft_String}; {506, ft_char}; {507, ft_int}; {508, ft_String}; {509, ft_String};
    {510, ft_NumInGroup}; {511, ft_String}; {512, ft_Percentage}; {513, ft_String};
    {514, ft_char}; {515, ft_UTCTimestamp}; {516, ft_Percentage}; {517, ft_char};
    {518, ft_NumInGroup}; {519, ft_int}; {520, ft_float}; {521, ft_Currency};
    {522, ft_int}; {523, ft_String}; {524, ft_String}; {525, ft_char}; {526, ft_String};
    {527, ft_String}; {528, ft_char}; {529, ft_MultipleCharValue}; {530, ft_char};
    {531, ft_char}; {532, ft_int}; {533, ft_int}; {534, ft_NumInGroup}; {535, ft_String};
    {536, ft_String}; {537, ft_int}; {538, ft_int}; {539, ft_NumInGroup}; {540, ft_Amt};
    {541, ft_LocalMktDate}; {542, ft_LocalMktDate}; {543, ft_String}; {544, ft_char};
    {545, ft_String}; {546, ft_MultipleCharValue}; {547, ft_Boolean}; {548, ft_String};
    {549, ft_int}; {550, ft_int}; {551, ft_String}; {552, ft_NumInGroup}; {553, ft_String};
    {554, ft_String}; {555, ft_NumInGroup}; {556, ft_Currency}; {557, ft_int};
    {558, ft_NumInGroup}; {559, ft_int}; {560, ft_int}; {561, ft_Qty}; {562, ft_Qty};
    {563, ft_int}; {564, ft_char}; {565, ft_int}; {566, ft_Price}; {567, ft_int};
    {568, ft_String}; {569, ft_int}; {570, ft_Boolean}; {571, ft_String}; {572, ft_String};
    {573, ft_char}; {574, ft_String}; {575, ft_Boolean}; {576, ft_NumInGroup};
    {577, ft_int}; {578, ft_String}; {579, ft_String}; {580, ft_NumInGroup}; {581, ft_int};
    {582, ft_int}; {583, ft_String}; {584, ft_String}; {585, ft_int};
    {586, ft_UTCTimestamp}; {587, ft_char}; {588, ft_LocalMktDate}; {589, ft_char};
    {590, ft_char}; {591, ft_char}; {592, ft_Country}; {593, ft_String}; {594, ft_String};
    {595, ft_String}; {596, ft_Country}; {597, ft_String}; {598, ft_String};
    {599, ft_String}; {600, ft_String}; {601, ft_String}; {602, ft_String};
    {603, ft_String}; {604, ft_NumInGroup}; {605, ft_String}; {606, ft_String};
    {607, ft_int}; {608, ft_String}; {609, ft_String}; {610, ft_MonthYear};
    {611, ft_LocalMktDate}; {612, ft_Price}; {613, ft_char}; {614, ft_float};
    {615, ft_Percentage}; {616, ft_Exchange}; {617, ft_String}; {618, ft_Length};
    {619, ft_data}; {620, ft_String}; {621, ft_Length}; {622, ft_data}; {623, ft_float};
    {624, ft_char}; {625, ft_String}; {626, ft_int}; {627, ft_NumInGroup};
    {628, ft_String}; {629, ft_UTCTimestamp}; {630, ft_SeqNum}; {631, ft_Price};
    {632, ft_Percentage}; {633, ft_Percentage}; {634, ft_Percentage}; {635, ft_String};
    {636, ft_Boolean}; {637, ft_Price}; {638, ft_int}; {639, ft_Price}; {640, ft_Price} ].

Definition fix50sp1_std_tags_5 : list FIX_Tag :=
  [ {641, ft_Price}; {642, ft_Price}; {643, ft_Price}; {644, ft_String}; {645, ft_Price};
    {646, ft_Price}; {647, ft_Qty}; {648, ft_Qty}; {649, ft_String}; {650, ft_Boolean};
    {651, ft_Price}; {652, ft_Qty}; {654, ft_String}; {655, ft_String}; {656, ft_float};
    {657, ft_float}; {658, ft_int}; {659, ft_String}; {660, ft_int}; {661, ft_int};
    {662, ft_Price}; {663, ft_int}; {664, ft_String}; {665, ft_int}; {666, ft_int};
    {667, ft_MonthYear}; {668, ft_int}; {669, ft_Price}; {670, ft_NumInGroup};
    {671, ft_String}; {672, ft_String}; {673, ft_Qty}; {674, ft_String};
    {675, ft_Currency}; {676, ft_Currency}; {677, ft_String}; {678, ft_String};
    {679, ft_Price}; {680, ft_int}; {681, ft_Price}; {682, ft_String};
    {683, ft_NumInGroup}; {684, ft_Price}; {685, ft_Qty}; {686, ft_int}; {687, ft_Qty};
    {688, ft_String}; {689, ft_String}; {690, ft_int}; {691, ft_String}; {692, ft_int};
    {693, ft_String}; {694, ft_int}; {695, ft_char}; {696, ft_LocalMktDate};
    {697, ft_Price}; {698, ft_int}; {699, ft_String}; {700, ft_Boolean};
    {701, ft_LocalMktDate}; {702, ft_NumInGroup}; {703, ft_String}; {704, ft_Qty};
    {705, ft_Qty}; {706, ft_int}; {707, ft_String}; {708, ft_Amt}; {709, ft_int};
    {710, ft_String}; {711, ft_NumInGroup}; {712, ft_int}; {713, ft_String};
    {714, ft_String}; {715, ft_LocalMktDate}; {716, ft_String}; {717, ft_String};
    {718, ft_int}; {719, ft_Boolean}; {720, ft_Boolean}; {721, ft_String}; {722, ft_int};
    {723, ft_int}; {724, ft_int}; {725, ft_int}; {726, ft_String}; {727, ft_int};
    {728, ft_int}; {729, ft_int}; {730, ft_Price}; {731, ft_int}; {732, ft_Price};
    {733, ft_int}; {734, ft_Price}; {735, ft_NumInGroup}; {736, ft_Currency};
    {737, ft_Amt}; {738, ft_Amt}; {739, ft_LocalMktDate}; {740, ft_String}; {741, ft_Amt};
    {742, ft_Amt}; {743, ft_LocalMktDate}; {744, ft_char}; {745, ft_Qty}; {746, ft_Amt};
    {747, ft_char}; {748, ft_int}; {749, ft_int}; {750, ft_int}; {751, ft_int};
    {752, ft_int}; {753, ft_NumInGroup}; {754, ft_Boolean}; {755, ft_String};
    {756, ft_NumInGroup}; {757, ft_String}; {758, ft_char}; {759, ft_int};
    {760, ft_String}; {761, ft_String}; {762, ft_String}; {763, ft_String};
    {764, ft_String}; {765, ft_Percentage}; {766, ft_Amt}; {767, ft_Currency};
    {768, ft_NumInGroup}; {769, ft_UTCTimestamp}; {770, ft_int}; {771, ft_String};
    {772, ft_String}; {773, ft_int}; {774, ft_int}; {775, ft_int}; {776, ft_int};
    {777, ft_String}; {778, ft_NumInGroup}; {779, ft_UTCTimestamp}; {780, ft_int};
    {781, ft_NumInGroup}; {782, ft_String}; {783, ft_char}; {784, ft_int};
    {785, ft_String}; {786, ft_int}; {787, ft_char}; {788, ft_int}; {789, ft_SeqNum};
    {790, ft_String}; {791, ft_String} ].

Definition fix50sp1_std_tags_6 : list FIX_Tag :=
  [ {792, ft_int}; {793, ft_String}; {794, ft_int}; {795, ft_String}; {796, ft_int};
    {797, ft_Boolean}; {798, ft_int}; {799, ft_Price}; {800, ft_Qty}; {801, ft_NumInGroup};
    {802, ft_NumInGroup}; {803, ft_int}; {804, ft_NumInGroup}; {805, ft_int};
    {806, ft_NumInGroup}; {807, ft_int}; {808, ft_int}; {810, ft_Price}; {811, ft_float};
    {812, ft_int}; {813, ft_int}; {814, ft_int}; {815, ft_int}; {816, ft_NumInGroup};
    {817, ft_String}; {818, ft_String}; {819, ft_int}; {820, ft_String}; {821, ft_String};
    {822, ft_String}; {823, ft_String}; {824, ft_String}; {825, ft_String}; {826, ft_int};
    {827, ft_int}; {828, ft_int}; {829, ft_int}; {830, ft_String}; {832, ft_int};
    {833, ft_String}; {834, ft_Price}; {835, ft_int}; {836, ft_int}; {837, ft_int};
    {838, ft_int}; {839, ft_Price}; {840, ft_int}; {841, ft_int}; {842, ft_int};
    {843, ft_int}; {844, ft_int}; {845, ft_Price}; {846, ft_int}; {847, ft_int};
    {848, ft_String}; {849, ft_Percentage}; {850, ft_float}; {851, ft_int};
    {852, ft_Boolean}; {853, ft_int}; {854, ft_int}; {855, ft_int}; {856, ft_int};
    {857, ft_int}; {858, ft_Amt}; {859, ft_String}; {860, ft_Price}; {861, ft_Price};
    {862, ft_NumInGroup}; {863, ft_Qty}; {864, ft_NumInGroup}; {865, ft_int};
    {866, ft_LocalMktDate}; {867, ft_Price}; {868, ft_String}; {869, ft_Percentage};
    {870, ft_NumInGroup}; {871, ft_int}; {872, ft_String}; {873, ft_LocalMktDate};
    {874, ft_LocalMktDate}; {875, ft_int}; {876, ft_String}; {877, ft_String};
    {878, ft_String}; {879, ft_Qty}; {880, ft_String}; {881, ft_String}; {882, ft_Price};
    {883, ft_Price}; {884, ft_Amt}; {885, ft_Amt}; {886, ft_Amt}; {887, ft_NumInGroup};
    {888, ft_String}; {889, ft_String}; {890, ft_Amt}; {891, ft_int}; {892, ft_int};
    {893, ft_Boolean}; {894, ft_String}; {895, ft_int}; {896, ft_int};
    {897, ft_NumInGroup}; {898, ft_Percentage}; {899, ft_Amt}; {900, ft_Amt};
    {901, ft_Amt}; {902, ft_String}; {903, ft_int}; {904, ft_String}; {905, ft_int};
    {906, ft_int}; {907, ft_String}; {908, ft_String}; {909, ft_String}; {910, ft_int};
    {911, ft_int}; {912, ft_Boolean}; {913, ft_String}; {914, ft_String};
    {915, ft_LocalMktDate}; {916, ft_LocalMktDate}; {917, ft_LocalMktDate};
    {918, ft_Currency}; {919, ft_int}; {920, ft_Amt}; {921, ft_Amt}; {922, ft_Amt};
    {923, ft_String}; {924, ft_int}; {925, ft_String}; {926, ft_int}; {927, ft_String};
    {928, ft_int}; {929, ft_String}; {930, ft_String}; {931, ft_String}; {932, ft_String};
    {933, ft_String}; {934, ft_String}; {935, ft_int}; {936, ft_NumInGroup}; {937, ft_int};
    {938, ft_NumInGroup}; {939, ft_int}; {940, ft_int}; {941, ft_Currency};
    {942, ft_Currency}; {943, ft_String} ].

Definition fix50sp1_std_tags_7 : list FIX_Tag :=
  [ {944, ft_int}; {945, ft_int}; {946, ft_int}; {947, ft_Currency}; {948, ft_NumInGroup};
    {949, ft_String}; {950, ft_char}; {951, ft_int}; {952, ft_NumInGroup};
    {953, ft_String}; {954, ft_int}; {955, ft_MonthYear}; {956, ft_LocalMktDate};
    {957, ft_NumInGroup}; {958, ft_String}; {959, ft_int}; {960, ft_String};
    {961, ft_String}; {962, ft_UTCTimestamp}; {963, ft_int}; {964, ft_int};
    {965, ft_String}; {966, ft_String}; {967, ft_float}; {968, ft_float}; {969, ft_float};
    {970, ft_int}; {971, ft_int}; {972, ft_Percentage}; {973, ft_Amt}; {974, ft_String};
    {975, ft_int}; {976, ft_LocalMktDate}; {977, ft_String}; {978, ft_Boolean};
    {979, ft_String}; {980, ft_char}; {981, ft_NumInGroup}; {982, ft_int}; {983, ft_Qty};
    {984, ft_NumInGroup}; {985, ft_Amt}; {986, ft_Amt}; {987, ft_LocalMktDate};
    {988, ft_String}; {989, ft_String}; {990, ft_String}; {991, ft_Price}; {992, ft_int};
    {993, ft_String}; {994, ft_String}; {996, ft_String}; {997, ft_String};
    {998, ft_String}; {999, ft_String}; {1000, ft_String}; {1001, ft_String};
    {1002, ft_int}; {1003, ft_String}; {1005, ft_String}; {1006, ft_String};
    {1007, ft_String}; {1008, ft_int}; {1009, ft_int}; {1011, ft_String};
    {1012, ft_UTCTimestamp}; {1013, ft_int}; {1014, ft_String}; {1015, ft_char};
    {1016, ft_NumInGroup}; {1017, ft_float}; {1018, ft_NumInGroup}; {1019, ft_String};
    {1020, ft_Qty}; {1021, ft_int}; {1022, ft_String}; {1023, ft_int}; {1024, ft_int};
    {1025, ft_Price}; {1026, ft_float}; {1027, ft_Price}; {1028, ft_Boolean};
    {1029, ft_Boolean}; {1030, ft_String}; {1031, ft_MultipleStringValue}; {1032, ft_int};
    {1033, ft_String}; {1034, ft_int}; {1035, ft_MultipleStringValue}; {1036, ft_char};
    {1037, ft_Amt}; {1038, ft_Amt}; {1039, ft_String}; {1040, ft_String};
    {1041, ft_String}; {1042, ft_String}; {1043, ft_int}; {1044, ft_Qty}; {1045, ft_float};
    {1046, ft_char}; {1047, ft_char}; {1048, ft_Price}; {1049, ft_char}; {1050, ft_char};
    {1051, ft_int}; {1052, ft_NumInGroup}; {1053, ft_String}; {1054, ft_int};
    {1055, ft_String}; {1056, ft_Qty}; {1057, ft_Boolean}; {1058, ft_NumInGroup};
    {1059, ft_String}; {1060, ft_char}; {1061, ft_int}; {1062, ft_NumInGroup};
    {1063, ft_String}; {1064, ft_int}; {1065, ft_Price}; {1066, ft_Price};
    {1067, ft_Price}; {1068, ft_Price}; {1069, ft_Price}; {1070, ft_int}; {1071, ft_Price};
    {1072, ft_Amt}; {1073, ft_Price}; {1074, ft_Qty}; {1075, ft_Amt};
    {1079, ft_TZTimeOnly}; {1080, ft_String}; {1081, ft_char}; {1082, ft_Qty};
    {1083, ft_char}; {1084, ft_char}; {1085, ft_Qty}; {1086, ft_Qty}; {1087, ft_Qty};
    {1088, ft_Qty}; {1089, ft_Qty}; {1090, ft_int}; {1091, ft_Boolean}; {1092, ft_char};
    {1093, ft_char}; {1094, ft_int}; {1095, ft_Price}; {1096, ft_String};
    {1097, ft_String}; {1098, ft_String}; {1099, ft_String} ].

Definition fix50sp1_std_tags_8 : list FIX_Tag :=
  [ {1100, ft_char}; {1101, ft_char}; {1102, ft_Price}; {1103, ft_String};
    {1104, ft_String}; {1105, ft_String}; {1106, ft_String}; {1107, ft_char};
    {1108, ft_char}; {1109, ft_char}; {1110, ft_Price}; {1111, ft_char}; {1112, ft_Qty};
    {1113, ft_String}; {1114, ft_String}; {1115, ft_char}; {1116, ft_NumInGroup};
    {1117, ft_String}; {1118, ft_char}; {1119, ft_int}; {1120, ft_NumInGroup};
    {1121, ft_String}; {1122, ft_int}; {1123, ft_char}; {1124, ft_char};
    {1125, ft_LocalMktDate}; {1126, ft_String}; {1127, ft_String}; {1128, ft_String};
    {1129, ft_String}; {1130, ft_String}; {1131, ft_String}; {1132, ft_TZTimestamp};
    {1133, ft_char}; {1134, ft_Boolean}; {1135, ft_String}; {1136, ft_String};
    {1137, ft_String}; {1138, ft_Qty}; {1139, ft_String}; {1140, ft_Qty};
    {1141, ft_NumInGroup}; {1142, ft_String}; {1143, ft_float}; {1144, ft_int};
    {1145, ft_UTCTimestamp}; {1146, ft_Amt}; {1147, ft_Qty}; {1148, ft_Price};
    {1149, ft_Price}; {1150, ft_Price}; {1151, ft_String}; {1152, ft_int}; {1153, ft_int};
    {1154, ft_Currency}; {1155, ft_Currency}; {1156, ft_int}; {1157, ft_Amt};
    {1158, ft_NumInGroup}; {1159, ft_int}; {1160, ft_String}; {1161, ft_String};
    {1162, ft_char}; {1163, ft_String}; {1164, ft_char}; {1165, ft_NumInGroup};
    {1166, ft_String}; {1167, ft_int}; {1168, ft_int}; {1169, ft_int}; {1170, ft_int};
    {1171, ft_Boolean}; {1172, ft_int}; {1173, ft_int}; {1174, ft_int};
    {1175, ft_NumInGroup}; {1176, ft_int}; {1177, ft_NumInGroup}; {1178, ft_int};
    {1179, ft_Qty}; {1180, ft_String}; {1181, ft_SeqNum}; {1182, ft_SeqNum};
    {1183, ft_SeqNum}; {1184, ft_Length}; {1185, ft_XMLData}; {1186, ft_String};
    {1187, ft_Boolean}; {1188, ft_float}; {1189, ft_float}; {1190, ft_float};
    {1191, ft_String}; {1192, ft_Qty}; {1193, ft_char}; {1194, ft_int}; {1195, ft_Amt};
    {1196, ft_String}; {1197, ft_String}; {1198, ft_int}; {1199, ft_Price};
    {1200, ft_Price}; {1201, ft_NumInGroup}; {1202, ft_Price}; {1203, ft_Price};
    {1204, ft_float}; {1205, ft_NumInGroup}; {1206, ft_Price}; {1207, ft_Price};
    {1208, ft_Price}; {1209, ft_int}; {1210, ft_int}; {1211, ft_String};
    {1212, ft_TZTimeOnly}; {1213, ft_TZTimeOnly}; {1214, ft_String}; {1215, ft_String};
    {1216, ft_String}; {1217, ft_String}; {1218, ft_NumInGroup}; {1219, ft_String};
    {1220, ft_String}; {1221, ft_Price}; {1222, ft_String}; {1223, ft_String};
    {1224, ft_Qty}; {1225, ft_Amt}; {1226, ft_MonthYear}; {1227, ft_String};
    {1228, ft_String}; {1229, ft_int}; {1230, ft_Price}; {1231, ft_Qty};
    {1232, ft_NumInGroup}; {1234, ft_NumInGroup}; {1235, ft_NumInGroup};
    {1236, ft_NumInGroup}; {1237, ft_NumInGroup}; {1239, ft_NumInGroup}; {1240, ft_Price};
    {1241, ft_MonthYear}; {1242, ft_Boolean}; {1243, ft_Boolean}; {1244, ft_Boolean};
    {1245, ft_Currency}; {1246, ft_int}; {1247, ft_String}; {1248, ft_String};
    {1249, ft_String}; {1250, ft_String}; {1251, ft_MonthYear} ].

Definition fix50sp1_std_tags_9 : list FIX_Tag :=
  [ {1252, ft_LocalMktDate}; {1253, ft_TZTimeOnly}; {1254, ft_String}; {1255, ft_char};
    {1256, ft_String}; {1257, ft_String}; {1258, ft_Country}; {1259, ft_String};
    {1260, ft_String}; {1261, ft_Price}; {1262, ft_Currency}; {1263, ft_float};
    {1264, ft_float}; {1265, ft_char}; {1266, ft_float}; {1267, ft_float}; {1268, ft_Amt};
    {1269, ft_String}; {1270, ft_Qty}; {1271, ft_String}; {1272, ft_Exchange};
    {1273, ft_int}; {1274, ft_int}; {1275, ft_String}; {1276, ft_LocalMktDate};
    {1277, ft_Length}; {1278, ft_data}; {1279, ft_String}; {1280, ft_Length};
    {1281, ft_data}; {1282, ft_Length}; {1283, ft_data}; {1284, ft_String};
    {1285, ft_MonthYear}; {1286, ft_NumInGroup}; {1287, ft_int}; {1288, ft_LocalMktDate};
    {1289, ft_UTCTimestamp}; {1290, ft_Price}; {1291, ft_String}; {1292, ft_NumInGroup};
    {1293, ft_String}; {1294, ft_String}; {1295, ft_int}; {1296, ft_NumInGroup};
    {1297, ft_String}; {1298, ft_int}; {1299, ft_char}; {1300, ft_String};
    {1301, ft_Exchange}; {1302, ft_int}; {1303, ft_int}; {1304, ft_int}; {1305, ft_int};
    {1306, ft_int}; {1308, ft_char}; {1309, ft_NumInGroup}; {1310, ft_NumInGroup};
    {1311, ft_NumInGroup}; {1312, ft_NumInGroup}; {1313, ft_int}; {1314, ft_String};
    {1315, ft_String}; {1316, ft_Qty}; {1317, ft_char}; {1318, ft_String};
    {1319, ft_String}; {1320, ft_int}; {1321, ft_Price}; {1322, ft_Price}; {1323, ft_int};
    {1324, ft_char}; {1325, ft_String}; {1326, ft_String}; {1327, ft_char};
    {1328, ft_String}; {1329, ft_float}; {1330, ft_String}; {1331, ft_String};
    {1332, ft_String}; {1333, ft_String}; {1334, ft_NumInGroup}; {1335, ft_String};
    {1336, ft_String}; {1337, ft_String}; {1338, ft_String}; {1339, ft_MonthYear};
    {1340, ft_Price}; {1341, ft_String}; {1342, ft_NumInGroup}; {1343, ft_int};
    {1344, ft_String}; {1345, ft_LocalMktDate}; {1346, ft_String}; {1347, ft_int};
    {1348, ft_int}; {1349, ft_int}; {1350, ft_SeqNum}; {1351, ft_NumInGroup};
    {1352, ft_Boolean}; {1353, ft_String}; {1354, ft_int}; {1355, ft_String};
    {1356, ft_String}; {1357, ft_SeqNum}; {1358, ft_int}; {1361, ft_int};
    {1362, ft_NumInGroup}; {1363, ft_String}; {1364, ft_Price}; {1365, ft_Qty};
    {1366, ft_String}; {1367, ft_Currency}; {1368, ft_int}; {1369, ft_String};
    {1370, ft_NumInGroup}; {1371, ft_String}; {1372, ft_String}; {1373, ft_int};
    {1374, ft_int}; {1375, ft_int}; {1376, ft_int}; {1377, ft_int}; {1378, ft_int};
    {1379, ft_float}; {1380, ft_Percentage}; {1381, ft_Percentage}; {1382, ft_float};
    {1383, ft_float}; {1384, ft_MultipleCharValue}; {1385, ft_int}; {1386, ft_int};
    {1387, ft_NumInGroup}; {1388, ft_int}; {1389, ft_Boolean}; {1390, ft_int};
    {1391, ft_char}; {1392, ft_String}; {1393, ft_String}; {1394, ft_String};
    {1395, ft_char}; {1396, ft_String}; {1397, ft_Length}; {1398, ft_data};
    {1399, ft_SeqNum}; {1400, ft_int}; {1401, ft_Length}; {1402, ft_data};
    {1403, ft_Length}; {1404, ft_data} ].

Definition fix50sp1_std_tags_10 : list FIX_Tag :=
  [ {1405, ft_TZTimeOnly}; {1406, ft_int}; {1407, ft_int}; {1408, ft_String};
    {1409, ft_int}; {1410, ft_Boolean}; {1411, ft_int}; {1412, ft_String};
    {1413, ft_NumInGroup}; {1414, ft_NumInGroup}; {1415, ft_String}; {1416, ft_char};
    {1417, ft_int}; {1418, ft_Qty}; {1419, ft_int}; {1420, ft_int}; {1421, ft_String};
    {1422, ft_Qty}; {1423, ft_Qty}; {1424, ft_String}; {1425, ft_Qty}; {1426, ft_int};
    {0, ft_int} ].

Definition fix50sp1_std_tags : list FIX_Tag :=
  fix50sp1_std_tags_1 ++ fix50sp1_std_tags_2 ++ fix50sp1_std_tags_3 ++ fix50sp1_std_tags_4 ++
  fix50sp1_std_tags_5 ++ fix50sp1_std_tags_6 ++ fix50sp1_std_tags_7 ++ fix50sp1_std_tags_8 ++
  fix50sp1_std_tags_9 ++ fix50sp1_std_tags_10.

Definition fix50sp1_std_data_tags : list FIX_Tag :=
  [ {89, ft_data}; {91, ft_data}; {96, ft_data}; {213, ft_data}; {349, ft_data};
    {351, ft_data}; {353, ft_data}; {355, ft_data}; {357, ft_data}; {359, ft_data};
    {361, ft_data}; {363, ft_data}; {365, ft_data}; {446, ft_data}; {619, ft_data};
    {622, ft_data}; {1278, ft_data}; {1281, ft_data}; {1283, ft_data}; {1398, ft_data};
    {1402, ft_data}; {1404, ft_data}; {0, ft_int} ].

(** ** [FIX50SP2.cpp] *)

Definition fix50sp2_std_tags_1 : list FIX_Tag :=
  [ {1, ft_String}; {2, ft_String}; {3, ft_String}; {4, ft_char}; {5, ft_String};
    {6, ft_Price}; {7, ft_SeqNum}; {8, ft_String}; {9, ft_Length}; {10, ft_String};
    {11, ft_String}; {12, ft_Amt}; {13, ft_char}; {14, ft_Qty}; {15, ft_Currency};
    {16, ft_SeqNum}; {17, ft_String}; {18, ft_MultipleCharValue}; {19, ft_String};
    {21, ft_char}; {22, ft_String}; {23, ft_String}; {25, ft_char}; {26, ft_String};
    {27, ft_String}; {28, ft_char}; {29, ft_char}; {30, ft_Exchange}; {31, ft_Price};
    {32, ft_Qty}; {33, ft_NumInGroup}; {34, ft_SeqNum}; {35, ft_String}; {36, ft_SeqNum};
    {37, ft_String}; {38, ft_Qty}; {39, ft_char}; {40, ft_char}; {41, ft_String};
    {42, ft_UTCTimestamp}; {43, ft_Boolean}; {44, ft_Price}; {45, ft_SeqNum};
    {48, ft_String}; {49, ft_String}; {50, ft_String}; {52, ft_UTCTimestamp}; {53, ft_Qty};
    {54, ft_char}; {55, ft_String}; {56, ft_String}; {57, ft_String}; {58, ft_String};
    {59, ft_char}; {60, ft_UTCTimestamp}; {61, ft_char}; {62, ft_UTCTimestamp};
    {63, ft_String}; {64, ft_LocalMktDate}; {65, ft_String}; {66, ft_String}; {67, ft_int};
    {68, ft_int}; {69, ft_String}; {70, ft_String}; {71, ft_char}; {72, ft_String};
    {73, ft_NumInGroup}; {74, ft_int}; {75, ft_LocalMktDate}; {77, ft_char};
    {78, ft_NumInGroup}; {79, ft_String}; {80, ft_Qty}; {81, ft_char}; {82, ft_int};
    {83, ft_int}; {84, ft_Qty}; {85, ft_NumInGroup}; {87, ft_int}; {88, ft_int};
    {89, ft_data}; {90, ft_Length}; {91, ft_data}; {93, ft_Length}; {94, ft_char};
    {95, ft_Length}; {96, ft_data}; {97, ft_Boolean}; {98, ft_int}; {99, ft_Price};
    {100, ft_Exchange}; {102, ft_int}; {103, ft_int}; {104, ft_char}; {106, ft_String};
    {107, ft_String}; {108, ft_int}; {110, ft_Qty}; {111, ft_Qty}; {112, ft_String};
    {113, ft_Boolean}; {114, ft_Boolean}; {115, ft_String}; {116, ft_String};
    {117, ft_String}; {118, ft_Amt}; {119, ft_Amt}; {120, ft_Currency}; {121, ft_Boolean};
    {122, ft_UTCTimestamp}; {123, ft_Boolean}; {124, ft_NumInGroup};
    {126, ft_UTCTimestamp}; {127, ft_char}; {128, ft_String}; {129, ft_String};
    {130, ft_Boolean}; {131, ft_String}; {132, ft_Price}; {133, ft_Price}; {134, ft_Qty};
    {135, ft_Qty}; {136, ft_NumInGroup}; {137, ft_Amt}; {138, ft_Currency};
    {139, ft_String}; {140, ft_Price}; {141, ft_Boolean}; {142, ft_String};
    {143, ft_String}; {144, ft_String}; {145, ft_String}; {146, ft_NumInGroup};
    {147, ft_String}; {148, ft_String}; {149, ft_String}; {150, ft_char}; {151, ft_Qty};
    {152, ft_Qty}; {153, ft_Price}; {154, ft_Amt}; {155, ft_float}; {156, ft_char};
    {157, ft_int}; {158, ft_Percentage}; {159, ft_Amt}; {160, ft_char}; {161, ft_String};
    {162, ft_String} ].

Definition fix50sp2_std_tags_2 : list FIX_Tag :=
  [ {163, ft_char}; {164, ft_String}; {165, ft_char}; {167, ft_String};
    {168, ft_UTCTimestamp}; {169, ft_int}; {170, ft_String}; {171, ft_String};
    {172, ft_int}; {188, ft_Price}; {189, ft_Price}; {190, ft_Price}; {191, ft_Price};
    {192, ft_Qty}; {193, ft_LocalMktDate}; {194, ft_Price}; {195, ft_Price};
    {196, ft_String}; {197, ft_int}; {198, ft_String}; {199, ft_NumInGroup};
    {200, ft_MonthYear}; {201, ft_int}; {202, ft_Price}; {203, ft_int}; {206, ft_char};
    {207, ft_Exchange}; {208, ft_Boolean}; {209, ft_int}; {210, ft_Qty}; {211, ft_float};
    {212, ft_Length}; {213, ft_data}; {214, ft_String}; {215, ft_NumInGroup};
    {216, ft_int}; {217, ft_String}; {218, ft_Price}; {220, ft_Currency}; {221, ft_String};
    {222, ft_String}; {223, ft_Percentage}; {224, ft_LocalMktDate}; {225, ft_LocalMktDate};
    {226, ft_int}; {227, ft_Percentage}; {228, ft_float}; {229, ft_LocalMktDate};
    {230, ft_LocalMktDate}; {231, ft_float}; {232, ft_NumInGroup}; {233, ft_String};
    {234, ft_String}; {235, ft_String}; {236, ft_Percentage}; {237, ft_Amt}; {238, ft_Amt};
    {239, ft_String}; {240, ft_LocalMktDate}; {241, ft_LocalMktDate};
    {242, ft_LocalMktDate}; {243, ft_String}; {244, ft_int}; {245, ft_Percentage};
    {246, ft_float}; {247, ft_LocalMktDate}; {248, ft_LocalMktDate};
    {249, ft_LocalMktDate}; {250, ft_String}; {251, ft_int}; {252, ft_Percentage};
    {253, ft_float}; {254, ft_LocalMktDate}; {255, ft_String}; {256, ft_String};
    {257, ft_String}; {258, ft_Boolean}; {259, ft_LocalMktDate}; {260, ft_Price};
    {262, ft_String}; {263, ft_char}; {264, ft_int}; {265, ft_int}; {266, ft_Boolean};
    {267, ft_NumInGroup}; {268, ft_NumInGroup}; {269, ft_char}; {270, ft_Price};
    {271, ft_Qty}; {272, ft_UTCDateOnly}; {273, ft_UTCTimeOnly}; {274, ft_char};
    {275, ft_Exchange}; {276, ft_MultipleStringValue}; {277, ft_MultipleStringValue};
    {278, ft_String}; {279, ft_char}; {280, ft_String}; {281, ft_char}; {282, ft_String};
    {283, ft_String}; {284, ft_String}; {285, ft_char}; {286, ft_MultipleCharValue};
    {287, ft_int}; {288, ft_String}; {289, ft_String}; {290, ft_int};
    {291, ft_MultipleCharValue}; {292, ft_MultipleCharValue}; {293, ft_Qty}; {294, ft_Qty};
    {295, ft_NumInGroup}; {296, ft_NumInGroup}; {297, ft_int}; {298, ft_int};
    {299, ft_String}; {300, ft_int}; {301, ft_int}; {302, ft_String}; {303, ft_int};
    {304, ft_int}; {305, ft_String}; {306, ft_String}; {307, ft_String};
    {308, ft_Exchange}; {309, ft_String}; {310, ft_String}; {311, ft_String};
    {312, ft_String}; {313, ft_MonthYear}; {315, ft_int}; {316, ft_Price}; {317, ft_char};
    {318, ft_Currency}; {320, ft_String}; {321, ft_int}; {322, ft_String}; {323, ft_int};
    {324, ft_String}; {325, ft_Boolean}; {326, ft_int}; {327, ft_int}; {328, ft_Boolean};
    {329, ft_Boolean}; {330, ft_Qty}; {331, ft_Qty}; {332, ft_Price}; {333, ft_Price};
    {334, ft_int} ].

Definition fix50sp2_std_tags_3 : list FIX_Tag :=
  [ {335, ft_String}; {336, ft_String}; {337, ft_String}; {338, ft_int}; {339, ft_int};
    {340, ft_int}; {341, ft_UTCTimestamp}; {342, ft_UTCTimestamp}; {343, ft_UTCTimestamp};
    {344, ft_UTCTimestamp}; {345, ft_UTCTimestamp}; {346, ft_int}; {347, ft_String};
    {348, ft_Length}; {349, ft_data}; {350, ft_Length}; {351, ft_data}; {352, ft_Length};
    {353, ft_data}; {354, ft_Length}; {355, ft_data}; {356, ft_Length}; {357, ft_data};
    {358, ft_Length}; {359, ft_data}; {360, ft_Length}; {361, ft_data}; {362, ft_Length};
    {363, ft_data}; {364, ft_Length}; {365, ft_data}; {366, ft_Price};
    {367, ft_UTCTimestamp}; {368, ft_int}; {369, ft_SeqNum}; {371, ft_int};
    {372, ft_String}; {373, ft_int}; {374, ft_char}; {375, ft_String}; {376, ft_String};
    {377, ft_Boolean}; {378, ft_int}; {379, ft_String}; {380, ft_int}; {381, ft_Amt};
    {382, ft_NumInGroup}; {383, ft_Length}; {384, ft_NumInGroup}; {385, ft_char};
    {386, ft_NumInGroup}; {387, ft_Qty}; {388, ft_char}; {389, ft_float}; {390, ft_String};
    {391, ft_String}; {392, ft_String}; {393, ft_int}; {394, ft_int}; {395, ft_int};
    {396, ft_Amt}; {397, ft_Amt}; {398, ft_NumInGroup}; {399, ft_int}; {400, ft_String};
    {401, ft_int}; {402, ft_Percentage}; {403, ft_Percentage}; {404, ft_Amt};
    {405, ft_Percentage}; {406, ft_Amt}; {407, ft_Percentage}; {408, ft_Amt};
    {409, ft_int}; {410, ft_Percentage}; {411, ft_Boolean}; {412, ft_Amt};
    {413, ft_Percentage}; {414, ft_int}; {415, ft_int}; {416, ft_int}; {417, ft_int};
    {418, ft_char}; {419, ft_char}; {420, ft_NumInGroup}; {421, ft_Country}; {422, ft_int};
    {423, ft_int}; {424, ft_Qty}; {425, ft_Qty}; {426, ft_Price}; {427, ft_int};
    {428, ft_NumInGroup}; {429, ft_int}; {430, ft_int}; {431, ft_int};
    {432, ft_LocalMktDate}; {433, ft_char}; {434, ft_char}; {435, ft_Percentage};
    {436, ft_float}; {437, ft_Qty}; {438, ft_UTCTimestamp}; {441, ft_int}; {442, ft_char};
    {443, ft_UTCTimestamp}; {444, ft_String}; {445, ft_Length}; {446, ft_data};
    {447, ft_char}; {448, ft_String}; {451, ft_Price}; {452, ft_int}; {453, ft_NumInGroup};
    {454, ft_NumInGroup}; {455, ft_String}; {456, ft_String}; {457, ft_NumInGroup};
    {458, ft_String}; {459, ft_String}; {460, ft_int}; {461, ft_String}; {462, ft_int};
    {463, ft_String}; {464, ft_Boolean}; {466, ft_String}; {467, ft_String};
    {468, ft_char}; {469, ft_float}; {470, ft_Country}; {471, ft_String}; {472, ft_String};
    {473, ft_NumInGroup}; {474, ft_String}; {475, ft_Country}; {476, ft_String};
    {477, ft_int}; {478, ft_Currency}; {479, ft_Currency}; {480, ft_char}; {481, ft_char};
    {482, ft_String}; {483, ft_UTCTimestamp}; {484, ft_char}; {485, ft_float};
    {486, ft_LocalMktDate}; {487, ft_int}; {488, ft_String}; {489, ft_String};
    {490, ft_LocalMktDate} ].

Definition fix50sp2_std_tags_4 : list FIX_Tag :=
  [ {491, ft_String}; {492, ft_int}; {493, ft_String}; {494, ft_String}; {495, ft_int};
    {496, ft_String}; {497, ft_char}; {498, ft_String}; {499, ft_String}; {500, ft_String};
    {501, ft_String}; {502, ft_String}; {503, ft_LocalMktDate}; {504, ft_LocalMktDate};
    {505, ft_String}; {506, ft_char}; {507, ft_int}; {508, ft_String}; {509, ft_String};
    {510, ft_NumInGroup}; {511, ft_String}; {512, ft_Percentage}; {513, ft_String};
    {514, ft_char}; {515, ft_UTCTimestamp}; {516, ft_Percentage}; {517, ft_char};
    {518, ft_NumInGroup}; {519, ft_int}; {520, ft_float}; {521, ft_Currency};
    {522, ft_int}; {523, ft_String}; {524, ft_String}; {525, ft_char}; {526, ft_String};
    {527, ft_String}; {528, ft_char}; {529, ft_MultipleCharValue}; {530, ft_char};
    {531, ft_char}; {532, ft_int}; {533, ft_int}; {534, ft_NumInGroup}; {535, ft_String};
    {536, ft_String}; {537, ft_int}; {538, ft_int}; {539, ft_NumInGroup}; {540, ft_Amt};
    {541, ft_LocalMktDate}; {542, ft_LocalMktDate}; {543, ft_String}; {544, ft_char};
    {545, ft_String}; {546, ft_MultipleCharValue}; {547, ft_Boolean}; {548, ft_String};
    {549, ft_int}; {550, ft_int}; {551, ft_String}; {552, ft_NumInGroup}; {553, ft_String};
    {554, ft_String}; {555, ft_NumInGroup}; {556, ft_Currency}; {557, ft_int};
    {558, ft_NumInGroup}; {559, ft_int}; {560, ft_int}; {561, ft_Qty}; {562, ft_Qty};
    {563, ft_int}; {564, ft_char}; {565, ft_int}; {566, ft_Price}; {567, ft_int};
    {568, ft_String}; {569, ft_int}; {570, ft_Boolean}; {571, ft_String}; {572, ft_String};
    {573, ft_char}; {574, ft_String}; {575, ft_Boolean}; {576, ft_NumInGroup};
    {577, ft_int}; {578, ft_String}; {579, ft_String}; {580, ft_NumInGroup}; {581, ft_int};
    {582, ft_int}; {583, ft_String}; {584, ft_String}; {585, ft_int};
    {586, ft_UTCTimestamp}; {587, ft_char}; {588, ft_LocalMktDate}; {589, ft_char};
    {590, ft_char}; {591, ft_char}; {592, ft_Country}; {593, ft_String}; {594, ft_String};
    {595, ft_String}; {596, ft_Country}; {597, ft_String}; {598, ft_String};
    {599, ft_String}; {600, ft_String}; {601, ft_String}; {602, ft_String};
    {603, ft_String}; {604, ft_NumInGroup}; {605, ft_String}; {606, ft_String};
    {607, ft_int}; {608, ft_String}; {609, ft_String}; {610, ft_MonthYear};
    {611, ft_LocalMktDate}; {612, ft_Price}; {613, ft_char}; {614, ft_float};
    {615, ft_Percentage}; {616, ft_Exchange}; {617, ft_String}; {618, ft_Length};
    {619, ft_data}; {620, ft_String}; {621, ft_Length}; {622, ft_data}; {623, ft_float};
    {624, ft_char}; {625, ft_String}; {626, ft_int}; {627, ft_NumInGroup};
    {628, ft_String}; {629, ft_UTCTimestamp}; {630, ft_SeqNum}; {631, ft_Price};
    {632, ft_Percentage}; {633, ft_Percentage}; {634, ft_Percentage}; {635, ft_String};
    {636, ft_Boolean}; {637, ft_Price}; {638, ft_int}; {639, ft_Price}; {640, ft_Price} ].

Definition fix50sp2_std_tags_5 : list FIX_Tag :=
  [ {641, ft_Price}; {642, ft_Price}; {643, ft_Price}; {644, ft_String}; {645, ft_Price};
    {646, ft_Price}; {647, ft_Qty}; {648, ft_Qty}; {649, ft_String}; {650, ft_Boolean};
    {651, ft_Price}; {652, ft_Qty}; {654, ft_String}; {655, ft_String}; {656, ft_float};
    {657, ft_float}; {658, ft_int}; {659, ft_String}; {660, ft_int}; {661, ft_int};
    {662, ft_Price}; {663, ft_int}; {664, ft_String}; {665, ft_int}; {666, ft_int};
    {667, ft_MonthYear}; {668, ft_int}; {669, ft_Price}; {670, ft_NumInGroup};
    {671, ft_String}; {672, ft_String}; {673, ft_Qty}; {674, ft_String};
    {675, ft_Currency}; {676, ft_Currency}; {677, ft_String}; {678, ft_String};
    {679, ft_Price}; {680, ft_int}; {681, ft_Price}; {682, ft_String};
    {683, ft_NumInGroup}; {684, ft_Price}; {685, ft_Qty}; {686, ft_int}; {687, ft_Qty};
    {688, ft_String}; {689, ft_String}; {690, ft_int}; {691, ft_String}; {692, ft_int};
    {693, ft_String}; {694, ft_int}; {695, ft_char}; {696, ft_LocalMktDate};
    {697, ft_Price}; {698, ft_int}; {699, ft_String}; {700, ft_Boolean};
    {701, ft_LocalMktDate}; {702, ft_NumInGroup}; {703, ft_String}; {704, ft_Qty};
    {705, ft_Qty}; {706, ft_int}; {707, ft_String}; {708, ft_Amt}; {709, ft_int};
    {710, ft_String}; {711, ft_NumInGroup}; {712, ft_int}; {713, ft_String};
    {714, ft_String}; {715, ft_LocalMktDate}; {716, ft_String}; {717, ft_String};
    {718, ft_int}; {719, ft_Boolean}; {720, ft_Boolean}; {721, ft_String}; {722, ft_int};
    {723, ft_int}; {724, ft_int}; {725, ft_int}; {726, ft_String}; {727, ft_int};
    {728, ft_int}; {729, ft_int}; {730, ft_Price}; {731, ft_int}; {732, ft_Price};
    {733, ft_int}; {734, ft_Price}; {735, ft_NumInGroup}; {736, ft_Currency};
    {737, ft_Amt}; {738, ft_Amt}; {739, ft_LocalMktDate}; {740, ft_String}; {741, ft_Amt};
    {742, ft_Amt}; {743, ft_LocalMktDate}; {744, ft_char}; {745, ft_Qty}; {746, ft_Amt};
    {747, ft_char}; {748, ft_int}; {749, ft_int}; {750, ft_int}; {751, ft_int};
    {752, ft_int}; {753, ft_NumInGroup}; {754, ft_Boolean}; {755, ft_String};
    {756, ft_NumInGroup}; {757, ft_String}; {758, ft_char}; {759, ft_int};
    {760, ft_String}; {761, ft_String}; {762, ft_String}; {763, ft_String};
    {764, ft_String}; {765, ft_Percentage}; {766, ft_Amt}; {767, ft_Currency};
    {768, ft_NumInGroup}; {769, ft_UTCTimestamp}; {770, ft_int}; {771, ft_String};
    {772, ft_String}; {773, ft_int}; {774, ft_int}; {775, ft_int}; {776, ft_int};
    {777, ft_String}; {778, ft_NumInGroup}; {779, ft_UTCTimestamp}; {780, ft_int};
    {781, ft_NumInGroup}; {782, ft_String}; {783, ft_char}; {784, ft_int};
    {785, ft_String}; {786, ft_int}; {787, ft_char}; {788, ft_int}; {789, ft_SeqNum};
    {790, ft_String}; {791, ft_String} ].

Definition fix50sp2_std_tags_6 : list FIX_Tag :=
  [ {792, ft_int}; {793, ft_String}; {794, ft_int}; {795, ft_String}; {796, ft_int};
    {797, ft_Boolean}; {798, ft_int}; {799, ft_Price}; {800, ft_Qty}; {801, ft_NumInGroup};
    {802, ft_NumInGroup}; {803, ft_int}; {804, ft_NumInGroup}; {805, ft_int};
    {806, ft_NumInGroup}; {807, ft_int}; {808, ft_int}; {810, ft_Price}; {811, ft_float};
    {812, ft_int}; {813, ft_int}; {814, ft_int}; {815, ft_int}; {816, ft_NumInGroup};
    {817, ft_String}; {818, ft_String}; {819, ft_int}; {820, ft_String}; {821, ft_String};
    {822, ft_String}; {823, ft_String}; {824, ft_String}; {825, ft_String}; {826, ft_int};
    {827, ft_int}; {828, ft_int}; {829, ft_int}; {830, ft_String}; {832, ft_int};
    {833, ft_String}; {834, ft_Price}; {835, ft_int}; {836, ft_int}; {837, ft_int};
    {838, ft_int}; {839, ft_Price}; {840, ft_int}; {841, ft_int}; {842, ft_int};
    {843, ft_int}; {844, ft_int}; {845, ft_Price}; {846, ft_int}; {847, ft_int};
    {848, ft_String}; {849, ft_Percentage}; {850, ft_float}; {851, ft_int};
    {852, ft_Boolean}; {853, ft_int}; {854, ft_int}; {855, ft_int}; {856, ft_int};
    {857, ft_int}; {858, ft_Amt}; {859, ft_String}; {860, ft_Price}; {861, ft_Price};
    {862, ft_NumInGroup}; {863, ft_Qty}; {864, ft_NumInGroup}; {865, ft_int};
    {866, ft_LocalMktDate}; {867, ft_Price}; {868, ft_String}; {869, ft_Percentage};
    {870, ft_NumInGroup}; {871, ft_int}; {872, ft_String}; {873, ft_LocalMktDate};
    {874, ft_LocalMktDate}; {875, ft_int}; {876, ft_String}; {877, ft_String};
    {878, ft_String}; {879, ft_Qty}; {880, ft_String}; {881, ft_String}; {882, ft_Price};
    {883, ft_Price}; {884, ft_Amt}; {885, ft_Amt}; {886, ft_Amt}; {887, ft_NumInGroup};
    {888, ft_String}; {889, ft_String}; {890, ft_Amt}; {891, ft_int}; {892, ft_int};
    {893, ft_Boolean}; {894, ft_String}; {895, ft_int}; {896, ft_int};
    {897, ft_NumInGroup}; {898, ft_Percentage}; {899, ft_Amt}; {900, ft_Amt};
    {901, ft_Amt}; {902, ft_String}; {903, ft_int}; {904, ft_String}; {905, ft_int};
    {906, ft_int}; {907, ft_String}; {908, ft_String}; {909, ft_String}; {910, ft_int};
    {911, ft_int}; {912, ft_Boolean}; {913, ft_String}; {914, ft_String};
    {915, ft_LocalMktDate}; {916, ft_LocalMktDate}; {917, ft_LocalMktDate};
    {918, ft_Currency}; {919, ft_int}; {920, ft_Amt}; {921, ft_Amt}; {922, ft_Amt};
    {923, ft_String}; {924, ft_int}; {925, ft_String}; {926, ft_int}; {927, ft_String};
    {928, ft_int}; {929, ft_String}; {930, ft_String}; {931, ft_String}; {932, ft_String};
    {933, ft_String}; {934, ft_String}; {935, ft_int}; {936, ft_NumInGroup}; {937, ft_int};
    {938, ft_NumInGroup}; {939, ft_int}; {940, ft_int}; {941, ft_Currency};
    {942, ft_Currency}; {943, ft_String} ].

Definition fix50sp2_std_tags_7 : list FIX_Tag :=
  [ {944, ft_int}; {945, ft_int}; {946, ft_int}; {947, ft_Currency}; {948, ft_NumInGroup};
    {949, ft_String}; {950, ft_char}; {951, ft_int}; {952, ft_NumInGroup};
    {953, ft_String}; {954, ft_int}; {955, ft_MonthYear}; {956, ft_LocalMktDate};
    {957, ft_NumInGroup}; {958, ft_String}; {959, ft_int}; {960, ft_String};
    {961, ft_String}; {962, ft_UTCTimestamp}; {963, ft_int}; {964, ft_int};
    {965, ft_String}; {966, ft_String}; {967, ft_float}; {968, ft_float}; {969, ft_float};
    {970, ft_int}; {971, ft_int}; {972, ft_Percentage}; {973, ft_Amt}; {974, ft_String};
    {975, ft_int}; {976, ft_LocalMktDate}; {977, ft_String}; {978, ft_Boolean};
    {979, ft_String}; {980, ft_char}; {981, ft_NumInGroup}; {982, ft_int}; {983, ft_Qty};
    {984, ft_NumInGroup}; {985, ft_Amt}; {986, ft_Amt}; {987, ft_LocalMktDate};
    {988, ft_String}; {989, ft_String}; {990, ft_String}; {991, ft_Price}; {992, ft_int};
    {993, ft_String}; {994, ft_String}; {996, ft_String}; {997, ft_String};
    {998, ft_String}; {999, ft_String}; {1000, ft_String}; {1001, ft_String};
    {1002, ft_int}; {1003, ft_String}; {1005, ft_String}; {1006, ft_String};
    {1007, ft_String}; {1008, ft_int}; {1009, ft_int}; {1011, ft_String};
    {1012, ft_UTCTimestamp}; {1013, ft_int}; {1014, ft_String}; {1015, ft_char};
    {1016, ft_NumInGroup}; {1017, ft_float}; {1018, ft_NumInGroup}; {1019, ft_String};
    {1020, ft_Qty}; {1021, ft_int}; {1022, ft_String}; {1023, ft_int}; {1024, ft_int};
    {1025, ft_Price}; {1026, ft_float}; {1027, ft_Price}; {1028, ft_Boolean};
    {1029, ft_Boolean}; {1030, ft_String}; {1031, ft_MultipleStringValue}; {1032, ft_int};
    {1033, ft_String}; {1034, ft_int}; {1035, ft_MultipleStringValue}; {1036, ft_char};
    {1037, ft_Amt}; {1038, ft_Amt}; {1039, ft_String}; {1040, ft_String};
    {1041, ft_String}; {1042, ft_String}; {1043, ft_int}; {1044, ft_Qty}; {1045, ft_float};
    {1046, ft_char}; {1047, ft_char}; {1048, ft_char}; {1049, ft_char}; {1050, ft_char};
    {1051, ft_int}; {1052, ft_NumInGroup}; {1053, ft_String}; {1054, ft_int};
    {1055, ft_String}; {1056, ft_Qty}; {1057, ft_Boolean}; {1058, ft_NumInGroup};
    {1059, ft_String}; {1060, ft_char}; {1061, ft_int}; {1062, ft_NumInGroup};
    {1063, ft_String}; {1064, ft_int}; {1065, ft_Price}; {1066, ft_Price};
    {1067, ft_Price}; {1068, ft_Price}; {1069, ft_Price}; {1070, ft_int}; {1071, ft_Price};
    {1072, ft_Amt}; {1073, ft_Price}; {1074, ft_Qty}; {1075, ft_Amt};
    {1079, ft_TZTimeOnly}; {1080, ft_String}; {1081, ft_char}; {1082, ft_Qty};
    {1083, ft_char}; {1084, ft_char}; {1085, ft_Qty}; {1086, ft_Qty}; {1087, ft_Qty};
    {1088, ft_Qty}; {1089, ft_Qty}; {1090, ft_int}; {1091, ft_Boolean}; {1092, ft_char};
    {1093, ft_char}; {1094, ft_int}; {1095, ft_Price}; {1096, ft_String};
    {1097, ft_String}; {1098, ft_String}; {1099, ft_String} ].

Definition fix50sp2_std_tags_8 : list FIX_Tag :=
  [ {1100, ft_char}; {1101, ft_char}; {1102, ft_Price}; {1103, ft_String};
    {1104, ft_String}; {1105, ft_String}; {1106, ft_String}; {1107, ft_char};
    {1108, ft_char}; {1109, ft_char}; {1110, ft_Price}; {1111, ft_char}; {1112, ft_Qty};
    {1113, ft_String}; {1114, ft_String}; {1115, ft_char}; {1116, ft_NumInGroup};
    {1117, ft_String}; {1118, ft_char}; {1119, ft_int}; {1120, ft_NumInGroup};
    {1121, ft_String}; {1122, ft_int}; {1123, ft_char}; {1124, ft_char};
    {1125, ft_LocalMktDate}; {1126, ft_String}; {1127, ft_String}; {1128, ft_String};
    {1129, ft_String}; {1130, ft_String}; {1131, ft_String}; {1132, ft_TZTimestamp};
    {1133, ft_char}; {1134, ft_Boolean}; {1135, ft_String}; {1136, ft_String};
    {1137, ft_String}; {1138, ft_Qty}; {1139, ft_String}; {1140, ft_Qty};
    {1141, ft_NumInGroup}; {1142, ft_String}; {1143, ft_float}; {1144, ft_int};
    {1145, ft_UTCTimestamp}; {1146, ft_Amt}; {1147, ft_Qty}; {1148, ft_Price};
    {1149, ft_Price}; {1150, ft_Price}; {1151, ft_String}; {1152, ft_int}; {1153, ft_int};
    {1154, ft_Currency}; {1155, ft_Currency}; {1156, ft_int}; {1157, ft_Amt};
    {1158, ft_NumInGroup}; {1159, ft_int}; {1160, ft_String}; {1161, ft_String};
    {1162, ft_char}; {1163, ft_String}; {1164, ft_char}; {1165, ft_NumInGroup};
    {1166, ft_String}; {1167, ft_int}; {1168, ft_int}; {1169, ft_int}; {1170, ft_int};
    {1171, ft_Boolean}; {1172, ft_int}; {1173, ft_int}; {1174, ft_int};
    {1175, ft_NumInGroup}; {1176, ft_int}; {1177, ft_NumInGroup}; {1178, ft_int};
    {1179, ft_Qty}; {1180, ft_String}; {1181, ft_SeqNum}; {1182, ft_SeqNum};
    {1183, ft_SeqNum}; {1184, ft_Length}; {1185, ft_XMLData}; {1186, ft_String};
    {1187, ft_Boolean}; {1188, ft_float}; {1189, ft_float}; {1190, ft_float};
    {1191, ft_String}; {1192, ft_Qty}; {1193, ft_char}; {1194, ft_int}; {1195, ft_Amt};
    {1196, ft_String}; {1197, ft_String}; {1198, ft_int}; {1199, ft_Price};
    {1200, ft_Price}; {1201, ft_NumInGroup}; {1202, ft_Price}; {1203, ft_Price};
    {1204, ft_float}; {1205, ft_NumInGroup}; {1206, ft_Price}; {1207, ft_Price};
    {1208, ft_Price}; {1209, ft_int}; {1210, ft_int}; {1211, ft_String};
    {1212, ft_TZTimeOnly}; {1213, ft_TZTimeOnly}; {1214, ft_String}; {1215, ft_String};
    {1216, ft_String}; {1217, ft_String}; {1218, ft_NumInGroup}; {1219, ft_String};
    {1220, ft_String}; {1221, ft_Price}; {1222, ft_String}; {1223, ft_String};
    {1224, ft_Qty}; {1225, ft_Amt}; {1226, ft_MonthYear}; {1227, ft_String};
    {1228, ft_String}; {1229, ft_int}; {1230, ft_Price}; {1231, ft_Qty};
    {1232, ft_NumInGroup}; {1234, ft_NumInGroup}; {1235, ft_NumInGroup};
    {1236, ft_NumInGroup}; {1237, ft_NumInGroup}; {1239, ft_NumInGroup}; {1240, ft_Price};
    {1241, ft_MonthYear}; {1242, ft_Boolean}; {1243, ft_Boolean}; {1244, ft_Boolean};
    {1245, ft_Currency}; {1246, ft_int}; {1247, ft_String}; {1248, ft_String};
    {1249, ft_String}; {1250, ft_String}; {1251, ft_MonthYear} ].

Definition fix50sp2_std_tags_9 : list FIX_Tag :=
  [ {1252, ft_LocalMktDate}; {1253, ft_TZTimeOnly}; {1254, ft_String}; {1255, ft_char};
    {1256, ft_String}; {1257, ft_String}; {1258, ft_Country}; {1259, ft_String};
    {1260, ft_String}; {1261, ft_Price}; {1262, ft_Currency}; {1263, ft_float};
    {1264, ft_float}; {1265, ft_char}; {1266, ft_float}; {1267, ft_float}; {1268, ft_Amt};
    {1269, ft_String}; {1270, ft_Qty}; {1271, ft_String}; {1272, ft_Exchange};
    {1273, ft_int}; {1274, ft_int}; {1275, ft_String}; {1276, ft_LocalMktDate};
    {1277, ft_Length}; {1278, ft_data}; {1279, ft_String}; {1280, ft_Length};
    {1281, ft_data}; {1282, ft_Length}; {1283, ft_data}; {1284, ft_String};
    {1285, ft_MonthYear}; {1286, ft_NumInGroup}; {1287, ft_int}; {1288, ft_LocalMktDate};
    {1289, ft_UTCTimestamp}; {1290, ft_Price}; {1291, ft_String}; {1292, ft_NumInGroup};
    {1293, ft_String}; {1294, ft_String}; {1295, ft_int}; {1296, ft_NumInGroup};
    {1297, ft_String}; {1298, ft_int}; {1299, ft_char}; {1300, ft_String};
    {1301, ft_Exchange}; {1302, ft_int}; {1303, ft_int}; {1304, ft_int}; {1305, ft_int};
    {1306, ft_int}; {1308, ft_char}; {1309, ft_NumInGroup}; {1310, ft_NumInGroup};
    {1311, ft_NumInGroup}; {1312, ft_NumInGroup}; {1313, ft_int}; {1314, ft_String};
    {1315, ft_String}; {1316, ft_Qty}; {1317, ft_char}; {1318, ft_String};
    {1319, ft_String}; {1320, ft_int}; {1321, ft_Price}; {1322, ft_Price}; {1323, ft_int};
    {1324, ft_char}; {1325, ft_String}; {1326, ft_String}; {1327, ft_char};
    {1328, ft_String}; {1329, ft_float}; {1330, ft_String}; {1331, ft_String};
    {1332, ft_String}; {1333, ft_String}; {1334, ft_NumInGroup}; {1335, ft_String};
    {1336, ft_String}; {1337, ft_String}; {1338, ft_String}; {1339, ft_MonthYear};
    {1340, ft_Price}; {1341, ft_String}; {1342, ft_NumInGroup}; {1343, ft_int};
    {1344, ft_String}; {1345, ft_LocalMktDate}; {1346, ft_String}; {1347, ft_int};
    {1348, ft_int}; {1349, ft_int}; {1350, ft_SeqNum}; {1351, ft_NumInGroup};
    {1352, ft_Boolean}; {1353, ft_String}; {1354, ft_int}; {1355, ft_String};
    {1356, ft_String}; {1357, ft_SeqNum}; {1358, ft_int}; {1361, ft_int};
    {1362, ft_NumInGroup}; {1363, ft_String}; {1364, ft_Price}; {1365, ft_Qty};
    {1366, ft_String}; {1367, ft_Currency}; {1368, ft_int}; {1369, ft_String};
    {1370, ft_NumInGroup}; {1371, ft_String}; {1372, ft_String}; {1373, ft_int};
    {1374, ft_int}; {1375, ft_int}; {1376, ft_int}; {1377, ft_int}; {1378, ft_int};
    {1379, ft_float}; {1380, ft_Percentage}; {1381, ft_Percentage}; {1382, ft_float};
    {1383, ft_float}; {1384, ft_MultipleCharValue}; {1385, ft_int}; {1386, ft_int};
    {1387, ft_NumInGroup}; {1388, ft_int}; {1389, ft_Boolean}; {1390, ft_int};
    {1391, ft_char}; {1392, ft_String}; {1393, ft_String}; {1394, ft_String};
    {1395, ft_char}; {1396, ft_String}; {1397, ft_Length}; {1398, ft_data};
    {1399, ft_SeqNum}; {1400, ft_int}; {1401, ft_Length}; {1402, ft_data};
    {1403, ft_Length}; {1404, ft_data} ].

Definition fix50sp2_std_tags_10 : list FIX_Tag :=
  [ {1405, ft_TZTimeOnly}; {1406, ft_int}; {1407, ft_int}; {1408, ft_String};
    {1409, ft_int}; {1410, ft_Boolean}; {1411, ft_int}; {1412, ft_String};
    {1413, ft_NumInGroup}; {1414, ft_NumInGroup}; {1415, ft_String}; {1416, ft_char};
    {1417, ft_int}; {1418, ft_Qty}; {1419, ft_int}; {1420, ft_int}; {1421, ft_String};
    {1422, ft_Qty}; {1423, ft_Qty}; {1424, ft_String}; {1425, ft_Qty}; {1426, ft_int};
    {1427, ft_String}; {1428, ft_int}; {1429, ft_int}; {1430, ft_char}; {1431, ft_int};
    {1432, ft_int}; {1433, ft_String}; {1434, ft_int}; {1435, ft_int}; {1436, ft_int};
    {1437, ft_int}; {1438, ft_int}; {1439, ft_int}; {1440, ft_int}; {1441, ft_int};
    {1442, ft_int}; {1443, ft_int}; {1444, ft_int}; {1445, ft_NumInGroup}; {1446, ft_int};
    {1447, ft_int}; {1448, ft_String}; {1449, ft_String}; {1450, ft_String};
    {1451, ft_Percentage}; {1452, ft_Percentage}; {1453, ft_String}; {1454, ft_String};
    {1455, ft_Percentage}; {1456, ft_Percentage}; {1457, ft_Percentage};
    {1458, ft_Percentage}; {1459, ft_Percentage}; {1460, ft_Percentage};
    {1461, ft_NumInGroup}; {1462, ft_String}; {1463, ft_char}; {1464, ft_int};
    {1465, ft_String}; {1466, ft_String}; {1467, ft_String}; {1468, ft_Length};
    {1469, ft_data}; {1470, ft_int}; {1471, ft_int}; {1472, ft_String}; {1473, ft_int};
    {1474, ft_Language}; {1475, ft_NumInGroup}; {1476, ft_String}; {1477, ft_int};
    {1478, ft_int}; {1479, ft_int}; {1480, ft_Percentage}; {1481, ft_int}; {1482, ft_int};
    {1483, ft_NumInGroup}; {1484, ft_int}; {1485, ft_Amt}; {1486, ft_Price};
    {1487, ft_int}; {1488, ft_Percentage}; {1489, ft_int}; {1490, ft_int};
    {1491, ft_NumInGroup}; {1492, ft_UTCTimestamp}; {1493, ft_UTCTimestamp};
    {1494, ft_NumInGroup}; {1495, ft_UTCTimeOnly}; {1496, ft_UTCTimeOnly};
    {1497, ft_String}; {1498, ft_int}; {1499, ft_NumInGroup}; {1500, ft_String};
    {1501, ft_String}; {1502, ft_int}; {1503, ft_int}; {1504, ft_UTCTimestamp};
    {1617, ft_int}; {0, ft_int} ].

Definition fix50sp2_std_tags : list FIX_Tag :=
  fix50sp2_std_tags_1 ++ fix50sp2_std_tags_2 ++ fix50sp2_std_tags_3 ++ fix50sp2_std_tags_4 ++
  fix50sp2_std_tags_5 ++ fix50sp2_std_tags_6 ++ fix50sp2_std_tags_7 ++ fix50sp2_std_tags_8 ++
  fix50sp2_std_tags_9 ++ fix50sp2_std_tags_10.

Definition fix50sp2_std_data_tags : list FIX_Tag :=
  [ {89, ft_data}; {91, ft_data}; {96, ft_data}; {213, ft_data}; {349, ft_data};
    {351, ft_data}; {353, ft_data}; {355, ft_data}; {357, ft_data}; {359, ft_data};
    {361, ft_data}; {363, ft_data}; {365, ft_data}; {446, ft_data}; {619, ft_data};
    {622, ft_data}; {1278, ft_data}; {1281, ft_data}; {1283, ft_data}; {1398, ft_data};
    {1402, ft_data}; {1404, ft_data}; {1469, ft_data}; {0, ft_int} ].

(** ** [FIXT11.cpp] *)

Definition fixt11_std_tags : list FIX_Tag :=
  [ {7, ft_SeqNum}; {8, ft_String}; {9, ft_Length}; {10, ft_String}; {16, ft_SeqNum};
    {34, ft_SeqNum}; {35, ft_String}; {36, ft_SeqNum}; {43, ft_Boolean}; {45, ft_SeqNum};
    {49, ft_String}; {50, ft_String}; {52, ft_UTCTimestamp}; {56, ft_String};
    {57, ft_String}; {58, ft_String}; {89, ft_data}; {90, ft_Length}; {91, ft_data};
    {93, ft_Length}; {95, ft_Length}; {96, ft_data}; {97, ft_Boolean}; {98, ft_int};
    {108, ft_int}; {112, ft_String}; {115, ft_String}; {116, ft_String};
    {122, ft_UTCTimestamp}; {123, ft_Boolean}; {128, ft_String}; {129, ft_String};
    {141, ft_Boolean}; {142, ft_String}; {143, ft_String}; {144, ft_String};
    {145, ft_String}; {212, ft_Length}; {213, ft_data}; {347, ft_String}; {354, ft_Length};
    {355, ft_data}; {369, ft_SeqNum}; {371, ft_int}; {372, ft_String}; {373, ft_int};
    {383, ft_Length}; {384, ft_NumInGroup}; {385, ft_char}; {464, ft_Boolean};
    {553, ft_String}; {554, ft_String}; {627, ft_NumInGroup}; {628, ft_String};
    {629, ft_UTCTimestamp}; {630, ft_SeqNum}; {789, ft_SeqNum}; {1128, ft_String};
    {1129, ft_String}; {1130, ft_String}; {1131, ft_String}; {1137, ft_String};
    {0, ft_int} ].

Definition fixt11_std_data_tags : list FIX_Tag :=
  [ {89, ft_data}; {91, ft_data}; {96, ft_data}; {213, ft_data}; {355, ft_data};
    {0, ft_int} ].

