(* ===== verification/FixMessageRX.v ===== *)
(** * Received messages: [FIXMessageRX] of [src/applib/fixmsg/fixmsg.h], [fixmsg_rx.cpp]

    An instance reads a message imprinted on it field by field.  The message
    is a byte list, [pos_] and [prev_value_] are offsets into it ([None] is
    the null pointer).  A result [None] of an operation is undefined
    behaviour: a read outside the message or through a null pointer. *)
From S2P Require Import Prelude FixMsgUtils FixTypes FixTags.

(** The members of the class.  [freed_] is the log of the blocks handed to
    [free()], which the source keeps in the allocator. *)
Record FIXMessageRX := mkRX {
  version_ : FIX_Version;
  owns_memory_ : bool;
  rx_soh_ : Z;
  data_tags_ : gset Z;
  tags_ : gmap Z FIX_Type;
  msg_ : option (list Z);
  pos_ : option Z;
  prev_value_ : option Z;
  freed_ : list (list Z) }.

Definition make_fix_message (version : FIX_Version) (owns_memory : bool) (soh : Z) : FIXMessageRX :=
  mkRX version owns_memory soh ∅ ∅ None None None [].

(** The arrays [init] selects; [None] is the default case ([CUSTOM]). *)
Definition version_tags (v : FIX_Version) : option (list FIX_Tag * list FIX_Tag) :=
  match v with
  | FIX_4_0 => Some (fix40_std_tags, fix40_std_data_tags)
  | FIX_4_1 => Some (fix41_std_tags, fix41_std_data_tags)
  | FIX_4_2 => Some (fix42_std_tags, fix42_std_data_tags)
  | FIX_4_3 => Some (fix43_std_tags, fix43_std_data_tags)
  | FIX_4_4 => Some (fix44_std_tags, fix44_std_data_tags)
  | FIX_5_0 => Some (fix50_std_tags, fix50_std_data_tags)
  | FIX_5_0_SP1 => Some (fix50sp1_std_tags, fix50sp1_std_data_tags)
  | FIX_5_0_SP2 => Some (fix50sp2_std_tags, fix50sp2_std_data_tags)
  | FIXT_1_1 => Some (fixt11_std_tags, fixt11_std_data_tags)
  | CUSTOM => None
  end.

(** The two loops of [init]: up to the entry with tag 0; [None] runs off the
    array. *)
Fixpoint insert_tags (ts : list FIX_Tag) (m : gmap Z FIX_Type) : option (gmap Z FIX_Type) :=
  match ts with
  | [] => None
  | t :: ts => if tag_tag t =? 0 then Some m
               else insert_tags ts (<[tag_tag t := tag_type t]> m)
  end.

Fixpoint insert_data_tags (ts : list FIX_Tag) (s : gset Z) : option (gset Z) :=
  match ts with
  | [] => None
  | t :: ts => if tag_tag t =? 0 then Some s else insert_data_tags ts ({[ tag_tag t ]} ∪ s)
  end.

(** [init()]; the [catch] clause (allocation failure of a container) is not
    modelled, so the return value is always 1. *)
Definition init (rx : FIXMessageRX) : option FIXMessageRX :=
  match version_tags (version_ rx) with
  | None => Some (mkRX (version_ rx) (owns_memory_ rx) (rx_soh_ rx) ∅ ∅ (msg_ rx) (pos_ rx)
                       (prev_value_ rx) (freed_ rx))
  | Some (fix_tags, fix_data_tags) =>
      tags ← insert_tags fix_tags ∅;
      data_tags ← insert_data_tags fix_data_tags ∅;
      Some (mkRX (version_ rx) (owns_memory_ rx) (rx_soh_ rx) data_tags tags (msg_ rx) (pos_ rx)
                 (prev_value_ rx) (freed_ rx))
  end.

Definition add_custom_tag (custom_tag : FIX_Tag) (rx : FIXMessageRX) : FIXMessageRX :=
  mkRX (version_ rx) (owns_memory_ rx) (rx_soh_ rx)
    (if decide (tag_type custom_tag = ft_data) then {[ tag_tag custom_tag ]} ∪ data_tags_ rx
     else data_tags_ rx)
    (<[tag_tag custom_tag := tag_type custom_tag]> (tags_ rx))
    (msg_ rx) (pos_ rx) (prev_value_ rx) (freed_ rx).

Definition free_msg (rx : FIXMessageRX) : list (list Z) :=
  if owns_memory_ rx then from_option (λ m, [m]) [] (msg_ rx) ++ freed_ rx else freed_ rx.

Definition imprint (msgtype_offset : Z) (msg : list Z) (rx : FIXMessageRX) : FIXMessageRX :=
  mkRX (version_ rx) (owns_memory_ rx) (rx_soh_ rx) (data_tags_ rx) (tags_ rx)
    (Some msg) (Some (msgtype_offset - 3)) None (free_msg rx).

Definition done_rx (rx : FIXMessageRX) : FIXMessageRX :=
  mkRX (version_ rx) (owns_memory_ rx) (rx_soh_ rx) (data_tags_ rx) (tags_ rx)
    None None None (free_msg rx).

Definition field_contains_data (rx : FIXMessageRX) (tag : Z) : bool := bool_decide (tag ∈ data_tags_ rx).

Definition set_pos (rx : FIXMessageRX) (pos prev : option Z) : FIXMessageRX :=
  mkRX (version_ rx) (owns_memory_ rx) (rx_soh_ rx) (data_tags_ rx) (tags_ rx) (msg_ rx)
    pos prev (freed_ rx).

(** The memory from offset [off] to the end of the message. *)
Definition mem_from (msg : list Z) (off : Z) : option (list Z) :=
  if (0 <=? off) && (off <=? zlen msg) then Some (drop (Z.to_nat off) msg) else None.

(** [while (soh_ != *msg_pos) ++msg_pos]: a [char] against a [uint8_t]; the
    number of bytes skipped. *)
Fixpoint scan_soh (soh : Z) (l : list Z) : option Z :=
  match l with
  | [] => None
  | c :: l => if schar soh =? c then Some 0 else n ← scan_soh soh l; Some (n + 1)
  end.

(** [next_field(length, value)]: the return value, [length], [*value] and the
    new state.  [prev_val] is an [int], so the [long long] that
    [get_fix_length_value] returns is truncated to 32 bits. *)
Definition next_field (length : Z) (value : option Z) (rx : FIXMessageRX)
    : option (Z * Z * option Z * FIXMessageRX) :=
  match pos_ rx with
  | None => Some (0, length, value, rx)
  | Some pos =>
      msg ← msg_ rx;
      str ← mem_from msg pos;
      '(retv, rest) ← get_fix_tag str;
      if retv <=? 0 then Some (-1, length, value, rx)
      else if retv =? 10 then Some (0, length, value, rx)
      else
        let msg_pos := zlen msg - zlen rest in
        if field_contains_data rx retv then
          prev ← prev_value_ rx;
          pstr ← mem_from msg prev;
          lv ← get_fix_length_value (rx_soh_ rx) pstr;
          let prev_val := sint 32 lv in
          if prev_val <? 0 then Some (-1, length, Some msg_pos, set_pos rx (Some pos) (Some msg_pos))
          else Some (retv, prev_val, Some msg_pos,
                     set_pos rx (Some (msg_pos + prev_val + 1)) (Some msg_pos))
        else
          n ← scan_soh (rx_soh_ rx) rest;
          Some (retv, n, Some msg_pos, set_pos rx (Some (msg_pos + n + 1)) (Some msg_pos))
  end.

(** ** Traversal

    The client's loop: [next_field] until it returns 0 or less, collecting
    the tags and the bytes of the values; [fuel] bounds the number of calls. *)
Fixpoint read_fields (fuel : nat) (rx : FIXMessageRX)
    : option (list (Z * list Z) * Z * FIXMessageRX) :=
  match fuel with
  | O => None
  | S fuel =>
      '(retv, len, value, rx) ← next_field 0 None rx;
      if retv <=? 0 then Some ([], retv, rx)
      else
        off ← value;
        msg ← msg_ rx;
        v ← read_at msg off len;
        '(fs, retv', rx) ← read_fields fuel rx;
        Some ((retv, v) :: fs, retv', rx)
  end.

(** What makes a list of fields readable back: tags in range and not 10; a
    value free of SOH, or, for a data field, preceded by a field whose value
    is its length.  [prev] is the value of the field before the list. *)
Fixpoint readable (soh : Z) (data : gset Z) (prev : option (list Z)) (fs : list (Z * list Z)) : Prop :=
  match fs with
  | [] => True
  | (t, v) :: fs =>
      0 < t < 10 * (MAX_TAG__ + 1) ∧ t ≠ 10 ∧
      (if decide (t ∈ data)
       then ∃ d, prev = Some d ∧ digits d ∧ d ≠ [] ∧ dval d = zlen v ∧ zlen v < 2 ^ 31
       else Forall (λ c, c ≠ soh) v) ∧
      readable soh data (Some v) fs
  end.

(** A terminator the code compares consistently as [char] and [uint8_t]. *)
Definition soh_ok (soh : Z) : Prop := 0 ≤ soh < 128 ∧ isdigit soh = false.

Lemma scan_soh_app soh v rest :
  0 ≤ soh < 128 → Forall (λ c, c ≠ soh) v → scan_soh soh (v ++ soh :: rest) = Some (zlen v).
Proof.
  intros Hs. induction 1 as [|c v Hc _ IH]; cbn [app scan_soh].
  - rewrite schar_small by done. by rewrite Z.eqb_refl.
  - rewrite schar_small in * by done. bsolve. rewrite IH. obind. f_equal. llia.
Qed.

Lemma mem_from_app a b : mem_from (a ++ b) (zlen a) = Some b.
Proof. unfold mem_from. bsolve. by rewrite Nat2Z.id, drop_app_length. Qed.

(** The field before the current position, where [prev_value_] points. *)
Definition prev_at (rx : FIXMessageRX) (msg : list Z) (prev : option (list Z)) : Prop :=
  ∀ d, prev = Some d → ∃ a l, prev_value_ rx = Some (zlen a) ∧ msg = a ++ d ++ rx_soh_ rx :: l.

Lemma next_field_reads rx len0 val0 a t v rest prev :
  soh_ok (rx_soh_ rx) →
  msg_ rx = Some (a ++ wire_field (rx_soh_ rx) (t, v) ++ rest) → pos_ rx = Some (zlen a) →
  prev_at rx (a ++ wire_field (rx_soh_ rx) (t, v) ++ rest) prev →
  readable (rx_soh_ rx) (data_tags_ rx) prev [(t, v)] →
  let b := a ++ dec t ++ [ch_eq] in
  next_field len0 val0 rx
  = Some (t, zlen v, Some (zlen b),
          set_pos rx (Some (zlen (a ++ wire_field (rx_soh_ rx) (t, v)))) (Some (zlen b))).
Proof.
  intros [Hs Hsd] Hmsg Hpos Hprev (Ht & Ht10 & Hv & _) b. unfold next_field. rewrite Hpos, Hmsg. obind.
  rewrite mem_from_app. obind. unfold wire_field in *. cbn [fst snd] in *.
  rewrite <- !app_assoc, <- !app_comm_cons, <- !app_assoc in *.
  rewrite get_fix_tag_dec by done. obind. bsolve.
  assert (Hb : zlen (a ++ dec t ++ ch_eq :: v ++ [rx_soh_ rx] ++ rest)
               - zlen (v ++ [rx_soh_ rx] ++ rest) = zlen b) by (unfold b; llia).
  assert (Hend : zlen b + zlen v + 1 = zlen (a ++ dec t ++ ch_eq :: v ++ [rx_soh_ rx]))
    by (unfold b; llia).
  rewrite Hb. unfold field_contains_data. case_decide as Hd.
  - rewrite bool_decide_eq_true_2 by done. destruct Hv as (d & -> & Hdig & Hne & Hval & Hmax).
    destruct (Hprev d eq_refl) as (a' & l & -> & ->). obind. rewrite mem_from_app. obind.
    rewrite get_fix_length_value_digits; [|unfold is_byte; lia|done..|].
    2: { rewrite Hval. unfold MAX_LENGTH__, LLONG_MAX. change (10 * _) with (9223372036854775800). lia. }
    obind. rewrite Hval, sint_small by lia. bsolve. by rewrite Hend.
  - rewrite bool_decide_eq_false_2 by done.
    change ([rx_soh_ rx] ++ rest) with (rx_soh_ rx :: rest). rewrite scan_soh_app by done. obind. by rewrite Hend.
Qed.

Lemma next_field_end rx len0 val0 a rest :
  msg_ rx = Some (a ++ bytes_of_string "10=" ++ rest) → pos_ rx = Some (zlen a) →
  next_field len0 val0 rx = Some (0, len0, val0, rx).
Proof.
  intros Hmsg Hpos. unfold next_field. rewrite Hpos, Hmsg. obind. rewrite mem_from_app. obind.
  change (bytes_of_string "10=" ++ rest) with (dec 10 ++ ch_eq :: rest).
  rewrite get_fix_tag_dec by (vm_compute; done). done.
Qed.

Lemma set_pos_soh rx p q : rx_soh_ (set_pos rx p q) = rx_soh_ rx.
Proof. done. Qed.

Lemma read_fields_wire fs : ∀ fuel rx a prev rest,
  (length fs < fuel)%nat → soh_ok (rx_soh_ rx) →
  let msg := a ++ wire_fields (rx_soh_ rx) fs ++ bytes_of_string "10=" ++ rest in
  msg_ rx = Some msg → pos_ rx = Some (zlen a) → prev_at rx msg prev →
  readable (rx_soh_ rx) (data_tags_ rx) prev fs →
  ∃ rx', read_fields fuel rx = Some (fs, 0, rx') ∧ msg_ rx' = Some msg.
Proof.
  induction fs as [|[t v] fs IH]; intros fuel rx a prev rest Hf Hs msg Hmsg Hpos Hprev Hr;
    (destruct fuel as [|fuel]; [simpl in Hf; lia|]); cbn [read_fields].
  - rewrite (next_field_end rx 0 None a rest) by done. obind. bsolve. eauto.
  - unfold msg, wire_fields in *. cbn [fmap list_fmap concat] in *.
    rewrite <- (app_assoc (wire_field _ _)) in *. destruct Hr as (Ht & Ht10 & Hv & Hr).
    rewrite (next_field_reads _ _ _ a t v _ prev) by done. obind. bsolve.
    set (b := a ++ dec t ++ [ch_eq]). set (rx1 := set_pos rx _ _).
    assert (Hsplit : ∀ x, a ++ wire_field (rx_soh_ rx) (t, v) ++ x = b ++ v ++ rx_soh_ rx :: x).
    { intros x. unfold b, wire_field. cbn [fst snd]. by app_norm. }
    assert (Hread : msg_ rx1 = msg_ rx) by done. rewrite Hread, Hmsg. obind.
    assert (Hrd : ∀ x, read_at (a ++ wire_field (rx_soh_ rx) (t, v) ++ x) (zlen b) (zlen v) = Some v)
      by (intros x; rewrite Hsplit; by apply read_at_mid).
    rewrite Hrd. obind.
    edestruct (IH fuel rx1 (a ++ wire_field (rx_soh_ rx) (t, v)) (Some v) rest) as (rx' & -> & Hm').
    + simpl in Hf. lia.
    + done.
    + rewrite Hread, Hmsg, <- !app_assoc. done.
    + done.
    + intros d [= <-]. exists b. eexists. split; [done|]. rewrite <- app_assoc, Hsplit. done.
    + done.
    + obind. exists rx'. split; [done|]. by rewrite Hm', <- app_assoc.
Qed.

(** ** The tag tables *)

(** The set of data tags and the map of types say the same. *)
Definition data_tags_consistent (rx : FIXMessageRX) : Prop :=
  ∀ t, t ∈ data_tags_ rx ↔ tags_ rx !! t = Some ft_data.

(** The entries before the terminator. *)
Definition real_tags (ts : list FIX_Tag) : list FIX_Tag := filter (λ t, tag_tag t ≠ 0) ts.

(** The form of the arrays: the terminator is last, no tag occurs twice, and
    the data array lists exactly the [ft_data] entries. *)
Definition tables_ok (p : list FIX_Tag * list FIX_Tag) : Prop :=
  p.1 = real_tags p.1 ++ [mk_tag 0 ft_int] ∧ p.2 = real_tags p.2 ++ [mk_tag 0 ft_int] ∧
  NoDup (tag_tag <$> real_tags p.1) ∧
  real_tags p.2 = filter (λ t, tag_type t = ft_data) (real_tags p.1).

#[global] Instance tables_ok_dec p : Decision (tables_ok p).
Proof. unfold tables_ok. apply _. Defined.

Lemma version_tables_ok v p : version_tags v = Some p → tables_ok p.
Proof.
  destruct v; intros [= <-]; apply (bool_decide_unpack _); vm_compute; reflexivity.
Qed.

Lemma insert_tags_app ts m :
  Forall (λ t, tag_tag t ≠ 0) ts →
  insert_tags (ts ++ [mk_tag 0 ft_int]) m
  = Some (foldl (λ m t, <[tag_tag t := tag_type t]> m) m ts).
Proof.
  intros H. revert m. induction H as [|t ts Ht _ IH]; intros m; cbn [app insert_tags foldl tag_tag].
  - done.
  - rewrite (proj2 (Z.eqb_neq _ 0)) by done. apply IH.
Qed.

Lemma insert_data_tags_app ts s :
  Forall (λ t, tag_tag t ≠ 0) ts →
  insert_data_tags (ts ++ [mk_tag 0 ft_int]) s = Some (list_to_set (tag_tag <$> ts) ∪ s).
Proof.
  intros H. revert s. induction H as [|t ts Ht _ IH]; intros s; cbn [app insert_data_tags].
  - cbn [tag_tag fmap list_fmap list_to_set]. f_equal. set_solver.
  - rewrite (proj2 (Z.eqb_neq _ 0)) by done. rewrite IH. cbn [fmap list_fmap list_to_set].
    f_equal. set_solver.
Qed.

Lemma insert_fold_lookup ts : ∀ (m : gmap Z FIX_Type) t ty,
  NoDup (tag_tag <$> ts) → (∀ x, x ∈ ts → m !! tag_tag x = None) →
  foldl (λ m t, <[tag_tag t := tag_type t]> m) m ts !! t = Some ty
  ↔ m !! t = Some ty ∨ mk_tag t ty ∈ ts.
Proof.
  induction ts as [|x ts IH]; intros m t ty Hnd Hm; cbn [foldl].
  - split; [by left|]. by intros [?|?%elem_of_nil].
  - cbn [fmap list_fmap] in Hnd. apply NoDup_cons in Hnd as [Hx Hnd].
    rewrite IH; [|done|].
    + rewrite elem_of_cons. destruct (decide (tag_tag x = t)) as [<-|Hne].
      * rewrite lookup_insert_eq. specialize (Hm x ltac:(left)). rewrite Hm.
        destruct x as [n u]. cbn [tag_tag tag_type]. split; [|naive_solver].
        intros [[= ->]|?]; [by right; left | naive_solver].
      * rewrite lookup_insert_ne by done. destruct x as [n u]. cbn [tag_tag] in *. naive_solver.
    + intros y Hy. rewrite lookup_insert_ne; [apply Hm; by right|].
      intros E. apply Hx. rewrite E. by apply list_elem_of_fmap_2.
Qed.

Lemma real_tags_nonzero ts : Forall (λ t, tag_tag t ≠ 0) (real_tags ts).
Proof. apply Forall_forall. intros t [? _]%list_elem_of_filter. done. Qed.

(** ** Properties *)

(** for every version [init] runs to the terminators of its tables,
    replaces both containers, and leaves a tag in the data set exactly when
    its standard type is [ft_data]. *)
Theorem init_data_tags rx :
  ∃ rx', init rx = Some rx' ∧ data_tags_consistent rx' ∧
         (∀ p t ty, version_tags (version_ rx) = Some p → t ≠ 0 →
            tags_ rx' !! t = Some ty ↔ mk_tag t ty ∈ p.1) ∧
         msg_ rx' = msg_ rx ∧ pos_ rx' = pos_ rx ∧ prev_value_ rx' = prev_value_ rx.
Proof.
  unfold init. destruct (version_tags (version_ rx)) as [[std dat]|] eqn:Ev.
  - destruct (version_tables_ok _ _ Ev) as (E1 & E2 & Hnd & E3). cbn [fst snd] in *.
    rewrite E1, E2, insert_tags_app, insert_data_tags_app by apply real_tags_nonzero. obind.
    eexists. split; [done|].
    assert (Hl : ∀ t ty, foldl (λ m t, <[tag_tag t := tag_type t]> m) (∅ : gmap Z FIX_Type)
      (real_tags std) !! t = Some ty ↔ mk_tag t ty ∈ real_tags std).
    { intros t ty. rewrite insert_fold_lookup by done. rewrite lookup_empty. naive_solver. }
    split; [|split; [|done]].
    + intros t. cbn [data_tags_ tags_]. rewrite Hl, union_empty_r_L, elem_of_list_to_set, E3.
      rewrite list_elem_of_fmap. split.
      * intros ([n ty] & -> & [? ?]%list_elem_of_filter). cbn [tag_tag tag_type] in *. by subst ty.
      * intros Ht. exists (mk_tag t ft_data). split; [done|]. by apply list_elem_of_filter.
    + intros p t ty [= <-] Ht. cbn [tags_ fst]. rewrite Hl, elem_of_app, list_elem_of_singleton.
      split; [by left|]. intros [?|[= -> _]]; done.
  - eexists. split; [done|]. split; [|by split].
    intros t. cbn [data_tags_ tags_]. rewrite lookup_empty. set_solver.
Qed.

(** [add_custom_tag] keeps the data set and the type map in agreement
    except when it retypes a data tag to another type: the tag then stays in
    [data_tags_], and [next_field] goes on treating it as a data field,
    although custom tags are documented to overwrite standard ones. *)
Theorem add_custom_tag_consistent ct rx :
  data_tags_consistent rx →
  data_tags_consistent (add_custom_tag ct rx)
  ↔ (tags_ rx !! tag_tag ct = Some ft_data → tag_type ct = ft_data).
Proof.
  intros Hc. unfold data_tags_consistent, add_custom_tag in *. cbn [data_tags_ tags_].
  destruct ct as [n ty]. cbn [tag_tag tag_type]. split.
  - intros H Hold. apply Hc in Hold. specialize (H n). rewrite lookup_insert_eq in H.
    case_decide; [done|]. apply H in Hold. congruence.
  - intros H t. destruct (decide (n = t)) as [<-|Hne].
    + rewrite lookup_insert_eq. case_decide as E; [rewrite E; set_solver|].
      rewrite Hc. split; [|congruence]. intros ?%H. done.
    + rewrite lookup_insert_ne by done. rewrite <- Hc. case_decide; set_solver.
Qed.

Lemma add_custom_tag_consistent_witness :
  ¬ data_tags_consistent (add_custom_tag (mk_tag 96 ft_String)
      (add_custom_tag (mk_tag 96 ft_data) (make_fix_message FIX_4_4 true 1))).
Proof.
  rewrite (add_custom_tag_consistent (mk_tag 96 ft_String)
    (add_custom_tag (mk_tag 96 ft_data) (make_fix_message FIX_4_4 true 1))).
  - intros H. specialize (H eq_refl). discriminate H.
  - intros t. unfold add_custom_tag, make_fix_message. cbn [data_tags_ tags_ tag_tag tag_type].
    rewrite decide_True by done. destruct (decide (96 = t)) as [<-|Hne].
    + rewrite lookup_insert_eq. set_solver.
    + rewrite lookup_insert_ne, lookup_empty by done. set_solver.
Defined.

(** C13: traversing an imprinted message with [next_field] returns exactly
    the fields it was written from, in order, data fields with embedded SOH
    bytes included, and 0 at the checksum tag; no call fails or reads outside
    the message.  [length fs + 1] calls are enough. *)
Theorem next_field_traversal rx a fs rest :
  soh_ok (rx_soh_ rx) → readable (rx_soh_ rx) (data_tags_ rx) None fs →
  let msg := a ++ wire_fields (rx_soh_ rx) fs ++ bytes_of_string "10=" ++ rest in
  ∃ rx', read_fields (S (length fs)) (imprint (zlen a + 3) msg rx) = Some (fs, 0, rx') ∧
         msg_ rx' = Some msg.
Proof.
  intros Hs Hr msg. apply (read_fields_wire fs (S (length fs)) (imprint (zlen a + 3) msg rx) a None).
  - lia.
  - done.
  - done.
  - cbn [imprint pos_]. f_equal. lia.
  - done.
  - done.
Qed.

Lemma next_field_traversal_witness :
  let rx := add_custom_tag (mk_tag 96 ft_data) (make_fix_message CUSTOM true 1) in
  let fs := [(35, bytes_of_string "B"); (95, bytes_of_string "3"); (96, [65; 1; 66])] in
  let msg := bytes_of_string "8=F" ++ wire_fields 1 fs ++ bytes_of_string "10=" ++ [7] in
  ∃ rx', read_fields 4 (imprint 6 msg rx) = Some (fs, 0, rx') ∧ msg_ rx' = Some msg.
Proof.
  intros rx fs. apply (next_field_traversal rx (bytes_of_string "8=F") fs [7]).
  - split; [cbn; lia | reflexivity].
  - change (data_tags_ rx) with ({[96]} ∪ ∅ : gset Z). change (rx_soh_ rx) with 1.
    assert (Hs : ∀ v, forallb (λ c, negb (c =? 1)) v = true → Forall (λ c, c ≠ 1) v).
    { intros v Hv. apply Forall_forall. intros c Hc%list_elem_of_In.
      rewrite forallb_forall in Hv. specialize (Hv c Hc). bool_hyps. done. }
    cbn [readable fs]. rewrite (decide_False (P := 35 ∈ _)), (decide_False (P := 95 ∈ _)),
      (decide_True (P := 96 ∈ _)) by set_solver.
    split; [vm_compute; done|]. split; [done|]. split; [by apply Hs|].
    split; [vm_compute; done|]. split; [done|]. split; [by apply Hs|].
    split; [vm_compute; done|]. split; [done|]. split; [|done].
    exists (bytes_of_string "3"). repeat split; try done. by repeat constructor.
Defined.

(** on a data field the length handed to the caller is the value of the
    preceding field truncated to a signed 32 bit [int], and -1 when that is
    negative: a claimed length of [2^32 + n] is accepted as [n]. *)
Theorem next_field_data_length rx len0 val0 a t v rest p d l :
  soh_ok (rx_soh_ rx) → 0 < t < 10 * (MAX_TAG__ + 1) → t ≠ 10 → t ∈ data_tags_ rx →
  digits d → d ≠ [] → dval d < 10 * (MAX_LENGTH__ + 1) →
  msg_ rx = Some (a ++ dec t ++ ch_eq :: v ++ rest) → pos_ rx = Some (zlen a) →
  prev_value_ rx = Some (zlen p) → a ++ dec t ++ ch_eq :: v ++ rest = p ++ d ++ rx_soh_ rx :: l →
  let n := sint 32 (dval d) in
  ∃ rx', next_field len0 val0 rx
    = Some (if n <? 0 then -1 else t, if n <? 0 then len0 else n,
            Some (zlen (a ++ dec t ++ [ch_eq])), rx').
Proof.
  intros [Hs Hsd] Ht Ht10 Hdata Hdig Hne Hmax Hmsg Hpos Hprev Heq n.
  unfold next_field. rewrite Hpos, Hmsg. obind. rewrite mem_from_app. obind.
  rewrite get_fix_tag_dec by done. obind. bsolve.
  unfold field_contains_data. rewrite bool_decide_eq_true_2 by done. rewrite Hprev. obind.
  assert (Hmem : mem_from (a ++ dec t ++ ch_eq :: v ++ rest) (zlen p) = Some (d ++ rx_soh_ rx :: l))
    by (rewrite Heq; apply mem_from_app).
  rewrite Hmem. obind.
  rewrite get_fix_length_value_digits by (done || unfold is_byte; lia). obind. fold n.
  replace (zlen (a ++ dec t ++ ch_eq :: v ++ rest) - zlen (v ++ rest))
    with (zlen (a ++ dec t ++ [ch_eq])) by llia.
  destruct (n <? 0); eauto.
Qed.

Lemma next_field_data_length_witness :
  let msg := bytes_of_string "95=4294967298" ++ [1] ++ bytes_of_string "96=ab" ++ [1] in
  let rx := mkRX CUSTOM false 1 {[96]} ∅ (Some msg) (Some 14) (Some 3) [] in
  ∃ rx', next_field 0 None rx = Some (96, 2, Some 17, rx').
Proof.
  intros msg rx.
  apply (next_field_data_length rx 0 None (bytes_of_string "95=4294967298" ++ [1]) 96
    (bytes_of_string "ab") [1] (bytes_of_string "95=") (bytes_of_string "4294967298")
    (bytes_of_string "96=ab" ++ [1])); try done.
  by repeat constructor.
Defined.

(** *** Ownership of the message memory *)

Inductive rx_op : Set := Imprint (msgtype_offset : Z) (msg : list Z) | Done.

Definition rx_step (rx : FIXMessageRX) (op : rx_op) : FIXMessageRX :=
  match op with Imprint off msg => imprint off msg rx | Done => done_rx rx end.

Definition imprinted (ops : list rx_op) : list (list Z) :=
  foldl (λ l op, match op with Imprint _ msg => msg :: l | Done => l end) [] ops.

Lemma rx_step_owner rx op :
  owns_memory_ (rx_step rx op) = owns_memory_ rx.
Proof. by destruct op. Qed.

(** an owning instance frees every message imprinted on it exactly once
    (the last one still held is freed by the destructor, which frees [msg_]);
    an instance on provided memory frees nothing. *)
Theorem rx_frees_each_message_once v soh ops :
  free_msg (foldl rx_step (make_fix_message v true soh) ops) = imprinted ops ∧
  free_msg (foldl rx_step (make_fix_message v false soh) ops) = [].
Proof.
  assert (Ho : ∀ own ops, owns_memory_ (foldl rx_step (make_fix_message v own soh) ops) = own).
  { intros own l. induction l as [|op l IH] using rev_ind; [done|].
    rewrite foldl_app. cbn [foldl]. by rewrite rx_step_owner. }
  induction ops as [|op ops [IH1 IH2]] using rev_ind; [done|].
  unfold imprinted in *. rewrite !foldl_app. cbn [foldl].
  unfold free_msg in IH2 |- *. unfold free_msg in IH1. rewrite !rx_step_owner, !Ho in *.
  destruct op; cbn [rx_step imprint done_rx freed_ msg_ from_option app]; unfold free_msg;
    rewrite !Ho; rewrite IH1, IH2; done.
Qed.
