(* ===== verification/FixMessageTX.v ===== *)
(** * Messages to send: [FIXMessageTX] of [src/applib/fixmsg/fixmsg.h], [fixmsg_tx.cpp]

    An instance collects fields in a heap block, which [append_field] grows,
    and hands the block to a pusher with [expose].  The class members are the
    record [FIXMessageTX]; [malloc] and [realloc] are oracles (the C library
    may fail, and may move a block), called in order, [allocs_] counts the
    calls.  [None] is undefined behaviour: a write outside the block, through
    a null pointer, or through a pointer into a block that was moved. *)
From S2P Require Import Prelude FixMsgUtils FixTypes.

Definition INITIAL_TX_BUFFER_SIZE : Z := 2048.

(** Where [pos_] points: nowhere, into [buf_], or into a block since freed. *)
Inductive ptr : Set := Null | At (off : Z) | Dangling.

Record FIXMessageTX := mkTX {
  soh_ : Z;
  ttl_ : Z * Z;
  msg_type_ : list Z;
  buf_size_ : Z;
  length_ : Z;
  sending_time_appended_ : bool;
  buf_ : option (list Z);
  pos_ : ptr;
  allocs_ : nat }.

(** [PartialMessage] of [db_utils.h]. *)
Record PartialMessage := mkPartial {
  pm_length : Z;
  pm_msg_type : list Z;
  pm_part_msg : list Z;
  pm_ttl : Z * Z }.

(** The [for] loop doubles [i] from 1 while it is below 64. *)
Fixpoint smear_loop (fuel : nat) (i k : Z) : Z :=
  match fuel with
  | O => k
  | S fuel => if i <? 64 then smear_loop fuel (u64 (Z.shiftl i 1)) (Z.lor k (Z.shiftr k i)) else k
  end.

Definition next_power_of_two (k : Z) : Z :=
  if k =? 0 then 1 else u64 (smear_loop 7 1 (k - 1) + 1).

(** [strnstr] (BSD libc): the first [len] bytes of [big], up to a NUL,
    contain the string [little]. *)
Fixpoint until_nul (l : list Z) : list Z :=
  match l with [] => [] | c :: l => if c =? 0 then [] else c :: until_nul l end.

Fixpoint prefixb (p l : list Z) : bool :=
  match p, l with
  | [], _ => true
  | a :: p, b :: l => (a =? b) && prefixb p l
  | _ :: _, [] => false
  end.

Fixpoint infixb (p l : list Z) : bool :=
  prefixb p l || match l with [] => false | _ :: l => infixb p l end.

Definition strnstr (big little : list Z) (len : Z) : bool :=
  infixb (until_nul little) (until_nul (take (Z.to_nat len) big)).

Section TX.
Context (CACHE_LINE_SIZE : Z) (malloc : nat → Z → option (list Z))
        (realloc : nat → Z → option (bool * list Z)).

Definition MAX_MSGTYPE_LENGTH : Z := CACHE_LINE_SIZE.

(** The constructor; [msg_type_{'\0'}] zero fills the array. *)
Definition make_tx (soh : Z) : FIXMessageTX :=
  mkTX soh (0, 0) (replicate (Z.to_nat MAX_MSGTYPE_LENGTH) 0) 0 0 false None Null 0.

Definition set_char0 (l : list Z) : list Z := match l with [] => [] | _ :: l => 0 :: l end.

(** [init()]: the return value and the new state. *)
Definition init (tx : FIXMessageTX) : option (Z * FIXMessageTX) :=
  let mt := set_char0 (msg_type_ tx) in
  match malloc (allocs_ tx) INITIAL_TX_BUFFER_SIZE with
  | None => Some (0, mkTX (soh_ tx) (0, 0) mt (buf_size_ tx) (length_ tx) false None Null
                          (S (allocs_ tx)))
  | Some block =>
      block ← write_at block 0 [soh_ tx];
      Some (1, mkTX (soh_ tx) (0, 0) mt INITIAL_TX_BUFFER_SIZE 1 false (Some block) (At 1)
                    (S (allocs_ tx)))
  end.

Definition set_sending (tx : FIXMessageTX) : FIXMessageTX :=
  mkTX (soh_ tx) (ttl_ tx) (msg_type_ tx) (buf_size_ tx) (length_ tx) true (buf_ tx) (pos_ tx)
       (allocs_ tx).

(** A successful [realloc] to [size] bytes: the old contents, then what the
    new block holds; [pos_] survives only when the block was not moved. *)
Definition regrown (old : list Z) (size : Z) (fill : list Z) : list Z :=
  take (Z.to_nat size) (old ++ drop (length old) fill).

Definition set_buf (tx : FIXMessageTX) (size : Z) (buf : list Z) (pos : ptr) : FIXMessageTX :=
  mkTX (soh_ tx) (ttl_ tx) (msg_type_ tx) size (length_ tx) (sending_time_appended_ tx)
       (Some buf) pos (S (allocs_ tx)).

(** [goto again], at most [fuel] times; [start] is the value [pos_] had on
    entry. *)
Fixpoint append_again (fuel : nat) (start : ptr) (tag : Z) (value : list Z) (tx : FIXMessageTX)
    : option (Z * FIXMessageTX) :=
  if u64 (25 + zlen value) <=? buf_size_ tx then
    match buf_ tx, pos_ tx, start with
    | Some buf, At pos, At start =>
        '(buf, pos) ← uint_to_str ch_eq tag buf pos;
        let pos := pos + 1 in
        buf ← write_at buf pos value;
        let pos := pos + zlen value in
        buf ← write_at buf pos [soh_ tx];
        let pos := pos + 1 in
        Some (1, mkTX (soh_ tx) (ttl_ tx) (msg_type_ tx) (buf_size_ tx)
                      (u64 (length_ tx + (pos - start))) (sending_time_appended_ tx)
                      (Some buf) (At pos) (allocs_ tx))
    | _, _, _ => None
    end
  else
    match fuel with
    | O => None
    | S fuel =>
        if negb (buf_size_ tx =? 0) then
          old ← buf_ tx;
          let size := u64 (2 * buf_size_ tx) in
          match realloc (allocs_ tx) size with
          | None => Some (0, mkTX (soh_ tx) (ttl_ tx) (msg_type_ tx) (buf_size_ tx) (length_ tx)
                                  (sending_time_appended_ tx) (buf_ tx) (pos_ tx) (S (allocs_ tx)))
          | Some (moved, fill) =>
              append_again fuel start tag value
                (set_buf tx size (regrown old size fill)
                   (if (moved : bool) then Dangling else pos_ tx))
          end
        else
          '(r, tx) ← init tx;
          if r =? 0 then Some (0, tx) else append_again fuel start tag value tx
    end.

(** [append_field(tag, length, value)]: [value] is the [length] bytes. *)
Definition append_field (tag : Z) (value : list Z) (tx : FIXMessageTX)
    : option (Z * FIXMessageTX) :=
  let tx := if tag =? 52 then set_sending tx else tx in
  if negb (tag =? 35) then append_again 64 (pos_ tx) tag value tx
  else if zlen value <? MAX_MSGTYPE_LENGTH then
    mt ← write_at (msg_type_ tx) 0 value;
    mt ← write_at mt (zlen value) [0];
    Some (1, mkTX (soh_ tx) (ttl_ tx) mt (buf_size_ tx) (length_ tx) (sending_time_appended_ tx)
                  (buf_ tx) (pos_ tx) (allocs_ tx))
  else Some (0, tx).

Definition set_time_to_live (seconds micro_seconds : Z) (tx : FIXMessageTX) : FIXMessageTX :=
  mkTX (soh_ tx) (seconds, micro_seconds) (msg_type_ tx) (buf_size_ tx) (length_ tx)
       (sending_time_appended_ tx) (buf_ tx) (pos_ tx) (allocs_ tx).

(** What [expose] hands out: [*ttl], [len], the block [*data] points to and
    the array [*msg_type] points to. *)
Record exposed := mkExposed {
  ex_ttl : Z * Z; ex_len : Z; ex_data : list Z; ex_msg_type : list Z }.

Definition expose (tx : FIXMessageTX) : option (option exposed * FIXMessageTX) :=
  c ← msg_type_ tx !! 0%nat;
  if negb (c =? 0) && sending_time_appended_ tx then
    match buf_ tx, pos_ tx with
    | Some buf, At pos =>
        buf ← write_at buf pos [49];
        buf ← write_at buf (pos + 1) [48];
        buf ← write_at buf (pos + 2) [61];
        Some (Some (mkExposed (ttl_ tx) (u64 (length_ tx + 3)) buf (msg_type_ tx)),
              mkTX (soh_ tx) (ttl_ tx) (msg_type_ tx) (buf_size_ tx) 1 false (Some buf) (At 1)
                   (allocs_ tx))
    | _, _ => None
    end
  else Some (None, tx).

(** The part of [clone_from] after the block is large enough. *)
Definition clone_copy (pmsg : PartialMessage) (tx : FIXMessageTX) : option (Z * FIXMessageTX) :=
  let len := u32 (pm_length pmsg - 3) in
  buf ← buf_ tx;
  data ← read_at (pm_part_msg pmsg) 0 len;
  buf ← write_at buf 0 data;
  mt ← cstr (pm_msg_type pmsg);
  let tx := mkTX (soh_ tx) (ttl_ tx) (msg_type_ tx) (buf_size_ tx) len
              (sending_time_appended_ tx) (Some buf) (At len) (allocs_ tx) in
  if zlen mt <? MAX_MSGTYPE_LENGTH then
    mtb ← write_at (msg_type_ tx) 0 mt;
    mtb ← write_at mtb (zlen mt) [0];
    let st := [soh_ tx; 53; 50; 61; 0] in
    Some (1, mkTX (soh_ tx) (pm_ttl pmsg) mtb (buf_size_ tx) len
                  (strnstr (pm_part_msg pmsg) st len) (Some buf) (At len) (allocs_ tx))
  else '(_, tx) ← init tx; Some (0, tx).

Definition clone_from (pmsg : option PartialMessage) (tx : FIXMessageTX)
    : option (Z * FIXMessageTX) :=
  match pmsg with
  | None => '(_, tx) ← init tx; Some (1, set_time_to_live 0 0 tx)
  | Some pmsg =>
      if pm_length pmsg =? 0 then
        '(_, tx) ← init tx;
        Some (1, set_time_to_live (pm_ttl pmsg).1 (pm_ttl pmsg).2 tx)
      else if buf_size_ tx <? pm_length pmsg then
        let size := next_power_of_two (pm_length pmsg) in
        match realloc (allocs_ tx) size with
        | None =>
            '(_, tx) ← init (mkTX (soh_ tx) (ttl_ tx) (msg_type_ tx) size (length_ tx)
                               (sending_time_appended_ tx) (buf_ tx) (pos_ tx) (S (allocs_ tx)));
            Some (0, tx)
        | Some (moved, fill) =>
            let old := default [] (buf_ tx) in
            clone_copy pmsg (set_buf tx size (regrown old size fill)
                               (if (moved : bool) then Dangling else pos_ tx))
        end
      else clone_copy pmsg tx
  end.
End TX.

(** ** [next_power_of_two] *)

(** [smeared m k n]: some bit of [k] among the [m] bits from [n] upwards is set. *)
Definition smeared (m k n : Z) : Prop := ∃ d, 0 ≤ d < m ∧ Z.testbit k (n + d) = true.

Lemma smear_step m k k0 n :
  0 < m → 0 ≤ n → (∀ n, 0 ≤ n → Z.testbit k n = true ↔ smeared m k0 n) →
  Z.testbit (Z.lor k (Z.shiftr k m)) n = true ↔ smeared (2 * m) k0 n.
Proof.
  intros Hm Hn Hk. rewrite Z.lor_spec, orb_true_iff, Z.shiftr_spec, !Hk by lia. split.
  - intros [(d & ? & Hd)|(d & ? & Hd)]; [exists d | exists (m + d)]; (split; [lia|]); [done|].
    by rewrite Z.add_assoc.
  - intros (d & ? & Hd). destruct (decide (d < m)); [left; exists d; split; [lia | done]|].
    right. exists (d - m). split; [lia|]. by replace (n + m + (d - m)) with (n + d) by lia.
Qed.

Lemma smear_loop_64 k n : 0 ≤ n → Z.testbit (smear_loop 7 1 k) n = true ↔ smeared 64 k n.
Proof.
  intros Hn. assert (H1 : ∀ n, 0 ≤ n → Z.testbit k n = true ↔ smeared 1 k n).
  { intros x Hx. split; [intros; exists 0; rewrite Z.add_0_r; split; [lia | done]|].
    intros (d & ? & Hd). by replace (x + d) with x in Hd by lia. }
  change (smear_loop 7 1 k) with
    (let k := Z.lor k (Z.shiftr k 1) in let k := Z.lor k (Z.shiftr k 2) in
     let k := Z.lor k (Z.shiftr k 4) in let k := Z.lor k (Z.shiftr k 8) in
     let k := Z.lor k (Z.shiftr k 16) in Z.lor k (Z.shiftr k 32)).
  cbv zeta.
  apply (smear_step 32); [lia | done |]. intros. apply (smear_step 16); [lia | done |]. intros.
  apply (smear_step 8); [lia | done |]. intros. apply (smear_step 4); [lia | done |]. intros.
  apply (smear_step 2); [lia | done |]. intros. apply (smear_step 1); [lia | done | done].
Qed.

Lemma smear_loop_ones k : 0 < k < 2 ^ 64 → smear_loop 7 1 k = Z.ones (Z.log2 k + 1).
Proof.
  intros Hk. apply Z.bits_inj'. intros n Hn. apply eq_bool_prop_intro.
  assert (Hlog : Z.log2 k < 64) by (apply Z.log2_lt_pow2; lia).
  pose proof (Z.log2_nonneg k).
  rewrite !Is_true_true, smear_loop_64, Z.ones_spec_iff by lia. split.
  - intros (d & Hd & Hb). destruct (Z.le_gt_cases (n + d) (Z.log2 k)); [lia|].
    rewrite Z.bits_above_log2 in Hb by lia. done.
  - intros Hl. exists (Z.log2 k - n). split; [lia|].
    replace (n + (Z.log2 k - n)) with (Z.log2 k) by lia. apply Z.bit_log2. lia.
Qed.

Lemma next_power_of_two_log2_up k :
  1 ≤ k ≤ 2 ^ 63 → next_power_of_two k = 2 ^ Z.log2_up k.
Proof.
  intros Hk. unfold next_power_of_two. bsolve. destruct (decide (k = 1)) as [->|]; [done|].
  rewrite smear_loop_ones by lia. unfold Z.log2_up. case (Z.compare_spec 1 k); try lia. intros _.
  rewrite Z.ones_equiv. replace (Z.pred (2 ^ (Z.log2 (k - 1) + 1)) + 1)
    with (2 ^ (Z.log2 (k - 1) + 1)) by lia.
  rewrite <- Z.sub_1_r, <- Z.add_1_r. unfold u64. apply Z.mod_small.
  assert (Z.log2 (k - 1) < 63) by (apply Z.log2_lt_pow2; lia).
  pose proof (Z.log2_nonneg (k - 1)).
  pose proof (Z.pow_pos_nonneg 2 (Z.log2 (k - 1) + 1)).
  pose proof (Z.pow_le_mono_r 2 (Z.log2 (k - 1) + 1) 63). lia.
Qed.

(** ** Building a message *)

(** The block holds [used] followed by free space, and [pos_], [length_] and
    [buf_size_] agree with it. *)
Definition holds (tx : FIXMessageTX) (used : list Z) : Prop :=
  ∃ free, buf_ tx = Some (used ++ free) ∧ pos_ tx = At (zlen used) ∧
          length_ tx = zlen used ∧ buf_size_ tx = zlen (used ++ free) ∧ zlen (used ++ free) < 2 ^ 64.

Definition field_ok (f : Z * list Z) : Prop := 0 ≤ f.1 < 2 ^ 32 ∧ f.1 ≠ 35.

Lemma split_free (free : list Z) n :
  0 ≤ n ≤ zlen free → ∃ b c, free = b ++ c ∧ zlen b = n.
Proof.
  intros Hn. exists (take (Z.to_nat n) free), (drop (Z.to_nat n) free).
  rewrite take_drop, length_take. split; [done|]. lia.
Qed.

Section Building.
Context (CACHE_LINE_SIZE : Z) (malloc : nat → Z → option (list Z))
        (realloc : nat → Z → option (bool * list Z)).

(** An allocator hands out blocks of the size asked for. *)
Hypothesis malloc_size : ∀ n sz b, 0 ≤ sz → malloc n sz = Some b → zlen b = sz.
Hypothesis cache_line : 0 < CACHE_LINE_SIZE.

#[local] Abbreviation append := (append_field CACHE_LINE_SIZE malloc realloc).

(** What [append_field] leaves in the other members. *)
Definition appended (tx tx' : FIXMessageTX) (tag : Z) : Prop :=
  soh_ tx' = soh_ tx ∧ ttl_ tx' = ttl_ tx ∧ msg_type_ tx' = msg_type_ tx ∧
  buf_size_ tx' = buf_size_ tx ∧ allocs_ tx' = allocs_ tx ∧
  sending_time_appended_ tx' = (sending_time_appended_ tx || (tag =? 52)).

Lemma append_again_guard fuel start t v tx :
  (u64 (25 + zlen v) <=? buf_size_ tx) = true →
  append_again malloc realloc fuel start t v tx
  = match buf_ tx, pos_ tx, start with
    | Some buf, At pos, At start =>
        '(buf, pos) ← uint_to_str ch_eq t buf pos;
        buf ← write_at buf (pos + 1) v;
        buf ← write_at buf (pos + 1 + zlen v) [soh_ tx];
        Some (1, mkTX (soh_ tx) (ttl_ tx) (msg_type_ tx) (buf_size_ tx)
                      (u64 (length_ tx + (pos + 1 + zlen v + 1 - start)))
                      (sending_time_appended_ tx) (Some buf) (At (pos + 1 + zlen v + 1)) (allocs_ tx))
    | _, _, _ => None
    end.
Proof. intros Hg. destruct fuel; cbn [append_again]; by rewrite Hg. Qed.

Lemma append_again_fits fuel tx used t v free :
  0 ≤ t < 2 ^ 32 →
  buf_ tx = Some (used ++ free) → pos_ tx = At (zlen used) → length_ tx = zlen used →
  zlen (used ++ free) < 2 ^ 64 → 25 + zlen v ≤ buf_size_ tx → buf_size_ tx < 2 ^ 64 →
  zlen (wire_field (soh_ tx) (t, v)) ≤ zlen free →
  ∃ free', zlen free' = zlen free - zlen (wire_field (soh_ tx) (t, v)) ∧
  append_again malloc realloc fuel (pos_ tx) t v tx
  = Some (1, mkTX (soh_ tx) (ttl_ tx) (msg_type_ tx) (buf_size_ tx)
                  (zlen (used ++ wire_field (soh_ tx) (t, v))) (sending_time_appended_ tx)
                  (Some ((used ++ wire_field (soh_ tx) (t, v)) ++ free'))
                  (At (zlen (used ++ wire_field (soh_ tx) (t, v)))) (allocs_ tx)).
Proof.
  intros Ht Hbuf Hpos Hlen Hmax Hsz Hsz2 Hfit. rewrite length_wire_field in *.
  destruct (split_free free (zlen (dec t) + 1)) as (b & c & -> & Hb); [lia|].
  destruct (split_free c (zlen v)) as (b2 & c2 & -> & Hb2); [llia|].
  destruct c2 as [|x c2]; [llia|]. exists c2. split; [llia|].
  assert (Hguard : (u64 (25 + zlen v) <=? buf_size_ tx) = true)
    by (unfold u64; rewrite Z.mod_small by lia; lia).
  rewrite append_again_guard, Hbuf, Hpos by done.
  rewrite uint_to_str_spec by lia. obind.
  replace (used ++ dec t ++ ch_eq :: b2 ++ x :: c2)
    with ((used ++ dec t ++ [ch_eq]) ++ b2 ++ x :: c2) by (by app_norm).
  rewrite (write_at_mid (used ++ dec t ++ [ch_eq]) b2 (x :: c2) v) by llia. obind.
  replace ((used ++ dec t ++ [ch_eq]) ++ v ++ x :: c2)
    with ((used ++ dec t ++ ch_eq :: v) ++ [x] ++ c2) by (by app_norm).
  rewrite (write_at_mid (used ++ dec t ++ ch_eq :: v) [x] c2 [soh_ tx]) by llia. obind.
  rewrite Hlen; do 3 f_equal.
  all: try (unfold wire_field; cbn [fst snd]; f_equal; by app_norm).
  all: unfold u64, wire_field; cbn [fst snd]; try rewrite Z.mod_small by llia; try f_equal; llia.
Qed.

Lemma append_field_holds tx used t v :
  field_ok (t, v) → holds tx used → 25 + zlen v ≤ buf_size_ tx →
  zlen used + zlen (wire_field (soh_ tx) (t, v)) ≤ buf_size_ tx →
  ∃ tx', append t v tx = Some (1, tx') ∧ holds tx' (used ++ wire_field (soh_ tx) (t, v)) ∧
         appended tx tx' t.
Proof.
  intros [Ht Ht35] (free & Hbuf & Hpos & Hlen & Hsz & Hmax) Hg Hfit. cbn [fst] in *.
  unfold append_field. bsolve.
  assert (Hcase : ∀ tx0, soh_ tx0 = soh_ tx → ttl_ tx0 = ttl_ tx → msg_type_ tx0 = msg_type_ tx →
    buf_size_ tx0 = buf_size_ tx → buf_ tx0 = buf_ tx → pos_ tx0 = pos_ tx →
    length_ tx0 = length_ tx → allocs_ tx0 = allocs_ tx →
    sending_time_appended_ tx0 = (sending_time_appended_ tx || (t =? 52)) →
    ∃ tx', append_again malloc realloc 64 (pos_ tx0) t v tx0 = Some (1, tx') ∧
           holds tx' (used ++ wire_field (soh_ tx) (t, v)) ∧ appended tx tx' t).
  { intros tx0 E1 E2 E3 E4 E5 E6 E7 E8 E9.
    destruct (append_again_fits 64 tx0 used t v free) as (free' & Hf' & ->);
      [lia | congruence | congruence | congruence | done | lia | lia | |].
    - rewrite E1. llia.
    - eexists. split; [done|]. rewrite E1 in *. split.
      + exists free'. cbn [buf_ pos_ length_ buf_size_]. repeat split; rewrite ?E4, ?Hsz; llia.
      + unfold appended. cbn. by rewrite E2, E3, E4, E8, E9. }
  destruct (t =? 52) eqn:E52; apply Hcase; try done; by rewrite ?E52, ?orb_false_r, ?orb_true_r.
Qed.

(** [init] leaves a message that holds the leading SOH. *)
Lemma init_holds tx b :
  malloc (allocs_ tx) INITIAL_TX_BUFFER_SIZE = Some b →
  ∃ tx', init malloc tx = Some (1, tx') ∧ holds tx' [soh_ tx] ∧ soh_ tx' = soh_ tx ∧
         buf_size_ tx' = INITIAL_TX_BUFFER_SIZE ∧ ttl_ tx' = (0, 0) ∧
         msg_type_ tx' = set_char0 (msg_type_ tx) ∧ sending_time_appended_ tx' = false.
Proof.
  intros Hm. unfold init. rewrite Hm. apply malloc_size in Hm; [|done]. unfold INITIAL_TX_BUFFER_SIZE in Hm.
  destruct b as [|x b]; [simpl in Hm; lia|].
  change (x :: b) with ([] ++ [x] ++ b). rewrite (write_at_mid [] [x] b [soh_ tx]) by done. obind.
  eexists. split; [done|]. split; [|done]. exists b. unfold INITIAL_TX_BUFFER_SIZE.
  cbn [buf_ pos_ length_ buf_size_ app]. repeat split; llia.
Qed.

(** Appending the message type only stores it. *)
Lemma append_type_holds tx used mt :
  holds tx used → zlen (msg_type_ tx) = CACHE_LINE_SIZE → zlen mt < CACHE_LINE_SIZE →
  ∃ tx' r, append 35 mt tx = Some (1, tx') ∧ holds tx' used ∧ soh_ tx' = soh_ tx ∧
         buf_size_ tx' = buf_size_ tx ∧ ttl_ tx' = ttl_ tx ∧ msg_type_ tx' = mt ++ 0 :: r ∧
         zlen (msg_type_ tx') = CACHE_LINE_SIZE ∧
         sending_time_appended_ tx' = sending_time_appended_ tx.
Proof.
  intros Hh Hlen Hmt. unfold append_field, MAX_MSGTYPE_LENGTH. change (35 =? 52) with false.
  change (negb (35 =? 35)) with false. cbv iota. bsolve.
  destruct (split_free (msg_type_ tx) (zlen mt)) as (b & c & Hsplit & Hb); [lia|].
  destruct c as [|x c]; [rewrite Hsplit in Hlen; llia|]. rewrite Hsplit.
  rewrite (write_at_mid [] b (x :: c) mt) by llia. obind.
  rewrite (write_at_mid mt [x] c [0]) by llia. obind. eexists _, c. split; [done|].
  split; [done|]. cbn. repeat split. rewrite Hsplit in Hlen. llia.
Qed.

Fixpoint append_fields (fs : list (Z * list Z)) (tx : FIXMessageTX) : option (Z * FIXMessageTX) :=
  match fs with
  | [] => Some (1, tx)
  | (t, v) :: fs =>
      '(r, tx) ← append t v tx;
      if r =? 0 then Some (0, tx) else append_fields fs tx
  end.

Lemma append_fields_holds fs : ∀ tx used,
  Forall field_ok fs → holds tx used →
  Forall (λ f, 25 + zlen f.2 ≤ buf_size_ tx) fs →
  zlen (used ++ wire_fields (soh_ tx) fs) ≤ buf_size_ tx →
  ∃ tx', append_fields fs tx = Some (1, tx') ∧ holds tx' (used ++ wire_fields (soh_ tx) fs) ∧
    soh_ tx' = soh_ tx ∧ ttl_ tx' = ttl_ tx ∧ msg_type_ tx' = msg_type_ tx ∧
    buf_size_ tx' = buf_size_ tx ∧
    sending_time_appended_ tx' = (sending_time_appended_ tx || existsb (λ f, f.1 =? 52) fs).
Proof.
  induction fs as [|[t v] fs IH]; intros tx used Hok Hh Hg Hfit; cbn [append_fields existsb].
  - exists tx. unfold wire_fields. cbn [fmap list_fmap concat]. by rewrite app_nil_r, orb_false_r.
  - apply Forall_cons in Hok as [Hf Hok]. apply Forall_cons in Hg as [Hg1 Hg].
    unfold wire_fields in *. cbn [fmap list_fmap concat fst snd] in *.
    destruct (append_field_holds tx used t v Hf Hh Hg1)
      as (tx1 & -> & Hh1 & (E1 & E2 & E3 & E4 & _ & E6)); [llia|]. obind.
    destruct (IH tx1 (used ++ wire_field (soh_ tx) (t, v)) Hok Hh1) as (tx2 & E & Hh2 & F1 & F2 & F3 & F4 & F5).
    + by rewrite E4.
    + rewrite E1, E4. by rewrite <- app_assoc.
    + exists tx2. split; [done|]. rewrite E1, <- app_assoc in Hh2. split; [done|].
      rewrite F5, E6, orb_assoc. by repeat split; congruence.
Qed.

(** [expose] on a complete message. *)
Lemma expose_holds tx used c r :
  holds tx used → msg_type_ tx = c :: r → c ≠ 0 → sending_time_appended_ tx = true →
  zlen used + 3 ≤ buf_size_ tx →
  ∃ rest tx', expose tx = Some (Some (mkExposed (ttl_ tx) (zlen used + 3)
                                 (used ++ bytes_of_string "10=" ++ rest) (msg_type_ tx)), tx') ∧
    buf_ tx' = Some (used ++ bytes_of_string "10=" ++ rest) ∧ pos_ tx' = At 1 ∧ length_ tx' = 1 ∧
    soh_ tx' = soh_ tx ∧ msg_type_ tx' = msg_type_ tx ∧ sending_time_appended_ tx' = false ∧
    buf_size_ tx' = buf_size_ tx.
Proof.
  intros (free & Hbuf & Hpos & Hlen & Hsz & Hmax) Hmt Hc Hs Hfit. unfold expose.
  rewrite Hmt, Hs, Hbuf, Hpos. cbn [lookup list_lookup]. obind.
  rewrite (proj2 (Z.eqb_neq c 0)) by done. cbn [negb andb].
  destruct free as [|f1 [|f2 [|f3 free]]]; [llia..|].
  rewrite (write_at_mid used [f1] (f2 :: f3 :: free) [49]) by done. obind.
  change (used ++ [49] ++ f2 :: f3 :: free) with (used ++ [49] ++ [f2] ++ f3 :: free).
  rewrite (app_assoc used [49]).
  rewrite (write_at_mid (used ++ [49]) [f2] (f3 :: free) [48]) by llia. obind.
  change ([48] ++ f3 :: free) with ([48] ++ [f3] ++ free). rewrite (app_assoc _ [48]).
  rewrite (write_at_mid ((used ++ [49]) ++ [48]) [f3] free [61]) by llia. obind.
  assert (E : ((used ++ [49]) ++ [48]) ++ [61] ++ free = used ++ bytes_of_string "10=" ++ free)
    by (by app_norm).
  rewrite E, Hlen. exists free. eexists.
  assert (Hu : u64 (zlen used + 3) = zlen used + 3) by (unfold u64; apply Z.mod_small; llia).
  rewrite Hu. done.
Qed.
End Building.

(** ** Importing a stored message *)

Lemma until_nul_app a b : Forall (λ c, c ≠ 0) a → until_nul (a ++ b) = a ++ until_nul b.
Proof.
  induction 1 as [|c a Hc _ IH]; [done|]. cbn [app until_nul].
  rewrite (proj2 (Z.eqb_neq c 0)), IH by done. done.
Qed.

Lemma prefixb_app p l : prefixb p (p ++ l) = true.
Proof. induction p as [|c p IH]; [done|]. cbn [app prefixb]. by rewrite Z.eqb_refl. Qed.

Lemma infixb_app a p l : infixb p (a ++ p ++ l) = true.
Proof.
  induction a as [|c a IH]; cbn [app].
  - destruct (p ++ l) eqn:E; [by destruct p|]. cbn [infixb]. by rewrite <- E, prefixb_app.
  - cbn [infixb]. by rewrite IH, orb_true_r.
Qed.

(** The sending time is found when no byte before it is NUL. *)
Lemma strnstr_sending_time soh fs1 v fs2 rest len :
  soh ≠ 0 → Forall (λ c, c ≠ 0) (wire_fields soh fs1) →
  let used := soh :: wire_fields soh (fs1 ++ (52, v) :: fs2) in
  len = zlen used → strnstr (used ++ rest) [soh; 53; 50; 61; 0] len = true.
Proof.
  intros Hs Hz used ->. unfold strnstr. rewrite Nat2Z.id, take_app_length.
  assert (Hu : ∃ a l, used = a ++ [soh; 53; 50; 61] ++ l ∧ Forall (λ c, c ≠ 0) a).
  { unfold used, wire_fields. rewrite fmap_app, concat_app. fold (wire_fields soh fs1).
    cbn [fmap list_fmap concat]. unfold wire_field at 1. cbn [fst snd].
    change (dec 52) with [53; 50]. destruct fs1 as [|f fs1 _] using rev_ind.
    - exists []. eexists. by split.
    - unfold wire_fields in *. rewrite fmap_app, concat_app in *. cbn [fmap list_fmap concat] in *.
      rewrite app_nil_r in *. unfold wire_field at 2 in Hz. unfold wire_field at 2.
      exists (soh :: concat (wire_field soh <$> fs1) ++ dec f.1 ++ ch_eq :: f.2). eexists. split.
      + by app_norm.
      + constructor; [done|]. rewrite app_comm_cons, !app_assoc in Hz.
        apply Forall_app in Hz as [Hz _]. by rewrite <- !app_assoc in Hz. }
  destruct Hu as (a & l & -> & Ha).
  rewrite until_nul_app by done.
  rewrite (until_nul_app [soh; 53; 50; 61] l) by (by repeat constructor).
  change [soh; 53; 50; 61; 0] with ([soh; 53; 50; 61] ++ [0]).
  rewrite (until_nul_app [soh; 53; 50; 61] [0]) by (by repeat constructor).
  change (until_nul [0]) with (@nil Z). rewrite app_nil_r. apply infixb_app.
Qed.

Section Cloning.
Context (CACHE_LINE_SIZE : Z) (malloc : nat → Z → option (list Z))
        (realloc : nat → Z → option (bool * list Z)).
Hypothesis realloc_size : ∀ n sz m b, 0 ≤ sz → realloc n sz = Some (m, b) → zlen b = sz.

(** [buf_] and [buf_size_] agree (so they do after the constructor, and after
    every operation whose allocations succeed). *)
Definition sized (tx : FIXMessageTX) : Prop :=
  zlen (default [] (buf_ tx)) = buf_size_ tx ∧ zlen (msg_type_ tx) = CACHE_LINE_SIZE.

Lemma length_regrown old size fill :
  zlen old ≤ size → zlen fill = size → zlen (regrown old size fill) = size.
Proof. intros. unfold regrown. rewrite length_take, length_app, length_drop. lia. Qed.

Lemma clone_copy_spec tx buf pmsg used rest mt r :
  buf_ tx = Some buf → zlen buf = buf_size_ tx → zlen (msg_type_ tx) = CACHE_LINE_SIZE →
  pm_length pmsg = zlen used + 3 → zlen used + 3 < 2 ^ 32 → zlen used + 3 ≤ buf_size_ tx →
  buf_size_ tx < 2 ^ 64 →
  pm_part_msg pmsg = used ++ rest → pm_msg_type pmsg = mt ++ 0 :: r →
  Forall (λ c, c ≠ 0) mt → zlen mt < CACHE_LINE_SIZE →
  ∃ tx' r', clone_copy CACHE_LINE_SIZE malloc pmsg tx = Some (1, tx') ∧ holds tx' used ∧
    soh_ tx' = soh_ tx ∧ ttl_ tx' = pm_ttl pmsg ∧ msg_type_ tx' = mt ++ 0 :: r' ∧
    buf_size_ tx' = buf_size_ tx ∧
    sending_time_appended_ tx' = strnstr (used ++ rest) [soh_ tx; 53; 50; 61; 0] (zlen used).
Proof.
  intros Hbuf Hbs Hmtl Hlen H32 Hfit Hmax Hpart Hmt Hz Hmtfit. unfold clone_copy.
  assert (Hl : u32 (pm_length pmsg - 3) = zlen used)
    by (rewrite Hlen; unfold u32; rewrite Z.mod_small; lia).
  rewrite Hl, Hpart, Hmt, Hbuf. obind. rewrite (read_at_mid [] used rest) by done. obind.
  destruct (split_free buf (zlen used)) as (b & free & Hsplit & Hb); [lia|].
  rewrite Hsplit. rewrite (write_at_mid [] b free used) by llia. obind.
  rewrite cstr_app by done. obind. unfold MAX_MSGTYPE_LENGTH. bsolve. cbn [msg_type_].
  destruct (split_free (msg_type_ tx) (zlen mt)) as (m1 & m2 & Hm & Hm1); [lia|].
  destruct m2 as [|x m2]; [rewrite Hm in Hmtl; llia|]. rewrite Hm.
  rewrite (write_at_mid [] m1 (x :: m2) mt) by llia. obind.
  rewrite (write_at_mid mt [x] m2 [0]) by llia. obind.
  eexists _, m2. split; [done|]. cbn [soh_ ttl_ msg_type_ buf_size_ sending_time_appended_].
  split; [|done]. exists free. rewrite Hsplit in Hbs. cbn. repeat split; llia.
Qed.

Lemma clone_from_holds tx pmsg used rest mt r :
  sized tx → buf_size_ tx < 2 ^ 64 →
  pm_length pmsg = zlen used + 3 → zlen used + 3 ≤ 2 ^ 31 →
  (buf_size_ tx < pm_length pmsg →
     is_Some (realloc (allocs_ tx) (next_power_of_two (pm_length pmsg)))) →
  pm_part_msg pmsg = used ++ rest → pm_msg_type pmsg = mt ++ 0 :: r →
  Forall (λ c, c ≠ 0) mt → zlen mt < CACHE_LINE_SIZE →
  ∃ tx' r', clone_from CACHE_LINE_SIZE malloc realloc (Some pmsg) tx = Some (1, tx') ∧
    holds tx' used ∧ soh_ tx' = soh_ tx ∧ ttl_ tx' = pm_ttl pmsg ∧
    msg_type_ tx' = mt ++ 0 :: r' ∧ zlen used + 3 ≤ buf_size_ tx' ∧
    sending_time_appended_ tx' = strnstr (used ++ rest) [soh_ tx; 53; 50; 61; 0] (zlen used).
Proof.
  intros [Hbs Hmtl] Hmax Hlen H32 Hre Hpart Hmt Hz Hmtfit. unfold clone_from. bsolve.
  assert (Hpow : zlen used + 3 ≤ next_power_of_two (pm_length pmsg) ≤ 2 ^ 31).
  { rewrite next_power_of_two_log2_up by lia. rewrite Hlen. split.
    - pose proof (Z.log2_up_spec (zlen used + 3) ltac:(lia)). lia.
    - apply Z.pow_le_mono_r; [lia|]. change 31 with (Z.log2_up (2 ^ 31)).
      apply Z.log2_up_le_mono. lia. }
  destruct (Z.ltb_spec (buf_size_ tx) (pm_length pmsg)) as [Hlt|Hge].
  - destruct (Hre Hlt) as [[moved fill] Hr]. rewrite Hr.
    apply realloc_size in Hr; [|lia]. set (size := next_power_of_two _) in *.
    assert (Hrg : zlen (regrown (default [] (buf_ tx)) size fill) = size)
      by (apply length_regrown; lia).
    edestruct (clone_copy_spec (set_buf tx size (regrown (default [] (buf_ tx)) size fill)
      (if moved then Dangling else pos_ tx))) as (tx' & r' & -> & Hh & E1 & E2 & E3 & E4 & E5);
      cbn [set_buf buf_ buf_size_ msg_type_ soh_] in *; try done; try lia.
    exists tx', r'. repeat split; try done; lia.
  - destruct (buf_ tx) as [buf|] eqn:Eb; cbn [default] in Hbs; [|llia].
    edestruct (clone_copy_spec tx buf pmsg used rest mt r)
      as (tx' & r' & -> & Hh & E1 & E2 & E3 & E4 & E5); try done; try lia.
    exists tx', r'. repeat split; try done; lia.
Qed.
End Cloning.

(** ** Properties *)

(** [next_power_of_two k] is a power of two, at least [k] and less than
    twice [k], for every [k] up to [2^63] (above, the result wraps to 0). *)
Theorem next_power_of_two_spec k :
  1 ≤ k ≤ 2 ^ 63 → ∃ n, 0 ≤ n ∧ next_power_of_two k = 2 ^ n ∧ k ≤ 2 ^ n < 2 * k.
Proof.
  intros Hk. rewrite next_power_of_two_log2_up by lia. exists (Z.log2_up k).
  split; [apply Z.log2_up_nonneg|]. split; [done|].
  destruct (decide (k = 1)) as [->|]; [done|].
  pose proof (Z.log2_up_spec k ltac:(lia)) as [Hlo Hhi].
  assert (E : 2 ^ Z.log2_up k = 2 * 2 ^ Z.pred (Z.log2_up k)).
  { rewrite <- Z.pow_succ_r, Z.succ_pred; [done|].
    assert (0 < Z.log2_up k) by (apply Z.log2_up_pos; lia). lia. }
  lia.
Qed.

Lemma next_power_of_two_spec_witness :
  ∃ n, 0 ≤ n ∧ next_power_of_two 4097 = 2 ^ n ∧ 4097 ≤ 2 ^ n < 2 * 4097.
Proof. apply (next_power_of_two_spec 4097). lia. Defined.

(** An allocator that never fails and never moves a block. *)
Definition malloc_ok (n : nat) (sz : Z) : option (list Z) := Some (replicate (Z.to_nat sz) 0).
Definition realloc_ok (n : nat) (sz : Z) : option (bool * list Z) :=
  Some (false, replicate (Z.to_nat sz) 0).

Lemma malloc_ok_size n sz b : 0 ≤ sz → malloc_ok n sz = Some b → zlen b = sz.
Proof. intros Hsz [= <-]. rewrite length_replicate. lia. Qed.

Lemma realloc_ok_size n sz m b : 0 ≤ sz → realloc_ok n sz = Some (m, b) → zlen b = sz.
Proof. intros Hsz [= _ <-]. rewrite length_replicate. lia. Qed.

(** C14: from [init], appending the message type and then any fields that
    fit the initial block, sending time among them, and exposing yields
    [<SOH>tag=value<SOH>...10=]: exactly the fields in order, nothing of what
    the block held before, with the length that covers it, the cached message
    type and the time to live. *)
Theorem tx_builds_message CACHE_LINE_SIZE malloc realloc tx b mt fs :
  (∀ n sz b, 0 ≤ sz → malloc n sz = Some b → zlen b = sz) → 0 < CACHE_LINE_SIZE →
  malloc (allocs_ tx) INITIAL_TX_BUFFER_SIZE = Some b → zlen (msg_type_ tx) = CACHE_LINE_SIZE →
  mt ≠ [] → Forall (λ c, c ≠ 0) mt → zlen mt < CACHE_LINE_SIZE →
  Forall field_ok fs → Forall (λ f, 25 + zlen f.2 ≤ INITIAL_TX_BUFFER_SIZE) fs →
  existsb (λ f, f.1 =? 52) fs = true →
  4 + zlen (wire_fields (soh_ tx) fs) ≤ INITIAL_TX_BUFFER_SIZE →
  ∃ tx1 tx2 tx3 tx4 ex,
    init malloc tx = Some (1, tx1) ∧
    append_field CACHE_LINE_SIZE malloc realloc 35 mt tx1 = Some (1, tx2) ∧
    append_fields CACHE_LINE_SIZE malloc realloc fs tx2 = Some (1, tx3) ∧
    expose tx3 = Some (Some ex, tx4) ∧
    read_at (ex_data ex) 0 (ex_len ex)
      = Some (soh_ tx :: wire_fields (soh_ tx) fs ++ bytes_of_string "10=") ∧
    cstr (ex_msg_type ex) = Some mt ∧ ex_ttl ex = (0, 0).
Proof.
  intros Hms Hcl Hm Hmtl Hne Hz Hmt Hok Hg H52 Hfit.
  destruct (init_holds malloc Hms tx b Hm) as (tx1 & Ei & Hh1 & S1 & B1 & T1 & M1 & P1).
  assert (Hmtl1 : zlen (msg_type_ tx1) = CACHE_LINE_SIZE).
  { rewrite M1. destruct (msg_type_ tx); [llia|]. by rewrite <- Hmtl. }
  destruct (append_type_holds CACHE_LINE_SIZE malloc realloc tx1 _ mt Hh1 Hmtl1 Hmt)
    as (tx2 & r & Ea & Hh2 & S2 & B2 & T2 & M2 & _ & P2).
  assert (S12 : soh_ tx2 = soh_ tx) by congruence.
  assert (B12 : buf_size_ tx2 = INITIAL_TX_BUFFER_SIZE) by congruence.
  destruct (append_fields_holds CACHE_LINE_SIZE malloc realloc fs tx2 _ Hok Hh2)
    as (tx3 & Ef & Hh3 & S3 & T3 & M3 & B3 & P3).
  { by rewrite B12. }
  { rewrite S12, B12. llia. }
  rewrite S12 in Hh3. destruct mt as [|c mt]; [done|]. apply Forall_cons in Hz as Hc.
  destruct Hc as [Hc _].
  destruct (expose_holds tx3 _ c (mt ++ 0 :: r) Hh3) as (rest & tx4 & Ee & _).
  { by rewrite M3, M2. }
  { done. }
  { by rewrite P3, H52, orb_true_r. }
  { rewrite B3, B12. llia. }
  exists tx1, tx2, tx3, tx4. eexists. do 4 (split; [done|]). cbn [ex_data ex_len ex_msg_type ex_ttl].
  split; [|split].
  - rewrite <- app_assoc. cbn [app]. rewrite (app_assoc (wire_fields _ _)), app_comm_cons.
    apply read_at_prefix. change (bytes_of_string "10=") with [49; 48; 61]. llia.
  - rewrite M3, M2. by apply cstr_app.
  - congruence.
Qed.

Lemma tx_builds_message_witness :
  ∃ tx1 tx2 tx3 tx4 ex,
    init malloc_ok (make_tx 64 1) = Some (1, tx1) ∧
    append_field 64 malloc_ok realloc_ok 35 [68] tx1 = Some (1, tx2) ∧
    append_fields 64 malloc_ok realloc_ok [(52, bytes_of_string "20130101"); (44, [49])] tx2
      = Some (1, tx3) ∧
    expose tx3 = Some (Some ex, tx4) ∧
    read_at (ex_data ex) 0 (ex_len ex)
      = Some (1 :: wire_fields 1 [(52, bytes_of_string "20130101"); (44, [49])]
                ++ bytes_of_string "10=") ∧
    cstr (ex_msg_type ex) = Some [68] ∧ ex_ttl ex = (0, 0).
Proof.
  apply (tx_builds_message 64 malloc_ok realloc_ok (make_tx 64 1) (replicate (Z.to_nat 2048) 0) [68]
    [(52, bytes_of_string "20130101"); (44, [49])]).
  - exact malloc_ok_size.
  - lia.
  - reflexivity.
  - reflexivity.
  - discriminate.
  - by repeat constructor.
  - vm_compute. reflexivity.
  - repeat constructor; cbn; lia.
  - repeat constructor; vm_compute; discriminate.
  - reflexivity.
  - vm_compute. discriminate.
Defined.

(** the guard of [append_field] compares [25 + length] with the size of
    the whole block and ignores what the block already holds: whenever a
    field passes the guard but does not fit behind the fields before it, the
    call writes outside the block instead of growing it. *)
Theorem append_field_overflows CACHE_LINE_SIZE malloc realloc tx used t v :
  field_ok (t, v) → holds tx used →
  25 + zlen v ≤ buf_size_ tx → buf_size_ tx < zlen used + zlen (wire_field (soh_ tx) (t, v)) →
  append_field CACHE_LINE_SIZE malloc realloc t v tx = None.
Proof.
  intros [Ht Ht35] (free & Hbuf & Hpos & Hlen & Hsz & Hmax) Hg Hover. cbn [fst] in *.
  rewrite length_wire_field in Hover.
  assert (Hguard : (u64 (25 + zlen v) <=? buf_size_ tx) = true)
    by (unfold u64; rewrite Z.mod_small by lia; lia).
  assert (Hdec : zlen (dec t) ≤ 10) by (apply dec_length_le; lia).
  unfold append_field. bsolve.
  assert (Hcase : ∀ tx0, buf_ tx0 = buf_ tx → buf_size_ tx0 = buf_size_ tx → pos_ tx0 = pos_ tx →
    append_again malloc realloc 64 (pos_ tx0) t v tx0 = None); [|destruct (t =? 52); by apply Hcase].
  intros tx0 E1 E2 E3. rewrite append_again_guard by (by rewrite E2). rewrite E1, E3, Hbuf, Hpos.
  destruct (decide (zlen (dec t) + 1 ≤ zlen free)).
  - destruct (split_free free (zlen (dec t) + 1)) as (b & c & -> & Hb); [lia|].
    rewrite uint_to_str_spec by lia. obind.
    destruct (write_at _ _ v) as [buf|] eqn:Ew; [obind | done].
    apply write_at_length in Ew. rewrite write_at_outside; [done|].
    rewrite Ew. llia.
  - rewrite uint_to_str_outside by llia. done.
Qed.

Lemma append_field_overflows_witness :
  let tx := mkTX 1 (0, 0) (replicate 64 0) 2048 1510 true
              (Some (replicate 1510 65 ++ replicate 538 0)) (At 1510) 1 in
  append_field 64 malloc_ok realloc_ok 58 (replicate 1500 66) tx = None.
Proof.
  intros tx. apply (append_field_overflows 64 malloc_ok realloc_ok tx (replicate 1510 65)).
  - vm_compute. repeat split; discriminate.
  - exists (replicate 538 0). repeat split; vm_compute; reflexivity.
  - vm_compute. discriminate.
  - vm_compute. reflexivity.
Defined.

(** when the block must grow, a failing [realloc] makes the call return
    0 with the message as it was; a [realloc] that moves the block leaves
    [pos_] in the freed one, and the call writes through it. *)
Theorem append_field_growth CACHE_LINE_SIZE malloc realloc tx used t v :
  field_ok (t, v) → t ≠ 52 → holds tx used → buf_size_ tx < 2 ^ 63 →
  buf_size_ tx < 25 + zlen v ≤ 2 * buf_size_ tx →
  (realloc (allocs_ tx) (2 * buf_size_ tx) = None →
     append_field CACHE_LINE_SIZE malloc realloc t v tx
     = Some (0, mkTX (soh_ tx) (ttl_ tx) (msg_type_ tx) (buf_size_ tx) (length_ tx)
                     (sending_time_appended_ tx) (buf_ tx) (pos_ tx) (S (allocs_ tx)))) ∧
  (∀ fill, realloc (allocs_ tx) (2 * buf_size_ tx) = Some (true, fill) →
     append_field CACHE_LINE_SIZE malloc realloc t v tx = None).
Proof.
  intros [Ht Ht35] Ht52 (free & Hbuf & Hpos & Hlen & Hsz & Hmax) Hlt Hg. cbn [fst] in *.
  unfold append_field. bsolve.
  assert (Hbig : (u64 (25 + zlen v) <=? buf_size_ tx) = false)
    by (unfold u64; rewrite Z.mod_small by lia; lia).
  assert (Hsize : u64 (2 * buf_size_ tx) = 2 * buf_size_ tx)
    by (unfold u64; rewrite Z.mod_small; lia).
  generalize 63%nat. intros fuel. cbn [append_again]. rewrite Hbig, Hbuf, Hsize. bsolve. cbv iota. obind.
  split.
  - by intros ->.
  - intros fill ->. rewrite append_again_guard; [done|].
    cbn [set_buf buf_size_]. unfold u64. rewrite Z.mod_small; lia.
Qed.

Lemma append_field_growth_witness :
  let moving := λ (n : nat) (sz : Z), Some (true, replicate (Z.to_nat sz) 0) in
  let tx := mkTX 1 (0, 0) (replicate 64 0) 2048 1 false
              (Some ([1] ++ replicate 2047 0)) (At 1) 1 in
  append_field 64 malloc_ok moving 58 (replicate 3000 66) tx = None.
Proof.
  intros moving tx.
  refine (proj2 (append_field_growth 64 malloc_ok moving tx [1] 58 (replicate 3000 66) _ _ _ _ _) _ _).
  - vm_compute. repeat split; discriminate.
  - lia.
  - exists (replicate 2047 0). repeat split; vm_compute; reflexivity.
  - vm_compute. reflexivity.
  - vm_compute. split; [reflexivity | discriminate].
  - reflexivity.
Defined.

(** a message that was exposed, stored and imported into another
    instance with [clone_from] is exposed again byte for byte, with its
    message type and time to live, whatever the second instance held before;
    its block is enlarged when it is too small.  The sending time is
    recognised because it stands before any field that contains a NUL. *)
Theorem clone_from_roundtrip CACHE_LINE_SIZE malloc realloc tx pmsg fs1 v fs2 rest mt r :
  (∀ n sz m b, 0 ≤ sz → realloc n sz = Some (m, b) → zlen b = sz) →
  let used := soh_ tx :: wire_fields (soh_ tx) (fs1 ++ (52, v) :: fs2) in
  sized CACHE_LINE_SIZE tx → buf_size_ tx < 2 ^ 64 →
  pmsg = mkPartial (zlen used + 3) (mt ++ 0 :: r) (used ++ bytes_of_string "10=" ++ rest) (pm_ttl pmsg) →
  zlen used + 3 ≤ 2 ^ 31 →
  is_Some (realloc (allocs_ tx) (next_power_of_two (zlen used + 3))) →
  soh_ tx ≠ 0 → Forall (λ c, c ≠ 0) (wire_fields (soh_ tx) fs1) →
  mt ≠ [] → Forall (λ c, c ≠ 0) mt → zlen mt < CACHE_LINE_SIZE →
  ∃ tx1 tx2 ex,
    clone_from CACHE_LINE_SIZE malloc realloc (Some pmsg) tx = Some (1, tx1) ∧
    expose tx1 = Some (Some ex, tx2) ∧
    read_at (ex_data ex) 0 (ex_len ex) = Some (used ++ bytes_of_string "10=") ∧
    ex_len ex = pm_length pmsg ∧ cstr (ex_msg_type ex) = Some mt ∧ ex_ttl ex = pm_ttl pmsg.
Proof.
  intros Hrs used Hsz Hmax Hp H31 Hre Hs Hz1 Hne Hz Hmt.
  assert (E1 : pm_length pmsg = zlen used + 3) by (by rewrite Hp).
  destruct (clone_from_holds CACHE_LINE_SIZE malloc realloc Hrs tx pmsg used
    (bytes_of_string "10=" ++ rest) mt r) as (tx1 & r' & Ec & Hh & S1 & T1 & M1 & F1 & P1); try done.
  { by rewrite E1. }
  { by rewrite Hp. }
  { by rewrite Hp. }
  assert (Hst : strnstr (used ++ bytes_of_string "10=" ++ rest) [soh_ tx; 53; 50; 61; 0] (zlen used) = true)
    by (by apply strnstr_sending_time).
  rewrite Hst in P1.
  destruct mt as [|c mt]; [done|]. apply Forall_cons in Hz as Hc. destruct Hc as [Hc _].
  destruct (expose_holds tx1 used c (mt ++ 0 :: r') Hh) as (rest' & tx2 & Ee & _); try done.
  exists tx1, tx2. eexists. do 2 (split; [done|]). cbn [ex_data ex_len ex_msg_type ex_ttl].
  split; [|split; [done|split; [|done]]].
  - rewrite app_assoc. apply read_at_prefix. change (bytes_of_string "10=") with [49; 48; 61]. llia.
  - rewrite M1. by apply cstr_app.
Qed.

Lemma clone_from_roundtrip_witness :
  let used := 1 :: wire_fields 1 ([(44, [49])] ++ (52, bytes_of_string "2013") :: [(96, [0; 1])]) in
  let pmsg := mkPartial (zlen used + 3) ([68] ++ [0]) (used ++ bytes_of_string "10=" ++ [7]) (5, 6) in
  ∃ tx1 tx2 ex,
    clone_from 64 malloc_ok realloc_ok (Some pmsg) (make_tx 64 1) = Some (1, tx1) ∧
    expose tx1 = Some (Some ex, tx2) ∧
    read_at (ex_data ex) 0 (ex_len ex) = Some (used ++ bytes_of_string "10=") ∧
    ex_len ex = pm_length pmsg ∧ cstr (ex_msg_type ex) = Some [68] ∧ ex_ttl ex = (5, 6).
Proof.
  intros used pmsg.
  apply (clone_from_roundtrip 64 malloc_ok realloc_ok (make_tx 64 1) pmsg [(44, [49])]
    (bytes_of_string "2013") [(96, [0; 1])] [7] [68] []).
  - exact realloc_ok_size.
  - split; reflexivity.
  - vm_compute. reflexivity.
  - reflexivity.
  - vm_compute. discriminate.
  - eexists. reflexivity.
  - discriminate.
  - apply (bool_decide_unpack _). vm_compute. reflexivity.
  - discriminate.
  - by repeat constructor.
  - vm_compute. reflexivity.
Defined.

(** [clone_from(NULL)] ignores the result of [init]: with the allocator
    exhausted it reports success, 1, on an instance without a block, and the
    next [append_field] or [expose] is undefined. *)
Theorem clone_from_null_ignores_init CACHE_LINE_SIZE malloc realloc tx :
  malloc (allocs_ tx) INITIAL_TX_BUFFER_SIZE = None →
  ∃ tx', clone_from CACHE_LINE_SIZE malloc realloc None tx = Some (1, tx') ∧ buf_ tx' = None ∧
    buf_size_ tx' = buf_size_ tx ∧
    ∀ t v, t ≠ 35 → 25 + zlen v ≤ buf_size_ tx < 2 ^ 64 →
      append_field CACHE_LINE_SIZE malloc realloc t v tx' = None.
Proof.
  intros Hm. unfold clone_from, init. rewrite Hm. obind. eexists. split; [done|].
  split; [done|]. split; [done|]. intros t v Ht Hg. unfold append_field. bsolve.
  destruct (t =? 52); rewrite append_again_guard; try done;
    cbn [set_time_to_live set_sending buf_size_]; unfold u64; rewrite Z.mod_small; lia.
Qed.

Lemma clone_from_null_ignores_init_witness :
  ∃ tx', clone_from 64 (λ _ _, None) realloc_ok None
           (mkTX 1 (0, 0) (replicate 64 0) 2048 1 false (Some (replicate 2048 0)) (At 1) 1)
         = Some (1, tx') ∧ buf_ tx' = None.
Proof.
  destruct (clone_from_null_ignores_init 64 (λ _ _, None) realloc_ok
    (mkTX 1 (0, 0) (replicate 64 0) 2048 1 false (Some (replicate 2048 0)) (At 1) 1) eq_refl)
    as (tx' & H1 & H2 & _).
  exists tx'. by split.
Defined.
