(* ===== verification/FixFields.v ===== *)
(** * The checksum: [src/applib/fixmsg/fix_fields.h] *)
From S2P Require Import Prelude.

(** The loop adds [len] bytes into a [uint64_t]; the argument is those bytes. *)
Definition get_FIX_checksum (msg : list Z) : Z := foldl (λ sum b, u64 (sum + b)) 0 msg mod 256.

Definition byte_sum (l : list Z) : Z := foldr Z.add 0 l.

Lemma byte_sum_app a b : byte_sum (a ++ b) = byte_sum a + byte_sum b.
Proof. unfold byte_sum. induction a; simpl; lia. Qed.

(** The 64 bit accumulator may wrap; the result modulo 256 does not notice. *)
Lemma get_FIX_checksum_sum msg : get_FIX_checksum msg = byte_sum msg mod 256.
Proof.
  unfold get_FIX_checksum.
  assert (H : ∀ a, foldl (λ sum b, u64 (sum + b)) a msg mod 256 = (a + byte_sum msg) mod 256).
  { induction msg as [|b msg IH]; intros a; cbn [foldl byte_sum foldr].
    - by rewrite Z.add_0_r.
    - rewrite IH. fold (byte_sum msg). rewrite <- Zplus_mod_idemp_l. unfold u64.
      replace ((a + b) mod 2 ^ 64 mod 256) with ((a + b) mod 256).
      + rewrite Zplus_mod_idemp_l. f_equal. lia.
      + change (2 ^ 64) with (256 * 2 ^ 56).
        rewrite Z.rem_mul_r, Z.mul_comm, Z_mod_plus_full, Z.mod_mod by lia. done. }
  by rewrite H.
Qed.

Lemma get_FIX_checksum_range msg : 0 ≤ get_FIX_checksum msg < 256.
Proof. unfold get_FIX_checksum. by apply Z.mod_pos_bound. Qed.

(** The checksum is the sum of the bytes modulo 256, although the
    accumulator is a 64 bit word that may wrap. *)
Theorem get_FIX_checksum_spec msg :
  get_FIX_checksum msg = byte_sum msg mod 256 ∧ 0 ≤ get_FIX_checksum msg < 256.
Proof. split; [apply get_FIX_checksum_sum | apply get_FIX_checksum_range]. Qed.
