(* ===== verification/Pusher.v ===== *)
(** * The pusher: [src/applib/fixio/fix_pusher.cpp]

    A push call copies a partial message into a queue entry behind a reserved
    head; the pusher thread completes the messages in place (BeginString,
    BodyLength, MsgType, MsgSeqNum and CheckSum) and writes batches of them
    to the sink with [writev].  An entry is its byte buffer. *)
From S2P Require Import Prelude Primitives FixMsgUtils FixTypes FixFields FixMessageTX.

Definition FIX_BUFFER_RESERVED_HEAD : Z := 256.
Definition MSG_TYPE_MAX_LENGTH : Z := 16.
Definition MSG_TYPE_STRING_OFFSET : Z := 4.
Definition TV_SEC_OFFSET : Z := 4 + MSG_TYPE_MAX_LENGTH.
Definition TV_USEC_OFFSET : Z := 4 + MSG_TYPE_MAX_LENGTH + 8.
Definition FIX_BUFFER_RESERVED_TAIL : Z := 4.
Definition ALFA_ENTRY_SIZE : Z := 1024 * 4.
Definition ALFA_MAX_DATA_SIZE : Z := ALFA_ENTRY_SIZE - 4.
Definition CHARLIE_ENTRY_SIZE : Z := 512.
Definition CHARLIE_MAX_DATA_SIZE : Z := CHARLIE_ENTRY_SIZE - 4.

(** Where the partial message starts in an entry. *)
Definition PARTIAL_OFFSET : Z := MSG_TYPE_STRING_OFFSET + FIX_BUFFER_RESERVED_HEAD.

Definition EINVAL : Z := 22.
Definition ENOMEM : Z := 12.
Definition EAGAIN : Z := 11.
Definition EINTR : Z := 4.

(** ** Entry accessors *)

Definition get_length_of_partial_msg (push_buffer : list Z) : option Z := getu32 push_buffer 0.
Definition set_length_of_partial_msg (push_buffer : list Z) (len : Z) : option (list Z) :=
  setu32 push_buffer 0 len.

(** [strcpy] of the string at [msg_type]. *)
Definition set_msg_type (push_buffer msg_type : list Z) : option (list Z) :=
  s ← cstr msg_type; write_at push_buffer MSG_TYPE_STRING_OFFSET (s ++ [0]).

Definition set_ttl (push_buffer : list Z) (tv : Z * Z) : option (list Z) :=
  b ← setu64 push_buffer TV_SEC_OFFSET (u64 tv.1);
  setu64 b TV_USEC_OFFSET (u64 tv.2).

Definition get_ttl (push_buffer : list Z) : option (Z * Z) :=
  s ← getu64 push_buffer TV_SEC_OFFSET;
  us ← getu64 push_buffer TV_USEC_OFFSET;
  Some (s, us).

Definition get_digit_count (num : Z) : Z :=
  if num <? 10 then 1
  else if num <? 100 then 2
  else if num <? 1000 then 3
  else if num <? 10000 then 4
  else if num <? 100000 then 5
  else if num <? 1000000 then 6
  else if num <? 10000000 then 7
  else if num <? 100000000 then 8
  else if num <? 1000000000 then 9
  else if num <? 10000000000 then 10
  else if num <? 100000000000 then 11
  else if num <? 1000000000000 then 12
  else if num <? 10000000000000 then 13
  else if num <? 100000000000000 then 14
  else if num <? 1000000000000000 then 15
  else if num <? 10000000000000000 then 16
  else if num <? 100000000000000000 then 17
  else if num <? 1000000000000000000 then 18
  else if num <? 10000000000000000000 then 19
  else if num <=? 2 ^ 64 - 1 then 20
  else 0.

(** ** Completing a message *)

(** What the pusher thread knows: the start bytes ["8=<ver><SOH>9="], their
    length and SOH. *)
Record pusher_thread_args_t := mkArgs {
  FIX_start : list Z; FIX_start_length : Z; args_soh : Z }.

(** The call of [MsgDB::store_sent_msg]: the arguments, the message being the
    bytes the statement binds. *)
Record sent_record := mkSent {
  sent_seqnum : Z; sent_len : Z; sent_ttl : Z * Z; sent_msg : list Z; sent_type : list Z }.

(** The result: the new sequence number, the entry, the total length, the
    offset of the first byte of the complete message, and the record given to
    the database. *)
Record completed := mkCompleted {
  c_seq : Z; c_buffer : list Z; c_length : Z; c_start : Z; c_sent : sent_record }.

Definition complete_FIX_message (msg_seq_number : Z) (buffer : list Z) (msg_length : Z)
    (args : pusher_thread_args_t) : option completed :=
  let msg_seq_number := u64 (msg_seq_number + 1) in
  let msg_seq_number_digits := get_digit_count msg_seq_number in
  ttl ← get_ttl buffer;
  mt ← cstr_at buffer MSG_TYPE_STRING_OFFSET;
  stored ← read_at buffer PARTIAL_OFFSET msg_length;
  let sent := mkSent msg_seq_number msg_length ttl stored mt in
  let body_length := u64 (3 + zlen mt + 1 + 3 + msg_seq_number_digits + msg_length - 3) in
  let body_length_digits := get_digit_count body_length in
  let total_prefix_length := FIX_start_length args + body_length_digits + 1 + zlen mt + 1
                             + get_digit_count msg_seq_number + 6 in
  let at_prefix := PARTIAL_OFFSET - total_prefix_length in
  buf ← write_at buffer at_prefix
          (FIX_start args ++ dec body_length ++ [args_soh args] ++ bytes_of_string "35=" ++ mt
           ++ [args_soh args] ++ bytes_of_string "34=" ++ dec msg_seq_number ++ [0]);
  buf ← write_at buf PARTIAL_OFFSET [args_soh args];
  summed ← read_at buf at_prefix (total_prefix_length + msg_length - 3);
  '(_, buf, _) ← uint_to_str_zero_padded 4 (args_soh args) (get_FIX_checksum summed) buf
                   (PARTIAL_OFFSET + msg_length);
  Some (mkCompleted msg_seq_number buf (msg_length + total_prefix_length + 4) at_prefix sent).

(** ** Queueing a message *)

(** [gettimeofday] plus the time to live. *)
Definition expire_time (now ttl : Z * Z) : Z * Z :=
  let sec := now.1 + ttl.1 in
  let usec := now.2 + ttl.2 in
  if 1000000 <=? usec then (sec + 1, usec - 1000000) else (sec, usec).

(** Filling an entry: the four stores all push functions share. *)
Definition fill_entry (entry : list Z) (time_to_live : Z * Z) (data msg_type : list Z)
    : option (list Z) :=
  e ← set_length_of_partial_msg entry (zlen data);
  e ← set_msg_type e msg_type;
  e ← set_ttl e time_to_live;
  write_at e PARTIAL_OFFSET data.

(** [strnlen(msg_type, MSG_TYPE_MAX_LENGTH + 1)]. *)
Fixpoint strnlen (l : list Z) (n : nat) {struct n} : option Z :=
  match n with
  | O => Some 0
  | S n =>
      match l with
      | [] => None
      | c :: l => if c =? 0 then Some 0 else k ← strnlen l n; Some (1 + k)
      end
  end.

(** A bravo (or romeo) entry: [None] is a null [data] pointer. *)
Record bravo_t := mkBravo { allocated_size : Z; bdata : option (list Z) }.

(** The part of [push] that fills a bravo entry: [malloc] returns the block or
    fails.  The result is the return value and the entry, which is committed
    in both cases. *)
Definition fill_bravo (malloc : Z → option (list Z)) (entry : bravo_t) (time_to_live : Z * Z)
    (data msg_type : list Z) : option (Z * bravo_t) :=
  let needed := zlen data + MSG_TYPE_STRING_OFFSET + FIX_BUFFER_RESERVED_HEAD
                + FIX_BUFFER_RESERVED_TAIL in
  if allocated_size entry <? needed then
    match malloc needed with
    | None => Some (ENOMEM, mkBravo 0 None)
    | Some block =>
        e ← fill_entry block time_to_live data msg_type;
        Some (0, mkBravo needed (Some e))
    end
  else
    block ← bdata entry;
    e ← fill_entry block time_to_live data msg_type;
    Some (0, mkBravo (allocated_size entry) (Some e)).

(** What a push call does: nothing, or commit an entry of one of the queues. *)
Inductive push_effect :=
  | PushNothing
  | PushAlfa (entry : list Z)
  | PushBravo (entry : bravo_t)
  | PushCharlie (entry : list Z).

(** [push]: [alfa_entry] and [bravo_entry] are the entries the publisher
    would acquire, [now] what [gettimeofday] returns, [error] the flag. *)
Definition push (malloc : Z → option (list Z)) (now : Z * Z) (error : Z)
    (alfa_entry : list Z) (bravo_entry : bravo_t) (ttl : Z * Z) (data msg_type : list Z)
    : option (Z * push_effect) :=
  strl ← strnlen msg_type (Z.to_nat (MSG_TYPE_MAX_LENGTH + 1));
  if MSG_TYPE_MAX_LENGTH <? strl + 1 then Some (EINVAL, PushNothing)
  else
    let time_to_live := expire_time now ttl in
    if zlen data <=? ALFA_MAX_DATA_SIZE - MSG_TYPE_STRING_OFFSET - FIX_BUFFER_RESERVED_HEAD
                     - FIX_BUFFER_RESERVED_TAIL
    then e ← fill_entry alfa_entry time_to_live data msg_type; Some (error, PushAlfa e)
    else
      '(r, e) ← fill_bravo malloc bravo_entry time_to_live data msg_type;
      Some (if r =? 0 then error else r, PushBravo e).

Definition push_to_romeo (malloc : Z → option (list Z)) (now : Z * Z) (error : Z)
    (romeo_entry : bravo_t) (ttl : Z * Z) (data msg_type : list Z) : option (Z * push_effect) :=
  strl ← strnlen msg_type (Z.to_nat (MSG_TYPE_MAX_LENGTH + 1));
  if MSG_TYPE_MAX_LENGTH <? strl + 1 then Some (EINVAL, PushNothing)
  else
    '(r, e) ← fill_bravo malloc romeo_entry (expire_time now ttl) data msg_type;
    Some (if r =? 0 then error else r, PushBravo e).

Definition session_push (now : Z * Z) (error : Z) (charlie_entry : list Z) (ttl : Z * Z)
    (data msg_type : list Z) : option (Z * push_effect) :=
  strl ← strnlen msg_type (Z.to_nat (MSG_TYPE_MAX_LENGTH + 1));
  if MSG_TYPE_MAX_LENGTH <? strl + 1 then Some (EINVAL, PushNothing)
  else if zlen data <=? CHARLIE_MAX_DATA_SIZE - MSG_TYPE_STRING_OFFSET - FIX_BUFFER_RESERVED_HEAD
                        - FIX_BUFFER_RESERVED_TAIL
  then e ← fill_entry charlie_entry (expire_time now ttl) data msg_type; Some (error, PushCharlie e)
  else Some (EINVAL, PushNothing).

(** ** What a complete message is *)

Definition fix_body (soh : Z) (mt : list Z) (seq : Z) (fields : list Z) : list Z :=
  bytes_of_string "35=" ++ mt ++ [soh] ++ bytes_of_string "34=" ++ dec seq ++ fields.

(** BeginString and BodyLength, the body, and the checksum over all of it. *)
Definition fix_message (start : list Z) (soh : Z) (body : list Z) : list Z :=
  let m := start ++ dec (zlen body) ++ [soh] ++ body in
  m ++ bytes_of_string "10=" ++ padded 3 (byte_sum m mod 256) ++ [soh].

Lemma get_digit_count_dec v : 0 ≤ v < 2 ^ 64 → get_digit_count v = zlen (dec v).
Proof.
  intros Hv. unfold get_digit_count.
  assert (Hd : ∀ k, 1 ≤ k → 10 ^ (k - 1) ≤ v < 10 ^ k → zlen (dec v) = k)
    by (intros; by apply dec_length_eq).
  repeat (case_match; bool_hyps); try lia; symmetry;
    first [apply Hd; [lia | split; cbn; lia] | rewrite dec_small by lia; done].
Qed.

Lemma length_fix_body soh mt seq fields :
  zlen (fix_body soh mt seq fields) = 7 + zlen mt + zlen (dec seq) + zlen fields.
Proof.
  unfold fix_body. change (bytes_of_string "35=") with [51; 53; 61].
  change (bytes_of_string "34=") with [51; 52; 61]. llia.
Qed.

Lemma getu64_total buf off : 0 ≤ off → off + 8 ≤ zlen buf → is_Some (getu64 buf off).
Proof.
  intros H0 Hlen. unfold getu64.
  destruct (read_at buf off 8) as [l|] eqn:E.
  - apply read_at_split in E as (? & ? & _ & _ & Hl).
    do 8 (destruct l as [|? l]; [simpl in Hl; lia|]). destruct l; [eauto | simpl in Hl; lia].
  - unfold read_at in E. revert E. bsolve. done.
Qed.

(** The head of an entry: the length word, the message type and the expire
    time are readable. *)
Definition entry_head (h mt : list Z) (ttl : Z * Z) : Prop :=
  zlen h = PARTIAL_OFFSET ∧ cstr_at h MSG_TYPE_STRING_OFFSET = Some mt ∧ zlen mt < 16 ∧
  get_ttl h = Some ttl.

Lemma cstr_app_l (l r s : list Z) : cstr l = Some s → cstr (l ++ r) = Some s.
Proof.
  revert s. induction l as [|c l IH]; intros s; cbn [cstr app]; [done|].
  destruct (c =? 0); [done|]. destruct (cstr l) as [s'|]; [|done]. obind. intros [= <-].
  by rewrite (IH s').
Qed.

Lemma cstr_at_app_l l r off s : cstr_at l off = Some s → cstr_at (l ++ r) off = Some s.
Proof.
  unfold cstr_at. case_match; [|done]. bool_hyps. intros Hs.
  destruct (decide (off ≤ zlen l)).
  - rewrite drop_app_le by lia. by apply cstr_app_l.
  - rewrite drop_ge in Hs by lia. done.
Qed.

Lemma read_at_app_l l r off n d : read_at l off n = Some d → read_at (l ++ r) off n = Some d.
Proof.
  intros (a & c & -> & -> & ->)%read_at_split. rewrite <- !app_assoc. by apply read_at_mid.
Qed.

Lemma getu64_app_l l r off v : getu64 l off = Some v → getu64 (l ++ r) off = Some v.
Proof.
  unfold getu64. destruct (read_at l off 8) as [d|] eqn:E; [|done].
  by rewrite (read_at_app_l _ r _ _ _ E).
Qed.

Lemma get_ttl_app_l l r ttl : get_ttl l = Some ttl → get_ttl (l ++ r) = Some ttl.
Proof.
  unfold get_ttl. destruct (getu64 l TV_SEC_OFFSET) as [a|] eqn:E1; [|done].
  destruct (getu64 l TV_USEC_OFFSET) as [b|] eqn:E2; [|done].
  by rewrite (getu64_app_l _ r _ _ E1), (getu64_app_l _ r _ _ E2).
Qed.

Lemma complete_spec seq h mt ttl x inner tail start soh :
  entry_head h mt ttl → 0 ≤ seq < 2 ^ 64 - 1 → zlen start ≤ 31 →
  zlen inner < 2 ^ 32 → 4 ≤ zlen tail →
  let partial := x :: inner ++ bytes_of_string "10=" in
  let msg := fix_message start soh (fix_body soh mt (seq + 1) (soh :: inner)) in
  ∃ h1 tail2,
    complete_FIX_message seq (h ++ partial ++ tail) (zlen partial) (mkArgs start (zlen start) soh)
    = Some (mkCompleted (seq + 1) (h1 ++ msg ++ tail2) (zlen msg) (zlen h1)
              (mkSent (seq + 1) (zlen partial) ttl partial mt)) ∧
    zlen h1 + zlen msg + zlen tail2 = zlen (h ++ partial ++ tail).
Proof.
  intros (Hh & Hmt & Hmtl & Httl) Hseq Hstart Hinner Htail partial msg.
  assert (Hs1 : u64 (seq + 1) = seq + 1) by (unfold u64; apply Z.mod_small; lia).
  set (body := fix_body soh mt (seq + 1) (soh :: inner)) in *.
  assert (Hdseq : zlen (dec (seq + 1)) ≤ 20) by (apply dec_length_le; lia).
  assert (Hbl : zlen body = 8 + zlen mt + zlen (dec (seq + 1)) + zlen inner)
    by (unfold body; rewrite length_fix_body; llia).
  assert (Hdb : zlen (dec (zlen body)) ≤ 11) by (apply dec_length_le; lia).
  assert (Hplen : zlen partial = 4 + zlen inner)
    by (unfold partial; change (bytes_of_string "10=") with [49; 48; 61]; llia).
  set (P := start ++ dec (zlen body) ++ [soh] ++ bytes_of_string "35=" ++ mt ++ [soh]
            ++ bytes_of_string "34=" ++ dec (seq + 1)).
  assert (HP : zlen P = zlen start + zlen (dec (zlen body)) + 1 + zlen mt + 1
                        + zlen (dec (seq + 1)) + 6).
  { unfold P. change (bytes_of_string "35=") with [51; 53; 61].
    change (bytes_of_string "34=") with [51; 52; 61]. llia. }
  destruct (split_free h (PARTIAL_OFFSET - zlen P)) as (h1 & pre & -> & Hh1).
  { unfold PARTIAL_OFFSET, MSG_TYPE_STRING_OFFSET, FIX_BUFFER_RESERVED_HEAD in *. lia. }
  assert (Hpre : zlen pre = zlen P) by llia.
  destruct (split_free tail 4) as (t4 & tail2 & -> & Ht4); [lia|].
  exists h1, tail2. unfold complete_FIX_message. cbn [args_soh FIX_start FIX_start_length].
  rewrite (get_ttl_app_l _ _ _ Httl). obind. rewrite (cstr_at_app_l _ _ _ _ Hmt). obind.
  rewrite (read_at_mid (h1 ++ pre) partial (t4 ++ tail2)) by done. obind. cbv zeta. rewrite Hs1.
  assert (Hbody : u64 (3 + zlen mt + 1 + 3 + get_digit_count (seq + 1) + zlen partial - 3) = zlen body).
  { rewrite get_digit_count_dec by lia. rewrite Hplen, Hbl. unfold u64. rewrite Z.mod_small; lia. }
  rewrite Hbody, !get_digit_count_dec by lia. rewrite <- HP.
  assert (HPz : start ++ dec (zlen body) ++ [soh] ++ bytes_of_string "35=" ++ mt ++ [soh]
    ++ bytes_of_string "34=" ++ dec (seq + 1) ++ [0] = P ++ [0]) by (unfold P; by app_norm).
  rewrite HPz.
  replace ((h1 ++ pre) ++ partial ++ t4 ++ tail2)
    with (h1 ++ (pre ++ [x]) ++ inner ++ bytes_of_string "10=" ++ t4 ++ tail2)
    by (unfold partial; by app_norm).
  rewrite (write_at_mid h1 (pre ++ [x]) _ (P ++ [0])) by llia. obind.
  replace (h1 ++ (P ++ [0]) ++ inner ++ bytes_of_string "10=" ++ t4 ++ tail2)
    with ((h1 ++ P) ++ [0] ++ inner ++ bytes_of_string "10=" ++ t4 ++ tail2) by (by app_norm).
  rewrite (write_at_mid (h1 ++ P) [0] _ [soh]) by llia. obind.
  assert (HM : ∃ M, M = start ++ dec (zlen body) ++ [soh] ++ body ∧ M = P ++ [soh] ++ inner).
  { eexists; split; [done|]. unfold body, fix_body, P. by app_norm. }
  destruct HM as (M & HM & HMP).
  replace ((h1 ++ P) ++ [soh] ++ inner ++ bytes_of_string "10=" ++ t4 ++ tail2)
    with (h1 ++ M ++ bytes_of_string "10=" ++ t4 ++ tail2) by (rewrite HMP; by app_norm).
  rewrite (read_at_mid h1 M) by (rewrite ?HMP; llia). obind.
  replace (h1 ++ M ++ bytes_of_string "10=" ++ t4 ++ tail2)
    with ((h1 ++ M ++ bytes_of_string "10=") ++ t4 ++ tail2) by (by app_norm).
  replace (PARTIAL_OFFSET + zlen partial) with (zlen (h1 ++ M ++ bytes_of_string "10=")).
  2: { rewrite HMP, Hplen. change (bytes_of_string "10=") with [49; 48; 61]. llia. }
  pose proof (get_FIX_checksum_range M) as Hchk.
  change 4 with (Z.of_nat 4). rewrite uint_to_str_zero_padded_spec by llia. obind.
  assert (Hmsg : msg = M ++ bytes_of_string "10=" ++ padded 3 (get_FIX_checksum M) ++ [soh])
    by (unfold msg, fix_message; by rewrite <- HM, get_FIX_checksum_sum).
  assert (Hl3 : zlen (padded 3 (get_FIX_checksum M)) = 3) by (by rewrite length_padded).
  assert (Hlen : zlen msg = zlen P + zlen partial + 4).
  { rewrite Hmsg, HMP, Hplen. change (bytes_of_string "10=") with [49; 48; 61]. llia. }
  split.
  - f_equal. f_equal; [rewrite Hmsg; by app_norm | lia | lia].
  - llia.
Qed.

(** ** What the push functions leave in an entry *)

Lemma getu64_mid a v d c off :
  off = zlen a → d = be_bytes 8 v → getu64 (a ++ d ++ c) off = Some (v mod 2 ^ 64).
Proof.
  intros -> ->. rewrite (getu64_be _ _ (be_bytes 8 v)).
  - by rewrite be_value_be_bytes.
  - apply read_at_mid; [done|]. by rewrite length_be_bytes.
  - apply bytes_be_bytes.
Qed.

Lemma getu32_mid a v d c off :
  off = zlen a → d = be_bytes 4 v → getu32 (a ++ d ++ c) off = Some (v mod 2 ^ 32).
Proof.
  intros -> ->. rewrite (getu32_be _ _ (be_bytes 4 v)).
  - by rewrite be_value_be_bytes.
  - apply read_at_mid; [done|]. by rewrite length_be_bytes.
  - apply bytes_be_bytes.
Qed.

Lemma fill_entry_spec entry tv data mt r :
  Forall (λ c, c ≠ 0) mt → zlen mt < 16 → zlen data < 2 ^ 32 →
  PARTIAL_OFFSET + zlen data + 4 ≤ zlen entry →
  ∃ h tail, fill_entry entry tv data (mt ++ 0 :: r) = Some (h ++ data ++ tail) ∧
    entry_head h mt (u64 tv.1, u64 tv.2) ∧ 4 ≤ zlen tail ∧
    get_length_of_partial_msg (h ++ data ++ tail) = Some (zlen data) ∧
    zlen (h ++ data ++ tail) = zlen entry.
Proof.
  intros Hz Hmt Hd32 Hfit.
  unfold PARTIAL_OFFSET, MSG_TYPE_STRING_OFFSET, FIX_BUFFER_RESERVED_HEAD in Hfit.
  destruct (split_free entry 4) as (w & e1 & -> & Hw); [lia|].
  destruct (split_free e1 (zlen mt + 1)) as (m1 & e2 & -> & Hm1); [llia|].
  destruct (split_free e2 (16 - (zlen mt + 1))) as (m2 & e3 & -> & Hm2); [llia|].
  destruct (split_free e3 8) as (s8 & e4 & -> & Hs8); [llia|].
  destruct (split_free e4 8) as (us8 & e5 & -> & Hus8); [llia|].
  destruct (split_free e5 224) as (r224 & e6 & -> & Hr); [llia|].
  destruct (split_free e6 (zlen data)) as (d & tail & -> & Hd); [llia|].
  remember (be_bytes 4 (zlen data)) as L eqn:EL. remember (be_bytes 8 (u64 tv.1)) as S8 eqn:ES.
  remember (be_bytes 8 (u64 tv.2)) as U8 eqn:EU.
  assert (HL : zlen L = 4) by (by rewrite EL, length_be_bytes).
  assert (HS : zlen S8 = 8) by (by rewrite ES, length_be_bytes).
  assert (HU : zlen U8 = 8) by (by rewrite EU, length_be_bytes).
  set (h := L ++ (mt ++ [0]) ++ m2 ++ S8 ++ U8 ++ r224).
  exists h, tail.
  assert (Hfill : fill_entry (w ++ m1 ++ m2 ++ s8 ++ us8 ++ r224 ++ d ++ tail) tv data (mt ++ 0 :: r)
    = Some (h ++ data ++ tail)).
  { unfold fill_entry, set_length_of_partial_msg, set_msg_type, set_ttl.
    rewrite setu32_be. rewrite <- EL. rewrite write_at_head by llia. obind.
    rewrite cstr_app by done. obind.
    rewrite (write_at_mid L m1) by (unfold MSG_TYPE_STRING_OFFSET; llia). obind.
    rewrite setu64_be. rewrite <- ES. rewrite (app_assoc (mt ++ [0]) m2), (app_assoc L).
    rewrite (write_at_mid (L ++ (mt ++ [0]) ++ m2) s8) by (unfold TV_SEC_OFFSET, MSG_TYPE_MAX_LENGTH; llia).
    obind. rewrite setu64_be. rewrite <- EU. rewrite (app_assoc _ S8).
    rewrite (write_at_mid ((L ++ (mt ++ [0]) ++ m2) ++ S8) us8)
      by (unfold TV_USEC_OFFSET, TV_SEC_OFFSET, MSG_TYPE_MAX_LENGTH; llia).
    obind. rewrite (app_assoc _ U8), (app_assoc _ r224).
    rewrite (write_at_mid ((((L ++ (mt ++ [0]) ++ m2) ++ S8) ++ U8) ++ r224) d)
      by (unfold PARTIAL_OFFSET, MSG_TYPE_STRING_OFFSET, FIX_BUFFER_RESERVED_HEAD; llia).
    f_equal. unfold h. by app_norm. }
  split; [done|]. split; [|split; [llia|split]].
  - unfold entry_head. split; [|split; [|split]].
    + unfold h, PARTIAL_OFFSET, MSG_TYPE_STRING_OFFSET, FIX_BUFFER_RESERVED_HEAD. llia.
    + unfold h. rewrite <- (app_assoc mt). by apply cstr_at_mid.
    + done.
    + unfold get_ttl, h.
      replace (L ++ (mt ++ [0]) ++ m2 ++ S8 ++ U8 ++ r224)
        with ((L ++ (mt ++ [0]) ++ m2) ++ S8 ++ U8 ++ r224) by (by app_norm).
      assert (Hsec : TV_SEC_OFFSET = zlen (L ++ (mt ++ [0]) ++ m2))
        by (unfold TV_SEC_OFFSET, MSG_TYPE_MAX_LENGTH; llia).
      assert (Husec : TV_USEC_OFFSET = zlen ((L ++ (mt ++ [0]) ++ m2) ++ S8))
        by (unfold TV_USEC_OFFSET, MSG_TYPE_MAX_LENGTH; llia).
      rewrite (getu64_mid _ _ _ _ _ Hsec ES). obind.
      rewrite app_assoc, (getu64_mid _ _ _ _ _ Husec EU). obind.
      unfold u64. by rewrite !Z.mod_mod by lia.
  - unfold get_length_of_partial_msg, h. rewrite <- app_assoc.
    pose proof (getu32_mid [] _ L ((((mt ++ [0]) ++ m2 ++ S8 ++ U8 ++ r224)) ++ data ++ tail) 0
      eq_refl EL) as Hget. cbn [app] in Hget. rewrite Hget. by rewrite Z.mod_small by lia.
  - unfold h. llia.
Qed.

Lemma strnlen_cstr mt r n :
  Forall (λ c, c ≠ 0) mt → (length mt < n)%nat → strnlen (mt ++ 0 :: r) n = Some (zlen mt).
Proof.
  intros Hz. revert n. induction Hz as [|c mt Hc _ IH]; intros [|n] Hn; cbn [app strnlen length] in *;
    try lia; [done|].
  rewrite (proj2 (Z.eqb_neq c 0)), IH by (done || lia). obind. f_equal. lia.
Qed.

Lemma strnlen_long mt r n :
  Forall (λ c, c ≠ 0) mt → (n ≤ length mt)%nat → strnlen (mt ++ 0 :: r) n = Some (Z.of_nat n).
Proof.
  revert mt. induction n as [|n IH]; intros mt Hz Hn; [done|].
  destruct Hz as [|c mt Hc Hz]; cbn [app strnlen length] in *; [lia|].
  rewrite (proj2 (Z.eqb_neq c 0)), IH by (done || lia). obind. f_equal. lia.
Qed.

Lemma fill_bravo_spec malloc bravo tv data mt r :
  (∀ sz b, 0 ≤ sz → malloc sz = Some b → zlen b = sz) →
  Forall (λ c, c ≠ 0) mt → zlen mt < 16 → zlen data < 2 ^ 32 →
  from_option (λ d, zlen d) 0 (bdata bravo) = allocated_size bravo →
  ∃ ret e, fill_bravo malloc bravo tv data (mt ++ 0 :: r) = Some (ret, e) ∧
    ((ret = ENOMEM ∧ e = mkBravo 0 None ∧ allocated_size bravo < zlen data + 264 ∧
      malloc (zlen data + 264) = None) ∨
     (ret = 0 ∧ ∃ h tail, bdata e = Some (h ++ data ++ tail) ∧ entry_head h mt (u64 tv.1, u64 tv.2) ∧
        4 ≤ zlen tail ∧ get_length_of_partial_msg (h ++ data ++ tail) = Some (zlen data) ∧
        zlen (h ++ data ++ tail) = allocated_size e)).
Proof.
  intros Hm Hz Hmt Hd Hb. unfold fill_bravo.
  assert (Hneed : zlen data + MSG_TYPE_STRING_OFFSET + FIX_BUFFER_RESERVED_HEAD
    + FIX_BUFFER_RESERVED_TAIL = zlen data + 264)
    by (unfold MSG_TYPE_STRING_OFFSET, FIX_BUFFER_RESERVED_HEAD, FIX_BUFFER_RESERVED_TAIL; lia).
  rewrite Hneed. destruct (Z.ltb_spec (allocated_size bravo) (zlen data + 264)).
  - destruct (malloc (zlen data + 264)) as [block|] eqn:E; [|eauto 10].
    apply Hm in E; [|lia].
    destruct (fill_entry_spec block tv data mt r) as (h & tail & -> & Hh & Ht & Hg & Hl); try done.
    { unfold PARTIAL_OFFSET, MSG_TYPE_STRING_OFFSET, FIX_BUFFER_RESERVED_HEAD. lia. }
    obind. eexists _, _. split; [done|]. right. split; [done|]. exists h, tail. cbn. by rewrite Hl, E.
  - destruct (bdata bravo) as [block|]; cbn [from_option] in Hb; [obind | lia].
    destruct (fill_entry_spec block tv data mt r) as (h & tail & -> & Hh & Ht & Hg & Hl); try done.
    { unfold PARTIAL_OFFSET, MSG_TYPE_STRING_OFFSET, FIX_BUFFER_RESERVED_HEAD. lia. }
    obind. eexists _, _. split; [done|]. right. split; [done|]. exists h, tail. cbn. by rewrite Hl, Hb.
Qed.

(** What a call of [push] does. *)
Lemma push_cases malloc now error alfa bravo ttl data mt r :
  (∀ sz b, 0 ≤ sz → malloc sz = Some b → zlen b = sz) →
  Forall (λ c, c ≠ 0) mt → zlen data < 2 ^ 32 → zlen alfa = ALFA_ENTRY_SIZE →
  from_option (λ d, zlen d) 0 (bdata bravo) = allocated_size bravo →
  ∃ ret eff, push malloc now error alfa bravo ttl data (mt ++ 0 :: r) = Some (ret, eff) ∧
  match eff with
  | PushNothing => ret = EINVAL ∧ 16 ≤ zlen mt
  | PushCharlie _ => False
  | PushAlfa e => ret = error ∧ zlen mt < 16 ∧ zlen data ≤ 3828 ∧
      ∃ h tail, e = h ++ data ++ tail ∧ entry_head h mt (u64 (expire_time now ttl).1,
                                                         u64 (expire_time now ttl).2) ∧
                4 ≤ zlen tail ∧ get_length_of_partial_msg e = Some (zlen data) ∧ zlen e = ALFA_ENTRY_SIZE
  | PushBravo e => zlen mt < 16 ∧ 3828 < zlen data ∧
      ((ret = ENOMEM ∧ e = mkBravo 0 None ∧ allocated_size bravo < zlen data + 264 ∧
        malloc (zlen data + 264) = None) ∨
       (ret = error ∧ ∃ h tail, bdata e = Some (h ++ data ++ tail) ∧
          entry_head h mt (u64 (expire_time now ttl).1, u64 (expire_time now ttl).2) ∧
          4 ≤ zlen tail ∧ get_length_of_partial_msg (h ++ data ++ tail) = Some (zlen data) ∧
          zlen (h ++ data ++ tail) = allocated_size e))
  end.
Proof.
  intros Hm Hz Hd Ha Hb.
  assert (Hnl : 0 ≤ zlen data) by lia.
  unfold push. set (tv := expire_time now ttl).
  destruct (decide (zlen mt < 16)) as [Hmt|Hmt].
  2: { destruct (decide (zlen mt < 17)).
       - rewrite strnlen_cstr by (done || (change (Z.to_nat (MSG_TYPE_MAX_LENGTH + 1)) with 17%nat; lia)).
         obind. unfold MSG_TYPE_MAX_LENGTH. bsolve. eexists _, _. split; [done|]. cbn. lia.
       - rewrite strnlen_long by (done || (change (Z.to_nat (MSG_TYPE_MAX_LENGTH + 1)) with 17%nat; lia)).
         obind. eexists _, _. split; [done|]. cbn. lia. }
  rewrite strnlen_cstr by (done || (change (Z.to_nat (MSG_TYPE_MAX_LENGTH + 1)) with 17%nat; lia)).
  obind. unfold MSG_TYPE_MAX_LENGTH at 1. bsolve.
  change (ALFA_MAX_DATA_SIZE - _ - _ - _) with 3828. change (zlen data + MSG_TYPE_STRING_OFFSET +
    FIX_BUFFER_RESERVED_HEAD + FIX_BUFFER_RESERVED_TAIL) with (zlen data + 4 + 256 + 4).
  destruct (Z.leb_spec (zlen data) 3828) as [Hle|Hgt].
  - destruct (fill_entry_spec alfa tv data mt r) as (h & tail & -> & Hh & Ht & Hg & Hl); try done.
    { rewrite Ha. unfold PARTIAL_OFFSET, MSG_TYPE_STRING_OFFSET, FIX_BUFFER_RESERVED_HEAD,
        ALFA_ENTRY_SIZE. lia. }
    obind. eexists _, _. split; [done|]. cbv iota beta.
    repeat (split; [lia || done|]). exists h, tail. by rewrite Hl, Ha.
  - destruct (fill_bravo_spec malloc bravo tv data mt r) as (ret & e & -> & He); try done.
    obind. destruct He as [(-> & -> & ? & ?)|(-> & h & tail & He)].
    + eexists _, _. split; [done|]. cbv iota beta. do 2 (split; [done|]). by left.
    + eexists _, _. split; [done|]. cbv iota beta. do 2 (split; [done|]). right. split; [done|].
      by exists h, tail.
Qed.

(** ** Properties *)

(** C12: [complete_FIX_message] turns an entry into the complete message
    [8=ver|9=len|35=type|34=seq|fields|10=chk|] in place: BodyLength is
    exactly the number of bytes between its field and the CheckSum tag, the
    checksum is that of all bytes before it in three digits, the sequence
    number is the previous one plus one, the returned start and length
    designate exactly those bytes, the rest of the entry is not touched past
    its size, and the partial message as it was queued, with its type and
    expire time, is what the database is given. *)
Theorem complete_FIX_message_spec seq h mt ttl x inner tail start soh :
  entry_head h mt ttl → 0 ≤ seq < 2 ^ 64 - 1 → zlen start ≤ 31 →
  zlen inner < 2 ^ 32 → 4 ≤ zlen tail →
  let partial := x :: inner ++ bytes_of_string "10=" in
  let entry := h ++ partial ++ tail in
  ∃ c, complete_FIX_message seq entry (zlen partial) (mkArgs start (zlen start) soh) = Some c ∧
    c_seq c = seq + 1 ∧
    read_at (c_buffer c) (c_start c) (c_length c)
      = Some (fix_message start soh (fix_body soh mt (seq + 1) (soh :: inner))) ∧
    zlen (c_buffer c) = zlen entry ∧
    c_sent c = mkSent (seq + 1) (zlen partial) ttl partial mt.
Proof.
  intros Hh Hseq Hst Hin Ht partial entry.
  destruct (complete_spec seq h mt ttl x inner tail start soh) as (h1 & t2 & Hc & Hl); try done.
  eexists. split; [exact Hc|]. cbn [c_seq c_buffer c_start c_length c_sent].
  split; [done|]. split; [by apply read_at_mid|]. split; [|done]. unfold entry, partial. llia.
Qed.

(** C28: [push] refuses a message type longer than 15 bytes with [EINVAL] and
    queues nothing; otherwise it fills exactly one entry: an alfa entry when
    the message leaves room for the head and the checksum there, a bravo
    entry of sufficient size else.  Either way the entry holds the length,
    the type, the expire time and the data where the pusher thread looks for
    them, with room for the checksum behind; on [ENOMEM] the bravo entry is
    committed without data. *)
Theorem push_spec malloc now error alfa bravo ttl data mt r :
  (∀ sz b, 0 ≤ sz → malloc sz = Some b → zlen b = sz) →
  Forall (λ c, c ≠ 0) mt → zlen data < 2 ^ 32 → zlen alfa = ALFA_ENTRY_SIZE →
  from_option (λ d, zlen d) 0 (bdata bravo) = allocated_size bravo →
  ∃ ret eff, push malloc now error alfa bravo ttl data (mt ++ 0 :: r) = Some (ret, eff) ∧
  match eff with
  | PushNothing => ret = EINVAL ∧ 16 ≤ zlen mt
  | PushCharlie _ => False
  | PushAlfa e => ret = error ∧ zlen mt < 16 ∧ zlen data ≤ 3828 ∧
      ∃ h tail, e = h ++ data ++ tail ∧ entry_head h mt (u64 (expire_time now ttl).1,
                                                         u64 (expire_time now ttl).2) ∧
                4 ≤ zlen tail ∧ get_length_of_partial_msg e = Some (zlen data) ∧ zlen e = ALFA_ENTRY_SIZE
  | PushBravo e => zlen mt < 16 ∧ 3828 < zlen data ∧
      ((ret = ENOMEM ∧ e = mkBravo 0 None ∧ allocated_size bravo < zlen data + 264 ∧
        malloc (zlen data + 264) = None) ∨
       (ret = error ∧ ∃ h tail, bdata e = Some (h ++ data ++ tail) ∧
          entry_head h mt (u64 (expire_time now ttl).1, u64 (expire_time now ttl).2) ∧
          4 ≤ zlen tail ∧ get_length_of_partial_msg (h ++ data ++ tail) = Some (zlen data) ∧
          zlen (h ++ data ++ tail) = allocated_size e))
  end.
Proof. apply push_cases. Qed.

Lemma push_spec_witness :
  let data := replicate 4000 65 in
  ∃ ret eff, push (λ sz, Some (replicate (Z.to_nat sz) 0)) (100, 999999) 0
               (replicate (Z.to_nat ALFA_ENTRY_SIZE) 0) (mkBravo 0 None) (5, 3) data [68; 0]
             = Some (ret, eff) ∧ ret = 0.
Proof.
  intros data.
  destruct (push_spec (λ sz, Some (replicate (Z.to_nat sz) 0)) (100, 999999) 0
    (replicate (Z.to_nat ALFA_ENTRY_SIZE) 0) (mkBravo 0 None) (5, 3) data [68] []) as (ret & eff & H & He).
  - intros sz b Hsz [= <-]. rewrite length_replicate. lia.
  - by repeat constructor.
  - vm_compute. reflexivity.
  - vm_compute. reflexivity.
  - reflexivity.
  - exists ret, eff. split; [exact H|]. destruct eff; cbn in He.
    + destruct He as [_ He]. lia.
    + by destruct He.
    + destruct He as (_ & _ & [(_ & _ & _ & He)|[He _]]); [discriminate He | exact He].
    + done.
Defined.

Lemma complete_FIX_message_spec_witness :
  let h := be_bytes 4 9 ++ [68] ++ replicate 15 0 ++ replicate 16 0 ++ replicate 224 0 in
  let start := bytes_of_string "8=FIX.4.4" ++ [1] ++ bytes_of_string "9=" in
  let inner := bytes_of_string "52=X" ++ [1] in
  ∃ c, complete_FIX_message 7 (h ++ (0 :: inner ++ bytes_of_string "10=") ++ [0; 0; 0; 0; 0])
         (zlen (0 :: inner ++ bytes_of_string "10=")) (mkArgs start (zlen start) 1) = Some c ∧
    c_seq c = 8 ∧
    read_at (c_buffer c) (c_start c) (c_length c)
    = Some (start ++ bytes_of_string "15" ++ [1] ++ bytes_of_string "35=D" ++ [1]
            ++ bytes_of_string "34=8" ++ [1] ++ inner ++ bytes_of_string "10=194" ++ [1]).
Proof.
  intros h start inner.
  destruct (complete_FIX_message_spec 7 h [68] (0, 0) 0 inner [0; 0; 0; 0; 0] start 1)
    as (c & Hc & Hs & Hr & _).
  - repeat split; vm_compute; reflexivity.
  - lia.
  - vm_compute. discriminate.
  - vm_compute. reflexivity.
  - vm_compute. discriminate.
  - exists c. split; [exact Hc|]. split; [exact Hs|]. rewrite Hr. vm_compute. reflexivity.
Defined.
