(* ===== verification/PusherThread.v ===== *)
(** * The pusher thread: batching, [do_writev] and resending
    ([src/applib/fixio/fix_pusher.cpp])

    The kernel is an oracle: the list of what the successive [writev] calls
    return.  An [iovec] is the memory from [iov_base] to the end of its object
    and [iov_len].  [None] is undefined behaviour; a run whose oracle is used
    up is still running. *)
From S2P Require Import Prelude FixMsgUtils FixTypes FixMessageTX Pusher.

Record iovec := mkIov { iov_base : list Z; iov_len : Z }.

(** The return value of a [writev] call. *)
Inductive wret : Set := WErr (errno : Z) | WOk (n : Z).

(** The bytes the [iovec]s from [off] up to [len] designate. *)
Fixpoint iov_bytes (iovs : list iovec) : option (list Z) :=
  match iovs with
  | [] => Some []
  | v :: iovs => b ← read_at (iov_base v) 0 (iov_len v); r ← iov_bytes iovs; Some (b ++ r)
  end.

(** The [for (n = len_offset; n < len; ++n)] loop: the final [n] and [sum]. *)
Fixpoint find_offset (written : Z) (n sum : Z) (iovs : list iovec) : Z * Z :=
  match iovs with
  | [] => (n, sum)
  | v :: iovs =>
      let sum := u64 (sum + iov_len v) in
      if written <? sum then (n, sum) else find_offset written (n + 1) sum iovs
  end.

(** The [do ... while (1)] of [do_writev]: the return value ([None] while it
    runs), the bytes the sink has received, the rest of the oracle. *)
Fixpoint do_writev_loop (kernel : list wret) (total len len_offset : Z) (iov : list iovec)
    (out : list Z) : option (option Z * list Z * list wret) :=
  match kernel with
  | [] => Some (None, out, [])
  | WErr errno :: kernel =>
      if (errno =? EAGAIN) || (errno =? EINTR)
      then do_writev_loop kernel total len len_offset iov out
      else Some (Some errno, out, kernel)
  | WOk written :: kernel =>
      let active := take (Z.to_nat (len - len_offset)) (drop (Z.to_nat len_offset) iov) in
      offered ← iov_bytes active;
      let out := out ++ take (Z.to_nat written) offered in
      let total := u64 (total - written) in
      if total =? 0 then Some (Some 0, out, kernel)
      else
        let '(n, sum) := find_offset written len_offset 0 active in
        v ← iov !! Z.to_nat n;
        let delta := u64 (sum - written) in
        do_writev_loop kernel total len n
          (<[Z.to_nat n := mkIov (drop (Z.to_nat delta) (iov_base v)) (u64 (iov_len v - delta))]> iov)
          out
  end.

Definition do_writev (kernel : list wret) (total len : Z) (iov : list iovec) (out : list Z) :=
  do_writev_loop kernel total len 0 iov out.

(** The state of a batch. *)
Record batch := mkBatch {
  b_seq : Z; b_idx : Z; b_total : Z; b_vdata : list iovec; b_out : list Z;
  b_kernel : list wret; b_sent : list sent_record }.

Section Batch.
Context (IOV_MAX : Z) (args : pusher_thread_args_t).

(** One round of the batching loop up to the test for a full vector; an entry
    is its data pointer. *)
Definition batch_one (b : batch) (entry : option (list Z)) : option batch :=
  content ← entry;
  len ← get_length_of_partial_msg content;
  c ← complete_FIX_message (b_seq b) content len args;
  Some (mkBatch (c_seq c) (b_idx b + 1) (u64 (b_total b + c_length c))
          (<[Z.to_nat (b_idx b) := mkIov (drop (Z.to_nat (c_start c)) (c_buffer c)) (c_length c)]>
             (b_vdata b))
          (b_out b) (b_kernel b) (b_sent b ++ [c_sent c])).

Definition flush (b : batch) : option (option Z * batch) :=
  '(r, out, kernel) ← do_writev (b_kernel b) (b_total b) (b_idx b) (b_vdata b) (b_out b);
  Some (r, mkBatch (b_seq b) (b_idx b) (b_total b) (b_vdata b) out kernel (b_sent b)).

Definition reset_idx (b : batch) : batch :=
  mkBatch (b_seq b) 0 (b_total b) (b_vdata b) (b_out b) (b_kernel b) (b_sent b).

(** The loop over the available entries and the final [do_writev]: the return
    value ([None] while a [writev] has not returned) and the batch. *)
Fixpoint push_loop (entries : list (option (list Z))) (b : batch) : option (option Z * batch) :=
  match entries with
  | [] => flush b
  | e :: entries =>
      b ← batch_one b e;
      if IOV_MAX =? b_idx b then
        '(r, b) ← flush b;
        match r with
        | Some 0 => push_loop entries (reset_idx b)
        | _ => Some (r, b)
        end
      else push_loop entries b
  end.

(** [push_alfa] (and [push_charlie], [push_bravo]): nothing when the
    non-blocking wait finds no entry. *)
Definition push_queue (available : list (option (list Z))) (seq : Z) (kernel : list wret)
    (vdata : list iovec) : option (option Z * batch) :=
  match available with
  | [] => Some (Some 0, mkBatch seq 0 0 vdata [] kernel [])
  | _ => push_loop available (mkBatch seq 0 0 vdata [] kernel [])
  end.

Definition push_alfa (entries : list (list Z)) := push_queue (Some <$> entries).
Definition push_charlie (entries : list (list Z)) := push_queue (Some <$> entries).
Definition push_bravo (entries : list bravo_t) := push_queue (bdata <$> entries).

(** [push_romeo] waits for at least one entry. *)
Definition push_romeo (entries : list bravo_t) (seq : Z) (kernel : list wret)
    (vdata : list iovec) : option (option Z * batch) :=
  match entries with
  | [] => None
  | _ => push_loop (bdata <$> entries) (mkBatch seq 0 0 vdata [] kernel [])
  end.
End Batch.

(** ** Vectors of messages *)

Lemma iov_bytes_app l1 l2 b1 b2 :
  iov_bytes l1 = Some b1 → iov_bytes l2 = Some b2 → iov_bytes (l1 ++ l2) = Some (b1 ++ b2).
Proof.
  revert b1. induction l1 as [|v l1 IH]; intros b1; cbn [iov_bytes app]; [by intros [= <-]|].
  destruct (read_at _ _ _) as [d|]; [|done]. obind. destruct (iov_bytes l1) as [r|]; [|done].
  obind. intros [= <-] H2. rewrite (IH r) by done. obind. by rewrite app_assoc.
Qed.

Definition interrupt (r : wret) : Prop := r = WErr EAGAIN ∨ r = WErr EINTR.

Lemma do_writev_interrupts ints kernel total len off iov out :
  Forall interrupt ints →
  do_writev_loop (ints ++ kernel) total len off iov out
  = do_writev_loop kernel total len off iov out.
Proof. induction 1 as [|r ints [-> | ->] _ IH]; done. Qed.

Lemma do_writev_whole ints kernel total len iov bytes out :
  Forall interrupt ints → iov_bytes (take (Z.to_nat len) iov) = Some bytes → total = zlen bytes →
  do_writev (ints ++ WOk total :: kernel) total len iov out = Some (Some 0, out ++ bytes, kernel).
Proof.
  intros Hi Hb ->. unfold do_writev. rewrite do_writev_interrupts by done.
  cbn [do_writev_loop]. rewrite Z.sub_0_r. change (drop (Z.to_nat 0) iov) with iov. rewrite Hb. obind.
  rewrite Z.sub_diag, Nat2Z.id, firstn_all. done.
Qed.

(** A message waiting in an entry: its type, expire time, the byte the leading
    SOH will replace and the fields. *)
Record waiting := mkWaiting { w_type : list Z; w_ttl : Z * Z; w_first : Z; w_inner : list Z }.

Definition w_partial (w : waiting) : list Z := w_first w :: w_inner w ++ bytes_of_string "10=".

Definition entry_holds (entry : list Z) (w : waiting) : Prop :=
  ∃ h tail, entry = h ++ w_partial w ++ tail ∧ entry_head h (w_type w) (w_ttl w) ∧ 4 ≤ zlen tail ∧
    zlen (w_partial w) < 2 ^ 32 ∧ get_length_of_partial_msg entry = Some (zlen (w_partial w)).

Section Sending.
Context (start : list Z) (soh : Z).

(** The complete message number [seq]. *)
Definition numbered (seq : Z) (w : waiting) : list Z :=
  fix_message start soh (fix_body soh (w_type w) seq (soh :: w_inner w)).

Fixpoint stream (seq : Z) (ws : list waiting) : list Z :=
  match ws with [] => [] | w :: ws => numbered (seq + 1) w ++ stream (seq + 1) ws end.

Fixpoint sent_records (seq : Z) (ws : list waiting) : list sent_record :=
  match ws with
  | [] => []
  | w :: ws => mkSent (seq + 1) (zlen (w_partial w)) (w_ttl w) (w_partial w) (w_type w)
               :: sent_records (seq + 1) ws
  end.

#[local] Abbreviation args := (mkArgs start (zlen start) soh).

(** The vector holds the bytes [pre] gathered so far. *)
Definition gathered (b : batch) (pre : list Z) : Prop :=
  0 ≤ b_idx b ≤ zlen (b_vdata b) ∧
  iov_bytes (take (Z.to_nat (b_idx b)) (b_vdata b)) = Some pre ∧ b_total b = zlen pre.

Lemma batch_one_spec b entry w pre :
  entry_holds entry w → gathered b pre → b_idx b < zlen (b_vdata b) →
  0 ≤ b_seq b < 2 ^ 64 - 1 → zlen start ≤ 31 → zlen (pre ++ numbered (b_seq b + 1) w) < 2 ^ 64 →
  ∃ b', batch_one args b (Some entry) = Some b' ∧
    gathered b' (pre ++ numbered (b_seq b + 1) w) ∧ b_seq b' = b_seq b + 1 ∧
    b_idx b' = b_idx b + 1 ∧ b_out b' = b_out b ∧ b_kernel b' = b_kernel b ∧
    b_sent b' = b_sent b ++ sent_records (b_seq b) [w] ∧ zlen (b_vdata b') = zlen (b_vdata b).
Proof.
  intros (h & tail & -> & Hh & Ht & Hl & Hlen) ([Hi0 Hi1] & Hb & Htot) Hidx Hseq Hst Hbig.
  unfold batch_one. obind. rewrite Hlen. obind.
  assert (Hl3 : zlen (w_partial w) = 4 + zlen (w_inner w))
    by (unfold w_partial; change (bytes_of_string "10=") with [49; 48; 61]; llia).
  destruct (complete_spec (b_seq b) h (w_type w) (w_ttl w) (w_first w) (w_inner w) tail start soh)
    as (h1 & t2 & Hc & _); try done; try lia.
  unfold w_partial at 1 2. rewrite Hc. obind. fold (w_partial w).
  cbn [c_seq c_buffer c_length c_start c_sent]. fold (numbered (b_seq b + 1) w).
  rewrite Nat2Z.id, drop_app_length. eexists. split; [done|].
  cbn [b_seq b_idx b_total b_vdata b_out b_kernel b_sent].
  split; [|repeat split; try done; by rewrite length_insert].
  unfold gathered. cbn [b_idx b_total b_vdata]. rewrite length_insert.
  split; [lia|]. split.
  - replace (Z.to_nat (b_idx b + 1)) with (S (Z.to_nat (b_idx b))) by lia.
    erewrite take_S_r; [|apply list_lookup_insert_eq; lia].
    rewrite take_insert_ge by lia. apply iov_bytes_app; [done|].
    cbn [iov_bytes iov_base iov_len]. rewrite read_at_prefix by done. obind. by rewrite app_nil_r.
  - rewrite Htot. unfold u64. rewrite Z.mod_small by llia. llia.
Qed.

Lemma length_stream_cons seq w ws :
  zlen (stream seq (w :: ws)) = zlen (numbered (seq + 1) w) + zlen (stream (seq + 1) ws).
Proof. cbn [stream]. llia. Qed.

(** The loop over entries that do not fill the vector. *)
Lemma push_loop_gathers IOV_MAX rest entries ws : ∀ b pre,
  Forall2 entry_holds entries ws → gathered b pre →
  b_idx b + zlen ws < IOV_MAX → IOV_MAX ≤ zlen (b_vdata b) →
  0 ≤ b_seq b → b_seq b + zlen ws < 2 ^ 64 → zlen start ≤ 31 →
  zlen (pre ++ stream (b_seq b) ws) < 2 ^ 64 →
  ∃ b', push_loop IOV_MAX args ((Some <$> entries) ++ rest) b = push_loop IOV_MAX args rest b' ∧
    gathered b' (pre ++ stream (b_seq b) ws) ∧ b_seq b' = b_seq b + zlen ws ∧
    b_out b' = b_out b ∧ b_kernel b' = b_kernel b ∧
    b_sent b' = b_sent b ++ sent_records (b_seq b) ws ∧ zlen (b_vdata b') = zlen (b_vdata b) ∧
    b_idx b' = b_idx b + zlen ws.
Proof.
  induction entries as [|e entries IH] in ws |- *; intros b pre Hall Hg Hn Hv H0 Hs Hst Hbig;
    inversion Hall as [|? w ? ws' He Hall']; subst.
  - exists b. cbn [stream sent_records fmap list_fmap app]. rewrite !app_nil_r.
    repeat (split; [done || (simpl; lia)|]). simpl; lia.
  - cbn [fmap list_fmap app push_loop]. cbn [length] in Hn, Hs.
    cbn [stream] in Hbig |- *. rewrite app_assoc in Hbig.
    destruct (batch_one_spec b e w pre He Hg) as (b1 & -> & Hg1 & S1 & I1 & O1 & K1 & R1 & V1);
      [lia | lia | done | llia |]. obind.
    rewrite (proj2 (Z.eqb_neq IOV_MAX (b_idx b1))) by lia.
    destruct (IH ws' b1 (pre ++ numbered (b_seq b + 1) w)) as (b2 & -> & Hg2 & S2 & O2 & K2 & R2 & V2 & I2);
      rewrite ?S1; try done; try lia.
    exists b2. rewrite S1 in *. rewrite app_assoc. split; [done|]. split; [done|].
    split; [llia|]. rewrite O2, K2, R2, V2, I2, O1, K1, R1, I1, V1, <- app_assoc.
    repeat (split; [done|]). llia.
Qed.
End Sending.

(** ** A whole batch *)

Lemma push_alfa_batch IOV_MAX start soh entries ws seq ints kernel vdata :
  Forall2 entry_holds entries ws → entries ≠ [] → zlen ws < IOV_MAX → IOV_MAX ≤ zlen vdata →
  0 ≤ seq → seq + zlen ws < 2 ^ 64 → zlen start ≤ 31 → Forall interrupt ints →
  zlen (stream start soh seq ws) < 2 ^ 64 →
  ∃ b, push_alfa IOV_MAX (mkArgs start (zlen start) soh) entries seq
         (ints ++ WOk (zlen (stream start soh seq ws)) :: kernel) vdata = Some (Some 0, b) ∧
    b_out b = stream start soh seq ws ∧ b_seq b = seq + zlen ws ∧
    b_sent b = sent_records seq ws ∧ b_kernel b = kernel ∧ zlen (b_vdata b) = zlen vdata.
Proof.
  intros Hall Hne Hn Hv H0 Hs Hst Hi Hbig.
  set (b0 := mkBatch seq 0 0 vdata [] (ints ++ WOk (zlen (stream start soh seq ws)) :: kernel) []).
  destruct (push_loop_gathers start soh IOV_MAX [] entries ws b0 [])
    as (b1 & Hl & Hg & S1 & O1 & K1 & R1 & V1 & _);
    try done.
  { split; [cbn; lia|]. by split. }
  assert (Hq : ∀ a, push_alfa IOV_MAX a entries seq (b_kernel b0) vdata
    = push_loop IOV_MAX a ((Some <$> entries) ++ []) b0) by (intros; rewrite app_nil_r; by destruct entries).
  unfold b0 in Hq at 1. cbn [b_kernel] in Hq. rewrite Hq, Hl. cbn [push_loop]. unfold flush.
  destruct Hg as (_ & Hb & Ht). rewrite K1, O1. unfold b0 in *. cbn [b_kernel b_out b_seq b_sent app] in *.
  rewrite Ht. rewrite (do_writev_whole ints kernel _ _ _ _ [] Hi Hb eq_refl). obind.
  eexists. split; [done|]. cbn [b_out b_seq b_sent b_kernel b_vdata]. rewrite S1, R1, V1. done.
Qed.

(** ** Properties *)

(** a batch of fewer than [IOV_MAX] queued messages is put on the wire
    as the concatenation of the complete messages, in queue order, with
    consecutive sequence numbers, when [writev] takes the whole vector (after
    any number of [EAGAIN] and [EINTR]); the sequence number advances by the
    number of messages and every message is recorded as sent. *)
Theorem push_alfa_sends_batch IOV_MAX start soh entries ws seq ints kernel vdata :
  Forall2 entry_holds entries ws → entries ≠ [] → zlen ws < IOV_MAX → IOV_MAX ≤ zlen vdata →
  0 ≤ seq → seq + zlen ws < 2 ^ 64 → zlen start ≤ 31 → Forall interrupt ints →
  zlen (stream start soh seq ws) < 2 ^ 64 →
  ∃ b, push_alfa IOV_MAX (mkArgs start (zlen start) soh) entries seq
         (ints ++ WOk (zlen (stream start soh seq ws)) :: kernel) vdata = Some (Some 0, b) ∧
    b_out b = stream start soh seq ws ∧ b_seq b = seq + zlen ws ∧
    b_sent b = sent_records seq ws ∧ b_kernel b = kernel.
Proof.
  intros. destruct (push_alfa_batch IOV_MAX start soh entries ws seq ints kernel vdata)
    as (b & ? & ? & ? & ? & ? & _); [done..|]. by exists b.
Qed.

(** when [malloc] fails, [push] commits a bravo entry whose data pointer
    is null; the pusher thread, which finds it in the queue like any other,
    reads the message length through that pointer: taking the entry is
    undefined behaviour whatever follows it. *)
Theorem push_failure_leaves_null_entry malloc now error alfa bravo ttl data mt r :
  Forall (λ c, c ≠ 0) mt → zlen mt < 16 → 3828 < zlen data →
  allocated_size bravo < zlen data + 264 → malloc (zlen data + 264) = None →
  ∃ e, push malloc now error alfa bravo ttl data (mt ++ 0 :: r) = Some (ENOMEM, PushBravo e) ∧
    ∀ IOV_MAX args rest seq kernel vdata,
      push_bravo IOV_MAX args (e :: rest) seq kernel vdata = None.
Proof.
  intros Hz Hmt Hd Ha Hm. unfold push.
  rewrite strnlen_cstr by (done || (change (Z.to_nat (MSG_TYPE_MAX_LENGTH + 1)) with 17%nat; lia)).
  obind. unfold MSG_TYPE_MAX_LENGTH at 1. bsolve.
  change (ALFA_MAX_DATA_SIZE - _ - _ - _) with 3828. bsolve. unfold fill_bravo.
  replace (zlen data + MSG_TYPE_STRING_OFFSET + FIX_BUFFER_RESERVED_HEAD
    + FIX_BUFFER_RESERVED_TAIL) with (zlen data + 264)
    by (unfold MSG_TYPE_STRING_OFFSET, FIX_BUFFER_RESERVED_HEAD, FIX_BUFFER_RESERVED_TAIL; lia).
  bsolve. rewrite Hm. obind. eexists. split; [done|]. by intros.
Qed.

Lemma push_failure_leaves_null_entry_witness :
  ∃ e, push (λ _, None) (0, 0) 0 [] (mkBravo 0 None) (0, 0) (replicate 4000 65) [68; 0]
       = Some (ENOMEM, PushBravo e) ∧
    ∀ IOV_MAX args rest seq kernel vdata,
      push_bravo IOV_MAX args (e :: rest) seq kernel vdata = None.
Proof.
  apply (push_failure_leaves_null_entry (λ _, None) (0, 0) 0 [] (mkBravo 0 None) (0, 0)
    (replicate 4000 65) [68] []).
  - by repeat constructor.
  - vm_compute. reflexivity.
  - vm_compute. reflexivity.
  - vm_compute. reflexivity.
  - reflexivity.
Defined.

(** A vector of no [iovec]s with bytes outstanding: each [writev] of nothing
    leaves the loop where it was. *)
Lemma do_writev_nothing n total v vdata out :
  0 < total < 2 ^ 64 → u64 (iov_len v) = iov_len v →
  do_writev (replicate n (WOk 0)) total 0 (v :: vdata) out = Some (None, out, []).
Proof.
  intros Ht Hv. unfold do_writev. induction n as [|n IH]; [done|].
  cbn [replicate do_writev_loop]. change (Z.to_nat (0 - 0)) with 0%nat.
  change (take 0 (drop (Z.to_nat 0) (v :: vdata))) with (@nil iovec). cbn [iov_bytes]. obind.
  rewrite firstn_nil, app_nil_r. replace (u64 (total - 0)) with total by (unfold u64; rewrite Z.mod_small; lia).
  bsolve. cbn [find_offset]. change (Z.to_nat 0) with 0%nat. cbn [lookup list_lookup]. obind.
  change (u64 (0 - 0)) with 0. change (Z.to_nat 0) with 0%nat. cbn [skipn].
  rewrite Z.sub_0_r, Hv. destruct v. apply IH.
Qed.

Lemma iov_bytes_first v l bytes : iov_bytes (v :: l) = Some bytes → 0 ≤ iov_len v ≤ zlen bytes.
Proof.
  cbn [iov_bytes]. destruct (read_at _ _ _) as [d|] eqn:E; [|done]. obind.
  destruct (iov_bytes l) as [r|]; [|done]. obind. intros [= <-].
  apply read_at_split in E as (? & ? & _ & _ & ->). llia.
Qed.

(** a batch that fills the vector exactly is flushed, but the byte count
    is not reset with the index: the loop ends in a [do_writev] of no
    [iovec]s that waits for as many bytes again.  All messages are out, and
    however often [writev] reports that nothing was written, the call does
    not return: the pusher thread sends nothing more. *)
Theorem full_batch_never_returns IOV_MAX start soh entries ws e w seq n vdata :
  Forall2 entry_holds entries ws → entry_holds e w → zlen ws + 1 = IOV_MAX → zlen vdata = IOV_MAX →
  0 ≤ seq → seq + zlen ws + 1 < 2 ^ 64 → zlen start ≤ 31 →
  let all := stream start soh seq ws ++ numbered start soh (seq + zlen ws + 1) w in
  zlen all < 2 ^ 64 →
  ∃ b, push_alfa IOV_MAX (mkArgs start (zlen start) soh) (entries ++ [e]) seq
         (WOk (zlen all) :: replicate n (WOk 0)) vdata = Some (None, b) ∧
    b_out b = all ∧ b_kernel b = [].
Proof.
  intros Hall He Hn Hv H0 Hs Hst all Hbig.
  set (b0 := mkBatch seq 0 0 vdata [] (WOk (zlen all) :: replicate n (WOk 0)) []).
  assert (Hq : ∀ a, push_alfa IOV_MAX a (entries ++ [e]) seq (b_kernel b0) vdata
    = push_loop IOV_MAX a ((Some <$> entries) ++ [Some e]) b0).
  { intros a. unfold push_alfa, push_queue. rewrite fmap_app. by destruct entries. }
  unfold b0 in Hq at 1. cbn [b_kernel] in Hq. rewrite Hq. clear Hq.
  destruct (push_loop_gathers start soh IOV_MAX [Some e] entries ws b0 [])
    as (b1 & -> & Hg & S1 & O1 & K1 & _ & V1 & I1); try done; try (cbn; llia).
  { split; [cbn; lia|]. by split. }
  { unfold all in Hbig. cbn [app b0 b_seq]. llia. }
  unfold b0 in *. cbn [b_seq b_out b_kernel b_vdata b_idx app] in *. cbn [push_loop].
  destruct (batch_one_spec start soh b1 e w _ He Hg) as (b2 & -> & Hg2 & S2 & I2 & O2 & K2 & _ & V2);
    try lia.
  { rewrite S1. unfold all in Hbig. llia. }
  obind. bsolve. unfold flush. rewrite S1 in Hg2. fold all in Hg2. destruct Hg2 as (_ & Hb2 & Ht2).
  rewrite K2, K1, O2, O1, Ht2.
  pose proof (do_writev_whole [] (replicate n (WOk 0)) _ (b_idx b2) _ _ [] (Forall_nil_2 _) Hb2 eq_refl)
    as Hw. cbn [app] in Hw. rewrite Hw. obind. cbn [reset_idx b_total b_vdata b_out b_kernel b_idx].
  destruct (b_vdata b2) as [|v vd] eqn:Ev; [simpl in V2; lia|].
  assert (Hfirst : 0 ≤ iov_len v ≤ zlen all).
  { replace (Z.to_nat (b_idx b2)) with (S (Z.to_nat (b_idx b2 - 1))) in Hb2 by llia.
    cbn [firstn] in Hb2. by apply iov_bytes_first in Hb2. }
  rewrite do_writev_nothing.
  - obind. eexists. split; [done|]. done.
  - split; [|done]. unfold all, numbered, fix_message.
    change (bytes_of_string "10=") with [49; 48; 61]. llia.
  - unfold u64. rewrite Z.mod_small; lia.
Qed.

(** One call on a vector with one active [iovec] whose length is below [2^64]. *)
Lemma do_writev_step w kernel total mem len bytes rest out :
  read_at mem 0 len = Some bytes → 0 ≤ w ≤ len → len < 2 ^ 64 → u64 (total - w) ≠ 0 →
  do_writev_loop (WOk w :: kernel) total 1 0 (mkIov mem len :: rest) out
  = if w <? len then
      do_writev_loop kernel (u64 (total - w)) 1 0
        (mkIov (drop (Z.to_nat (len - w)) mem) w :: rest) (out ++ take (Z.to_nat w) bytes)
    else
      v ← rest !! 0%nat;
      do_writev_loop kernel (u64 (total - w)) 1 1
        (mkIov mem len :: <[0%nat := mkIov (iov_base v) (u64 (iov_len v))]> rest)
        (out ++ take (Z.to_nat w) bytes).
Proof.
  intros Hr Hw Hmax Htot. cbn [do_writev_loop].
  change (take (Z.to_nat (1 - 0)) (drop (Z.to_nat 0) (mkIov mem len :: rest))) with [mkIov mem len].
  cbn [iov_bytes iov_base iov_len]. rewrite Hr. obind. rewrite app_nil_r.
  rewrite (proj2 (Z.eqb_neq _ 0)) by done. cbn [find_offset iov_len].
  replace (u64 (0 + len)) with len by (unfold u64; rewrite Z.mod_small; lia).
  destruct (Z.ltb_spec w len) as [Hlt|Hge].
  - change ((mkIov mem len :: rest) !! Z.to_nat 0) with (Some (mkIov mem len)). obind.
    cbn [iov_base iov_len].
    replace (u64 (len - w)) with (len - w) by (unfold u64; rewrite Z.mod_small; lia).
    replace (u64 (len - (len - w))) with w by (unfold u64; rewrite Z.mod_small; lia). done.
  - change ((mkIov mem len :: rest) !! Z.to_nat (0 + 1)) with (rest !! 0%nat).
    destruct (rest !! 0%nat) as [v|]; [|done]. obind.
    replace (len - w) with 0 by lia. change (u64 0) with 0. rewrite Z.sub_0_r. done.
Qed.

(** a partial [writev] corrupts the stream: after [w] of the [L] bytes
    of a message were written, the next call is given the last [w] bytes of
    the message, not the [L - w] bytes that follow; only when exactly half
    was written do the two coincide. *)
Theorem partial_write_corrupts msg rest w :
  0 < w < zlen msg → zlen msg < 2 ^ 64 →
  do_writev [WOk w; WOk w] (zlen msg) 1 (mkIov msg (zlen msg) :: rest) []
  = (let out := take (Z.to_nat w) msg ++ drop (Z.to_nat (zlen msg - w)) msg in
     if 2 * w =? zlen msg then Some (Some 0, out, [])
     else match rest with [] => None | _ => Some (None, out, []) end).
Proof.
  intros Hw Hmax. unfold do_writev. cbv zeta.
  assert (Hu : ∀ z, 0 ≤ z < 2 ^ 64 → u64 z = z) by (intros; by apply Z.mod_small).
  rewrite (do_writev_step w _ _ msg (zlen msg) msg).
  2: { rewrite <- (app_nil_r msg) at 1. by apply read_at_prefix. }
  2, 3: lia.
  2: { rewrite Hu; lia. }
  bsolve. rewrite Hu by lia. set (tl := drop (Z.to_nat (zlen msg - w)) msg).
  assert (Htl : zlen tl = w) by (unfold tl; rewrite length_drop; lia).
  assert (Hr : read_at tl 0 w = Some tl).
  { rewrite <- (app_nil_r tl) at 1. by apply read_at_prefix. }
  destruct (Z.eqb_spec (2 * w) (zlen msg)) as [Heq|Hne].
  - replace (zlen msg - w) with w by lia.
    pose proof (do_writev_whole [] [] w 1 (mkIov tl w :: rest) tl ([] ++ take (Z.to_nat w) msg)) as Hd.
    unfold do_writev in Hd. cbn [app] in Hd |- *. apply Hd; [constructor | | done].
    change (take (Z.to_nat 1) (mkIov tl w :: rest)) with [mkIov tl w].
    cbn [iov_bytes iov_base iov_len]. rewrite Hr. obind. by rewrite app_nil_r.
  - assert (Hnz : u64 (zlen msg - w - w) ≠ 0).
    { unfold u64. destruct (decide (2 * w < zlen msg)); [rewrite Z.mod_small; lia|].
      rewrite <- (Z_mod_plus_full _ 1), Z.mod_small; lia. }
    rewrite (do_writev_step w [] _ tl w tl) by (done || lia). bsolve.
    rewrite (firstn_all2 (n := Z.to_nat w) tl) by lia. by destruct rest.
Qed.

Lemma partial_write_corrupts_witness :
  do_writev [WOk 2; WOk 2] 5 1 [mkIov [1; 2; 3; 4; 5] 5; mkIov [] 0] []
  = Some (None, [1; 2; 4; 5], []).
Proof. apply (partial_write_corrupts [1; 2; 3; 4; 5] [mkIov [] 0] 2); [cbn; lia | cbn; lia]. Defined.

(** A concrete queue entry: a [D] message with one field. *)
Definition demo_waiting : waiting := mkWaiting [68] (0, 0) 1 (bytes_of_string "52=X" ++ [1]).
Definition demo_entry : list Z :=
  default [] (fill_entry (replicate 280 0) (0, 0) (w_partial demo_waiting) [68; 0]).
Definition demo_start : list Z := bytes_of_string "8=FIX.4.4" ++ [1] ++ bytes_of_string "9=".

Lemma demo_entry_holds : entry_holds demo_entry demo_waiting.
Proof.
  exists (take 260 demo_entry), (drop 269 demo_entry).
  repeat split; vm_compute; (reflexivity || discriminate).
Qed.

Lemma push_alfa_sends_batch_witness :
  ∃ b, push_alfa 4 (mkArgs demo_start (zlen demo_start) 1) [demo_entry; demo_entry] 7
         ([WErr EINTR] ++ WOk (zlen (stream demo_start 1 7 [demo_waiting; demo_waiting])) :: [])
         (replicate 4 (mkIov [] 0)) = Some (Some 0, b) ∧
    b_out b = stream demo_start 1 7 [demo_waiting; demo_waiting] ∧ b_seq b = 7 + 2 ∧
    b_sent b = sent_records 7 [demo_waiting; demo_waiting] ∧ b_kernel b = [].
Proof.
  apply (push_alfa_sends_batch 4 demo_start 1 [demo_entry; demo_entry] [demo_waiting; demo_waiting] 7
    [WErr EINTR] [] (replicate 4 (mkIov [] 0))).
  - repeat constructor; exact demo_entry_holds.
  - discriminate.
  - reflexivity.
  - discriminate.
  - lia.
  - reflexivity.
  - vm_compute. discriminate.
  - constructor; [by right | constructor].
  - vm_compute. reflexivity.
Defined.

Lemma full_batch_never_returns_witness :
  let all := stream demo_start 1 7 [demo_waiting] ++ numbered demo_start 1 (7 + 1 + 1) demo_waiting in
  ∃ b, push_alfa 2 (mkArgs demo_start (zlen demo_start) 1) ([demo_entry] ++ [demo_entry]) 7
         (WOk (zlen all) :: replicate 5 (WOk 0)) (replicate 2 (mkIov [] 0)) = Some (None, b) ∧
    b_out b = all ∧ b_kernel b = [].
Proof.
  apply (full_batch_never_returns 2 demo_start 1 [demo_entry] [demo_waiting] demo_entry demo_waiting 7 5
    (replicate 2 (mkIov [] 0))).
  - repeat constructor; exact demo_entry_holds.
  - exact demo_entry_holds.
  - reflexivity.
  - reflexivity.
  - lia.
  - reflexivity.
  - vm_compute. discriminate.
  - vm_compute. reflexivity.
Defined.
