(* ===== verification/Splitter.v ===== *)
(** * The splitter thread: [splitter_thread_func] of [src/applib/fixio/fix_popper.cpp]

    The splitter cuts the byte stream of the foxtrot entries into messages and
    hands them to the delta queue (application messages) or the echo queue
    (session messages).  [splitter_entry] is the loop over one foxtrot entry as
    the source has it: a position [k], bulk copies, and the parse state that
    survives from entry to entry.  [None] is undefined behaviour. *)
From S2P Require Import Prelude Primitives FixMsgUtils FixTypes FixFields FixMessageRX FixMessageTX.

Inductive FIX_Parse_State : Set := FindingBeginString | FindingBodyLength | CopyingBody.

#[global] Instance FIX_Parse_State_eq_dec : EqDecision FIX_Parse_State.
Proof. solve_decision. Defined.

Definition ECHO_ENTRY_SIZE : Z := 512.
Definition ECHO_MAX_DATA_SIZE : Z := ECHO_ENTRY_SIZE - 2 * 4.

(** What a [data] pointer points to. *)
Inductive block : Set := Null | Freed | Block (b : list Z).

Definition deref (p : block) : option (list Z) := match p with Block b => Some b | _ => None end.

(** [free]: of a null pointer or a live block. *)
Definition free (p : block) : option unit := match p with Freed => None | _ => Some tt end.

(** A delta entry. *)
Record delta_t := mkDelta { size : Z; msgtype_offset : Z; data : block }.

(** What the thread does to the outside, in order. *)
Inductive event :=
  | Stored (seqnum len : Z) (msg : list Z)      (* db->store_recv_msg *)
  | ToDelta (entry : delta_t)                   (* a committed delta entry *)
  | ToEcho (entry : list Z)                     (* a committed echo entry *)
  | Pushed (ex : exposed)                       (* pusher->push *)
  | Resend (begin_seqnum end_seqnum : Z).       (* pusher->resend *)

Record splitter := mkSplitter {
  state : FIX_Parse_State;
  l : Z;
  length_str : list Z;
  erange : bool;                (* errno = ERANGE *)
  offset : Z;
  bytes_left_to_copy : Z;
  delta_entry : delta_t;
  expected : Z;                 (* msg_seq_number_expected *)
  ndelta : nat;                 (* delta entries acquired *)
  necho : nat;                  (* echo entries acquired *)
  allocs : nat;                 (* calls of malloc *)
  tx_resend : FIXMessageTX;
  tx_reject : FIXMessageTX;
  events : list event }.

Definition set_parse (s : FIX_Parse_State) (i : Z) (st : splitter) : splitter :=
  mkSplitter s i (length_str st) (erange st) (offset st) (bytes_left_to_copy st) (delta_entry st)
    (expected st) (ndelta st) (necho st) (allocs st) (tx_resend st) (tx_reject st) (events st).

Definition set_length_str (s : list Z) (st : splitter) : splitter :=
  mkSplitter (state st) (l st) s (erange st) (offset st) (bytes_left_to_copy st) (delta_entry st)
    (expected st) (ndelta st) (necho st) (allocs st) (tx_resend st) (tx_reject st) (events st).

Definition set_erange (e : bool) (st : splitter) : splitter :=
  mkSplitter (state st) (l st) (length_str st) e (offset st) (bytes_left_to_copy st)
    (delta_entry st) (expected st) (ndelta st) (necho st) (allocs st) (tx_resend st) (tx_reject st)
    (events st).

Definition set_copy (off left : Z) (st : splitter) : splitter :=
  mkSplitter (state st) (l st) (length_str st) (erange st) off left (delta_entry st)
    (expected st) (ndelta st) (necho st) (allocs st) (tx_resend st) (tx_reject st) (events st).

Definition set_delta (d : delta_t) (a : nat) (st : splitter) : splitter :=
  mkSplitter (state st) (l st) (length_str st) (erange st) (offset st) (bytes_left_to_copy st) d
    (expected st) (ndelta st) (necho st) a (tx_resend st) (tx_reject st) (events st).

Definition set_expected (n : Z) (st : splitter) : splitter :=
  mkSplitter (state st) (l st) (length_str st) (erange st) (offset st) (bytes_left_to_copy st)
    (delta_entry st) n (ndelta st) (necho st) (allocs st) (tx_resend st) (tx_reject st) (events st).

Definition set_tx (resend reject : FIXMessageTX) (ev : list event) (st : splitter) : splitter :=
  mkSplitter (state st) (l st) (length_str st) (erange st) (offset st) (bytes_left_to_copy st)
    (delta_entry st) (expected st) (ndelta st) (necho st) (allocs st) resend reject (events st ++ ev).

(** [atoll] of a digit string: the value, and whether [errno] was set. *)
Definition atoll (s : list Z) : Z * bool :=
  if dval s <? 2 ^ 63 then (dval s, false) else (LLONG_MAX, true).

Definition ULLONG_MAX : Z := 2 ^ 64 - 1.

(** [strtoull(s, NULL, 10)] of a string of digits. *)
Definition strtoull (s : list Z) : Z * bool :=
  if dval s <? 2 ^ 64 then (dval s, false) else (ULLONG_MAX, true).


Fixpoint skip_space (s : list Z) : option (list Z) :=
  match s with [] => None | c :: r => if isspace c then skip_space r else Some s end.

(** The digits at the front; [None] runs off the object. *)
Fixpoint front_digits (s : list Z) : option (list Z) :=
  match s with
  | [] => None
  | c :: r => if isdigit c then d ← front_digits r; Some (c :: d) else Some []
  end.

(** The sign and the digits of a subject sequence. *)
Definition subject (s : list Z) : option (bool * list Z) :=
  s ← skip_space s;
  match s with
  | c :: r => d ← front_digits (if (c =? 43) || (c =? 45) then r else s); Some (c =? 45, d)
  | [] => None
  end.

(** [strtoumax] and [strtoimax] to base 10: the value, and whether [errno] was
    set. *)
Definition strtoumax (s : list Z) : option (Z * bool) :=
  '(neg, d) ← subject s;
  Some (if dval d <? 2 ^ 64 then (if (neg : bool) then u64 (- dval d) else dval d, false)
        else (ULLONG_MAX, true)).

Definition strtoimax (s : list Z) : option (Z * bool) :=
  '(neg, d) ← subject s;
  Some (let v := if (neg : bool) then - dval d else dval d in
        if v <? - 2 ^ 63 then (- 2 ^ 63, true) else if v <? 2 ^ 63 then (v, false) else (LLONG_MAX, true)).

(** [memmem]: the offset of the first occurrence. *)
Fixpoint memmem (hay needle : list Z) : option Z :=
  if prefixb needle hay then Some 0
  else match hay with [] => None | _ :: hay => i ← memmem hay needle; Some (1 + i) end.

(** The [do ... while (1)] of [get_sequence_number]: the digits at the front. *)
Fixpoint seq_digits (soh : Z) (str : list Z) : option (list Z) :=
  match str with
  | [] => None
  | c :: str =>
      if soh =? c then Some []
      else if isdigit c then d ← seq_digits soh str; Some (c :: d) else Some []
  end.

(** The number, the message (whose byte after the digits becomes SOH), and
    whether [strtoull] overflowed. *)
Definition get_sequence_number (soh len : Z) (msg : list Z) : option (Z * list Z * bool) :=
  hay ← read_at msg 0 len;
  match memmem hay [soh; 51; 52; 61] with
  | None => Some (0, msg, false)
  | Some i =>
      let start := i + 4 in
      d ← seq_digits soh (drop (Z.to_nat start) msg);
      msg ← write_at msg (start + zlen d) [0];
      msg ← write_at msg (start + zlen d) [soh];
      let '(retv, over) := strtoull d in
      Some (if retv =? ULLONG_MAX then 0 else retv, msg, over)
  end.

Section Splitter.
Context (begin_string : list Z) (begin_string_length : Z) (soh : Z).
Context (malloc : nat → Z → option (list Z)).
Context (acquire_delta : nat → delta_t) (acquire_echo : nat → list Z).
Context (CACHE_LINE_SIZE : Z) (tx_malloc : nat → Z → option (list Z))
        (tx_realloc : nat → Z → option (bool * list Z)).

(** The reader the thread keeps, as [init] and every [done] leave it. *)
Context (fixmsg_rx : FIXMessageRX).

(** [send_session_level_reject_message]: the return value of [expose] is not
    looked at, so [push] is handed indeterminate arguments when it fails. *)
Definition send_session_level_reject_message (msg : FIXMessageTX) (rejected_seq_num : Z)
    (reason : list Z) : option (FIXMessageTX * list event) :=
  '(seqnum, _) ← uint_to_str 0 rejected_seq_num (replicate 24 0) 0;
  n ← cstr seqnum;
  '(r, msg) ← append_field CACHE_LINE_SIZE tx_malloc tx_realloc 35 [51] msg;
  if r =? 0 then Some (msg, []) else
  '(r, msg) ← append_field CACHE_LINE_SIZE tx_malloc tx_realloc 45 n msg;
  if r =? 0 then Some (msg, []) else
  '(r, msg) ← append_field CACHE_LINE_SIZE tx_malloc tx_realloc 58 reason msg;
  if r =? 0 then Some (msg, []) else
  '(ex, msg) ← expose msg;
  ex ← (ex : option exposed);
  Some (msg, [Pushed ex]).

Definition send_resend_request_message (msg : FIXMessageTX) (from : Z)
    : option (FIXMessageTX * list event) :=
  '(from_num, _) ← uint_to_str 0 from (replicate 24 0) 0;
  n ← cstr from_num;
  '(r, msg) ← append_field CACHE_LINE_SIZE tx_malloc tx_realloc 35 [50] msg;
  if r =? 0 then Some (msg, []) else
  '(r, msg) ← append_field CACHE_LINE_SIZE tx_malloc tx_realloc 45 n msg;
  if r =? 0 then Some (msg, []) else
  '(r, msg) ← append_field CACHE_LINE_SIZE tx_malloc tx_realloc 16 [48] msg;
  if r =? 0 then Some (msg, []) else
  '(ex, msg) ← expose msg;
  ex ← (ex : option exposed);
  Some (msg, [Pushed ex]).

(** The branch for a ResendRequest: the [do] loop over the fields ... *)
Fixpoint resend_fields (fuel : nat) (rx : FIXMessageRX) (begin_seqnum end_seqnum done : Z) (over : bool)
    : option (Z * Z * Z * Z * bool) :=
  match fuel with
  | O => None
  | S fuel =>
      '(tag, _, value, rx) ← next_field 0 None rx;
      if tag <=? 0 then Some (tag, begin_seqnum, end_seqnum, done, over)
      else
        off ← value;
        msg ← msg_ rx;
        str ← mem_from msg off;
        '(begin_seqnum, done, over) ←
          (if tag =? 7 then '(v, o) ← strtoumax str; Some (v, Z.lor done 1, over || o)
           else Some (begin_seqnum, done, over));
        '(end_seqnum, done, over) ←
          (if tag =? 16 then '(v, o) ← strtoimax str; Some (u64 v, Z.lor done 16, over || o)
           else Some (end_seqnum, done, over));
        if done =? 17 then Some (tag, begin_seqnum, end_seqnum, done, over)
        else resend_fields fuel rx begin_seqnum end_seqnum done over
  end.

(** ... and what follows it.  The reader owns the message, so [done] frees the
    block of the delta entry. *)
Definition resend_request (recieved : Z) (st : splitter) : option splitter :=
  d ← deref (data (delta_entry st));
  let rx := imprint (msgtype_offset (delta_entry st)) d fixmsg_rx in
  '(tag, begin_seqnum, end_seqnum, done, over) ← resend_fields (length d) rx 0 0 0 (erange st);
  let e := mkDelta (size (delta_entry st)) (msgtype_offset (delta_entry st))
             (if owns_memory_ fixmsg_rx then Freed else Block d) in
  let st := set_delta e (allocs st) (set_erange over st) in
  if tag <? 0 then
    '(tx, ev) ← send_session_level_reject_message (tx_reject st) recieved
      (bytes_of_string "invalid ResendRequest message recieved containing negative tag");
    Some (set_tx (tx_resend st) tx ev st)
  else if negb (done =? 17) then
    '(tx, ev) ← send_session_level_reject_message (tx_reject st) recieved
      (bytes_of_string "invalid resend request - missing one or both of tag 7 or tag 16");
    Some (set_tx (tx_resend st) tx ev st)
  else Some (set_tx (tx_resend st) (tx_reject st) [Resend begin_seqnum end_seqnum] st).

(** Committing the delta entry and acquiring the next one. *)
Definition commit_delta (seqnum off : Z) (d : list Z) (st : splitter) : splitter :=
  let e := mkDelta (size (delta_entry st)) off (Block d) in
  mkSplitter (state st) (l st) (length_str st) (erange st) (offset st) (bytes_left_to_copy st)
    (acquire_delta (ndelta st)) (expected st) (S (ndelta st)) (necho st) (allocs st)
    (tx_resend st) (tx_reject st)
    (events st ++ [Stored seqnum (size e) (take (Z.to_nat (size e)) d); ToDelta e]).

Definition commit_echo (seqnum off : Z) (d : list Z) (st : splitter) : option splitter :=
  let sz := size (delta_entry st) in
  m ← read_at d 0 sz;
  e ← setu32 (acquire_echo (necho st)) 0 sz;
  e ← setu32 e 4 off;
  e ← write_at e 8 m;
  Some (mkSplitter (state st) (l st) (length_str st) (erange st) (offset st)
          (bytes_left_to_copy st) (delta_entry st) (expected st) (ndelta st) (S (necho st))
          (allocs st) (tx_resend st) (tx_reject st)
          (events st ++ [Stored seqnum sz m; ToEcho e])).

Definition set_data (d : list Z) (st : splitter) : splitter :=
  set_delta (mkDelta (size (delta_entry st)) (msgtype_offset (delta_entry st)) (Block d))
    (allocs st) st.

(** What happens once the message is complete, up to [go_on]. *)
Definition message_complete (st : splitter) : option splitter :=
  let sz := size (delta_entry st) in
  d ← deref (data (delta_entry st));
  summed ← read_at d 0 (u32 (sz - 7));
  chk ← read_at d (sz - 4) 3;
  if negb (bool_decide (chk = padded 3 (get_FIX_checksum summed))) then Some st
  else
    '(recieved, d, over) ← get_sequence_number soh sz d;
    let st := set_data d (set_erange (erange st || over) st) in
    if negb (recieved =? u64 (expected st + 1)) then
      '(tx, ev) ← send_resend_request_message (tx_resend st) (expected st);
      Some (set_tx tx (tx_reject st) ev st)
    else
      let st := set_expected (u64 (expected st + 1)) st in
      ls ← cstr (length_str st);
      let off := begin_string_length + zlen ls + 4 in
      c ← get_at d off;
      if schar soh =? c then
        '(tx, ev) ← send_session_level_reject_message (tx_reject st) recieved
                      (bytes_of_string "malformed message type value");
        Some (set_tx (tx_resend st) tx ev st)
      else
        t ← get_fix_msgtype soh (drop (Z.to_nat off) d);
        session ← is_session_message_type t;
        if negb session then
          if negb (FIX_MsgType_value t =? FIX_MsgType_value fmt_ResendRequest)
          then Some (commit_delta recieved off d st)
          else resend_request recieved st
        else if ECHO_MAX_DATA_SIZE <? sz then Some (set_expected (u64 (expected st - 1)) st)
        else commit_echo recieved off d st.

(** [case CopyingBody] at position [k]: the next [k] (after the loop's
    increment) and the state. *)
Definition copying_body (content : list Z) (k : Z) (st : splitter) : option (Z * splitter) :=
  let entry_length := zlen content in
  d ← deref (data (delta_entry st));
  if bytes_left_to_copy st <=? entry_length - k then
    chunk ← read_at content k (bytes_left_to_copy st);
    d ← write_at d (offset st) chunk;
    st' ← message_complete (set_data d st);
    Some (u32 (u32 (k + (bytes_left_to_copy st - 1)) + 1), set_parse FindingBeginString (l st') st')
  else
    chunk ← read_at content k (entry_length - k);
    d ← write_at d (offset st) chunk;
    Some (entry_length + 1,
          set_copy (offset st + (entry_length - k))
                   (u32 (bytes_left_to_copy st - (entry_length - k))) (set_data d st)).

(** The preparation of the delta entry once the length is known; the result
    is [None] of the inner option when the message is skipped. *)
Definition body_length_known (st : splitter) : option (option splitter) :=
  ls ← cstr (length_str st);
  let '(v, over) := atoll ls in
  let st := set_erange (erange st || over) st in
  let body_length := u32 v in
  if (body_length =? 0) || erange st then Some (Some (set_parse FindingBeginString (l st) st))
  else
    let left := u32 (body_length + 1 + 7) in
    let total := begin_string_length + zlen ls + left in
    let st := set_copy (offset st) left st in
    let enter st :=
      d ← deref (data (delta_entry st));
      bs ← read_at begin_string 0 begin_string_length;
      d ← write_at d 0 bs;
      d ← write_at d begin_string_length ls;
      Some (Some (set_parse CopyingBody (l st)
                    (set_copy (begin_string_length + zlen ls) left (set_data d st)))) in
    let msgoff := msgtype_offset (delta_entry st) in
    if size (delta_entry st) <? total then
      _ ← free (data (delta_entry st));
      match malloc (allocs st) (u32 total) with
      | None => Some (Some (set_parse FindingBeginString (l st)
                              (set_delta (mkDelta (u32 total) msgoff Null) (S (allocs st)) st)))
      | Some b => enter (set_delta (mkDelta (u32 total) msgoff (Block b)) (S (allocs st)) st)
      end
    else enter (set_delta (mkDelta (u32 total) msgoff (data (delta_entry st))) (allocs st) st).

(** [case FindingBodyLength] at [k]. *)
Definition finding_body_length (content : list Z) (k c : Z) (st : splitter)
    : option (Z * splitter) :=
  if l st =? 21 then Some (k + 1, set_parse FindingBeginString 0 st)
  else
    ls ← write_at (length_str st) (l st) [c];
    let st := set_length_str ls st in
    if negb (isdigit (schar c)) && negb (soh =? c)
    then Some (k + 1, set_parse FindingBeginString 0 st)
    else if negb (soh =? c) then Some (k + 1, set_parse FindingBodyLength (l st + 1) st)
    else
      ls ← write_at ls (l st) [0];
      st ← body_length_known (set_parse FindingBodyLength 0 (set_length_str ls st));
      st ← (st : option splitter);
      if decide (state st = CopyingBody) then copying_body content k st else Some (k + 1, st).

(** One round of the [for] loop over the bytes of a foxtrot entry. *)
Definition splitter_step (content : list Z) (k : Z) (st : splitter) : option (Z * splitter) :=
  c ← get_at content k;
  match state st with
  | FindingBeginString =>
      b ← get_at begin_string (l st);
      if schar b =? c then Some (k + 1, set_parse FindingBeginString (l st + 1) st)
      else if (b =? 0) && isdigit c
      then finding_body_length content k c (set_parse FindingBodyLength 0 st)
      else
        b0 ← get_at begin_string 0;
        Some (k + 1, set_parse FindingBeginString (if schar b0 =? c then 1 else 0) st)
  | FindingBodyLength => finding_body_length content k c st
  | CopyingBody => copying_body content k st
  end.

(** The loop; the number of rounds is bounded by [fuel]. *)
Fixpoint splitter_loop (fuel : nat) (content : list Z) (k : Z) (st : splitter) : option splitter :=
  if k <? zlen content then
    match fuel with
    | O => None
    | S fuel => '(k, st) ← splitter_step content k st; splitter_loop fuel content k st
    end
  else Some st.

(** A foxtrot entry of content [content]. *)
Definition splitter_entry (content : list Z) (st : splitter) : option splitter :=
  splitter_loop (2 * length content) content 0 st.

Fixpoint splitter_entries (contents : list (list Z)) (st : splitter) : option splitter :=
  match contents with
  | [] => Some st
  | c :: contents => st ← splitter_entry c st; splitter_entries contents st
  end.

(** The state in which the loop starts: [last] is what
    [get_latest_recv_seqnum] returned, the transmitters are initialised. *)
Definition splitter_start (last : Z) (resend reject : FIXMessageTX) : splitter :=
  mkSplitter FindingBeginString 0 (replicate 32 0) false 0 0 (acquire_delta 0) last 1 0 0
    resend reject [].
End Splitter.

(** ** Taking messages off the queues *)

(** [pop]: the length, the offset of the message type and the data pointer of
    the next delta entry, and the entry as it is released. *)
Definition pop (entry : delta_t) : Z * Z * block * delta_t :=
  (size entry, msgtype_offset entry, data entry, mkDelta 0 0 Null).

(** [session_pop]: the same of the next echo entry; the data stays in it. *)
Definition session_pop (entry : list Z) : option (Z * Z * list Z) :=
  len ← getu32 entry 0;
  off ← getu32 entry 4;
  Some (len, off, drop 8 entry).

(** ** A round reads one byte, then possibly copies *)

Section Lemmas.
Context (begin_string : list Z) (begin_string_length : Z) (soh : Z).
Context (malloc : nat → Z → option (list Z)).
Context (acquire_delta : nat → delta_t) (acquire_echo : nat → list Z).
Context (CACHE_LINE_SIZE : Z) (tx_malloc : nat → Z → option (list Z))
        (tx_realloc : nat → Z → option (bool * list Z)).
Context (fixmsg_rx : FIXMessageRX).

#[local] Abbreviation complete := (message_complete begin_string_length soh acquire_delta acquire_echo
  CACHE_LINE_SIZE tx_malloc tx_realloc fixmsg_rx).
#[local] Abbreviation copy := (copying_body begin_string_length soh acquire_delta acquire_echo
  CACHE_LINE_SIZE tx_malloc tx_realloc fixmsg_rx).
#[local] Abbreviation step := (splitter_step begin_string begin_string_length soh malloc acquire_delta
  acquire_echo CACHE_LINE_SIZE tx_malloc tx_realloc fixmsg_rx).
#[local] Abbreviation loop := (splitter_loop begin_string begin_string_length soh malloc acquire_delta
  acquire_echo CACHE_LINE_SIZE tx_malloc tx_realloc fixmsg_rx).
#[local] Abbreviation known := (body_length_known begin_string begin_string_length malloc).

(** The part of a round that looks at the byte only: the new state and whether
    the copying case runs at the same position. *)
Definition pre_length (c : Z) (st : splitter) : option (bool * splitter) :=
  if l st =? 21 then Some (false, set_parse FindingBeginString 0 st)
  else
    ls ← write_at (length_str st) (l st) [c];
    let st := set_length_str ls st in
    if negb (isdigit (schar c)) && negb (soh =? c)
    then Some (false, set_parse FindingBeginString 0 st)
    else if negb (soh =? c) then Some (false, set_parse FindingBodyLength (l st + 1) st)
    else
      ls ← write_at ls (l st) [0];
      st ← known (set_parse FindingBodyLength 0 (set_length_str ls st));
      st ← (st : option splitter);
      Some (bool_decide (state st = CopyingBody), st).

Definition pre_step (c : Z) (st : splitter) : option (bool * splitter) :=
  match state st with
  | FindingBeginString =>
      b ← get_at begin_string (l st);
      if schar b =? c then Some (false, set_parse FindingBeginString (l st + 1) st)
      else if (b =? 0) && isdigit c then pre_length c (set_parse FindingBodyLength 0 st)
      else
        b0 ← get_at begin_string 0;
        Some (false, set_parse FindingBeginString (if schar b0 =? c then 1 else 0) st)
  | FindingBodyLength => pre_length c st
  | CopyingBody => Some (true, st)
  end.

Lemma pre_length_eq content k c st :
  finding_body_length begin_string begin_string_length soh malloc acquire_delta acquire_echo
    CACHE_LINE_SIZE tx_malloc tx_realloc fixmsg_rx content k c st
  = '(cp, st) ← pre_length c st; if (cp : bool) then copy content k st else Some (k + 1, st).
Proof.
  unfold finding_body_length, pre_length. destruct (l st =? 21); [done|].
  destruct (write_at (length_str st) (l st) [c]) as [ls|]; [obind | done].
  destruct (negb (isdigit (schar c)) && negb (soh =? c)); [done|].
  destruct (negb (soh =? c)); [done|].
  destruct (write_at ls _ [0]) as [ls2|]; [obind | done].
  destruct (known _) as [[st2|]|]; [obind | done..].
  destruct (decide (state st2 = CopyingBody)).
  - by rewrite bool_decide_eq_true_2.
  - by rewrite bool_decide_eq_false_2.
Qed.

Lemma splitter_step_eq content k st :
  step content k st
  = c ← get_at content k; '(cp, st) ← pre_step c st;
    if (cp : bool) then copy content k st else Some (k + 1, st).
Proof.
  unfold splitter_step, pre_step. destruct (get_at content k) as [c|]; [obind | done].
  destruct (state st).
  - destruct (get_at begin_string (l st)) as [b|]; [obind | done].
    destruct (schar b =? c); [done|]. destruct ((b =? 0) && isdigit c); [apply pre_length_eq|].
    by destruct (get_at begin_string 0).
  - apply pre_length_eq.
  - done.
Qed.

(** ** The copying position is dead outside [CopyingBody] *)

Definition norm (st : splitter) : splitter :=
  if decide (state st = CopyingBody) then st else set_copy 0 0 st.

Definition st_equiv (a b : splitter) : Prop := norm a = norm b.

#[local] Instance st_equiv_equivalence : Equivalence st_equiv.
Proof. unfold st_equiv. split; [by intros ? | by intros ? ? -> | by intros ? ? ? -> ->]. Qed.

Lemma st_equiv_inv a b :
  st_equiv a b → a = b ∨ (state a ≠ CopyingBody ∧ b = set_copy (offset b) (bytes_left_to_copy b) a).
Proof.
  unfold st_equiv, norm. destruct a, b. unfold set_copy. cbn.
  destruct (decide _), (decide _); intros E; injection E; intros; subst; first [by left | by right].
Qed.

Lemma st_equiv_set_copy o n st : state st ≠ CopyingBody → st_equiv st (set_copy o n st).
Proof.
  intros H. unfold st_equiv, norm. cbn [set_copy state]. by rewrite !decide_False by done.
Qed.

Lemma nonsession_not_resend t :
  is_session_message_type t = Some false →
  (FIX_MsgType_value t =? FIX_MsgType_value fmt_ResendRequest) = false.
Proof. by destruct t. Qed.

Lemma complete_set_copy o n st : complete (set_copy o n st) = set_copy o n <$> complete st.
Proof.
  unfold message_complete. cbn [set_copy delta_entry]. opt_case; [|done]. opt_case; [|done].
  opt_case; [|done]. case_match; [done|]. opt_case; [|done]. destruct p as [[? ?] ?].
  cbn [set_erange set_data set_copy set_delta erange expected delta_entry tx_resend].
  case_match; [opt_case; [by destruct p | done]|].
  cbn [set_erange set_data set_copy set_delta set_expected erange expected delta_entry tx_reject
    length_str].
  opt_case; [|done]. opt_case; [|done]. case_match; [opt_case; [by destruct p | done]|].
  opt_case; [|done]. opt_case; [|done]. case_match.
  - case_match; [done|]. apply negb_true_iff in H2. subst. apply nonsession_not_resend in E6.
    rewrite E6 in H3. done.
  - case_match; [done|]. unfold commit_echo.
    cbn [set_erange set_data set_copy set_delta set_expected delta_entry necho size].
    repeat (opt_case; [|done]). done.
Qed.

Definition same_round (p q : bool * splitter) : Prop := p.1 = q.1 ∧ st_equiv p.2 q.2.

Lemma set_copy_equiv o n st : state st ≠ CopyingBody → st_equiv (set_copy o n st) st.
Proof. intros. symmetry. by apply st_equiv_set_copy. Qed.

Lemma known_set_copy o n st :
  state st ≠ CopyingBody →
  option_Forall2 (option_Forall2 st_equiv) (known (set_copy o n st)) (known st).
Proof.
  intros Hs. unfold body_length_known. cbn [set_copy length_str].
  destruct (cstr (length_str st)) as [ls|]; [obind | constructor].
  destruct (atoll ls) as [v over]. cbn [set_erange erange set_copy].
  destruct ((u32 v =? 0) || _); [do 2 apply Some_Forall2; reflexivity|].
  cbn [set_erange set_copy delta_entry allocs size msgtype_offset data].
  case_match; [opt_case; [destruct (malloc _ _) as [b|] | constructor]|].
  - cbn [set_copy set_delta set_erange delta_entry data].
    repeat (opt_case; [|constructor]). constructor. constructor. done.
  - constructor. constructor. done.
  - cbn [set_copy set_delta set_erange delta_entry data].
    repeat (opt_case; [|constructor]). constructor. constructor. done.
Qed.

Lemma st_equiv_state a b : st_equiv a b → state a = state b.
Proof. intros [->|[_ ->]]%st_equiv_inv; done. Qed.

Lemma pre_length_set_copy c o n st :
  state st ≠ CopyingBody → option_Forall2 same_round (pre_length c (set_copy o n st)) (pre_length c st).
Proof.
  intros Hs. unfold pre_length. cbn [set_copy l length_str]. destruct (l st =? 21).
  { apply Some_Forall2. split; [done|]. reflexivity. }
  destruct (write_at (length_str st) (l st) [c]) as [ls|]; [obind | constructor].
  cbn [set_length_str l set_copy]. destruct (negb _ && negb _).
  { apply Some_Forall2. split; [done|]. reflexivity. }
  destruct (negb (soh =? c)).
  { apply Some_Forall2. split; [done|]. reflexivity. }
  destruct (write_at ls (l st) [0]) as [ls2|]; [obind | constructor].
  pose proof (known_set_copy o n (set_parse FindingBodyLength 0 (set_length_str ls2
    (set_length_str ls st))) ltac:(done)) as Hk.
  change (known (set_parse FindingBodyLength 0
    (set_length_str ls2 (set_length_str ls (set_copy o n st)))))
    with (known (set_copy o n (set_parse FindingBodyLength 0
            (set_length_str ls2 (set_length_str ls st))))).
  destruct Hk as [x y Hxy|]; obind; [|constructor]. destruct Hxy as [x y Hxy|]; obind; [|constructor].
  constructor. split; [|done]. cbn [fst]. by rewrite (st_equiv_state _ _ Hxy).
Qed.

Lemma pre_step_equiv c a b :
  st_equiv a b → option_Forall2 same_round (pre_step c a) (pre_step c b).
Proof.
  assert (Hrefl : ∀ x : option (bool * splitter), option_Forall2 same_round x x).
  { intros [x|]; constructor. by split. }
  intros [->|[Hs ->]]%st_equiv_inv; [apply Hrefl|].
  set (o := offset b). set (n := bytes_left_to_copy b). clearbody o n. clear b.
  assert (Hsym : ∀ x y, option_Forall2 same_round x y → option_Forall2 same_round y x).
  { intros x y []; constructor. destruct H as [? ?]. split; [done|]. by symmetry. }
  apply Hsym. unfold pre_step. cbn [set_copy state]. destruct (state a) eqn:Es; [| |done].
  - cbn [set_copy l]. destruct (get_at begin_string (l a)) as [ch|]; [obind | constructor].
    destruct (schar ch =? c). { apply Some_Forall2. split; [done|]. reflexivity. }
    destruct ((ch =? 0) && isdigit c).
    { apply (pre_length_set_copy c o n (set_parse FindingBodyLength 0 a)). done. }
    destruct (get_at begin_string 0) as [b0|]; [obind | constructor].
    apply Some_Forall2. split; [done|]. reflexivity.
  - by apply pre_length_set_copy; rewrite Es.
Qed.

(** A round from equivalent states ends at the same position in equivalent
    states. *)
Lemma step_equiv content k a b :
  (∀ c st x, pre_step c st = Some (true, x) → state x = CopyingBody) →
  st_equiv a b →
  option_Forall2 (λ p q, p.1 = q.1 ∧ st_equiv p.2 q.2) (step content k a) (step content k b).
Proof.
  intros Hcp Hab. rewrite !splitter_step_eq.
  destruct (get_at content k) as [c|]; [obind | constructor].
  pose proof (pre_step_equiv c a b Hab) as Hp.
  destruct (pre_step c a) as [[cp x]|] eqn:Ea; inversion Hp as [? [cp' y] [E Hxy]|]; subst; obind;
    [|constructor].
  cbn [fst snd] in *. subst cp'. destruct cp; [|constructor; by split].
  apply Hcp in Ea. apply st_equiv_inv in Hxy as [->|[? _]]; [|done].
  destruct (copy content k y) as [p|]; constructor. by split.
Qed.

(** ** Progress: two rounds per byte are enough *)

Lemma complete_copy_fields st st' :
  complete st = Some st' → offset st' = offset st ∧ bytes_left_to_copy st' = bytes_left_to_copy st.
Proof.
  intros H. assert (E : st = set_copy (offset st) (bytes_left_to_copy st) st) by by destruct st.
  rewrite E, complete_set_copy in H. destruct (complete st) as [x|]; [|done].
  inversion H. split; reflexivity.
Qed.

Lemma known_left st st' :
  known st = Some (Some st') → 0 ≤ bytes_left_to_copy st < 2 ^ 32 →
  0 ≤ bytes_left_to_copy st' < 2 ^ 32 ∧ state st' ≠ FindingBodyLength.
Proof.
  unfold body_length_known. intros H H0.
  assert (∀ z, 0 ≤ u32 z < 2 ^ 32) by (intros; apply Z.mod_pos_bound; lia).
  destruct (cstr _) as [ls|]; [revert H; obind | done]. destruct (atoll ls) as [v over].
  case_match; [intros [= <-]; done|].
  destruct (size _ <? _); [destruct (free _); [obind; destruct (malloc _ _) as [b|] | done]|];
    cbn [set_delta set_copy set_erange delta_entry data].
  - repeat (opt_case; [|done]). intros [= <-]. cbn. auto.
  - intros [= <-]. cbn. auto.
  - repeat (opt_case; [|done]). intros [= <-]. cbn. auto.
Qed.

Lemma pre_length_facts c st cp st' :
  pre_length c st = Some (cp, st') → 0 ≤ bytes_left_to_copy st < 2 ^ 32 →
  0 ≤ bytes_left_to_copy st' < 2 ^ 32 ∧ (cp = true → c = soh ∧ state st' = CopyingBody)
  ∧ (cp = false → state st' ≠ CopyingBody).
Proof.
  unfold pre_length. intros H H0. revert H. case_match; [intros [= <- <-]; done|].
  opt_case; [|done]. case_match; [intros [= <- <-]; done|].
  case_match; [intros [= <- <-]; done|]. opt_case; [|done].
  bool_hyps. destruct (known _) as [[x|]|] eqn:Ek; obind; [|done..].
  apply known_left in Ek as [Hl _]; [|done]. intros [= <- <-]. split; [done|]. split.
  - intros Hb%bool_decide_eq_true. done.
  - intros Hb%bool_decide_eq_false. done.
Qed.

Lemma pre_step_facts c st cp st' :
  isdigit soh = false → pre_step c st = Some (cp, st') → 0 ≤ bytes_left_to_copy st < 2 ^ 32 →
  0 ≤ bytes_left_to_copy st' < 2 ^ 32 ∧ (cp = true → state st ≠ FindingBeginString ∧ state st' = CopyingBody).
Proof.
  unfold pre_step. intros Hsoh H H0. destruct (state st) eqn:Es.
  - revert H. opt_case; [|done]. case_match; [intros [= <- <-]; done|]. case_match eqn:Ed.
    + intros Hp. apply pre_length_facts in Hp as (Hl & Hc & _); [|done]. split; [done|].
      intros ->. destruct Hc as [-> _]; [done|]. bool_hyps. congruence.
    + opt_case; [|done]. intros [= <- <-]. done.
  - apply pre_length_facts in H as (Hl & Hc & _); [|done]. split; [done|].
    intros ->. by destruct Hc.
  - injection H as <- <-. done.
Qed.

Definition rounds (content : list Z) (k : Z) (st : splitter) : Z :=
  2 * (zlen content - k) - (if decide (state st = FindingBeginString) then 1 else 0).

Lemma u32_small z : 0 ≤ z < 2 ^ 32 → u32 z = z.
Proof. intros. by apply Z.mod_small. Qed.

Lemma u32_next k n : 0 ≤ k + n < 2 ^ 32 → u32 (u32 (k + (n - 1)) + 1) = k + n.
Proof. intros. unfold u32. rewrite Zplus_mod_idemp_l, Z.mod_small; lia. Qed.

Lemma copy_facts content k st k' st' :
  zlen content < 2 ^ 32 → 0 ≤ bytes_left_to_copy st < 2 ^ 32 → 0 ≤ k < zlen content →
  copy content k st = Some (k', st') →
  0 ≤ bytes_left_to_copy st' < 2 ^ 32 ∧ k ≤ k'
  ∧ (k' = k + bytes_left_to_copy st ∧ k' ≤ zlen content ∧ state st' = FindingBeginString ∨
     k' = zlen content + 1 ∧ state st' = state st).
Proof.
  intros Hlen H0 Hk. unfold copying_body. opt_case; [|done]. case_match; bool_hyps.
  - opt_case; [|done]. opt_case; [|done]. opt_case; [|done]. intros [= <- <-].
    apply complete_copy_fields in E2 as [_ E2]. cbn in E2 |- *. rewrite u32_next by lia.
    rewrite E2. split; [done|]. split; [lia|]. left. split_and!; [done | lia | done].
  - opt_case; [|done]. opt_case; [|done]. intros [= <- <-]. cbn.
    split; [apply Z.mod_pos_bound; lia|]. split; [lia | by right].
Qed.

Lemma step_progress content k st k' st' :
  isdigit soh = false → zlen content < 2 ^ 32 → 0 ≤ bytes_left_to_copy st < 2 ^ 32 →
  0 ≤ k < zlen content → step content k st = Some (k', st') →
  0 ≤ bytes_left_to_copy st' < 2 ^ 32 ∧ 0 ≤ k' ∧ rounds content k' st' < rounds content k st.
Proof.
  intros Hsoh Hlen H0 Hk. rewrite splitter_step_eq. opt_case; [|done].
  destruct (pre_step _ st) as [[cp x]|] eqn:Ep; obind; [|done].
  apply pre_step_facts in Ep as [Hl Hcp]; [|done..]. destruct cp.
  - intros (Hl' & Hkk & Hc)%copy_facts; [|done..]. destruct Hcp as [Hs Hx]; [done|].
    split; [done|]. split; [lia|]. unfold rounds. rewrite (decide_False (P := state st = _)) by done.
    destruct Hc as [(-> & ? & ->)|(-> & ->)]; [rewrite decide_True by done; lia|].
    rewrite decide_False by congruence. lia.
  - intros [= <- <-]. split; [done|]. split; [lia|]. unfold rounds. repeat case_decide; lia.
Qed.

(** ** The loop, without its fuel *)

Lemma loop_fuel f f' content k st :
  isdigit soh = false → zlen content < 2 ^ 32 → 0 ≤ bytes_left_to_copy st < 2 ^ 32 → 0 ≤ k →
  rounds content k st ≤ Z.of_nat f → rounds content k st ≤ Z.of_nat f' →
  loop f content k st = loop f' content k st.
Proof.
  intros Hsoh Hlen. revert f' k st. induction f as [|f IH]; intros f' k st H0 Hk Hf Hf'.
  - assert (zlen content ≤ k) by (unfold rounds in Hf; case_decide; lia).
    destruct f'; cbn [splitter_loop]; by rewrite (proj2 (Z.ltb_ge _ _)) by lia.
  - destruct f' as [|f'].
    { assert (zlen content ≤ k) by (unfold rounds in Hf'; case_decide; lia).
      cbn [splitter_loop]; by rewrite (proj2 (Z.ltb_ge _ _)) by lia. }
    cbn [splitter_loop]. destruct (Z.ltb_spec k (zlen content)); [|done].
    destruct (step content k st) as [[k' st']|] eqn:E; obind; [|done].
    apply step_progress in E as (? & ? & ?); [|done..]. apply IH; lia.
Qed.

(** Run a foxtrot entry from position [k]. *)
Definition run (content : list Z) (k : Z) (st : splitter) : option splitter :=
  loop (2 * length content) content k st.

Lemma run_eq content k st :
  isdigit soh = false → zlen content < 2 ^ 32 → 0 ≤ bytes_left_to_copy st < 2 ^ 32 → 0 ≤ k →
  run content k st
  = if k <? zlen content then '(k, st) ← step content k st; run content k st else Some st.
Proof.
  intros Hsoh Hlen H0 Hk. unfold run at 1.
  rewrite (loop_fuel _ (S (2 * length content))); [|try done..]; cycle 1.
  { unfold rounds. case_decide; lia. }
  { unfold rounds. case_decide; lia. }
  cbn [splitter_loop]. destruct (Z.ltb_spec k (zlen content)); [|done].
  destruct (step content k st) as [[k' st']|] eqn:E; obind; [|done].
  done.
Qed.

(** Induction along a run. *)
Lemma run_ind content (P : Z → splitter → Prop) :
  isdigit soh = false → zlen content < 2 ^ 32 →
  (∀ k st, 0 ≤ bytes_left_to_copy st < 2 ^ 32 → 0 ≤ k →
     (∀ k' st', k < zlen content → step content k st = Some (k', st') →
        0 ≤ bytes_left_to_copy st' < 2 ^ 32 → 0 ≤ k' → P k' st') → P k st) →
  ∀ k st, 0 ≤ bytes_left_to_copy st < 2 ^ 32 → 0 ≤ k → P k st.
Proof.
  intros Hsoh Hlen Hstep k st. remember (Z.to_nat (rounds content k st)) as n eqn:En.
  revert k st En. induction n as [n IH] using lt_wf_ind. intros k st -> H0 Hk.
  apply Hstep; [done..|]. intros k' st' Hlt E H0' Hk'.
  apply step_progress in E as (_ & _ & ?); [|done..].
  apply (IH (Z.to_nat (rounds content k' st'))); [|done..].
  assert (1 ≤ rounds content k st) by (unfold rounds; case_decide; lia). lia.
Qed.

Lemma copying_after_pre c st x : pre_step c st = Some (true, x) → state x = CopyingBody.
Proof.
  unfold pre_step. destruct (state st) eqn:Es.
  - opt_case; [|done]. case_match; [done|]. case_match; [|by opt_case].
    unfold pre_length. case_match; [done|]. opt_case; [|done]. case_match; [done|].
    case_match; [done|]. opt_case; [|done]. opt_case; [|done]. opt_case; [|done].
    intros [= Hb <-]. by apply bool_decide_eq_true in Hb.
  - unfold pre_length. case_match; [done|]. opt_case; [|done]. case_match; [done|].
    case_match; [done|]. opt_case; [|done]. opt_case; [|done]. opt_case; [|done].
    intros [= Hb <-]. by apply bool_decide_eq_true in Hb.
  - by intros [= <-].
Qed.

Lemma run_equiv content a b k :
  isdigit soh = false → zlen content < 2 ^ 32 → st_equiv a b →
  0 ≤ bytes_left_to_copy a < 2 ^ 32 → 0 ≤ bytes_left_to_copy b < 2 ^ 32 → 0 ≤ k →
  option_Forall2 st_equiv (run content k a) (run content k b).
Proof.
  intros Hsoh Hlen Hab Ha Hb Hk. revert k a Ha Hk b Hab Hb.
  apply (run_ind content (λ k a, ∀ b, st_equiv a b → 0 ≤ bytes_left_to_copy b < 2 ^ 32 →
    option_Forall2 st_equiv (run content k a) (run content k b))); [done..|].
  intros k a Ha Hk IH b Hab Hb. rewrite !run_eq by done.
  destruct (Z.ltb_spec k (zlen content)) as [Hlt|]; [|by constructor].
  pose proof (step_equiv content k a b copying_after_pre Hab) as Hs.
  destruct (step content k a) as [[k' a']|] eqn:Ea; inversion Hs as [? [k2 b'] [E Hab']|]; subst;
    obind; [|constructor]. cbn [fst snd] in *. subst k2.
  apply step_progress in Ea as Ha'; [|done..]. destruct Ha' as (? & ? & _).
  apply (IH k' a'); try done. symmetry in H0. apply step_progress in H0 as (? & _); done.
Qed.

(** ** Positions in a concatenation *)

Lemma get_at_app_l (a b : list Z) k : k < zlen a → get_at (a ++ b) k = get_at a k.
Proof. intros. unfold get_at. case_match; [|done]. bool_hyps. apply lookup_app_l. lia. Qed.

Lemma get_at_shift (a b : list Z) j : 0 ≤ j → get_at (a ++ b) (zlen a + j) = get_at b j.
Proof. intros. unfold get_at. bsolve. rewrite lookup_app_r by lia. f_equal. lia. Qed.

Lemma read_at_shift (a b : list Z) j n : 0 ≤ j → read_at (a ++ b) (zlen a + j) n = read_at b j n.
Proof.
  intros. unfold read_at. rewrite length_app, Nat2Z.inj_add. rewrite (Z2Nat.inj_add (zlen a)) by lia.
  rewrite Nat2Z.id, drop_app_add. bsolve.
  destruct (0 <=? n); cbn [andb]; [|done]. case_match; bool_hyps; bsolve; done.
Qed.

Lemma read_at_front (a b : list Z) k n : k + n ≤ zlen a → read_at (a ++ b) k n = read_at a k n.
Proof.
  intros. unfold read_at. bsolve. rewrite !andb_true_r. destruct (0 <=? k) eqn:E1; [|done].
  destruct (0 <=? n) eqn:E2; [|done]. bool_hyps. cbn [andb].
  rewrite drop_app_le, take_app_le by (rewrite ?length_drop; lia). done.
Qed.

Lemma read_at_across (a b : list Z) k n :
  0 ≤ k ≤ zlen a → zlen a ≤ k + n →
  read_at (a ++ b) k n
  = p ← read_at a k (zlen a - k); q ← read_at b 0 (n - (zlen a - k)); Some (p ++ q).
Proof.
  intros. unfold read_at. zlen_simpl. bsolve. obind.
  assert (Ea : take (Z.to_nat (zlen a - k)) (drop (Z.to_nat k) a) = drop (Z.to_nat k) a).
  { apply take_ge. rewrite length_drop. lia. }
  rewrite Ea. destruct (Z.leb_spec (k + n) (zlen a + zlen b)); bsolve; [|done]. obind. f_equal.
  rewrite drop_app_le by lia. rewrite (take_app_ge (drop _ a)) by (rewrite length_drop; lia).
  change (Z.to_nat 0) with 0%nat. cbn [drop]. rewrite length_drop. f_equal. f_equal. lia.
Qed.

Lemma write_at_app (d p q : list Z) off :
  write_at d off (p ++ q) = d' ← write_at d off p; write_at d' (off + zlen p) q.
Proof.
  destruct (write_at d off p) as [d'|] eqn:E.
  - obind. apply write_at_split in E as (x & y & z & -> & -> & -> & Hy).
    destruct (decide (length q ≤ length z)%nat) as [Hq|Hq].
    + rewrite <- (take_drop (length q) z).
      rewrite (app_assoc x p). rewrite (write_at_mid (x ++ p) (take (length q) z));
        [|by zlen_simpl | rewrite length_take; lia].
      rewrite (app_assoc y). rewrite (write_at_mid x (y ++ take (length q) z));
        [by app_norm | done | rewrite !length_app, length_take; lia].
    + rewrite !write_at_outside; [done|..]; llia.
  - obind. unfold write_at in *. destruct (0 <=? off) eqn:E0; [|done]. cbn [andb] in *.
    case_match; [done|]. bool_hyps. by rewrite (proj2 (Z.leb_gt _ _)) by llia.
Qed.

Definition shift (n : Z) (p : Z * splitter) : Z * splitter := (n + p.1, p.2).

Lemma copy_shift a b j st :
  zlen (a ++ b) < 2 ^ 32 → 0 ≤ j < zlen b → 0 ≤ bytes_left_to_copy st < 2 ^ 32 →
  copy (a ++ b) (zlen a + j) st = shift (zlen a) <$> copy b j st.
Proof.
  intros Hlen Hj H0. unfold copying_body. destruct (deref _) as [d|]; [obind | done].
  rewrite !read_at_shift by lia.
  replace (zlen (a ++ b) - (zlen a + j)) with (zlen b - j) by llia.
  case_match; bool_hyps.
  - opt_case; [|done]. opt_case; [|done]. opt_case; [|done]. cbn. unfold shift. cbn [fst snd].
    rewrite !u32_next by llia. do 2 f_equal. lia.
  - opt_case; [|done]. opt_case; [|done]. cbn. unfold shift. cbn [fst snd].
    do 2 f_equal. llia.
Qed.

Lemma step_shift a b j st :
  isdigit soh = false → zlen (a ++ b) < 2 ^ 32 → 0 ≤ j < zlen b → 0 ≤ bytes_left_to_copy st < 2 ^ 32 →
  step (a ++ b) (zlen a + j) st = shift (zlen a) <$> step b j st.
Proof.
  intros Hsoh Hlen Hj H0. rewrite !splitter_step_eq, get_at_shift by lia.
  opt_case; [|done]. destruct (pre_step z st) as [[cp x]|] eqn:Ep; obind; [|done].
  apply pre_step_facts in Ep as [? _]; [|done..]. destruct cp; [by apply copy_shift|].
  cbn. unfold shift. cbn [fst snd]. do 2 f_equal. lia.
Qed.

Lemma run_shift a b j st :
  isdigit soh = false → zlen (a ++ b) < 2 ^ 32 → 0 ≤ j → 0 ≤ bytes_left_to_copy st < 2 ^ 32 →
  run (a ++ b) (zlen a + j) st = run b j st.
Proof.
  intros Hsoh Hlen Hj H0. assert (Hb : zlen b < 2 ^ 32) by llia.
  revert j st H0 Hj. apply (run_ind b (λ j st, run (a ++ b) (zlen a + j) st = run b j st)); [done..|].
  intros j st H0 Hj IH. rewrite (run_eq (a ++ b)), (run_eq b) by first [done | lia].
  destruct (Z.ltb_spec j (zlen b)) as [Hlt|].
  - rewrite (proj2 (Z.ltb_lt _ _)) by llia. rewrite step_shift by first [done | lia].
    destruct (step b j st) as [[k' st']|] eqn:E; cbn; [|done].
    unfold shift. cbn [fst snd]. apply step_progress in E as E'; [|done..]. destruct E' as (? & ? & _).
    by apply IH.
  - by rewrite (proj2 (Z.ltb_ge _ _)) by llia.
Qed.

(** ** Copying across a chunk boundary *)

Definition same_step (p q : Z * splitter) : Prop := p.1 = q.1 ∧ st_equiv p.2 q.2.

Lemma copy_inside a b k st :
  zlen (a ++ b) < 2 ^ 32 → 0 ≤ k → bytes_left_to_copy st ≤ zlen a - k →
  copy (a ++ b) k st = copy a k st.
Proof.
  intros. unfold copying_body. rewrite read_at_front by lia.
  rewrite !(proj2 (Z.leb_le _ _)) by llia. done.
Qed.

Lemma complete_moved o n d1 d st :
  complete (set_data d (set_copy o n (set_data d1 st)))
  = set_copy o n <$> complete (set_data d st).
Proof. rewrite <- complete_set_copy. done. Qed.

Lemma copy_across a b k st :
  zlen (a ++ b) < 2 ^ 32 → 0 ≤ k < zlen a → 0 < zlen b →
  zlen a - k < bytes_left_to_copy st < 2 ^ 32 →
  option_Forall2 same_step (copy (a ++ b) k st)
    ('(_, y) ← copy a k st; shift (zlen a) <$> copy b 0 y).
Proof.
  intros Hlen Hk Hb Hleft. set (left := bytes_left_to_copy st) in *.
  unfold copying_body at 3. destruct (deref (data (delta_entry st))) as [d|] eqn:Ed; [obind|];
    [|unfold copying_body; rewrite Ed; constructor].
  fold left. rewrite (proj2 (Z.leb_gt _ _)) by lia.
  assert (Hr : ∃ p, read_at a k (zlen a - k) = Some p ∧ zlen p = zlen a - k).
  { unfold read_at. bsolve. eexists. split; [done|]. rewrite length_take, length_drop. lia. }
  destruct Hr as (p & Hp & Hpl). rewrite Hp. obind.
  unfold copying_body at 1. rewrite Ed. obind. fold left.
  rewrite !read_at_across by llia. rewrite Hp. obind.
  replace (zlen (a ++ b) - k - (zlen a - k)) with (zlen b) by llia.
  destruct (write_at d (offset st) p) as [d1|] eqn:Ew; obind.
  - unfold copying_body.
    cbn [set_copy set_data set_delta delta_entry data deref bytes_left_to_copy offset]. obind.
    rewrite (u32_small (left - (zlen a - k))) by lia. rewrite !Z.sub_0_r.
    replace (left <=? zlen (a ++ b) - k) with (left - (zlen a - k) <=? zlen b).
    2: { destruct (Z.leb_spec (left - (zlen a - k)) (zlen b)); symmetry;
         [apply Z.leb_le | apply Z.leb_gt]; llia. }
    case_match eqn:Hc; bool_hyps; (destruct (read_at b 0 _) as [q|]; obind; [|constructor]);
      rewrite write_at_app, Ew; obind; rewrite Hpl;
      (destruct (write_at d1 _ q) as [d2|]; obind; [|constructor]).
    + change (set_data d2 (set_copy ?o ?n (set_data d1 st)))
        with (set_data d2 (set_copy o n (set_data d1 st))).
      rewrite complete_moved. destruct (complete (set_data d2 st)) as [z|]; cbn; [|constructor].
      constructor. split; cbn [fst snd shift].
      * rewrite !u32_next by llia. lia.
      * by apply (st_equiv_set_copy (offset st + (zlen a - k)) (left - (zlen a - k))
          (set_parse FindingBeginString (l z) z)).
    + cbn. constructor. split; cbn [fst snd shift]; [llia|].
      rewrite !u32_small by llia. replace (left - (zlen (a ++ b) - k)) with (left - (zlen a - k) - zlen b) by llia.
      replace (offset st + (zlen (a ++ b) - k)) with (offset st + (zlen a - k) + zlen b) by llia.
      done.
  - assert (∀ q, write_at d (offset st) (p ++ q) = None).
    { intros q. by rewrite write_at_app, Ew. }
    case_match; (destruct (read_at b 0 _) as [q|]; obind; [|constructor]);
      rewrite H; constructor.
Qed.

(** ** Where the chunks end makes no difference *)

Lemma run_chunk a b k st :
  isdigit soh = false → zlen (a ++ b) < 2 ^ 32 → 0 < zlen b →
  0 ≤ bytes_left_to_copy st < 2 ^ 32 → 0 ≤ k → k ≤ zlen a →
  option_Forall2 st_equiv (run (a ++ b) k st) (st ← run a k st; run b 0 st).
Proof.
  intros Hsoh Hlen Hb. assert (Ha : zlen a < 2 ^ 32) by llia.
  intros H0 Hk. revert k st H0 Hk.
  apply (run_ind a (λ k st, k ≤ zlen a →
    option_Forall2 st_equiv (run (a ++ b) k st) (st ← run a k st; run b 0 st))); [done..|].
  intros k st H0 Hk IH Hka. assert (Hrefl : ∀ x : option splitter, option_Forall2 st_equiv x x).
  { intros [x|]; by constructor. }
  rewrite (run_eq a) by done. destruct (Z.ltb_spec k (zlen a)) as [Hlt|].
  2: { obind. replace k with (zlen a + 0) by lia. rewrite run_shift by first [done | lia]. apply Hrefl. }
  rewrite run_eq by done. rewrite (proj2 (Z.ltb_lt _ _)) by llia.
  rewrite !splitter_step_eq. rewrite get_at_app_l by done.
  destruct (get_at a k) as [c|] eqn:Ec; obind; [|constructor].
  destruct (pre_step c st) as [[cp x]|] eqn:Ep; obind; [|constructor].
  assert (Estep : step a k st = if cp then copy a k x else Some (k + 1, x)).
  { rewrite splitter_step_eq, Ec. obind. by rewrite Ep. }
  apply pre_step_facts in Ep as Hx; [|done..]. destruct Hx as [Hx Hcp].
  destruct cp; [|obind; apply IH; first [done | lia]].
  destruct (Z.le_gt_cases (bytes_left_to_copy x) (zlen a - k)).
  - rewrite copy_inside by lia. destruct (copy a k x) as [[k' y]|] eqn:Ey; obind; [|constructor].
    apply copy_facts in Ey as Hy; [|done..]. destruct Hy as (? & ? & [(-> & ? & _)|(-> & _)]).
    + apply IH; first [done | lia].
    + exfalso. revert Ey. unfold copying_body. opt_case; [|done]. bsolve.
      repeat (opt_case; [|done]). intros [= Hbad _]. rewrite u32_next in Hbad by lia. lia.
  - destruct (Hcp eq_refl) as [_ Hxs].
    pose proof (copy_across a b k x Hlen ltac:(lia) Hb ltac:(lia)) as Hac.
    assert (Hy : ∀ k' y, copy a k x = Some (k', y) → k' = zlen a + 1 ∧ state y = CopyingBody).
    { intros k' y E. unfold copying_body in E. revert E. opt_case; [|done]. bsolve.
      do 2 (opt_case; [|done]). by intros [= <- <-]. }
    destruct (copy a k x) as [[k' y]|] eqn:Ey; [|inversion Hac; constructor].
    destruct (Hy _ _ eq_refl) as [-> Hys]. obind.
    apply copy_facts in Ey as Hf; [|done..]. destruct Hf as (Hy0 & _ & _).
    rewrite run_eq by first [done | lia]. rewrite (proj2 (Z.ltb_ge _ _)) by lia. obind.
    rewrite (run_eq b) by first [done | llia]. rewrite (proj2 (Z.ltb_lt 0 _)) by lia.
    rewrite splitter_step_eq. destruct (get_at b 0) as [cb|] eqn:Ecb.
    2: { unfold get_at in Ecb. cbn in Ecb. destruct b; [cbn in Hb; lia | done]. }
    obind. unfold pre_step at 1. rewrite Hys. obind. revert Hac. obind. intros Hac.
    destruct (copy b 0 y) as [[j z]|] eqn:Ez, (copy (a ++ b) k x) as [[j' w]|] eqn:Ew;
      inversion Hac as [? ? [E1 E2]|]; cbn [fst snd shift] in *; subst; obind; [|constructor].
    apply copy_facts in Ez as Hz; [|first [done | llia]..]. destruct Hz as (? & ? & _).
    apply copy_facts in Ew as Hw; [|first [done | llia]..]. destruct Hw as (? & ? & _).
    rewrite <- (run_shift a b j z) by first [done | lia].
    apply run_equiv; first [done | lia].
Qed.

Lemma run_left content k st st' :
  isdigit soh = false → zlen content < 2 ^ 32 → 0 ≤ bytes_left_to_copy st < 2 ^ 32 → 0 ≤ k →
  run content k st = Some st' → 0 ≤ bytes_left_to_copy st' < 2 ^ 32.
Proof.
  intros Hsoh Hlen H0 Hk. revert k st H0 Hk.
  apply (run_ind content (λ k st, run content k st = Some st' →
    0 ≤ bytes_left_to_copy st' < 2 ^ 32)); [done..|].
  intros k st H0 Hk IH. rewrite run_eq by done. destruct (Z.ltb_spec k (zlen content)).
  - destruct (step content k st) as [[k' x]|] eqn:E; obind; [|done].
    apply step_progress in E as E'; [|done..]. destruct E' as (? & ? & _). by apply IH.
  - by intros [= <-].
Qed.

(** The bytes of [s] as one entry each. *)
Fixpoint bytes_run (s : list Z) (st : splitter) : option splitter :=
  match s with [] => Some st | c :: s => st ← run [c] 0 st; bytes_run s st end.

Lemma option_equiv_trans (x y z : option splitter) :
  option_Forall2 st_equiv x y → option_Forall2 st_equiv y z → option_Forall2 st_equiv x z.
Proof.
  intros [a b Hab|] H; inversion H; subst; constructor. etrans; eassumption.
Qed.

Lemma run_bytes c st :
  isdigit soh = false → zlen c < 2 ^ 32 → 0 ≤ bytes_left_to_copy st < 2 ^ 32 →
  option_Forall2 st_equiv (run c 0 st) (bytes_run c st).
Proof.
  intros Hsoh. revert st. induction c as [|x c IH]; intros st Hlen H0; [by constructor|].
  destruct c as [|y c].
  { cbn [bytes_run]. destruct (run [x] 0 st); by constructor. }
  eapply option_equiv_trans; [apply (run_chunk [x] (y :: c)); cbn [app]; first [done | llia]|].
  remember (y :: c) as c'. cbn [bytes_run]. destruct (run [x] 0 st) as [st'|] eqn:E; obind; [|constructor].
  apply run_left in E; [|first [done | llia]..]. apply IH; first [done | llia].
Qed.

Lemma bytes_run_equiv s a b :
  isdigit soh = false → st_equiv a b →
  0 ≤ bytes_left_to_copy a < 2 ^ 32 → 0 ≤ bytes_left_to_copy b < 2 ^ 32 →
  option_Forall2 st_equiv (bytes_run s a) (bytes_run s b).
Proof.
  intros Hsoh. revert a b. induction s as [|x s IH]; intros a b Hab Ha Hb; [by constructor|].
  cbn [bytes_run]. pose proof (run_equiv [x] a b 0 Hsoh ltac:(done) Hab Ha Hb ltac:(done)) as H.
  destruct (run [x] 0 a) as [a'|] eqn:Ea, (run [x] 0 b) as [b'|] eqn:Eb; inversion H; obind;
    [|constructor].
  apply run_left in Ea, Eb; [|done..]. by apply IH.
Qed.

Lemma bytes_run_app s1 s2 st : bytes_run (s1 ++ s2) st = st ← bytes_run s1 st; bytes_run s2 st.
Proof.
  revert st. induction s1 as [|x s1 IH]; intros st; [done|]. cbn [app bytes_run].
  destruct (run [x] 0 st); obind; [apply IH | done].
Qed.

Lemma bytes_run_left s st st' :
  isdigit soh = false → 0 ≤ bytes_left_to_copy st < 2 ^ 32 → bytes_run s st = Some st' →
  0 ≤ bytes_left_to_copy st' < 2 ^ 32.
Proof.
  intros Hsoh. revert st. induction s as [|x s IH]; intros st H0; cbn [bytes_run]; [by intros [= <-]|].
  destruct (run [x] 0 st) as [y|] eqn:E; obind; [|done].
  apply run_left in E; [|done..]. by apply IH.
Qed.

#[local] Abbreviation entries := (splitter_entries begin_string begin_string_length soh malloc
  acquire_delta acquire_echo CACHE_LINE_SIZE tx_malloc tx_realloc fixmsg_rx).

Lemma entries_bytes cs st :
  isdigit soh = false → Forall (λ c, zlen c < 2 ^ 32) cs → 0 ≤ bytes_left_to_copy st < 2 ^ 32 →
  option_Forall2 st_equiv (entries cs st) (bytes_run (concat cs) st).
Proof.
  intros Hsoh Hcs. revert st. induction Hcs as [|c cs Hc _ IH]; intros st H0; [by constructor|].
  cbn [splitter_entries concat]. rewrite bytes_run_app. unfold splitter_entry. fold (run c 0 st).
  pose proof (run_bytes c st Hsoh Hc H0) as H.
  destruct (run c 0 st) as [a|] eqn:Ea, (bytes_run c st) as [b|] eqn:Eb; inversion H; subst; obind;
    [|constructor].
  apply run_left in Ea; [|done..]. apply bytes_run_left in Eb; [|done..].
  eapply option_equiv_trans; [by apply IH|]. by apply bytes_run_equiv.
Qed.

Lemma entries_same_bytes cs ds st :
  isdigit soh = false → Forall (λ c, zlen c < 2 ^ 32) cs → Forall (λ c, zlen c < 2 ^ 32) ds →
  concat cs = concat ds → 0 ≤ bytes_left_to_copy st < 2 ^ 32 →
  option_Forall2 st_equiv (entries cs st) (entries ds st).
Proof.
  intros Hsoh Hcs Hds E H0. eapply option_equiv_trans; [by apply entries_bytes|]. rewrite E.
  assert (Hsym : ∀ x y, option_Forall2 st_equiv x y → option_Forall2 st_equiv y x).
  { intros x y []; constructor. by symmetry. }
  apply Hsym. by apply entries_bytes.
Qed.
End Lemmas.

(** ** Rounds of the loop *)

Section Rounds.
Context (begin_string : list Z) (begin_string_length : Z) (soh : Z).
Context (malloc : nat → Z → option (list Z)).
Context (acquire_delta : nat → delta_t) (acquire_echo : nat → list Z).
Context (CACHE_LINE_SIZE : Z) (tx_malloc : nat → Z → option (list Z))
        (tx_realloc : nat → Z → option (bool * list Z)).
Context (fixmsg_rx : FIXMessageRX).

#[local] Abbreviation step := (splitter_step begin_string begin_string_length soh malloc acquire_delta
  acquire_echo CACHE_LINE_SIZE tx_malloc tx_realloc fixmsg_rx).
#[local] Abbreviation loop := (splitter_loop begin_string begin_string_length soh malloc acquire_delta
  acquire_echo CACHE_LINE_SIZE tx_malloc tx_realloc fixmsg_rx).
#[local] Abbreviation run := (run begin_string begin_string_length soh malloc acquire_delta
  acquire_echo CACHE_LINE_SIZE tx_malloc tx_realloc fixmsg_rx).

(** [n] rounds of the loop lead from a position and state to another. *)
Inductive steps (content : list Z) : nat → Z * splitter → Z * splitter → Prop :=
  | steps_refl p : steps content 0 p p
  | steps_cons n k st p q :
      k < zlen content → step content k st = Some p → steps content n p q →
      steps content (S n) (k, st) q.

Lemma steps_bounded content k st :
  isdigit soh = false → zlen content < 2 ^ 32 → 0 ≤ bytes_left_to_copy st < 2 ^ 32 → 0 ≤ k →
  ∃ n k' st', steps content n (k, st) (k', st') ∧ Z.of_nat n ≤ Z.max 0 (rounds content k st) ∧
    (zlen content ≤ k' ∧ run content k st = Some st' ∨
     k' < zlen content ∧ step content k' st' = None ∧ run content k st = None).
Proof.
  intros Hsoh Hlen H0 Hk. revert k st H0 Hk.
  apply (run_ind begin_string begin_string_length soh malloc acquire_delta acquire_echo CACHE_LINE_SIZE
    tx_malloc tx_realloc fixmsg_rx content (λ k st, ∃ n k' st', steps content n (k, st) (k', st') ∧
    Z.of_nat n ≤ Z.max 0 (rounds content k st) ∧
    (zlen content ≤ k' ∧ run content k st = Some st' ∨
     k' < zlen content ∧ step content k' st' = None ∧ run content k st = None))); [done..|].
  intros k st H0 Hk IH. rewrite run_eq by done. destruct (Z.ltb_spec k (zlen content)) as [Hlt|Hge].
  - destruct (step content k st) as [[k1 st1]|] eqn:E; obind.
    + apply step_progress in E as Hp; [|done..]. destruct Hp as (? & ? & Hdec).
      destruct (IH k1 st1) as (n & k' & st' & Hst & Hn & Hend); [done..|].
      exists (S n), k', st'. split; [by eapply steps_cons|]. split; [|done].
      assert (1 ≤ rounds content k st) by (unfold rounds; case_decide; lia). lia.
    + exists 0%nat, k, st. split; [constructor|]. split; [lia|]. by right.
  - exists 0%nat, k, st. split; [constructor|]. split; [lia|]. by left.
Qed.

(** ** [errno] *)

Lemma known_erange st :
  erange st = true → is_Some (cstr (length_str st)) →
  body_length_known begin_string begin_string_length malloc st
  = Some (Some (set_parse FindingBeginString (l st) st)).
Proof.
  intros He [ls Hls]. unfold body_length_known. rewrite Hls. obind. destruct (atoll ls) as [v over].
  cbn [set_erange erange]. rewrite He. cbn [orb]. rewrite orb_true_r. destruct st. cbn in *. by subst.
Qed.

Definition deaf (st : splitter) : Prop := erange st = true ∧ state st ≠ CopyingBody.

Lemma pre_length_deaf c st cp st' :
  deaf st → pre_length begin_string begin_string_length soh malloc c st = Some (cp, st') →
  cp = false ∧ deaf st' ∧ events st' = events st.
Proof.
  intros [He Hs]. unfold pre_length, deaf. case_match; [by intros [= <- <-]|].
  opt_case; [|done]. case_match; [by intros [= <- <-]|]. case_match; [by intros [= <- <-]|].
  opt_case; [|done]. destruct (cstr l1) as [s|] eqn:Es.
  - rewrite known_erange by (done || (cbn; eauto)). obind.
    rewrite bool_decide_eq_false_2 by done. by intros [= <- <-].
  - unfold body_length_known. cbn [set_parse set_length_str length_str]. by rewrite Es.
Qed.

Lemma pre_step_deaf c st cp st' :
  deaf st → pre_step begin_string begin_string_length soh malloc c st = Some (cp, st') →
  cp = false ∧ deaf st' ∧ events st' = events st.
Proof.
  intros Hd. unfold pre_step. destruct (state st) eqn:Es; [|by apply pre_length_deaf | by destruct Hd].
  opt_case; [|done]. case_match; [intros [= <- <-]; by destruct Hd|].
  case_match; [apply (pre_length_deaf c (set_parse FindingBodyLength 0 st)); by destruct Hd|].
  opt_case; [|done]. intros [= <- <-]. by destruct Hd.
Qed.

Lemma step_deaf content k st k' st' :
  deaf st → step content k st = Some (k', st') → deaf st' ∧ events st' = events st.
Proof.
  intros Hd. rewrite splitter_step_eq. opt_case; [|done].
  destruct (pre_step _ _ _ _ z st) as [[cp x]|] eqn:Ep; obind; [|done].
  apply pre_step_deaf in Ep as (-> & Hx & Hev); [|done]. by intros [= <- <-].
Qed.

Lemma loop_deaf fuel content k st st' :
  deaf st → loop fuel content k st = Some st' → deaf st' ∧ events st' = events st.
Proof.
  revert k st. induction fuel as [|fuel IH]; intros k st Hd; cbn [splitter_loop].
  - case_match; [done|]. by intros [= <-].
  - case_match; [|by intros [= <-]]. destruct (step content k st) as [[k1 x]|] eqn:E; obind; [|done].
    apply step_deaf in E as [Hx Hev]; [|done]. rewrite <- Hev. by apply IH.
Qed.
End Rounds.

(** ** The branch for a ResendRequest *)

Section Branch.
Context (begin_string : list Z) (begin_string_length : Z) (soh : Z).
Context (malloc : nat → Z → option (list Z)).
Context (acquire_delta : nat → delta_t) (acquire_echo : nat → list Z).
Context (CACHE_LINE_SIZE : Z) (tx_malloc : nat → Z → option (list Z))
        (tx_realloc : nat → Z → option (bool * list Z)).
Context (rx1 rx2 : FIXMessageRX).

Lemma complete_branch st :
  message_complete begin_string_length soh acquire_delta acquire_echo CACHE_LINE_SIZE
    tx_malloc tx_realloc rx1 st
  = message_complete begin_string_length soh acquire_delta acquire_echo CACHE_LINE_SIZE
      tx_malloc tx_realloc rx2 st.
Proof.
  unfold message_complete. opt_case; [|done]. opt_case; [|done].
  opt_case; [|done]. case_match; [done|]. opt_case; [|done]. destruct p as [[? ?] ?].
  case_match; [done|]. opt_case; [|done]. opt_case; [|done]. case_match; [done|].
  opt_case; [|done]. destruct (is_session_message_type _) as [[]|] eqn:Es; obind; [done| |done].
  cbn [negb]. by rewrite nonsession_not_resend.
Qed.

Lemma copying_branch content k st :
  copying_body begin_string_length soh acquire_delta acquire_echo CACHE_LINE_SIZE
    tx_malloc tx_realloc rx1 content k st
  = copying_body begin_string_length soh acquire_delta acquire_echo CACHE_LINE_SIZE
      tx_malloc tx_realloc rx2 content k st.
Proof.
  unfold copying_body. opt_case; [|done]. case_match; [|done].
  opt_case; [|done]. opt_case; [|done]. by rewrite complete_branch.
Qed.

Lemma loop_branch fuel content k st :
  splitter_loop begin_string begin_string_length soh malloc acquire_delta
    acquire_echo CACHE_LINE_SIZE tx_malloc tx_realloc rx1 fuel content k st
  = splitter_loop begin_string begin_string_length soh malloc acquire_delta
      acquire_echo CACHE_LINE_SIZE tx_malloc tx_realloc rx2 fuel content k st.
Proof.
  revert k st. induction fuel as [|fuel IH]; intros k x; [done|]. cbn [splitter_loop]. case_match; [|done].
  rewrite !splitter_step_eq. destruct (get_at content k) as [c|]; obind; [|reflexivity].
  destruct (pre_step _ _ _ _ c x) as [[[] y]|]; obind; [|apply IH | done]. rewrite copying_branch.
  destruct (copying_body _ _ _ _ _ _ _ _ _ _ y) as [[? ?]|]; obind; [apply IH | done].
Qed.
End Branch.

(** ** Requests to resend *)

Definition is_resend (e : event) : bool := match e with Resend _ _ => true | _ => false end.

(** The calls of [pusher->resend] so far. *)
Definition resends (st : splitter) : list event := List.filter is_resend (events st).

(** What no part of a round but [message_complete] changes. *)
Definition traces (st : splitter) : list event * nat * nat := (events st, ndelta st, necho st).

Section NoResend.
Context (begin_string : list Z) (begin_string_length : Z) (soh : Z).
Context (malloc : nat → Z → option (list Z)).
Context (acquire_delta : nat → delta_t) (acquire_echo : nat → list Z).
Context (CACHE_LINE_SIZE : Z) (tx_malloc : nat → Z → option (list Z))
        (tx_realloc : nat → Z → option (bool * list Z)).
Context (fixmsg_rx : FIXMessageRX).

Lemma answers_pushed (f : event → bool) msg n reason tx ev :
  (∀ ex, f (Pushed ex) = false) →
  (send_session_level_reject_message CACHE_LINE_SIZE tx_malloc tx_realloc msg n reason = Some (tx, ev) ∨
   send_resend_request_message CACHE_LINE_SIZE tx_malloc tx_realloc msg n = Some (tx, ev)) →
  List.filter f ev = [].
Proof.
  unfold send_session_level_reject_message, send_resend_request_message.
  intros Hf [H|H]; revert H; repeat first
    [ match goal with p : _ * _ |- _ => destruct p end
    | case_match; [by intros [= <- <-]|] | opt_case; [|done] ]; intros [= <- <-]; cbn; by rewrite Hf.
Qed.

Lemma complete_no_resend st st' :
  message_complete begin_string_length soh acquire_delta acquire_echo CACHE_LINE_SIZE tx_malloc tx_realloc
    fixmsg_rx st = Some st' → resends st' = resends st.
Proof.
  unfold message_complete, resends. opt_case; [|done]. opt_case; [|done].
  opt_case; [|done]. case_match; [by intros [= <-]|]. opt_case; [|done]. destruct p as [[? ?] ?].
  case_match.
  { opt_case; [|done]. destruct p as [tx ev]. intros [= <-]. cbn [set_tx events].
    rewrite List.filter_app, (answers_pushed is_resend _ _ [] _ _ (λ _, eq_refl) (or_intror E3)). apply app_nil_r. }
  opt_case; [|done]. opt_case; [|done]. case_match.
  { opt_case; [|done]. destruct p as [tx ev]. intros [= <-]. cbn [set_tx events].
    rewrite List.filter_app, (answers_pushed is_resend _ _ _ _ _ (λ _, eq_refl) (or_introl E5)). apply app_nil_r. }
  opt_case; [|done]. destruct (is_session_message_type _) as [[]|] eqn:Es; obind; [| |done]; cbn [negb].
  - case_match; [by intros [= <-]|]. unfold commit_echo. repeat (opt_case; [|done]). intros [= <-].
    cbn [events]. rewrite List.filter_app. apply app_nil_r.
  - rewrite nonsession_not_resend by done. cbn [negb]. intros [= <-].
    cbn [commit_delta events]. rewrite List.filter_app. apply app_nil_r.
Qed.

Lemma copying_no_resend content k st k' st' :
  copying_body begin_string_length soh acquire_delta acquire_echo CACHE_LINE_SIZE tx_malloc tx_realloc
    fixmsg_rx content k st = Some (k', st') → resends st' = resends st.
Proof.
  unfold copying_body. opt_case; [|done]. case_match; (opt_case; [|done]); (opt_case; [|done]).
  - opt_case; [|done]. intros [= _ <-]. apply complete_no_resend in E2. exact E2.
  - by intros [= _ <-].
Qed.

Lemma known_traces st st' :
  body_length_known begin_string begin_string_length malloc st = Some (Some st') → traces st' = traces st.
Proof.
  unfold body_length_known. opt_case; [|done]. destruct (atoll l0) as [v over].
  case_match; [by intros [= <-]|]. case_match.
  - opt_case; [|done]. case_match; [|by intros [= <-]]. repeat (opt_case; [|done]). by intros [= <-].
  - repeat (opt_case; [|done]). by intros [= <-].
Qed.

Lemma pre_length_traces c st cp st' :
  pre_length begin_string begin_string_length soh malloc c st = Some (cp, st') → traces st' = traces st.
Proof.
  unfold pre_length. case_match; [by intros [= _ <-]|]. opt_case; [|done].
  case_match; [by intros [= _ <-]|]. case_match; [by intros [= _ <-]|]. opt_case; [|done].
  destruct (body_length_known _ _ _ _) as [[x|]|] eqn:Ek; obind; [|done..].
  apply known_traces in Ek. intros [= _ <-]. exact Ek.
Qed.

Lemma pre_step_traces c st cp st' :
  pre_step begin_string begin_string_length soh malloc c st = Some (cp, st') → traces st' = traces st.
Proof.
  unfold pre_step. case_match; [| |by intros [= _ <-]].
  - opt_case; [|done]. case_match; [by intros [= _ <-]|].
    case_match; [apply (pre_length_traces c (set_parse FindingBodyLength 0 st))|].
    opt_case; [|done]. by intros [= _ <-].
  - apply pre_length_traces.
Qed.

Lemma loop_no_resend fuel content k st st' :
  splitter_loop begin_string begin_string_length soh malloc acquire_delta acquire_echo CACHE_LINE_SIZE
    tx_malloc tx_realloc fixmsg_rx fuel content k st = Some st' → resends st' = resends st.
Proof.
  revert k st. induction fuel as [|fuel IH]; intros k st; cbn [splitter_loop].
  - case_match; [done|]. by intros [= <-].
  - case_match; [|by intros [= <-]]. rewrite splitter_step_eq.
    destruct (get_at content k) as [c|]; obind; [|done].
    destruct (pre_step _ _ _ _ c st) as [[cp x]|] eqn:Ep; obind; [|done].
    assert (Ex : resends x = resends st) by (apply pre_step_traces in Ep; injection Ep as He _ _; unfold resends; by rewrite He).
    rewrite <- Ex. destruct cp; [|apply IH].
    destruct (copying_body _ _ _ _ _ _ _ _ _ _ x) as [[k1 y]|] eqn:Ey; obind; [|done].
    apply copying_no_resend in Ey. rewrite <- Ey. apply IH.
Qed.
End NoResend.

(** ** Properties *)

(** C29: the loop over a foxtrot entry ends: after at most two rounds per
    byte it has left the entry, with the result of [splitter_entry], or a
    round has no defined result (and then [splitter_entry] has none): the
    fuel is never what stops it.  SOH must not be a digit. *)
Theorem splitter_entry_terminates begin_string begin_string_length soh malloc acquire_delta
    acquire_echo CACHE_LINE_SIZE tx_malloc tx_realloc fixmsg_rx content st :
  isdigit soh = false → zlen content < 2 ^ 32 → 0 ≤ bytes_left_to_copy st < 2 ^ 32 →
  let step := splitter_step begin_string begin_string_length soh malloc acquire_delta acquire_echo
                CACHE_LINE_SIZE tx_malloc tx_realloc fixmsg_rx in
  let result := splitter_entry begin_string begin_string_length soh malloc acquire_delta acquire_echo
                  CACHE_LINE_SIZE tx_malloc tx_realloc fixmsg_rx content st in
  ∃ n k st',
    steps begin_string begin_string_length soh malloc acquire_delta acquire_echo CACHE_LINE_SIZE
      tx_malloc tx_realloc fixmsg_rx content n (0, st) (k, st') ∧ Z.of_nat n ≤ 2 * zlen content ∧
    (zlen content ≤ k ∧ result = Some st' ∨
     k < zlen content ∧ step content k st' = None ∧ result = None).
Proof.
  intros Hsoh Hlen H0 step result.
  destruct (steps_bounded begin_string begin_string_length soh malloc acquire_delta acquire_echo
    CACHE_LINE_SIZE tx_malloc tx_realloc fixmsg_rx content 0 st) as (n & k & st' & Hs & Hn & He);
    [done..|].
  exists n, k, st'. split; [done|]. split; [|done]. unfold rounds in Hn. case_decide; lia.
Qed.

(** C8: the splitter does not see how the byte stream is cut into foxtrot
    entries: two sequences of entries with the same bytes leave it in the same
    state (up to the copy position, which is dead outside [CopyingBody]) with
    the same messages stored, queued and sent. *)
Theorem splitter_chunking begin_string begin_string_length soh malloc acquire_delta
    acquire_echo CACHE_LINE_SIZE tx_malloc tx_realloc fixmsg_rx cs ds st :
  isdigit soh = false → Forall (λ c, zlen c < 2 ^ 32) cs → Forall (λ c, zlen c < 2 ^ 32) ds →
  concat cs = concat ds → 0 ≤ bytes_left_to_copy st < 2 ^ 32 →
  let entries := splitter_entries begin_string begin_string_length soh malloc acquire_delta
                   acquire_echo CACHE_LINE_SIZE tx_malloc tx_realloc fixmsg_rx in
  option_Forall2 st_equiv (entries cs st) (entries ds st) ∧
  (events <$> entries cs st) = (events <$> entries ds st).
Proof.
  intros Hsoh Hcs Hds E H0 entries.
  assert (H : option_Forall2 st_equiv (entries cs st) (entries ds st)) by by apply entries_same_bytes.
  split; [done|]. destruct H as [x y Hxy|]; [|done]. cbn. f_equal.
  by apply st_equiv_inv in Hxy as [->|[_ ->]].
Qed.

(** a BodyLength that [atoll] cannot represent is the last thing the
    splitter reacts to: [errno] keeps the value [ERANGE], which no later step
    clears, so every further message, however valid, is skipped without
    being stored, queued or answered. *)
Theorem erange_is_forever begin_string begin_string_length soh malloc acquire_delta
    acquire_echo CACHE_LINE_SIZE tx_malloc tx_realloc fixmsg_rx cs st st' :
  erange st = true → state st ≠ CopyingBody →
  splitter_entries begin_string begin_string_length soh malloc acquire_delta
    acquire_echo CACHE_LINE_SIZE tx_malloc tx_realloc fixmsg_rx cs st = Some st' →
  events st' = events st ∧ erange st' = true.
Proof.
  intros He Hs. assert (Hd : deaf st) by done. clear He Hs. revert st Hd.
  induction cs as [|c cs IH]; intros st Hd; cbn [splitter_entries].
  - intros [= <-]. by destruct Hd.
  - unfold splitter_entry. destruct (splitter_loop _ _ _ _ _ _ _ _ _ _ _ c 0 st) as [x|] eqn:E; obind; [|done].
    apply loop_deaf in E as [Hx Hev]; [|done]. rewrite <- Hev. by apply IH.
Qed.

(** the code that answers a ResendRequest is never reached: ResendRequest
    is a session message, so it goes to the echo queue.  Whatever arrives,
    [resend] of the pusher is not called, and the reader the branch uses makes
    no difference. *)
Theorem resend_request_branch_dead begin_string begin_string_length soh malloc acquire_delta
    acquire_echo CACHE_LINE_SIZE tx_malloc tx_realloc rx1 rx2 cs st :
  let entries rx := splitter_entries begin_string begin_string_length soh malloc acquire_delta
                      acquire_echo CACHE_LINE_SIZE tx_malloc tx_realloc rx cs st in
  entries rx1 = entries rx2 ∧ (resends <$> entries rx1) = ((λ _, resends st) <$> entries rx1).
Proof.
  intros entries. unfold entries. clear entries. revert st.
  induction cs as [|c cs IH]; intros st; [done|]. cbn [splitter_entries]. unfold splitter_entry.
  rewrite <- (loop_branch _ _ _ _ _ _ _ _ _ rx1 rx2).
  destruct (splitter_loop _ _ _ _ _ _ _ _ _ rx1 _ _ _ _) as [x|] eqn:E; obind; [|split; reflexivity].
  apply loop_no_resend in E. rewrite <- E. apply IH.
Qed.

(** when [malloc] fails the message is skipped, but the delta entry keeps
    the new size with a null pointer: the next message that is not longer
    passes the size test and is copied to address zero. *)
Theorem allocation_failure_poisons_entry begin_string begin_string_length malloc st n :
  cstr (length_str st) = Some (dec n) → 0 < n → erange st = false → 0 ≤ begin_string_length →
  begin_string_length + zlen (dec n) + (n + 8) < 2 ^ 32 →
  size (delta_entry st) < begin_string_length + zlen (dec n) + (n + 8) →
  data (delta_entry st) ≠ Freed →
  malloc (allocs st) (begin_string_length + zlen (dec n) + (n + 8)) = None →
  ∃ st', body_length_known begin_string begin_string_length malloc st = Some (Some st') ∧
    state st' = FindingBeginString ∧
    ∀ st2 n2, delta_entry st2 = delta_entry st' → erange st2 = false →
      cstr (length_str st2) = Some (dec n2) → 0 < n2 ≤ n →
      body_length_known begin_string begin_string_length malloc st2 = None.
Proof.
  intros Hls Hn He Hb Htot Hsz Hfr Hm. unfold body_length_known at 1. rewrite Hls. obind.
  assert (Hat : ∀ k, 0 < k ≤ n → atoll (dec k) = (k, false)).
  { intros k Hk. unfold atoll. rewrite dval_dec by lia. bsolve. done. }
  rewrite Hat by lia. cbn [set_erange erange]. rewrite He. cbn [orb]. rewrite u32_small by lia. bsolve.
  replace (u32 (n + 1 + 7)) with (n + 8) by (rewrite u32_small; lia).
  cbn [set_erange set_copy delta_entry allocs]. rewrite (proj2 (Z.ltb_lt _ _)) by done.
  replace (free (data (delta_entry st))) with (Some tt) by by destruct (data (delta_entry st)).
  obind. rewrite u32_small by lia. rewrite Hm. eexists. split; [done|]. split; [done|].
  intros st2 n2 Hd He2 Hls2 Hn2. cbn [set_delta set_parse delta_entry] in Hd.
  assert (Hmono : zlen (dec n2) ≤ zlen (dec n)).
  { pose proof (dec_length_pos n). apply dec_length_le; [|lia]. pose proof (dec_length_bounds n Hn). lia. }
  unfold body_length_known. rewrite Hls2. obind. rewrite Hat by lia.
  cbn [set_erange erange]. rewrite He2. cbn [orb]. rewrite u32_small by lia. bsolve.
  replace (u32 (n2 + 1 + 7)) with (n2 + 8) by (rewrite u32_small; lia).
  cbn [set_erange set_copy delta_entry allocs]. rewrite Hd. cbn [size data].
  rewrite (proj2 (Z.ltb_ge _ _)) by lia. done.
Qed.

(** ** A concrete splitter *)

Definition demo_begin : list Z := bytes_of_string "8=FIX.4.4" ++ [1] ++ bytes_of_string "9=" ++ [0].
Definition demo_delta (n : nat) : delta_t := mkDelta 0 0 Null.
Definition demo_echo (n : nat) : list Z := replicate 512 0.
Definition demo_rx : FIXMessageRX := make_fix_message FIX_4_4 true 1.
Definition demo_tx : FIXMessageTX :=
  default (make_tx 64 1) (snd <$> FixMessageTX.init FixMessageTX.malloc_ok (make_tx 64 1)).
Definition demo_splitter (last : Z) : splitter := splitter_start demo_delta last demo_tx demo_tx.
Definition demo_message : list Z :=
  bytes_of_string "8=FIX.4.4" ++ [1] ++ bytes_of_string "9=13" ++ [1] ++ bytes_of_string "35=D" ++ [1]
    ++ bytes_of_string "34=8" ++ [1] ++ bytes_of_string "1=" ++ [1] ++ bytes_of_string "10=050" ++ [1].
Definition demo_entries : list (list Z) → splitter → option splitter :=
  splitter_entries demo_begin 12 1 FixMessageTX.malloc_ok demo_delta demo_echo 64
    FixMessageTX.malloc_ok FixMessageTX.realloc_ok demo_rx.

Lemma splitter_entry_terminates_witness :
  ∃ n k st',
    steps demo_begin 12 1 FixMessageTX.malloc_ok demo_delta demo_echo 64 FixMessageTX.malloc_ok
      FixMessageTX.realloc_ok demo_rx demo_message n (0, demo_splitter 7) (k, st') ∧
    Z.of_nat n ≤ 2 * zlen demo_message ∧
    (zlen demo_message ≤ k ∧
       splitter_entry demo_begin 12 1 FixMessageTX.malloc_ok demo_delta demo_echo 64
         FixMessageTX.malloc_ok FixMessageTX.realloc_ok demo_rx demo_message (demo_splitter 7) = Some st' ∨
     k < zlen demo_message ∧
       splitter_step demo_begin 12 1 FixMessageTX.malloc_ok demo_delta demo_echo 64
         FixMessageTX.malloc_ok FixMessageTX.realloc_ok demo_rx demo_message k st' = None ∧
       splitter_entry demo_begin 12 1 FixMessageTX.malloc_ok demo_delta demo_echo 64
         FixMessageTX.malloc_ok FixMessageTX.realloc_ok demo_rx demo_message (demo_splitter 7) = None).
Proof.
  apply (splitter_entry_terminates demo_begin 12 1 FixMessageTX.malloc_ok demo_delta demo_echo 64
    FixMessageTX.malloc_ok FixMessageTX.realloc_ok demo_rx demo_message (demo_splitter 7)).
  - reflexivity.
  - vm_compute. reflexivity.
  - vm_compute. split; [discriminate | reflexivity].
Defined.

Lemma splitter_chunking_witness :
  let cs := [take 5 demo_message; take 20 (drop 5 demo_message); drop 25 demo_message] in
  option_Forall2 st_equiv (demo_entries cs (demo_splitter 7)) (demo_entries [demo_message] (demo_splitter 7)) ∧
  (events <$> demo_entries cs (demo_splitter 7))
  = (events <$> demo_entries [demo_message] (demo_splitter 7)) ∧
  (length ∘ events <$> demo_entries cs (demo_splitter 7)) = Some 2%nat.
Proof.
  intros cs. apply and_assoc. split; [|vm_compute; reflexivity].
  apply (splitter_chunking demo_begin 12 1 FixMessageTX.malloc_ok demo_delta demo_echo 64
    FixMessageTX.malloc_ok FixMessageTX.realloc_ok demo_rx cs [demo_message] (demo_splitter 7)).
  - reflexivity.
  - repeat constructor; vm_compute; reflexivity.
  - repeat constructor; vm_compute; reflexivity.
  - reflexivity.
  - vm_compute. split; [discriminate | reflexivity].
Defined.

(** A start of a message with a BodyLength of twenty nines. *)
Definition demo_overflow : list Z :=
  bytes_of_string "8=FIX.4.4" ++ [1] ++ bytes_of_string "9=99999999999999999999" ++ [1].

(** The state it leaves, and the state after two valid messages more. *)
Definition demo_deaf : splitter :=
  default (demo_splitter 7) (demo_entries [demo_overflow] (demo_splitter 7)).
Definition demo_deaf_after : splitter :=
  default (demo_splitter 7) (demo_entries [demo_message; demo_message] demo_deaf).

Lemma erange_is_forever_witness :
  demo_entries [demo_overflow] (demo_splitter 7) = Some demo_deaf ∧
  demo_entries [demo_message; demo_message] demo_deaf = Some demo_deaf_after ∧
  events demo_deaf_after = events demo_deaf ∧ erange demo_deaf_after = true.
Proof.
  split; [vm_compute; reflexivity|]. split; [vm_compute; reflexivity|].
  apply (erange_is_forever demo_begin 12 1 FixMessageTX.malloc_ok demo_delta demo_echo 64
    FixMessageTX.malloc_ok FixMessageTX.realloc_ok demo_rx [demo_message; demo_message]
    demo_deaf demo_deaf_after).
  - vm_compute. reflexivity.
  - vm_compute. discriminate.
  - vm_compute. reflexivity.
Defined.

Definition demo_no_memory (n : nat) (z : Z) : option (list Z) := None.

Lemma allocation_failure_poisons_entry_witness :
  ∃ st', body_length_known demo_begin 12 demo_no_memory
           (set_length_str (dec 13 ++ replicate 30 0) (demo_splitter 7)) = Some (Some st') ∧
    state st' = FindingBeginString ∧
    ∀ st2 n2, delta_entry st2 = delta_entry st' → erange st2 = false →
      cstr (length_str st2) = Some (dec n2) → 0 < n2 ≤ 13 →
      body_length_known demo_begin 12 demo_no_memory st2 = None.
Proof.
  apply (allocation_failure_poisons_entry demo_begin 12 demo_no_memory
    (set_length_str (dec 13 ++ replicate 30 0) (demo_splitter 7)) 13).
  - vm_compute. reflexivity.
  - lia.
  - reflexivity.
  - lia.
  - vm_compute. reflexivity.
  - vm_compute. reflexivity.
  - discriminate.
  - reflexivity.
Defined.
