(* ===== verification/Delivery.v ===== *)
(** * Delivery: what the splitter thread does with whole messages
    ([splitter_thread_func] of [src/applib/fixio/fix_popper.cpp])

    [frame_run] runs the loop of [Splitter] over one framed message; the
    theorems follow what the thread then does with it: valid messages in
    sequence go to the delta or echo queue, corrupt ones are dropped, and the
    output of the pusher thread arrives complete and in order however the
    byte stream is cut. *)
From S2P Require Import Prelude Primitives FixMsgUtils FixTypes FixFields FixMessageRX FixMessageTX Pusher PusherThread.
From S2P Require Import Splitter.

(** ** A whole message *)

(** An entry of the delta queue: [size] bytes are allocated at least. *)
Definition delta_ok (d : delta_t) : Prop :=
  0 ≤ size d < 2 ^ 32 ∧ match data d with Block b => size d ≤ zlen b | Null => size d = 0 | Freed => False end.

(** Between two messages, the last one accepted having number [n]. *)
Definition ready (n : Z) (st : splitter) : Prop :=
  state st = FindingBeginString ∧ l st = 0 ∧ erange st = false ∧ zlen (length_str st) = 32 ∧
  0 ≤ bytes_left_to_copy st < 2 ^ 32 ∧ delta_ok (delta_entry st) ∧ expected st = n.

Section Delivery.
Context (start pad : list Z) (soh : Z).
Context (malloc : nat → Z → option (list Z)).
Context (acquire_delta : nat → delta_t) (acquire_echo : nat → list Z).
Context (CACHE_LINE_SIZE : Z) (tx_malloc : nat → Z → option (list Z))
        (tx_realloc : nat → Z → option (bool * list Z)).
Context (fixmsg_rx : FIXMessageRX).
Context (soh_digit : isdigit soh = false).
Context (soh_range : 0 < soh < 128).
Context (start_ascii : Forall (λ c, 0 < c < 128) start).
Context (malloc_ok : ∀ n z, 0 ≤ z → ∃ b, malloc n z = Some b ∧ zlen b = z).

#[local] Abbreviation complete := (message_complete (zlen start) soh acquire_delta acquire_echo
  CACHE_LINE_SIZE tx_malloc tx_realloc fixmsg_rx).
#[local] Abbreviation step := (splitter_step (start ++ 0 :: pad) (zlen start) soh malloc acquire_delta
  acquire_echo CACHE_LINE_SIZE tx_malloc tx_realloc fixmsg_rx).
#[local] Abbreviation run := (run (start ++ 0 :: pad) (zlen start) soh malloc acquire_delta
  acquire_echo CACHE_LINE_SIZE tx_malloc tx_realloc fixmsg_rx).
#[local] Abbreviation known := (body_length_known (start ++ 0 :: pad) (zlen start) malloc).
#[local] Abbreviation finding := (finding_body_length (start ++ 0 :: pad) (zlen start) soh malloc
  acquire_delta acquire_echo CACHE_LINE_SIZE tx_malloc tx_realloc fixmsg_rx).

Lemma match_begin p : ∀ dn a rest st,
  start = dn ++ p → state st = FindingBeginString → l st = zlen dn →
  zlen (a ++ p ++ rest) < 2 ^ 32 → 0 ≤ bytes_left_to_copy st < 2 ^ 32 →
  run (a ++ p ++ rest) (zlen a) st
  = run (a ++ p ++ rest) (zlen a + zlen p) (set_parse FindingBeginString (zlen start) st).
Proof.
  induction p as [|c p IH]; intros dn a rest st Hst Hs Hl Hlen H0.
  { rewrite app_nil_r in Hst. subst dn. cbn [length]. rewrite Z.add_0_r. f_equal.
    destruct st. cbn in *. by subst. }
  assert (Hc : 0 < c < 128).
  { rewrite Hst in start_ascii. by apply Forall_app in start_ascii as [_ [? _]%Forall_cons]. }
  rewrite run_eq by first [done | lia]. rewrite (proj2 (Z.ltb_lt _ _)) by llia.
  unfold splitter_step.
  cbn [app] in Hlen |- *. rewrite (get_at_mid a (p ++ rest) c) by done. obind.
  rewrite Hs. replace (get_at (start ++ 0 :: pad) (l st)) with (Some c).
  2: { symmetry. rewrite Hst, <- app_assoc. by apply get_at_mid. }
  obind. rewrite schar_small, Z.eqb_refl by lia. obind.
  specialize (IH (dn ++ [c]) (a ++ [c]) rest (set_parse FindingBeginString (l st + 1) st)).
  rewrite <- !app_assoc in IH. cbn [app] in IH |- *.
  replace (zlen (a ++ [c])) with (zlen a + 1) in IH by llia. rewrite IH; [|try done..].
  - f_equal. llia.
  - cbn. rewrite Hl. llia.
Qed.

(** The first digit moves on to the length. *)
Lemma run_first_digit a d rest st :
  state st = FindingBeginString → l st = zlen start → isdigit d = true →
  zlen (a ++ d :: rest) < 2 ^ 32 → 0 ≤ bytes_left_to_copy st < 2 ^ 32 →
  run (a ++ d :: rest) (zlen a) st
  = run (a ++ d :: rest) (zlen a) (set_parse FindingBodyLength 0 st).
Proof.
  intros Hs Hl Hd Hlen H0. rewrite !run_eq by first [done | lia].
  rewrite (proj2 (Z.ltb_lt _ _)) by llia. unfold splitter_step.
  rewrite (get_at_mid a rest d) by done. obind. cbn [set_parse state]. rewrite Hs, Hl.
  rewrite (get_at_mid start pad 0 (zlen start)) by done. obind.
  apply isdigit_spec in Hd as Hr. change (schar 0 =? d) with (0 =? d).
  rewrite (proj2 (Z.eqb_neq 0 d)) by lia. rewrite Hd. done.
Qed.

(** The digits of the length are collected. *)
Lemma read_length p : ∀ x y a rest st,
  state st = FindingBodyLength → l st = zlen x → length_str st = x ++ y → digits p →
  zlen x + zlen p ≤ 20 → zlen (x ++ y) = 32 →
  zlen (a ++ p ++ rest) < 2 ^ 32 → 0 ≤ bytes_left_to_copy st < 2 ^ 32 →
  ∃ y', zlen (x ++ p ++ y') = 32 ∧
    run (a ++ p ++ rest) (zlen a) st
    = run (a ++ p ++ rest) (zlen a + zlen p)
        (set_length_str (x ++ p ++ y') (set_parse FindingBodyLength (zlen (x ++ p)) st)).
Proof.
  induction p as [|c p IH]; intros x y a rest st Hs Hl Hls Hp Hx Hy Hlen H0.
  { exists y. split; [done|]. cbn [length]. rewrite Z.add_0_r, app_nil_r. f_equal.
    destruct st. cbn in *. by subst. }
  apply Forall_cons in Hp as [Hc Hp]. apply isdigit_spec in Hc as Hr.
  destruct y as [|y0 y]; [llia|].
  assert (Hsohc : soh ≠ c) by (intros ->; congruence).
  rewrite run_eq by first [done | lia]. rewrite (proj2 (Z.ltb_lt _ _)) by llia.
  unfold splitter_step.
  cbn [app] in Hlen |- *. rewrite (get_at_mid a (p ++ rest) c) by done. obind.
  rewrite Hs. unfold finding_body_length. rewrite Hl, Hls.
  rewrite (proj2 (Z.eqb_neq _ 21)) by llia.
  change (x ++ y0 :: y) with (x ++ [y0] ++ y). rewrite write_at_mid by done. obind.
  rewrite schar_small, Hc, (proj2 (Z.eqb_neq soh c)) by (done || lia). cbn [negb andb]. obind.
  destruct (IH (x ++ [c]) y (a ++ [c]) rest (set_parse FindingBodyLength (zlen x + 1)
    (set_length_str (x ++ [c] ++ y) st))) as (y' & Hy' & IHr); clear IH;
    try done; try (cbn; by app_norm); try llia.
  { cbn. llia. }
  rewrite <- !app_assoc in IHr, Hy'. cbn [app] in IHr, Hy' |- *. exists y'. split; [done|].
  replace (zlen (a ++ [c])) with (zlen a + 1) in IHr by llia. cbn [set_length_str l].
  rewrite Hl, IHr. f_equal; [llia|]. by rewrite <- !app_assoc.
Qed.

Lemma atoll_dec n : 0 ≤ n < 2 ^ 63 → atoll (dec n) = (n, false).
Proof. intros. unfold atoll. rewrite dval_dec by lia. bsolve. done. Qed.

(** The state while a message of [size] bytes is copied into [d]. *)
Definition copying (off left size : Z) (ls d : list Z) (a : nat) (st : splitter) : splitter :=
  mkSplitter CopyingBody 0 ls false off left
    (mkDelta size (msgtype_offset (delta_entry st)) (Block d)) (expected st) (ndelta st) (necho st) a
    (tx_resend st) (tx_reject st) (events st).

Lemma known_spec n z st :
  length_str st = dec n ++ 0 :: z → l st = 0 → 0 < n → erange st = false →
  delta_ok (delta_entry st) → zlen start + zlen (dec n) + (n + 8) < 2 ^ 32 →
  let total := zlen start + zlen (dec n) + (n + 8) in
  ∃ d a, n + 8 ≤ zlen d ∧
    known st = Some (Some (copying (zlen start + zlen (dec n)) (n + 8) total (length_str st)
                             (start ++ dec n ++ d) a st)).
Proof.
  intros Hls Hl Hn He [Hsz Hd] Htot total. unfold body_length_known. rewrite Hls.
  rewrite cstr_app by (apply dec_nonzero_bytes; lia). obind. rewrite atoll_dec by lia.
  cbn [set_erange erange]. rewrite He. cbn [orb]. rewrite u32_small by lia. bsolve.
  replace (u32 (n + 1 + 7)) with (n + 8) by (rewrite u32_small; lia). fold total.
  rewrite (u32_small total) by (unfold total; lia).
  cbn [set_erange set_copy delta_entry allocs].
  assert (Henter : ∀ b, total ≤ zlen b → ∃ d, n + 8 ≤ zlen d ∧
    write_at b 0 start = Some (start ++ drop (length start) b) ∧
    write_at (start ++ drop (length start) b) (zlen start) (dec n) = Some (start ++ dec n ++ d)).
  { intros b Hb. exists (drop (length (dec n)) (drop (length start) b)).
    rewrite !length_drop. split; [unfold total in Hb; lia|]. split.
    - rewrite <- (take_drop (length start) b) at 1. apply write_at_head. rewrite length_take.
      unfold total in Hb. lia.
    - rewrite <- (take_drop (length (dec n)) (drop (length start) b)) at 1.
      apply write_at_mid; [done|]. rewrite length_take, length_drop. unfold total in Hb. lia. }
  assert (Hbs : read_at (start ++ 0 :: pad) 0 (zlen start) = Some start) by by apply read_at_prefix.
  destruct (Z.ltb_spec (size (delta_entry st)) total) as [Hlt|Hge].
  - replace (free (data (delta_entry st))) with (Some tt) by by destruct (data (delta_entry st)).
    obind. destruct (malloc_ok (allocs st) total) as (b & -> & Hb); [unfold total; lia|].
    destruct (Henter b) as (d & Hdl & W1 & W2); [lia|]. exists d, (S (allocs st)). split; [done|].
    cbn [set_delta set_copy set_erange delta_entry data deref]. obind. rewrite Hbs. obind. rewrite W1. obind.
    rewrite W2. obind. unfold copying. destruct st. cbn in *. by subst.
  - destruct (data (delta_entry st)) as [| |b] eqn:Ed; [unfold total in Hge; llia | done |].
    destruct (Henter b) as (d & Hdl & W1 & W2); [lia|]. exists d, (allocs st). split; [done|].
    cbn [set_delta set_copy set_erange delta_entry data deref]. obind. rewrite Hbs. obind. rewrite W1. obind.
    rewrite W2. obind. unfold copying. destruct st. cbn in *. by subst.
Qed.
(** A frame: a BodyLength that counts the body, the body and seven bytes. *)
Definition frame (body trailer : list Z) : list Z :=
  start ++ dec (zlen body) ++ [soh] ++ body ++ trailer.

Lemma length_frame body trailer :
  zlen trailer = 7 → zlen (frame body trailer) = zlen start + zlen (dec (zlen body)) + (zlen body + 8).
Proof. intros. unfold frame. llia. Qed.

Lemma copy_frame ls a body trailer d st :
  zlen trailer = 7 → zlen (frame body trailer) < 2 ^ 32 → zlen body + 8 ≤ zlen d →
  let pre := start ++ dec (zlen body) in
  ∃ t,
    copying_body (zlen start) soh acquire_delta acquire_echo CACHE_LINE_SIZE tx_malloc tx_realloc
      fixmsg_rx (frame body trailer) (zlen pre)
      (copying (zlen pre) (zlen body + 8) (zlen (frame body trailer)) ls (pre ++ d) a st)
    = st' ← complete (copying (zlen pre) (zlen body + 8) (zlen (frame body trailer)) ls
                        (frame body trailer ++ t) a st);
      Some (zlen (frame body trailer), set_parse FindingBeginString (l st') st').
Proof.
  intros Ht Hlen Hd pre. pose proof (length_frame body trailer Ht) as Hf.
  assert (Hpre : zlen pre = zlen start + zlen (dec (zlen body))) by (unfold pre; llia).
  assert (Hfr : frame body trailer = pre ++ ([soh] ++ body ++ trailer) ++ [])
    by (unfold frame, pre; rewrite app_nil_r; by app_norm).
  exists (drop (length ([soh] ++ body ++ trailer)) d). unfold copying_body.
  cbn [copying delta_entry data deref bytes_left_to_copy offset]. obind.
  rewrite (proj2 (Z.leb_le _ _)) by lia. rewrite Hfr at 1.
  rewrite (read_at_mid pre ([soh] ++ body ++ trailer)) by (done || llia). obind.
  rewrite <- (take_drop (length ([soh] ++ body ++ trailer)) d) at 1.
  rewrite write_at_mid by first [done | rewrite length_take; llia]. obind.
  replace (u32 (u32 (zlen pre + (zlen body + 8 - 1)) + 1)) with (zlen (frame body trailer))
    by (rewrite u32_next; lia).
  replace (frame body trailer ++ drop (length ([soh] ++ body ++ trailer)) d)
    with (pre ++ ([soh] ++ body ++ trailer) ++ drop (length ([soh] ++ body ++ trailer)) d)
    by (rewrite Hfr, app_nil_r; by rewrite <- !app_assoc).
  done.
Qed.
Lemma run_end content k st :
  zlen content < 2 ^ 32 → 0 ≤ bytes_left_to_copy st < 2 ^ 32 → zlen content ≤ k →
  run content k st = Some st.
Proof. intros. rewrite run_eq by first [done | lia]. by rewrite (proj2 (Z.ltb_ge _ _)) by lia. Qed.

(** The round that reads the SOH after the length. *)
Lemma run_length_soh a post n y st :
  state st = FindingBodyLength → l st = zlen (dec n) → length_str st = dec n ++ y →
  zlen (dec n) ≤ 20 → zlen (dec n ++ y) = 32 →
  ∃ z, zlen (dec n ++ 0 :: z) = 32 ∧
    step (a ++ soh :: post) (zlen a) st
    = st' ← known (set_parse FindingBodyLength 0 (set_length_str (dec n ++ 0 :: z) st));
      st' ← (st' : option splitter);
      if decide (state st' = CopyingBody)
      then copying_body (zlen start) soh acquire_delta acquire_echo CACHE_LINE_SIZE tx_malloc
             tx_realloc fixmsg_rx (a ++ soh :: post) (zlen a) st'
      else Some (zlen a + 1, st').
Proof.
  intros Hs Hl Hls Hd Hy. destruct y as [|y0 y]; [llia|]. exists y. split; [revert Hy; by zlen_simpl|].
  unfold splitter_step. rewrite (get_at_mid a post soh) by done. obind. rewrite Hs.
  unfold finding_body_length. rewrite Hl, Hls. rewrite (proj2 (Z.eqb_neq _ 21)) by lia.
  change (dec n ++ y0 :: y) with (dec n ++ [y0] ++ y). rewrite write_at_mid by done. obind.
  rewrite Z.eqb_refl, andb_false_r. cbn [negb set_length_str l]. rewrite Hl.
  rewrite write_at_mid by done. obind. destruct st. cbn in Hs, Hl, Hls. by subst.
Qed.

Lemma frame_run body trailer e st :
  ready e st → 0 < zlen body → zlen trailer = 7 → zlen (frame body trailer) < 2 ^ 32 →
  ∃ ls t a, cstr ls = Some (dec (zlen body)) ∧ zlen ls = 32 ∧
    run (frame body trailer) 0 st
    = st' ← complete (copying (zlen start + zlen (dec (zlen body))) (zlen body + 8)
                        (zlen (frame body trailer)) ls (frame body trailer ++ t) a st);
      Some (set_parse FindingBeginString (l st') st').
Proof.
  intros (Hs & Hl & He & Hls & H0 & Hd & _) Hb Ht Hlen.
  pose proof (length_frame body trailer Ht) as Hf. set (n := zlen body) in *.
  assert (Hdn : zlen (dec n) ≤ 20) by (apply dec_length_le; lia).
  pose proof (match_begin start [] [] (dec n ++ [soh] ++ body ++ trailer) st eq_refl Hs Hl Hlen H0) as E1.
  destruct (dec_head n Hb) as (d & r & Hdec & Hdr).
  pose proof (run_first_digit start d (r ++ [soh] ++ body ++ trailer)
    (set_parse FindingBeginString (zlen start) st) eq_refl eq_refl) as E2.
  change (start ++ d :: r ++ [soh] ++ body ++ trailer)
    with (start ++ (d :: r) ++ [soh] ++ body ++ trailer) in E2. rewrite <- Hdec in E2.
  specialize (E2 ltac:(apply isdigit_spec; lia) Hlen H0).
  destruct (read_length (dec n) [] (length_str st) start ([soh] ++ body ++ trailer)
    (set_parse FindingBodyLength 0 (set_parse FindingBeginString (zlen start) st)))
    as (y & Hy & E3); [done | done | done | apply dec_digits; lia | llia | done | done | done |].
  destruct (run_length_soh (start ++ dec n) (body ++ trailer) n y
    (set_length_str (dec n ++ y) (set_parse FindingBodyLength (zlen (dec n))
      (set_parse FindingBodyLength 0 (set_parse FindingBeginString (zlen start) st)))))
    as (z & Hz & E4); [done | done | done | done | done |].
  destruct (known_spec n z (set_parse FindingBodyLength 0 (set_length_str (dec n ++ 0 :: z)
    (set_length_str (dec n ++ y) (set_parse FindingBodyLength (zlen (dec n))
      (set_parse FindingBodyLength 0 (set_parse FindingBeginString (zlen start) st)))))))
    as (d2 & a & Hd2 & E5); [done | done | lia | done | done | lia |].
  destruct (copy_frame (dec n ++ 0 :: z) a body trailer d2 st Ht Hlen Hd2) as (t & E6).
  exists (dec n ++ 0 :: z), t, a. split; [apply cstr_app, dec_nonzero_bytes; lia|]. split; [done|].
  change (run (frame body trailer) 0 st = run (frame body trailer) (zlen start)
    (set_parse FindingBeginString (zlen start) st)) in E1.
  rewrite E1. etrans; [exact E2|]. etrans; [exact E3|]. clear E1 E2 E3.
  assert (Hfr : frame body trailer = (start ++ dec n) ++ soh :: body ++ trailer)
    by (unfold frame; by app_norm).
  assert (Hpos : zlen start + zlen (dec n) = zlen (start ++ dec n)) by llia.
  rewrite Hpos in *. change (start ++ dec n ++ [soh] ++ body ++ trailer) with (frame body trailer).
  rewrite <- Hfr in E4. rewrite run_eq by first [done | lia]. rewrite (proj2 (Z.ltb_lt _ _)) by llia.
  cbn [app] in E4 |- *. rewrite E4, E5. obind. rewrite decide_True by done. rewrite <- Hf.
  rewrite (app_assoc start (dec n) d2).
  etrans; [apply (f_equal (λ x, x ≫= _) E6)|].
  destruct (complete _) as [x|] eqn:Ex; obind; [|done]. apply run_end; [done | | done].
  apply complete_copy_fields in Ex as [_ Ex]. cbn in Ex |- *. lia.
Qed.
(** ** The sequence number *)

Lemma memmem_skip x h needle c :
  head needle = Some c → Forall (λ b, b ≠ c) x →
  memmem (x ++ h) needle = i ← memmem h needle; Some (zlen x + i).
Proof.
  intros Hn. induction 1 as [|b x Hb _ IH].
  - cbn [app length]. by destruct (memmem h needle).
  - cbn [app memmem]. destruct needle as [|c' needle]; [done|]. injection Hn as ->.
    cbn [prefixb]. rewrite (proj2 (Z.eqb_neq c b)) by done. cbn [andb]. rewrite IH.
    destruct (memmem h (c :: needle)); obind; [f_equal; llia | done].
Qed.

Lemma memmem_soh_other h needle :
  prefixb needle h = false →
  memmem (soh :: h) (soh :: needle) = i ← memmem h (soh :: needle); Some (1 + i).
Proof. intros Hp. cbn [memmem prefixb]. by rewrite Z.eqb_refl, Hp. Qed.

Lemma memmem_here h needle : memmem (needle ++ h) needle = Some 0.
Proof. destruct (needle ++ h) eqn:E; cbn [memmem]; by rewrite <- E, prefixb_app. Qed.

Lemma seq_digits_app d r : digits d → seq_digits soh (d ++ soh :: r) = Some d.
Proof.
  induction 1 as [|c d Hc _ IH]; cbn [app seq_digits]; [by rewrite Z.eqb_refl|].
  rewrite (proj2 (Z.eqb_neq soh c)) by congruence. rewrite Hc, IH. done.
Qed.

(** The first ["<SOH>34="] is the one of the field. *)
Lemma memmem_seqnum x y z r :
  let a := x ++ soh :: 57 :: y ++ soh :: 51 :: 53 :: z in
  Forall (λ b, b ≠ soh) x → Forall (λ b, b ≠ soh) y → Forall (λ b, b ≠ soh) z →
  memmem (a ++ [soh; 51; 52; 61] ++ r) [soh; 51; 52; 61] = Some (zlen a).
Proof.
  intros a Hx Hy Hz. unfold a. rewrite <- app_assoc, (memmem_skip x _ _ soh) by done. cbn [app].
  assert (Hd : ∀ b, isdigit b = true → b ≠ soh) by (intros; congruence).
  rewrite memmem_soh_other by done. rewrite <- app_assoc.
  change (57 :: y ++ ?t) with ((57 :: y) ++ t). rewrite (memmem_skip (57 :: y) _ _ soh)
    by first [done | constructor; [by apply Hd | done]]. cbn [app].
  rewrite memmem_soh_other by done.
  change (51 :: 53 :: z ++ ?t) with ((51 :: 53 :: z) ++ t). rewrite (memmem_skip (51 :: 53 :: z) _ _ soh)
    by first [done | constructor; [by apply Hd | constructor; [by apply Hd | done]]].
  change (soh :: 51 :: 52 :: 61 :: r) with ([soh; 51; 52; 61] ++ r). rewrite memmem_here. obind.
  f_equal. llia.
Qed.

Lemma strtoull_dec n : 0 ≤ n < 2 ^ 64 → strtoull (dec n) = (n, false).
Proof. intros. unfold strtoull. rewrite dval_dec by lia. bsolve. done. Qed.

Lemma get_sequence_number_spec x y z n inner t len :
  let m := (x ++ soh :: 57 :: y ++ soh :: 51 :: 53 :: z) ++ [soh; 51; 52; 61] ++ dec n ++ soh :: inner in
  Forall (λ b, b ≠ soh) x → Forall (λ b, b ≠ soh) y → Forall (λ b, b ≠ soh) z →
  0 ≤ n < 2 ^ 64 - 1 → len = zlen m →
  get_sequence_number soh len (m ++ t) = Some (n, m ++ t, false).
Proof.
  intros m Hx Hy Hz Hn ->. unfold get_sequence_number. rewrite read_at_prefix by done. obind.
  unfold m at 1. rewrite memmem_seqnum by done.
  remember (x ++ soh :: 57 :: y ++ soh :: 51 :: 53 :: z) as a eqn:Ea. clear Ea.
  assert (Hm : m ++ t = (a ++ [soh; 51; 52; 61]) ++ dec n ++ soh :: inner ++ t)
    by (unfold m; by app_norm).
  assert (Hdr : drop (Z.to_nat (zlen a + 4)) (m ++ t) = dec n ++ soh :: inner ++ t).
  { rewrite Hm. apply drop_app_length'. llia. }
  rewrite Hdr, seq_digits_app by (apply dec_digits; lia). obind.
  assert (Hm2 : m ++ t = (a ++ [soh; 51; 52; 61] ++ dec n) ++ [soh] ++ inner ++ t)
    by (unfold m; by app_norm).
  assert (Hoff : zlen a + 4 + zlen (dec n) = zlen (a ++ [soh; 51; 52; 61] ++ dec n)) by llia.
  rewrite Hoff, Hm2. rewrite write_at_mid by done. obind. rewrite write_at_mid by done. obind.
  rewrite strtoull_dec by lia. unfold ULLONG_MAX. bsolve. done.
Qed.
(** ** A complete message *)

Definition trailer_of (body : list Z) : list Z :=
  bytes_of_string "10="
    ++ padded 3 (byte_sum (start ++ dec (zlen body) ++ [soh] ++ body) mod 256) ++ [soh].

Lemma fix_message_frame body : fix_message start soh body = frame body (trailer_of body).
Proof. unfold fix_message, frame, trailer_of. by rewrite <- !app_assoc. Qed.

Lemma length_trailer_of body : zlen (trailer_of body) = 7.
Proof.
  unfold trailer_of. rewrite !length_app, length_padded. done.
Qed.

(** The checksum test of [message_complete] compares the three digits with the
    sum of everything before the trailer. *)
Lemma checksum_read body tag chk c t :
  zlen tag = 3 → zlen chk = 3 → zlen (frame body (tag ++ chk ++ [c])) < 2 ^ 32 →
  let m := frame body (tag ++ chk ++ [c]) in
  read_at (m ++ t) 0 (u32 (zlen m - 7)) = Some (start ++ dec (zlen body) ++ [soh] ++ body)
  ∧ read_at (m ++ t) (zlen m - 4) 3 = Some chk.
Proof.
  intros Htag Hchk Hlen m.
  assert (Hm : m = (start ++ dec (zlen body) ++ [soh] ++ body) ++ tag ++ chk ++ [c])
    by (unfold m, frame; by rewrite <- !app_assoc).
  assert (Hml : zlen m = zlen (start ++ dec (zlen body) ++ [soh] ++ body) + 7)
    by (rewrite Hm; llia).
  fold m in Hlen. rewrite u32_small by lia. split.
  - rewrite Hm, <- app_assoc. rewrite <- Hm. apply read_at_prefix. lia.
  - rewrite Hm. set (s := start ++ dec (zlen body) ++ [soh] ++ body) in *.
    replace ((s ++ tag ++ chk ++ [c]) ++ t) with ((s ++ tag) ++ chk ++ [c] ++ t)
      by (by rewrite <- !app_assoc).
    rewrite <- Hm. apply read_at_mid; [llia | done].
Qed.

(** A message whose checksum digits are wrong is dropped. *)
Lemma complete_bad_checksum body tag chk c off left ls t a st :
  zlen tag = 3 → zlen chk = 3 → zlen (frame body (tag ++ chk ++ [c])) < 2 ^ 32 →
  chk ≠ padded 3 (byte_sum (start ++ dec (zlen body) ++ [soh] ++ body) mod 256) →
  let m := frame body (tag ++ chk ++ [c]) in
  complete (copying off left (zlen m) ls (m ++ t) a st) = Some (copying off left (zlen m) ls (m ++ t) a st).
Proof.
  intros Htag Hchk Hlen Hbad m. destruct (checksum_read body tag chk c t) as [R1 R2]; [done..|].
  fold m in R1, R2. unfold message_complete. cbn [copying delta_entry size data deref]. obind.
  rewrite R1, R2. obind. rewrite get_FIX_checksum_sum. by rewrite bool_decide_eq_false_2.
Qed.

Lemma msgtype_session mt rest :
  bytes mt → Forall (λ c, c ≠ 0) mt → Forall (λ c, c ≠ soh) mt → mt ≠ [] →
  ∃ t, get_fix_msgtype soh (mt ++ soh :: rest) = Some t ∧
    is_session_message_type t = Some (bool_decide (mt ∈ fix_session_msgtype_string)).
Proof.
  intros Hb Hz Hs Hne. destruct (get_fix_msgtype_lookup soh mt rest Hb Hz Hs) as (t & Ht & Hrow).
  exists t. split; [done|]. destruct Hrow as [->|[-> Hno]].
  - rewrite is_session_type_rows. f_equal. apply bool_decide_ext. naive_solver.
  - rewrite bool_decide_eq_false_2; [done|]. intros [t' ->]%session_rows_in_table. by destruct (Hno t').
Qed.
Context (ver : list Z) (start_eq : start = 56 :: 61 :: ver ++ [soh; 57; 61]).
Context (ver_soh : Forall (λ c, c ≠ soh) ver) (soh_eq : soh ≠ 61).

(** A message type the wire format can carry. *)
Definition type_ok (mt : list Z) : Prop :=
  bytes mt ∧ Forall (λ c, c ≠ 0) mt ∧ Forall (λ c, c ≠ soh) mt ∧ mt ≠ [].

Lemma digits_no_soh d : digits d → Forall (λ c, c ≠ soh) d.
Proof. intros H. eapply Forall_impl; [exact H|]. intros c Hc ->. cbn in Hc. congruence. Qed.

Lemma message_seqnum mt n inner trailer t :
  0 ≤ n < 2 ^ 64 - 1 → Forall (λ c, c ≠ soh) mt →
  let m := frame (fix_body soh mt n (soh :: inner)) trailer in
  get_sequence_number soh (zlen m) (m ++ t) = Some (n, m ++ t, false).
Proof.
  intros Hn Hmt m. set (body := fix_body soh mt n (soh :: inner)) in *.
  assert (Hm : m = ((56 :: 61 :: ver) ++ soh :: 57 :: (61 :: dec (zlen body)) ++ soh :: 51 :: 53 :: 61 :: mt)
    ++ [soh; 51; 52; 61] ++ dec n ++ soh :: inner ++ trailer).
  { unfold m, frame. rewrite start_eq. unfold body at 2, fix_body.
    change (bytes_of_string "35=") with [51; 53; 61]. change (bytes_of_string "34=") with [51; 52; 61].
    by app_norm. }
  rewrite Hm. apply get_sequence_number_spec; [| | |done|done].
  - constructor; [intros <-; done|]. by constructor.
  - constructor; [done|]. apply digits_no_soh, dec_digits. lia.
  - by constructor.
Qed.

Lemma message_type_at mt n inner trailer t :
  let m := frame (fix_body soh mt n (soh :: inner)) trailer in
  let off := zlen start + zlen (dec (zlen (fix_body soh mt n (soh :: inner)))) + 4 in
  ∃ rest, drop (Z.to_nat off) (m ++ t) = mt ++ soh :: rest
    ∧ ∀ i, 0 ≤ i → get_at (m ++ t) (off + i) = get_at (mt ++ soh :: rest) i.
Proof.
  intros m off. set (body := fix_body soh mt n (soh :: inner)) in *.
  set (rest := [51; 52; 61] ++ dec n ++ soh :: inner ++ trailer ++ t). exists rest.
  assert (Hm : m ++ t = (start ++ dec (zlen body) ++ [soh; 51; 53; 61]) ++ mt ++ soh :: rest).
  { unfold m, frame, body at 2, fix_body, rest.
    change (bytes_of_string "35=") with [51; 53; 61]. change (bytes_of_string "34=") with [51; 52; 61].
    by app_norm. }
  assert (Hoff : off = zlen (start ++ dec (zlen body) ++ [soh; 51; 53; 61])) by (unfold off; llia).
  rewrite Hm, Hoff. split.
  - apply drop_app_length'. lia.
  - intros i Hi. by apply get_at_shift.
Qed.

(** What a message puts on the queues. *)
Definition delivered (n off : Z) (m mt : list Z) (evs : list event) : Prop :=
  if bool_decide (mt ∈ fix_session_msgtype_string)
  then ∃ tail, evs = [Stored n (zlen m) m; ToEcho (be_bytes 4 (zlen m) ++ be_bytes 4 off ++ m ++ tail)]
  else ∃ t, evs = [Stored n (zlen m) m; ToDelta (mkDelta (zlen m) off (Block (m ++ t)))].

(** The common part of both outcomes: what [message_complete] does to a
    message with a good checksum, the expected number and a type. *)
Lemma complete_in_sequence mt inner ls t a st :
  let n := expected st + 1 in
  let body := fix_body soh mt n (soh :: inner) in
  let m := frame body (trailer_of body) in
  let off := zlen start + zlen (dec (zlen body)) + 4 in
  type_ok mt → 0 ≤ expected st < 2 ^ 64 - 2 → zlen m < 2 ^ 32 → cstr ls = Some (dec (zlen body)) →
  ∀ o left, let st1 := set_expected n (copying o left (zlen m) ls (m ++ t) a st) in
  complete (copying o left (zlen m) ls (m ++ t) a st)
  = if bool_decide (mt ∈ fix_session_msgtype_string)
    then if ECHO_MAX_DATA_SIZE <? zlen m then Some (set_expected (expected st) st1)
         else commit_echo acquire_echo n off (m ++ t) st1
    else Some (commit_delta acquire_delta n off (m ++ t) st1).
Proof.
  intros n body m off (Hb & Hz & Hs & Hne) Hn Hlen Hls o left st1.
  destruct (checksum_read body (bytes_of_string "10=")
    (padded 3 (byte_sum (start ++ dec (zlen body) ++ [soh] ++ body) mod 256)) soh t) as [R1 R2];
    [done | by rewrite length_padded | done |].
  fold (trailer_of body) in R1, R2. fold m in R1, R2.
  unfold message_complete. cbn [copying delta_entry size data deref]. obind.
  rewrite R1, R2. obind. rewrite get_FIX_checksum_sum, bool_decide_eq_true_2 by done. cbn [negb].
  assert (Hseq : get_sequence_number soh (zlen m) (m ++ t) = Some (n, m ++ t, false))
    by (apply message_seqnum; [unfold n; lia | done]).
  rewrite Hseq. obind.
  cbn [set_erange set_data set_delta erange expected length_str copying].
  replace (u64 (expected st + 1)) with n by (unfold n, u64; rewrite Z.mod_small; lia).
  rewrite Z.eqb_refl. cbn [negb set_expected set_data set_delta set_erange copying length_str delta_entry size]. rewrite Hls. obind. fold off.
  destruct (message_type_at mt n inner (trailer_of body) t) as (rest & Hdrop & Hget).
  fold body m off in Hdrop, Hget. specialize (Hget 0 ltac:(lia)). rewrite Z.add_0_r in Hget.
  rewrite Hget. destruct mt as [|c mt']; [done|].
  change (get_at ((c :: mt') ++ soh :: rest) 0) with (Some c). obind.
  rewrite schar_small by lia. apply Forall_cons in Hs as Hc. destruct Hc as [Hc _].
  rewrite (proj2 (Z.eqb_neq soh c)) by done. rewrite Hdrop.
  destruct (msgtype_session (c :: mt') rest Hb Hz Hs Hne) as (ty & -> & Hsess). obind.
  rewrite Hsess. obind. destruct (bool_decide _) eqn:Eb; cbn [negb].
  - cbn [expected set_expected]. case_match; [|done]. f_equal. unfold st1.
    replace (u64 (n - 1)) with (expected st) by (unfold n, u64; rewrite Z.mod_small; lia). done.
  - apply nonsession_not_resend in Hsess. by rewrite Hsess.
Qed.
Context (acquire_delta_ok : ∀ n, delta_ok (acquire_delta n)).
Context (acquire_echo_ok : ∀ n, zlen (acquire_echo n) = ECHO_ENTRY_SIZE).

Lemma commit_echo_spec n off m t st :
  size (delta_entry st) = zlen m → zlen m ≤ ECHO_MAX_DATA_SIZE →
  ∃ tail st', commit_echo acquire_echo n off (m ++ t) st = Some st' ∧
    st' = mkSplitter (state st) (l st) (length_str st) (erange st) (offset st)
          (bytes_left_to_copy st) (delta_entry st) (expected st) (ndelta st) (S (necho st))
          (allocs st) (tx_resend st) (tx_reject st)
          (events st ++ [Stored n (zlen m) m; ToEcho (be_bytes 4 (zlen m) ++ be_bytes 4 off ++ m ++ tail)]).
Proof.
  intros Hsz Hm. unfold commit_echo. rewrite Hsz, read_at_prefix by done. obind.
  pose proof (acquire_echo_ok (necho st)) as He. unfold ECHO_MAX_DATA_SIZE, ECHO_ENTRY_SIZE in *.
  destruct (split_free (acquire_echo (necho st)) 4) as (w & e1 & E1 & Hw); [lia|].
  rewrite E1 in He |- *. clear E1.
  destruct (split_free e1 4) as (w2 & e2 & -> & Hw2); [llia|].
  destruct (split_free e2 (zlen m)) as (d & tail & -> & Hd); [llia|].
  remember (be_bytes 4 (zlen m)) as L eqn:EL. remember (be_bytes 4 off) as O eqn:EO.
  assert (HL : zlen L = 4) by (by rewrite EL, length_be_bytes).
  assert (HO : zlen O = 4) by (by rewrite EO, length_be_bytes).
  rewrite setu32_be, <- EL, write_at_head by lia. obind.
  rewrite setu32_be, <- EO, (write_at_mid L w2) by lia. obind.
  rewrite (app_assoc L), (write_at_mid (L ++ O) d) by llia. obind. exists tail. eexists. split; [done|].
  by rewrite <- app_assoc.
Qed.

(** A session message must fit an echo entry. *)
Definition fits (mt m : list Z) : Prop :=
  mt ∈ fix_session_msgtype_string → zlen m ≤ ECHO_MAX_DATA_SIZE.

Lemma deliver_message mt inner st :
  let n := expected st + 1 in
  let body := fix_body soh mt n (soh :: inner) in
  let m := fix_message start soh body in
  let off := zlen start + zlen (dec (zlen body)) + 4 in
  ready (expected st) st → type_ok mt → 0 ≤ expected st < 2 ^ 64 - 2 → zlen m < 2 ^ 32 → fits mt m →
  ∃ st' evs, run m 0 st = Some st' ∧ ready n st' ∧ events st' = events st ++ evs ∧
    delivered n off m mt evs.
Proof.
  intros n body m off Hr Hmt Hn Hlen Hfit.
  assert (Hbody : 0 < zlen body) by (unfold body; rewrite length_fix_body; lia).
  unfold m in *. rewrite fix_message_frame in *. set (tr := trailer_of body) in *.
  destruct (frame_run body tr (expected st) st Hr Hbody (length_trailer_of body) Hlen)
    as (ls & t & a & Hls & Hll & ->).
  pose proof (complete_in_sequence mt inner ls t a st Hmt Hn Hlen Hls
    (zlen start + zlen (dec (zlen body))) (zlen body + 8)) as Hc.
  fold n body in Hc. fold tr off in Hc. rewrite Hc. clear Hc.
  pose proof (length_frame body tr (length_trailer_of body)) as Hfl.
  destruct Hr as (_ & _ & _ & _ & _ & Hd & _). unfold delivered. case_match eqn:Eb.
  - rewrite (proj2 (Z.ltb_ge _ _)) by (apply bool_decide_eq_true in Eb; by apply Hfit).
    destruct (commit_echo_spec n off (frame body tr) t (set_expected n (copying
      (zlen start + zlen (dec (zlen body))) (zlen body + 8) (zlen (frame body tr)) ls
      (frame body tr ++ t) a st))) as (tail & st' & -> & Est);
      [done | apply bool_decide_eq_true in Eb; by apply Hfit |].
    obind. eexists _, _. split; [done|]. rewrite Est. split; [|split; [reflexivity | eauto]].
    unfold ready. clearbody off tr body. cbn.
    split_and!; try done; try lia. split; cbn [size data]; llia.
  - obind. eexists _, _. split; [done|]. split; [|split; [|by eexists]].
    + unfold ready, commit_delta. clearbody off tr body. cbn. split_and!; try done; try lia; apply acquire_delta_ok.
    + unfold commit_delta. cbn [set_parse events set_expected copying delta_entry size].
      by rewrite Nat2Z.id, take_app_length.
Qed.
(** ** Streams of messages *)

#[local] Abbreviation entries := (splitter_entries (start ++ 0 :: pad) (zlen start) soh malloc
  acquire_delta acquire_echo CACHE_LINE_SIZE tx_malloc tx_realloc fixmsg_rx).

(** Where the message type starts in message number [n]. *)
Definition type_offset (n : Z) (w : waiting) : Z :=
  zlen start + zlen (dec (zlen (fix_body soh (w_type w) n (soh :: w_inner w)))) + 4.

(** The messages are such that the splitter can deliver them: the type is
    regular, the length fits its integer, and a session message fits the entry of
    echo ([fits]; a larger one is written beyond it). *)
Fixpoint stream_ok (seq : Z) (ws : list waiting) : Prop :=
  match ws with
  | [] => True
  | w :: ws =>
      type_ok (w_type w) ∧ zlen (numbered start soh (seq + 1) w) < 2 ^ 32 ∧
      fits (w_type w) (numbered start soh (seq + 1) w) ∧ stream_ok (seq + 1) ws
  end.

Fixpoint stream_delivered (seq : Z) (ws : list waiting) (evs : list event) : Prop :=
  match ws with
  | [] => evs = []
  | w :: ws =>
      ∃ e1 e2, evs = e1 ++ e2 ∧
        delivered (seq + 1) (type_offset (seq + 1) w) (numbered start soh (seq + 1) w) (w_type w) e1 ∧
        stream_delivered (seq + 1) ws e2
  end.

Fixpoint messages (seq : Z) (ws : list waiting) : list (list Z) :=
  match ws with [] => [] | w :: ws => numbered start soh (seq + 1) w :: messages (seq + 1) ws end.

Lemma concat_messages seq ws : concat (messages seq ws) = stream start soh seq ws.
Proof. revert seq. induction ws as [|w ws IH]; intros; [done|]. cbn. by rewrite IH. Qed.

Lemma messages_small seq ws : stream_ok seq ws → Forall (λ c, zlen c < 2 ^ 32) (messages seq ws).
Proof.
  revert seq. induction ws as [|w ws IH]; intros seq; [by constructor|].
  intros (_ & ? & _ & ?). constructor; [done|]. by apply IH.
Qed.

Lemma deliver_messages ws : ∀ seq st,
  ready seq st → 0 ≤ seq → seq + zlen ws < 2 ^ 64 - 1 → stream_ok seq ws →
  ∃ st' evs, entries (messages seq ws) st = Some st' ∧ ready (seq + zlen ws) st' ∧
    events st' = events st ++ evs ∧ stream_delivered seq ws evs.
Proof.
  induction ws as [|w ws IH]; intros seq st Hr H0 Hmax Hok.
  { exists st, []. cbn. rewrite Z.add_0_r, app_nil_r. done. }
  destruct Hok as (Hty & Hlen & Hfit & Hok). cbn [messages splitter_entries].
  assert (He : expected st = seq) by by destruct Hr as (_ & _ & _ & _ & _ & _ & ?).
  destruct (deliver_message (w_type w) (w_inner w) st) as (st1 & e1 & Hrun & Hr1 & Hev1 & Hd1);
    rewrite ?He; try done; [llia|]. rewrite He in *.
  change (splitter_entry _ _ _ _ _ _ _ _ _ _ (numbered start soh (seq + 1) w) st)
    with (run (numbered start soh (seq + 1) w) 0 st).
  unfold numbered at 1. rewrite Hrun. obind.
  destruct (IH (seq + 1) st1) as (st2 & e2 & Hrun2 & Hr2 & Hev2 & Hd2); [done | lia | llia | done |].
  exists st2, (e1 ++ e2). split; [done|]. split; [by replace (seq + zlen (w :: ws)) with (seq + 1 + zlen ws) by llia|].
  split; [by rewrite Hev2, Hev1, app_assoc|]. cbn [stream_delivered]. eauto.
Qed.

Lemma entries_left cs st st' :
  Forall (λ c, zlen c < 2 ^ 32) cs → 0 ≤ bytes_left_to_copy st < 2 ^ 32 → entries cs st = Some st' →
  0 ≤ bytes_left_to_copy st' < 2 ^ 32.
Proof.
  intros Hcs. revert st. induction Hcs as [|c cs Hc _ IH]; intros st H0; cbn [splitter_entries].
  { by intros [= <-]. }
  change (splitter_entry _ _ _ _ _ _ _ _ _ _ c st) with (run c 0 st).
  destruct (run c 0 st) as [x|] eqn:E; obind; [|done]. apply run_left in E; [|done..]. by apply IH.
Qed.

Lemma deliver_stream chunks ws seq st :
  concat chunks = stream start soh seq ws → Forall (λ c, zlen c < 2 ^ 32) chunks →
  ready seq st → 0 ≤ seq → seq + zlen ws < 2 ^ 64 - 1 → stream_ok seq ws →
  ∃ st' evs, entries chunks st = Some st' ∧ ready (seq + zlen ws) st' ∧
    events st' = events st ++ evs ∧ stream_delivered seq ws evs.
Proof.
  intros Hcat Hcs Hr H0 Hmax Hok.
  destruct (deliver_messages ws seq st Hr H0 Hmax Hok) as (x & evs & Hx & Hrx & Hevs & Hd).
  assert (Hleft : 0 ≤ bytes_left_to_copy st < 2 ^ 32) by by destruct Hr as (_ & _ & _ & _ & ? & _).
  pose proof (entries_same_bytes (start ++ 0 :: pad) (zlen start) soh malloc acquire_delta acquire_echo
    CACHE_LINE_SIZE tx_malloc tx_realloc fixmsg_rx chunks (messages seq ws) st soh_digit Hcs
    (messages_small _ _ Hok)) as He.
  rewrite concat_messages in He. specialize (He Hcat Hleft). rewrite Hx in He.
  destruct (entries chunks st) as [y|] eqn:Ey; inversion He as [? ? Hyx|]; subst.
  exists y, evs. split; [done|]. apply entries_left in Ey; [|done..].
  symmetry in Hyx. apply st_equiv_inv in Hyx as [->|[_ Hy]]; [done|].
  rewrite Hy. destruct Hrx as (? & ? & ? & ? & ? & ? & ?). done.
Qed.
(** ** What is read from a queue entry *)

(** The entry [d] begins with message [n], and its type is where the offset says. *)
Definition reads (n : Z) (w : waiting) (d : list Z) : Prop :=
  read_at d 0 (zlen (numbered start soh n w)) = Some (numbered start soh n w)
  ∧ read_at d (type_offset n w) (zlen (w_type w)) = Some (w_type w).

Lemma reads_message n w t : reads n w (numbered start soh n w ++ t).
Proof.
  split; [by apply read_at_prefix|]. unfold numbered. rewrite fix_message_frame. unfold frame. set (body := fix_body _ _ _ _).
  set (tr := trailer_of _). unfold body at 2, fix_body.
  change (bytes_of_string "35=") with [51; 53; 61].
  replace ((start ++ dec (zlen body) ++ [soh] ++ ([51; 53; 61] ++ w_type w ++ [soh]
    ++ bytes_of_string "34=" ++ dec n ++ soh :: w_inner w) ++ tr) ++ t)
    with ((start ++ dec (zlen body) ++ [soh; 51; 53; 61]) ++ w_type w ++
      ([soh] ++ bytes_of_string "34=" ++ dec n ++ soh :: w_inner w ++ tr ++ t)) by (by app_norm).
  apply read_at_mid; [|done]. unfold type_offset. fold body. llia.
Qed.

Lemma type_offset_small n w : zlen (numbered start soh n w) < 2 ^ 32 → 0 ≤ type_offset n w < 2 ^ 32.
Proof.
  intros Hlen. unfold type_offset. split; [lia|]. unfold numbered in Hlen. rewrite fix_message_frame in Hlen.
  rewrite length_frame in Hlen by apply length_trailer_of. rewrite length_fix_body in *. llia.
Qed.

Lemma session_entry_view m off t : zlen m < 2 ^ 32 → 0 ≤ off < 2 ^ 32 →
  session_pop (be_bytes 4 (zlen m) ++ be_bytes 4 off ++ m ++ t) = Some (zlen m, off, m ++ t).
Proof.
  intros Hlen Hoff. unfold session_pop. set (L := be_bytes 4 (zlen m)). set (O := be_bytes 4 off).
  assert (HL : zlen L = 4) by (unfold L; by rewrite length_be_bytes).
  pose proof (getu32_mid [] (zlen m) L (O ++ m ++ t) 0 eq_refl eq_refl) as Hget.
  cbn [app] in Hget. rewrite Hget. obind.
  rewrite (getu32_mid L off O) by done. obind.
  rewrite !Z.mod_small by lia. done.
Qed.

(** ** The session level answers *)

(** A transmitter as [init] leaves it. *)
Definition fresh_tx (tx : FIXMessageTX) : Prop :=
  holds tx [soh_ tx] ∧ zlen (msg_type_ tx) = CACHE_LINE_SIZE ∧
  buf_size_ tx = INITIAL_TX_BUFFER_SIZE ∧ sending_time_appended_ tx = false.

Context (cache_line : 2 ≤ CACHE_LINE_SIZE).
Context (tx_malloc_size : ∀ n sz b, 0 ≤ sz → tx_malloc n sz = Some b → zlen b = sz).

Lemma number_string n : 0 ≤ n < 2 ^ 64 →
  ∃ s e, uint_to_str 0 n (replicate 24 0) 0 = Some (s, e) ∧ cstr s = Some (dec n).
Proof.
  intros Hn. assert (zlen (dec n) ≤ 20) by (apply dec_length_le; lia).
  destruct (split_free (replicate 24 0) (zlen (dec n) + 1)) as (b & c & -> & Hb); [llia|].
  pose proof (uint_to_str_spec 0 n [] b c ltac:(lia) ltac:(lia)) as Hu. cbn [app] in Hu.
  eexists _, _. split; [exact Hu|]. apply cstr_app, dec_nonzero_bytes. lia.
Qed.

(** [expose] refuses a message without SendingTime. *)
Lemma expose_no_sending_time tx c r :
  msg_type_ tx = c :: r → sending_time_appended_ tx = false → expose tx = Some (None, tx).
Proof. intros Hm Hs. unfold expose. rewrite Hm, Hs. cbn. by rewrite andb_false_r. Qed.

(** A type of one letter and two fields other than 52, then [expose]. *)
Lemma build_two tx ty t1 v1 t2 v2 :
  fresh_tx tx → zlen ty = 1 → field_ok (t1, v1) → field_ok (t2, v2) → t1 ≠ 52 → t2 ≠ 52 →
  zlen (wire_field (soh_ tx) (t1, v1)) + zlen (wire_field (soh_ tx) (t2, v2)) ≤ 2000 →
  ∃ tx1 tx2 tx3,
    append_field CACHE_LINE_SIZE tx_malloc tx_realloc 35 ty tx = Some (1, tx1) ∧
    append_field CACHE_LINE_SIZE tx_malloc tx_realloc t1 v1 tx1 = Some (1, tx2) ∧
    append_field CACHE_LINE_SIZE tx_malloc tx_realloc t2 v2 tx2 = Some (1, tx3) ∧
    expose tx3 = Some (None, tx3).
Proof.
  intros (Hh & Hml & Hsz & Hst) Hty Hf1 Hf2 H1 H2 Hfit. unfold INITIAL_TX_BUFFER_SIZE in Hsz.
  pose proof (length_wire_field (soh_ tx) t1 v1). pose proof (length_wire_field (soh_ tx) t2 v2).
  destruct (append_type_holds CACHE_LINE_SIZE tx_malloc tx_realloc tx _ ty Hh Hml)
    as (tx1 & r & A1 & Hh1 & S1 & B1 & _ & M1 & _ & P1); [lia|].
  destruct (append_field_holds CACHE_LINE_SIZE tx_malloc tx_realloc tx1 _ t1 v1 Hf1 Hh1)
    as (tx2 & A2 & Hh2 & (S2 & _ & M2 & B2 & _ & P2)); [lia | rewrite S1, B1; cbn [length]; lia |].
  destruct (append_field_holds CACHE_LINE_SIZE tx_malloc tx_realloc tx2 _ t2 v2 Hf2 Hh2)
    as (tx3 & A3 & Hh3 & (S3 & _ & M3 & B3 & _ & P3)); [lia | rewrite S2, S1, B2, B1; llia |].
  exists tx1, tx2, tx3. split_and!; [done..|]. destruct ty as [|c ty]; [done|].
  apply (expose_no_sending_time tx3 c (ty ++ 0 :: r)); [by rewrite M3, M2, M1|].
  rewrite P3, P2, P1, Hst, (proj2 (Z.eqb_neq _ _) H1), (proj2 (Z.eqb_neq _ _) H2). done.
Qed.

Lemma resend_request_undefined tx n :
  fresh_tx tx → 0 ≤ n < 2 ^ 64 →
  send_resend_request_message CACHE_LINE_SIZE tx_malloc tx_realloc tx n = None.
Proof.
  intros Hf Hn. unfold send_resend_request_message.
  destruct (number_string n Hn) as (s & e & -> & Hs). obind. rewrite Hs. obind.
  assert (zlen (dec n) ≤ 20) by (apply dec_length_le; lia).
  destruct (build_two tx [50] 45 (dec n) 16 [48]) as (tx1 & tx2 & tx3 & A1 & A2 & A3 & E);
    try done; try (split; cbn; lia).
  { rewrite !length_wire_field. change (zlen (dec 45)) with 2. change (zlen (dec 16)) with 2.
    cbn [length]. lia. }
  rewrite A1. obind. rewrite A2. obind. rewrite A3. obind. by rewrite E.
Qed.

Lemma session_reject_undefined tx n reason :
  fresh_tx tx → 0 ≤ n < 2 ^ 64 → zlen reason ≤ 1000 →
  send_session_level_reject_message CACHE_LINE_SIZE tx_malloc tx_realloc tx n reason = None.
Proof.
  intros Hf Hn Hr. unfold send_session_level_reject_message.
  destruct (number_string n Hn) as (s & e & -> & Hs). obind. rewrite Hs. obind.
  assert (zlen (dec n) ≤ 20) by (apply dec_length_le; lia).
  destruct (build_two tx [51] 45 (dec n) 58 reason) as (tx1 & tx2 & tx3 & A1 & A2 & A3 & E);
    try done; try (split; cbn; lia).
  { rewrite !length_wire_field. change (zlen (dec 45)) with 2. change (zlen (dec 58)) with 2. lia. }
  rewrite A1. obind. rewrite A2. obind. rewrite A3. obind. by rewrite E.
Qed.
(** ** What goes wrong *)

(** A valid message with another number than the expected one. *)
Lemma complete_gap mt n inner o left ls t a st :
  let body := fix_body soh mt n (soh :: inner) in
  let m := frame body (trailer_of body) in
  Forall (λ c, c ≠ soh) mt → 0 ≤ n < 2 ^ 64 - 1 → 0 ≤ expected st < 2 ^ 64 - 1 →
  n ≠ expected st + 1 → zlen m < 2 ^ 32 → fresh_tx (tx_resend st) →
  complete (copying o left (zlen m) ls (m ++ t) a st) = None.
Proof.
  intros body m Hs Hn He Hne Hlen Hf.
  destruct (checksum_read body (bytes_of_string "10=")
    (padded 3 (byte_sum (start ++ dec (zlen body) ++ [soh] ++ body) mod 256)) soh t) as [R1 R2];
    [done | by rewrite length_padded | done |].
  fold (trailer_of body) in R1, R2. fold m in R1, R2.
  unfold message_complete. cbn [copying delta_entry size data deref]. obind.
  rewrite R1, R2. obind. rewrite get_FIX_checksum_sum, bool_decide_eq_true_2 by done. cbn [negb].
  assert (Hseq : get_sequence_number soh (zlen m) (m ++ t) = Some (n, m ++ t, false))
    by (by apply message_seqnum).
  rewrite Hseq. obind. cbn [set_erange set_data set_delta expected copying tx_resend].
  replace (u64 (expected st + 1)) with (expected st + 1) by (unfold u64; rewrite Z.mod_small; lia).
  rewrite (proj2 (Z.eqb_neq _ _)) by done. cbn [negb].
  by rewrite resend_request_undefined by (done || lia).
Qed.

(** A numbered message whose MsgType value is empty. *)
Lemma complete_empty_type inner o left ls t a st :
  let body := fix_body soh [] (expected st + 1) (soh :: inner) in
  let m := frame body (trailer_of body) in
  0 ≤ expected st < 2 ^ 64 - 2 → zlen m < 2 ^ 32 → cstr ls = Some (dec (zlen body)) →
  fresh_tx (tx_reject st) →
  complete (copying o left (zlen m) ls (m ++ t) a st) = None.
Proof.
  intros body m He Hlen Hls Hf.
  destruct (checksum_read body (bytes_of_string "10=")
    (padded 3 (byte_sum (start ++ dec (zlen body) ++ [soh] ++ body) mod 256)) soh t) as [R1 R2];
    [done | by rewrite length_padded | done |].
  fold (trailer_of body) in R1, R2. fold m in R1, R2.
  unfold message_complete. cbn [copying delta_entry size data deref]. obind.
  rewrite R1, R2. obind. rewrite get_FIX_checksum_sum, bool_decide_eq_true_2 by done. cbn [negb].
  assert (Hseq : get_sequence_number soh (zlen m) (m ++ t) = Some (expected st + 1, m ++ t, false))
    by (apply message_seqnum; [lia | constructor]).
  rewrite Hseq. obind. cbn [set_erange set_data set_delta expected copying].
  replace (u64 (expected st + 1)) with (expected st + 1) by (unfold u64; rewrite Z.mod_small; lia).
  rewrite Z.eqb_refl.
  cbn [negb set_expected set_data set_delta set_erange copying length_str delta_entry size tx_reject].
  rewrite Hls. obind.
  destruct (message_type_at [] (expected st + 1) inner (trailer_of body) t) as (rest & _ & Hget).
  specialize (Hget 0 ltac:(lia)). fold body m in Hget. rewrite Z.add_0_r in Hget. rewrite Hget.
  change (get_at ([] ++ soh :: rest) 0) with (Some soh). obind. rewrite schar_small, Z.eqb_refl by lia.
  by rewrite session_reject_undefined by (done || lia).
Qed.

Lemma run_message_undefined body chunks e st :
  (∀ o left ls t a, cstr ls = Some (dec (zlen body)) →
     complete (copying o left (zlen (fix_message start soh body)) ls (fix_message start soh body ++ t) a st)
     = None) →
  ready e st → 0 < zlen body → zlen (fix_message start soh body) < 2 ^ 32 →
  concat chunks = fix_message start soh body → Forall (λ c, zlen c < 2 ^ 32) chunks →
  entries chunks st = None.
Proof.
  intros Hc Hr Hb Hlen Hcat Hcs. rewrite fix_message_frame in *.
  pose proof (entries_same_bytes (start ++ 0 :: pad) (zlen start) soh malloc acquire_delta acquire_echo
    CACHE_LINE_SIZE tx_malloc tx_realloc fixmsg_rx chunks [frame body (trailer_of body)] st
    soh_digit Hcs) as He.
  cbn [concat] in He. rewrite app_nil_r in He.
  assert (Hleft : 0 ≤ bytes_left_to_copy st < 2 ^ 32) by by destruct Hr as (_ & _ & _ & _ & ? & _).
  specialize (He ltac:(by repeat constructor) Hcat Hleft). cbn [splitter_entries] in He.
  change (splitter_entry _ _ _ _ _ _ _ _ _ _ (frame body (trailer_of body)) st)
    with (run (frame body (trailer_of body)) 0 st) in He.
  destruct (frame_run body (trailer_of body) e st Hr Hb (length_trailer_of body) Hlen)
    as (ls & t & a & Hls & _ & Hrun).
  rewrite Hrun, Hc in He by done. by inversion He.
Qed.
(** ** Frames that are not delivered *)

Lemma run_corrupt body tag chk c e st :
  zlen tag = 3 → zlen chk = 3 → zlen (frame body (tag ++ chk ++ [c])) < 2 ^ 32 → 0 < zlen body →
  chk ≠ padded 3 (byte_sum (start ++ dec (zlen body) ++ [soh] ++ body) mod 256) → ready e st →
  ∃ st', run (frame body (tag ++ chk ++ [c])) 0 st = Some st' ∧ ready e st' ∧ events st' = events st.
Proof.
  intros Htag Hchk Hlen Hb Hbad Hr.
  assert (Htr : zlen (tag ++ chk ++ [c]) = 7) by llia.
  destruct (frame_run body _ e st Hr Hb Htr Hlen) as (ls & t & a & Hls & Hll & ->).
  rewrite complete_bad_checksum by done. obind. eexists. split; [done|]. split; [|done].
  pose proof (length_frame body _ Htr) as Hfl. destruct Hr as (_ & _ & _ & _ & _ & _ & Hexp).
  unfold ready. generalize dependent (frame body (tag ++ chk ++ [c])). intros m Hlen Hfl.
  cbn [copying set_parse state l erange length_str bytes_left_to_copy delta_entry expected].
  split_and!; try done; try lia. split; cbn [size data]; llia.
Qed.

Lemma run_oversized mt inner st :
  let body := fix_body soh mt (expected st + 1) (soh :: inner) in
  let m := fix_message start soh body in
  ready (expected st) st → type_ok mt → 0 ≤ expected st < 2 ^ 64 - 2 → zlen m < 2 ^ 32 →
  mt ∈ fix_session_msgtype_string → ECHO_MAX_DATA_SIZE < zlen m →
  ∃ st', run m 0 st = Some st' ∧ ready (expected st) st' ∧ events st' = events st.
Proof.
  intros body m Hr Hmt Hn Hlen Hin Hbig.
  assert (Hbody : 0 < zlen body) by (unfold body; rewrite length_fix_body; lia).
  unfold m in *. rewrite fix_message_frame in *. set (tr := trailer_of body) in *.
  destruct (frame_run body tr (expected st) st Hr Hbody (length_trailer_of body) Hlen)
    as (ls & t & a & Hls & Hll & ->).
  pose proof (complete_in_sequence mt inner ls t a st Hmt Hn Hlen Hls
    (zlen start + zlen (dec (zlen body))) (zlen body + 8)) as Hc.
  fold body in Hc. fold tr in Hc. rewrite Hc, bool_decide_eq_true_2 by done.
  rewrite (proj2 (Z.ltb_lt _ _)) by done. obind. clear Hc. eexists. split; [done|]. split; [|done].
  pose proof (length_frame body tr (length_trailer_of body)) as Hfl.
  unfold ready. clearbody tr body.
  cbn [set_expected copying set_parse state l erange length_str bytes_left_to_copy delta_entry expected].
  split_and!; try done; try lia. split; cbn [size data]; llia.
Qed.

(** A frame the splitter skips, followed by a stream. *)
Lemma deliver_after_skip f chunks ws seq st :
  (∃ st', run f 0 st = Some st' ∧ ready seq st' ∧ events st' = events st) →
  zlen f < 2 ^ 32 → concat chunks = f ++ stream start soh seq ws →
  Forall (λ c, zlen c < 2 ^ 32) chunks → ready seq st → 0 ≤ seq → seq + zlen ws < 2 ^ 64 - 1 →
  stream_ok seq ws →
  ∃ st' evs, entries chunks st = Some st' ∧ ready (seq + zlen ws) st' ∧
    events st' = events st ++ evs ∧ stream_delivered seq ws evs.
Proof.
  intros (x & Hx & Hrx & Hex) Hf Hcat Hcs Hr H0 Hmax Hok.
  destruct (deliver_messages ws seq x Hrx H0 Hmax Hok) as (z & evs & Hz & Hrz & Hevs & Hd).
  assert (Hleft : 0 ≤ bytes_left_to_copy st < 2 ^ 32) by by destruct Hr as (_ & _ & _ & _ & ? & _).
  pose proof (entries_same_bytes (start ++ 0 :: pad) (zlen start) soh malloc acquire_delta acquire_echo
    CACHE_LINE_SIZE tx_malloc tx_realloc fixmsg_rx chunks (f :: messages seq ws) st soh_digit Hcs)
    as He.
  cbn [concat] in He. rewrite concat_messages in He.
  specialize (He ltac:(constructor; [done | by apply messages_small]) Hcat Hleft).
  cbn [splitter_entries] in He.
  change (splitter_entry _ _ _ _ _ _ _ _ _ _ f st) with (run f 0 st) in He. rewrite Hx in He.
  cbn [mbind option_bind] in He. rewrite Hz in He.
  destruct (entries chunks st) as [y|] eqn:Ey; inversion He as [? ? Hyx|]; subst.
  exists y, evs. split; [done|]. apply entries_left in Ey; [|done..]. rewrite <- Hex.
  symmetry in Hyx. apply st_equiv_inv in Hyx as [->|[_ Hy]]; [done|].
  rewrite Hy. destruct Hrz as (? & ? & ? & ? & ? & ? & ?). done.
Qed.
End Delivery.

(** ** Properties *)

(** The bytes a session starts its messages with: ["8=<ver><SOH>9="]. *)
Definition start_of (soh : Z) (ver : list Z) : list Z :=
  bytes_of_string "8=" ++ ver ++ [soh] ++ bytes_of_string "9=".

(** SOH is an ASCII character that cannot occur in numbers or be taken for
    the separator of a field, the version string is ASCII without SOH. *)
Definition wire_ok (soh : Z) (ver : list Z) : Prop :=
  0 < soh < 128 ∧ isdigit soh = false ∧ soh ≠ 61 ∧
  Forall (λ c, 0 < c < 128) ver ∧ Forall (λ c, c ≠ soh) ver.

Lemma start_of_ascii soh ver : wire_ok soh ver → Forall (λ c, 0 < c < 128) (start_of soh ver).
Proof.
  intros (Hs & _ & _ & Hv & _). 
  change (start_of soh ver) with ([56; 61] ++ ver ++ [soh; 57; 61]).
  rewrite !Forall_app, !Forall_cons, !Forall_nil. split_and!; (done || lia).
Qed.

(** What the splitter relies on: memory, and the entries the two queues hand
    out. *)
Class SplitterEnv (malloc : nat → Z → option (list Z)) (acquire_delta : nat → delta_t)
    (acquire_echo : nat → list Z) : Prop := {
  env_malloc : ∀ n z, 0 ≤ z → ∃ b, malloc n z = Some b ∧ zlen b = z;
  env_delta : ∀ n, delta_ok (acquire_delta n);
  env_echo : ∀ n, zlen (acquire_echo n) = ECHO_ENTRY_SIZE }.

#[export] Instance demo_env : SplitterEnv FixMessageTX.malloc_ok demo_delta demo_echo.
Proof.
  split.
  - intros n z Hz. eexists. split; [done|]. rewrite length_replicate. lia.
  - done.
  - done.
Qed.

Section Properties.
Context (soh : Z) (ver pad : list Z) (malloc : nat → Z → option (list Z)).
Context (acquire_delta : nat → delta_t) (acquire_echo : nat → list Z).
Context (CACHE_LINE_SIZE : Z) (tx_malloc : nat → Z → option (list Z))
        (tx_realloc : nat → Z → option (bool * list Z)).
Context (fixmsg_rx : FIXMessageRX).
Context `{!SplitterEnv malloc acquire_delta acquire_echo}.
#[local] Abbreviation start := (start_of soh ver).
#[local] Abbreviation entries := (splitter_entries (start ++ 0 :: pad) (zlen start) soh malloc
  acquire_delta acquire_echo CACHE_LINE_SIZE tx_malloc tx_realloc fixmsg_rx).

(** A stream that arrives in pieces. *)
Lemma deliver_in_env chunks ws seq st :
  wire_ok soh ver → concat chunks = stream start soh seq ws → Forall (λ c, zlen c < 2 ^ 32) chunks →
  ready seq st → 0 ≤ seq → seq + zlen ws < 2 ^ 64 - 1 → stream_ok start soh seq ws →
  ∃ st' evs, entries chunks st = Some st' ∧ ready (seq + zlen ws) st' ∧
    events st' = events st ++ evs ∧ stream_delivered start soh seq ws evs.
Proof.
  intros Hw. pose proof (start_of_ascii _ _ Hw). destruct Hw as (? & ? & ? & ? & ?). intros.
  eapply deliver_stream with (ver := ver); try done;
    [apply env_malloc | apply env_delta | apply env_echo].
Qed.

(** C7: a stream of consecutively numbered messages, cut into foxtrot
    entries in any way, is delivered completely and in order: every message is
    stored under its number and put, byte for byte and with the offset of its
    type, on the echo queue (session messages) or the delta queue (all
    others), and the splitter is ready for the next number.  The messages are
    those with a regular type, shorter than [2 ^ 32] bytes, the session messages
    among them no larger than an entry of echo holds ([stream_ok]). *)
Theorem stream_delivered_in_order chunks ws seq st :
  wire_ok soh ver → concat chunks = stream start soh seq ws → Forall (λ c, zlen c < 2 ^ 32) chunks →
  ready seq st → 0 ≤ seq → seq + zlen ws < 2 ^ 64 - 1 → stream_ok start soh seq ws →
  ∃ st' evs, entries chunks st = Some st' ∧ ready (seq + zlen ws) st' ∧
    events st' = events st ++ evs ∧ stream_delivered start soh seq ws evs.
Proof. apply deliver_in_env. Qed.

(** C31: a message whose checksum digits are not those of its bytes leaves no
    trace (whatever its body and its last byte), and the messages after it, with
    session messages that fit an entry of echo ([stream_ok]), are delivered as if
    it had not been there. *)
Theorem corrupt_message_dropped body tag chk c chunks ws seq st :
  wire_ok soh ver → zlen tag = 3 → zlen chk = 3 → 0 < zlen body →
  let f := frame start soh body (tag ++ chk ++ [c]) in
  zlen f < 2 ^ 32 →
  chk ≠ padded 3 (byte_sum (start ++ dec (zlen body) ++ [soh] ++ body) mod 256) →
  concat chunks = f ++ stream start soh seq ws → Forall (λ c, zlen c < 2 ^ 32) chunks →
  ready seq st → 0 ≤ seq → seq + zlen ws < 2 ^ 64 - 1 → stream_ok start soh seq ws →
  ∃ st' evs, entries chunks st = Some st' ∧ ready (seq + zlen ws) st' ∧
    events st' = events st ++ evs ∧ stream_delivered start soh seq ws evs.
Proof.
  intros Hw. pose proof (start_of_ascii _ _ Hw). destruct Hw as (? & ? & ? & ? & ?). intros.
  eapply deliver_after_skip with (ver := ver); try done;
    [apply env_malloc | apply env_delta | apply env_echo |].
  eapply run_corrupt; try done. apply env_malloc.
Qed.
(** a gap in the sequence numbers is detected, but the answer is not a
    ResendRequest: the message built lacks SendingTime, [expose] refuses it,
    its result is not looked at, and [push] is called with indeterminate
    pointers: no behaviour is defined for a valid message with any number but
    the expected one. *)
Theorem gap_is_undefined mt n inner chunks seq st :
  wire_ok soh ver → 2 ≤ CACHE_LINE_SIZE → Forall (λ c, c ≠ soh) mt →
  0 ≤ n < 2 ^ 64 - 1 → 0 ≤ seq < 2 ^ 64 - 1 → n ≠ seq + 1 →
  let m := fix_message start soh (fix_body soh mt n (soh :: inner)) in
  zlen m < 2 ^ 32 → concat chunks = m → Forall (λ c, zlen c < 2 ^ 32) chunks →
  ready seq st → fresh_tx CACHE_LINE_SIZE (tx_resend st) →
  entries chunks st = None.
Proof.
  intros Hw. pose proof (start_of_ascii _ _ Hw). destruct Hw as (? & ? & ? & ? & ?).
  intros Hcl Hmt Hn Hseq Hne m Hlen Hcat Hcs Hr Hf. assert (He : expected st = seq) by apply Hr.
  eapply run_message_undefined; try done; [apply env_malloc | |].
  - intros o left ls t a _. rewrite fix_message_frame. eapply complete_gap with (ver := ver); try done.
    all: try (by rewrite He). by rewrite <- fix_message_frame.
  - rewrite length_fix_body. lia.
Qed.

(** a message in sequence whose MsgType value is empty is meant to be
    rejected, and has no defined behaviour for the same reason. *)
Theorem empty_type_is_undefined inner chunks seq st :
  wire_ok soh ver → 2 ≤ CACHE_LINE_SIZE → 0 ≤ seq < 2 ^ 64 - 2 →
  let m := fix_message start soh (fix_body soh [] (seq + 1) (soh :: inner)) in
  zlen m < 2 ^ 32 → concat chunks = m → Forall (λ c, zlen c < 2 ^ 32) chunks →
  ready seq st → fresh_tx CACHE_LINE_SIZE (tx_reject st) →
  entries chunks st = None.
Proof.
  intros Hw. pose proof (start_of_ascii _ _ Hw). destruct Hw as (? & ? & ? & ? & ?).
  intros Hcl Hseq m Hlen Hcat Hcs Hr Hf. assert (He : expected st = seq) by apply Hr. subst seq.
  eapply run_message_undefined; try done; [apply env_malloc | |].
  - intros o left ls t a Hls. rewrite fix_message_frame. eapply complete_empty_type with (ver := ver); try done.
    by rewrite <- fix_message_frame.
  - rewrite length_fix_body. lia.
Qed.

(** a session message longer than an echo entry is lost without being
    answered: nothing is stored or queued and its number stays expected, so a
    stream continues only when it is sent again under the same number. *)
Theorem oversized_session_message_lost mt inner chunks ws seq st :
  wire_ok soh ver → type_ok soh mt → mt ∈ fix_session_msgtype_string →
  let m := fix_message start soh (fix_body soh mt (seq + 1) (soh :: inner)) in
  ECHO_MAX_DATA_SIZE < zlen m < 2 ^ 32 →
  concat chunks = m ++ stream start soh seq ws → Forall (λ c, zlen c < 2 ^ 32) chunks →
  ready seq st → 0 ≤ seq → seq + zlen ws < 2 ^ 64 - 1 → seq < 2 ^ 64 - 2 →
  stream_ok start soh seq ws →
  ∃ st' evs, entries chunks st = Some st' ∧ ready (seq + zlen ws) st' ∧
    events st' = events st ++ evs ∧ stream_delivered start soh seq ws evs.
Proof.
  intros Hw. pose proof (start_of_ascii _ _ Hw). destruct Hw as (? & ? & ? & ? & ?).
  intros Hty Hin m [Hbig Hlen] Hcat Hcs Hr H0s Hmax Hmax2 Hok.
  eapply deliver_after_skip with (ver := ver) (f := m); try done;
    [apply env_malloc | apply env_delta | apply env_echo |].
  assert (He : expected st = seq) by apply Hr. subst seq.
  eapply run_oversized with (ver := ver); try done. apply env_malloc.
Qed.
(** from one pusher to the other side's splitter: the messages queued in
    [entries], sent in one batch by the pusher thread, arrive complete, in
    order and under the numbers the pusher gave them, wherever the transport
    cuts the stream. *)
Theorem pushed_messages_arrive IOV_MAX queued ws seq ints kernel vdata st :
  wire_ok soh ver → zlen start ≤ 31 →
  Forall2 entry_holds queued ws → queued ≠ [] → zlen ws < IOV_MAX → IOV_MAX ≤ zlen vdata →
  Forall interrupt ints → 0 ≤ seq → seq + zlen ws < 2 ^ 64 - 1 →
  zlen (stream start soh seq ws) < 2 ^ 64 → stream_ok start soh seq ws → ready seq st →
  ∃ b, push_alfa IOV_MAX (mkArgs start (zlen start) soh) queued seq
         (ints ++ WOk (zlen (stream start soh seq ws)) :: kernel) vdata = Some (Some 0, b) ∧
    ∀ chunks, concat chunks = b_out b → Forall (λ c, zlen c < 2 ^ 32) chunks →
    ∃ st' evs, entries chunks st = Some st' ∧ ready (b_seq b) st' ∧
      events st' = events st ++ evs ∧ stream_delivered start soh seq ws evs.
Proof.
  intros Hw. pose proof (start_of_ascii _ _ Hw). destruct Hw as (? & ? & ? & ? & ?).
  intros Hst Hq Hne Hn Hv Hi Hs Hmax Hbig Hok Hr.
  destruct (push_alfa_batch IOV_MAX start soh queued ws seq ints kernel vdata)
    as (b & Hb & Hout & Hseq & _); [done..| lia | done | done | done |].
  exists b. split; [done|]. intros chunks Hcat Hcs. rewrite Hseq. rewrite Hout in Hcat.
  eapply deliver_stream with (ver := ver); try done;
    [apply env_malloc | apply env_delta | apply env_echo].
Qed.

(** what [pop] and [session_pop] hand out for a delivered message is the
    message itself, its length and the place of its type. *)
Theorem delivered_message_popped n w evs :
  zlen (numbered start soh n w) < 2 ^ 32 →
  delivered n (type_offset start soh n w) (numbered start soh n w) (w_type w) evs →
  let ok d := read_at d 0 (zlen (numbered start soh n w)) = Some (numbered start soh n w) ∧
              read_at d (type_offset start soh n w) (zlen (w_type w)) = Some (w_type w) in
  ∃ stored queued, evs = [stored; queued] ∧
    stored = Stored n (zlen (numbered start soh n w)) (numbered start soh n w) ∧
    match queued with
    | ToDelta e => ∃ d, pop e = (zlen (numbered start soh n w), type_offset start soh n w, Block d,
                                 mkDelta 0 0 Null) ∧ ok d
    | ToEcho e => ∃ d, session_pop e = Some (zlen (numbered start soh n w), type_offset start soh n w, d) ∧ ok d
    | _ => False
    end.
Proof.
  intros Hlen Hd ok. pose proof (reads_message start soh n w) as Hm. pose proof (type_offset_small start soh n w Hlen) as Hoff.
  unfold delivered in Hd. case_match; destruct Hd as [t ->]; eexists _, _; (split; [done|]); (split; [done|]).
  - exists (numbered start soh n w ++ t). split; [by apply session_entry_view | apply Hm].
  - exists (numbered start soh n w ++ t). split; [done | apply Hm].
Qed.
End Properties.

(** ** A concrete session *)

Definition demo_ver : list Z := bytes_of_string "FIX.4.4".
Definition demo_heartbeat : waiting := mkWaiting [48] (0, 0) 1 (bytes_of_string "52=X" ++ [1]).
Definition demo_stream : list Z := stream (start_of 1 demo_ver) 1 7 [demo_waiting; demo_heartbeat].

Lemma demo_wire_ok : wire_ok 1 demo_ver.
Proof.
  unfold wire_ok. split_and!; try done; try lia.
  all: apply (bool_decide_unpack _); vm_compute; reflexivity.
Qed.

Lemma demo_ready : ready 7 (demo_splitter 7).
Proof. unfold ready, delta_ok. split_and!; vm_compute; (reflexivity || discriminate). Qed.

Lemma demo_type_ok c : 2 ≤ c < 256 → type_ok 1 [c].
Proof.
  intros Hc. unfold type_ok, bytes, is_byte. split_and!; [| | |done].
  all: constructor; [lia | constructor].
Qed.

Lemma demo_stream_ok : stream_ok (start_of 1 demo_ver) 1 7 [demo_waiting; demo_heartbeat].
Proof.
  cbn [stream_ok]. split_and!; try (apply demo_type_ok; cbn; lia); try (vm_compute; reflexivity).
  all: try (intros _; vm_compute; discriminate).
Qed.

Lemma stream_delivered_in_order_witness :
  ∃ st' evs,
    splitter_entries (start_of 1 demo_ver ++ 0 :: []) (zlen (start_of 1 demo_ver)) 1
      FixMessageTX.malloc_ok demo_delta demo_echo 64 FixMessageTX.malloc_ok FixMessageTX.realloc_ok demo_rx
      [take 17 demo_stream; drop 17 demo_stream] (demo_splitter 7) = Some st' ∧
    ready (7 + 2) st' ∧ events st' = events (demo_splitter 7) ++ evs ∧
    stream_delivered (start_of 1 demo_ver) 1 7 [demo_waiting; demo_heartbeat] evs.
Proof.
  apply (stream_delivered_in_order 1 demo_ver [] FixMessageTX.malloc_ok demo_delta demo_echo 64
    FixMessageTX.malloc_ok FixMessageTX.realloc_ok demo_rx [take 17 demo_stream; drop 17 demo_stream]
    [demo_waiting; demo_heartbeat] 7 (demo_splitter 7)).
  - exact demo_wire_ok.
  - cbn [concat]. by rewrite app_nil_r, take_drop.
  - repeat constructor; vm_compute; reflexivity.
  - exact demo_ready.
  - lia.
  - reflexivity.
  - exact demo_stream_ok.
Defined.

Lemma corrupt_message_dropped_witness :
  let f := frame (start_of 1 demo_ver) 1 [65] [49; 48; 61; 48; 48; 48; 1] in
  ∃ st' evs,
    splitter_entries (start_of 1 demo_ver ++ 0 :: []) (zlen (start_of 1 demo_ver)) 1
      FixMessageTX.malloc_ok demo_delta demo_echo 64 FixMessageTX.malloc_ok FixMessageTX.realloc_ok demo_rx
      [f ++ demo_stream] (demo_splitter 7) = Some st' ∧
    ready (7 + 2) st' ∧ events st' = events (demo_splitter 7) ++ evs ∧
    stream_delivered (start_of 1 demo_ver) 1 7 [demo_waiting; demo_heartbeat] evs.
Proof.
  intros f.
  apply (corrupt_message_dropped 1 demo_ver [] FixMessageTX.malloc_ok demo_delta demo_echo 64
    FixMessageTX.malloc_ok FixMessageTX.realloc_ok demo_rx [65] [49; 48; 61] [48; 48; 48] 1
    [f ++ demo_stream] [demo_waiting; demo_heartbeat] 7 (demo_splitter 7)).
  - exact demo_wire_ok.
  - reflexivity.
  - reflexivity.
  - reflexivity.
  - vm_compute. reflexivity.
  - vm_compute. discriminate.
  - cbn [concat]. by rewrite app_nil_r.
  - repeat constructor; vm_compute; reflexivity.
  - exact demo_ready.
  - lia.
  - reflexivity.
  - exact demo_stream_ok.
Defined.

Lemma demo_fresh_tx : fresh_tx 64 demo_tx.
Proof.
  split; [|split_and!; vm_compute; reflexivity].
  exists (replicate 2047 0). split_and!; vm_compute; reflexivity.
Qed.

Lemma gap_is_undefined_witness :
  splitter_entries (start_of 1 demo_ver ++ 0 :: []) (zlen (start_of 1 demo_ver)) 1
    FixMessageTX.malloc_ok demo_delta demo_echo 64 FixMessageTX.malloc_ok FixMessageTX.realloc_ok demo_rx
    [fix_message (start_of 1 demo_ver) 1 (fix_body 1 [68] 10 [1; 65; 1])] (demo_splitter 7) = None.
Proof.
  apply (gap_is_undefined 1 demo_ver [] FixMessageTX.malloc_ok demo_delta demo_echo 64
    FixMessageTX.malloc_ok FixMessageTX.realloc_ok demo_rx [68] 10 [65; 1]
    [fix_message (start_of 1 demo_ver) 1 (fix_body 1 [68] 10 [1; 65; 1])] 7 (demo_splitter 7)).
  - exact demo_wire_ok.
  - lia.
  - by repeat constructor.
  - lia.
  - lia.
  - lia.
  - vm_compute. reflexivity.
  - cbn [concat]. by rewrite app_nil_r.
  - repeat constructor; vm_compute; reflexivity.
  - exact demo_ready.
  - exact demo_fresh_tx.
Defined.

Lemma empty_type_is_undefined_witness :
  splitter_entries (start_of 1 demo_ver ++ 0 :: []) (zlen (start_of 1 demo_ver)) 1
    FixMessageTX.malloc_ok demo_delta demo_echo 64 FixMessageTX.malloc_ok FixMessageTX.realloc_ok demo_rx
    [fix_message (start_of 1 demo_ver) 1 (fix_body 1 [] 8 [1; 65; 1])] (demo_splitter 7) = None.
Proof.
  apply (empty_type_is_undefined 1 demo_ver [] FixMessageTX.malloc_ok demo_delta demo_echo 64
    FixMessageTX.malloc_ok FixMessageTX.realloc_ok demo_rx [65; 1]
    [fix_message (start_of 1 demo_ver) 1 (fix_body 1 [] 8 [1; 65; 1])] 7 (demo_splitter 7)).
  - exact demo_wire_ok.
  - lia.
  - lia.
  - vm_compute. reflexivity.
  - cbn [concat]. by rewrite app_nil_r.
  - repeat constructor; vm_compute; reflexivity.
  - exact demo_ready.
  - exact demo_fresh_tx.
Defined.

Definition demo_large_logon : list Z :=
  fix_message (start_of 1 demo_ver) 1 (fix_body 1 [65] 8 (1 :: replicate 600 65 ++ [1])).

Lemma oversized_session_message_lost_witness :
  ∃ st' evs,
    splitter_entries (start_of 1 demo_ver ++ 0 :: []) (zlen (start_of 1 demo_ver)) 1
      FixMessageTX.malloc_ok demo_delta demo_echo 64 FixMessageTX.malloc_ok FixMessageTX.realloc_ok demo_rx
      [demo_large_logon; demo_stream] (demo_splitter 7) = Some st' ∧
    ready (7 + 2) st' ∧ events st' = events (demo_splitter 7) ++ evs ∧
    stream_delivered (start_of 1 demo_ver) 1 7 [demo_waiting; demo_heartbeat] evs.
Proof.
  apply (oversized_session_message_lost 1 demo_ver [] FixMessageTX.malloc_ok demo_delta demo_echo 64
    FixMessageTX.malloc_ok FixMessageTX.realloc_ok demo_rx [65] (replicate 600 65 ++ [1])
    [demo_large_logon; demo_stream] [demo_waiting; demo_heartbeat] 7 (demo_splitter 7)).
  - exact demo_wire_ok.
  - apply demo_type_ok. lia.
  - apply (bool_decide_unpack _). vm_compute. reflexivity.
  - split; vm_compute; reflexivity.
  - cbn [concat]. by rewrite app_nil_r.
  - repeat constructor; vm_compute; reflexivity.
  - exact demo_ready.
  - lia.
  - reflexivity.
  - lia.
  - exact demo_stream_ok.
Defined.

Definition demo_heartbeat_entry : list Z :=
  default [] (fill_entry (replicate 280 0) (0, 0) (w_partial demo_heartbeat) [48; 0]).

Lemma demo_heartbeat_entry_holds : entry_holds demo_heartbeat_entry demo_heartbeat.
Proof.
  exists (take 260 demo_heartbeat_entry), (drop 269 demo_heartbeat_entry).
  repeat split; vm_compute; (reflexivity || discriminate).
Qed.

Lemma pushed_messages_arrive_witness :
  ∃ b, push_alfa 4 (mkArgs (start_of 1 demo_ver) (zlen (start_of 1 demo_ver)) 1)
         [demo_entry; demo_heartbeat_entry] 7 ([WErr EINTR] ++ WOk (zlen demo_stream) :: [])
         (replicate 4 (mkIov [] 0)) = Some (Some 0, b) ∧
    ∀ chunks, concat chunks = b_out b → Forall (λ c, zlen c < 2 ^ 32) chunks →
    ∃ st' evs,
      splitter_entries (start_of 1 demo_ver ++ 0 :: []) (zlen (start_of 1 demo_ver)) 1
        FixMessageTX.malloc_ok demo_delta demo_echo 64 FixMessageTX.malloc_ok FixMessageTX.realloc_ok demo_rx
        chunks (demo_splitter 7) = Some st' ∧
      ready (b_seq b) st' ∧ events st' = events (demo_splitter 7) ++ evs ∧
      stream_delivered (start_of 1 demo_ver) 1 7 [demo_waiting; demo_heartbeat] evs.
Proof.
  apply (pushed_messages_arrive 1 demo_ver [] FixMessageTX.malloc_ok demo_delta demo_echo 64
    FixMessageTX.malloc_ok FixMessageTX.realloc_ok demo_rx 4 [demo_entry; demo_heartbeat_entry]
    [demo_waiting; demo_heartbeat] 7 [WErr EINTR] [] (replicate 4 (mkIov [] 0)) (demo_splitter 7)).
  - exact demo_wire_ok.
  - vm_compute. discriminate.
  - constructor; [exact demo_entry_holds|]. constructor; [exact demo_heartbeat_entry_holds | constructor].
  - discriminate.
  - reflexivity.
  - discriminate.
  - constructor; [by right | constructor].
  - lia.
  - reflexivity.
  - vm_compute. reflexivity.
  - exact demo_stream_ok.
  - exact demo_ready.
Defined.

Lemma delivered_message_popped_witness :
  let m := numbered (start_of 1 demo_ver) 1 8 demo_heartbeat in
  let off := type_offset (start_of 1 demo_ver) 1 8 demo_heartbeat in
  let ok d := read_at d 0 (zlen m) = Some m ∧ read_at d off (zlen [48]) = Some [48] in
  ∃ stored queued,
    [Stored 8 (zlen m) m; ToEcho (be_bytes 4 (zlen m) ++ be_bytes 4 off ++ m ++ [])] = [stored; queued] ∧
    stored = Stored 8 (zlen m) m ∧
    match queued with
    | ToDelta e => ∃ d, pop e = (zlen m, off, Block d, mkDelta 0 0 Null) ∧ ok d
    | ToEcho e => ∃ d, session_pop e = Some (zlen m, off, d) ∧ ok d
    | _ => False
    end.
Proof.
  intros m off ok.
  apply (delivered_message_popped 1 demo_ver 8 demo_heartbeat).
  - vm_compute. reflexivity.
  - unfold delivered. rewrite bool_decide_eq_true_2 by (apply (bool_decide_unpack _); vm_compute; reflexivity).
    exists []. reflexivity.
Defined.
