(* ===== verification/Feeding.v ===== *)
(** * The splitter one round at a time
    ([splitter_thread_func] of [src/applib/fixio/fix_popper.cpp])

    [Splitter] runs the loop over whole foxtrot entries; on the rings of
    [Reception] other threads act between two rounds.  [fed] says that a state of
    the splitter lies on the way through given entries.  The lemmas say what a
    round puts on the queues (one entry at most), that it depends on the echo
    entries only through the one it commits, and that what a splitter has queued
    on the way is a beginning of what it queues in the end. *)
From S2P Require Import Prelude Primitives FixMsgUtils FixTypes FixFields FixMessageRX FixMessageTX Splitter.

Definition is_queued (e : event) : bool := match e with ToDelta _ | ToEcho _ => true | _ => false end.

(** The entries committed, in order. *)
Definition queued (evs : list event) : list event := List.filter is_queued evs.

Definition delta_entries (evs : list event) : list delta_t :=
  omap (λ e, match e with ToDelta d => Some d | _ => None end) evs.
Definition echo_entries (evs : list event) : list (list Z) :=
  omap (λ e, match e with ToEcho d => Some d | _ => None end) evs.

Lemma delta_entries_app a b : delta_entries (a ++ b) = delta_entries a ++ delta_entries b.
Proof. apply omap_app. Qed.
Lemma echo_entries_app a b : echo_entries (a ++ b) = echo_entries a ++ echo_entries b.
Proof. apply omap_app. Qed.

Lemma queued_delta evs : delta_entries (queued evs) = delta_entries evs.
Proof. induction evs as [|[] evs IH]; cbn; unfold delta_entries, queued in *; congruence. Qed.
Lemma queued_echo evs : echo_entries (queued evs) = echo_entries evs.
Proof. induction evs as [|[] evs IH]; cbn; unfold echo_entries, queued in *; congruence. Qed.

Section Rounds.
Context (begin_string : list Z) (begin_string_length : Z) (soh : Z).
Context (malloc : nat → Z → option (list Z)).
Context (acquire_delta : nat → delta_t).
Context (CACHE_LINE_SIZE : Z) (tx_malloc : nat → Z → option (list Z))
        (tx_realloc : nat → Z → option (bool * list Z)).
Context (fixmsg_rx : FIXMessageRX).
Implicit Types (E : nat → list Z) (st : splitter).

#[local] Abbreviation complete E := (message_complete begin_string_length soh acquire_delta E
  CACHE_LINE_SIZE tx_malloc tx_realloc fixmsg_rx).
#[local] Abbreviation copy E := (copying_body begin_string_length soh acquire_delta E
  CACHE_LINE_SIZE tx_malloc tx_realloc fixmsg_rx).
#[local] Abbreviation step E := (splitter_step begin_string begin_string_length soh malloc acquire_delta
  E CACHE_LINE_SIZE tx_malloc tx_realloc fixmsg_rx).
#[local] Abbreviation run E := (run begin_string begin_string_length soh malloc acquire_delta
  E CACHE_LINE_SIZE tx_malloc tx_realloc fixmsg_rx).
#[local] Abbreviation entries E := (splitter_entries begin_string begin_string_length soh malloc acquire_delta
  E CACHE_LINE_SIZE tx_malloc tx_realloc fixmsg_rx).

(** ** What a round puts on the queues *)

(** Nothing, a delta entry or an echo entry, after which the next one is held. *)
Inductive queues (st st' : splitter) (held : list Z) : list event → Prop :=
  | queues_nothing evs :
      queued evs = [] → ndelta st' = ndelta st → necho st' = necho st → queues st st' held evs
  | queues_delta evs d :
      queued evs = [ToDelta d] → ndelta st' = S (ndelta st) → necho st' = necho st →
      delta_entry st' = acquire_delta (ndelta st) → queues st st' held evs
  | queues_echo evs e :
      queued evs = [ToEcho e] → ndelta st' = ndelta st → necho st' = S (necho st) →
      zlen e = zlen held → queues st st' held evs.

(** [f], a computation that has an echo entry at its disposal, does not look at
    it, or commits it. *)
Inductive shape (f : (nat → list Z) → option splitter) st : Prop :=
  | shape_fixed x :
      (∀ E, f E = x) →
      (∀ st', x = Some st' → necho st' = necho st ∧
        ∃ evs, events st' = events st ++ evs ∧ ∀ held, queues st st' held evs) → shape f st
  | shape_echo n off d st1 :
      (∀ E, f E = commit_echo E n off d st1) → traces st1 = traces st → shape f st.

Lemma shape_traces f st st1 : shape f st1 → traces st1 = traces st → shape f st.
Proof.
  intros [x Hx Hq|n off d st2 Hf Ht] [= He Hd Hc].
  - eapply shape_fixed; [exact Hx|]. intros st' E. destruct (Hq st' E) as (Hn & evs & Hev & Hqs).
    split; [congruence|]. exists evs. split; [congruence|]. intros held. destruct (Hqs held).
    + apply queues_nothing; congruence.
    + apply queues_delta with d; congruence.
    + apply queues_echo with e; congruence.
  - eapply shape_echo; [exact Hf|]. rewrite Ht. by unfold traces; rewrite He, Hd, Hc.
Qed.

Lemma shape_none st f : (∀ E, f E = None) → shape f st.
Proof. intros H. by eapply shape_fixed. Qed.

Lemma shape_quiet f st st' evs : (∀ E, f E = Some st') → queued evs = [] → events st' = events st ++ evs →
  ndelta st' = ndelta st → necho st' = necho st → shape f st.
Proof.
  intros Hf Hq He Hd Hn. eapply shape_fixed; [exact Hf|]. intros x [= <-]. split; [done|].
  exists evs. split; [done|]. intros held. by apply queues_nothing.
Qed.

Lemma shape_ext f g st : (∀ E, f E = g E) → shape g st → shape f st.
Proof.
  intros H [x Hx Hq|n off d st2 Hf Ht]; [eapply shape_fixed | eapply shape_echo]; try done; intros; by rewrite H.
Qed.

(** A first action that does not look at the echo entry. *)
Lemma shape_bind {A} (x : option A) (g : A → (nat → list Z) → option splitter) st :
  (∀ a, x = Some a → shape (g a) st) → shape (λ E, x ≫= λ a, g a E) st.
Proof. intros H. destruct x; [by apply H | by apply shape_none]. Qed.

Lemma complete_shape st : shape (λ E, complete E st) st.
Proof.
  unfold message_complete. apply shape_bind. intros d _. apply shape_bind. intros summed _.
  apply shape_bind. intros chk _. case_match.
  { apply (shape_quiet _ st st []); try done. by rewrite app_nil_r. }
  apply shape_bind. intros [[recieved d'] over] _. cbv zeta.
  case_match.
  { apply shape_bind. intros [tx ev] Hev. apply (shape_quiet _ st _ ev (λ _, eq_refl)); try done.
    exact (answers_pushed _ _ _ is_queued _ _ [] _ _ (λ _, eq_refl) (or_intror Hev)). }
  apply shape_bind. intros ls _. apply shape_bind. intros c _. case_match.
  { apply shape_bind. intros [tx ev] Hev. apply (shape_quiet _ st _ ev (λ _, eq_refl)); try done.
    exact (answers_pushed _ _ _ is_queued _ _ _ _ _ (λ _, eq_refl) (or_introl Hev)). }
  apply shape_bind. intros t _. apply shape_bind. intros [] Hs; cbn [negb].
  - case_match.
    + apply (shape_quiet _ st _ [] (λ _, eq_refl)); try done. by rewrite app_nil_r.
    + by eapply shape_echo.
  - rewrite nonsession_not_resend by done. cbn [negb]. eapply shape_fixed; [done|].
    intros x [= <-]. split; [done|]. eexists. split; [reflexivity|]. intros held. by eapply queues_delta.
Qed.
Definition keeps (G : splitter → Z * splitter) : Prop :=
  ∀ y, traces (G y).2 = traces y ∧ delta_entry (G y).2 = delta_entry y.

Lemma step_shape content k st : ∃ f G, (∀ E, step E content k st = G <$> f E) ∧ shape f st ∧ keeps G.
Proof.
  assert (Hnone : (∀ E, step E content k st = None) → ∃ f G, (∀ E, step E content k st = G <$> f E) ∧ shape f st ∧ keeps G).
  { intros H. exists (λ _, None), (pair 0). split; [done|]. split; [by apply shape_none | done]. }
  destruct (get_at content k) as [c|] eqn:Ec.
  2: { apply Hnone. intros E. by rewrite splitter_step_eq, Ec. }
  destruct (pre_step begin_string begin_string_length soh malloc c st) as [[cp x]|] eqn:Ep.
  2: { apply Hnone. intros E. rewrite splitter_step_eq, Ec. obind. by rewrite Ep. }
  assert (Heq : ∀ E, step E content k st = if cp then copy E content k x else Some (k + 1, x)).
  { intros E. rewrite splitter_step_eq, Ec. obind. by rewrite Ep. }
  apply pre_step_traces in Ep. assert (Hx : ∀ x', traces x' = traces st → shape (λ _, Some x') st).
  { intros x' [= He Hd Hn]. apply (shape_quiet _ st x' []); try done. by rewrite app_nil_r. }
  destruct cp; [|exists (λ _, Some x), (pair (k + 1)); split; [done | split; [by apply Hx | done]]].
  unfold copying_body in Heq. destruct (deref _) as [d|]; [|by apply Hnone].
  destruct (bytes_left_to_copy x <=? zlen content - k).
  - destruct (read_at content k _) as [chunk|]; [|by apply Hnone]. revert Heq. obind. intros Heq.
    destruct (write_at d _ chunk) as [d'|]; [|by apply Hnone]. revert Heq. obind. intros Heq.
    eexists (λ E, complete E (set_data d' x)), (λ y, (_, set_parse FindingBeginString (l y) y)).
    split; [intros E; rewrite Heq; destruct (complete E _); reflexivity|].
    split; [|done]. eapply shape_traces; [apply complete_shape | done].
  - destruct (read_at content k _) as [chunk|]; [|by apply Hnone]. revert Heq. obind. intros Heq.
    destruct (write_at d _ chunk) as [d'|]; [|by apply Hnone]. revert Heq. obind. intros Heq.
    eexists (λ _, Some (set_data d' x)), (λ y, (_, set_copy _ _ y)).
    split; [intros E; rewrite Heq; reflexivity|]. split; [by apply Hx | done].
Qed.

Lemma commit_echo_queues E n off d st st' : commit_echo E n off d st = Some st' →
  ∃ evs, events st' = events st ++ evs ∧ queues st st' (E (necho st)) evs.
Proof.
  unfold commit_echo. opt_case; [|done]. rewrite !setu32_be. opt_case; [|done]. rewrite setu32_be. opt_case; [|done]. opt_case; [|done].
  intros [= <-]. eexists. split; [reflexivity|]. eapply queues_echo; [reflexivity|done|done|].
  repeat match goal with H : write_at _ _ _ = Some _ |- _ => apply write_at_length in H end. lia.
Qed.

(** A round puts one entry at most on the queues. *)
Lemma step_queues E content k st k' st' : step E content k st = Some (k', st') →
  ∃ evs, events st' = events st ++ evs ∧ queues st st' (E (necho st)) evs.
Proof.
  destruct (step_shape content k st) as (f & G & Heq & Hs & HG). rewrite Heq.
  destruct (f E) as [y|] eqn:Ef; [|done]. intros [= Hy].
  assert (H : ∃ evs, events y = events st ++ evs ∧ queues st y (E (necho st)) evs).
  { destruct Hs as [x Hx Hq|n off d st1 Hf Ht].
    - rewrite Hx in Ef. destruct (Hq y Ef) as (_ & evs & He & Hqs). eauto.
    - rewrite Hf in Ef. apply commit_echo_queues in Ef as (evs & He & Hq). injection Ht as H1 H2 H3.
      exists evs. split; [congruence|]. destruct Hq; [apply queues_nothing | eapply queues_delta | eapply queues_echo]; try done; congruence. }
  destruct (HG y) as [Ht Hd]. rewrite Hy in Ht, Hd. cbn [snd] in Ht, Hd. injection Ht as H1 H2 H3.
  destruct H as (evs & He & Hq). exists evs. split; [congruence|].
  destruct Hq; [apply queues_nothing | eapply queues_delta | eapply queues_echo]; try done; congruence.
Qed.

(** It looks at the echo entry it holds only. *)
Lemma step_echo E E' content k st : E (necho st) = E' (necho st) → step E content k st = step E' content k st.
Proof.
  intros HE. destruct (step_shape content k st) as (f & G & Heq & Hs & _). rewrite !Heq. f_equal.
  destruct Hs as [x Hx _|n off d st1 Hf [= _ _ Hn]]; [by rewrite !Hx|].
  rewrite !Hf. unfold commit_echo. by rewrite Hn, HE.
Qed.

Lemma step_echo_before E E' content k st k' st' : step E content k st = Some (k', st') →
  (∀ i, (i < necho st')%nat → E i = E' i) → step E' content k st = Some (k', st').
Proof.
  intros H HE. destruct (step_shape content k st) as (f & G & Heq & Hs & HG). rewrite Heq in H |- *.
  destruct Hs as [x Hx _|n off d st1 Hf [= _ _ Hn]]; [by rewrite Hx in H |- *|]. rewrite Hf in H |- *.
  destruct (commit_echo E n off d st1) as [y|] eqn:Ey; [|done]. injection H as Hy.
  assert (Hc : necho st' = S (necho st)).
  { destruct (HG y) as [[= _ _ Hne] _]. rewrite Hy in Hne. cbn [snd] in Hne. rewrite Hne.
    unfold commit_echo in Ey. revert Ey. repeat (opt_case; [|done]). intros [= <-]. cbn. by rewrite Hn. }
  rewrite <- Hy. unfold commit_echo in Ey |- *. rewrite Hn, <- HE, <- Hn by lia. by rewrite Ey.
Qed.

(** ** On the way through the entries *)

(** The splitter began in [st0], has done with the entries [passed] and is in
    state [st] at position [k] of the next one, whose content is [c]. *)
Inductive fed E (st0 : splitter) : list (list Z) → list Z → Z → splitter → Prop :=
  | fed_start c : fed E st0 [] c 0 st0
  | fed_step passed c k st k' st' :
      fed E st0 passed c k st → k < zlen c → step E c k st = Some (k', st') → fed E st0 passed c k' st'
  | fed_next passed c k st c' :
      fed E st0 passed c k st → zlen c ≤ k → fed E st0 (passed ++ [c]) c' 0 st.

Lemma step_necho E content k st k' st' : step E content k st = Some (k', st') → (necho st ≤ necho st')%nat.
Proof. intros H. apply step_queues in H as (evs & _ & []); lia. Qed.

(** Echo entries that are not claimed yet make no difference. *)
Lemma fed_before E E' st0 passed c k st : fed E st0 passed c k st →
  (∀ i, (i < necho st)%nat → E i = E' i) → fed E' st0 passed c k st.
Proof.
  induction 1 as [c|passed c k st k' st' Hf IH Hk Hs|passed c k st c' Hf IH Hk]; intros HE; [by constructor|..].
  - pose proof (step_necho _ _ _ _ _ _ Hs). eapply fed_step; [apply IH; intros; apply HE; lia | done |].
    by eapply step_echo_before.
  - eapply fed_next; [by apply IH | done].
Qed.

Lemma fed_events E st0 passed c k st : fed E st0 passed c k st → events st0 `prefix_of` events st.
Proof.
  induction 1 as [c|passed c k st k' st' Hf IH Hk Hs|passed c k st c' Hf IH Hk]; [done|..|done].
  apply step_queues in Hs as (evs & -> & _). by apply prefix_app_r.
Qed.

Lemma entries_app E a : ∀ b s, entries E (a ++ b) s = s' ← entries E a s; entries E b s'.
Proof.
  induction a as [|x a IH]; intros b s; [done|]. cbn [app splitter_entries].
  destruct (splitter_entry _ _ _ _ _ _ _ _ _ _ x s); obind; [apply IH | done].
Qed.

Section Bounded.
Context (soh_digit : isdigit soh = false).
Context (st0 : splitter) (st0_left : 0 ≤ bytes_left_to_copy st0 < 2 ^ 32).

Lemma fed_bounds E passed c k st : fed E st0 passed c k st → Forall (λ c, zlen c < 2 ^ 32) passed → zlen c < 2 ^ 32 →
  0 ≤ bytes_left_to_copy st < 2 ^ 32 ∧ 0 ≤ k.
Proof using soh_digit st0_left.
  induction 1 as [c|passed c k st k' st' Hf IH Hk Hs|passed c k st c' Hf IH Hk]; intros Hp Hc; [done|..].
  - destruct (IH Hp Hc) as [? ?]. apply step_progress in Hs as (? & ? & _); done.
  - apply Forall_app in Hp as [Hp Hc2]. inversion Hc2; subst. split; [by apply IH | done].
Qed.

(** What is left to do from a state on the way is what [splitter_entries] has
    left to do. *)
Lemma fed_entries E passed c k st : fed E st0 passed c k st → Forall (λ c, zlen c < 2 ^ 32) passed → zlen c < 2 ^ 32 →
  entries E (passed ++ [c]) st0 = run E c k st.
Proof using soh_digit st0_left.
  assert (Hone : ∀ x s, entries E [x] s = run E x 0 s).
  { intros x s. cbn [splitter_entries]. unfold splitter_entry, Splitter.run. by destruct (splitter_loop _ _ _ _ _ _ _ _ _ _ _ x 0 s). }
  induction 1 as [c|passed c k st k' st' Hf IH Hk Hs|passed c k st c' Hf IH Hk]; intros Hp Hc.
  - cbn [app]. apply Hone.
  - rewrite IH by done. destruct (fed_bounds _ _ _ _ _ Hf Hp Hc) as [? ?].
    rewrite run_eq by done. rewrite (proj2 (Z.ltb_lt _ _)) by done. by rewrite Hs.
  - apply Forall_app in Hp as [Hp Hc2]. inversion Hc2; subst.
    destruct (fed_bounds _ _ _ _ _ Hf Hp ltac:(done)) as [? ?].
    rewrite entries_app, IH, run_eq by done. rewrite (proj2 (Z.ltb_ge _ _)) by done. obind. apply Hone.
Qed.

Lemma run_events E c k st st' : zlen c < 2 ^ 32 → 0 ≤ bytes_left_to_copy st < 2 ^ 32 → 0 ≤ k →
  run E c k st = Some st' → events st `prefix_of` events st'.
Proof using soh_digit.
  intros Hc H0 Hk. revert k st H0 Hk.
  apply (run_ind begin_string begin_string_length soh malloc acquire_delta E CACHE_LINE_SIZE tx_malloc tx_realloc fixmsg_rx c
           (λ k st, run E c k st = Some st' → events st `prefix_of` events st')); [done..|].
  intros k st H0 Hk IH. rewrite run_eq by done. destruct (Z.ltb_spec k (zlen c)); [|by intros [= <-]].
  destruct (step E c k st) as [[k1 st1]|] eqn:Es; obind; [|done]. intros Hr.
  apply step_progress in Es as Hp; [|done..]. destruct Hp as (? & ? & _).
  etrans; [|apply (IH k1 st1); done]. apply step_queues in Es as (evs & -> & _). by apply prefix_app_r.
Qed.
Lemma entries_events E cs : ∀ st st', Forall (λ c, zlen c < 2 ^ 32) cs → 0 ≤ bytes_left_to_copy st < 2 ^ 32 →
  entries E cs st = Some st' → events st `prefix_of` events st'.
Proof using soh_digit.
  induction cs as [|c cs IH]; intros st st' Hcs H0; [by intros [= <-]|]. apply Forall_cons in Hcs as [Hc Hcs].
  cbn [splitter_entries].
  change (splitter_entry _ _ _ _ _ _ _ _ _ _ c st) with (run E c 0 st).
  destruct (run E c 0 st) as [st1|] eqn:E1; obind; [|done]. intros H. etrans; [by eapply (run_events E c 0 st st1)|].
  apply run_left in E1; [|done..]. by eapply IH.
Qed.

(** On the way through a beginning of entries that can be gone through to the
    end, every round has a result, and what has been committed is a beginning of
    what will have been. *)
Lemma fed_inside E passed c rest k st st2 : fed E st0 passed c k st →
  Forall (λ c, zlen c < 2 ^ 32) (passed ++ c :: rest) → entries E (passed ++ c :: rest) st0 = Some st2 →
  (k < zlen c → step E c k st ≠ None) ∧ events st `prefix_of` events st2.
Proof using soh_digit st0_left.
  intros Hf Hlen Hrun. pose proof Hlen as Hall. apply Forall_app in Hall as [Hp Hcr]. apply Forall_cons in Hcr as [Hc Hr].
  destruct (fed_bounds _ _ _ _ _ Hf Hp Hc) as [H0 Hk].
  change (passed ++ c :: rest) with (passed ++ [c] ++ rest) in Hrun.
  rewrite app_assoc, entries_app, (fed_entries _ _ _ _ _ Hf Hp Hc) in Hrun.
  destruct (run E c k st) as [st1|] eqn:E1; [|done]. revert Hrun. obind. intros Hrun. split.
  - intros Hlt Hnone. rewrite run_eq in E1 by done. rewrite (proj2 (Z.ltb_lt _ _)) in E1 by done. by rewrite Hnone in E1.
  - etrans; [by eapply (run_events E c k st st1)|]. apply run_left in E1; [|done..]. by eapply entries_events.
Qed.
End Bounded.
End Rounds.
