(* ===== verification/Disruptor.v ===== *)
(** * The disruptor: [src/stdlib/disruptor/disruptor.h]

    A ring buffer with several publishers and several entry processors
    (readers).  Every access to a shared cursor is one step, and the threads
    are interleaved in any order; memory is sequentially consistent.  A
    publisher is the client of [publisher_next_entry] (blocking or not), which
    then writes its entry and calls [publisher_commit_entry]; a reader is the
    client of [wait_for], which reads the entries it was granted one by one and
    releases each. *)
From S2P Require Import Prelude.

Definition VACANT : Z := 2 ^ 64 - 1.

Record ring (A : Type) := mkRing {
  reduced_size : Z;
  slowest_entry_processor : Z;
  max_read_cursor : Z;
  write_cursor : Z;
  entry_processor_cursors : list Z;
  buffer : list A }.
Arguments mkRing {A}.
Arguments reduced_size {A}.
Arguments slowest_entry_processor {A}.
Arguments max_read_cursor {A}.
Arguments write_cursor {A}.
Arguments entry_processor_cursors {A}.
Arguments buffer {A}.

Section Ring.
Context {A : Type}.
Implicit Types (r : ring A).

(** [ring_buffer_init]; [content] is the zero filled buffer. *)
Definition ring_buffer_init (processors : nat) (content : list A) : ring A :=
  mkRing (zlen content - 1) 0 0 0 (replicate processors VACANT) content.

(** The index [ring_buffer_show_entry] and [ring_buffer_acquire_entry] use. *)
Definition entry_index r (sequence : Z) : Z := Z.land (reduced_size r) sequence.

Definition show_entry r (sequence : Z) : option A := buffer r !! Z.to_nat (entry_index r sequence).

Definition set_cursors (c : list Z) r : ring A :=
  mkRing (reduced_size r) (slowest_entry_processor r) (max_read_cursor r) (write_cursor r) c (buffer r).
Definition set_slowest (z : Z) r : ring A :=
  mkRing (reduced_size r) z (max_read_cursor r) (write_cursor r) (entry_processor_cursors r) (buffer r).
Definition set_max_read (z : Z) r : ring A :=
  mkRing (reduced_size r) (slowest_entry_processor r) z (write_cursor r) (entry_processor_cursors r) (buffer r).
Definition set_write (z : Z) r : ring A :=
  mkRing (reduced_size r) (slowest_entry_processor r) (max_read_cursor r) z (entry_processor_cursors r) (buffer r).
Definition set_buffer (b : list A) r : ring A :=
  mkRing (reduced_size r) (slowest_entry_processor r) (max_read_cursor r) (write_cursor r)
    (entry_processor_cursors r) b.

(** [entry_processor_barrier_register] once the compare and exchange succeeds
    on spot [n]: the sequence to begin with and the ring. *)
Definition register (n : nat) r : option (Z * ring A) :=
  c ← entry_processor_cursors r !! n;
  if c =? VACANT then
    let s := slowest_entry_processor r in
    if s =? 0 then Some (1, set_cursors (<[n := 1]> (entry_processor_cursors r)) r)
    else Some (s, set_cursors (<[n := s]> (entry_processor_cursors r)) r)
  else None.

Definition unregister (n : nat) r : ring A := set_cursors (<[n := VACANT]> (entry_processor_cursors r)) r.

Definition release_entry (n : nat) (sequence : Z) r : ring A :=
  set_cursors (<[n := sequence]> (entry_processor_cursors r)) r.

(** ** Publishers

    [PScan b s k m]: in the loop over the cursors, at [k], the slowest so far
    is [m]; [b] tells the blocking version.  [PCas s]: before the compare and
    exchange of the other version.  [PGranted s]: the call has returned [s].
    [PWritten s v]: [v] is in the entry, [commit] waits for its turn.
    [PCommit s v]: it has seen it. *)
Inductive publisher :=
  | PIdle
  | PScan (blocking : bool) (incur : Z) (n : nat) (slowest_reader : Z)
  | PCas (incur : Z)
  | PGranted (s : Z)
  | PWritten (s : Z) (v : A)
  | PCommit (s : Z) (v : A).

(** A call of one of the two versions. *)
Definition pub_start (blocking : bool) r : ring A * publisher :=
  let incur := u64 (1 + write_cursor r) in
  if blocking then (set_write incur r, PScan true incur 0 VACANT)
  else (r, PScan false incur 0 VACANT).

(** The end of the loop: the slowest reader is stored and compared. *)
Definition pub_check (blocking : bool) (incur m : Z) r : ring A * publisher :=
  let m := if VACANT =? m then u64 (incur - Z.land (reduced_size r) incur) else m in
  let r := set_slowest m r in
  if u64 (incur - m) <=? reduced_size r
  then (r, if blocking then PGranted incur else PCas incur)
  else (r, if blocking then PScan true incur 0 VACANT else PIdle).

(** One step of a publisher; [v] is what it writes, [blocking] which version
    it calls next.  The last component is the entry committed. *)
Definition pub_step (blocking : bool) (v : A) r (p : publisher) : option (ring A * publisher * list A) :=
  match p with
  | PIdle => Some (pub_start blocking r, [])
  | PScan b s n m =>
      match entry_processor_cursors r !! n with
      | Some c => Some (r, PScan b s (S n) (if c <? m then c else m), [])
      | None => Some (pub_check b s m r, [])
      end
  | PCas s => Some (if write_cursor r =? u64 (s - 1) then (set_write s r, PGranted s) else (r, PIdle), [])
  | PGranted s =>
      if (Z.to_nat (entry_index r s) <? length (buffer r))%nat then
        Some (set_buffer (<[Z.to_nat (entry_index r s) := v]> (buffer r)) r, PWritten s v, [])
      else None
  | PWritten s w => Some (r, if max_read_cursor r =? u64 (s - 1) then PCommit s w else p, [])
  | PCommit s w => Some (set_max_read (u64 (max_read_cursor r + 1)) r, PIdle, [w])
  end.

(** ** Readers

    [RWait t]: waits for entry [t].  [RLoad t]: it has seen that [t] is
    there.  [RRead t upper]: reads [t] next and may go on to [upper].
    [RDone t upper]: has read [t] and releases it next. *)
Inductive reader :=
  | RWait (t : Z)
  | RLoad (t : Z)
  | RRead (t upper : Z)
  | RDone (t upper : Z).

(** One step of the reader on spot [n]; the last component is what it read. *)
Definition reader_step (n : nat) r (p : reader) : option (ring A * reader * list A) :=
  match p with
  | RWait t => Some (r, if max_read_cursor r <? t then p else RLoad t, [])
  | RLoad t => Some (r, RRead t (max_read_cursor r), [])
  | RRead t upper => v ← show_entry r t; Some (r, RDone t upper, [v])
  | RDone t upper =>
      Some (release_entry n t r, if t <? upper then RRead (t + 1) upper else RWait (t + 1), [])
  end.

(** ** The threads together *)

(** The ring, the publishers, the readers with what each has read (reader [i]
    has spot [i]), and the entries committed. *)
Record system := mkSystem {
  the_ring : ring A; pubs : list publisher; readers : list (reader * list A); published : list A }.

Inductive step : system → system → Prop :=
  | step_pub i b v p r' p' out sys :
      pubs sys !! i = Some p → pub_step b v (the_ring sys) p = Some (r', p', out) →
      step sys (mkSystem r' (<[i := p']> (pubs sys)) (readers sys) (published sys ++ out))
  | step_reader i p log r' p' out sys :
      readers sys !! i = Some (p, log) → reader_step i (the_ring sys) p = Some (r', p', out) →
      step sys (mkSystem r' (pubs sys) (<[i := (p', log ++ out)]> (readers sys)) (published sys)).

(** [n] steps. *)
Inductive reaches : nat → system → system → Prop :=
  | reaches_refl sys : reaches 0 sys sys
  | reaches_step n a b c : reaches n a b → step b c → reaches (S n) a c.

(** [k] readers registered on a fresh ring, [p] publishers. *)
Fixpoint register_all (k : nat) r : option (ring A) :=
  match k with
  | O => Some r
  | S k => r ← register_all k r; '(_, r) ← register k r; Some r
  end.

Definition start_system r (k p : nat) : system :=
  mkSystem r (replicate p PIdle) (replicate k (RWait 1, [])) [].

(** ** The invariant *)

(** The entry number a publisher has claimed. *)
Definition claim (p : publisher) : option Z :=
  match p with
  | PIdle | PCas _ => None
  | PScan b s _ _ => if b then Some s else None
  | PGranted s | PWritten s _ | PCommit s _ => Some s
  end.

(** The first entry a reader still needs, and how many it has read. *)
Definition needs (p : reader) : Z :=
  match p with RWait t | RLoad t | RRead t _ | RDone t _ => t end.
Definition has_read (p : reader) : Z :=
  match p with RWait t | RLoad t | RRead t _ => t - 1 | RDone t _ => t end.

(** [s] is within one lap of every registered reader. *)
Definition within (k : nat) r (s : Z) : Prop :=
  ∀ j c, (j < k)%nat → entry_processor_cursors r !! j = Some c → s ≤ c + reduced_size r.

Definition ring_ok (q : Z) (k : nat) (N : Z) r : Prop :=
  0 ≤ q < 62 ∧ reduced_size r = 2 ^ q - 1 ∧ zlen (buffer r) = 2 ^ q ∧
  0 ≤ max_read_cursor r ≤ write_cursor r ∧ write_cursor r ≤ N ∧
  (0 < k ≤ length (entry_processor_cursors r))%nat ∧
  (∀ j c, (k ≤ j)%nat → entry_processor_cursors r !! j = Some c → c = VACANT).

Definition pub_ok (k : nat) (N : Z) r (p : publisher) : Prop :=
  (∀ s, claim p = Some s → max_read_cursor r < s ≤ write_cursor r) ∧
  match p with
  | PIdle => True
  | PScan b s n m =>
      0 < s ≤ N + 1 ∧ m ≤ VACANT ∧
      (∀ j c, (j < n)%nat → (j < k)%nat → entry_processor_cursors r !! j = Some c → m ≤ c) ∧
      (m = VACANT ∨ 1 ≤ m)
  | PCas s => 0 < s ≤ N + 1 ∧ within k r s
  | PGranted s => within k r s
  | PWritten s v => within k r s ∧ show_entry r s = Some v
  | PCommit s v => within k r s ∧ show_entry r s = Some v ∧ max_read_cursor r = s - 1
  end.

Definition reader_ok r (published : list A) (i : nat) (p : reader) (log : list A) : Prop :=
  (∃ c, entry_processor_cursors r !! i = Some c ∧ 1 ≤ c ≤ needs p) ∧
  needs p ≤ max_read_cursor r + 1 ∧ log = take (Z.to_nat (has_read p)) published ∧
  match p with
  | RWait _ => True
  | RLoad t => t ≤ max_read_cursor r
  | RRead t upper | RDone t upper => t ≤ upper ≤ max_read_cursor r
  end ∧
  (∀ t, needs p ≤ t ≤ max_read_cursor r → show_entry r t = published !! Z.to_nat (t - 1)).

Record Inv (q : Z) (k : nat) (N : Z) (sys : system) : Prop := {
  inv_ring : ring_ok q k N (the_ring sys);
  inv_published : zlen (published sys) = max_read_cursor (the_ring sys);
  inv_pubs : ∀ i p, pubs sys !! i = Some p → pub_ok k N (the_ring sys) p;
  inv_claims : ∀ i j p p' s, pubs sys !! i = Some p → pubs sys !! j = Some p' →
    claim p = Some s → claim p' = Some s → i = j;
  inv_readers : length (readers sys) = k ∧ ∀ i p log, readers sys !! i = Some (p, log) →
    reader_ok (the_ring sys) (published sys) i p log }.

(** ** Indices *)

Lemma index_mod q r s : 0 ≤ q → reduced_size r = 2 ^ q - 1 → 0 ≤ s → entry_index r s = s mod 2 ^ q.
Proof.
  intros Hq Hr Hs. unfold entry_index. rewrite Hr, Z.land_comm.
  replace (2 ^ q - 1) with (Z.ones q) by (rewrite Z.ones_equiv; lia). by apply Z.land_ones.
Qed.

(** Entries less than a lap apart have different places. *)
Lemma index_differs q r s t :
  0 ≤ q → reduced_size r = 2 ^ q - 1 → 0 ≤ t < s → s - t ≤ reduced_size r →
  Z.to_nat (entry_index r s) ≠ Z.to_nat (entry_index r t).
Proof.
  intros Hq Hr Hts Hd E. assert (Hp : 0 < 2 ^ q) by (apply Z.pow_pos_nonneg; lia).
  rewrite !(index_mod q) in E by lia.
  pose proof (Z.mod_pos_bound s (2 ^ q) Hp). pose proof (Z.mod_pos_bound t (2 ^ q) Hp).
  assert (Hmod : s mod 2 ^ q = t mod 2 ^ q) by lia.
  pose proof (Z.div_mod s (2 ^ q) ltac:(lia)). pose proof (Z.div_mod t (2 ^ q) ltac:(lia)).
  assert (Hst : s - t = 2 ^ q * (s / 2 ^ q - t / 2 ^ q)) by lia. rewrite Hr in Hd.
  destruct (Z.le_gt_cases (s / 2 ^ q - t / 2 ^ q) 0); nia.
Qed.

Lemma index_inside q k N r s :
  ring_ok q k N r → 0 ≤ s → (Z.to_nat (entry_index r s) < length (buffer r))%nat.
Proof.
  intros (Hq & Hr & Hb & _) Hs. assert (Hp : 0 < 2 ^ q) by (apply Z.pow_pos_nonneg; lia).
  rewrite (index_mod q) by lia. pose proof (Z.mod_pos_bound s (2 ^ q) Hp). lia.
Qed.
(** ** What the others do does not disturb a thread *)

Section Frame.
Context (q : Z) (k : nat) (N : Z).

(** Changes of [slowest_entry_processor] and of the write cursor. *)
Definition quiet r r' : Prop :=
  reduced_size r' = reduced_size r ∧ entry_processor_cursors r' = entry_processor_cursors r ∧
  buffer r' = buffer r ∧ max_read_cursor r' = max_read_cursor r ∧ write_cursor r ≤ write_cursor r'.

Lemma quiet_refl r : quiet r r.
Proof. done. Qed.

Lemma quiet_within r r' s : quiet r r' → within k r s → within k r' s.
Proof. intros (E1 & E2 & _). unfold within. by rewrite E1, E2. Qed.

Lemma quiet_show r r' s : quiet r r' → show_entry r' s = show_entry r s.
Proof. intros (E1 & _ & E3 & _). unfold show_entry, entry_index. by rewrite E1, E3. Qed.

Lemma quiet_pub r r' p : quiet r r' → pub_ok k N r p → pub_ok k (N + 1) r' p.
Proof.
  intros Hq [Hc Hp]. pose proof Hq as (E1 & E2 & E3 & E4 & Hw). split.
  { intros s Hs. apply Hc in Hs. lia. }
  destruct p as [|b s n m|s|s|s v|s v]; try done.
  - destruct Hp as (? & ? & Hm & ?). rewrite E2. split_and!; (done || lia).
  - destruct Hp. split; [lia|]. by eapply quiet_within.
  - by eapply quiet_within.
  - destruct Hp. rewrite (quiet_show r r') by done. split; [by eapply quiet_within | done].
  - destruct Hp as (? & ? & ?). rewrite (quiet_show r r'), E4 by done.
    split; [by eapply quiet_within | done].
Qed.

Lemma quiet_reader r r' pub i p log : quiet r r' → reader_ok r pub i p log → reader_ok r' pub i p log.
Proof.
  intros Hq (Hc & Hn & Hl & Hp & Hs). pose proof Hq as (E1 & E2 & E3 & E4 & _).
  unfold reader_ok. rewrite E2, E4. split_and!; try done. intros t Ht. rewrite (quiet_show r) by done. auto.
Qed.

Lemma quiet_ring r r' : quiet r r' → write_cursor r' ≤ N + 1 → ring_ok q k N r → ring_ok q k (N + 1) r'.
Proof.
  intros (E1 & E2 & E3 & E4 & Hw) Hw' (? & ? & ? & ? & ? & ? & ?). unfold ring_ok.
  rewrite E1, E2, E3, E4. split_and!; (done || lia).
Qed.

(** A publisher writes entry [s]. *)
Lemma write_show r s v t :
  ring_ok q k N r → 0 ≤ s → 0 ≤ t → (s = t ∨ Z.to_nat (entry_index r s) ≠ Z.to_nat (entry_index r t)) →
  show_entry (set_buffer (<[Z.to_nat (entry_index r s) := v]> (buffer r)) r) t
  = if decide (s = t) then Some v else show_entry r t.
Proof.
  intros Hr Hs Ht Hne. unfold show_entry at 1. cbn [set_buffer buffer].
  change (entry_index (set_buffer _ r) t) with (entry_index r t). case_decide as E.
  - subst. apply list_lookup_insert_eq. by eapply index_inside.
  - apply list_lookup_insert_ne. naive_solver.
Qed.

(** Two claims, and a claim and an entry a reader needs, are less than a lap
    apart. *)
Lemma claims_apart r s s' :
  ring_ok q k N r → (∃ c, entry_processor_cursors r !! 0%nat = Some c ∧ 1 ≤ c ≤ max_read_cursor r + 1) →
  within k r s → within k r s' → max_read_cursor r < s → max_read_cursor r < s' → s ≠ s' →
  Z.to_nat (entry_index r s) ≠ Z.to_nat (entry_index r s').
Proof.
  intros Hr (c & Hc & Hc1) Hw Hw' Hs Hs' Hne. pose proof Hr as (Hq & Hm & _ & ? & _ & Hk & _).
  pose proof (Hw 0%nat c ltac:(lia) Hc). pose proof (Hw' 0%nat c ltac:(lia) Hc).
  destruct (Z.lt_ge_cases s s').
  - intros E. symmetry in E. revert E. apply (index_differs q); lia.
  - apply (index_differs q); lia.
Qed.

Lemma write_reader r pub i p log s v :
  ring_ok q k N r → (i < k)%nat → within k r s → max_read_cursor r < s → reader_ok r pub i p log →
  reader_ok (set_buffer (<[Z.to_nat (entry_index r s) := v]> (buffer r)) r) pub i p log.
Proof.
  intros Hr Hi Hw Hs ((c & Hc & Hc1) & Hn & Hl & Hp & Hsh). split_and!; try done.
  - by exists c.
  - intros t Ht. cbn [set_buffer max_read_cursor] in Ht. pose proof Hr as (Hq & Hm & _).
    pose proof (Hw i c Hi Hc).
    rewrite write_show by first [done | lia | right; apply (index_differs q); lia].
    rewrite decide_False by lia. by apply Hsh.
Qed.

Lemma write_pub r p s v :
  ring_ok q k N r → (∃ c, entry_processor_cursors r !! 0%nat = Some c ∧ 1 ≤ c ≤ max_read_cursor r + 1) →
  within k r s → max_read_cursor r < s → claim p ≠ Some s → pub_ok k N r p →
  pub_ok k (N + 1) (set_buffer (<[Z.to_nat (entry_index r s) := v]> (buffer r)) r) p.
Proof.
  intros Hr H0 Hw Hs Hne [Hc Hp]. pose proof Hr as (_ & _ & _ & ? & _).
  split; [done|]. destruct p as [|b x n m|x|x|x w|x w]; try done.
  - destruct Hp as (? & ? & ? & ?). split_and!; (done || lia).
  - destruct Hp. split; [lia | done].
  - destruct Hp as [Hw' Hsh]. split; [done|]. specialize (Hc x eq_refl).
    assert (s ≠ x) by (intros ->; by apply Hne).
    rewrite write_show by first [done | lia | right; apply claims_apart; (done || lia)].
    by rewrite decide_False.
  - destruct Hp as (Hw' & Hsh & Hm). specialize (Hc x eq_refl).
    assert (s ≠ x) by (intros ->; by apply Hne). split_and!; try done.
    rewrite write_show by first [done | lia | right; apply claims_apart; (done || lia)].
    by rewrite decide_False.
Qed.
(** Reader [i] releases entry [t]. *)
Lemma release_lookup r i t j c :
  entry_processor_cursors (release_entry i t r) !! j = Some c →
  (∃ d, entry_processor_cursors r !! i = Some d ∧ d ≤ t) →
  ∃ d, entry_processor_cursors r !! j = Some d ∧ d ≤ c ∧ (j ≠ i → c = d) ∧ (j = i → c = t).
Proof.
  intros Hj (d & Hd & Hle). cbn [release_entry set_cursors entry_processor_cursors] in Hj.
  apply list_lookup_insert_Some in Hj as [(-> & -> & _)|[Hne Hj]].
  - exists d. naive_solver.
  - exists c. split; [done|]. split; [lia|]. naive_solver.
Qed.

Lemma release_within r i t s :
  (∃ d, entry_processor_cursors r !! i = Some d ∧ d ≤ t) → within k r s → within k (release_entry i t r) s.
Proof.
  intros Hd Hw j c Hj Hc. destruct (release_lookup r i t j c Hc Hd) as (d & Hd' & Hle & _).
  specialize (Hw j d Hj Hd'). cbn. lia.
Qed.

Lemma release_pub r i t p :
  (∃ d, entry_processor_cursors r !! i = Some d ∧ d ≤ t) → pub_ok k N r p →
  pub_ok k (N + 1) (release_entry i t r) p.
Proof.
  intros Hd [Hc Hp]. split; [done|]. destruct p as [|b s n m|s|s|s v|s v]; try done.
  - destruct Hp as (? & ? & Hm & ?). split_and!; try (done || lia).
    intros j c Hj Hk Hjc. destruct (release_lookup r i t j c Hjc Hd) as (d & Hd' & Hle & _).
    specialize (Hm j d Hj Hk Hd'). lia.
  - destruct Hp. split; [lia|]. by apply release_within.
  - by apply release_within.
  - destruct Hp. split; [by apply release_within | done].
  - destruct Hp as (? & ? & ?). split; [by apply release_within | done].
Qed.

Lemma release_reader r pub i t j p log :
  j ≠ i → reader_ok r pub j p log → reader_ok (release_entry i t r) pub j p log.
Proof.
  intros Hne ((c & Hc & Hc1) & Hrest). split; [|done]. exists c. split; [|done].
  cbn [release_entry set_cursors entry_processor_cursors]. by rewrite list_lookup_insert_ne.
Qed.

Lemma release_ring r i t :
  (i < k)%nat → ring_ok q k N r → ring_ok q k (N + 1) (release_entry i t r).
Proof.
  intros Hi (? & ? & ? & ? & ? & ? & Hv). unfold ring_ok.
  cbn [release_entry set_cursors reduced_size buffer max_read_cursor write_cursor entry_processor_cursors].
  rewrite length_insert. split_and!; try (done || lia).
  intros j c Hj Hc. rewrite list_lookup_insert_ne in Hc by lia. by apply (Hv j).
Qed.

(** The entry [max_read_cursor + 1] is committed. *)
Lemma commit_pub r p :
  claim p ≠ Some (max_read_cursor r + 1) → pub_ok k N r p →
  pub_ok k (N + 1) (set_max_read (max_read_cursor r + 1) r) p.
Proof.
  intros Hne [Hc Hp]. split.
  { intros s Hs. pose proof (Hc s Hs). cbn. assert (s ≠ max_read_cursor r + 1) by congruence. lia. }
  destruct p as [|b s n m|s|s|s v|s v]; try done.
  - destruct Hp as (? & ? & ? & ?). split_and!; (done || lia).
  - destruct Hp. split; [lia | done].
  - destruct Hp as (_ & _ & Hm). exfalso. apply Hne. cbn. f_equal. lia.
Qed.

Lemma commit_reader r pub i p log w :
  zlen pub = max_read_cursor r → show_entry r (max_read_cursor r + 1) = Some w →
  reader_ok r pub i p log →
  reader_ok (set_max_read (max_read_cursor r + 1) r) (pub ++ [w]) i p log.
Proof.
  intros Hlen Hw (Hc & Hn & Hl & Hp & Hs).
  assert (Hr : has_read p ≤ max_read_cursor r) by (destruct p; cbn in *; lia).
  assert (H1 : 1 ≤ needs p) by (destruct Hc as (c & _ & ?); lia).
  unfold reader_ok. cbn [set_max_read max_read_cursor entry_processor_cursors]. split_and!; try done.
  - lia.
  - rewrite take_app_le by lia. done.
  - destruct p; lia.
  - intros t Ht. change (show_entry (set_max_read _ r) t) with (show_entry r t).
    destruct (decide (t = max_read_cursor r + 1)) as [->|].
    + rewrite Hw. rewrite lookup_app_r by lia. replace (_ - _)%nat with 0%nat by lia. done.
    + rewrite lookup_app_l by lia. apply Hs. lia.
Qed.
(** ** Steps preserve the invariant *)

Lemma inv_reader0 sys :
  Inv q k N sys → ∃ c, entry_processor_cursors (the_ring sys) !! 0%nat = Some c ∧
                       1 ≤ c ≤ max_read_cursor (the_ring sys) + 1.
Proof.
  intros [(_ & _ & _ & _ & _ & Hk & _) _ _ _ [Hl Hr]].
  destruct (lookup_lt_is_Some_2 (readers sys) 0) as [[p log] Hp]; [lia|].
  destruct (Hr _ _ _ Hp) as ((c & Hc & Hc1) & Hn & _). exists c. split; [done|]. lia.
Qed.

Lemma inv_pub_update sys i p r' p' out :
  Inv q k N sys → pubs sys !! i = Some p → ring_ok q k (N + 1) r' →
  zlen (published sys ++ out) = max_read_cursor r' →
  (∀ j x, j ≠ i → pubs sys !! j = Some x → pub_ok k (N + 1) r' x) → pub_ok k (N + 1) r' p' →
  (∀ s, claim p' = Some s → claim p = Some s ∨ ∀ j x, pubs sys !! j = Some x → claim x ≠ Some s) →
  (∀ j x log, readers sys !! j = Some (x, log) → reader_ok r' (published sys ++ out) j x log) →
  Inv q k (N + 1) (mkSystem r' (<[i := p']> (pubs sys)) (readers sys) (published sys ++ out)).
Proof.
  intros [_ _ _ Hcl [Hk _]] Hi Hr Hlen Hothers Hp' Hclaim Hread. split; cbn; try done.
  - intros j x [(-> & <- & _)|[Hne Hj]]%list_lookup_insert_Some; [done|]. by apply (Hothers j).
  - intros a b x y s Ha Hb Hx Hy.
    apply list_lookup_insert_Some in Ha as [(-> & <- & _)|[Ha1 Ha]],
      Hb as [(-> & <- & _)|[Hb1 Hb]]; [done| | |by eapply Hcl].
    + destruct (Hclaim s Hx) as [Hs|Hs]; [by eapply Hcl | by destruct (Hs b y Hb)].
    + destruct (Hclaim s Hy) as [Hs|Hs]; [by eapply Hcl | by destruct (Hs a x Ha)].
Qed.

(** A step that leaves the entries, the cursors and [max_read_cursor]. *)
Lemma inv_pub_quiet sys i p r' p' :
  Inv q k N sys → pubs sys !! i = Some p → quiet (the_ring sys) r' → write_cursor r' ≤ N + 1 →
  pub_ok k (N + 1) r' p' →
  (∀ s, claim p' = Some s → claim p = Some s ∨ ∀ j x, pubs sys !! j = Some x → claim x ≠ Some s) →
  Inv q k (N + 1) (mkSystem r' (<[i := p']> (pubs sys)) (readers sys) (published sys ++ [])).
Proof.
  intros HI Hi Hq Hw Hp' Hcl. pose proof HI as [Hr Hlen Hps _ [_ Hrd]].
  eapply inv_pub_update; try done.
  - by eapply quiet_ring.
  - rewrite app_nil_r, Hlen. by destruct Hq as (_ & _ & _ & -> & _).
  - intros j x _ Hj. eapply quiet_pub; [done | by eapply Hps].
  - intros j x log Hj. rewrite app_nil_r. eapply quiet_reader; [done | by apply Hrd].
Qed.

Lemma u64_id z : 0 ≤ z < 2 ^ 64 → u64 z = z.
Proof. intros. by apply Z.mod_small. Qed.

(** The comparison at the end of the scan. *)
Lemma check_within r b s n m :
  ring_ok q k N r → 0 ≤ N → N + 2 < 2 ^ 62 → entry_processor_cursors r !! n = None →
  (∃ c, entry_processor_cursors r !! 0%nat = Some c ∧ 1 ≤ c ≤ max_read_cursor r + 1) →
  pub_ok k N r (PScan b s n m) → m ≠ VACANT ∧ (u64 (s - m) ≤ reduced_size r → within k r s).
Proof.
  intros Hr HN Hmax Hn (c & Hc & Hc1) [_ (Hs & Hm & Hall & Hm1)].
  pose proof Hr as (Hq & Hmask & _ & ? & ? & Hk & _). apply lookup_ge_None in Hn.
  pose proof (Hall 0%nat c ltac:(lia) ltac:(lia) Hc). unfold VACANT in *. split; [lia|].
  intros Htest j d Hj Hd. pose proof (Hall j d ltac:(lia) Hj Hd).
  assert (2 ^ q ≤ 2 ^ 62) by (apply Z.pow_le_mono_r; lia).
  destruct (Z.lt_ge_cases s m).
  - unfold u64 in Htest. rewrite <- (Z_mod_plus_full _ 1), Z.mod_small in Htest; lia.
  - rewrite u64_id in Htest by lia. lia.
Qed.
Lemma quiet_start b r r' p' :
  ring_ok q k N r → N + 2 < 2 ^ 62 → pub_start b r = (r', p') →
  quiet r r' ∧ write_cursor r' ≤ N + 1 ∧ pub_ok k (N + 1) r' p' ∧
  (∀ s, claim p' = Some s → write_cursor r < s).
Proof.
  intros (_ & _ & _ & ? & ? & _) Hmax. unfold pub_start. rewrite u64_id by lia.
  destruct b; intros [= <- <-]; (split; [repeat split; cbn; lia|]); (split; [cbn; lia|]); split.
  1, 3: split; [intros s [= <-]; cbn; lia|]; cbn; split_and!; (lia || by left).
  all: by intros s [= <-]; lia.
Qed.

Lemma inv_scan_end sys i b s n m :
  Inv q k N sys → 0 ≤ N → N + 2 < 2 ^ 62 → pubs sys !! i = Some (PScan b s n m) →
  entry_processor_cursors (the_ring sys) !! n = None →
  ∀ r' p', pub_check b s m (the_ring sys) = (r', p') →
  Inv q k (N + 1) (mkSystem r' (<[i := p']> (pubs sys)) (readers sys) (published sys ++ [])).
Proof.
  intros HI HN Hmax Hi Hn r' p' Hc. pose proof (inv_pubs _ _ _ _ HI _ _ Hi) as Hp.
  pose proof HI as [Hr _ _ _ _].
  destruct (check_within _ b s n m Hr HN Hmax Hn (inv_reader0 _ HI) Hp) as [Hv Hw].
  unfold pub_check in Hc. rewrite (proj2 (Z.eqb_neq VACANT m)) in Hc by congruence.
  cbn [set_slowest reduced_size] in Hc. destruct Hp as [Hcl (Hs & _ & _ & _)].
  pose proof Hr as (_ & _ & _ & ? & ? & _).
  assert (Hq : quiet (the_ring sys) (set_slowest m (the_ring sys))) by (repeat split; cbn; lia).
  destruct (Z.leb_spec (u64 (s - m)) (reduced_size (the_ring sys))) as [Ht|Ht]; injection Hc as <- <-.
  - eapply inv_pub_quiet; [done | done | done | cbn; lia | |].
    + destruct b; (split; [intros x [= <-]; apply (Hcl s eq_refl) || done|]).
      * by apply Hw.
      * split; [lia | by apply Hw].
    + destruct b; [by left | done].
  - eapply inv_pub_quiet; [done | done | done | cbn; lia | |].
    + destruct b; [|by split]. split; [intros x [= <-]; by apply Hcl|]. cbn.
      split_and!; (lia || (by left) || (intros; lia)).
    + destruct b; [by left | done].
Qed.

Lemma inv_step_pub sys i b v p r' p' out :
  Inv q k N sys → 0 ≤ N → N + 2 < 2 ^ 62 → pubs sys !! i = Some p →
  pub_step b v (the_ring sys) p = Some (r', p', out) →
  Inv q k (N + 1) (mkSystem r' (<[i := p']> (pubs sys)) (readers sys) (published sys ++ out)).
Proof.
  intros HI HN Hmax Hi Hstep. pose proof HI as [Hr Hlen Hps Hcl [Hk Hrd]].
  pose proof (Hps _ _ Hi) as Hp. pose proof Hr as (Hq & Hmask & Hbuf & Hmr & Hwc & Hkc & Hvac).
  destruct p as [|b' s n m|s|s|s w|s w]; cbn [pub_step] in Hstep.
  - injection Hstep as Hs <-. destruct (quiet_start b _ _ _ Hr Hmax Hs) as (Hqt & Hw & Hok & Hfresh).
    eapply inv_pub_quiet; try done. intros s Hc. right. intros j x Hj Hx.
    apply Hfresh in Hc. apply (Hps _ _ Hj) in Hx. lia.
  - destruct (entry_processor_cursors (the_ring sys) !! n) as [c|] eqn:Hc.
    + injection Hstep as <- <- <-. eapply inv_pub_quiet; [done | done | apply quiet_refl | lia | | by left].
      destruct Hp as [Hcl' (Hs & Hm & Hall & Hm1)]. split; [exact Hcl'|]. cbn [claim] in *.
      assert (Hcv : 1 ≤ c ≤ VACANT).
      { destruct (decide (n < k)%nat) as [Hnk|Hnk].
        - destruct (lookup_lt_is_Some_2 (readers sys) n) as [[x log] Hx]; [lia|].
          destruct (Hrd _ _ _ Hx) as ((c' & Hc' & ?) & ? & _). assert (c' = c) by congruence.
          unfold VACANT. lia.
        - rewrite (Hvac n c) by (done || lia). unfold VACANT. lia. }
      destruct (Z.ltb_spec c m); (split; [lia|]); (split; [lia|]).
      all: split; [|first [by right; lia | done]].
      all: intros j d Hj Hjk Hd; destruct (decide (j = n)) as [->|];
        [assert (d = c) by congruence; lia | pose proof (Hall j d ltac:(lia) Hjk Hd); lia].
    + destruct (pub_check b' s m (the_ring sys)) as [r1 p1] eqn:Hch. injection Hstep as <- <- <-.
      by eapply inv_scan_end.
  - destruct Hp as [_ [Hs Hw]]. rewrite u64_id in Hstep by lia.
    destruct (Z.eqb_spec (write_cursor (the_ring sys)) (s - 1)); injection Hstep as <- <- <-.
    + eapply inv_pub_quiet; [done | done | repeat split; cbn; lia | cbn; lia | |].
      * split; [intros x [= <-]; cbn; lia | done].
      * intros x [= <-]. right. intros j y Hj Hy. apply (Hps _ _ Hj) in Hy. lia.
    + eapply inv_pub_quiet; [done | done | apply quiet_refl | lia | by split | done].
  - destruct Hp as [Hc Hw]. pose proof (Hc s eq_refl). case_match; [|done]. injection Hstep as <- <- <-.
    eapply inv_pub_update; [done | done | | | | | by left |].
    + unfold ring_ok. cbn [set_buffer reduced_size buffer max_read_cursor write_cursor
        entry_processor_cursors]. rewrite length_insert. split_and!; (done || lia).
    + by rewrite app_nil_r.
    + intros j x Hne Hj. apply write_pub; try done; [by apply inv_reader0 | lia | | by eapply Hps].
      intros Hx. apply Hne. by eapply Hcl.
    + split; [done|]. split; [done|]. rewrite write_show by first [done | lia | by left].
      by rewrite decide_True.
    + intros j x log Hj. rewrite app_nil_r. apply write_reader; try done; [|lia | by apply Hrd].
      apply lookup_lt_Some in Hj. lia.
  - destruct Hp as [Hc [Hw Hsh]]. pose proof (Hc s eq_refl). rewrite u64_id in Hstep by lia.
    injection Hstep as <- <- <-.
    eapply inv_pub_quiet; [done | done | apply quiet_refl | lia | | by case_match; left].
    case_match; bool_hyps; split; done.
  - destruct Hp as [Hc (Hw & Hsh & Hm)]. pose proof (Hc s eq_refl). rewrite u64_id in Hstep by lia.
    injection Hstep as <- <- <-. assert (Es : s = max_read_cursor (the_ring sys) + 1) by lia.
    eapply inv_pub_update; [done | done | | | | by split | done |].
    + unfold ring_ok. cbn. split_and!; (done || lia).
    + cbn. llia.
    + intros j x Hne Hj. apply commit_pub; [|by eapply Hps]. rewrite <- Es. intros Hx. apply Hne. by eapply Hcl.
    + intros j x log Hj. apply commit_reader; [done | by rewrite <- Es | by apply Hrd].
Qed.
Lemma inv_reader_update sys i p log r' p' out :
  Inv q k N sys → readers sys !! i = Some (p, log) → ring_ok q k (N + 1) r' →
  max_read_cursor r' = max_read_cursor (the_ring sys) →
  (∀ j x, pubs sys !! j = Some x → pub_ok k (N + 1) r' x) →
  reader_ok r' (published sys) i p' (log ++ out) →
  (∀ j x l, j ≠ i → readers sys !! j = Some (x, l) → reader_ok r' (published sys) j x l) →
  Inv q k (N + 1) (mkSystem r' (pubs sys) (<[i := (p', log ++ out)]> (readers sys)) (published sys)).
Proof.
  intros [_ Hlen _ Hcl [Hk _]] Hi Hr Hm Hpubs Hp' Hothers. split; cbn; try done; [congruence|].
  rewrite length_insert. split; [done|].
  intros j x l [(-> & [= <- <-] & _)|[Hne Hj]]%list_lookup_insert_Some; [done|]. by apply Hothers.
Qed.

Lemma take_S_lookup (l : list A) n x : l !! n = Some x → take n l ++ [x] = take (S n) l.
Proof. intros. symmetry. by apply take_S_r. Qed.

Lemma inv_step_reader sys i p log r' p' out :
  Inv q k N sys → readers sys !! i = Some (p, log) →
  reader_step i (the_ring sys) p = Some (r', p', out) →
  Inv q k (N + 1) (mkSystem r' (pubs sys) (<[i := (p', log ++ out)]> (readers sys)) (published sys)).
Proof.
  intros HI Hi Hstep. pose proof HI as [Hr Hlen Hps _ [Hk Hrd]].
  assert (Hik : (i < k)%nat) by (apply lookup_lt_Some in Hi; lia).
  pose proof (Hrd _ _ _ Hi) as ((c & Hc & Hc1) & Hn & Hl & Hp & Hsh).
  assert (Hquiet : ∀ x o, r' = the_ring sys → p' = x → out = o →
    reader_ok (the_ring sys) (published sys) i x (log ++ o) →
    Inv q k (N + 1) (mkSystem r' (pubs sys) (<[i := (p', log ++ out)]> (readers sys)) (published sys))).
  { intros x o -> -> -> Hx. eapply inv_reader_update; try done.
    - eapply quiet_ring; [apply quiet_refl | | done]. destruct Hr as (_ & _ & _ & _ & ? & _). lia.
    - intros j y Hj. eapply quiet_pub; [apply quiet_refl | by eapply Hps].
    - intros j y l _ Hj. by apply Hrd. }
  destruct p as [t|t|t upper|t upper]; cbn [reader_step needs has_read] in *.
  - injection Hstep as <- <- <-. eapply Hquiet; [done..|]. rewrite app_nil_r.
    destruct (Z.ltb_spec (max_read_cursor (the_ring sys)) t); split_and!; try done; by exists c.
  - injection Hstep as <- <- <-. eapply Hquiet; [done..|]. rewrite app_nil_r.
    split_and!; try done; by exists c.
  - destruct (show_entry (the_ring sys) t) as [v|] eqn:Ev; cbn in Hstep; [|done].
    injection Hstep as <- <- <-. eapply Hquiet; [done..|]. split; [by exists c|]. split; [done|]. split; [|done].
    cbn [has_read]. rewrite Hsh in Ev by lia. rewrite Hl.
    replace (Z.to_nat t) with (S (Z.to_nat (t - 1))) by lia. by apply take_S_lookup.
  - injection Hstep as <- <- <-. eapply inv_reader_update; try done.
    + by apply release_ring.
    + intros j x Hj. apply release_pub; [exists c; split; [done | lia] | by eapply Hps].
    + rewrite app_nil_r. destruct (Z.ltb_spec t upper).
      all: unfold reader_ok; cbn [needs has_read]; split_and!; cbn [release_entry set_cursors
        max_read_cursor entry_processor_cursors]; try lia; try done.
      all: try (exists t; split; [apply list_lookup_insert_eq; by eapply lookup_lt_Some | lia]).
      all: try (rewrite Hl; f_equal; lia).
      all: intros x Hx; change (show_entry (release_entry i t (the_ring sys)) x)
        with (show_entry (the_ring sys) x); apply Hsh; lia.
    + intros j x l Hne Hj. apply release_reader; [done | by apply Hrd].
Qed.

Lemma inv_step sys sys' :
  Inv q k N sys → 0 ≤ N → N + 2 < 2 ^ 62 → step sys sys' → Inv q k (N + 1) sys'.
Proof.
  intros HI HN Hmax Hs. destruct Hs.
  - by eapply inv_step_pub.
  - by eapply inv_step_reader.
Qed.
End Frame.

(** ** The start *)

Lemma register_all_spec k procs (content : list A) :
  (k ≤ procs)%nat →
  register_all k (ring_buffer_init procs content)
  = Some (set_cursors (replicate k 1 ++ replicate (procs - k) VACANT) (ring_buffer_init procs content)).
Proof.
  induction k as [|k IH]; intros Hk; cbn [register_all].
  { by rewrite Nat.sub_0_r. }
  rewrite IH by lia. obind. unfold register. cbn [set_cursors entry_processor_cursors].
  rewrite lookup_app_r, length_replicate, Nat.sub_diag, lookup_replicate_2 by (rewrite ?length_replicate; lia).
  obind. rewrite Z.eqb_refl. cbn [ring_buffer_init slowest_entry_processor]. rewrite Z.eqb_refl. obind.
  f_equal. unfold set_cursors. cbn. f_equal.
  rewrite insert_app_r_alt, length_replicate, Nat.sub_diag by (rewrite length_replicate; lia).
  replace (procs - k)%nat with (S (procs - S k)) by lia. cbn [replicate insert list_insert].
  by rewrite cons_middle, app_assoc, <- replicate_S_end.
Qed.

Lemma inv_start q k pn procs (content : list A) r :
  0 ≤ q < 62 → zlen content = 2 ^ q → (0 < k ≤ procs)%nat →
  register_all k (ring_buffer_init procs content) = Some r → Inv q k 0 (start_system r k pn).
Proof.
  intros Hq Hlen Hk. rewrite register_all_spec by lia. intros [= <-].
  assert (Hcur : ∀ j, (j < k)%nat → (replicate k 1 ++ replicate (procs - k) VACANT) !! j = Some 1).
  { intros j Hj. rewrite lookup_app_l by (rewrite length_replicate; lia). by apply lookup_replicate_2. }
  split; cbn.
  - unfold ring_ok. cbn. rewrite length_app, !length_replicate. split_and!; try (done || lia).
    intros j c Hj Hc. rewrite lookup_app_r in Hc by (rewrite length_replicate; lia).
    by apply lookup_replicate in Hc as [-> _].
  - done.
  - intros i p [-> _]%lookup_replicate. by split.
  - intros i j p p' s [-> _]%lookup_replicate. done.
  - rewrite length_replicate. split; [done|]. intros i p log [[= -> ->] Hi]%lookup_replicate.
    unfold reader_ok. cbn. split_and!; try done; [|intros; lia].
    exists 1. split; [by apply Hcur | lia].
Qed.

Lemma inv_reaches q k n a b :
  Inv q k 0 a → reaches n a b → Z.of_nat n + 2 < 2 ^ 62 → Inv q k (Z.of_nat n) b.
Proof.
  intros Ha. induction 1 as [|n a b c _ IH Hs]; intros Hn; [done|].
  rewrite Nat2Z.inj_succ. apply (inv_step q k (Z.of_nat n) b); [apply IH; [done | lia] | lia | lia | done].
Qed.

(** ** No claimed number is lost *)

Definition gapless (sys : system) : Prop :=
  ∀ s, max_read_cursor (the_ring sys) < s ≤ write_cursor (the_ring sys) →
  ∃ i p, pubs sys !! i = Some p ∧ claim p = Some s.

Lemma gapless_update sys i p r' p' rd out :
  pubs sys !! i = Some p → gapless sys →
  max_read_cursor (the_ring sys) ≤ max_read_cursor r' →
  (∀ s, max_read_cursor r' < s ≤ write_cursor r' →
     claim p' = Some s ∨ (claim p ≠ Some s ∧ s ≤ write_cursor (the_ring sys))) →
  gapless (mkSystem r' (<[i := p']> (pubs sys)) rd out).
Proof.
  intros Hi Hg Hm Hcl s Hs. cbn in *. destruct (Hcl s Hs) as [Hp|[Hp Hw]].
  - exists i, p'. split; [|done]. apply list_lookup_insert_eq. by eapply lookup_lt_Some.
  - destruct (Hg s) as (j & x & Hj & Hx); [lia|]. exists j, x. split; [|done].
    rewrite list_lookup_insert_ne; [done|]. intros ->. naive_solver.
Qed.

(** What a step does to the claims: nothing, the next number is claimed, or
    the next number is committed. *)
Lemma pub_step_claims q k N b v r p r' p' out :
  ring_ok q k N r → 0 ≤ N → N + 2 < 2 ^ 62 → pub_ok k N r p → pub_step b v r p = Some (r', p', out) →
  (claim p' = claim p ∧ max_read_cursor r' = max_read_cursor r ∧ write_cursor r' = write_cursor r) ∨
  (claim p' = Some (write_cursor r + 1) ∧ claim p = None ∧ max_read_cursor r' = max_read_cursor r ∧
   write_cursor r' = write_cursor r + 1) ∨
  (claim p = Some (max_read_cursor r + 1) ∧ max_read_cursor r' = max_read_cursor r + 1 ∧
   write_cursor r' = write_cursor r).
Proof.
  intros (_ & _ & _ & Hmr & Hwc & _) HN Hmax [Hcl Hp].
  destruct p as [|b' s n m|s|s|s w|s w]; cbn [pub_step].
  - unfold pub_start. rewrite u64_id by lia. destruct b; intros [= <- <- <-]; [right; left | by left].
    cbn. split_and!; (done || lia || (f_equal; lia)).
  - destruct (entry_processor_cursors r !! n); [intros [= <- <- <-]; by left|].
    unfold pub_check. destruct (_ <=? _); intros [= <- <- <-]; left; by destruct b'.
  - destruct Hp as [Hs _]. rewrite u64_id by lia.
    destruct (Z.eqb_spec (write_cursor r) (s - 1)); intros [= <- <- <-]; [right; left | by left].
    cbn. split_and!; (done || lia || (f_equal; lia)).
  - case_match; [|done]. intros [= <- <- <-]. by left.
  - intros [= <- <- <-]. left. by case_match.
  - destruct Hp as (_ & _ & Hm). rewrite u64_id by lia. intros [= <- <- <-]. right. right. cbn.
    split_and!; (done || (f_equal; lia)).
Qed.

Lemma reader_step_ring n r p r' p' out :
  reader_step n r p = Some (r', p', out) →
  max_read_cursor r' = max_read_cursor r ∧ write_cursor r' = write_cursor r.
Proof.
  destruct p as [t|t|t u|t u]; cbn [reader_step]; try (by intros [= <- <- <-]).
  destruct (show_entry r t); obind; [|done]. by intros [= <- <- <-].
Qed.

Lemma gapless_step q k N sys sys' :
  Inv q k N sys → 0 ≤ N → N + 2 < 2 ^ 62 → gapless sys → step sys sys' → gapless sys'.
Proof.
  intros [Hr _ Hps Hcls _] HN Hmax Hg Hs.
  destruct Hs as [i b v p r' p' out sys Hi Hst|i p log r' p' out sys Hi Hst].
  - pose proof (Hps _ _ Hi) as Hp.
    destruct (pub_step_claims q k N b v _ p r' p' out Hr HN Hmax Hp Hst)
      as [(Hc & Hm & Hw)|[(Hc & Hc' & Hm & Hw)|(Hc & Hm & Hw)]];
      (eapply gapless_update; [done | done | lia |]); rewrite Hm, Hw; intros s Hs.
    + rewrite Hc. destruct (decide (claim p = Some s)); [by left | right; split; [done | lia]].
    + destruct (decide (s = write_cursor (the_ring sys) + 1)) as [->|]; [by left | right].
      split; [by rewrite Hc' | lia].
    + right. split; [rewrite Hc; intros [= ?]; lia | lia].
  - apply reader_step_ring in Hst as [Hm Hw]. intros s Hs. cbn in Hs. rewrite Hm, Hw in Hs.
    exact (Hg s Hs).
Qed.

Lemma gapless_reaches q k n a b :
  Inv q k 0 a → gapless a → reaches n a b → Z.of_nat n + 2 < 2 ^ 62 → gapless b.
Proof.
  intros Ha Hg. induction 1 as [|n a b c Hab IH Hs]; intros Hn; [done|].
  apply (gapless_step q k (Z.of_nat n) b); [by apply (inv_reaches q k n a); [| |lia] | lia | lia | | done].
  apply IH; [done | done | lia].
Qed.

(** ** The contract: a broadcast queue *)

(** What has been committed, and what each reader has read. *)
Definition abstraction (sys : system) : list A * list (list A) := (published sys, snd <$> readers sys).

Inductive broadcast_step : list A * list (list A) → list A * list (list A) → Prop :=
  | broadcast_publish v pub logs : broadcast_step (pub, logs) (pub ++ [v], logs)
  | broadcast_consume i l v pub logs :
      logs !! i = Some l → pub !! length l = Some v →
      broadcast_step (pub, logs) (pub, <[i := l ++ [v]]> logs).

Lemma abstraction_reader r ps rds pub i p log p' out :
  rds !! i = Some (p, log) →
  abstraction (mkSystem r ps (<[i := (p', log ++ out)]> rds) pub) = (pub, <[i := log ++ out]> (snd <$> rds)).
Proof. intros. unfold abstraction. cbn. by rewrite list_fmap_insert. Qed.

Lemma step_refines q k N sys sys' :
  Inv q k N sys → step sys sys' →
  abstraction sys' = abstraction sys ∨ broadcast_step (abstraction sys) (abstraction sys').
Proof.
  intros [Hr Hlen Hps _ [Hk Hrd]] Hs.
  destruct Hs as [i b v p r' p' out sys Hi Hst|i p log r' p' out sys Hi Hst].
  - assert (Hout : out = [] ∨ ∃ w, out = [w]).
    { destruct p; cbn [pub_step] in Hst; repeat case_match; simplify_eq; eauto. }
    unfold abstraction. cbn. destruct Hout as [->|[w ->]].
    + left. by rewrite app_nil_r.
    + right. constructor.
  - pose proof (Hrd _ _ _ Hi) as (_ & Hn & Hl & Hp & Hsh).
    rewrite (abstraction_reader _ _ _ _ i p log) by done.
    assert (Hlog : (snd <$> readers sys) !! i = Some log) by (by rewrite list_lookup_fmap, Hi).
    assert (Hsame : out = [] → (published sys, <[i := log ++ out]> (snd <$> readers sys)) = abstraction sys).
    { intros ->. unfold abstraction. rewrite app_nil_r, list_insert_id; done. }
    destruct p as [t|t|t u|t u]; cbn [reader_step] in Hst; try (left; apply Hsame; by simplify_eq).
    destruct (show_entry (the_ring sys) t) as [w|] eqn:Ew; cbn in Hst; [|done]. simplify_eq.
    right. apply broadcast_consume; [done|]. cbn [needs has_read] in *. rewrite Hsh in Ew by lia.
    rewrite length_take. replace (Nat.min _ _) with (Z.to_nat (t - 1)) by lia. done.
Qed.
End Ring.

(** ** Schedules *)

Section Schedule.
Context {A : Type}.

Inductive choice := Publish (i : nat) (blocking : bool) (v : A) | Read (i : nat).

Definition exec (c : choice) (sys : @system A) : option system :=
  match c with
  | Publish i b v =>
      p ← pubs sys !! i;
      '(r', p', out) ← pub_step b v (the_ring sys) p;
      Some (mkSystem r' (<[i := p']> (pubs sys)) (readers sys) (published sys ++ out))
  | Read i =>
      '(p, log) ← readers sys !! i;
      '(r', p', out) ← reader_step i (the_ring sys) p;
      Some (mkSystem r' (pubs sys) (<[i := (p', log ++ out)]> (readers sys)) (published sys))
  end.

Fixpoint exec_all (cs : list choice) (sys : @system A) : option system :=
  match cs with [] => Some sys | c :: cs => sys ← exec c sys; exec_all cs sys end.

Lemma exec_step c sys sys' : exec c sys = Some sys' → step sys sys'.
Proof.
  destruct c as [i b v|i]; cbn [exec].
  - destruct (pubs sys !! i) as [p|] eqn:Hi; [obind | done].
    destruct (pub_step b v (the_ring sys) p) as [[[r' p'] out]|] eqn:Hs; [obind | done].
    intros [= <-]. by eapply step_pub.
  - destruct (readers sys !! i) as [[p log]|] eqn:Hi; [obind | done].
    destruct (reader_step i (the_ring sys) p) as [[[r' p'] out]|] eqn:Hs; [obind | done].
    intros [= <-]. by eapply step_reader.
Qed.

Lemma reaches_cons n (a b c : @system A) : step a b → reaches n b c → reaches (S n) a c.
Proof.
  intros Hab. induction 1 as [x|n b c d _ IH Hcd].
  - eapply reaches_step; [apply reaches_refl | done].
  - eapply reaches_step; [by apply IH | done].
Qed.

Lemma exec_all_reaches cs sys sys' : exec_all cs sys = Some sys' → reaches (length cs) sys sys'.
Proof.
  revert sys. induction cs as [|c cs IH]; intros sys; cbn [exec_all length].
  - intros [= <-]. constructor.
  - destruct (exec c sys) as [x|] eqn:E; [obind | done]. intros H.
    eapply reaches_cons; [by eapply exec_step | by apply IH].
Qed.
End Schedule.

(** ** Properties *)

Section Properties.
Context {A : Type} (q : Z) (k pn procs : nat) (content : list A) (r : ring A).

(** A ring of [2^q] entries with at least one reader, all registered before
    the first entry is published. *)
Definition ring_setup : Prop :=
  0 ≤ q < 62 ∧ zlen content = 2 ^ q ∧ (0 < k ≤ procs)%nat ∧
  register_all k (ring_buffer_init procs content) = Some r.

Lemma reachable_inv n sys :
  ring_setup → reaches n (start_system r k pn) sys → Z.of_nat n + 2 < 2 ^ 62 → Inv q k (Z.of_nat n) sys.
Proof.
  intros (Hq & Hlen & Hk & Hr) Hs Hn. eapply inv_reaches; [|done..]. by eapply inv_start.
Qed.

(** C10: in every interleaving, a publisher that was granted an entry may
    write it: its place in the ring is not that of any entry some reader has
    still to read, nor that of an entry granted to another publisher.  (Fewer
    than [2^62] steps, so that no cursor wraps around.) *)
Theorem disruptor_never_overwrites n sys :
  ring_setup → reaches n (start_system r k pn) sys → Z.of_nat n + 2 < 2 ^ 62 →
  ∀ i s, pubs sys !! i = Some (PGranted s) →
    (∀ j p log t, readers sys !! j = Some (p, log) → needs p ≤ t ≤ max_read_cursor (the_ring sys) →
       Z.to_nat (entry_index (the_ring sys) s) ≠ Z.to_nat (entry_index (the_ring sys) t)) ∧
    (∀ j s', i ≠ j → pubs sys !! j = Some (PGranted s') →
       Z.to_nat (entry_index (the_ring sys) s) ≠ Z.to_nat (entry_index (the_ring sys) s')).
Proof.
  intros Hset Hs Hn i s Hi. pose proof (reachable_inv n sys Hset Hs Hn) as HI.
  pose proof HI as [Hr _ Hps Hcl [Hk Hrd]]. pose proof Hr as (Hq & Hmask & _ & Hmr & _).
  pose proof (Hps _ _ Hi) as [Hc Hw]. pose proof (Hc s eq_refl). split.
  - intros j p log t Hj Ht. destruct (Hrd _ _ _ Hj) as ((c & Hcj & ?) & _).
    assert (Hjk : (j < k)%nat) by (apply lookup_lt_Some in Hj; lia).
    pose proof (Hw j c Hjk Hcj). apply (index_differs q); lia.
  - intros j s' Hne Hj. pose proof (Hps _ _ Hj) as [Hc' Hw']. pose proof (Hc' s' eq_refl).
    apply (claims_apart q k (Z.of_nat n)); try done; [by eapply inv_reader0 | lia | lia |].
    intros <-. by eapply Hne, Hcl.
Qed.

(** C9: the ring is a broadcast queue: whatever the interleaving, what has
    been committed and what the readers have read is the result of a sequence
    of two kinds of events, a value is appended to the queue, or a reader takes
    the next value it has not had. *)
Theorem disruptor_refines_broadcast n sys :
  ring_setup → reaches n (start_system r k pn) sys → Z.of_nat n + 2 < 2 ^ 62 →
  rtc broadcast_step ([], replicate k []) (abstraction sys).
Proof.
  intros Hset Hs. remember (start_system r k pn) as a eqn:Ea.
  induction Hs as [sys|n a b c Hab IH Hbc]; intros Hn; subst.
  - unfold abstraction, start_system. cbn. by rewrite fmap_replicate.
  - specialize (IH eq_refl ltac:(lia)).
    pose proof (reachable_inv n b Hset Hab ltac:(lia)) as HI.
    destruct (step_refines q k (Z.of_nat n) b c HI Hbc) as [->|Hb]; [done|].
    by eapply rtc_r.
Qed.

(** C32: nothing blocks for ever on its own account: every thread always has a
    next step (no access outside the ring), and when entries are claimed but
    not yet readable, the next one to become readable is claimed by some
    publisher, so the numbers have no gap that [commit] would wait for. *)
Theorem disruptor_no_gap n sys :
  ring_setup → reaches n (start_system r k pn) sys → Z.of_nat n + 2 < 2 ^ 62 →
  (∀ i p b v, pubs sys !! i = Some p → is_Some (pub_step b v (the_ring sys) p)) ∧
  (∀ i p log, readers sys !! i = Some (p, log) → is_Some (reader_step i (the_ring sys) p)) ∧
  (max_read_cursor (the_ring sys) < write_cursor (the_ring sys) →
   ∃ i p, pubs sys !! i = Some p ∧ claim p = Some (max_read_cursor (the_ring sys) + 1)).
Proof.
  intros Hset Hs Hn. pose proof (reachable_inv n sys Hset Hs Hn) as HI.
  pose proof HI as [Hr Hlen Hps Hcl [Hk Hrd]]. split_and!.
  - intros i p b v Hi. destruct p as [|b' s m x|s|s|s w|s w]; cbn [pub_step]; try (by eexists).
    + case_match; by eexists.
    + pose proof (Hps _ _ Hi) as [Hc _]. pose proof (Hc s eq_refl). pose proof Hr as (_ & _ & _ & ? & _).
      rewrite (proj2 (Nat.ltb_lt _ _)); [by eexists|]. eapply index_inside; [done | lia].
  - intros i p log Hi. destruct (Hrd _ _ _ Hi) as ((c & _ & ?) & Hneed & _ & Hp & Hsh).
    destruct p as [t|t|t u|t u]; cbn [reader_step needs] in *; try (by eexists).
    rewrite Hsh by lia. destruct (lookup_lt_is_Some_2 (published sys) (Z.to_nat (t - 1))) as [v ->]; [lia|].
    by eexists.
  - intros Hlt. destruct Hset as (Hq & Hl & Hk' & Hreg).
    apply (gapless_reaches q k n (start_system r k pn) sys); [by eapply inv_start | | done | done | lia].
    rewrite register_all_spec in Hreg by lia. injection Hreg as <-. intros s ?. cbn in *. lia.
Qed.
End Properties.

(** ** A concrete ring: two entries, one reader, two publishers *)

Definition demo_ring : ring Z :=
  default (ring_buffer_init 2 [0; 0]) (register_all 1 (ring_buffer_init 2 [0; 0])).

(** Publisher 0 publishes 7, the reader takes it and releases it, publisher 1
    is granted the second entry. *)
Definition demo_schedule : list (@choice Z) :=
  replicate 4 (Publish 0 true 7) ++ replicate 3 (Publish 0 true 7) ++ replicate 3 (Read 0) ++
  replicate 4 (Publish 1 true 8) ++ [Read 0].

Definition demo_system : @system Z :=
  default (start_system demo_ring 1 2) (exec_all demo_schedule (start_system demo_ring 1 2)).

Lemma demo_setup : ring_setup 1 1 2 [0; 0] demo_ring.
Proof. unfold ring_setup. split_and!; try (cbn; lia); reflexivity. Qed.

Lemma demo_reaches : reaches 15 (start_system demo_ring 1 2) demo_system.
Proof. apply (exec_all_reaches demo_schedule). vm_compute. reflexivity. Qed.

Lemma disruptor_never_overwrites_witness :
  pubs demo_system !! 1%nat = Some (PGranted 2) ∧
  (∀ j p log t, readers demo_system !! j = Some (p, log) →
     needs p ≤ t ≤ max_read_cursor (the_ring demo_system) →
     Z.to_nat (entry_index (the_ring demo_system) 2) ≠ Z.to_nat (entry_index (the_ring demo_system) t)) ∧
  (∀ j s', 1%nat ≠ j → pubs demo_system !! j = Some (PGranted s') →
     Z.to_nat (entry_index (the_ring demo_system) 2) ≠ Z.to_nat (entry_index (the_ring demo_system) s')).
Proof.
  split; [reflexivity|].
  apply (disruptor_never_overwrites 1 1 2 2 [0; 0] demo_ring 15 demo_system).
  - exact demo_setup.
  - exact demo_reaches.
  - lia.
  - reflexivity.
Defined.

Lemma disruptor_refines_broadcast_witness :
  abstraction demo_system = ([7], [[7]]) ∧
  rtc broadcast_step ([], replicate 1 []) (abstraction demo_system).
Proof.
  split; [reflexivity|].
  apply (disruptor_refines_broadcast 1 1 2 2 [0; 0] demo_ring 15 demo_system).
  - exact demo_setup.
  - exact demo_reaches.
  - lia.
Defined.

Lemma disruptor_no_gap_witness :
  (∀ i p b v, pubs demo_system !! i = Some p → is_Some (pub_step b v (the_ring demo_system) p)) ∧
  (∀ i p log, readers demo_system !! i = Some (p, log) →
     is_Some (reader_step i (the_ring demo_system) p)) ∧
  (max_read_cursor (the_ring demo_system) < write_cursor (the_ring demo_system) →
   ∃ i p, pubs demo_system !! i = Some p ∧
     claim p = Some (max_read_cursor (the_ring demo_system) + 1)).
Proof.
  apply (disruptor_no_gap 1 1 2 2 [0; 0] demo_ring 15 demo_system).
  - exact demo_setup.
  - exact demo_reaches.
  - lia.
Defined.
