(* ===== verification/RingQueue.v ===== *)
(** * A ring used by whole calls

    The operations of [Disruptor] as a caller sees them: a call happens at once,
    and one that would wait for another thread is [Waits] and changes nothing.
    [publish] is the publisher of [Disruptor] run alone; a ring between its
    cursors then [holds] a bounded queue, which is what the queues of the popper
    and of the pusher are proved with. *)
From S2P Require Import Prelude Disruptor.

(** ** Calls *)

Inductive call (A : Type) : Type := Returns (x : A) | Waits | Undefined.
Arguments Returns {A} x.
Arguments Waits {A}.
Arguments Undefined {A}.

Definition cbind {A B} (x : call A) (f : A → call B) : call B :=
  match x with Returns a => f a | Waits => Waits | Undefined => Undefined end.

#[global] Instance call_mbind : MBind call := λ A B f x, cbind x f.

Definition waits {A} (x : call A) : bool := match x with Waits => true | _ => false end.

Lemma waits_true {A} (x : call A) : waits x = true → x = Waits.
Proof. by destruct x. Qed.

Definition defined {A} (x : option A) : call A := match x with Some a => Returns a | None => Undefined end.

(** ** The ring from outside *)

Section Ring.
Context {A : Type}.
Implicit Types (r : ring A).

(** [wait_for_blocking]: the last entry that can be read. *)
Definition wait_for_blocking (cursor : Z) r : call Z :=
  if max_read_cursor r <? cursor then Waits else Returns (max_read_cursor r).

(** [ring_buffer_acquire_entry] and a store through the pointer. *)
Definition store_entry (sequence : Z) (v : A) r : ring A :=
  set_buffer (<[Z.to_nat (entry_index r sequence) := v]> (buffer r)) r.

(** [entry_processor_barrier_register] takes the first vacant spot. *)
Fixpoint first_vacant (cursors : list Z) : option nat :=
  match cursors with
  | [] => None
  | c :: cursors => if c =? VACANT then Some O else S <$> first_vacant cursors
  end.

Definition barrier_register r : call (Z * nat * ring A) :=
  match first_vacant (entry_processor_cursors r) with
  | None => Waits
  | Some n => '(s, r) ← defined (register n r); Returns (s, n, r)
  end.

(** A publisher alone, until [stop] gives a result, for at most [fuel] steps. *)
Fixpoint pub_until {B} (stop : ring A → @publisher A → list A → option B) (blocking : bool) (fuel : nat) (v : A) r
    (p : @publisher A) : call B :=
  match fuel with
  | O => Waits
  | S fuel =>
      '(r, p, out) ← defined (pub_step blocking v r p);
      match stop r p out with Some x => Returns x | None => pub_until stop blocking fuel v r p end
  end.

Definition has_committed r (p : @publisher A) (out : list A) : option (ring A) :=
  match out with [] => None | _ :: _ => Some r end.

Definition has_entry r (p : @publisher A) (out : list A) : option (Z * ring A) :=
  match p with PGranted s => Some (s, r) | _ => None end.

(** Next entry, store, commit; one pass over the cursors. *)
Definition publish (v : A) r : call (ring A) :=
  pub_until has_committed true (length (entry_processor_cursors r) + 5) v r PIdle.

(** The same with the version that does not block, called until it grants an
    entry. *)
Definition spin_publish (v : A) r : call (ring A) :=
  pub_until has_committed false (length (entry_processor_cursors r) + 6) v r PIdle.

(** [publisher_next_entry_blocking] alone: the entry it grants; [v] is not
    used. *)
Definition claim (v : A) r : call (Z * ring A) :=
  pub_until has_entry true (length (entry_processor_cursors r) + 2) v r PIdle.

(** The store into entry [s] and [publisher_commit_entry_blocking]. *)
Definition commit_entry (s : Z) (v : A) r : call (ring A) := pub_until has_committed true 3 v r (PGranted s).
End Ring.

(** ** A ring and its reader *)

(** A ring with the cursor and the registration of the thread that
    reads it. *)
Record queue (A : Type) := mkQueue { ring_ : ring A; cursor : Z; reg_number : nat }.
Arguments mkQueue {A}.
Arguments ring_ {A}.
Arguments cursor {A}.
Arguments reg_number {A}.

Section Queue.
Context {A : Type}.

(** The entry the next publisher acquires. *)
Definition next_entry (q : queue A) : call A := defined (show_entry (ring_ q) (u64 (1 + write_cursor (ring_ q)))).

Definition commit (e : A) (q : queue A) : call (queue A) :=
  r ← publish e (ring_ q); Returns (mkQueue r (cursor q) (reg_number q)).

(** [wait_for_nonblocking]. *)
Definition wait_for_nonblocking (cursor : Z) (r : ring A) : option Z :=
  if max_read_cursor r <? cursor then None else Some (max_read_cursor r).

Definition unregister_queue (q : queue A) : queue A :=
  mkQueue (unregister (reg_number q) (ring_ q)) (cursor q) (reg_number q).

(** The registration at the start of the thread. *)
Definition register_queue (r : ring A) : call (queue A) :=
  '(s, n, r) ← barrier_register r; Returns (mkQueue r s n).
End Queue.

(** ** A publisher alone *)

Section Publish.
Context {A : Type}.
Implicit Types (r : ring A).

Lemma index_within q r s : 0 ≤ q → reduced_size r = 2 ^ q - 1 → zlen (buffer r) = 2 ^ q → 0 ≤ s →
  (Z.to_nat (entry_index r s) < length (buffer r))%nat.
Proof.
  intros Hq Hr Hb Hs. assert (Hp : 0 < 2 ^ q) by (apply Z.pow_pos_nonneg; lia).
  rewrite (index_mod q) by lia. pose proof (Z.mod_pos_bound s (2 ^ q) Hp). lia.
Qed.

Definition slowest (cursors : list Z) (m : Z) : Z := foldl (λ m c, if c <? m then c else m) m cursors.

(** What a publisher takes for the slowest reader. *)
Definition reckoned r (w : Z) : Z :=
  let m := slowest (entry_processor_cursors r) VACANT in
  if VACANT =? m then u64 (w + 1 - Z.land (reduced_size r) (w + 1)) else m.

Lemma pub_until_S {B} (stop : ring A → @publisher A → list A → option B) b fuel (v : A) r p :
  pub_until stop b (S fuel) v r p
  = '(r, p, out) ← defined (pub_step b v r p);
    match stop r p out with Some x => Returns x | None => pub_until stop b fuel v r p end.
Proof. reflexivity. Qed.

Section Scan.
Context {B : Type} (stop : ring A → @publisher A → list A → option B).
Context (stop_scan : ∀ r b s n m, stop r (PScan b s n m) [] = None).

Lemma pub_scan bl b (v : A) r s f : ∀ k n m, k = (length (entry_processor_cursors r) - n)%nat →
  pub_until stop bl (S k + f) v r (PScan b s n m)
  = let '(r', p') := pub_check b s (slowest (drop n (entry_processor_cursors r)) m) r in
    match stop r' p' [] with Some x => Returns x | None => pub_until stop bl f v r' p' end.
Proof.
  induction k as [|k IH]; intros n m Hk; rewrite Nat.add_succ_l, pub_until_S; cbn [Nat.add pub_step].
  - rewrite lookup_ge_None_2, drop_ge by lia. cbn [slowest foldl].
    destruct (pub_check b s m r) as [r' p'] eqn:E. reflexivity.
  - destruct (lookup_lt_is_Some_2 (entry_processor_cursors r) n) as [c Hc]; [lia|]. rewrite Hc.
    cbn [defined mbind call_mbind cbind]. rewrite stop_scan.
    rewrite <- Nat.add_succ_l, (IH (S n)) by lia. by rewrite (drop_S _ c n).
Qed.

(** A lap ahead, a publisher goes on looking. *)
Lemma pub_stuck (v : A) s sl : ∀ f r n m, VACANT ≠ sl → (u64 (s - sl) <=? reduced_size r) = false →
  slowest (entry_processor_cursors r) VACANT = sl → slowest (drop n (entry_processor_cursors r)) m = sl →
  pub_until stop true f v r (PScan true s n m) = Waits.
Proof.
  induction f as [|f IH]; intros r n m Hv Hu Hall Hrest; [done|]. rewrite pub_until_S. cbn [pub_step].
  destruct (entry_processor_cursors r !! n) as [c|] eqn:Hc; cbn [defined mbind call_mbind cbind].
  - rewrite stop_scan. apply IH; try done. by rewrite (drop_S _ c n) in Hrest.
  - apply lookup_ge_None_1 in Hc. rewrite drop_ge in Hrest by done. cbn [slowest foldl] in Hrest. subst m.
    unfold pub_check. rewrite (proj2 (Z.eqb_neq VACANT sl)) by done. cbn [set_slowest reduced_size]. rewrite Hu.
    cbn [defined mbind call_mbind cbind]. rewrite stop_scan. by apply IH.
Qed.
End Scan.

(** So does one that asks again and again: it has not moved the write cursor. *)
Lemma spin_stuck (v : A) w sl : ∀ f r p, VACANT ≠ sl → write_cursor r = w → 0 ≤ w < 2 ^ 62 →
  (u64 (w + 1 - sl) <=? reduced_size r) = false → slowest (entry_processor_cursors r) VACANT = sl →
  (p = PIdle ∨ ∃ n m, p = PScan false (w + 1) n m ∧ slowest (drop n (entry_processor_cursors r)) m = sl) →
  pub_until has_committed false f v r p = Waits.
Proof.
  induction f as [|f IH]; intros r p Hv Hw Hb Hu Hall Hp; [done|]. rewrite pub_until_S.
  destruct Hp as [->|(n & m & -> & Hrest)]; cbn [pub_step].
  - cbn [pub_start defined mbind call_mbind cbind has_committed].
    replace (u64 (1 + write_cursor r)) with (w + 1) by (rewrite Hw; unfold u64; rewrite Z.mod_small; lia).
    apply IH; try done. right. exists O, VACANT. by rewrite drop_0.
  - destruct (entry_processor_cursors r !! n) as [c|] eqn:Hc; cbn [defined mbind call_mbind cbind has_committed].
    + apply IH; try done. right. eexists _, _. split; [done|]. by rewrite (drop_S _ c n) in Hrest.
    + apply lookup_ge_None_1 in Hc. rewrite drop_ge in Hrest by done. cbn [slowest foldl] in Hrest. subst m.
      unfold pub_check. rewrite (proj2 (Z.eqb_neq VACANT sl)) by done. cbn [set_slowest reduced_size]. rewrite Hu.
      cbn [defined mbind call_mbind cbind]. apply IH; try done. by left.
Qed.

(** The three steps after the grant. *)
Lemma commit_steps b (v : A) r q s f :
  0 ≤ q < 62 → reduced_size r = 2 ^ q - 1 → zlen (buffer r) = 2 ^ q → 0 < s < 2 ^ 64 - 1 → max_read_cursor r = s - 1 →
  pub_until has_committed b (3 + f) v r (PGranted s)
  = Returns (mkRing (reduced_size r) (slowest_entry_processor r) s (write_cursor r) (entry_processor_cursors r)
               (<[Z.to_nat (entry_index r s) := v]> (buffer r))).
Proof.
  intros Hq Hr Hb Hs Hmr. cbn [Nat.add]. rewrite pub_until_S. cbn [pub_step]. rewrite (proj2 (Nat.ltb_lt _ _)).
  2: { apply (index_within q); (done || lia). }
  cbn [defined mbind call_mbind cbind has_committed]. rewrite pub_until_S.
  cbn [pub_step set_buffer max_read_cursor]. rewrite Hmr.
  replace (u64 (s - 1)) with (s - 1) by (unfold u64; rewrite Z.mod_small; lia). rewrite Z.eqb_refl.
  cbn [defined mbind call_mbind cbind has_committed]. rewrite pub_until_S.
  cbn [pub_step set_buffer max_read_cursor set_max_read has_committed defined mbind call_mbind cbind].
  rewrite Hmr. replace (u64 (s - 1 + 1)) with s by (unfold u64; rewrite Z.mod_small; lia). reflexivity.
Qed.

Section Grant.
Context (r : ring A) (w : Z) (Hw : 0 ≤ w < 2 ^ 62) (Hwr : write_cursor r = w).
Context (Hm : 0 ≤ reckoned r w ≤ w + 1).
Context (Hvacant : slowest (entry_processor_cursors r) VACANT = VACANT → w + 1 - reckoned r w ≤ reduced_size r).
#[local] Abbreviation granted := (mkRing (reduced_size r) (reckoned r w) (max_read_cursor r) (w + 1)
  (entry_processor_cursors r) (buffer r)).

#[local] Lemma next_number : u64 (1 + write_cursor r) = w + 1.
Proof. rewrite Hwr. unfold u64. rewrite Z.mod_small; lia. Qed.

#[local] Lemma distance : u64 (w + 1 - reckoned r w) = w + 1 - reckoned r w.
Proof. unfold u64. apply Z.mod_small. lia. Qed.

#[local] Lemma reckoned_slowest : (w + 1 - reckoned r w <=? reduced_size r) = false →
  VACANT ≠ slowest (entry_processor_cursors r) VACANT ∧ reckoned r w = slowest (entry_processor_cursors r) VACANT.
Proof.
  intros E%Z.leb_gt. unfold reckoned in *.
  destruct (Z.eqb_spec VACANT (slowest (entry_processor_cursors r) VACANT)); [specialize (Hvacant ltac:(done)); lia | done].
Qed.

(** A blocking claim, up to the grant. *)
Lemma claim_steps {B} (stop : ring A → @publisher A → list A → option B) (v : A) f :
  (∀ r b s n m, stop r (PScan b s n m) [] = None) →
  pub_until stop true (length (entry_processor_cursors r) + 2 + f) v r PIdle
  = if w + 1 - reckoned r w <=? reduced_size r
    then match stop granted (PGranted (w + 1)) [] with
         | Some x => Returns x
         | None => pub_until stop true f v granted (PGranted (w + 1)) end
    else Waits.
Proof using Hw Hwr Hm Hvacant.
  intros Hstop.
  replace (length (entry_processor_cursors r) + 2 + f)%nat with (S (S (length (entry_processor_cursors r)) + f)) by lia.
  rewrite pub_until_S. cbn [pub_step pub_start defined mbind call_mbind cbind]. rewrite Hstop, next_number.
  rewrite (pub_scan stop Hstop) by (cbn [set_write entry_processor_cursors]; lia).
  cbn [set_write entry_processor_cursors]. rewrite drop_0. unfold pub_check.
  change (reduced_size (set_write (w + 1) r)) with (reduced_size r). fold (reckoned r w).
  rewrite distance. change (reduced_size (set_slowest _ (set_write (w + 1) r))) with (reduced_size r).
  destruct (w + 1 - reckoned r w <=? reduced_size r) eqn:E; [done|]. rewrite Hstop.
  apply reckoned_slowest in E as E'. destruct E' as [Hv Hs].
  apply (pub_stuck stop Hstop v (w + 1) (reckoned r w)); rewrite ?Hs; try done.
  cbn [reduced_size set_slowest set_write]. by rewrite <- Hs, distance.
Qed.

(** The other version. *)
Lemma spin_steps (v : A) f :
  pub_until has_committed false (length (entry_processor_cursors r) + 3 + f) v r PIdle
  = if w + 1 - reckoned r w <=? reduced_size r
    then pub_until has_committed false f v granted (PGranted (w + 1))
    else Waits.
Proof using Hw Hwr Hm Hvacant.
  replace (length (entry_processor_cursors r) + 3 + f)%nat with (S (S (length (entry_processor_cursors r)) + S f)) by lia.
  rewrite pub_until_S. cbn [pub_step pub_start defined mbind call_mbind cbind has_committed]. rewrite next_number.
  rewrite (pub_scan has_committed) by (done || lia). rewrite drop_0. unfold pub_check.
  fold (reckoned r w). rewrite distance.
  change (reduced_size (set_slowest _ r)) with (reduced_size r).
  destruct (w + 1 - reckoned r w <=? reduced_size r) eqn:E; cbn [has_committed].
  - rewrite pub_until_S. cbn [pub_step]. change (write_cursor (set_slowest (reckoned r w) r)) with (write_cursor r).
    rewrite Hwr. replace (u64 (w + 1 - 1)) with w by (unfold u64; rewrite Z.mod_small; lia). rewrite Z.eqb_refl. done.
  - apply reckoned_slowest in E as E'. destruct E' as [Hv Hs]. rewrite <- Hs in Hv.
    apply (spin_stuck v w (reckoned r w)); try done; cbn [set_slowest reduced_size entry_processor_cursors].
    + by rewrite distance.
    + by left.
Qed.
End Grant.

(** What [publish] does on a ring without other publishers: it waits, or stores
    and commits the next entry. *)
Lemma publish_reckoned (v : A) r q w :
  0 ≤ q < 62 → reduced_size r = 2 ^ q - 1 → zlen (buffer r) = 2 ^ q → 0 ≤ w < 2 ^ 62 →
  write_cursor r = w → max_read_cursor r = w → 0 ≤ reckoned r w ≤ w + 1 →
  (slowest (entry_processor_cursors r) VACANT = VACANT → w + 1 - reckoned r w ≤ reduced_size r) →
  let x := if w + 1 - reckoned r w <=? reduced_size r
           then Returns (mkRing (reduced_size r) (reckoned r w) (w + 1) (w + 1) (entry_processor_cursors r)
                           (<[Z.to_nat (entry_index r (w + 1)) := v]> (buffer r)))
           else Waits in
  publish v r = x ∧ spin_publish v r = x.
Proof.
  intros Hq Hr Hb Hw Hwr Hmr Hm Hv x. unfold publish, spin_publish.
  replace (length (entry_processor_cursors r) + 5)%nat with (length (entry_processor_cursors r) + 2 + 3)%nat by lia.
  replace (length (entry_processor_cursors r) + 6)%nat with (length (entry_processor_cursors r) + 3 + 3)%nat by lia.
  rewrite (claim_steps r w Hw Hwr Hm Hv has_committed v 3), (spin_steps r w Hw Hwr Hm Hv v 3) by done. subst x.
  destruct (w + 1 - reckoned r w <=? reduced_size r); [|done]. cbn [has_committed].
  rewrite (commit_steps true v _ q (w + 1) 0), (commit_steps false v _ q (w + 1) 0); (done || cbn [max_read_cursor]; lia).
Qed.

Lemma reckoned_reader r w sl : slowest (entry_processor_cursors r) VACANT = sl → 0 ≤ sl ≤ w + 1 → w < 2 ^ 62 →
  reckoned r w = sl.
Proof. intros Hs Hb Hw. unfold reckoned. rewrite Hs, (proj2 (Z.eqb_neq VACANT sl)); [done | unfold VACANT; lia]. Qed.

Lemma reckoned_vacant r q w : 0 ≤ q < 62 → reduced_size r = 2 ^ q - 1 → 0 ≤ w < 2 ^ 62 →
  slowest (entry_processor_cursors r) VACANT = VACANT →
  reckoned r w = w + 1 - (w + 1) mod 2 ^ q ∧ 0 ≤ reckoned r w ≤ w + 1 ∧ w + 1 - reckoned r w ≤ reduced_size r.
Proof.
  intros Hq Hr Hw Hs. assert (Hp : 0 < 2 ^ q) by (apply Z.pow_pos_nonneg; lia). unfold reckoned. rewrite Hs, Z.eqb_refl.
  assert (Hl : Z.land (reduced_size r) (w + 1) = (w + 1) mod 2 ^ q) by (apply (index_mod q); lia).
  pose proof (Z.mod_pos_bound (w + 1) (2 ^ q) Hp) as Hmod. pose proof (Z.mod_le (w + 1) (2 ^ q) ltac:(lia) Hp) as Hmle.
  rewrite Hl. assert (Hu : u64 (w + 1 - (w + 1) mod 2 ^ q) = w + 1 - (w + 1) mod 2 ^ q) by (unfold u64; apply Z.mod_small; lia).
  rewrite Hu. lia.
Qed.

Lemma publish_spec (v : A) r q w sl :
  0 ≤ q < 62 → reduced_size r = 2 ^ q - 1 → zlen (buffer r) = 2 ^ q → 0 ≤ w < 2 ^ 62 →
  write_cursor r = w → max_read_cursor r = w → slowest (entry_processor_cursors r) VACANT = sl → 0 ≤ sl ≤ w + 1 →
  let x := if w + 1 - sl <=? reduced_size r
           then Returns (mkRing (reduced_size r) sl (w + 1) (w + 1) (entry_processor_cursors r)
                           (<[Z.to_nat (entry_index r (w + 1)) := v]> (buffer r)))
           else Waits in
  publish v r = x ∧ spin_publish v r = x.
Proof.
  intros Hq Hr Hb Hw Hwr Hmr Hsl Hle. pose proof (reckoned_reader r w sl Hsl Hle ltac:(lia)) as Hm.
  rewrite <- Hm. apply (publish_reckoned v r q w); try done; [lia|]. intros Hx. unfold VACANT in *. lia.
Qed.

(** A ring that no entry processor reads grants every entry at once. *)
Lemma publish_vacant (v : A) r q w :
  0 ≤ q < 62 → reduced_size r = 2 ^ q - 1 → zlen (buffer r) = 2 ^ q → 0 ≤ w < 2 ^ 62 →
  write_cursor r = w → max_read_cursor r = w → slowest (entry_processor_cursors r) VACANT = VACANT →
  let r' := mkRing (reduced_size r) (w + 1 - (w + 1) mod 2 ^ q) (w + 1) (w + 1) (entry_processor_cursors r)
              (<[Z.to_nat (entry_index r (w + 1)) := v]> (buffer r)) in
  publish v r = Returns r' ∧ spin_publish v r = Returns r'.
Proof.
  intros Hq Hr Hb Hw Hwr Hmr Hs r'. destruct (reckoned_vacant r q w) as (Hm & Hm1 & Hm2); try done.
  subst r'. rewrite <- Hm. pose proof (publish_reckoned v r q w) as H. rewrite (proj2 (Z.leb_le _ _)) in H by done.
  by apply H.
Qed.

(** [claim] and [commit_entry] are the two halves of [publish]. *)
Lemma claim_spec (v : A) r w sl : 0 ≤ w < 2 ^ 62 → write_cursor r = w →
  slowest (entry_processor_cursors r) VACANT = sl → 0 ≤ sl ≤ w + 1 →
  claim v r = if w + 1 - sl <=? reduced_size r
              then Returns (w + 1, mkRing (reduced_size r) sl (max_read_cursor r) (w + 1) (entry_processor_cursors r) (buffer r))
              else Waits.
Proof.
  intros Hw Hwr Hsl Hle. unfold claim. pose proof (reckoned_reader r w sl Hsl Hle ltac:(lia)) as Hm.
  rewrite <- (Nat.add_0_r (_ + 2)), (claim_steps r w) by (done || lia || (intros ?; unfold VACANT in *; lia)). by rewrite Hm.
Qed.

(** What a claim and a commit do to the cursor of the readers, whoever else
    uses the ring. *)
Lemma claim_read fuel (v : A) : ∀ r p s r', match p with PWritten _ _ | PCommit _ _ => False | _ => True end →
  pub_until has_entry true fuel v r p = Returns (s, r') → max_read_cursor r' = max_read_cursor r ∨ ∃ x, p = PGranted x.
Proof.
  induction fuel as [|fuel IH]; intros r p s r' Hp; [done|]. rewrite pub_until_S.
  destruct p as [|b i n m|i|i|i w|i w]; cbn [pub_step]; [| | |by eauto|done|done].
  - cbn [pub_start defined mbind call_mbind cbind has_entry]. intros H.
    apply IH in H; [destruct H as [E|[x Hx]]; [by left | done] | exact I].
  - destruct (entry_processor_cursors r !! n) as [c|]; cbn [defined mbind call_mbind cbind has_entry].
    + intros H. apply IH in H; [destruct H as [E|[x Hx]]; [by left | done] | exact I].
    + unfold pub_check. set (m' := if VACANT =? m then _ else m). destruct (_ <=? _), b; cbn [has_entry]; intros H;
        [by injection H as _ <-; left | ..]; (apply IH in H; [destruct H as [E|[x Hx]]; [by left | done] | exact I]).
  - destruct (write_cursor r =? u64 (i - 1)); cbn [defined mbind call_mbind cbind has_entry]; intros H;
      [by injection H as _ <-; left|]. apply IH in H; [destruct H as [E|[x Hx]]; [by left | done] | exact I].
Qed.

Lemma claim_keeps (v : A) r s r' : claim v r = Returns (s, r') → max_read_cursor r' = max_read_cursor r.
Proof. intros H. apply claim_read in H; [|exact I]. by destruct H as [?|[x Hx]]. Qed.

Lemma commit_read s (v : A) r r' : commit_entry s v r = Returns r' → max_read_cursor r' = u64 (max_read_cursor r + 1).
Proof.
  unfold commit_entry. rewrite pub_until_S. cbn [pub_step]. destruct (_ <? _)%nat; cbn [defined mbind call_mbind cbind has_committed]; [|done].
  rewrite pub_until_S. cbn [pub_step defined mbind call_mbind cbind has_committed set_buffer max_read_cursor].
  destruct (_ =? _); rewrite pub_until_S; cbn [pub_step defined mbind call_mbind cbind has_committed set_buffer max_read_cursor];
    [by intros [= <-] | done].
Qed.
End Publish.

(** ** A ring that holds a queue *)

Section Holds.
Context {A : Type} (q : Z).
Implicit Types (r : ring A) (m : A) (msgs : list A).

(** Entries [n] to [w] of a ring of [2 ^ q] entries are committed and hold
    [msgs]. *)
Record holds r (n w : Z) msgs : Prop := {
  h_q : 0 ≤ q < 62;
  h_size : reduced_size r = 2 ^ q - 1;
  h_buffer : zlen (buffer r) = 2 ^ q;
  h_write : write_cursor r = w;
  h_read : max_read_cursor r = w;
  h_first : 1 ≤ n;
  h_len : zlen msgs = w + 1 - n;
  h_lap : w - n ≤ 2 ^ q - 1;
  h_msgs : ∀ i m, msgs !! i = Some m → show_entry r (n + Z.of_nat i) = Some m }.

Lemma store_show r s t e : 0 ≤ q → reduced_size r = 2 ^ q - 1 → zlen (buffer r) = 2 ^ q → 0 ≤ s → 0 ≤ t →
  (s < t ∧ t - s ≤ 2 ^ q - 1 ∨ t < s ∧ s - t ≤ 2 ^ q - 1 ∨ s = t) →
  show_entry (store_entry s e r) t = if decide (s = t) then Some e else show_entry r t.
Proof.
  intros Hq Hr Hb Hs Ht Hne. unfold show_entry at 1, store_entry. cbn [set_buffer buffer].
  change (entry_index (set_buffer _ r) t) with (entry_index r t). case_decide as E.
  - subst. apply list_lookup_insert_eq. by apply (index_within q).
  - apply list_lookup_insert_ne. destruct Hne as [?|[?|?]]; [|apply (index_differs q); lia | lia].
    intros E'. symmetry in E'. revert E'. apply (index_differs q); lia.
Qed.

Lemma holds_stored r n w msgs m sl cursors : holds r n w msgs → w + 1 - n ≤ 2 ^ q - 1 →
  holds (mkRing (reduced_size r) sl (w + 1) (w + 1) cursors (<[Z.to_nat (entry_index r (w + 1)) := m]> (buffer r)))
    n (w + 1) (msgs ++ [m]).
Proof.
  intros [Hq Hs Hb Hw Hr H1 Hl Hlap Hm] Hroom. assert (0 ≤ zlen msgs) by lia.
  split; cbn [reduced_size buffer write_cursor max_read_cursor]; try done; try lia.
  - rewrite <- Hb. unfold zlen. by rewrite length_insert.
  - zlen_simpl. lia.
  - intros i x Hi.
    change (show_entry _ _) with (show_entry (store_entry (w + 1) m (mkRing (reduced_size r) 0 0 0 [] (buffer r))) (n + Z.of_nat i)).
    rewrite store_show by (cbn [reduced_size buffer]; (done || lia || (apply lookup_lt_Some in Hi; llia))).
    case_decide as Ei.
    + apply lookup_app_Some in Hi as [Hi|[Hi Hx]]; [apply lookup_lt_Some in Hi; lia|].
      apply list_lookup_singleton_Some in Hx as [_ <-]. done.
    + apply lookup_app_Some in Hi as [Hi|[Hi Hx]]; [exact (Hm i x Hi)|].
      apply list_lookup_singleton_Some in Hx as [? _]. lia.
Qed.

Lemma holds_commit r n w msgs m sl : holds r n w msgs → w < 2 ^ 62 →
  slowest (entry_processor_cursors r) VACANT = sl → 0 ≤ sl ≤ w + 1 → sl ≤ n →
  if w + 1 - sl <=? 2 ^ q - 1
  then ∃ r', publish m r = Returns r' ∧ holds r' n (w + 1) (msgs ++ [m])
             ∧ entry_processor_cursors r' = entry_processor_cursors r
             ∧ buffer r' = <[Z.to_nat (entry_index r (w + 1)) := m]> (buffer r)
  else publish m r = Waits.
Proof.
  intros H Hmax Hsl Hle Hn. pose proof H as [Hq Hs Hb Hw Hr H1 Hl Hlap Hm]. assert (0 ≤ zlen msgs) by lia.
  rewrite (proj1 (publish_spec m r q w sl ltac:(lia) Hs Hb ltac:(lia) Hw Hr Hsl ltac:(lia))).
  replace (w + 1 - sl <=? reduced_size r) with (w + 1 - sl <=? 2 ^ q - 1) by (by rewrite Hs).
  destruct (w + 1 - sl <=? 2 ^ q - 1) eqn:E; [|done]. apply Z.leb_le in E.
  eexists. split; [done|]. split; [|done]. apply holds_stored; [done | lia].
Qed.

(** The two ways to claim an entry come to the same. *)
Lemma holds_spin r n w msgs m sl : holds r n w msgs → w < 2 ^ 62 →
  slowest (entry_processor_cursors r) VACANT = sl → 0 ≤ sl ≤ w + 1 → spin_publish m r = publish m r.
Proof.
  intros [Hq Hs Hb Hw Hr H1 Hl Hlap Hm] Hmax Hsl Hle.
  destruct (publish_spec m r q w sl ltac:(lia) Hs Hb ltac:(lia) Hw Hr Hsl ltac:(lia)) as [-> ->]. done.
Qed.

(** Before anybody reads. *)
Lemma holds_vacant r n w msgs m : holds r n w msgs → w < 2 ^ 62 →
  slowest (entry_processor_cursors r) VACANT = VACANT → w + 1 - n ≤ 2 ^ q - 1 →
  ∃ r', spin_publish m r = Returns r' ∧ holds r' n (w + 1) (msgs ++ [m])
        ∧ entry_processor_cursors r' = entry_processor_cursors r
        ∧ buffer r' = <[Z.to_nat (entry_index r (w + 1)) := m]> (buffer r)
        ∧ slowest_entry_processor r' = w + 1 - (w + 1) mod 2 ^ q.
Proof.
  intros H Hmax Hsl Hroom. pose proof H as [Hq Hs Hb Hw Hr H1 Hl Hlap Hm].
  rewrite (proj2 (publish_vacant m r q w Hq Hs Hb ltac:(lia) Hw Hr Hsl)).
  eexists. split; [done|]. split; [|done]. by apply holds_stored.
Qed.

(** Entry [w + 1] is claimed as well, and there is room for it. *)
Definition claimed r (n w : Z) msgs : Prop :=
  holds (set_write w r) n w msgs ∧ write_cursor r = w + 1 ∧ w + 1 - n ≤ 2 ^ q - 1.

Lemma holds_claim r n w msgs v sl : holds r n w msgs → w < 2 ^ 62 →
  slowest (entry_processor_cursors r) VACANT = sl → 0 ≤ sl ≤ w + 1 → sl ≤ n →
  if w + 1 - sl <=? 2 ^ q - 1
  then ∃ r', claim v r = Returns (w + 1, r') ∧ claimed r' n w msgs
             ∧ entry_processor_cursors r' = entry_processor_cursors r ∧ buffer r' = buffer r
             ∧ reduced_size r' = reduced_size r
  else claim v r = Waits.
Proof.
  intros H Hmax Hsl Hle Hn. pose proof H as [Hq Hs Hb Hw Hr H1 Hl Hlap Hm].
  rewrite (claim_spec v r w sl) by (done || lia).
  replace (w + 1 - sl <=? reduced_size r) with (w + 1 - sl <=? 2 ^ q - 1) by (by rewrite Hs).
  destruct (w + 1 - sl <=? 2 ^ q - 1) eqn:E; [|done]. apply Z.leb_le in E.
  eexists. split; [done|]. split; [|done]. split; [|split; [done | lia]]. split; done.
Qed.

Lemma claimed_commit r n w msgs m : claimed r n w msgs → w < 2 ^ 62 →
  ∃ r', commit_entry (w + 1) m r = Returns r' ∧ holds r' n (w + 1) (msgs ++ [m])
        ∧ entry_processor_cursors r' = entry_processor_cursors r
        ∧ buffer r' = <[Z.to_nat (entry_index r (w + 1)) := m]> (buffer r)
        ∧ reduced_size r' = reduced_size r.
Proof.
  intros (H & Hw & Hroom) Hmax. pose proof H as [Hq Hs Hb _ Hr H1 Hl Hlap Hm]. cbn [set_write reduced_size buffer max_read_cursor] in *.
  unfold commit_entry. pose proof (commit_steps true m r q (w + 1) 0 Hq Hs Hb ltac:(lia) ltac:(lia)) as E.
  cbn [Nat.add] in E. rewrite E.
  eexists. split; [done|]. rewrite Hw. split; [|done]. by apply (holds_stored (set_write w r)).
Qed.

(** Entries [w + 1] to the end of the lap have not been used or are as a reader
    has left them. *)
Definition rest_are (e : A) r (n w : Z) : Prop := ∀ t, w + 1 ≤ t ≤ n + 2 ^ q - 1 → show_entry r t = Some e.

Lemma rest_take e r n w m msgs : holds r n w (m :: msgs) → rest_are e r n w →
  rest_are e (store_entry n e r) (n + 1) w.
Proof.
  intros [Hq Hs Hb Hw Hr H1 Hl Hlap Hm] Hrest t Ht. rewrite length_cons in Hl.
  assert (Hp : 0 < 2 ^ q) by (apply Z.pow_pos_nonneg; lia).
  destruct (Z.eq_dec t (n + 2 ^ q)) as [->|].
  - assert (Ei : entry_index r (n + 2 ^ q) = entry_index r n).
    { rewrite !(index_mod q) by lia. by rewrite <- (Z.mul_1_l (2 ^ q)) at 1; rewrite Z.mod_add by lia. }
    unfold show_entry, store_entry. cbn [set_buffer buffer].
    change (entry_index (set_buffer _ r) (n + 2 ^ q)) with (entry_index r (n + 2 ^ q)). rewrite Ei.
    apply list_lookup_insert_eq. apply (index_within q); (done || lia).
  - rewrite store_show by (done || lia). case_decide; [done|]. apply Hrest. lia.
Qed.

Lemma rest_commit e r r' n w msgs m : holds r n w msgs → w + 1 - n ≤ 2 ^ q - 1 → rest_are e r n w →
  buffer r' = <[Z.to_nat (entry_index r (w + 1)) := m]> (buffer r) → reduced_size r' = reduced_size r →
  rest_are e r' n (w + 1).
Proof.
  intros [Hq Hs Hb Hw Hr H1 Hl Hlap Hm] Hroom Hrest Hbuf Hred t Ht.
  assert (Hshow : show_entry r' t = show_entry (store_entry (w + 1) m r) t).
  { unfold show_entry, store_entry, entry_index. cbn [set_buffer buffer reduced_size]. by rewrite Hbuf, Hred. }
  rewrite Hshow, store_show by (done || lia). rewrite decide_False by lia. apply Hrest. lia.
Qed.

Lemma holds_show r n w m msgs : holds r n w (m :: msgs) → show_entry r n = Some m.
Proof. intros H. rewrite <- (Z.add_0_r n). exact (h_msgs _ _ _ _ H O m eq_refl). Qed.

Lemma holds_take r n w m msgs e : holds r n w (m :: msgs) → holds (store_entry n e r) (n + 1) w msgs.
Proof.
  intros [Hq Hs Hb Hw Hr H1 Hl Hlap Hm]. split; cbn [store_entry set_buffer reduced_size buffer write_cursor max_read_cursor];
    try (done || lia).
  - rewrite <- Hb. unfold zlen. by rewrite length_insert.
  - rewrite length_cons in Hl. lia.
  - intros i x Hi. pose proof (Hm (S i) x Hi) as Hx. apply lookup_lt_Some in Hi. rewrite length_cons in Hl.
    rewrite store_show by (done || lia). rewrite decide_False by lia.
    rewrite <- Hx. f_equal. lia.
Qed.

(** A reader that leaves the entry as it is. *)
Lemma holds_drop r n w m msgs : holds r n w (m :: msgs) → holds r (n + 1) w msgs.
Proof.
  intros [Hq Hs Hb Hw Hr H1 Hl Hlap Hm]. rewrite length_cons in Hl. split; try (done || lia).
  intros i x Hi. rewrite <- (Hm (S i) x Hi). f_equal. lia.
Qed.

Lemma holds_release r n w msgs k s : holds r n w msgs → holds (release_entry k s r) n w msgs.
Proof. intros []. by split. Qed.

Lemma holds_bound r n w msgs : holds r n w msgs → n ≤ w + 1 ∧ 0 ≤ w.
Proof. intros [_ _ _ _ _ ? Hl _ _]. lia. Qed.
End Holds.

Lemma register_fresh {A} k (content : list A) :
  barrier_register (ring_buffer_init (S k) content)
  = Returns (1, O, mkRing (zlen content - 1) 0 0 0 (1 :: replicate k VACANT) content).
Proof. reflexivity. Qed.

Lemma slowest_one k c : c < VACANT → slowest (c :: replicate k VACANT) VACANT = c.
Proof.
  intros H. cbn [slowest foldl]. rewrite (proj2 (Z.ltb_lt c VACANT)) by done.
  induction k as [|k IH]; [done|]. cbn [replicate foldl]. by rewrite (proj2 (Z.ltb_ge VACANT c)) by lia.
Qed.

(** ** Sequences of calls *)

Fixpoint run {B S O} (f : O → S → call (list B * S)) (ops : list O) (s : S) : call (list B * S) :=
  match ops with
  | [] => Returns ([], s)
  | o :: ops => '(a, s) ← f o s; '(b, s) ← run f ops s; Returns (a ++ b, s)
  end.

Definition out {A B} (x : call (A * B)) : call A := '(a, _) ← x; Returns a.

(** A machine whose calls do what those of a reference do, wherever the reference
    is defined and the operations are those it is meant for, has the same
    results on every sequence of them. *)
Lemma run_refines {B O S T} (ok : O → Prop) (f : O → S → call (list B * S)) (g : O → T → call (list B * T))
    (R : Z → S → T → Prop) ops N :
  (∀ o w s t, ok o → R w s t → w < N → match g o t with
     | Returns (a, t') => ∃ s' w', f o s = Returns (a, s') ∧ R w' s' t' ∧ w' ≤ w + 1
     | Waits => f o s = Waits
     | Undefined => True end) →
  Forall ok ops → ∀ w s t, R w s t → w + Z.of_nat (length ops) ≤ N →
  run g ops t ≠ Undefined → out (run f ops s) = out (run g ops t).
Proof.
  intros Hstep. induction 1 as [|o ops Hok _ IH]; intros w s t HR Hw; cbn [run]; [done|].
  pose proof (Hstep o w s t Hok HR) as Ho. rewrite length_cons in Hw. specialize (Ho ltac:(lia)).
  destruct (g o t) as [[a t']| |]; [|by rewrite Ho | done].
  destruct Ho as (s' & w' & -> & HR' & Hw'). cbn [mbind call_mbind cbind]. intros Hd.
  specialize (IH w' s' t' HR' ltac:(lia)). unfold out in *.
  destruct (run f ops s') as [[? ?]| |], (run g ops t') as [[? ?]| |]; cbn in *; try done;
    specialize (IH ltac:(done)); congruence.
Qed.

(** The same with the state it comes to. *)
Lemma run_reaches {B O S T} (ok : O → Prop) (f : O → S → call (list B * S)) (g : O → T → call (list B * T))
    (R : Z → S → T → Prop) ops N :
  (∀ o w s t, ok o → R w s t → w < N → match g o t with
     | Returns (a, t') => ∃ s' w', f o s = Returns (a, s') ∧ R w' s' t' ∧ w' ≤ w + 1
     | Waits => f o s = Waits
     | Undefined => True end) →
  Forall ok ops → ∀ w s t a t', R w s t → w + Z.of_nat (length ops) ≤ N → run g ops t = Returns (a, t') →
  ∃ s' w', run f ops s = Returns (a, s') ∧ R w' s' t' ∧ w' ≤ w + Z.of_nat (length ops).
Proof.
  intros Hstep. induction 1 as [|o ops Hok _ IH]; intros w s t a t' HR Hw; cbn [run].
  - intros [= <- <-]. exists s, w. split_and!; (done || lia).
  - pose proof (Hstep o w s t Hok HR) as Ho. rewrite length_cons in Hw |- *. specialize (Ho ltac:(lia)).
    destruct (g o t) as [[x t1]| |]; [|done..]. destruct Ho as (s1 & w1 & -> & HR1 & Hw1). cbn [mbind call_mbind cbind].
    destruct (run g ops t1) as [[y t2]| |] eqn:E; cbn [mbind call_mbind cbind]; [|done..]. intros [= <- <-].
    destruct (IH w1 s1 t1 y t2 HR1 ltac:(lia) E) as (s2 & w2 & -> & HR2 & Hw2). cbn [mbind call_mbind cbind].
    exists s2, w2. split_and!; (done || lia).
Qed.

Lemma run_app {B O S} (f : O → S → call (list B * S)) l1 l2 : ∀ s,
  run f (l1 ++ l2) s = ('(a, s) ← run f l1 s; '(b, s) ← run f l2 s; Returns (a ++ b, s)).
Proof.
  induction l1 as [|o l1 IH]; intros s; cbn [app run].
  - cbn [mbind call_mbind cbind]. by destruct (run f l2 s) as [[]| |].
  - destruct (f o s) as [[a s1]| |]; cbn [mbind call_mbind cbind]; [|done..]. rewrite IH.
    destruct (run f l1 s1) as [[b s2]| |]; cbn [mbind call_mbind cbind]; [|done..].
    destruct (run f l2 s2) as [[c s3]| |]; cbn [mbind call_mbind cbind]; [|done..]. by rewrite app_assoc.
Qed.

Lemma run_defined {B O T} (g : O → T → call (list B * T)) ops :
  (∀ o t, g o t ≠ Undefined) → ∀ t, run g ops t ≠ Undefined.
Proof.
  intros Hg. induction ops as [|o ops IH]; intros t; cbn [run]; [done|]. specialize (Hg o t).
  destruct (g o t) as [[a t']| |]; [|done..]. cbn [mbind call_mbind cbind]. specialize (IH t').
  by destruct (run g ops t') as [[]| |].
Qed.

Lemma run_out {B O S T} (f : O → S → call (list B * S)) (g : O → T → call (list B * T))
    (R : Z → S → T → Prop) ops N :
  (∀ o w s t, R w s t → w < N → match g o t with
     | Returns (a, t') => ∃ s' w', f o s = Returns (a, s') ∧ R w' s' t' ∧ w' ≤ w + 1
     | _ => f o s = Waits end) →
  (∀ o t, g o t ≠ Undefined) →
  ∀ w s t, R w s t → w + Z.of_nat (length ops) ≤ N → out (run f ops s) = out (run g ops t).
Proof.
  intros Hstep Hg w s t HR Hw. apply (run_refines (λ _, True) f g R ops N) with w; [|by apply Forall_true|done..|by apply run_defined].
  intros o w' s' t' _ HR' Hw'. specialize (Hstep o w' s' t' HR' Hw'). by destruct (g o t').
Qed.
