(* ===== verification/Popper.v ===== *)
(** * The popper around the splitter: the sucker thread, start and stop
    ([src/applib/fixio/fix_popper.cpp])

    The sucker thread reads the socket into foxtrot entries; [kernel] is what
    the successive [recvfrom] calls return.  The life cycle is the protocol of
    the flags [pause_threads_], [db_is_open_], [sucker_is_running_] and
    [started_] between the one thread that calls [start] and [stop], the
    splitter and the sucker. *)
From S2P Require Import Prelude Primitives FixMsgUtils FixTypes FixMessageRX FixMessageTX Pusher PusherThread.
From S2P Require Import Splitter Delivery.

Definition FOXTROT_ENTRY_SIZE : Z := 1024 * 4.
Definition FOXTROT_MAX_DATA_SIZE : Z := FOXTROT_ENTRY_SIZE - 4.
Definition ETIMEDOUT : Z := 110.

(** ** The sucker thread *)

(** What a call of [recvfrom] returns. *)
Inductive recv_ret := RecvData (data : list Z) | RecvClosed | RecvErr (errno : Z).

(** How the thread stands when the answers are used up: still reading, or
    ended ([*args->error] is the number). *)
Inductive sucker_end : Set := Reading | PeerClosed | Failed (errno : Z).

Section Sucker.
Context (acquire_foxtrot : nat → list Z).

(** The entries committed and how it ended; [n] counts the entries acquired. *)
Fixpoint sucker_thread (kernel : list recv_ret) (n : nat) : option (list (list Z) * sucker_end) :=
  match kernel with
  | [] => Some ([], Reading)
  | RecvData d :: kernel =>
      e ← write_at (acquire_foxtrot n) 4 d;
      e ← setu32 e 0 (zlen d);
      '(es, fin) ← sucker_thread kernel (S n);
      Some (e :: es, fin)
  | RecvClosed :: _ => e ← setu32 (acquire_foxtrot n) 0 0; Some ([e], PeerClosed)
  | RecvErr errno :: kernel =>
      if (errno =? ETIMEDOUT) || (errno =? EAGAIN) || (errno =? EINTR)
      then sucker_thread kernel n
      else e ← setu32 (acquire_foxtrot n) 0 0; Some ([e], Failed errno)
  end.

(** What the splitter sees of an entry: [entry_length] bytes behind the
    length. *)
Definition foxtrot_content (entry : list Z) : option (list Z) :=
  len ← getu32 entry 0; read_at entry 4 len.

(** The bytes read before the thread ends. *)
Fixpoint received (kernel : list recv_ret) : list Z :=
  match kernel with
  | [] => []
  | RecvData d :: kernel => d ++ received kernel
  | RecvClosed :: _ => []
  | RecvErr errno :: kernel =>
      if (errno =? ETIMEDOUT) || (errno =? EAGAIN) || (errno =? EINTR) then received kernel else []
  end.

(** [recvfrom] returns at most what it was given room for. *)
Definition recv_ok (x : recv_ret) : Prop :=
  match x with RecvData d => 0 < zlen d ≤ FOXTROT_MAX_DATA_SIZE | _ => True end.

Context (acquire_foxtrot_ok : ∀ n, zlen (acquire_foxtrot n) = FOXTROT_ENTRY_SIZE).

Lemma entry_written n d e :
  zlen d ≤ FOXTROT_MAX_DATA_SIZE → write_at (acquire_foxtrot n) 4 d = Some e →
  ∃ e', setu32 e 0 (zlen d) = Some e' ∧ foxtrot_content e' = Some d.
Proof.
  intros Hd Hw. pose proof (acquire_foxtrot_ok n) as Hn. unfold FOXTROT_MAX_DATA_SIZE, FOXTROT_ENTRY_SIZE in *.
  apply write_at_split in Hw as (a & b & c & _ & -> & Ha & Hb).
  assert (HL : length (be_bytes 4 (zlen d)) = length a) by (rewrite length_be_bytes; lia).
  exists (be_bytes 4 (zlen d) ++ d ++ c). rewrite setu32_be, write_at_head by done. split; [done|].
  unfold foxtrot_content.
  pose proof (getu32_mid [] (zlen d) (be_bytes 4 (zlen d)) (d ++ c) 0 eq_refl eq_refl) as Hg.
  cbn [app] in Hg. rewrite Hg. obind. rewrite Z.mod_small by lia.
  apply read_at_mid; [rewrite HL; lia | done].
Qed.

Lemma empty_entry n :
  ∃ e, setu32 (acquire_foxtrot n) 0 0 = Some e ∧ foxtrot_content e = Some [].
Proof.
  destruct (write_at_inside (acquire_foxtrot n) 4 []) as [e He];
    [lia | rewrite acquire_foxtrot_ok; unfold FOXTROT_ENTRY_SIZE; cbn; lia |].
  destruct (entry_written n [] e) as (e' & He' & Hc); [unfold FOXTROT_MAX_DATA_SIZE, FOXTROT_ENTRY_SIZE; cbn; lia | done |].
  exists e'. split; [|done]. rewrite <- He'. f_equal. apply write_at_split in He as (a & b & c & -> & -> & _ & Hb).
  by destruct b.
Qed.

Lemma sucker_entries kernel : ∀ n,
  Forall recv_ok kernel →
  ∃ es fin contents, sucker_thread kernel n = Some (es, fin) ∧
    Forall2 (λ e c, foxtrot_content e = Some c) es contents ∧ concat contents = received kernel ∧
    Forall (λ c, zlen c ≤ FOXTROT_MAX_DATA_SIZE) contents.
Proof.
  assert (Hend : ∀ n (fin : sucker_end), ∃ es fin' contents,
    (e ← setu32 (acquire_foxtrot n) 0 0; Some ([e], fin)) = Some (es, fin') ∧
    Forall2 (λ e c, foxtrot_content e = Some c) es contents ∧ concat contents = [] ∧
    Forall (λ c, zlen c ≤ FOXTROT_MAX_DATA_SIZE) contents).
  { intros n fin. destruct (empty_entry n) as (e & -> & Hc). obind. exists [e], fin, [[]].
    split_and!; [done | by repeat constructor | done | by repeat constructor]. }
  induction kernel as [|x kernel IH]; intros n Hok; cbn [sucker_thread received].
  { exists [], Reading, []. split_and!; done || constructor. }
  apply Forall_cons in Hok as [Hx Hok]. destruct x as [d| |errno].
  - destruct (write_at_inside (acquire_foxtrot n) 4 d) as [e He]; [lia | |].
    { rewrite acquire_foxtrot_ok. unfold recv_ok, FOXTROT_MAX_DATA_SIZE in Hx. lia. }
    rewrite He. obind. destruct (entry_written n d e) as (e' & -> & Hc); [apply Hx | done |]. obind.
    destruct (IH (S n) Hok) as (es & fin & cs & -> & Hes & Hcat & Hsz). obind.
    exists (e' :: es), fin, (d :: cs). split_and!; [done | by constructor | cbn; by rewrite Hcat |].
    constructor; [apply Hx | done].
  - apply Hend.
  - case_match; [by apply IH | apply Hend].
Qed.
End Sucker.

(** ** The life cycle *)

(** Where the caller is: between calls, in [start] waiting for the database
    or for the sucker, in [stop] waiting for them. *)
Inductive caller_pc : Set := CIdle | CStartDb | CStartSucker | CStopDb | CStopSucker.

(** The splitter: spinning on [pause_thread], about to say the database is
    open, running, about to say it is closed. *)
Inductive splitter_pc : Set := SSpin | SOpening | SRunning | SClosing.

(** The sucker, likewise, and ended. *)
Inductive sucker_pc : Set := KSpin | KStarting | KRunning | KPausing | KDead.

#[global] Instance caller_pc_eq_dec : EqDecision caller_pc.
Proof. solve_decision. Defined.
#[global] Instance splitter_pc_eq_dec : EqDecision splitter_pc.
Proof. solve_decision. Defined.
#[global] Instance sucker_pc_eq_dec : EqDecision sucker_pc.
Proof. solve_decision. Defined.

Record popper := mkPopper {
  pause_threads_ : bool; db_is_open_ : bool; sucker_is_running_ : bool; started_ : bool;
  caller : caller_pc; the_splitter : splitter_pc; the_sucker : sucker_pc }.

(** The constructor and [init]: both threads have been created. *)
Definition popper_init : popper := mkPopper true false false false CIdle SSpin KSpin.

(** What happens next: a call (with valid settings when the popper is
    stopped), a step of the caller or of a thread, or [recvfrom] returning 0 or
    an error to the sucker. *)
Inductive action : Set := CallStart | CallStop | CallerStep | SplitterStep | SuckerStep | PeerCloses.

#[global] Instance action_eq_dec : EqDecision action.
Proof. solve_decision. Defined.

Definition popper_step (a : action) (p : popper) : option popper :=
  let '(mkPopper pause db run started c s k) := p in
  match a with
  | CallStart =>
      match c with
      | CIdle => Some (if started then p else mkPopper false db run started CStartDb s k)
      | _ => None
      end
  | CallStop =>
      match c with
      | CIdle => Some (if started then mkPopper true db run started CStopDb s k else p)
      | _ => None
      end
  | CallerStep =>
      match c with
      | CIdle => None
      | CStartDb => Some (if db then mkPopper pause db run started CStartSucker s k else p)
      | CStartSucker => Some (if run then mkPopper pause db run true CIdle s k else p)
      | CStopDb => Some (if db then p else mkPopper pause db run started CStopSucker s k)
      | CStopSucker => Some (if run then p else mkPopper pause db run false CIdle s k)
      end
  | SplitterStep =>
      Some (match s with
      | SSpin => if pause then p else mkPopper pause db run started c SOpening k
      | SOpening => mkPopper pause true run started c SRunning k
      | SRunning => if pause then mkPopper pause db run started c SClosing k else p
      | SClosing => mkPopper pause false run started c SSpin k
      end)
  | SuckerStep =>
      match k with
      | KSpin => Some (if pause then p else mkPopper pause db run started c s KStarting)
      | KStarting => Some (mkPopper pause db true started c s KRunning)
      | KRunning => Some (if pause then mkPopper pause db run started c s KPausing else p)
      | KPausing => Some (mkPopper pause db false started c s KSpin)
      | KDead => None
      end
  | PeerCloses =>
      match k with KRunning => Some (mkPopper pause db run started c s KDead) | _ => None end
  end.

Inductive life : popper → popper → Prop :=
  | life_step a p p' : popper_step a p = Some p' → life p p'.

(** ** Every state at once *)

(** The states the protocol can be in, as a test. *)
Definition popper_inv (p : popper) : bool :=
  let '(mkPopper pause db run started c s k) := p in
  (* the flags tell where the threads are *)
  eqb db (match s with SRunning | SClosing => true | _ => false end) &&
  eqb run (match k with KRunning | KPausing | KDead => true | _ => false end) &&
  (* the caller's view *)
  match c with
  | CIdle => if started
             then negb pause && bool_decide (s = SRunning) && (bool_decide (k = KRunning) || bool_decide (k = KDead))
             else pause && bool_decide (s = SSpin) && bool_decide (k = KSpin)
  | CStartDb => negb pause && negb started && negb (bool_decide (s = SClosing)) && negb (bool_decide (k = KPausing))
  | CStartSucker => negb pause && negb started && bool_decide (s = SRunning) && negb (bool_decide (k = KPausing))
  | CStopDb => pause && started && negb (bool_decide (s = SOpening)) && negb (bool_decide (k = KStarting))
  | CStopSucker => pause && started && bool_decide (s = SSpin) && negb (bool_decide (k = KStarting))
  end.

(** A test of every transition of the protocol, evaluated. *)
Definition all_actions : list action := [CallStart; CallStop; CallerStep; SplitterStep; SuckerStep; PeerCloses].
Definition all_callers : list caller_pc := [CIdle; CStartDb; CStartSucker; CStopDb; CStopSucker].
Definition all_splitters : list splitter_pc := [SSpin; SOpening; SRunning; SClosing].
Definition all_suckers : list sucker_pc := [KSpin; KStarting; KRunning; KPausing; KDead].

Definition every_step (test : popper → popper → bool) : bool :=
  for_all all_actions (λ a, for_all all_callers (λ c, for_all all_splitters (λ s, for_all all_suckers (λ k,
  for_all [true; false] (λ b1, for_all [true; false] (λ b2, for_all [true; false] (λ b3,
  for_all [true; false] (λ b4,
    let p := mkPopper b1 b2 b3 b4 c s k in
    match popper_step a p with Some p' => test p p' | None => true end)))))))).

Lemma every_step_spec test a p p' : every_step test = true → popper_step a p = Some p' → test p p' = true.
Proof.
  intros H Hs. destruct p as [b1 b2 b3 b4 c s k]. unfold every_step in H.
  apply (for_all_spec _ _ a) in H; [|destruct a; cbn; tauto].
  apply (for_all_spec _ _ c) in H; [|destruct c; cbn; tauto].
  apply (for_all_spec _ _ s) in H; [|destruct s; cbn; tauto].
  apply (for_all_spec _ _ k) in H; [|destruct k; cbn; tauto].
  apply (for_all_spec _ _ b1) in H; [|destruct b1; cbn; tauto].
  apply (for_all_spec _ _ b2) in H; [|destruct b2; cbn; tauto].
  apply (for_all_spec _ _ b3) in H; [|destruct b3; cbn; tauto].
  apply (for_all_spec _ _ b4) in H; [|destruct b4; cbn; tauto].
  cbv beta zeta in H. by rewrite Hs in H.
Qed.

Lemma popper_inv_step a p p' : popper_step a p = Some p' → popper_inv p = true → popper_inv p' = true.
Proof.
  intros Hs. assert (H : every_step (λ p p', implb (popper_inv p) (popper_inv p')) = true)
    by (vm_compute; reflexivity).
  apply (every_step_spec _ a p p') in H; [|done]. cbv beta in H. intros Hp. by rewrite Hp in H.
Qed.

Lemma popper_reachable p : rtc life popper_init p → popper_inv p = true.
Proof.
  intros H. remember popper_init as p0 eqn:E. assert (H0 : popper_inv p0 = true) by by subst.
  clear E. induction H as [|p0 p1 p2 Hs _ IH]; [done|]. apply IH. destruct Hs. by eapply popper_inv_step.
Qed.

Definition dead (p : popper) : bool := popper_inv p && bool_decide (the_sucker p = KDead) && started_ p.

Lemma dead_step a p p' : popper_step a p = Some p' → dead p = true → dead p' = true.
Proof.
  intros Hs. assert (H : every_step (λ p p', implb (dead p) (dead p')) = true)
    by (vm_compute; reflexivity).
  apply (every_step_spec _ a p p') in H; [|done]. cbv beta in H. intros Hp. by rewrite Hp in H.
Qed.

Fixpoint life_run (acts : list action) (p : popper) : option popper :=
  match acts with [] => Some p | a :: acts => p ← popper_step a p; life_run acts p end.

Lemma life_run_rtc acts p p' : life_run acts p = Some p' → rtc life p p'.
Proof.
  revert p. induction acts as [|a acts IH]; intros p; cbn [life_run]; [by intros [= <-]|].
  destruct (popper_step a p) as [x|] eqn:E; [obind | done]. intros H.
  eapply rtc_l; [by eapply life_step | by apply IH].
Qed.

(** The sucker ends only when the connection does. *)
Lemma sucker_lives acts : ∀ p p', PeerCloses ∉ acts → the_sucker p ≠ KDead → life_run acts p = Some p' → the_sucker p' ≠ KDead.
Proof.
  induction acts as [|a acts IH]; intros p p' Hno Hk; cbn [life_run]; [by intros [= <-]|].
  apply not_elem_of_cons in Hno as [Ha Hno]. destruct (popper_step a p) as [x|] eqn:E; [obind | done].
  apply IH; [done|]. destruct p as [pause db run started c s k]. cbn [the_sucker] in Hk.
  destruct a, c, s, k; cbn [popper_step] in E; try done; repeat case_match; by simplify_eq.
Qed.

(** ** Properties *)

(** from the socket to the queues: whatever the sizes of the pieces
    [recvfrom] returns (and however often it times out or is interrupted), a
    stream of messages it reads is put into foxtrot entries from which the
    splitter delivers every message, in order, to its queue. *)
Theorem received_stream_delivered soh ver pad malloc acquire_delta acquire_echo CACHE_LINE_SIZE
    tx_malloc tx_realloc rx `{!SplitterEnv malloc acquire_delta acquire_echo} acquire_foxtrot kernel ws seq st :
  (∀ n, zlen (acquire_foxtrot n) = FOXTROT_ENTRY_SIZE) → Forall recv_ok kernel →
  wire_ok soh ver → received kernel = stream (start_of soh ver) soh seq ws →
  ready seq st → 0 ≤ seq → seq + zlen ws < 2 ^ 64 - 1 → stream_ok (start_of soh ver) soh seq ws →
  ∃ es fin contents st' evs,
    sucker_thread acquire_foxtrot kernel 0 = Some (es, fin) ∧
    Forall2 (λ e c, foxtrot_content e = Some c) es contents ∧
    splitter_entries (start_of soh ver ++ 0 :: pad) (zlen (start_of soh ver)) soh malloc acquire_delta
      acquire_echo CACHE_LINE_SIZE tx_malloc tx_realloc rx contents st = Some st' ∧
    ready (seq + zlen ws) st' ∧ events st' = events st ++ evs ∧
    stream_delivered (start_of soh ver) soh seq ws evs.
Proof.
  intros Hfox Hok Hw Hrec Hr H0 Hmax Hs.
  destruct (sucker_entries acquire_foxtrot Hfox kernel 0 Hok) as (es & fin & cs & Hsuck & Hcs & Hcat & Hsz).
  assert (Hsmall : Forall (λ c, zlen c < 2 ^ 32) cs).
  { eapply Forall_impl; [exact Hsz|]. intros c Hc. unfold FOXTROT_MAX_DATA_SIZE, FOXTROT_ENTRY_SIZE in Hc.
    cbn in Hc. lia. }
  pose proof (start_of_ascii _ _ Hw). destruct Hw as (? & ? & ? & ? & ?). rewrite Hrec in Hcat.
  destruct (deliver_stream (start_of soh ver) pad soh malloc acquire_delta acquire_echo CACHE_LINE_SIZE
    tx_malloc tx_realloc rx) with (ver := ver) (chunks := cs) (ws := ws) (seq := seq) (st := st)
    as (st' & evs & Hrun & Hrest); try done; [apply env_malloc | apply env_delta | apply env_echo |].
  by exists es, fin, cs, st', evs.
Qed.

(** C36: the flag protocol of [start] and [stop]: when a call has returned with
    the popper started, the database is open, the splitter runs and so does the
    sucker, unless it has ended because the peer closed the connection or the
    socket failed ([PeerCloses]) at some time before; when a call has returned
    with the popper stopped, both threads spin on the pause flag with the database
    closed, so the settings they share with the caller can be changed. *)
Theorem start_and_stop_synchronise acts p :
  life_run acts popper_init = Some p → caller p = CIdle →
  if started_ p
  then pause_threads_ p = false ∧ db_is_open_ p = true ∧ the_splitter p = SRunning ∧
       (the_sucker p = KRunning ∨ (the_sucker p = KDead ∧ PeerCloses ∈ acts))
  else pause_threads_ p = true ∧ db_is_open_ p = false ∧ sucker_is_running_ p = false ∧
       the_splitter p = SSpin ∧ the_sucker p = KSpin.
Proof.
  intros Hr Hc. pose proof (popper_reachable p (life_run_rtc _ _ _ Hr)) as H.
  assert (Hdead : the_sucker p = KDead → PeerCloses ∈ acts).
  { intros Hk. destruct (decide (PeerCloses ∈ acts)) as [|Hno]; [done|].
    by destruct (sucker_lives acts popper_init p Hno ltac:(done) Hr). }
  clear Hr. destruct p as [pause db run started c s k]. cbn in Hc, Hdead. subst c.
  destruct started, pause, db, run, s, k; vm_compute in H; try discriminate; cbn; auto 8.
Qed.

(** when the peer closes the connection (or the socket fails) the sucker
    ends with [sucker_is_running_] still set: a later [stop] never returns,
    whatever the threads do. *)
Theorem stop_hangs_after_peer_closed p p' :
  rtc life popper_init p → the_sucker p = KDead → started_ p = true → rtc life p p' →
  started_ p' = true ∧ sucker_is_running_ p' = true.
Proof.
  intros Hp%popper_reachable Hk Hs Hpp.
  assert (Hd : dead p = true) by (unfold dead; by rewrite Hp, Hs, bool_decide_eq_true_2).
  assert (Hd' : dead p' = true).
  { clear Hp Hk Hs. induction Hpp as [|x y z Hxy _ IH]; [done|]. apply IH. destruct Hxy. by eapply dead_step. }
  unfold dead in Hd'. apply andb_true_iff in Hd' as [[Hi Hk']%andb_true_iff Hs'].
  split; [done|]. destruct p' as [pause db run started c s k]. cbn in *.
  apply bool_decide_eq_true in Hk'. subst k. destruct run; [done|].
  by rewrite andb_false_r in Hi.
Qed.

(** ** Concrete runs *)

Definition demo_foxtrot (n : nat) : list Z := replicate (Z.to_nat FOXTROT_ENTRY_SIZE) 0.
Definition demo_kernel : list recv_ret :=
  [RecvErr EAGAIN; RecvData (take 30 demo_stream); RecvErr EINTR; RecvData (drop 30 demo_stream); RecvClosed].

Lemma received_stream_delivered_witness :
  ∃ es fin contents st' evs,
    sucker_thread demo_foxtrot demo_kernel 0 = Some (es, fin) ∧
    Forall2 (λ e c, foxtrot_content e = Some c) es contents ∧
    splitter_entries (start_of 1 demo_ver ++ 0 :: []) (zlen (start_of 1 demo_ver)) 1
      FixMessageTX.malloc_ok demo_delta demo_echo 64 FixMessageTX.malloc_ok FixMessageTX.realloc_ok demo_rx
      contents (demo_splitter 7) = Some st' ∧
    ready (7 + 2) st' ∧ events st' = events (demo_splitter 7) ++ evs ∧
    stream_delivered (start_of 1 demo_ver) 1 7 [demo_waiting; demo_heartbeat] evs.
Proof.
  apply (received_stream_delivered 1 demo_ver [] FixMessageTX.malloc_ok demo_delta demo_echo 64
    FixMessageTX.malloc_ok FixMessageTX.realloc_ok demo_rx demo_foxtrot demo_kernel
    [demo_waiting; demo_heartbeat] 7 (demo_splitter 7)).
  - intros n. vm_compute. reflexivity.
  - repeat constructor; vm_compute; (reflexivity || discriminate).
  - exact demo_wire_ok.
  - vm_compute. reflexivity.
  - exact demo_ready.
  - lia.
  - reflexivity.
  - exact demo_stream_ok.
Defined.

(** [start], and the threads getting under way. *)
Definition demo_start_actions : list action :=
  [CallStart; SuckerStep; SplitterStep; SplitterStep; CallerStep; SuckerStep; CallerStep].
Definition demo_started : popper := default popper_init (life_run demo_start_actions popper_init).

Lemma demo_started_reachable : rtc life popper_init demo_started.
Proof. apply (life_run_rtc demo_start_actions). reflexivity. Qed.

Lemma start_and_stop_synchronise_witness :
  started_ demo_started = true ∧
  (if started_ demo_started
   then pause_threads_ demo_started = false ∧ db_is_open_ demo_started = true ∧
        the_splitter demo_started = SRunning ∧
        (the_sucker demo_started = KRunning ∨ (the_sucker demo_started = KDead ∧ PeerCloses ∈ demo_start_actions))
   else pause_threads_ demo_started = true ∧ db_is_open_ demo_started = false ∧
        sucker_is_running_ demo_started = false ∧ the_splitter demo_started = SSpin ∧
        the_sucker demo_started = KSpin).
Proof.
  split; [reflexivity|]. apply (start_and_stop_synchronise demo_start_actions demo_started); reflexivity.
Defined.

(** The peer closes, [stop] is called and the splitter has closed the database. *)
Definition demo_closed : popper := default popper_init (popper_step PeerCloses demo_started).
Definition demo_stopping : popper :=
  default popper_init (life_run [CallStop; SplitterStep; SplitterStep; CallerStep; CallerStep] demo_closed).

Lemma stop_hangs_after_peer_closed_witness :
  caller demo_stopping = CStopSucker ∧ started_ demo_stopping = true ∧ sucker_is_running_ demo_stopping = true.
Proof.
  split; [reflexivity|]. apply (stop_hangs_after_peer_closed demo_closed demo_stopping).
  - eapply rtc_r; [exact demo_started_reachable | apply (life_step PeerCloses); reflexivity].
  - reflexivity.
  - reflexivity.
  - apply (life_run_rtc [CallStop; SplitterStep; SplitterStep; CallerStep; CallerStep]). reflexivity.
Defined.
