(* ===== verification/Ieee754.v ===== *)
(** * IEEE 754 packing: [src/stdlib/marshal/ieee754.cpp]

    [float] and [double] are the Standard Library's [spec_float] (mantissa and
    exponent, no NaN payload).  The [long double] the functions compute with is
    the x87 one, 64 bits of mantissa and 15 of exponent: halving, doubling,
    adding or subtracting one and scaling by [2^significand_bits] are exact
    there for everything that comes from a [float] or [double], so the
    operations below are the exact ones.  [None] is a loop that does not end
    within its fuel or a conversion with undefined behaviour. *)
From S2P Require Import Prelude.
From Stdlib Require Import SpecFloat.

Definition halve (x : spec_float) : spec_float :=
  match x with S754_finite s m e => S754_finite s m (e - 1) | _ => x end.

Definition double (x : spec_float) : spec_float :=
  match x with S754_finite s m e => S754_finite s m (e + 1) | _ => x end.

(** [2.0 <= x]; [Z.shiftl m e] is the integral part of [m * 2^e]. *)
Definition ge_two (x : spec_float) : bool :=
  match x with
  | S754_finite false m e => 2 <=? Z.shiftl (Z.pos m) e
  | S754_infinity false => true
  | _ => false
  end.

(** [1.0 > x] *)
Definition lt_one (x : spec_float) : bool :=
  match x with
  | S754_finite false m e => Z.shiftl (Z.pos m) e <? 1
  | S754_finite true _ _ | S754_zero _ | S754_infinity true => true
  | _ => false
  end.

(** [0 > x] *)
Definition lt_zero (x : spec_float) : bool :=
  match x with S754_finite s _ _ | S754_infinity s => s | _ => false end.

Definition is_zero (x : spec_float) : bool :=
  match x with S754_zero _ => true | _ => false end.

(** The exact value [m * 2^e] of a non-negative integer [m]. *)
Definition dyadic (m e : Z) : spec_float :=
  match m with
  | Z.pos p => S754_finite false p e
  | Z0 => S754_zero false
  | Z.neg p => S754_finite true p e
  end.

(** [x - 1.0] *)
Definition sub_one (x : spec_float) : spec_float :=
  match x with
  | S754_finite false m e =>
      if e <=? 0 then dyadic (Z.pos m - Z.shiftl 1 (- e)) e
      else dyadic (Z.shiftl (Z.pos m) e - 1) 0
  | S754_finite true m e =>
      if e <=? 0 then dyadic (- Z.pos m - Z.shiftl 1 (- e)) e
      else dyadic (- Z.shiftl (Z.pos m) e - 1) 0
  | S754_zero _ => dyadic (-1) 0
  | _ => x
  end.

(** [(uint64_t)(x * 2^k)]: truncation, undefined outside [uint64_t]. *)
Definition scaled_u64 (x : spec_float) (k : Z) : option Z :=
  match x with
  | S754_zero _ => Some 0
  | S754_finite false m e =>
      let v := Z.shiftl (Z.pos m) (e + k) in if v <? 2 ^ 64 then Some v else None
  | _ => None
  end.

(** [while (2.0 <= fnorm) { fnorm /= 2.0; shift++; }] *)
Fixpoint halve_loop (fuel : nat) (fnorm : spec_float) (shift : Z) : option (spec_float * Z) :=
  if ge_two fnorm
  then match fuel with O => None | S fuel => halve_loop fuel (halve fnorm) (shift + 1) end
  else Some (fnorm, shift).

(** [while (1.0 > fnorm) { fnorm *= 2.0; shift--; }] *)
Fixpoint double_loop (fuel : nat) (fnorm : spec_float) (shift : Z) : option (spec_float * Z) :=
  if lt_one fnorm
  then match fuel with O => None | S fuel => double_loop fuel (double fnorm) (shift - 1) end
  else Some (fnorm, shift).

(** [(1LL<<significand_bits) + 0.5f] is computed in [float], where the half is
    rounded away: the factor is [2^significand_bits]. *)
Definition pack754 (fuel : nat) (f : spec_float) (bits expbits : Z) : option Z :=
  let significand_bits := bits - expbits - 1 in
  if is_zero f then Some 0
  else
    let '(sign, fnorm) := if lt_zero f then (1, SFopp f) else (0, f) in
    '(fnorm, shift) ← halve_loop fuel fnorm 0;
    '(fnorm, shift) ← double_loop fuel fnorm shift;
    let fnorm := sub_one fnorm in
    significand ← scaled_u64 fnorm significand_bits;
    let exp := shift + (Z.shiftl 1 (expbits - 1) - 1) in
    Some (u64 (Z.lor (Z.lor (Z.shiftl sign (bits - 1)) (Z.shiftl exp (bits - expbits - 1)))
                     significand)).

Definition unpack754 (i bits expbits : Z) : spec_float :=
  let significand_bits := bits - expbits - 1 in
  if i =? 0 then S754_zero false
  else
    let retv := Z.land i (Z.shiftl 1 significand_bits - 1) in
    let retv := dyadic (retv + Z.shiftl 1 significand_bits) (- significand_bits) in
    let bias := Z.shiftl 1 (expbits - 1) - 1 in
    let shift := sint 64 (u64 (Z.land (Z.shiftr i significand_bits) (Z.shiftl 1 expbits - 1) - bias)) in
    let retv := Nat.iter (Z.to_nat shift) double retv in
    let retv := Nat.iter (Z.to_nat (- shift)) halve retv in
    if Z.land (Z.shiftr i (bits - 1)) 1 =? 1 then SFopp retv else retv.

(** Conversions between the floating types: round to nearest, ties to even. *)
Definition to_float (x : spec_float) : spec_float :=
  match x with S754_finite s m e => binary_round 24 128 s m e | _ => x end.
Definition to_double (x : spec_float) : spec_float :=
  match x with S754_finite s m e => binary_round 53 1024 s m e | _ => x end.

(** The exponent of a finite [double], read as [1.xxx * 2^k], lies between
    [-1074] and [1023]. *)
Definition pack_fuel : nat := 1100.

Definition pack754_32 (val : spec_float) : option Z :=
  w ← pack754 pack_fuel val 32 8; Some (u32 w).
Definition pack754_64 (val : spec_float) : option Z := pack754 pack_fuel val 64 11.
Definition unpack754_32 (val : Z) : spec_float := to_float (unpack754 val 32 8).
Definition unpack754_64 (val : Z) : spec_float := to_double (unpack754 val 64 11).

Example pack_one : pack754_64 (S754_finite false (2 ^ 52) (-52)) = Some 0x3FF0000000000000.
Proof. vm_compute. reflexivity. Qed.
Example pack_pi : pack754_32 (S754_finite true 13176795 (-22)) = Some 0xC0490FDB.
Proof. vm_compute. reflexivity. Qed.
Example unpack_pi : unpack754_32 0xC0490FDB = S754_finite true 13176795 (-22).
Proof. vm_compute. reflexivity. Qed.

(** ** The loops *)

(** [m] has [sb + 1] binary digits. *)
Definition normal (sb : Z) (m : positive) : Prop := 2 ^ sb ≤ Z.pos m < 2 ^ (sb + 1).

Lemma normal_log2 sb m : 0 ≤ sb → normal sb m → Z.log2 (Z.pos m) = sb.
Proof. intros ? [? ?]. apply Z.log2_unique; [done|]. rewrite <- Z.add_1_r. lia. Qed.

Lemma shiftl_ge_pow sb m e j :
  0 ≤ sb → 0 ≤ j → normal sb m → 2 ^ j ≤ Z.shiftl (Z.pos m) e ↔ j ≤ e + sb.
Proof.
  intros Hsb Hj Hm. pose proof (normal_log2 _ _ Hsb Hm) as Hl.
  destruct (Z.lt_ge_cases (e + sb) 0).
  - assert (Z.shiftl (Z.pos m) e = 0) as ->.
    { rewrite <- (Z.opp_involutive e), Z.shiftl_opp_r. apply Z.shiftr_eq_0; lia. }
    pose proof (Z.pow_pos_nonneg 2 j). lia.
  - assert (Hpos : 0 < Z.shiftl (Z.pos m) e).
    { pose proof (proj2 (Z.shiftl_nonneg (Z.pos m) e) ltac:(done)).
      enough (Z.shiftl (Z.pos m) e ≠ 0) by lia. intros E.
      destruct (Z.le_gt_cases 0 e); [apply Z.shiftl_eq_0_iff in E; done|].
      rewrite <- (Z.opp_involutive e), Z.shiftl_opp_r in E.
      apply Z.shiftr_eq_0_iff in E as [|[_ ?]]; [done | lia]. }
    rewrite Z.log2_le_pow2 by done.
    enough (Z.log2 (Z.shiftl (Z.pos m) e) = sb + e) by lia.
    destruct (Z.le_gt_cases 0 e); [rewrite Z.log2_shiftl by lia; lia|].
    rewrite <- (Z.opp_involutive e), Z.shiftl_opp_r, Z.log2_shiftr by lia. lia.
Qed.

Lemma ge_two_normal sb m e :
  0 ≤ sb → normal sb m → ge_two (S754_finite false m e) = (1 <=? e + sb).
Proof.
  intros Hsb Hm. simpl. pose proof (shiftl_ge_pow sb m e 1 Hsb ltac:(lia) Hm) as H.
  change (2 ^ 1) with 2 in H. apply Bool.eq_iff_eq_true. by rewrite !Z.leb_le.
Qed.

Lemma lt_one_normal sb m e :
  0 ≤ sb → normal sb m → lt_one (S754_finite false m e) = (e + sb <? 0).
Proof.
  intros Hsb Hm. simpl. pose proof (shiftl_ge_pow sb m e 0 Hsb ltac:(lia) Hm) as H.
  change (2 ^ 0) with 1 in H. apply Bool.eq_iff_eq_true. rewrite !Z.ltb_lt. lia.
Qed.

Lemma loop_state_eq s m (e e' n n' : Z) :
  e = e' → n = n' → Some (S754_finite s m e, n) = Some (S754_finite s m e', n').
Proof. by intros -> ->. Qed.

Lemma halve_loop_normal sb m fuel : ∀ e shift,
  0 ≤ sb → normal sb m → e + sb ≤ Z.of_nat fuel →
  halve_loop fuel (S754_finite false m e) shift
  = Some (S754_finite false m (Z.min e (- sb)), shift + Z.max 0 (e + sb)).
Proof.
  induction fuel as [|fuel IH]; intros e shift Hsb Hm Hf;
    unfold halve_loop; fold halve_loop; rewrite (ge_two_normal sb) by done.
  - bsolve. apply loop_state_eq; lia.
  - destruct (Z.leb_spec 1 (e + sb)).
    + cbn [halve]. rewrite IH by (done || lia). apply loop_state_eq; lia.
    + apply loop_state_eq; lia.
Qed.

Lemma double_loop_normal sb m fuel : ∀ e shift,
  0 ≤ sb → normal sb m → - (e + sb) ≤ Z.of_nat fuel → e ≤ - sb →
  double_loop fuel (S754_finite false m e) shift
  = Some (S754_finite false m (- sb), shift + (e + sb)).
Proof.
  induction fuel as [|fuel IH]; intros e shift Hsb Hm Hf He;
    unfold double_loop; fold double_loop; rewrite (lt_one_normal sb) by done.
  - bsolve. apply loop_state_eq; lia.
  - destruct (Z.ltb_spec (e + sb) 0).
    + cbn [double]. rewrite IH by (done || lia). apply loop_state_eq; lia.
    + apply loop_state_eq; lia.
Qed.

(** An infinity is never normalised: the first loop goes on for ever. *)
Lemma halve_loop_infinity fuel shift : halve_loop fuel (S754_infinity false) shift = None.
Proof. revert shift. induction fuel as [|fuel IH]; intros; simpl; [done | apply IH]. Qed.

Lemma iter_double n s m e :
  Nat.iter n double (S754_finite s m e) = S754_finite s m (e + Z.of_nat n).
Proof. induction n as [|n IH]; simpl; [|rewrite IH; simpl]; f_equal; lia. Qed.

Lemma iter_halve n s m e :
  Nat.iter n halve (S754_finite s m e) = S754_finite s m (e - Z.of_nat n).
Proof. induction n as [|n IH]; simpl; [|rewrite IH; simpl]; f_equal; lia. Qed.

(** ** Packing and unpacking normalised numbers *)

(** The interchange format: sign, biased exponent, mantissa without its
    leading one.  The value is [m * 2^e], or [1.xxx * 2^(e + sb)]. *)
Definition ieee_bits (bits expbits : Z) (s : bool) (m : positive) (e : Z) : Z :=
  let sb := bits - expbits - 1 in
  Z.b2z s * 2 ^ (bits - 1) + (e + sb + (2 ^ (expbits - 1) - 1)) * 2 ^ sb + (Z.pos m - 2 ^ sb).

(** A normalised number: the biased exponent is neither all zeros nor all ones. *)
Definition normalised (bits expbits : Z) (m : positive) (e : Z) : Prop :=
  let sb := bits - expbits - 1 in
  normal sb m ∧ 2 - 2 ^ (expbits - 1) ≤ e + sb ≤ 2 ^ (expbits - 1) - 1.

Section Format.
Context (bits expbits : Z).
Context (Hexp : 1 < expbits) (Hsb : 0 < bits - expbits - 1) (Hbits : bits ≤ 64).
Abbreviation sb := (bits - expbits - 1).

Lemma expbits_pow : 2 ^ expbits = 2 * 2 ^ (expbits - 1).
Proof. rewrite <- Z.pow_succ_r by lia. f_equal. lia. Qed.

Lemma bits_pow : 2 ^ (bits - 1) = 2 ^ expbits * 2 ^ sb.
Proof. rewrite <- Z.pow_add_r by lia. f_equal. lia. Qed.

Lemma ieee_bits_bound s m e :
  normalised bits expbits m e → 0 < ieee_bits bits expbits s m e < 2 ^ bits.
Proof.
  intros [[Hm1 Hm2] He]. unfold ieee_bits.
  pose proof bits_pow as Hb. pose proof expbits_pow as Hp.
  assert (Hb2 : 2 ^ bits = 2 * 2 ^ (bits - 1))
    by (rewrite <- Z.pow_succ_r by lia; f_equal; lia).
  pose proof (Z.pow_pos_nonneg 2 sb). rewrite Z.pow_add_r in Hm2 by lia.
  destruct s; simpl Z.b2z; nia.
Qed.

(** The result on a mantissa of [k + 1] binary digits, no longer than the
    format's, whatever the exponent. *)
Lemma pack754_loops fuel k s m e :
  0 ≤ k ≤ sb → normal k m → Z.abs (e + k) ≤ Z.of_nat fuel →
  pack754 fuel (S754_finite s m e) bits expbits
  = Some (u64 (Z.lor (Z.lor (Z.b2z s * 2 ^ (bits - 1)) ((e + k + (2 ^ (expbits - 1) - 1)) * 2 ^ sb))
                     ((Z.pos m - 2 ^ k) * 2 ^ (sb - k)))).
Proof.
  intros Hk Hm Hf. unfold pack754. cbn [is_zero].
  assert ((if lt_zero (S754_finite s m e) then (1, SFopp (S754_finite s m e))
           else (0, S754_finite s m e)) = (Z.b2z s, S754_finite false m e)) as -> by by destruct s.
  rewrite (halve_loop_normal k) by (done || lia). obind.
  rewrite (double_loop_normal k) by (done || lia). obind.
  destruct Hm as [Hm1 Hm2]. rewrite Z.pow_add_r in Hm2 by lia.
  pose proof (Z.pow_pos_nonneg 2 (sb - k)).
  assert (Hs : 2 ^ sb = 2 ^ k * 2 ^ (sb - k)) by (rewrite <- Z.pow_add_r by lia; f_equal; lia).
  assert (2 ^ sb < 2 ^ 64) by (apply Z.pow_lt_mono_r; lia).
  assert (Hsig : scaled_u64 (sub_one (S754_finite false m (- k))) sb
    = Some ((Z.pos m - 2 ^ k) * 2 ^ (sb - k))).
  { unfold sub_one. rewrite (proj2 (Z.leb_le (- k) 0)) by lia.
    rewrite Z.opp_involutive, Z.shiftl_1_l.
    destruct (Z.pos m - 2 ^ k) as [|p|p] eqn:Ep; cbn [dyadic scaled_u64]; [done | | lia].
    rewrite Z.shiftl_mul_pow2 by lia. replace (- k + sb) with (sb - k) by lia.
    rewrite (proj2 (Z.ltb_lt _ _)) by nia. done. }
  rewrite Hsig. obind. rewrite !Z.shiftl_mul_pow2, Z.mul_1_l by lia. do 6 f_equal. lia.
Qed.

Lemma pack754_normal fuel s m e :
  normalised bits expbits m e → Z.abs (e + sb) ≤ Z.of_nat fuel →
  pack754 fuel (S754_finite s m e) bits expbits = Some (ieee_bits bits expbits s m e).
Proof.
  intros Hn Hf. pose proof (ieee_bits_bound s m e Hn) as Hbound.
  destruct Hn as [Hm He]. rewrite (pack754_loops _ sb) by (done || lia).
  destruct Hm as [Hm1 Hm2]. rewrite Z.pow_add_r in Hm2 by lia.
  pose proof (Z.pow_pos_nonneg 2 sb). pose proof bits_pow as Hb. pose proof expbits_pow as Hp.
  rewrite Z.sub_diag, Z.mul_1_r. rewrite (lor_mul (Z.b2z s)) by (try split; nia).
  replace (Z.b2z s * 2 ^ (bits - 1) + (e + sb + (2 ^ (expbits - 1) - 1)) * 2 ^ sb)
    with ((Z.b2z s * 2 ^ expbits + (e + sb + (2 ^ (expbits - 1) - 1))) * 2 ^ sb) by lia.
  rewrite lor_mul by lia.
  assert (2 ^ bits ≤ 2 ^ 64) by (apply Z.pow_le_mono_r; lia).
  unfold ieee_bits in *. rewrite Hb in *. unfold u64. rewrite Z.mod_small; [f_equal; lia | lia].
Qed.

Lemma sint_mod w z : 0 < w → sint w (z mod 2 ^ w) = sint w z.
Proof. intros. unfold sint. by rewrite Zplus_mod_idemp_l. Qed.

Lemma land_ones_low i n : 0 ≤ n → Z.land i (Z.shiftl 1 n - 1) = i mod 2 ^ n.
Proof. intros. rewrite Z.shiftl_1_l, Z.sub_1_r, <- Z.ones_equiv. by apply Z.land_ones. Qed.

(** Undoing the encoding, before the conversion from [long double]. *)
Lemma unpack754_normal s m e :
  normalised bits expbits m e →
  unpack754 (ieee_bits bits expbits s m e) bits expbits = S754_finite s m e.
Proof.
  intros Hn. pose proof (ieee_bits_bound s m e Hn) as Hbound.
  destruct Hn as [[Hm1 Hm2] He]. rewrite Z.pow_add_r in Hm2 by lia.
  pose proof bits_pow as Hb. pose proof expbits_pow as Hp.
  pose proof (Z.pow_pos_nonneg 2 sb). pose proof (Z.pow_pos_nonneg 2 (expbits - 1)).
  set (E := e + sb + (2 ^ (expbits - 1) - 1)).
  assert (Hw : ieee_bits bits expbits s m e
    = (Z.b2z s * 2 ^ expbits + E) * 2 ^ sb + (Z.pos m - 2 ^ sb))
    by (unfold ieee_bits, E; rewrite Hb; lia).
  unfold unpack754. rewrite (proj2 (Z.eqb_neq _ 0)) by lia.
  rewrite !land_ones_low, !Z.shiftl_1_l by lia.
  assert (Hsig : ieee_bits bits expbits s m e mod 2 ^ sb = Z.pos m - 2 ^ sb).
  { rewrite Hw, Z.add_comm, Z_mod_plus_full. apply Z.mod_small. lia. }
  assert (Hse : Z.shiftr (ieee_bits bits expbits s m e) sb = Z.b2z s * 2 ^ expbits + E).
  { rewrite Z.shiftr_div_pow2, Hw, Z.div_add_l, Z.div_small by lia. lia. }
  assert (Hs : Z.land (Z.shiftr (ieee_bits bits expbits s m e) (bits - 1)) 1 = Z.b2z s).
  { change 1 with (Z.ones 1) at 2. rewrite Z.land_ones by lia. change (2 ^ 1) with 2.
    replace (bits - 1) with (sb + expbits) by lia. rewrite <- Z.shiftr_shiftr, Hse by lia.
    rewrite Z.shiftr_div_pow2, Z.div_add_l, Z.div_small by lia. by destruct s. }
  rewrite Hsig, Hse, Hs.
  rewrite (Z.add_comm (_ * _) E), Z_mod_plus_full, (Z.mod_small E), Z.sub_add by lia.
  assert (2 ^ (expbits - 1) ≤ 2 ^ 61) by (apply Z.pow_le_mono_r; lia).
  assert (sint 64 (u64 (E - (2 ^ (expbits - 1) - 1))) = e + sb) as ->.
  { replace (E - (2 ^ (expbits - 1) - 1)) with (e + sb) by lia. unfold u64.
    rewrite sint_mod by lia. apply sint_small; lia. }
  cbn [dyadic]. rewrite iter_double, iter_halve.
  replace (- sb + Z.of_nat (Z.to_nat (e + sb)) - Z.of_nat (Z.to_nat (- (e + sb)))) with e by lia.
  by destruct s.
Qed.
End Format.

(** ** Rounding what is already representable *)

Lemma digits2_log2 m : Z.pos (digits2_pos m) = Z.log2 (Z.pos m) + 1.
Proof.
  induction m as [m IH|m IH|]; cbn [digits2_pos]; [| |done]; rewrite Pos2Z.inj_succ, IH.
  - rewrite Pos2Z.pos_xI, Z.log2_succ_double by lia. lia.
  - rewrite Pos2Z.pos_xO, Z.log2_double by lia. lia.
Qed.

Lemma binary_round_id prec emax s m e :
  bounded prec emax m e = true → binary_round prec emax s m e = S754_finite s m e.
Proof.
  unfold bounded, canonical_mantissa. intros [Hc%Z.eqb_eq He]%andb_true_iff.
  unfold binary_round, shl_align. rewrite Hc, Z.sub_diag.
  unfold binary_round_aux, shr_fexp. cbn [Zdigits2].
  rewrite Hc, Z.sub_diag. cbn. rewrite Hc, Z.sub_diag. cbn. by rewrite He.
Qed.

Lemma bounded_normalised prec emax bits expbits m e :
  prec = bits - expbits → emax = 2 ^ (expbits - 1) → 0 < prec - 1 →
  normalised bits expbits m e → bounded prec emax m e = true.
Proof.
  intros -> -> Hp [Hm He]. unfold bounded, canonical_mantissa, fexp, emin.
  rewrite digits2_log2, (normal_log2 (bits - expbits - 1)) by (done || lia).
  apply andb_true_iff. split; [apply Z.eqb_eq | apply Z.leb_le]; lia.
Qed.

(** What a finite value of the type looks like. *)
Lemma normalised_double m e :
  valid_binary 53 1024 (S754_finite false m e) = true → digits2_pos m = 53%positive →
  normalised 64 11 m e.
Proof.
  cbn [valid_binary]. unfold bounded, canonical_mantissa, fexp, emin, normalised.
  intros [Hc He]%andb_true_iff Hd. rewrite Hd in Hc. bool_hyps.
  pose proof (digits2_log2 m) as Hl. rewrite Hd in Hl.
  split; [|change (2 ^ (11 - 1)) with 1024; lia].
  unfold normal. pose proof (Z.log2_spec (Z.pos m) ltac:(lia)) as Hs.
  replace (Z.log2 (Z.pos m)) with 52 in Hs by lia. exact Hs.
Qed.

(** The finite numbers of a format, zeros and subnormals included. *)
Definition finite (prec emax : Z) (f : spec_float) : Prop :=
  match f with
  | S754_zero _ => True
  | S754_finite _ m e => bounded prec emax m e = true
  | _ => False
  end.

Lemma bounded_log2 prec emax m e : bounded prec emax m e = true →
  Z.log2 (Z.pos m) ≤ prec - 1 ∧ 3 - emax - prec ≤ e + Z.log2 (Z.pos m) ≤ emax - 1.
Proof.
  unfold bounded, canonical_mantissa, fexp, emin. intros [Hc He]%andb_true_iff. bool_hyps.
  rewrite digits2_log2 in Hc. pose proof (Z.log2_nonneg (Z.pos m)). lia.
Qed.

(** Packing a finite number ends. *)
Lemma pack754_64_finite f : finite 53 1024 f → ∃ w, pack754_64 f = Some w.
Proof.
  destruct f as [s| | |s m e]; cbn [finite]; intros H; [by exists 0 | done | done |].
  apply bounded_log2 in H. pose proof (Z.log2_spec (Z.pos m) ltac:(lia)) as Hs. pose proof (Z.log2_nonneg (Z.pos m)).
  unfold pack754_64. rewrite (pack754_loops 64 11 ltac:(lia) ltac:(lia) ltac:(lia) _ (Z.log2 (Z.pos m))); [by eexists | lia | | unfold pack_fuel; lia].
  unfold normal. rewrite Z.add_1_r. exact Hs.
Qed.

Lemma pack754_32_finite f : finite 24 128 f → ∃ w, pack754_32 f = Some w.
Proof.
  destruct f as [s| | |s m e]; cbn [finite]; intros H; [by exists 0 | done | done |].
  apply bounded_log2 in H. pose proof (Z.log2_spec (Z.pos m) ltac:(lia)) as Hs. pose proof (Z.log2_nonneg (Z.pos m)).
  unfold pack754_32. rewrite (pack754_loops 32 8 ltac:(lia) ltac:(lia) ltac:(lia) _ (Z.log2 (Z.pos m))); [by eexists | lia | | unfold pack_fuel; lia].
  unfold normal. rewrite Z.add_1_r. exact Hs.
Qed.

Lemma pack754_infinity fuel s bits expbits : pack754 fuel (S754_infinity s) bits expbits = None.
Proof. unfold pack754. destruct s; cbn; by rewrite halve_loop_infinity. Qed.

Lemma pack754_64_normal s m e :
  normalised 64 11 m e →
  pack754_64 (S754_finite s m e) = Some (ieee_bits 64 11 s m e)
  ∧ unpack754_64 (ieee_bits 64 11 s m e) = S754_finite s m e.
Proof.
  intros Hn. split.
  - apply pack754_normal; [lia.. | done |]. destruct Hn as [_ Hn].
    change (2 ^ (11 - 1)) with 1024 in Hn. unfold pack_fuel. lia.
  - unfold unpack754_64. rewrite unpack754_normal by (done || lia).
    by apply binary_round_id, (bounded_normalised _ _ 64 11).
Qed.

Lemma pack754_32_normal s m e :
  normalised 32 8 m e →
  pack754_32 (S754_finite s m e) = Some (ieee_bits 32 8 s m e)
  ∧ unpack754_32 (ieee_bits 32 8 s m e) = S754_finite s m e.
Proof.
  intros Hn. pose proof (ieee_bits_bound 32 8 ltac:(lia) ltac:(lia) ltac:(lia) s m e Hn). split.
  - unfold pack754_32. rewrite pack754_normal; [|lia.. | done |].
    + obind. f_equal. apply Z.mod_small. lia.
    + destruct Hn as [_ Hn]. change (2 ^ (8 - 1)) with 128 in Hn. unfold pack_fuel. lia.
  - unfold unpack754_32. rewrite unpack754_normal by (done || lia).
    by apply binary_round_id, (bounded_normalised _ _ 32 8).
Qed.

(** ** Properties *)

(** C24: packing a normalised [double] gives its IEEE 754 interchange format
    and unpacking gives the number back, for either sign; likewise a
    normalised [float] in 32 bits.  The loops end for all of them. *)
Theorem ieee754_roundtrip s m e :
  (normalised 64 11 m e →
     pack754_64 (S754_finite s m e) = Some (ieee_bits 64 11 s m e)
     ∧ unpack754_64 (ieee_bits 64 11 s m e) = S754_finite s m e)
  ∧ (normalised 32 8 m e →
     pack754_32 (S754_finite s m e) = Some (ieee_bits 32 8 s m e)
     ∧ unpack754_32 (ieee_bits 32 8 s m e) = S754_finite s m e).
Proof. split; [apply pack754_64_normal | apply pack754_32_normal]. Qed.

(** the number classes [pack754] does not handle.  An infinity is never
    packed: its first loop does not end.  A positive subnormal [double] below
    [2^-1024] is packed into a word that is unpacked as a negative number of
    magnitude at least [2^974]. *)
Theorem pack754_defects fuel s bits expbits m :
  pack754 fuel (S754_infinity s) bits expbits = None
  ∧ (Z.pos m < 2 ^ 50 → ∃ w m' e',
       pack754_64 (S754_finite false m (-1074)) = Some w
       ∧ unpack754_64 w = S754_finite true m' e' ∧ normalised 64 11 m' e' ∧ 974 ≤ e' + 52).
Proof.
  split; [apply pack754_infinity|]. intros Hm.
  pose proof (Z.log2_spec (Z.pos m) ltac:(lia)) as Hk. pose proof (Z.log2_nonneg (Z.pos m)).
  assert (Z.log2 (Z.pos m) < 50) by (apply Z.log2_lt_pow2; lia).
  set (k := Z.log2 (Z.pos m)) in *. rewrite <- Z.add_1_r in Hk.
  assert (Hp : 2 ^ 52 = 2 ^ k * 2 ^ (52 - k)) by (rewrite <- Z.pow_add_r by lia; f_equal; lia).
  pose proof (Z.pow_pos_nonneg 2 (52 - k)). rewrite (Z.pow_add_r 2 k 1) in Hk by lia.
  set (m' := Z.to_pos (Z.pos m * 2 ^ (52 - k))).
  assert (Hm' : Z.pos m' = Z.pos m * 2 ^ (52 - k)) by (unfold m'; rewrite Z2Pos.id; lia).
  assert (Hn : normalised 64 11 m' (922 + k)).
  { unfold normalised, normal. change (64 - 11 - 1) with 52. rewrite Hm'.
    rewrite (Z.pow_add_r 2 52 1) by lia. rewrite Hp. change (2 ^ (11 - 1)) with 1024.
    split; [split; nia | lia]. }
  exists (ieee_bits 64 11 true m' (922 + k)), m', (922 + k).
  split; [|split; [apply (pack754_64_normal true), Hn | split; [done | lia]]].
  assert (HF : 0 ≤ (Z.pos m - 2 ^ k) * 2 ^ (52 - k) < 2 ^ 52) by (rewrite Hp; split; nia).
  unfold pack754_64. rewrite (pack754_loops 64 11 ltac:(lia) ltac:(lia) ltac:(lia) _ k);
    [|lia | unfold normal; rewrite Z.pow_add_r by lia; lia | unfold pack_fuel; lia].
  change (64 - 11 - 1) with 52. change (2 ^ (11 - 1)) with 1024.
  cbn [Z.b2z]. rewrite Z.mul_0_l, Z.lor_0_l, lor_mul by (done || lia).
  f_equal. unfold ieee_bits. rewrite Hm'. change (64 - 11 - 1) with 52. cbn [Z.b2z].
  change (2 ^ (11 - 1)) with 1024. unfold u64. clearbody k. rewrite Z.mul_sub_distr_r, <- Hp in *.
  change (64 - 1) with 63.
  rewrite <- (Z_mod_plus_full _ 1), Z.mod_small; lia.
Qed.

Lemma ieee754_roundtrip_witness :
  pack754_64 (S754_finite true (3 * 2 ^ 51) (-52)) = Some (ieee_bits 64 11 true (3 * 2 ^ 51) (-52))
  ∧ unpack754_64 (ieee_bits 64 11 true (3 * 2 ^ 51) (-52)) = S754_finite true (3 * 2 ^ 51) (-52).
Proof.
  apply (proj1 (ieee754_roundtrip true (3 * 2 ^ 51) (-52))).
  unfold normalised, normal. vm_compute. repeat split; discriminate.
Defined.

Lemma pack754_defects_witness : ∃ w m' e',
  pack754_64 (S754_finite false 1 (-1074)) = Some w
  ∧ unpack754_64 w = S754_finite true m' e' ∧ normalised 64 11 m' e' ∧ 974 ≤ e' + 52.
Proof. apply (proj2 (pack754_defects 0 false 64 11 1)). reflexivity. Defined.
