(* ===== verification/Marshal.v ===== *)
(** * Marshalling of argument lists: [src/stdlib/marshal/marshal.cpp]

    A format string is the memory from the pointer to the end of its object,
    terminator included; the parser moves through it character by character
    ([pstate]).  The variable argument list is a list of [arg]; an argument of
    another type than the specifier takes, a missing one, a null string where
    it is read and an access outside a buffer are [None].  [vunmarshal]'s
    arguments are valid pointers, its result lists what it stores through
    them.  The functions with an ellipsis only forward to the [v] versions. *)
From S2P Require Import Prelude Primitives Ieee754.
From Stdlib Require Import SpecFloat.

Definition ch_pct : Z := 37.
Definition ch_u : Z := 117.

(** Where the parser is in a conversion. *)
Inductive pstate : Set :=
  | Start      (* the loop head *)
  | AfterPct   (* behind the '%' *)
  | AfterU.    (* behind the "%u" *)

(** [AStr None] is a null pointer; [AStr (Some m)] points to the memory [m]. *)
Inductive arg : Type :=
  | AInt (z : Z)
  | AStr (s : option (list Z))
  | ADbl (f : spec_float).

(** The specifiers of the [switch]. *)
Inductive spec : Set := Ss | Sb | Sw | Sl | SL | Sf | SF.

#[global] Instance spec_eq_dec : EqDecision spec.
Proof. solve_decision. Defined.

Definition spec_of (c : Z) : option spec :=
  if c =? 115 then Some Ss else if c =? 98 then Some Sb
  else if c =? 119 then Some Sw else if c =? 108 then Some Sl
  else if c =? 76 then Some SL else if c =? 102 then Some Sf
  else if c =? 70 then Some SF else None.

(** The increment of a fixed size specifier. *)
Definition spec_inc (s : spec) : Z :=
  match s with
  | Ss => 0 | Sb => 8 | Sw => 16 | Sl | Sf => 32 | SL | SF => 64
  end.

(** ** [vmarshal_size] *)

(** One case of the [switch]: what is added, and the remaining arguments. *)
Definition size_switch (s : spec) (ap : list arg) : option (Z * list arg) :=
  match s, ap with
  | Ss, AStr None :: ap => Some (0, ap)
  | Ss, AStr (Some m) :: ap => str ← cstr m; Some (zlen str + 1, ap)
  | (Sb | Sw | Sl | SL), AInt _ :: ap => Some (spec_inc s, ap)
  | (Sf | SF), ADbl _ :: ap => Some (spec_inc s, ap)
  | _, _ => None
  end.

Fixpoint size_loop (st : pstate) (format : list Z) (ap : list arg) (retv : Z) : option Z :=
  match format with
  | [] => None
  | c :: format =>
      let switch :=
        match spec_of c with
        | Some s => '(inc, ap) ← size_switch s ap; size_loop Start format ap (u32 (retv + inc))
        | None => Some retv
        end in
      match st with
      | Start =>
          if c =? 0 then Some retv
          else if c =? ch_pct then size_loop AfterPct format ap retv
          else size_loop Start format ap retv
      | AfterPct => if c =? ch_u then size_loop AfterU format ap retv else switch
      | AfterU => switch
      end
  end.

Definition vmarshal_size (format : option (list Z)) (ap : list arg) : option Z :=
  match format with
  | None => Some 0
  | Some format =>
      s ← cstr format;
      if zlen s =? 0 then Some 0 else size_loop Start format ap 0
  end.

(** ** [vmarshal] *)

(** What one case of the [switch] stores at [pos], and its [inc]. *)
Definition marshal_value (un_signed : bool) (s : spec) (ap : list arg)
    : option ((list Z → Z → option (list Z)) * Z * list arg) :=
  match s, ap with
  | Ss, AStr (Some m) :: ap =>
      str ← cstr m;
      Some (λ buf pos, write_at buf pos (str ++ [0]), zlen str + 1, ap)
  | Sb, AInt z :: ap =>
      let v := if un_signed then u8 z else u8 (sint 8 z) in
      Some (λ buf pos, write_at buf pos [v], 8, ap)
  | Sw, AInt z :: ap =>
      let v := if un_signed then u16 z else u16 (sint 16 z) in
      Some (λ buf pos, setu16 buf pos v, 16, ap)
  | Sl, AInt z :: ap =>
      let v := if un_signed then u32 z else u32 (sint 32 z) in
      Some (λ buf pos, setu32 buf pos v, 32, ap)
  | SL, AInt z :: ap =>
      let v := if un_signed then u64 z else u64 (sint 64 z) in
      Some (λ buf pos, setu64 buf pos v, 64, ap)
  | Sf, ADbl f :: ap =>
      ul ← pack754_32 (to_float f); Some (λ buf pos, setu32 buf pos ul, 32, ap)
  | SF, ADbl f :: ap =>
      ull ← pack754_64 f; Some (λ buf pos, setu64 buf pos ull, 64, ap)
  | _, _ => None
  end.

(** [inc] as the bounds check sees it: the numeric cases do not look at the
    argument before. *)
Definition marshal_inc (s : spec) (ap : list arg) : option Z :=
  match s, ap with
  | Ss, AStr (Some m) :: _ => str ← cstr m; Some (zlen str + 1)
  | Ss, _ => None
  | _, _ => Some (spec_inc s)
  end.

(** The result is [(retv, count, buf)]. *)
Fixpoint marshal_loop (st : pstate) (un_signed : bool) (format : list Z) (ap : list arg)
    (len count pos : Z) (buf : list Z) : option (bool * Z * list Z) :=
  match format with
  | [] => None
  | c :: format =>
      let switch un_signed :=
        match spec_of c with
        | Some s =>
            inc ← marshal_inc s ap;
            if len <? u64 (count + inc) then Some (false, count, buf)
            else
              '(store, _, ap) ← marshal_value un_signed s ap;
              buf ← store buf pos;
              let count := u32 (count + inc) in
              if len =? count then c ← get_at format 0; Some (c =? 0, count, buf)
              else marshal_loop Start un_signed format ap len count (pos + inc) buf
        | None => marshal_loop Start un_signed format ap len count pos buf
        end in
      match st with
      | Start =>
          if c =? 0 then Some (true, count, buf)
          else if c =? ch_pct then marshal_loop AfterPct un_signed format ap len count pos buf
          else switch un_signed
      | AfterPct =>
          if c =? ch_u then marshal_loop AfterU true format ap len count pos buf
          else switch false
      | AfterU => switch un_signed
      end
  end.

Definition vmarshal (buf : list Z) (len : Z) (format : list Z) (ap : list arg)
    : option (bool * Z * list Z) :=
  if len =? 0 then Some (false, 0, buf)
  else marshal_loop Start true format ap len 0 0 buf.

(** ** [vunmarshal] *)

(** A value stored through a pointer: an integer with its width and
    signedness, a new string, a [double]. *)
Inductive out : Type :=
  | OInt (un_signed : bool) (width v : Z)
  | OStr (s : list Z)
  | ODbl (f : spec_float).

(** One case of the [switch]: the value and what is added to [cnt]; an inner
    [None] is a [strdup] without memory.  The integral value [v] read from the
    buffer is reinterpreted for a signed pointer. *)
Definition unmarshal_value (strdup_ok : Z → bool) (un_signed : bool) (s : spec) (buf : list Z)
    (pos : Z) : option (option (out * Z)) :=
  let int w (v : Z) := Some (Some (OInt un_signed w (if un_signed then v else sint w v), w)) in
  match s with
  | Ss =>
      str ← cstr_at buf pos;
      Some (if strdup_ok pos then Some (OStr str, zlen str + 1) else None)
  | Sb => v ← get_at buf pos; int 8 v
  | Sw => v ← getu16 buf pos; int 16 v
  | Sl => v ← getu32 buf pos; int 32 v
  | SL => v ← getu64 buf pos; int 64 v
  | Sf => n32 ← getu32 buf pos; Some (Some (ODbl (to_double (unpack754_32 n32)), 32))
  | SF => n64 ← getu64 buf pos; Some (Some (ODbl (unpack754_64 n64), 64))
  end.

(** The result is the return value and what has been stored. *)
Fixpoint unmarshal_loop (strdup_ok : Z → bool) (st : pstate) (un_signed : bool) (format : list Z)
    (buf : list Z) (len cnt retv : Z) (stored : list out) : option (Z * list out) :=
  match format with
  | [] => None
  | c :: format =>
      let switch un_signed :=
        match spec_of c with
        | Some s =>
            r ← unmarshal_value strdup_ok un_signed s buf cnt;
            match r with
            | None => Some (-1, stored)
            | Some (o, inc) =>
                let stored := stored ++ [o] in
                let cnt := cnt + inc in
                let retv := retv + 1 in
                if len =? cnt then Some (retv, stored)
                else if len <? cnt then Some (-1, stored)
                else unmarshal_loop strdup_ok Start un_signed format buf len cnt retv stored
            end
        | None => Some (-1, stored)
        end in
      match st with
      | Start =>
          if c =? 0 then Some (retv, stored)
          else if c =? ch_pct
          then unmarshal_loop strdup_ok AfterPct un_signed format buf len cnt retv stored
          else switch un_signed
      | AfterPct =>
          if c =? ch_u then unmarshal_loop strdup_ok AfterU true format buf len cnt retv stored
          else switch false
      | AfterU => switch un_signed
      end
  end.

Definition vunmarshal (strdup_ok : Z → bool) (buf : list Z) (len : Z) (format : list Z)
    : option (Z * list out) :=
  if len <? 1 then Some (0, []) else unmarshal_loop strdup_ok Start true format buf len 0 0 [].

Example marshal_demo :
  let fmt := bytes_of_string "%ub%s%w" ++ [0] in
  let ap := [AInt 200; AStr (Some (bytes_of_string "hi" ++ [0])); AInt (-2)] in
  vmarshal_size (Some fmt) ap = Some 27
  ∧ (r ← vmarshal (replicate 27 7) 27 fmt ap; vunmarshal (λ _, true) r.2 27 fmt)
    = Some (3, [OInt true 8 200; OStr [104; 105]; OInt false 16 (-2)]).
Proof. vm_compute. done. Qed.

(** ** Well typed argument lists *)

Record item := mkItem { i_unsigned : bool; i_spec : spec; i_arg : arg }.

Definition spec_char (s : spec) : Z :=
  match s with Ss => 115 | Sb => 98 | Sw => 119 | Sl => 108 | SL => 76 | Sf => 102 | SF => 70 end.

Definition render_item (i : item) : list Z :=
  [ch_pct] ++ (if i_unsigned i then [ch_u] else []) ++ [spec_char (i_spec i)].

Definition render (l : list item) : list Z := concat (render_item <$> l) ++ [0].

(** A number the floating point encodings can carry: zero or normalised. *)
Definition packable (bits expbits : Z) (f : spec_float) : Prop :=
  match f with
  | S754_zero _ => True
  | S754_finite _ m e => normalised bits expbits m e
  | _ => False
  end.

(** The type of the argument is that of its specifier, and a floating point
    argument is finite, for %f as the [float] it is converted to.  (An infinity
    has the right type too, but the loop that packs it does not end:
    [pack754_defects].) *)
Definition well_typed (i : item) : Prop :=
  match i_spec i, i_arg i with
  | Ss, AStr (Some m) => ∃ s, cstr m = Some s ∧ zlen s + 1 < 2 ^ 32
  | (Sb | Sw | Sl | SL), AInt _ => True
  | Sf, ADbl f => finite 24 128 (to_float f)
  | SF, ADbl f => finite 53 1024 f
  | _, _ => False
  end.

(** The same, with a value that survives packing: a floating point argument is
    zero or a normalised number. *)
Definition item_ok (i : item) : Prop :=
  match i_spec i, i_arg i with
  | Ss, AStr (Some m) => ∃ s, cstr m = Some s ∧ zlen s + 1 < 2 ^ 32
  | (Sb | Sw | Sl | SL), AInt _ => True
  | Sf, ADbl f => packable 32 8 (to_float f)
  | SF, ADbl f => packable 64 11 f
  | _, _ => False
  end.

Definition str_of (m : list Z) : list Z := default [] (cstr m).

Definition item_inc (i : item) : Z :=
  match i_arg i with AStr (Some m) => zlen (str_of m) + 1 | _ => spec_inc (i_spec i) end.

Definition int_value (un_signed : bool) (w z : Z) : Z :=
  if un_signed then z mod 2 ^ w else sint w z.

(** What is stored in the buffer: big endian, as many bytes as the type has. *)
Definition item_bytes (i : item) : list Z :=
  match i_spec i, i_arg i with
  | Ss, AStr (Some m) => str_of m ++ [0]
  | Sb, AInt z => be_bytes 1 z
  | Sw, AInt z => be_bytes 2 z
  | Sl, AInt z => be_bytes 4 z
  | SL, AInt z => be_bytes 8 z
  | Sf, ADbl f => be_bytes 4 (default 0 (pack754_32 (to_float f)))
  | SF, ADbl f => be_bytes 8 (default 0 (pack754_64 f))
  | _, _ => []
  end.

(** What comes out on the other side; the sign of a zero is lost. *)
Definition unsigned_zero (f : spec_float) : spec_float :=
  match f with S754_zero _ => S754_zero false | _ => f end.

Definition item_out (i : item) : out :=
  match i_spec i, i_arg i with
  | Sb, AInt z => OInt (i_unsigned i) 8 (int_value (i_unsigned i) 8 z)
  | Sw, AInt z => OInt (i_unsigned i) 16 (int_value (i_unsigned i) 16 z)
  | Sl, AInt z => OInt (i_unsigned i) 32 (int_value (i_unsigned i) 32 z)
  | SL, AInt z => OInt (i_unsigned i) 64 (int_value (i_unsigned i) 64 z)
  | Sf, ADbl f => ODbl (to_double (unsigned_zero (to_float f)))
  | SF, ADbl f => ODbl (unsigned_zero f)
  | _, AStr (Some m) => OStr (str_of m)
  | _, _ => OStr []
  end.

(** The bytes the list takes in the buffer. *)
Fixpoint total (l : list item) : Z :=
  match l with [] => 0 | i :: l => item_inc i + total l end.

(** The values of [l] are in the buffer from [off] on. *)
Fixpoint laid (buf : list Z) (off : Z) (l : list item) : Prop :=
  match l with
  | [] => True
  | i :: l =>
      read_at buf off (zlen (item_bytes i)) = Some (item_bytes i) ∧ laid buf (off + item_inc i) l
  end.

(** ** One conversion *)

Lemma spec_of_char s : spec_of (spec_char s) = Some s.
Proof. by destruct s. Qed.

Lemma be_bytes_mod n val : be_bytes n (val mod 2 ^ (8 * Z.of_nat n)) = be_bytes n val.
Proof.
  rewrite <- (be_value_be_bytes n val).
  rewrite <- (length_be_bytes n val) at 1. apply be_bytes_be_value, bytes_be_bytes.
Qed.

Lemma sint_u w z : 0 < w → (sint w z) mod 2 ^ w = z mod 2 ^ w.
Proof. intros. unfold sint. rewrite Zminus_mod_idemp_l. f_equal. lia. Qed.

Lemma sint_of_mod w z : 0 < w → sint w (z mod 2 ^ w) = sint w z.
Proof. intros. by apply sint_mod. Qed.

Lemma packable_32 f : packable 32 8 f →
  ∃ w, pack754_32 f = Some w ∧ 0 ≤ w < 2 ^ 32 ∧ unpack754_32 w = unsigned_zero f.
Proof.
  destruct f as [s| | |s m e]; cbn [packable]; intros Hf; [|done..|].
  - exists 0. vm_compute. done.
  - destruct (pack754_32_normal s m e Hf) as [H1 H2].
    pose proof (ieee_bits_bound 32 8 ltac:(lia) ltac:(lia) ltac:(lia) s m e Hf).
    eexists. split; [done|]. split; [lia | done].
Qed.

Lemma packable_64 f : packable 64 11 f →
  ∃ w, pack754_64 f = Some w ∧ 0 ≤ w < 2 ^ 64 ∧ unpack754_64 w = unsigned_zero f.
Proof.
  destruct f as [s| | |s m e]; cbn [packable]; intros Hf; [|done..|].
  - exists 0. vm_compute. done.
  - destruct (pack754_64_normal s m e Hf) as [H1 H2].
    pose proof (ieee_bits_bound 64 11 ltac:(lia) ltac:(lia) ltac:(lia) s m e Hf).
    eexists. split; [done|]. split; [lia | done].
Qed.

(** What marshalling needs of an argument. *)
Definition marshals (i : item) : Prop :=
  match i_spec i, i_arg i with
  | Ss, AStr (Some m) => ∃ s, cstr m = Some s ∧ zlen s + 1 < 2 ^ 32
  | (Sb | Sw | Sl | SL), AInt _ => True
  | Sf, ADbl f => ∃ w, pack754_32 (to_float f) = Some w
  | SF, ADbl f => ∃ w, pack754_64 f = Some w
  | _, _ => False
  end.

Lemma well_typed_marshals i : well_typed i → marshals i.
Proof.
  unfold well_typed, marshals. destruct (i_spec i), (i_arg i) as [z|[m|]|f]; try done;
    [apply pack754_32_finite | apply pack754_64_finite].
Qed.

Lemma item_ok_marshals i : item_ok i → marshals i.
Proof.
  unfold item_ok, marshals. destruct (i_spec i), (i_arg i) as [z|[m|]|f]; try done.
  - intros (w & ? & _)%packable_32. by exists w.
  - intros (w & ? & _)%packable_64. by exists w.
Qed.

Lemma all_ok_marshal l : Forall item_ok l → Forall marshals l.
Proof. intros H. eapply Forall_impl; [exact H | apply item_ok_marshals]. Qed.

Lemma item_inc_pos i : marshals i → 0 < item_inc i < 2 ^ 32 ∧ zlen (item_bytes i) ≤ item_inc i.
Proof.
  destruct i as [u s [z|[m|]|f]]; destruct s; unfold marshals, item_inc, item_bytes; cbn; try done;
    intros H; rewrite ?length_be_bytes; try lia.
  destruct H as (str & Hs & ?). unfold str_of. rewrite Hs. cbn. llia.
Qed.

Lemma wrap_either (u : bool) w z : 0 < w →
  (if u then z mod 2 ^ w else (sint w z) mod 2 ^ w) = z mod 2 ^ w.
Proof. intros. destruct u; [done|]. by apply sint_u. Qed.

Lemma item_step i ap : marshals i →
  marshal_inc (i_spec i) (i_arg i :: ap) = Some (item_inc i)
  ∧ size_switch (i_spec i) (i_arg i :: ap) = Some (item_inc i, ap)
  ∧ ∃ store, marshal_value (i_unsigned i) (i_spec i) (i_arg i :: ap) = Some (store, item_inc i, ap)
     ∧ ∀ buf pos, store buf pos = write_at buf pos (item_bytes i).
Proof.
  intros Hi. destruct i as [u s [z|[m|]|f]]; destruct s; unfold marshals in Hi; cbn in Hi; try done;
    unfold item_inc, item_bytes; cbn [marshal_inc size_switch marshal_value i_spec i_arg i_unsigned spec_inc];
    unfold u8, u16, u32, u64; rewrite ?wrap_either by lia.
  1-4: split_and!; [done..|]; eexists; split; [done|]; intros buf pos; cbn beta;
    rewrite ?setu16_be, ?setu32_be, ?setu64_be;
    first
      [ exact (f_equal _ (be_bytes_mod 2 z)) | exact (f_equal _ (be_bytes_mod 4 z))
      | exact (f_equal _ (be_bytes_mod 8 z)) | cbn [be_bytes]; by rewrite Z.div_1_r ].
  - destruct Hi as (str & Hs & _). unfold str_of. rewrite Hs. cbn. eauto 10.
  - destruct Hi as [w ->]. obind. split_and!; [done..|].
    eexists. split; [done|]. intros. cbn. apply setu32_be.
  - destruct Hi as [w ->]. obind. split_and!; [done..|].
    eexists. split; [done|]. intros. cbn. apply setu64_be.
Qed.

Lemma cstr_prefix m s : cstr m = Some s → Forall (λ c, c ≠ 0) s.
Proof.
  revert s. induction m as [|c m IH]; intros s; simpl; [done|].
  destruct (Z.eqb_spec c 0); [intros [= <-]; constructor|].
  destruct (cstr m); simpl; [|done]. intros [= <-]. constructor; auto.
Qed.

(** Loading the big endian bytes of any integer. *)
Lemma load_be n buf pos z (get : list Z → Z → option Z) :
  (∀ b o l, read_at b o (Z.of_nat n) = Some l → bytes l → get b o = Some (be_value l)) →
  read_at buf pos (zlen (be_bytes n z)) = Some (be_bytes n z) →
  get buf pos = Some (z mod 2 ^ (8 * Z.of_nat n)).
Proof.
  intros Hget Hr. rewrite length_be_bytes in Hr.
  rewrite (Hget _ _ _ Hr (bytes_be_bytes _ _)). f_equal. apply be_value_be_bytes.
Qed.

Lemma get_at_read buf pos b : read_at buf pos 1 = Some [b] → get_at buf pos = Some b.
Proof. intros (a & c & -> & -> & _)%read_at_split. by apply get_at_mid. Qed.

Lemma sint_either (u : bool) w z : 0 < w →
  (if u then z mod 2 ^ w else sint w (z mod 2 ^ w)) = (if u then z mod 2 ^ w else sint w z).
Proof. intros. destruct u; [done|]. by apply sint_mod. Qed.

Lemma unmarshal_step ok i buf pos : item_ok i →
  read_at buf pos (zlen (item_bytes i)) = Some (item_bytes i) → ok pos = true →
  unmarshal_value ok (i_unsigned i) (i_spec i) buf pos = Some (Some (item_out i, item_inc i)).
Proof.
  intros Hi Hr Hok.
  destruct i as [u s [z|[m|]|f]]; destruct s; unfold item_ok in Hi; cbn in Hi; try done;
    unfold item_bytes in Hr; unfold item_inc, item_out, unmarshal_value, int_value;
    cbn [i_spec i_arg i_unsigned spec_inc] in *.
  - cbn [be_bytes] in Hr. rewrite Z.div_1_r in Hr. rewrite (get_at_read _ _ _ Hr). obind.
    change 256 with (2 ^ 8). by rewrite sint_either.
  - rewrite (load_be 2 _ _ _ _ getu16_be Hr). obind. change (8 * Z.of_nat 2) with 16.
    by rewrite sint_either.
  - rewrite (load_be 4 _ _ _ _ getu32_be Hr). obind. change (8 * Z.of_nat 4) with 32.
    by rewrite sint_either.
  - rewrite (load_be 8 _ _ _ _ getu64_be Hr). obind. change (8 * Z.of_nat 8) with 64.
    by rewrite sint_either.
  - destruct Hi as (str & Hs & _). unfold str_of in *. rewrite Hs in *. cbn [default] in *.
    destruct (read_at_split _ _ _ _ Hr) as (a & c & -> & -> & _). rewrite <- app_assoc. cbn [app].
    rewrite cstr_at_mid by eauto using cstr_prefix. obind. by rewrite Hok.
  - destruct (packable_32 _ Hi) as (w & Hw & Hb & Hu). rewrite Hw in Hr.
    change (default 0 (Some w)) with w in Hr.
    rewrite (load_be 4 _ _ _ _ getu32_be Hr). obind. change (8 * Z.of_nat 4) with 32.
    by rewrite Z.mod_small, Hu.
  - destruct (packable_64 _ Hi) as (w & Hw & Hb & Hu). rewrite Hw in Hr.
    change (default 0 (Some w)) with w in Hr.
    rewrite (load_be 8 _ _ _ _ getu64_be Hr). obind. change (8 * Z.of_nat 8) with 64.
    by rewrite Z.mod_small, Hu.
Qed.

(** ** The loops on a rendered format *)

Lemma render_cons i l : render (i :: l) = render_item i ++ render l.
Proof. unfold render. cbn [fmap list_fmap concat]. by rewrite app_assoc. Qed.

(** What the three parsers do at the head of a rendered format. *)
Lemma marshal_loop_cons u i l ap len count pos buf :
  marshal_loop Start u (render (i :: l)) ap len count pos buf
  = (inc ← marshal_inc (i_spec i) ap;
     if len <? u64 (count + inc) then Some (false, count, buf)
     else
       '(store, _, ap) ← marshal_value (i_unsigned i) (i_spec i) ap;
       buf ← store buf pos;
       let count := u32 (count + inc) in
       if len =? count then c ← get_at (render l) 0; Some (c =? 0, count, buf)
       else marshal_loop Start (i_unsigned i) (render l) ap len count (pos + inc) buf).
Proof. rewrite render_cons. by destruct i as [[] [] ?]. Qed.

Lemma size_loop_cons i l ap retv :
  size_loop Start (render (i :: l)) ap retv
  = ('(inc, ap) ← size_switch (i_spec i) ap; size_loop Start (render l) ap (u32 (retv + inc))).
Proof. rewrite render_cons. by destruct i as [[] [] ?]. Qed.

Lemma unmarshal_loop_cons ok u i l buf len cnt retv stored :
  unmarshal_loop ok Start u (render (i :: l)) buf len cnt retv stored
  = (r ← unmarshal_value ok (i_unsigned i) (i_spec i) buf cnt;
     match r with
     | None => Some (-1, stored)
     | Some (o, inc) =>
         let stored := stored ++ [o] in
         let cnt := cnt + inc in
         let retv := retv + 1 in
         if len =? cnt then Some (retv, stored)
         else if len <? cnt then Some (-1, stored)
         else unmarshal_loop ok Start (i_unsigned i) (render l) buf len cnt retv stored
     end).
Proof. rewrite render_cons. by destruct i as [[] [] ?]. Qed.

Lemma total_nonneg l : Forall marshals l → 0 ≤ total l.
Proof.
  induction 1 as [|i l Hi _ IH]; simpl; [done|]. pose proof (item_inc_pos i Hi). lia.
Qed.

Lemma size_loop_total l retv : Forall marshals l →
  size_loop Start (render l) (i_arg <$> l) (u32 retv) = Some (u32 (retv + total l)).
Proof.
  intros Hl. revert retv. induction Hl as [|i l Hi Hl IH]; intros retv.
  - cbn. f_equal. f_equal. lia.
  - rewrite size_loop_cons. cbn [fmap list_fmap total].
    destruct (item_step i (i_arg <$> l) Hi) as (_ & -> & _). obind.
    unfold u32. rewrite Zplus_mod_idemp_l. fold (u32 (retv + item_inc i)). rewrite IH.
    unfold u32. do 2 f_equal. lia.
Qed.

Lemma render_head l : ∃ c, get_at (render l) 0 = Some c ∧ (c =? 0) = match l with [] => true | _ => false end.
Proof. destruct l; [by exists 0 | by exists ch_pct]. Qed.

(** Marshalling fills the buffer from [count] on, or stops before its end. *)
Lemma marshal_loop_total len l : Forall marshals l → ∀ u count buf,
  0 ≤ count ≤ len → len ≤ zlen buf → len < 2 ^ 32 →
  ∃ count' buf',
    marshal_loop Start u (render l) (i_arg <$> l) len count count buf
    = Some (count + total l <=? len, count', buf')
    ∧ zlen buf' = zlen buf ∧ 0 ≤ count' ≤ len
    ∧ (∀ o n, o + n ≤ count → read_at buf' o n = read_at buf o n)
    ∧ (count + total l ≤ len → count' = count + total l ∧ laid buf' count l).
Proof.
  induction 1 as [|i l Hi Hl IH]; intros u count buf Hc Hlen H32.
  { exists count, buf. cbn. bsolve. split_and!; try done; [lia..|]. split; [lia | done]. }
  pose proof (item_inc_pos i Hi) as [Hinc Hb]. pose proof (total_nonneg l Hl).
  destruct (item_step i (i_arg <$> l) Hi) as (Hmi & _ & store & Hmv & Hst).
  rewrite marshal_loop_cons. cbn [fmap list_fmap total].
  change ((fix list_fmap (l : list item) := match l with [] => [] | x :: l0 => i_arg x :: list_fmap l0 end) l)
    with (i_arg <$> l).
  rewrite Hmi. obind. unfold u64. rewrite Z.mod_small by lia.
  destruct (Z.ltb_spec len (count + item_inc i)).
  { exists count, buf. bsolve. split_and!; try done; lia. }
  rewrite Hmv. obind. rewrite Hst.
  destruct (write_at_inside buf count (item_bytes i) ltac:(lia) ltac:(lia)) as [buf1 Hw].
  rewrite Hw. obind. pose proof (write_at_length _ _ _ _ Hw) as Hl1.
  unfold u32. rewrite Z.mod_small by lia.
  assert (Hframe : ∀ o n, o + n ≤ count → read_at buf1 o n = read_at buf o n)
    by (intros; apply (read_after_write_other _ _ _ _ _ _ Hw); lia).
  pose proof (read_after_write _ _ _ _ Hw) as Hr.
  destruct (Z.eqb_spec len (count + item_inc i)) as [E|E].
  - destruct (render_head l) as (c & -> & Hc0). obind. exists (count + item_inc i), buf1.
    destruct l as [|j l]; rewrite Hc0; cbn [total].
    + bsolve. split_and!; try done; [lia..|]. intros _. split; [lia|]. by split.
    + apply Forall_cons in Hl as [Hj Hl]. pose proof (item_inc_pos j Hj). pose proof (total_nonneg l Hl).
      cbn [total] in *. bsolve. split_and!; try done; lia.
  - destruct (IH (i_unsigned i) (count + item_inc i) buf1) as (count' & buf' & Hrun & ? & ? & Hf & Hdone);
      [lia.. |].
    exists count', buf'. rewrite Hrun, Z.add_assoc. split_and!; try done; [lia..| |].
    + intros o n Ho. rewrite Hf by lia. by apply Hframe.
    + intros Hfit. destruct (Hdone Hfit) as [-> Hlaid]. split; [lia|].
      cbn [laid]. split; [|done]. rewrite Hf by lia. done.
Qed.

(** Unmarshalling a buffer in which the list is laid. *)
Lemma unmarshal_loop_total ok len l : Forall item_ok l → ∀ u buf cnt retv stored,
  (∀ pos, ok pos = true) → laid buf cnt l → cnt + total l ≤ len →
  unmarshal_loop ok Start u (render l) buf len cnt retv stored
  = Some (retv + zlen l, stored ++ (item_out <$> l)).
Proof.
  induction 1 as [|i l Hi Hl IH]; intros u buf cnt retv stored Hok Hlaid Hfit.
  { cbn. by rewrite Z.add_0_r, app_nil_r. }
  pose proof (item_inc_pos i (item_ok_marshals i Hi)) as [Hinc Hb]. pose proof (total_nonneg l (all_ok_marshal l Hl)).
  cbn [total laid] in *. destruct Hlaid as [Hr Hlaid].
  rewrite unmarshal_loop_cons, (unmarshal_step ok i) by done. obind.
  destruct (Z.eqb_spec len (cnt + item_inc i)).
  - destruct l as [|j l]; [done|]. apply Forall_cons in Hl as [Hj Hl].
    pose proof (item_inc_pos j (item_ok_marshals j Hj)). pose proof (total_nonneg l (all_ok_marshal l Hl)). cbn [total] in *. lia.
  - bsolve. rewrite IH by (done || lia). f_equal. f_equal; [llia|].
    by rewrite <- app_assoc.
Qed.

Lemma render_nonzero l : Forall (λ c, c ≠ 0) (concat (render_item <$> l)).
Proof.
  induction l as [|i l IH]; [constructor|]. cbn [fmap list_fmap concat].
  apply Forall_app. split; [|done]. destruct i as [[] [] ?]; repeat constructor; done.
Qed.

Lemma vmarshal_size_total l : Forall marshals l → total l < 2 ^ 32 →
  vmarshal_size (Some (render l)) (i_arg <$> l) = Some (total l).
Proof.
  intros Hl Ht. unfold vmarshal_size.
  assert (cstr (render l) = Some (concat (render_item <$> l))) as ->
    by apply (cstr_app _ []), render_nonzero.
  obind.
  pose proof (total_nonneg l Hl). destruct l as [|i l]; [done|].
  rewrite (proj2 (Z.eqb_neq _ 0)).
  - change 0 with (u32 0). rewrite size_loop_total by done. f_equal. apply Z.mod_small. lia.
  - cbn [fmap list_fmap concat]. destruct i as [[] [] ?]; llia.
Qed.

Lemma vunmarshal_total l buf : Forall item_ok l → laid buf 0 l →
  vunmarshal (λ _, true) buf (total l) (render l) = Some (zlen l, item_out <$> l).
Proof.
  intros Hl Hlaid. unfold vunmarshal. destruct l as [|i l]; [done|].
  pose proof Hl as [Hi Hl']%Forall_cons. pose proof (item_inc_pos i (item_ok_marshals i Hi)).
  pose proof (total_nonneg l (all_ok_marshal l Hl')).
  rewrite (proj2 (Z.ltb_ge _ 1)) by (cbn [total]; lia).
  by rewrite unmarshal_loop_total by (done || lia).
Qed.

(** ** Properties *)

(** C21: the marshalled form of a list of arguments is read back: in a buffer
    large enough [vmarshal] succeeds and reports the size [vmarshal_size]
    computes, and [vunmarshal] of that many bytes with the same format assigns
    every argument its value again, integers reduced to the width and
    signedness of their specifier, strings and normalised floating point
    numbers unchanged. *)
Theorem marshal_roundtrip l buf :
  Forall item_ok l → total l ≤ zlen buf < 2 ^ 32 → 0 < zlen buf →
  ∃ count buf',
    vmarshal buf (zlen buf) (render l) (i_arg <$> l) = Some (true, count, buf')
    ∧ vmarshal_size (Some (render l)) (i_arg <$> l) = Some count
    ∧ vunmarshal (λ _, true) buf' count (render l) = Some (zlen l, item_out <$> l).
Proof.
  intros Hl Ht Hpos. pose proof (all_ok_marshal l Hl) as Hm'. unfold vmarshal. rewrite (proj2 (Z.eqb_neq _ 0)) by lia.
  destruct (marshal_loop_total (zlen buf) l Hm' true 0 buf) as (count & buf' & Hm & _ & _ & _ & Hdone);
    [lia | lia | lia |].
  destruct Hdone as [-> Hlaid]; [lia|]. rewrite ?Z.add_0_l in *. exists (total l), buf'.
  rewrite (proj2 (Z.leb_le _ _)) in Hm by lia. split; [done|].
  split; [apply vmarshal_size_total; [done | lia]|].
  by apply vunmarshal_total.
Qed.

(** C23: a well typed call with finite numbers never goes wrong: for every list
    of arguments of the types the format asks for, the floating point ones finite
    (zero and subnormal ones included; an infinity, or a %f that is one as a
    [float], makes the packing loop run for ever), and every buffer of the length
    passed, [vmarshal] is defined, stays inside the buffer, and returns true
    exactly when the arguments fit and the length is not zero. *)
Theorem marshal_type_safe l buf :
  Forall well_typed l → zlen buf < 2 ^ 32 →
  ∃ count buf',
    vmarshal buf (zlen buf) (render l) (i_arg <$> l)
    = Some ((0 <? zlen buf) && (total l <=? zlen buf), count, buf')
    ∧ length buf' = length buf ∧ 0 ≤ count ≤ zlen buf.
Proof.
  intros Hl Hlen. assert (Hm : Forall marshals l) by (eapply Forall_impl; [exact Hl | apply well_typed_marshals]).
  unfold vmarshal. destruct (Z.eqb_spec (zlen buf) 0) as [E|E].
  - exists 0, buf. rewrite (proj2 (Z.ltb_ge 0 _)) by lia. split_and!; done || lia.
  - destruct (marshal_loop_total (zlen buf) l Hm true 0 buf) as (count & buf' & Hr & Hl' & ? & _);
      [lia | lia | lia |].
    exists count, buf'. rewrite (proj2 (Z.ltb_lt 0 _)) by lia. split_and!; done || lia.
Qed.

(** what the interface promises and the code does not do.  The offsets
    count bits where the buffer and its sizes count bytes, so a single byte
    does not fit into fewer than eight; white space in a format is not ignored
    but ends [vunmarshal] with -1; [vunmarshal] reads before it compares
    against the length; a '%' at the end of a format runs past its end. *)
Theorem marshal_defects z buf :
  (0 < zlen buf < 8 →
     vmarshal buf (zlen buf) (bytes_of_string "%b" ++ [0]) [AInt z] = Some (false, 0, buf)
     ∧ vunmarshal (λ _, true) buf (zlen buf) (bytes_of_string "%L" ++ [0]) = None)
  ∧ vmarshal_size (Some (bytes_of_string "%b" ++ [0])) [AInt z] = Some 8
  ∧ (8 < zlen buf → ∃ o,
       vunmarshal (λ _, true) buf (zlen buf) (bytes_of_string "%b %b" ++ [0]) = Some (-1, [o]))
  ∧ (0 < zlen buf → vmarshal buf (zlen buf) (bytes_of_string "%" ++ [0]) [] = None).
Proof.
  split_and!; [intros Hb; split | done | intros Hb | intros Hb].
  - unfold vmarshal. bsolve. cbn. unfold u64. rewrite Z.mod_small by lia. by bsolve.
  - unfold vunmarshal. bsolve. cbn. unfold getu64, read_at. by bsolve.
  - unfold vunmarshal. bsolve. destruct buf as [|b buf]; [done|]. cbn -[length Z.of_nat].
    change ((b :: buf) !! Z.to_nat 0) with (Some b). obind.
    rewrite !(proj2 (Z.eqb_neq _ _)), (proj2 (Z.ltb_ge _ _)) by lia. eauto.
  - unfold vmarshal. bsolve. done.
Qed.

Definition demo_items : list item :=
  [ mkItem true Sw (AInt 70000); mkItem false Ss (AStr (Some (bytes_of_string "FIX" ++ [0; 9])));
    mkItem false Sb (AInt (-1)); mkItem false SF (ADbl (S754_finite true (3 * 2 ^ 51) (-52))) ].

Lemma demo_items_ok : Forall item_ok demo_items.
Proof.
  repeat constructor; [by exists (bytes_of_string "FIX") | | |]; vm_compute; discriminate.
Qed.

Lemma marshal_roundtrip_witness : ∃ count buf',
  vmarshal (replicate 100 7) 100 (render demo_items) (i_arg <$> demo_items) = Some (true, count, buf')
  ∧ vmarshal_size (Some (render demo_items)) (i_arg <$> demo_items) = Some count
  ∧ vunmarshal (λ _, true) buf' count (render demo_items)
    = Some (4, [OInt true 16 4464; OStr (bytes_of_string "FIX"); OInt false 8 (-1);
                ODbl (S754_finite true (3 * 2 ^ 51) (-52))]).
Proof.
  apply (marshal_roundtrip demo_items (replicate 100 7) demo_items_ok); vm_compute; split; congruence.
Defined.

(** The same arguments and the smallest subnormal double. *)
Definition demo_typed : list item := demo_items ++ [mkItem false SF (ADbl (S754_finite false 1 (-1074)))].

Lemma demo_typed_ok : Forall well_typed demo_typed.
Proof.
  unfold demo_typed, demo_items. cbn [app].
  repeat apply Forall_cons_2; [done | by exists (bytes_of_string "FIX") | done | | | by apply Forall_nil]; vm_compute; split; congruence.
Qed.

Lemma marshal_type_safe_witness : ∃ count buf',
  vmarshal (replicate 20 7) 20 (render demo_typed) (i_arg <$> demo_typed) = Some (false, count, buf')
  ∧ length buf' = 20%nat ∧ 0 ≤ count ≤ 20.
Proof. apply (marshal_type_safe demo_typed (replicate 20 7) demo_typed_ok). reflexivity. Defined.

Lemma marshal_defects_witness :
  vmarshal [0] 1 (bytes_of_string "%b" ++ [0]) [AInt 5] = Some (false, 0, [0])
  ∧ vunmarshal (λ _, true) [0] 1 (bytes_of_string "%L" ++ [0]) = None.
Proof. apply (proj1 (marshal_defects 5 [0])). split; reflexivity. Defined.
