(* ===== verification/MsgDB.v ===== *)
(** * The message database: [src/applib/fixutils/db_utils.h] and [db_utils.cpp]

    SQLite is modelled by what the statements of the source do to the two
    tables: a table is a map from [seqnum] (its primary key) to rows, a prepared
    statement is its parameter bindings, a null statement is [None].  The
    return codes of the SQLite calls, in the order of the calls, are arguments,
    as are the clock and the allocator.  Rows are read in the order of the
    primary key. *)
From S2P Require Import Prelude FixMessageTX Pusher.
From stdpp Require Import sorting.
#[local] Open Scope Z_scope.

(** ** Time to live *)

Definition timeval : Type := Z * Z.

(** The return value and [*result]; the carries adjust a copy of [y]. *)
Definition timeval_subtract (x y : timeval) : bool * timeval :=
  let y := if x.2 <? y.2
           then let nsec := Z.quot (y.2 - x.2) 1000000 + 1 in (y.1 + nsec, y.2 - 1000000 * nsec)
           else y in
  let y := if 1000000 <? x.2 - y.2
           then let nsec := Z.quot (x.2 - y.2) 1000000 in (y.1 - nsec, y.2 + 1000000 * nsec)
           else y in
  (x.1 <? y.1, (x.1 - y.1, x.2 - y.2)).

(** The return value and [remaining_ttl]. *)
Definition is_ttl_expired (now ttl : timeval) : bool * timeval :=
  let '(negative, remaining) := timeval_subtract ttl now in
  let remaining := if (negative : bool) then (0, 0) else remaining in
  ((remaining.1 =? 0) && (remaining.2 =? 0), remaining).

(** ** [PartialMessageList] *)

(** [get_at]: [n > size - 1] at [size_t] width; an inner [None] is the null
    that stands for "no such message". *)
Definition get_at_list (l : list PartialMessage) (n : Z) : option (option PartialMessage) :=
  if u64 (zlen l - 1) <? n then Some None else p ← l !! Z.to_nat n; Some (Some p).

(** ** SQLite *)

Definition SQLITE_OK : Z := 0.
Definition SQLITE_BUSY : Z := 5.
Definition SQLITE_MISUSE : Z := 21.
Definition SQLITE_ROW : Z := 100.
Definition SQLITE_DONE : Z := 101.

Inductive sql_value : Type :=
  | SqlNull | SqlInt (z : Z) | SqlText (l : list Z) | SqlBlob (l : list Z).

Abbreviation bindings := (gmap Z sql_value).
Definition bound (b : bindings) (i : Z) : sql_value := default SqlNull (b !! i).

(** [sqlite3_column_int64]: a NULL reads as 0. *)
Definition column_int64 (v : sql_value) : Z := match v with SqlInt z => z | _ => 0 end.

Record recv_row := mkRecvRow { rr_seconds : sql_value; rr_microseconds : sql_value; rr_msg : sql_value }.
Record sent_row := mkSentRow {
  sr_seconds : sql_value; sr_microseconds : sql_value; sr_ttl_seconds : sql_value;
  sr_ttl_useconds : sql_value; sr_msg_type : sql_value; sr_length : sql_value; sr_msg : sql_value }.

Record tables := mkTables { recv_messages : gmap Z recv_row; sent_messages : gmap Z sent_row }.

(** [INSERT_RECV_MESSAGE] and [INSERT_SENT_MESSAGE] with their bindings. *)
Definition insert_recv (b : bindings) (t : tables) : tables :=
  mkTables (<[column_int64 (bound b 1) := mkRecvRow (bound b 2) (bound b 3) (bound b 4)]> (recv_messages t))
           (sent_messages t).
Definition insert_sent (b : bindings) (t : tables) : tables :=
  mkTables (recv_messages t)
           (<[column_int64 (bound b 1) :=
              mkSentRow (bound b 2) (bound b 3) (bound b 4) (bound b 5) (bound b 6) (bound b 7) (bound b 8)]>
              (sent_messages t)).

(** [SELECT MAX(seqnum)]: one row, which is NULL for an empty table. *)
Definition max_seqnum {R} (t : gmap Z R) : sql_value :=
  foldr (λ k v, match v with SqlInt m => SqlInt (Z.max k m) | _ => SqlInt k end)
        SqlNull (fst <$> map_to_list t).

(** [SELECT ... WHERE seqnum >= start AND seqnum <= end], without the second
    condition when [end] is 0. *)
Definition selected (start end_ : Z) (t : gmap Z sent_row) : list (Z * sent_row) :=
  let keys := filter (λ k, start ≤ k ∧ (end_ = 0 ∨ k ≤ end_)) (fst <$> map_to_list t) in
  omap (λ k, (λ r, (k, r)) <$> t !! k) (merge_sort Z.le keys).

(** ** [MsgDB] *)

(** [db_] is the file the handle is open on; [files] is the disk. *)
Record MsgDB := mkDB {
  db_ : option (list Z);
  db_path_ : option (list Z);
  insert_recv_msg_statement_ : option bindings;
  insert_sent_msg_statement_ : option bindings;
  max_recv_seqnum_statement_ : bool;
  max_sent_seqnum_statement_ : bool;
  files : gmap (list Z) tables }.

Definition make_db (files : gmap (list Z) tables) : MsgDB := mkDB None None None None false false files.

Definition empty_tables : tables := mkTables ∅ ∅.
Definition file_tables (db : MsgDB) (path : list Z) : tables := default empty_tables (files db !! path).

(** [set_db_path]; [strdup] may fail. *)
Definition set_db_path (strdup_ok : bool) (path : list Z) (db : MsgDB) : Z * MsgDB :=
  let p := if strdup_ok then Some path else None in
  (if strdup_ok then 1 else 0,
   mkDB (db_ db) p (insert_recv_msg_statement_ db) (insert_sent_msg_statement_ db)
        (max_recv_seqnum_statement_ db) (max_sent_seqnum_statement_ db) (files db)).

(** The [close_db] loop: at most five attempts while the database is busy.
    [cnt] counts the busy answers. *)
Fixpoint close_loop (fuel : nat) (rc : nat → Z) (cnt : nat) : bool :=
  match fuel with
  | O => false
  | S fuel =>
      if rc cnt =? SQLITE_OK then true
      else if rc cnt =? SQLITE_BUSY
      then if (S cnt =? 5)%nat then false else close_loop fuel rc (S cnt)
      else false
  end.

Definition close (rc : nat → Z) (db : MsgDB) : Z * MsgDB :=
  match db_ db with
  | None => (1, db)
  | Some _ =>
      if close_loop 5 rc 0
      then (1, mkDB None (db_path_ db) None None false false (files db))
      else (0, mkDB (db_ db) (db_path_ db) None None false false (files db))
  end.

(** [open]: [rc] are the codes of [sqlite3_open], the two [CREATE TABLE] and
    the four [sqlite3_prepare_v2] calls (the result of the PRAGMA is not
    looked at), [handle] tells whether a failing [sqlite3_open] left a handle
    to close.  [None] is [abort()]. *)
Definition open (rc : nat → Z) (handle : bool) (close_rc : nat → Z) (db : MsgDB)
    : option (Z * MsgDB) :=
  match db_ db, db_path_ db with
  | Some _, _ => Some (1, db)
  | None, None => Some (0, db)
  | None, Some path =>
      let ok n := rc n =? SQLITE_OK in
      let opened := ok 0%nat || handle in
      let created := ok 0%nat && ok 1%nat in
      let db' :=
        mkDB (if opened then Some path else None) (db_path_ db)
             (if created && ok 2%nat && ok 3%nat then Some ∅ else None)
             (if created && ok 2%nat && ok 3%nat && ok 4%nat then Some ∅ else None)
             (created && ok 2%nat && ok 3%nat && ok 4%nat && ok 5%nat)
             (created && ok 2%nat && ok 3%nat && ok 4%nat && ok 5%nat && ok 6%nat)
             (if created then <[path := file_tables db path]> (files db) else files db) in
      if ok 0%nat && ok 1%nat && ok 2%nat && ok 3%nat && ok 4%nat && ok 5%nat && ok 6%nat
      then Some (1, db')
      else let '(r, db') := close close_rc db' in if r =? 0 then None else Some (0, db')
  end.

(** Which statement a [sqlite3_bind_*] call is given. *)
Inductive which : Set := RecvStmt | SentStmt.

Definition set_stmt (w : which) (b : option bindings) (db : MsgDB) : MsgDB :=
  match w with
  | RecvStmt => mkDB (db_ db) (db_path_ db) b (insert_sent_msg_statement_ db)
                     (max_recv_seqnum_statement_ db) (max_sent_seqnum_statement_ db) (files db)
  | SentStmt => mkDB (db_ db) (db_path_ db) (insert_recv_msg_statement_ db) b
                     (max_recv_seqnum_statement_ db) (max_sent_seqnum_statement_ db) (files db)
  end.

Definition get_stmt (w : which) (db : MsgDB) : option bindings :=
  match w with RecvStmt => insert_recv_msg_statement_ db | SentStmt => insert_sent_msg_statement_ db end.

(** The sequence of checked [sqlite3_bind_*] calls: the last code and the
    statements.  A null statement is SQLITE_MISUSE. *)
Fixpoint bind_all (rc : nat → Z) (n : nat) (l : list (which * Z * sql_value)) (db : MsgDB) : Z * MsgDB :=
  match l with
  | [] => (SQLITE_OK, db)
  | (w, i, v) :: l =>
      match get_stmt w db with
      | None => (SQLITE_MISUSE, db)
      | Some b =>
          if rc n =? SQLITE_OK then bind_all rc (S n) l (set_stmt w (Some (<[i := v]> b)) db)
          else (rc n, db)
      end
  end.

Definition set_tables (t : tables) (db : MsgDB) : MsgDB :=
  mkDB (db_ db) (db_path_ db) (insert_recv_msg_statement_ db) (insert_sent_msg_statement_ db)
       (max_recv_seqnum_statement_ db) (max_sent_seqnum_statement_ db)
       match db_ db with Some path => <[path := t]> (files db) | None => files db end.

(** [out:] of the two store functions: the bindings of the statement are cleared. *)
Definition clear_stmt (w : which) (db : MsgDB) : MsgDB := set_stmt w ((λ _, ∅) <$> get_stmt w db) db.

(** The common shape of the store functions: bind, step, clear. *)
Definition bind_step_clear (rc : nat → Z) (w : which) (insert : bindings → tables → tables)
    (path : list Z) (l : list (which * Z * sql_value)) (db : MsgDB) : Z * MsgDB :=
  let '(ret, db) := bind_all rc 0 l db in
  let '(ret, db) :=
    if ret =? SQLITE_OK then
      let ret := rc (length l) in
      match get_stmt w db with
      | Some b => (ret, if ret =? SQLITE_DONE then set_tables (insert b (file_tables db path)) db else db)
      | None => (SQLITE_MISUSE, db)
      end
    else (ret, db) in
  (if ret =? SQLITE_DONE then 1 else 0, clear_stmt w db).

(** [now] is what [gettimeofday] returns; 64 bit unsigned values are bound as
    signed ones. *)
Definition store_sent_msg (rc : nat → Z) (now : timeval) (seqnum len ttl_tv_sec ttl_tv_usec : Z)
    (msg msg_type : list Z) (db : MsgDB) : option (Z * MsgDB) :=
  match db_ db with
  | None => Some (0, db)
  | Some path =>
      text ← cstr msg_type;
      blob ← read_at msg 0 len;
      Some (bind_step_clear rc SentStmt insert_sent path
        [ (SentStmt, 1, SqlInt (sint 64 seqnum)); (SentStmt, 2, SqlInt now.1);
          (SentStmt, 3, SqlInt now.2); (SentStmt, 4, SqlInt (sint 64 ttl_tv_sec));
          (SentStmt, 5, SqlInt (sint 64 ttl_tv_usec)); (SentStmt, 6, SqlText text);
          (SentStmt, 7, SqlInt (sint 64 len)); (SentStmt, 8, SqlBlob blob) ] db)
  end.

(** The two timestamps are bound to the other statement. *)
Definition store_recv_msg (rc : nat → Z) (now : timeval) (seqnum len : Z) (msg : list Z) (db : MsgDB)
    : option (Z * MsgDB) :=
  match db_ db with
  | None => Some (0, db)
  | Some path =>
      blob ← read_at msg 0 len;
      Some (bind_step_clear rc RecvStmt insert_recv path
        [ (RecvStmt, 1, SqlInt (sint 64 seqnum)); (SentStmt, 2, SqlInt now.1);
          (SentStmt, 3, SqlInt now.2); (RecvStmt, 4, SqlBlob blob) ] db)
  end.

(** The body of the two [get_latest] functions: the return value and the new
    [seqnum]; [ret] is the code of [sqlite3_step]. *)
Definition latest {R} (prepared : bool) (ret : Z) (t : gmap Z R) (seqnum : Z) : Z * Z :=
  let ret := if prepared then ret else SQLITE_MISUSE in
  if ret =? SQLITE_ROW then (1, u64 (column_int64 (max_seqnum t)))
  else if ret =? SQLITE_DONE then (1, 0)
  else (0, seqnum).

Definition get_latest_recv_seqnum (ret seqnum : Z) (db : MsgDB) : Z * Z :=
  match db_ db with
  | None => (0, seqnum)
  | Some path =>
      latest (max_recv_seqnum_statement_ db) ret (recv_messages (file_tables db path)) seqnum
  end.

Definition get_latest_sent_seqnum (ret seqnum : Z) (db : MsgDB) : Z * Z :=
  latest (max_sent_seqnum_statement_ db) ret
    (sent_messages (default empty_tables (file_tables db <$> db_ db))) seqnum.

(** One row as a message: [None] is undefined behaviour, an inner [None] a
    failed allocation of the message's block. *)
Definition row_message (malloc : Z → option (list Z)) (now : timeval) (r : sent_row)
    : option (option PartialMessage) :=
  let ttl := (column_int64 (sr_ttl_seconds r), column_int64 (sr_ttl_useconds r)) in
  let '(expired, remaining) := is_ttl_expired now ttl in
  if expired then Some (Some (mkPartial 0 [] [] remaining))
  else
    match sr_msg_type r with
    | SqlText text =>
        let length_ := u32 (column_int64 (sr_length r)) in
        match malloc (length_ + 5) with
        | None => Some None
        | Some block =>
            let blob := match sr_msg r with SqlBlob b => b | _ => [] end in
            data ← read_at blob 0 length_;
            part ← write_at block 0 data;
            Some (Some (mkPartial length_ (text ++ [0]) part remaining))
        end
    | _ => None   (* strdup(NULL) *)
    end.

(** The [do ... while (1)] of [get_sent_msgs]: [steps] are the codes of the
    [sqlite3_step] calls.  The inner [None] is the null list. *)
Fixpoint fetch (malloc : Z → option (list Z)) (now : nat → timeval) (new_ok : nat → bool)
    (steps : list Z) (rows : list (Z * sent_row)) (acc : list PartialMessage)
    : option (option (list PartialMessage)) :=
  match steps with
  | [] => None
  | ret :: steps =>
      if ret =? SQLITE_ROW then
        match rows with
        | [] => None
        | (_, r) :: rows =>
            if new_ok (length acc) then
              m ← row_message malloc (now (length acc)) r;
              match m with
              | None => Some None
              | Some pmsg => fetch malloc now new_ok steps rows (acc ++ [pmsg])
              end
            else Some None
        end
      else if ret =? SQLITE_BUSY then fetch malloc now new_ok steps rows acc
      else Some (Some acc)
  end.

(** [prepare] is the code of [sqlite3_prepare_v2], [list_ok] whether the list
    object is allocated. *)
Definition get_sent_msgs (malloc : Z → option (list Z)) (now : nat → timeval) (new_ok : nat → bool)
    (list_ok : bool) (prepare : Z) (steps : list Z) (start end_ : Z) (db : MsgDB)
    : option (option (list PartialMessage)) :=
  match db_ db with
  | None => Some None
  | Some path =>
      if negb (prepare =? SQLITE_OK) then Some None
      else if negb list_ok then Some None
      else fetch malloc now new_ok steps (selected start end_ (sent_messages (file_tables db path))) []
  end.

Definition get_recv_msgs (start end_ : Z) (db : MsgDB) : option (list (list Z)) := None.

(** ** Time arithmetic *)

Definition usecs (t : timeval) : Z := t.1 * 1000000 + t.2.
Definition normal_time (t : timeval) : Prop := 0 ≤ t.2 < 1000000.

Lemma timeval_subtract_spec x y : normal_time x → normal_time y →
  ∃ r, timeval_subtract x y = (usecs x <? usecs y, r) ∧ usecs r = usecs x - usecs y ∧ normal_time r.
Proof.
  destruct x as [xs xu], y as [ys yu]. unfold normal_time, usecs, timeval_subtract. cbn [fst snd].
  intros Hx Hy. destruct (Z.ltb_spec xu yu).
  - cbn [fst snd]. rewrite Z.quot_small by lia. cbn [fst snd].
    rewrite (proj2 (Z.ltb_ge 1000000 _)) by lia. cbn [fst snd].
    eexists. split; [f_equal | cbn [fst snd]; lia]. apply Bool.eq_iff_eq_true. rewrite !Z.ltb_lt. lia.
  - cbn [fst snd]. rewrite (proj2 (Z.ltb_ge 1000000 _)) by lia. cbn [fst snd].
    eexists. split; [f_equal | cbn [fst snd]; lia]. apply Bool.eq_iff_eq_true. rewrite !Z.ltb_lt. lia.
Qed.

Lemma is_ttl_expired_spec now ttl : normal_time now → normal_time ttl →
  ∃ r, is_ttl_expired now ttl = (usecs ttl <=? usecs now, r)
    ∧ usecs r = Z.max 0 (usecs ttl - usecs now) ∧ normal_time r.
Proof.
  intros Hn Ht. unfold is_ttl_expired.
  destruct (timeval_subtract_spec ttl now Ht Hn) as (r & -> & Hr & Hnr).
  unfold normal_time, usecs in *. destruct (Z.ltb_spec (ttl.1 * 1000000 + ttl.2) (now.1 * 1000000 + now.2)).
  - exists (0, 0). cbn. rewrite (proj2 (Z.leb_le _ _)) by lia. split_and!; done || lia.
  - exists r. split; [|lia]. f_equal. apply Bool.eq_iff_eq_true.
    rewrite andb_true_iff, !Z.eqb_eq, Z.leb_le. lia.
Qed.

Lemma expire_time_usecs now ttl : normal_time now → normal_time ttl →
  usecs (expire_time now ttl) = usecs now + usecs ttl ∧ normal_time (expire_time now ttl).
Proof.
  unfold normal_time, usecs, expire_time. cbv zeta. intros.
  destruct (1000000 <=? now.2 + ttl.2) eqn:E; bool_hyps; cbn [fst snd]; lia.
Qed.

(** ** Handles and statements *)

(** The four statements are prepared or null together, and null while no file
    is open. *)
Definition db_wf (db : MsgDB) : Prop :=
  let prepared := max_sent_seqnum_statement_ db in
  (is_Some (insert_recv_msg_statement_ db) ↔ prepared = true)
  ∧ (is_Some (insert_sent_msg_statement_ db) ↔ prepared = true)
  ∧ max_recv_seqnum_statement_ db = prepared
  ∧ (prepared = true → is_Some (db_ db)).

(** Neither the file nor which statements are prepared changes. *)
Definition same_handles (db db' : MsgDB) : Prop :=
  db_ db' = db_ db ∧ db_path_ db' = db_path_ db
  ∧ (is_Some (insert_recv_msg_statement_ db') ↔ is_Some (insert_recv_msg_statement_ db))
  ∧ (is_Some (insert_sent_msg_statement_ db') ↔ is_Some (insert_sent_msg_statement_ db))
  ∧ max_recv_seqnum_statement_ db' = max_recv_seqnum_statement_ db
  ∧ max_sent_seqnum_statement_ db' = max_sent_seqnum_statement_ db.

#[global] Instance same_handles_preorder : PreOrder same_handles.
Proof.
  split.
  - intros db. by split_and!.
  - intros a b c (? & ? & ? & ? & ? & ?) (? & ? & ? & ? & ? & ?). split_and!; try congruence; by etrans.
Qed.

Lemma same_handles_wf db db' : same_handles db db' → db_wf db → db_wf db'.
Proof.
  intros (E1 & _ & E2 & E3 & E4 & E5). unfold db_wf. by rewrite E1, E2, E3, E4, E5.
Qed.

Lemma set_stmt_handles w b db : is_Some (get_stmt w db) → same_handles db (set_stmt w (Some b) db).
Proof.
  intros [b' Hb]. destruct w; unfold same_handles; cbn in *; rewrite Hb;
    split_and!; try done; split; intros _; eauto.
Qed.

Lemma bind_all_handles rc l : ∀ n db, same_handles db (bind_all rc n l db).2.
Proof.
  induction l as [|[[w i] v] l IH]; intros n db; cbn [bind_all]; [done|].
  destruct (get_stmt w db) as [b|] eqn:E; [|done]. case_match; [|done].
  etrans; [apply (set_stmt_handles w); rewrite E; eauto | apply IH].
Qed.

Lemma clear_stmt_handles w db : same_handles db (clear_stmt w db).
Proof.
  unfold clear_stmt. destruct (get_stmt w db) as [b|] eqn:E; cbn.
  - apply set_stmt_handles. rewrite E. eauto.
  - destruct w; cbn in E; unfold same_handles; cbn; rewrite E; by split_and!.
Qed.

Lemma bind_step_clear_handles rc w insert path l db :
  same_handles db (bind_step_clear rc w insert path l db).2.
Proof.
  unfold bind_step_clear. pose proof (bind_all_handles rc l 0 db) as Hb.
  destruct (bind_all rc 0 l db) as [ret db1]. cbn [snd] in Hb.
  assert (Ht : ∀ t, same_handles db1 (set_tables t db1)) by (intros t; unfold same_handles; by split_and!).
  repeat case_match; simplify_eq/=; (etrans; [|apply clear_stmt_handles]); try done; by etrans.
Qed.

(** The states with no statement prepared, and those with all of them. *)
Lemma db_wf_none d p f : db_wf (mkDB d p None None false false f).
Proof. unfold db_wf. cbn. split_and!; try done; split; (done || by intros [? ?]). Qed.

Lemma db_wf_all d p b1 b2 f : is_Some d → db_wf (mkDB d p (Some b1) (Some b2) true true f).
Proof. intros. unfold db_wf. cbn. split_and!; eauto; split; eauto. Qed.

Lemma close_wf rc db r db' : close rc db = (r, db') → db_wf db → db_wf db'.
Proof.
  unfold close. intros Hc Hwf. repeat case_match; simplify_eq/=; [apply db_wf_none..|done].
Qed.

Lemma close_none rc db : db_ db = None → close rc db = (1, db).
Proof. unfold close. by intros ->. Qed.

(** After a close that is given up the statements are gone but the handle is kept. *)
Lemma close_some rc db path : db_ db = Some path →
  close rc db = (if close_loop 5 rc 0 then 1 else 0,
                 mkDB (if close_loop 5 rc 0 then None else Some path) (db_path_ db) None None false false (files db)).
Proof. unfold close. intros ->. by destruct (close_loop 5 rc 0). Qed.

Lemma open_wf rc handle crc db r db' : open rc handle crc db = Some (r, db') → db_wf db → db_wf db'.
Proof.
  unfold open. intros Ho Hwf. destruct (db_ db) as [p|] eqn:Edb; [by simplify_eq|].
  destruct (db_path_ db) as [path|]; [|by simplify_eq].
  match type of Ho with (if ?b then _ else _) = _ => destruct b eqn:Eall end.
  - injection Ho as _ <-. rewrite !andb_true_iff in Eall.
    destruct Eall as [[[[[[-> ->] ->] ->] ->] ->] _]. apply db_wf_all. eauto.
  - match type of Ho with (let '(_, _) := close _ ?d in _) = _ => set (db1 := d) in Ho end.
    assert (Hc : db_wf (close crc db1).2).
    { destruct (rc 0%nat =? SQLITE_OK) eqn:E0; [|destruct handle];
        [rewrite (close_some _ _ path) by done | rewrite (close_some _ _ path) by done
        | rewrite close_none by done]; apply db_wf_none. }
    destruct (close crc db1) as [r1 db2]. case_match; simplify_eq. exact Hc.
Qed.

(** ** Storing *)

Lemma store_handles rc now seqnum len a b msg mt db r db' :
  store_sent_msg rc now seqnum len a b msg mt db = Some (r, db')
  ∨ store_recv_msg rc now seqnum len msg db = Some (r, db') → same_handles db db'.
Proof.
  unfold store_sent_msg, store_recv_msg. intros [H|H]; destruct (db_ db) as [path|]; try by simplify_eq.
  - destruct (cstr mt); [obind | done]. destruct (read_at msg 0 len); [|done]. revert H. obind. intros H.
    injection H as H. change db' with (r, db').2. rewrite <- H. apply bind_step_clear_handles.
  - destruct (read_at msg 0 len); [|done]. revert H. obind. intros H.
    injection H as H. change db' with (r, db').2. rewrite <- H. apply bind_step_clear_handles.
Qed.

(** A row as [store_sent_msg] writes it, and as [store_recv_msg] does. *)
Definition stored_row (now : timeval) (len ttl_sec ttl_usec : Z) (data text : list Z) : sent_row :=
  mkSentRow (SqlInt now.1) (SqlInt now.2) (SqlInt (sint 64 ttl_sec)) (SqlInt (sint 64 ttl_usec))
            (SqlText text) (SqlInt (sint 64 len)) (SqlBlob data).

Definition all_binds_ok (rc : nat → Z) (n : nat) : Prop :=
  (∀ i, (i < n)%nat → rc i = SQLITE_OK) ∧ rc n = SQLITE_DONE.

Definition bind_one (db : MsgDB) (x : which * Z * sql_value) : MsgDB :=
  set_stmt x.1.1 (<[x.1.2 := x.2]> <$> get_stmt x.1.1 db) db.

Lemma bind_all_ok rc l : ∀ n db,
  (∀ i, (i < n + length l)%nat → rc i = SQLITE_OK) → Forall (λ x, is_Some (get_stmt x.1.1 db)) l →
  bind_all rc n l db = (SQLITE_OK, foldl bind_one db l).
Proof.
  induction l as [|[[w i] v] l IH]; intros n db Hrc Hl; cbn [bind_all foldl]; [done|].
  apply Forall_cons in Hl as [[b Hb] Hl]. cbn [fst snd] in Hb. rewrite Hb.
  rewrite (Hrc n) by (cbn; lia). change (SQLITE_OK =? SQLITE_OK) with true. cbv iota.
  rewrite IH.
  - unfold bind_one at 3. cbn [fst snd]. by rewrite Hb.
  - intros j Hj. apply Hrc. cbn. lia.
  - eapply Forall_impl; [exact Hl|]. intros [[w' i'] v'] [b' Hb']. cbn [fst snd] in *.
    destruct w, w'; cbn in *; eauto.
Qed.

Lemma bind_step_clear_ok rc w insert path l db b :
  all_binds_ok rc (length l) → Forall (λ x, is_Some (get_stmt x.1.1 db)) l → db_ db = Some path →
  get_stmt w (foldl bind_one db l) = Some b → db_ (foldl bind_one db l) = Some path →
  file_tables (foldl bind_one db l) path = file_tables db path →
  ∃ db', bind_step_clear rc w insert path l db = (1, db') ∧ db_ db' = Some path ∧
    file_tables db' path = insert b (file_tables db path).
Proof.
  intros [Hrc Hdone] Hl Hdb Hb Hdb' Hf. unfold bind_step_clear. rewrite bind_all_ok by done.
  change (SQLITE_OK =? SQLITE_OK) with true. cbv iota. rewrite Hb, Hdone.
  change (SQLITE_DONE =? SQLITE_DONE) with true. cbv iota.
  eexists. split; [done|]. rewrite Hf. unfold clear_stmt.
  destruct w; unfold file_tables; cbn; rewrite Hdb'; split; try done; by rewrite lookup_insert_eq.
Qed.

Ltac read_bindings :=
  repeat (rewrite lookup_insert_eq || (rewrite lookup_insert_ne by done) || rewrite lookup_empty).

Lemma store_sent_ok rc now seqnum len a b msg mt db path bs data text :
  all_binds_ok rc 8 → db_ db = Some path → insert_sent_msg_statement_ db = Some bs →
  cstr mt = Some text → read_at msg 0 len = Some data →
  ∃ db', store_sent_msg rc now seqnum len a b msg mt db = Some (1, db') ∧ db_ db' = Some path ∧
    file_tables db' path
    = mkTables (recv_messages (file_tables db path))
        (<[sint 64 seqnum := stored_row now len a b data text]> (sent_messages (file_tables db path))).
Proof.
  intros Hrc Hdb Hs Hmt Hd. unfold store_sent_msg. rewrite Hdb, Hmt. obind. rewrite Hd. obind.
  destruct db as [d p b1 b2 m1 m2 f]. cbn in Hdb, Hs. subst d b2.
  edestruct (bind_step_clear_ok rc SentStmt insert_sent path
    [ (SentStmt, 1, SqlInt (sint 64 seqnum)); (SentStmt, 2, SqlInt now.1);
      (SentStmt, 3, SqlInt now.2); (SentStmt, 4, SqlInt (sint 64 a));
      (SentStmt, 5, SqlInt (sint 64 b)); (SentStmt, 6, SqlText text);
      (SentStmt, 7, SqlInt (sint 64 len)); (SentStmt, 8, SqlBlob data) ])
    as (db' & -> & Hdb' & Hf); [done | repeat constructor; cbn; eauto | done | reflexivity | done | done |].
  exists db'. split_and!; [done..|]. rewrite Hf. unfold insert_sent, bound, stored_row. cbn [fst snd]. read_bindings. reflexivity.
Qed.

Lemma store_recv_ok rc now seqnum len msg db path bs data :
  all_binds_ok rc 4 → db_ db = Some path → insert_recv_msg_statement_ db = Some ∅ →
  insert_sent_msg_statement_ db = Some bs → read_at msg 0 len = Some data →
  ∃ db', store_recv_msg rc now seqnum len msg db = Some (1, db') ∧ db_ db' = Some path ∧
    file_tables db' path
    = mkTables (<[sint 64 seqnum := mkRecvRow SqlNull SqlNull (SqlBlob data)]>
                  (recv_messages (file_tables db path)))
               (sent_messages (file_tables db path)).
Proof.
  intros Hrc Hdb Hr Hs Hd. unfold store_recv_msg. rewrite Hdb, Hd. obind.
  destruct db as [d p b1 b2 m1 m2 f]. cbn in Hdb, Hs, Hr. subst d b2 b1.
  edestruct (bind_step_clear_ok rc RecvStmt insert_recv path
    [ (RecvStmt, 1, SqlInt (sint 64 seqnum)); (SentStmt, 2, SqlInt now.1);
      (SentStmt, 3, SqlInt now.2); (RecvStmt, 4, SqlBlob data) ])
    as (db' & -> & Hdb' & Hf); [done | repeat constructor; cbn; eauto | done | reflexivity | done | done |].
  exists db'. split_and!; [done..|]. rewrite Hf. unfold insert_recv, bound. cbn [fst snd]. read_bindings. reflexivity.
Qed.

(** ** Reading back *)

Lemma selected_spec start end_ t k r :
  (k, r) ∈ selected start end_ t ↔ t !! k = Some r ∧ start ≤ k ∧ (end_ = 0 ∨ k ≤ end_).
Proof.
  unfold selected. rewrite list_elem_of_omap. split.
  - intros (k' & Hin & Hk). rewrite merge_sort_Permutation in Hin.
    apply list_elem_of_filter in Hin as [Hr _]. destruct (t !! k') as [r'|] eqn:E; simplify_eq/=. done.
  - intros (Hk & Hr). exists k. split; [|by rewrite Hk]. rewrite merge_sort_Permutation.
    apply list_elem_of_filter. split; [done|]. apply list_elem_of_fmap. exists (k, r).
    split; [done|]. by apply elem_of_map_to_list.
Qed.

#[local] Instance Zle_total : Total Z.le.
Proof. intros x y. lia. Qed.

Lemma selected_keys start end_ t :
  fst <$> selected start end_ t
  = merge_sort Z.le (filter (λ k, start ≤ k ∧ (end_ = 0 ∨ k ≤ end_)) (fst <$> map_to_list t)).
Proof.
  unfold selected. assert (H : Forall (λ k, is_Some (t !! k))
    (merge_sort Z.le (filter (λ k, start ≤ k ∧ (end_ = 0 ∨ k ≤ end_)) (fst <$> map_to_list t)))).
  { rewrite merge_sort_Permutation. apply Forall_forall. intros k [_ Hk]%list_elem_of_filter.
    apply list_elem_of_fmap in Hk as ((k' & r) & -> & Hr). apply elem_of_map_to_list in Hr. eauto. }
  induction H as [|k l [r Hr] _ IH]; [done|]. cbn. rewrite Hr. cbn. by f_equal.
Qed.

(** The rows come out in the order of their sequence numbers. *)
Lemma selected_sorted start end_ t : StronglySorted Z.lt (fst <$> selected start end_ t).
Proof.
  rewrite selected_keys.
  assert (Hnd : NoDup (merge_sort Z.le
    (filter (λ k, start ≤ k ∧ (end_ = 0 ∨ k ≤ end_)) (fst <$> map_to_list t)))).
  { rewrite merge_sort_Permutation. apply NoDup_filter, NoDup_fst_map_to_list. }
  pose proof (StronglySorted_merge_sort Z.le
    (filter (λ k, start ≤ k ∧ (end_ = 0 ∨ k ≤ end_)) (fst <$> map_to_list t))) as Hs.
  revert Hs Hnd. generalize (merge_sort Z.le (filter (λ k, start ≤ k ∧ (end_ = 0 ∨ k ≤ end_)) (fst <$> map_to_list t))).
  intros l. induction 1 as [|k l _ IH Hk]; [constructor|].
  intros [Hk' Hnd]%NoDup_cons. constructor; [by apply IH|].
  rewrite Forall_forall in Hk |- *. intros x Hx. specialize (Hk x Hx).
  destruct (decide (k = x)) as [->|]; [done | lia].
Qed.

Lemma selected_single seq t r : t !! seq = Some r → seq ≠ 0 → selected seq seq t = [(seq, r)].
Proof.
  intros Ht H0. pose proof (selected_spec seq seq t) as Hin. pose proof (selected_sorted seq seq t) as Hs.
  destruct (selected seq seq t) as [|[k1 r1] [|[k2 r2] l]].
  - exfalso. specialize (Hin seq r). rewrite elem_of_nil in Hin. apply Hin. split; [done | lia].
  - destruct (proj1 (Hin k1 r1) ltac:(left)) as (H1 & H2 & H3).
    replace k1 with seq in * by lia. rewrite Ht in H1. by simplify_eq.
  - destruct (proj1 (Hin k1 r1) ltac:(left)) as (_ & H2 & H3).
    destruct (proj1 (Hin k2 r2) ltac:(right; left)) as (_ & H4 & H5).
    inversion Hs as [|? ? _ Hf]. apply Forall_cons in Hf as [Hlt _]. cbn in Hlt. lia.
Qed.

(** Busy answers only delay the loop. *)
Lemma fetch_busy malloc now new_ok steps : ∀ rows acc,
  fetch malloc now new_ok steps rows acc
  = fetch malloc now new_ok (filter (λ s, s ≠ SQLITE_BUSY) steps) rows acc.
Proof.
  induction steps as [|s steps IH]; intros rows acc; [done|].
  rewrite filter_cons. case_decide as Hs.
  - cbn [fetch]. destruct (s =? SQLITE_ROW).
    + destruct rows as [|[k r] rows]; [done|]. case_match; [|done].
      destruct (row_message _ _ _) as [[m|]|]; [|done..]. obind. apply IH.
    + by rewrite (proj2 (Z.eqb_neq s SQLITE_BUSY)).
  - assert (s = SQLITE_BUSY) as -> by (destruct (decide (s = SQLITE_BUSY)); tauto).
    cbn [fetch]. change (SQLITE_BUSY =? SQLITE_ROW) with false. change (SQLITE_BUSY =? SQLITE_BUSY) with true.
    apply IH.
Qed.

(** One answer per row and the final one, with any number of busy answers between. *)
Definition answers (rows : nat) (steps : list Z) : Prop :=
  filter (λ s, s ≠ SQLITE_BUSY) steps = replicate rows SQLITE_ROW ++ [SQLITE_DONE].

Lemma fetch_rows malloc now new_ok rows : ∀ acc msgs,
  (∀ n, new_ok n = true) →
  length msgs = length rows →
  (∀ i k r, rows !! i = Some (k, r) → ∃ m, msgs !! i = Some m ∧
     row_message malloc (now (length acc + i)%nat) r = Some (Some m)) →
  fetch malloc now new_ok (replicate (length rows) SQLITE_ROW ++ [SQLITE_DONE]) rows acc
  = Some (Some (acc ++ msgs)).
Proof.
  induction rows as [|[k r] rows IH]; intros acc msgs Hnew Hlen Hm.
  { destruct msgs; [|done]. cbn. by rewrite app_nil_r. }
  destruct msgs as [|m msgs]; [done|]. cbn [length replicate app fetch].
  change (SQLITE_ROW =? SQLITE_ROW) with true. cbv iota. rewrite Hnew.
  destruct (Hm 0%nat k r eq_refl) as (m' & [= <-] & Hr). rewrite Nat.add_0_r in Hr.
  rewrite Hr. obind. rewrite (IH (acc ++ [m]) msgs); [by rewrite <- app_assoc | done | by injection Hlen |].
  intros i k' r' Hi. destruct (Hm (S i) k' r' Hi) as (m'' & Hm' & Hr').
  exists m''. split; [done|]. rewrite length_app. cbn [length].
  by replace (length acc + 1 + i)%nat with (length acc + S i)%nat by lia.
Qed.

Lemma get_sent_msgs_rows malloc now new_ok steps start end_ db path msgs :
  db_ db = Some path → (∀ n, new_ok n = true) →
  let rows := selected start end_ (sent_messages (file_tables db path)) in
  answers (length rows) steps → length msgs = length rows →
  (∀ i k r, rows !! i = Some (k, r) → ∃ m, msgs !! i = Some m ∧
     row_message malloc (now i) r = Some (Some m)) →
  get_sent_msgs malloc now new_ok true SQLITE_OK steps start end_ db = Some (Some msgs).
Proof.
  intros Hdb Hnew rows Hs Hlen Hm. unfold get_sent_msgs. rewrite Hdb. cbn [negb].
  change (negb (SQLITE_OK =? SQLITE_OK)) with false. cbv iota.
  rewrite fetch_busy, Hs. exact (fetch_rows malloc now new_ok rows [] msgs Hnew Hlen Hm).
Qed.

(** A stored row as a message again. *)
Lemma row_message_stored malloc now ts exp data text :
  normal_time now → normal_time exp → 0 ≤ exp.1 < 2 ^ 63 → zlen data < 2 ^ 32 →
  (∃ block, malloc (zlen data + 5) = Some block ∧ zlen block = zlen data + 5) →
  ∃ m, row_message malloc now (stored_row ts (zlen data) exp.1 exp.2 data text) = Some (Some m) ∧
    if usecs exp <=? usecs now then m = mkPartial 0 [] [] (0, 0)
    else pm_length m = zlen data ∧ pm_msg_type m = text ++ [0]
         ∧ (∃ spare, pm_part_msg m = data ++ spare ∧ length spare = 5%nat)
         ∧ usecs (pm_ttl m) = usecs exp - usecs now ∧ normal_time (pm_ttl m).
Proof.
  intros Hnow Hexp He Hlen (block & Hma & Hbl). unfold row_message. cbn [sr_ttl_seconds sr_ttl_useconds
    sr_msg_type sr_length sr_msg stored_row column_int64].
  unfold normal_time in Hexp. rewrite (sint_small 64 exp.1), (sint_small 64 exp.2) by lia.
  rewrite <- surjective_pairing.
  destruct (is_ttl_expired_spec now exp Hnow Hexp) as (r & -> & Hr & Hnr).
  destruct (Z.leb_spec (usecs exp) (usecs now)) as [Hle|Hlt].
  { eexists. split; [done|]. f_equal. destruct r as [a b]. unfold usecs, normal_time in *. cbn in *. f_equal; lia. }
  rewrite (sint_small 64) by lia. unfold u32. rewrite Z.mod_small by lia.
  rewrite Hma. obind.
  assert (Hrd : read_at data 0 (zlen data) = Some data).
  { rewrite <- (app_nil_r data) at 1. by apply read_at_prefix. }
  rewrite Hrd. obind.
  assert (Hw : write_at block 0 data = Some (data ++ drop (length data) block)).
  { rewrite <- (take_drop (length data) block) at 1. apply write_at_head. rewrite length_take. lia. }
  rewrite Hw. obind.
  eexists. split; [done|]. cbn [pm_length pm_msg_type pm_part_msg pm_ttl]. split_and!; try done; [|lia].
  eexists. split; [done|]. rewrite length_drop. lia.
Qed.

(** ** Properties *)

(** a message pushed at [t0] with time to live [ttl] is expired at [now]
    exactly when at least [ttl] has passed since [t0]; until then the remaining
    time is exactly what is left, as a normalised [timeval]. *)
Theorem ttl_counts_from_push now t0 ttl :
  normal_time now → normal_time t0 → normal_time ttl →
  ∃ remaining, is_ttl_expired now (expire_time t0 ttl)
    = (usecs ttl <=? usecs now - usecs t0, remaining)
    ∧ usecs remaining = Z.max 0 (usecs ttl - (usecs now - usecs t0)) ∧ normal_time remaining.
Proof.
  intros Hn H0 Ht. destruct (expire_time_usecs t0 ttl H0 Ht) as [He Hen].
  destruct (is_ttl_expired_spec now (expire_time t0 ttl) Hn Hen) as (r & -> & Hr & Hnr).
  exists r. rewrite He in *. split_and!; [|lia | done].
  f_equal. apply Bool.eq_iff_eq_true. rewrite !Z.leb_le. lia.
Qed.

(** C27: a sent message is found again: once [store_sent_msg] has stored a
    message of [len] bytes under a number, with the expiry time [push] gave it,
    [get_sent_msgs] for that number returns exactly one message.  Before the
    time to live is over it has the stored bytes (in a block with room for five
    more), length and type and what is left of the time to live; afterwards it
    is the blank message that stands for a gap. *)
Theorem stored_message_returned rc malloc now1 now2 new_ok steps t0 ttl seqnum msg mt text data db path bs :
  all_binds_ok rc 8 → db_ db = Some path → insert_sent_msg_statement_ db = Some bs →
  0 < seqnum < 2 ^ 63 → cstr mt = Some text → read_at msg 0 (zlen data) = Some data → zlen data < 2 ^ 32 →
  normal_time t0 → normal_time ttl → normal_time (now2 0%nat) →
  0 ≤ t0.1 → 0 ≤ ttl.1 → t0.1 + ttl.1 < 2 ^ 62 →
  (∀ n, 0 ≤ n → ∃ block, malloc n = Some block ∧ zlen block = n) → (∀ n, new_ok n = true) → answers 1 steps →
  let exp := expire_time t0 ttl in
  ∃ db' m,
    store_sent_msg rc now1 seqnum (zlen data) exp.1 exp.2 msg mt db = Some (1, db') ∧
    get_sent_msgs malloc now2 new_ok true SQLITE_OK steps seqnum seqnum db' = Some (Some [m]) ∧
    let left := usecs ttl - (usecs (now2 0%nat) - usecs t0) in
    if left <=? 0 then m = mkPartial 0 [] [] (0, 0)
    else pm_length m = zlen data ∧ pm_msg_type m = text ++ [0]
         ∧ (∃ spare, pm_part_msg m = data ++ spare ∧ length spare = 5%nat)
         ∧ usecs (pm_ttl m) = left.
Proof.
  intros Hrc Hdb Hs Hseq Hmt Hd Hlen Ht0 Httl Hnow H0 H1 H2 Hma Hnew Hst exp.
  destruct (expire_time_usecs t0 ttl Ht0 Httl) as [He Hen].
  destruct (store_sent_ok rc now1 seqnum (zlen data) exp.1 exp.2 msg mt db path bs data text
    Hrc Hdb Hs Hmt Hd) as (db' & Hstore & Hdb' & Htab).
  assert (He1 : 0 ≤ exp.1 < 2 ^ 63).
  { unfold exp, expire_time. cbv zeta. destruct (1000000 <=? t0.2 + ttl.2); cbn [fst]; lia. }
  destruct (row_message_stored malloc (now2 0%nat) now1 exp data text Hnow Hen He1 Hlen) as (m & Hm & Hshape).
  { destruct (Hma (zlen data + 5) ltac:(lia)) as (block & ? & ?). eauto. }
  exists db', m. split; [exact Hstore|]. split.
  - rewrite sint_small in Htab by lia.
    pose proof (selected_single seqnum (sent_messages (file_tables db' path)) _
      ltac:(rewrite Htab; apply lookup_insert_eq) ltac:(lia)) as Hsel.
    apply (get_sent_msgs_rows malloc now2 new_ok steps seqnum seqnum db' path [m] Hdb' Hnew);
      rewrite Hsel; [exact Hst | done |].
    intros [|i] k r; [|done]. intros [= <- <-]. exists m. split; [done | exact Hm].
  - cbv zeta. unfold exp in *. rewrite He in Hshape.
    destruct (Z.leb_spec (usecs ttl - (usecs (now2 0%nat) - usecs t0)) 0).
    + rewrite (proj2 (Z.leb_le _ _)) in Hshape by lia. done.
    + rewrite (proj2 (Z.leb_gt _ _)) in Hshape by lia. destruct Hshape as (? & ? & ? & ? & _).
      split_and!; try done. lia.
Qed.

(** [get_sent_msgs] returns the messages of a range, both ends included
    and open ended for 0: one list element per stored row of the range, in the
    order of the sequence numbers, whatever the database busies itself with in
    between.  A number without a row leaves no element behind. *)
Theorem get_sent_msgs_exact malloc now new_ok steps start end_ db path :
  db_ db = Some path → (∀ n, new_ok n = true) →
  (∀ k r n, sent_messages (file_tables db path) !! k = Some r →
     ∃ m, row_message malloc (now n) r = Some (Some m)) →
  answers (length (selected start end_ (sent_messages (file_tables db path)))) steps →
  ∃ rows msgs,
    get_sent_msgs malloc now new_ok true SQLITE_OK steps start end_ db = Some (Some msgs)
    ∧ StronglySorted Z.lt (fst <$> rows)
    ∧ (∀ k r, (k, r) ∈ rows ↔
         sent_messages (file_tables db path) !! k = Some r ∧ start ≤ k ∧ (end_ = 0 ∨ k ≤ end_))
    ∧ Forall2 (λ x m, ∃ n, row_message malloc (now n) x.2 = Some (Some m)) rows msgs.
Proof.
  intros Hdb Hnew Hrow Hst.
  set (rows := selected start end_ (sent_messages (file_tables db path))) in *.
  set (msgs := imap (λ i x, default (mkPartial 0 [] [] (0, 0))
    (default None (row_message malloc (now i) x.2))) rows).
  assert (Hm : ∀ i k r, rows !! i = Some (k, r) → ∃ m, msgs !! i = Some m ∧
    row_message malloc (now i) r = Some (Some m)).
  { intros i k r Hi. unfold msgs. rewrite list_lookup_imap, Hi. cbn [fmap option_fmap option_map snd].
    pose proof (list_elem_of_lookup_2 _ _ _ Hi) as (Hk & _)%selected_spec.
    destruct (Hrow k r i Hk) as [m Hr]. exists m. cbn [snd]. rewrite Hr. done. }
  exists rows, msgs. split_and!.
  - apply (get_sent_msgs_rows malloc now new_ok steps start end_ db path); try done.
    unfold msgs. by rewrite length_imap.
  - apply selected_sorted.
  - intros. apply selected_spec.
  - apply Forall2_lookup. intros i. destruct (rows !! i) as [[k r]|] eqn:Hi.
    + destruct (Hm i k r Hi) as (m & -> & Hr). constructor. eauto.
    + unfold msgs. rewrite list_lookup_imap, Hi. constructor.
Qed.

(** every operation keeps the handle and the prepared statements
    consistent: the four statements are prepared together or not at all, and
    none is while the database is closed. *)
Theorem msgdb_handles_consistent db :
  db_wf db →
  (∀ ok path, db_wf (set_db_path ok path db).2)
  ∧ (∀ rc, db_wf (close rc db).2)
  ∧ (∀ rc handle crc r db', open rc handle crc db = Some (r, db') → db_wf db')
  ∧ (∀ rc now seqnum len a b msg mt r db',
       store_sent_msg rc now seqnum len a b msg mt db = Some (r, db') → db_wf db')
  ∧ (∀ rc now seqnum len msg r db', store_recv_msg rc now seqnum len msg db = Some (r, db') → db_wf db').
Proof.
  intros Hwf. split_and!.
  - intros ok path. exact Hwf.
  - intros rc. destruct (close rc db) as [r db'] eqn:E. by apply (close_wf rc db r).
  - intros. by eapply open_wf.
  - intros. eapply same_handles_wf; [|exact Hwf]. eapply store_handles. by left.
  - intros rc now seqnum len msg r db' H. eapply same_handles_wf; [|exact Hwf].
    apply (store_handles rc now seqnum len 0 0 msg [] db r). by right.
Qed.

(** a closed database does nothing: the store functions and
    [get_latest_recv_seqnum] report failure, and [get_sent_msgs] returns the
    null pointer. *)
Theorem closed_database_fails malloc now1 now new_ok list_ok prepare steps start end_ rc ret
    seqnum len a b msg mt db :
  db_ db = None → db_wf db →
  store_sent_msg rc now1 seqnum len a b msg mt db = Some (0, db)
  ∧ store_recv_msg rc now1 seqnum len msg db = Some (0, db)
  ∧ get_latest_recv_seqnum ret seqnum db = (0, seqnum)
  ∧ get_latest_sent_seqnum ret seqnum db = (0, seqnum)
  ∧ get_sent_msgs malloc now new_ok list_ok prepare steps start end_ db = Some None.
Proof.
  intros Hdb (_ & _ & _ & Hp). unfold store_sent_msg, store_recv_msg, get_latest_recv_seqnum,
    get_latest_sent_seqnum, get_sent_msgs, latest. rewrite Hdb. split_and!; try done.
  destruct (max_sent_seqnum_statement_ db); [|done]. destruct (Hp eq_refl) as [? ?]. congruence.
Qed.

(** three defects.  A received message is stored without its time
    stamps, which are bound to the other statement; the first element of an
    empty list is undefined instead of null; after a [close] given up on a busy
    database [open] reports success while nothing can be stored. *)
Theorem msgdb_defects rc now seqnum data db path bs crc orc handle src len a b msg mt :
  all_binds_ok rc 4 → db_ db = Some path → insert_recv_msg_statement_ db = Some ∅ →
  insert_sent_msg_statement_ db = Some bs → is_Some (cstr mt) → is_Some (read_at msg 0 len) →
  (∀ n, crc n = SQLITE_BUSY) →
  (∃ db', store_recv_msg rc now seqnum (zlen data) data db = Some (1, db') ∧
     recv_messages (file_tables db' path) !! sint 64 seqnum
     = Some (mkRecvRow SqlNull SqlNull (SqlBlob data)))
  ∧ get_at_list [] 0 = None
  ∧ (let db1 := (close crc db).2 in
     (close crc db).1 = 0 ∧ open orc handle crc db1 = Some (1, db1)
     ∧ store_sent_msg src now seqnum len a b msg mt db1 = Some (0, db1)).
Proof.
  intros Hrc Hdb Hr Hs [text Hmt] [blob Hmsg] Hbusy. split_and!.
  - assert (Hd : read_at data 0 (zlen data) = Some data).
    { rewrite <- (app_nil_r data) at 1. by apply read_at_prefix. }
    destruct (store_recv_ok rc now seqnum (zlen data) data db path bs data Hrc Hdb Hr Hs Hd)
      as (db' & Hst & _ & Htab). exists db'. split; [exact Hst|]. rewrite Htab. apply lookup_insert_eq.
  - reflexivity.
  - assert (Hc : close crc db = (0, mkDB (Some path) (db_path_ db) None None false false (files db))).
    { rewrite (close_some crc db path Hdb). cbn [close_loop]. rewrite !Hbusy. reflexivity. }
    rewrite Hc. cbn [fst snd]. split_and!; [reflexivity | reflexivity |].
    unfold store_sent_msg. cbn [db_]. rewrite Hmt. obind. rewrite Hmsg. obind. reflexivity.
Qed.

(** ** Concrete instances *)

Definition demo_codes (n : nat) : Z := if (n =? 8)%nat then SQLITE_DONE else SQLITE_OK.
Definition demo_path : list Z := bytes_of_string "/var/fix.db".
Definition demo_db : MsgDB :=
  default (make_db ∅) (snd <$> open (λ _, SQLITE_OK) true (λ _, SQLITE_OK) (set_db_path true demo_path (make_db ∅)).2).
Definition demo_partial : list Z := [1] ++ bytes_of_string "52=X" ++ [1] ++ bytes_of_string "10=".
Definition demo_malloc (n : Z) : option (list Z) := Some (replicate (Z.to_nat n) 0).

Lemma ttl_counts_from_push_witness : ∃ remaining,
  is_ttl_expired (105, 200000) (expire_time (100, 900000) (10, 500000)) = (false, remaining)
  ∧ usecs remaining = 6200000 ∧ normal_time remaining.
Proof. apply (ttl_counts_from_push (105, 200000) (100, 900000) (10, 500000)); split; cbn; lia. Defined.

Lemma stored_message_returned_witness : ∃ db' m,
  store_sent_msg demo_codes (100, 0) 7 9 110 0 demo_partial [68; 0] demo_db = Some (1, db') ∧
  get_sent_msgs demo_malloc (λ _, (103, 0)) (λ _, true) true SQLITE_OK [SQLITE_BUSY; SQLITE_ROW; SQLITE_DONE] 7 7 db'
  = Some (Some [m]) ∧
  pm_length m = 9 ∧ pm_msg_type m = [68; 0]
  ∧ (∃ spare, pm_part_msg m = demo_partial ++ spare ∧ length spare = 5%nat) ∧ usecs (pm_ttl m) = 7000000.
Proof.
  apply (stored_message_returned demo_codes demo_malloc (100, 0) (λ _, (103, 0)) (λ _, true)
    [SQLITE_BUSY; SQLITE_ROW; SQLITE_DONE] (100, 0) (10, 0) 7 demo_partial [68; 0] [68] demo_partial demo_db
    demo_path ∅); try (vm_compute; split; congruence) || reflexivity || (cbn; lia) || (unfold normal_time; cbn; lia).
  - split; [|reflexivity]. intros i Hi. do 8 (destruct i as [|i]; [reflexivity|]). lia.
  - intros n Hn. eexists. split; [reflexivity|]. rewrite length_replicate. lia.
Defined.

(** The demo database after two stores. *)
Definition demo_store (seqnum : Z) (db : MsgDB) : MsgDB :=
  default db (snd <$> store_sent_msg demo_codes (100, 0) seqnum 9 110 0 demo_partial [68; 0] db).
Definition demo_two : MsgDB := demo_store 3 (demo_store 9 demo_db).

Lemma get_sent_msgs_exact_witness : ∃ rows msgs,
  get_sent_msgs demo_malloc (λ _, (103, 0)) (λ _, true) true SQLITE_OK
    [SQLITE_ROW; SQLITE_BUSY; SQLITE_ROW; SQLITE_DONE] 2 0 demo_two = Some (Some msgs)
  ∧ StronglySorted Z.lt (fst <$> rows)
  ∧ (∀ k r, (k, r) ∈ rows ↔
       sent_messages (file_tables demo_two demo_path) !! k = Some r ∧ 2 ≤ k ∧ (0 = 0 ∨ k ≤ 0))
  ∧ Forall2 (λ x m, ∃ n : nat, row_message demo_malloc ((λ _, (103, 0)) n) x.2 = Some (Some m)) rows msgs.
Proof.
  apply (get_sent_msgs_exact demo_malloc (λ _, (103, 0)) (λ _, true)
    [SQLITE_ROW; SQLITE_BUSY; SQLITE_ROW; SQLITE_DONE] 2 0 demo_two demo_path).
  - reflexivity.
  - reflexivity.
  - intros k r n Hk. apply elem_of_map_to_list in Hk.
    assert (H : forallb (λ x : Z * sent_row,
      match row_message demo_malloc (103, 0) x.2 with Some (Some _) => true | _ => false end)
      (map_to_list (sent_messages (file_tables demo_two demo_path))) = true) by (vm_compute; reflexivity).
    rewrite forallb_forall in H. specialize (H _ (proj1 (list_elem_of_In _ _) Hk)). cbn [snd] in H.
    destruct (row_message demo_malloc (103, 0) r) as [[m|]|]; [eauto | done | done].
  - vm_compute. reflexivity.
Defined.

Lemma msgdb_handles_consistent_witness : db_wf (close (λ _, SQLITE_BUSY) demo_db).2.
Proof.
  refine (proj1 (proj2 (msgdb_handles_consistent demo_db _)) _). apply db_wf_all. eexists. reflexivity.
Defined.

Lemma closed_database_fails_witness :
  store_sent_msg demo_codes (100, 0) 1 9 110 0 demo_partial [68; 0] (make_db ∅) = Some (0, make_db ∅)
  ∧ store_recv_msg demo_codes (100, 0) 1 9 demo_partial (make_db ∅) = Some (0, make_db ∅)
  ∧ get_latest_recv_seqnum SQLITE_ROW 1 (make_db ∅) = (0, 1)
  ∧ get_latest_sent_seqnum SQLITE_ROW 1 (make_db ∅) = (0, 1)
  ∧ get_sent_msgs demo_malloc (λ _, (103, 0)) (λ _, true) true SQLITE_OK [SQLITE_DONE] 1 5 (make_db ∅) = Some None.
Proof.
  apply (closed_database_fails demo_malloc (100, 0) (λ _, (103, 0)) (λ _, true) true SQLITE_OK [SQLITE_DONE]
    1 5 demo_codes SQLITE_ROW 1 9 110 0 demo_partial [68; 0] (make_db ∅)); [reflexivity | apply db_wf_none].
Defined.

Lemma msgdb_defects_witness :
  let rc := λ n : nat, if (n =? 4)%nat then SQLITE_DONE else SQLITE_OK in
  (∃ db', store_recv_msg rc (100, 0) 7 (zlen demo_partial) demo_partial demo_db = Some (1, db') ∧
     recv_messages (file_tables db' demo_path) !! sint 64 7
     = Some (mkRecvRow SqlNull SqlNull (SqlBlob demo_partial)))
  ∧ get_at_list [] 0 = None
  ∧ (let db1 := (close (λ _, SQLITE_BUSY) demo_db).2 in
     (close (λ _, SQLITE_BUSY) demo_db).1 = 0 ∧ open (λ _, SQLITE_OK) true (λ _, SQLITE_OK) db1 = Some (1, db1)
     ∧ store_sent_msg demo_codes (100, 0) 7 9 110 0 demo_partial [68; 0] db1 = Some (0, db1)).
Proof.
  apply (msgdb_defects (λ n : nat, if (n =? 4)%nat then SQLITE_DONE else SQLITE_OK) (100, 0) 7 demo_partial
    demo_db demo_path ∅ (λ _, SQLITE_BUSY) (λ _, SQLITE_OK) true demo_codes 9 110 0 demo_partial [68; 0]);
    try reflexivity; try (vm_compute; eexists; reflexivity).
  split; [|reflexivity]. intros i Hi. do 4 (destruct i as [|i]; [reflexivity|]). lia.
Defined.
