(* ===== verification/PusherControl.v ===== *)
(** * The pusher around its queues: start, stop, the pause protocol and resend
    ([src/applib/fixio/fix_pusher.cpp])

    The life cycle is the protocol of the flags [pause_thread_], [db_is_open_]
    and [started_] between the one thread that calls [start] and [stop] and the
    pusher thread.  [resend] is a sequential function of the object, the
    database and the answers of the C library. *)
From S2P Require Import Prelude Primitives FixMsgUtils FixTypes FixMessageTX Pusher PusherThread MsgDB.

(** ** The life cycle *)

(** The caller: between calls, in [start] or [stop] waiting for the database
    flag. *)
Inductive client_pc : Set := Idle | StartWait | StopWait.

(** The pusher thread: at the test of [pause_thread]; before [db->close()];
    about to clear the flag; spinning; about to open the database; about to set
    the flag; pushing; after a failed write, before and after its last
    [close()] and the flag; ended. *)
Inductive thread_pc : Set :=
  | TCheck | TClosing | TClosed | TSpin | TOpening | TOpened | TPush | TFailed | TFailedClosed | TDead.

#[global] Instance client_pc_eq_dec : EqDecision client_pc.
Proof. solve_decision. Defined.
#[global] Instance thread_pc_eq_dec : EqDecision thread_pc.
Proof. solve_decision. Defined.

(** [open_] is the state of the database itself. *)
Record pusher := mkPusher {
  pause_thread_ : bool; db_is_open_ : bool; started_ : bool; open_ : bool;
  client : client_pc; thread : thread_pc }.

(** After [init]: the database has been opened for the sequence number and the
    thread has been created. *)
Definition pusher_init : pusher := mkPusher true true false true Idle TCheck.

(** What happens next: a call (with valid settings when the pusher is
    stopped), a step of the caller, of the thread, a [close()] of the thread that
    fails, or a push function that returns an error. *)
Inductive pusher_action : Set :=
  | DoStart | DoStop | ClientStep | ThreadStep | CloseFails | WriteFails.

#[global] Instance pusher_action_eq_dec : EqDecision pusher_action.
Proof. solve_decision. Defined.

Definition pusher_step (a : pusher_action) (p : pusher) : option pusher :=
  let '(mkPusher pause flag started db c t) := p in
  match a with
  | DoStart =>
      match c with
      | Idle => Some (if started then p else mkPusher false flag started db StartWait t)
      | _ => None
      end
  | DoStop =>
      match c with
      | Idle => Some (if started then mkPusher true flag started db StopWait t else p)
      | _ => None
      end
  | ClientStep =>
      match c with
      | Idle => None
      | StartWait => Some (if flag then mkPusher pause flag true db Idle t else p)
      | StopWait => Some (if flag then p else mkPusher pause flag false db Idle t)
      end
  | ThreadStep =>
      match t with
      | TCheck => Some (mkPusher pause flag started db c (if pause then TClosing else TPush))
      | TClosing => Some (mkPusher pause flag started false c TClosed)
      | TClosed => Some (mkPusher pause false started db c TSpin)
      | TSpin => Some (if pause then p else mkPusher pause flag started db c TOpening)
      | TOpening => Some (mkPusher pause flag started true c TOpened)
      | TOpened => Some (mkPusher pause true started db c TPush)
      | TPush => Some (mkPusher pause flag started db c TCheck)
      | TFailed => Some (mkPusher pause flag started false c TFailedClosed)
      | TFailedClosed => Some (mkPusher pause false started db c TDead)
      | TDead => None
      end
  | CloseFails =>
      match t with TClosing => Some (mkPusher pause flag started db c TCheck) | _ => None end
  | WriteFails =>
      match t with TPush => Some (mkPusher pause flag started db c TFailed) | _ => None end
  end.

Inductive pusher_life : pusher → pusher → Prop :=
  | pusher_life_step a p p' : pusher_step a p = Some p' → pusher_life p p'.

(** ** Settings of [start] *)

Definition FIX_START_SIZE : Z := 32.

(** The members [start] looks at besides the flags: [FIX_start_bytes_],
    [FIX_start_bytes_length_], [fix_ver_], [sink_fd_], the path given to the
    database, and the file descriptors it has closed. *)
Record settings := mkSettings {
  FIX_start_bytes_ : list Z; FIX_start_bytes_length_ : Z; fix_ver_ : FIX_Version;
  sink_fd_ : Z; db_path : option (list Z); closed_fds : list Z }.

(** The constructor. *)
Definition make_settings : settings :=
  mkSettings (replicate (Z.to_nat FIX_START_SIZE) 0) 0 CUSTOM (-1) None [].

(** [snprintf(dst, size, "8=%s%c9=", ver, soh)] into an array of [size] bytes:
    at most [size - 1] characters and the terminator. *)
Definition snprintf_start (dst : list Z) (size : Z) (ver : list Z) (soh : Z) : option (list Z) :=
  let text := bytes_of_string "8=" ++ ver ++ [soh] ++ bytes_of_string "9=" in
  write_at dst 0 (take (Z.to_nat (size - 1)) text ++ [0]).

Definition all_versions : list FIX_Version :=
  [CUSTOM; FIX_4_0; FIX_4_1; FIX_4_2; FIX_4_3; FIX_4_4; FIX_5_0; FIX_5_0_SP1; FIX_5_0_SP2; FIXT_1_1].

(** The loop over [fix_version_string]. *)
Definition version_of (ver : list Z) : FIX_Version :=
  default CUSTOM (find (λ v, bool_decide (fix_version_string v = ver)) all_versions).

(** [start] up to the flags: [None] is undefined behaviour, the boolean tells
    whether it goes on to release the thread.  [strdup_ok] is the answer of the
    allocator in [set_db_path]. *)
Definition start_settings (soh : Z) (strdup_ok : bool) (local_cache FIX_ver : option (list Z)) (sink_fd : Z)
    (s : settings) : option (bool * settings) :=
  r ← match FIX_ver with
      | None => Some (Some s)
      | Some ver =>
          if FIX_START_SIZE <=? zlen ver then Some None
          else
            b ← snprintf_start (FIX_start_bytes_ s) FIX_START_SIZE ver soh;
            str ← cstr b;
            Some (Some (mkSettings b (zlen str) (version_of ver) (sink_fd_ s) (db_path s) (closed_fds s)))
      end;
  match r with
  | None => Some (false, s)
  | Some s =>
      c ← get_at (FIX_start_bytes_ s) 0;
      if c =? 0 then Some (false, s)
      else
        let s :=
          if 0 <=? sink_fd then
            mkSettings (FIX_start_bytes_ s) (FIX_start_bytes_length_ s) (fix_ver_ s) sink_fd (db_path s)
              (if 0 <=? sink_fd_ s then closed_fds s ++ [sink_fd_ s] else closed_fds s)
          else s in
        if sink_fd_ s <? 0 then Some (false, s)
        else
          match local_cache with
          | None => Some (true, s)
          | Some path =>
              let s := mkSettings (FIX_start_bytes_ s) (FIX_start_bytes_length_ s) (fix_ver_ s) (sink_fd_ s)
                         (if strdup_ok then Some path else None) (closed_fds s) in
              Some (strdup_ok, s)
          end
  end.

(** The early return of a started pusher. *)
Definition start_when_started (local_cache FIX_ver : option (list Z)) (sink_fd : Z) : Z :=
  match local_cache, FIX_ver with
  | None, None => if 0 <=? sink_fd then 0 else 1
  | _, _ => 0
  end.

(** ** Times in messages *)

Section Resend.
Context (soh : Z).
(** [strftime] of [gmtime] with ["%Y%m%d-%H:%M:%S"]. *)
Context (utc_time : Z → list Z).

Definition without_millis (v : FIX_Version) : bool :=
  match v with FIX_4_0 | FIX_4_1 => true | _ => false end.

(** What both functions write, without terminator; [%03d] prints at least
    three digits. *)
Definition sendingtime_text (v : FIX_Version) (now : timeval) : list Z :=
  if without_millis v then utc_time now.1
  else utc_time now.1 ++ [46] ++
       (let ms := Z.quot now.2 1000 in if ms <? 1000 then padded 3 ms else dec ms).

(** [get_sendingtime] into an array of 24 bytes. *)
Definition get_sendingtime (v : FIX_Version) (now : timeval) : option (list Z) :=
  write_at (replicate 24 0) 0 (sendingtime_text v now ++ [0]).

(** [strnstr], the place of the match. *)
Fixpoint find_prefix (p l : list Z) (i : Z) : option Z :=
  if prefixb p l then Some i
  else match l with [] => None | _ :: l => find_prefix p l (i + 1) end.

Definition strnstr_at (big little : list Z) (len : Z) : option Z :=
  find_prefix little (until_nul (take (Z.to_nat len) big)) 0.

(** [strncpy(dst, src, n); dst[n] = 0] into a fresh array: the characters up to
    a NUL. *)
Definition strncpy_z (src : list Z) (pos n : Z) : option (list Z) :=
  s ← read_at src pos n; Some (until_nul s).

(** [update_sendingtime]: the changed message and [orig_sendingtime]. *)
Definition update_sendingtime (v : FIX_Version) (now : timeval) (pmsg : PartialMessage)
    : option (PartialMessage * list Z) :=
  let tag := [soh; 53; 50; 61] in
  pos ← strnstr_at (pm_part_msg pmsg) tag (pm_length pmsg);
  let pos := pos + zlen tag in
  orig ← strncpy_z (pm_part_msg pmsg) pos (if without_millis v then 17 else 21);
  b ← write_at (pm_part_msg pmsg) pos (utc_time now.1 ++ (if without_millis v then [] else [46]) ++ [0]);
  b ← (if without_millis v then Some b
       else write_at b (pos + 18)
              ((let ms := Z.quot now.2 1000 in if ms <? 1000 then padded 3 ms else dec ms) ++ [0]));
  b ← write_at b (pos + (if without_millis v then 17 else 21)) [soh];
  Some (mkPartial (pm_length pmsg) (pm_msg_type pmsg) b (pm_ttl pmsg), orig).

(** ** [resend] *)

Context (CACHE_LINE_SIZE : Z) (tx_malloc : nat → Z → option (list Z))
        (tx_realloc : nat → Z → option (bool * list Z)).
Context (IOV_MAX : Z) (args : pusher_thread_args_t) (malloc : Z → option (list Z)).
(** The clock at every reading, the romeo entry of each message. *)
Context (clock : nat → timeval) (romeo : nat → bravo_t) (error : Z).

(** What the loop carries: the message being built, [seqnum], and what the
    sink and the database have been given. *)
Record resending := mkResending {
  r_tx : FIXMessageTX; r_seqnum : Z; r_kernel : list wret; r_out : list Z; r_sent : list sent_record }.

Definition app_field (tag : Z) (value : list Z) (tx : FIXMessageTX) : option FIXMessageTX :=
  '(_, tx) ← append_field CACHE_LINE_SIZE tx_malloc tx_realloc tag value tx; Some tx.

(** The first half of the loop body: the message for [pmsg], or [goto out].
    [get_at] returns no null here. *)
Definition resend_build (v : FIX_Version) (now : timeval) (seqnum : Z) (pmsg : PartialMessage)
    (tx : FIXMessageTX) : option (option FIXMessageTX) :=
  if pm_length pmsg =? 0 then
    '(r, tx) ← clone_from CACHE_LINE_SIZE tx_malloc tx_realloc (Some pmsg) tx;
    if r =? 0 then Some None
    else
      tx ← app_field 35 (bytes_of_string "4") tx;
      tx ← app_field 123 (bytes_of_string "Y") tx;
      tx ← app_field 36 (dec (u64 (seqnum + 1))) tx;
      tmp ← get_sendingtime v now;
      tmp ← cstr tmp;
      tx ← app_field 52 tmp tx;
      Some (Some tx)
  else
    '(pmsg, tmp) ← update_sendingtime v now pmsg;
    '(r, tx) ← clone_from CACHE_LINE_SIZE tx_malloc tx_realloc (Some pmsg) tx;
    if r =? 0 then Some None
    else tx ← app_field 122 tmp tx; Some (Some tx).

(** One round; the inner [None] is [goto out], the outer one also a [writev]
    that has not returned.  The result of [expose] is
    ignored: without a message its outputs are indeterminate. *)
Definition resend_one (v : FIX_Version) (n : nat) (pmsg : PartialMessage) (vdata : list iovec)
    (s : resending) : option (option resending) :=
  r ← resend_build v (clock (2 * n)) (r_seqnum s) pmsg (r_tx s);
  match r with
  | None => Some None
  | Some tx =>
      '(ex, tx) ← expose tx;
      ex ← ex;
      data ← read_at (ex_data ex) 0 (ex_len ex);
      '(r, eff) ← push_to_romeo malloc (clock (2 * n + 1)) error (romeo n) (ex_ttl ex) data (ex_msg_type ex);
      if negb (r =? 0) then Some None
      else
        match eff with
        | PushBravo e =>
            '(r, b) ← push_romeo IOV_MAX args [e] (r_seqnum s) (r_kernel s) vdata;
            match r with
            | Some 0 =>
                Some (Some (mkResending tx (u64 (b_seq b + 1)) (b_kernel b) (r_out s ++ b_out b)
                                        (r_sent s ++ b_sent b)))
            | Some _ => Some None
            | None => None
            end
        | _ => None
        end
  end.

(** The [for] loop: the return value and the state. *)
Fixpoint resend_loop (v : FIX_Version) (n : nat) (l : list PartialMessage) (vdata : list iovec)
    (s : resending) : option (Z * resending) :=
  match l with
  | [] => Some (0, s)
  | pmsg :: l =>
      r ← resend_one v n pmsg vdata s;
      match r with
      | None => Some (1, s)
      | Some s => resend_loop v (S n) l vdata s
      end
  end.

(** [stop] and the pusher thread's answer to it, as [pusher_step] has them: a
    started pusher's database is closed when [stop] returns. *)
Definition stop_effect (started : bool) (close_rc : nat → Z) (db : MsgDB) : MsgDB :=
  if started then (close close_rc db).2 else db.

(** [resend]: [vdata] is the allocated vector, if any; the list is
    dereferenced without a test.  The sequence number of the object is put back
    at the end, so it does not change. *)
Definition resend (started : bool) (v : FIX_Version) (start end_ : Z) (vdata : option (list iovec))
    (kernel : list wret) (close_rc : nat → Z) (list_ok : bool) (prepare : Z) (steps : list Z)
    (db_now : nat → timeval) (new_ok : nat → bool) (db : MsgDB) : option (Z * list Z) :=
  match vdata with
  | None => Some (1, [])
  | Some vdata =>
      '(r, tx) ← init tx_malloc (make_tx CACHE_LINE_SIZE soh);
      if r =? 0 then Some (1, [])
      else
        let db := stop_effect started close_rc db in
        l ← get_sent_msgs malloc db_now new_ok list_ok prepare steps start end_ db;
        l ← l;
        '(r, s) ← resend_loop v 0 l vdata (mkResending tx (u64 (start - 1)) kernel [] []);
        Some (r, r_out s)
  end.

End Resend.

(** ** Every state at once *)

Definition all_pusher_actions : list pusher_action :=
  [DoStart; DoStop; ClientStep; ThreadStep; CloseFails; WriteFails].
Definition all_clients : list client_pc := [Idle; StartWait; StopWait].
Definition all_threads : list thread_pc :=
  [TCheck; TClosing; TClosed; TSpin; TOpening; TOpened; TPush; TFailed; TFailedClosed; TDead].

Definition every_pusher_step (test : pusher → pusher → bool) : bool :=
  for_all all_pusher_actions (λ a, for_all all_clients (λ c, for_all all_threads (λ t,
  for_all [true; false] (λ b1, for_all [true; false] (λ b2, for_all [true; false] (λ b3,
  for_all [true; false] (λ b4,
    let p := mkPusher b1 b2 b3 b4 c t in
    match pusher_step a p with Some p' => test p p' | None => true end))))))).

Lemma every_pusher_step_spec test a p p' :
  every_pusher_step test = true → pusher_step a p = Some p' → test p p' = true.
Proof.
  intros H Hs. destruct p as [b1 b2 b3 b4 c t]. unfold every_pusher_step in H.
  apply (for_all_spec _ _ a) in H; [|destruct a; cbn; tauto].
  apply (for_all_spec _ _ c) in H; [|destruct c; cbn; tauto].
  apply (for_all_spec _ _ t) in H; [|destruct t; cbn; tauto].
  apply (for_all_spec _ _ b1) in H; [|destruct b1; cbn; tauto].
  apply (for_all_spec _ _ b2) in H; [|destruct b2; cbn; tauto].
  apply (for_all_spec _ _ b3) in H; [|destruct b3; cbn; tauto].
  apply (for_all_spec _ _ b4) in H; [|destruct b4; cbn; tauto].
  cbv beta zeta in H. by rewrite Hs in H.
Qed.

(** A property of states kept by every step, by evaluation, holds along a run. *)
Lemma pusher_invariant (inv : pusher → bool) p p' :
  every_pusher_step (λ p p', implb (inv p) (inv p')) = true →
  rtc pusher_life p p' → inv p = true → inv p' = true.
Proof.
  intros Hinv. induction 1 as [|p q r [a x y Hs] _ IH]; [done|]. intros Hp. apply IH.
  apply (every_pusher_step_spec _ a x y) in Hinv; [|done]. cbv beta in Hinv. by rewrite Hp in Hinv.
Qed.

(** The thread has answered the pause it was created with. *)
Definition pusher_paused : pusher := mkPusher true false false false Idle TSpin.

(** The states the protocol can be in from there. *)
Definition pusher_inv (p : pusher) : bool :=
  let '(mkPusher pause flag started db c t) := p in
  (* the flag and the database tell where the thread is *)
  eqb flag (match t with TCheck | TClosing | TClosed | TPush | TFailed | TFailedClosed => true | _ => false end) &&
  eqb db (match t with TCheck | TClosing | TOpened | TPush | TFailed => true | _ => false end) &&
  (* the caller's view *)
  match c with
  | Idle => if started
            then negb pause && match t with TCheck | TPush | TFailed | TFailedClosed | TDead => true | _ => false end
            else pause && match t with TSpin | TDead => true | _ => false end
  | StartWait => negb pause && negb started && match t with TClosing | TClosed => false | _ => true end
  | StopWait => pause && started && match t with TOpening | TOpened => false | _ => true end
  end.

Lemma pusher_reachable p : rtc pusher_life pusher_paused p → pusher_inv p = true.
Proof. intros H. apply (pusher_invariant pusher_inv _ _ ltac:(vm_compute; reflexivity) H). reflexivity. Qed.

Fixpoint pusher_run (acts : list pusher_action) (p : pusher) : option pusher :=
  match acts with [] => Some p | a :: acts => p ← pusher_step a p; pusher_run acts p end.

Lemma pusher_run_rtc acts p p' : pusher_run acts p = Some p' → rtc pusher_life p p'.
Proof.
  revert p. induction acts as [|a acts IH]; intros p; cbn [pusher_run]; [by intros [= <-]|].
  destruct (pusher_step a p) as [x|] eqn:E; [obind | done]. intros H.
  eapply rtc_l; [by eapply pusher_life_step | by apply IH].
Qed.

(** Before the first [start] the thread only goes into its pause. *)
Definition going_to_pause (p : pusher) : Prop :=
  pause_thread_ p = true ∧ started_ p = false ∧ client p = Idle ∧ (thread p = TSpin → p = pusher_paused)
  ∧ match thread p with
    | TCheck | TClosing => db_is_open_ p = true ∧ open_ p = true
    | TClosed => db_is_open_ p = true ∧ open_ p = false
    | TSpin => True
    | _ => False
    end.

Lemma goes_to_pause acts : ∀ p p', DoStart ∉ acts → pusher_run acts p = Some p' → going_to_pause p → going_to_pause p'.
Proof.
  induction acts as [|a acts IH]; intros p p' Hno; cbn [pusher_run]; [by intros [= <-]|].
  apply not_elem_of_cons in Hno as [Ha Hno]. destruct (pusher_step a p) as [x|] eqn:E; [obind | done].
  intros Hr (Hp & Hs & Hc & Hspin & Ht). apply (IH x p' Hno Hr). destruct p as [pause flag started db c t].
  cbn in Hp, Hs, Hc, Hspin, Ht. subst pause started c. unfold going_to_pause.
  destruct a, t; cbn [pusher_step] in E; try done; simplify_eq; cbn; try (by split_and!);
    destruct Ht as [-> ->]; by split_and!.
Qed.

(** The states of a thread whose [writev] has failed, which it comes to in no
    other way. *)
Definition has_failed (t : thread_pc) : bool := match t with TFailed | TFailedClosed | TDead => true | _ => false end.

Lemma thread_lives acts : ∀ p p', WriteFails ∉ acts → has_failed (thread p) = false → pusher_run acts p = Some p' →
  has_failed (thread p') = false.
Proof.
  induction acts as [|a acts IH]; intros p p' Hno Ht; cbn [pusher_run]; [by intros [= <-]|].
  apply not_elem_of_cons in Hno as [Ha Hno]. destruct (pusher_step a p) as [x|] eqn:E; [obind | done].
  apply IH; [done|]. destruct p as [pause flag started db c t]. cbn [thread] in Ht.
  destruct a, c, t; cbn [pusher_step] in E; try done; repeat case_match; by simplify_eq.
Qed.

(** A caller in [start] whose thread has ended. *)
Definition start_hung (p : pusher) : bool :=
  pusher_inv p && match client p, thread p with StartWait, TDead => true | _, _ => false end.

(** ** Properties of the life cycle *)

(** C37: from [init] on, when the first [start] is called only after the thread
    has gone into the pause it is created with (its [close()] may have to be tried
    again), [start] and [stop] synchronise: when a call has returned and the
    pusher is started, the thread is not paused and works with the open database;
    when it is stopped, the thread spins with the database closed; in both cases
    unless a write has failed since ([WriteFails]), which ends the thread.  The
    condition on the first [start] is needed, and nothing enforces it: see
    [pusher_stop_race]. *)
Theorem pusher_start_stop_synchronise first rest p0 p :
  pusher_run first pusher_init = Some p0 → DoStart ∉ first → thread p0 = TSpin →
  pusher_run rest p0 = Some p → client p = Idle →
  if started_ p
  then pause_thread_ p = false ∧
       ((open_ p = true ∧ db_is_open_ p = true ∧ (thread p = TCheck ∨ thread p = TPush))
        ∨ (WriteFails ∈ rest ∧ has_failed (thread p) = true))
  else pause_thread_ p = true ∧ open_ p = false ∧ db_is_open_ p = false
       ∧ (thread p = TSpin ∨ (WriteFails ∈ rest ∧ thread p = TDead)).
Proof.
  intros H0 Hno Hspin Hr Hc.
  assert (p0 = pusher_paused) as ->.
  { destruct (goes_to_pause first pusher_init p0 Hno H0) as (_ & _ & _ & Hp & _); [by split_and!|]. by apply Hp. }
  pose proof (pusher_reachable p (pusher_run_rtc _ _ _ Hr)) as H.
  assert (Hf : has_failed (thread p) = true → WriteFails ∈ rest).
  { intros Ht. destruct (decide (WriteFails ∈ rest)) as [|Hno']; [done|].
    by rewrite (thread_lives rest pusher_paused p Hno' eq_refl Hr) in Ht. }
  clear Hr H0. destruct p as [pause flag started db c t]. cbn in Hc, Hf. subst c.
  destruct started, pause, flag, db, t; vm_compute in H; try discriminate; cbn; auto 9.
Qed.

(** right after [init] the protocol has a race: [start] sees the database
    flag [init] has set while the thread is on its way into the first pause,
    and a [stop] that follows returns while the thread is about to open the
    database again; the thread then goes on to push. *)
Theorem pusher_stop_race :
  ∃ p p', rtc pusher_life pusher_init p ∧ client p = Idle ∧ started_ p = false ∧ thread p = TOpening
    ∧ rtc pusher_life p p' ∧ client p' = Idle ∧ started_ p' = false ∧ open_ p' = true ∧ thread p' = TPush.
Proof.
  exists (mkPusher true false false false Idle TOpening), (mkPusher true true false true Idle TPush).
  split_and!; try reflexivity.
  - apply (pusher_run_rtc [ThreadStep; DoStart; ClientStep; ThreadStep; ThreadStep; ThreadStep; DoStop; ClientStep]).
    reflexivity.
  - apply (pusher_run_rtc [ThreadStep; ThreadStep]). reflexivity.
Qed.

(** a write error ends the thread with the database flag cleared: [stop]
    then returns, but a [start] after it waits for ever. *)
Theorem pusher_start_hangs_after_failure p p' :
  rtc pusher_life pusher_paused p → thread p = TDead → client p = StartWait → rtc pusher_life p p' →
  client p' = StartWait ∧ started_ p' = false.
Proof.
  intros Hp%pusher_reachable Ht Hc Hpp.
  assert (H : start_hung p' = true).
  { apply (pusher_invariant start_hung p p' ltac:(vm_compute; reflexivity) Hpp).
    unfold start_hung. by rewrite Hp, Ht, Hc. }
  unfold start_hung in H. apply andb_true_iff in H as [Hi H].
  destruct p' as [pause flag started db c t]. cbn in *. destruct c; try done. split; [done|].
  destruct started; [|done]. by rewrite !andb_false_r in Hi.
Qed.

(** ** The numbers of resent messages *)

Lemma flush_same b r b' : flush b = Some (r, b') → b_seq b' = b_seq b ∧ b_sent b' = b_sent b.
Proof.
  unfold flush. destruct (do_writev _ _ _ _ _) as [[[x y] z]|]; [obind | done]. by intros [= <- <-].
Qed.

Lemma batch_one_seq args b e b' : batch_one args b e = Some b' →
  b_seq b' = u64 (b_seq b + 1) ∧ ∃ r, b_sent b' = b_sent b ++ [r] ∧ sent_seqnum r = u64 (b_seq b + 1).
Proof.
  unfold batch_one. destruct e as [content|]; [obind | done].
  destruct (get_length_of_partial_msg content) as [len|]; [obind | done].
  destruct (complete_FIX_message _ _ _ _) as [c|] eqn:E; [obind | done]. intros [= <-].
  cbn [b_seq b_sent]. unfold complete_FIX_message in E.
  repeat (match type of E with
    | @mbind option _ _ _ _ ?x = _ => destruct x; [cbn [mbind option_bind] in E | done]
    | (let '(_, _) := ?x in _) = _ => destruct x
    end).
  injection E as <-. cbn [c_seq c_sent]. split; [done|]. eexists. split; [done|]. done.
Qed.

Lemma push_romeo_one IOV_MAX args e seq kernel vdata r b :
  push_romeo IOV_MAX args [e] seq kernel vdata = Some (r, b) →
  b_seq b = u64 (seq + 1) ∧ ∃ m, b_sent b = [m] ∧ sent_seqnum m = u64 (seq + 1).
Proof.
  unfold push_romeo. cbn [fmap list_fmap push_loop].
  destruct (batch_one args _ (bdata e)) as [b1|] eqn:E; [obind | done].
  apply batch_one_seq in E as [Hs (m & Hm & Hn)]. cbn [b_seq b_sent app] in *.
  destruct (IOV_MAX =? b_idx b1).
  - destruct (flush b1) as [[r2 b2]|] eqn:Ef; [obind | done]. apply flush_same in Ef as [F1 F2].
    intros H. assert (b_seq b = b_seq b2 ∧ b_sent b = b_sent b2) as [-> ->].
    { repeat case_match; try (by simplify_eq). apply flush_same in H. by destruct H. }
    rewrite F1, F2. eauto.
  - intros [-> ->]%flush_same. eauto.
Qed.

Section Numbers.
Context (soh : Z) (utc_time : Z → list Z) (CACHE_LINE_SIZE : Z)
        (tx_malloc : nat → Z → option (list Z)) (tx_realloc : nat → Z → option (bool * list Z))
        (IOV_MAX : Z) (args : pusher_thread_args_t) (malloc : Z → option (list Z))
        (clock : nat → timeval) (romeo : nat → bravo_t) (error : Z).

#[local] Abbreviation one := (resend_one soh utc_time CACHE_LINE_SIZE tx_malloc tx_realloc IOV_MAX args
  malloc clock romeo error).
#[local] Abbreviation loop := (resend_loop soh utc_time CACHE_LINE_SIZE tx_malloc tx_realloc IOV_MAX args
  malloc clock romeo error).

Lemma resend_one_seq v n pmsg vdata s s' : one v n pmsg vdata s = Some (Some s') →
  r_seqnum s' = u64 (r_seqnum s + 2)
  ∧ ∃ m, r_sent s' = r_sent s ++ [m] ∧ sent_seqnum m = u64 (r_seqnum s + 1).
Proof.
  unfold resend_one. destruct (resend_build _ _ _ _ _ _ _ _ _ _) as [[tx|]|]; [obind | done | done].
  destruct (expose tx) as [[ex tx']|]; [obind | done]. destruct ex as [ex|]; [obind | done].
  destruct (read_at _ _ _) as [data|]; [obind | done].
  destruct (push_to_romeo _ _ _ _ _ _ _) as [[r eff]|]; [obind | done].
  case_match; [done|]. destruct eff; try done.
  destruct (push_romeo _ _ _ _ _ _) as [[r' b]|] eqn:E; [obind | done].
  apply push_romeo_one in E as [Hs (m & Hm & Hn)].
  destruct r' as [z|]; [|done]. destruct z; try done. intros [= <-]. cbn [r_seqnum r_sent].
  rewrite Hs, Hm. split; [|eauto]. unfold u64. rewrite Zplus_mod_idemp_l. f_equal. lia.
Qed.

Lemma resend_loop_numbers v vdata l : ∀ n s s', loop v n l vdata s = Some (0, s') →
  sent_seqnum <$> r_sent s'
  = (sent_seqnum <$> r_sent s) ++ ((λ i, u64 (r_seqnum s + 1 + 2 * Z.of_nat i)) <$> seq 0 (length l)).
Proof.
  induction l as [|pmsg l IH]; intros n s s'; cbn [resend_loop length seq].
  { intros [= <-]. by rewrite app_nil_r. }
  destruct (one v n pmsg vdata s) as [[s1|]|] eqn:E; [obind | done | done].
  apply resend_one_seq in E as [Hs (m & Hm & Hn)]. intros Hl. apply IH in Hl. rewrite Hl, Hm, Hs.
  rewrite fmap_app, <- app_assoc. f_equal. cbn [fmap list_fmap app]. rewrite Hn. f_equal; [f_equal; lia|].
  rewrite <- fmap_S_seq, <- list_fmap_compose. apply list_fmap_ext. intros i x _. cbn.
  unfold u64. rewrite <- Z.add_assoc, Zplus_mod_idemp_l. f_equal. lia.
Qed.
End Numbers.

(** ** The gap fill message *)

Lemma get_sendingtime_cstr utc v now :
  zlen (sendingtime_text utc v now) ≤ 23 → Forall (λ c, c ≠ 0) (sendingtime_text utc v now) →
  ∃ tmp, get_sendingtime utc v now = Some tmp ∧ cstr tmp = Some (sendingtime_text utc v now).
Proof.
  intros Hl Hz. unfold get_sendingtime. set (t := sendingtime_text utc v now) in *.
  destruct (write_at_inside (replicate 24 0) 0 (t ++ [0])) as [tmp Hw];
    [lia | rewrite length_replicate; llia |].
  exists tmp. split; [done|]. apply write_at_split in Hw as (a & b & c & _ & -> & Ha & _).
  destruct a; [|cbn in Ha; lia]. cbn [app]. rewrite <- app_assoc. by apply cstr_app.
Qed.

Definition gap_fields (seqnum : Z) (time : list Z) : list (Z * list Z) :=
  [(123, bytes_of_string "Y"); (36, dec seqnum); (52, time)].

Definition gap_waiting (soh seqnum : Z) (time : list Z) (ttl : Z * Z) : waiting :=
  mkWaiting (bytes_of_string "4") ttl soh (wire_fields soh (gap_fields seqnum time)).

Section GapFill.
Context (soh : Z) (utc_time : Z → list Z) (CACHE_LINE_SIZE : Z)
        (tx_malloc : nat → Z → option (list Z)) (tx_realloc : nat → Z → option (bool * list Z)).
Hypothesis tx_malloc_size : ∀ n sz b, 0 ≤ sz → tx_malloc n sz = Some b → zlen b = sz.
Hypothesis cache_line : 16 ≤ CACHE_LINE_SIZE.

Lemma app_field_ok t x tx r tx' :
  append_field CACHE_LINE_SIZE tx_malloc tx_realloc t x tx = Some (r, tx') →
  app_field CACHE_LINE_SIZE tx_malloc tx_realloc t x tx = Some tx'.
Proof. unfold app_field. by intros ->. Qed.

Lemma app_fields_chain a x b y c z tx tx' :
  append_fields CACHE_LINE_SIZE tx_malloc tx_realloc [(a, x); (b, y); (c, z)] tx = Some (1, tx') →
  ∃ t1 t2, app_field CACHE_LINE_SIZE tx_malloc tx_realloc a x tx = Some t1
    ∧ app_field CACHE_LINE_SIZE tx_malloc tx_realloc b y t1 = Some t2
    ∧ app_field CACHE_LINE_SIZE tx_malloc tx_realloc c z t2 = Some tx'.
Proof.
  cbn [append_fields]. unfold app_field.
  destruct (append_field _ _ _ a x tx) as [[r1 t1]|]; [obind | done]. destruct (r1 =? 0); [done|].
  destruct (append_field _ _ _ b y t1) as [[r2 t2]|] eqn:E2; [obind | done]. destruct (r2 =? 0); [done|].
  destruct (append_field _ _ _ c z t2) as [[r3 t3]|] eqn:E3; [obind | done]. destruct (r3 =? 0); [done|].
  intros [= <-]. exists t1, t2. rewrite E2, E3. done.
Qed.

(** [clone_from] on a blank message leaves a fresh one. *)
Lemma clone_blank pmsg tx :
  pm_length pmsg = 0 → is_Some (tx_malloc (allocs_ tx) INITIAL_TX_BUFFER_SIZE) →
  zlen (msg_type_ tx) = CACHE_LINE_SIZE →
  ∃ tx', clone_from CACHE_LINE_SIZE tx_malloc tx_realloc (Some pmsg) tx = Some (1, tx')
    ∧ holds tx' [soh_ tx] ∧ soh_ tx' = soh_ tx ∧ buf_size_ tx' = INITIAL_TX_BUFFER_SIZE
    ∧ zlen (msg_type_ tx') = CACHE_LINE_SIZE ∧ sending_time_appended_ tx' = false
    ∧ ttl_ tx' = pm_ttl pmsg.
Proof.
  intros Hp [b Hb] Hmtl. unfold clone_from. rewrite Hp. change (0 =? 0) with true. cbv iota.
  destruct (init_holds tx_malloc tx_malloc_size tx b Hb) as (tx1 & -> & Hh1 & S1 & B1 & _ & M1 & P1). obind.
  eexists. split; [reflexivity|]. unfold set_time_to_live.
  cbn [soh_ buf_size_ msg_type_ sending_time_appended_ ttl_]. split_and!; try done.
  - rewrite M1. destruct (msg_type_ tx); [cbn in Hmtl; lia|]. by rewrite <- Hmtl.
  - by destruct (pm_ttl pmsg).
Qed.

Lemma gap_fill_built v now seqnum pmsg tx :
  pm_length pmsg = 0 → is_Some (tx_malloc (allocs_ tx) INITIAL_TX_BUFFER_SIZE) →
  soh_ tx = soh → zlen (msg_type_ tx) = CACHE_LINE_SIZE → 0 ≤ seqnum < 2 ^ 64 - 1 →
  zlen (sendingtime_text utc_time v now) ≤ 23 → Forall (λ c, c ≠ 0) (sendingtime_text utc_time v now) →
  ∃ tx' r, resend_build soh utc_time CACHE_LINE_SIZE tx_malloc tx_realloc v now seqnum pmsg tx = Some (Some tx')
    ∧ holds tx' (soh :: wire_fields soh (gap_fields (seqnum + 1) (sendingtime_text utc_time v now)))
    ∧ msg_type_ tx' = 52 :: 0 :: r ∧ sending_time_appended_ tx' = true
    ∧ buf_size_ tx' = INITIAL_TX_BUFFER_SIZE ∧ ttl_ tx' = pm_ttl pmsg.
Proof.
  intros Hp Hb Hs Hmtl Hseq Htl Htz. unfold resend_build. rewrite (proj2 (Z.eqb_eq _ 0) Hp).
  destruct (clone_blank pmsg tx Hp Hb Hmtl) as (tx2 & -> & Hh2 & S2 & B2 & M2 & P2 & T2). obind.
  rewrite (proj2 (Z.eqb_neq 1 0)) by lia.
  destruct (append_type_holds CACHE_LINE_SIZE tx_malloc tx_realloc tx2 _ (bytes_of_string "4") Hh2 M2)
    as (tx3 & r & E3 & Hh3 & S3 & B3 & T3 & M3 & _ & P3).
  { assert (E4b : zlen (bytes_of_string "4") = 1) by (vm_compute; reflexivity). rewrite E4b. lia. }
  rewrite (app_field_ok _ _ _ _ _ E3). obind_rw.
  assert (Hu : u64 (seqnum + 1) = seqnum + 1) by (unfold u64; apply Z.mod_small; lia). rewrite Hu.
  destruct (get_sendingtime_cstr utc_time v now Htl Htz) as (tmp & Htmp & Hct).
  set (time := sendingtime_text utc_time v now) in *.
  assert (Hdl : zlen (dec (seqnum + 1)) ≤ 20) by (apply dec_length_le; lia).
  assert (DY : zlen (bytes_of_string "Y") = 1) by reflexivity.
  destruct (append_fields_holds CACHE_LINE_SIZE tx_malloc tx_realloc (gap_fields (seqnum + 1) time) tx3 [soh_ tx])
    as (tx6 & E6 & Hh6 & S6 & T6 & M6 & B6 & P6).
  { unfold gap_fields, field_ok. repeat constructor; cbn [fst]; lia. }
  { exact Hh3. }
  { rewrite B3, B2. unfold INITIAL_TX_BUFFER_SIZE, gap_fields. repeat constructor; cbn [snd]; lia. }
  { rewrite B3, B2. unfold INITIAL_TX_BUFFER_SIZE, gap_fields, wire_fields. cbn [fmap list_fmap concat].
    assert (D123 : zlen (dec 123) = 3) by (vm_compute; reflexivity).
    assert (D36 : zlen (dec 36) = 2) by (vm_compute; reflexivity).
    assert (D52 : zlen (dec 52) = 2) by (vm_compute; reflexivity).
    rewrite app_nil_r, !length_app, !Nat2Z.inj_add, !length_wire_field, length_cons, length_nil. lia. }
  apply app_fields_chain in E6 as (t1 & t2 & E4 & E5 & E6).
  rewrite E4. obind_rw. rewrite E5. obind_rw. rewrite Htmp. obind_rw. rewrite Hct. obind_rw. rewrite E6. obind_rw.
  exists tx6, r. split; [reflexivity|]. rewrite S3, S2, Hs in Hh6. split; [exact Hh6|].
  rewrite M6, M3, P6, B6, B3, T6, T3. split_and!; try done. by rewrite orb_true_r.
Qed.
End GapFill.

(** What [push_to_romeo] queues and [push_romeo] makes of it. *)
Lemma romeo_sends IOV_MAX start soh malloc now ttl entry fields mt r seq ints kernel vdata :
  (∀ sz, 0 ≤ sz → ∃ b, malloc sz = Some b ∧ zlen b = sz) →
  from_option (λ d, zlen d) 0 (bdata entry) = allocated_size entry →
  Forall (λ c, c ≠ 0) mt → zlen mt < 16 → zlen fields < 2 ^ 31 →
  1 < IOV_MAX ≤ zlen vdata → zlen start ≤ 31 → 0 ≤ seq < 2 ^ 64 - 1 → Forall interrupt ints →
  let tv := expire_time now ttl in
  let msg := numbered start soh (seq + 1) (mkWaiting mt (u64 tv.1, u64 tv.2) soh fields) in
  zlen msg < 2 ^ 64 →
  ∃ e b, push_to_romeo malloc now 0 entry ttl (soh :: fields ++ bytes_of_string "10=") (mt ++ 0 :: r)
         = Some (0, PushBravo e)
    ∧ push_romeo IOV_MAX (mkArgs start (zlen start) soh) [e] seq (ints ++ WOk (zlen msg) :: kernel) vdata
      = Some (Some 0, b) ∧ b_out b = msg ∧ b_seq b = seq + 1 ∧ b_kernel b = kernel.
Proof.
  intros Hma Hro Hz Hmt Hf Hiov Hst Hseq Hi tv msg Hbig.
  set (data := soh :: fields ++ bytes_of_string "10=").
  assert (Hdlen : zlen data = zlen fields + 4).
  { assert (D10 : zlen (bytes_of_string "10=") = 3) by reflexivity.
    unfold data. rewrite length_cons, length_app. lia. }
  unfold push_to_romeo. rewrite strnlen_cstr by (done || unfold MSG_TYPE_MAX_LENGTH; lia). obind_rw.
  rewrite (proj2 (Z.ltb_ge MSG_TYPE_MAX_LENGTH _)) by (unfold MSG_TYPE_MAX_LENGTH; lia).
  destruct (fill_bravo_spec malloc entry tv data mt r) as (ret & e & Hfill & He); try done.
  { intros sz b0 Hsz E. destruct (Hma sz Hsz) as (b1 & E1 & ?). congruence. }
  { lia. }
  fold tv. rewrite Hfill. obind_rw. destruct He as [(_ & _ & _ & E)|(-> & h & tail & He & Hh' & Ht & Hg & Hl)].
  { destruct (Hma (zlen data + 264)) as (b1 & E1 & _); [lia | congruence]. }
  set (w := mkWaiting mt (u64 tv.1, u64 tv.2) soh fields).
  assert (Hent : entry_holds (h ++ data ++ tail) w).
  { exists h, tail. change (w_partial w) with data. split_and!; try done. lia. }
  assert (Hstream : stream start soh seq [w] = msg) by (cbn [stream]; by rewrite app_nil_r).
  destruct (push_alfa_batch IOV_MAX start soh [h ++ data ++ tail] [w] seq ints kernel vdata)
    as (b & Hpush & Ho & Hsq & _ & Hk & _); try done; try (by repeat constructor); try (rewrite Hstream; lia);
    try (rewrite length_cons, length_nil; lia); try lia.
  rewrite Hstream in Hpush, Ho. exists e, b. split; [reflexivity|]. split_and!; try done.
  unfold push_romeo. cbn [fmap list_fmap]. rewrite He. exact Hpush.
Qed.

Lemma length_gap_fields soh seqnum time :
  0 ≤ seqnum < 2 ^ 64 → zlen time ≤ 23 → zlen (wire_fields soh (gap_fields seqnum time)) ≤ 60.
Proof.
  intros Hs Ht. assert (Hdl : zlen (dec seqnum) ≤ 20) by (apply dec_length_le; lia).
  assert (D123 : zlen (dec 123) = 3) by (vm_compute; reflexivity).
  assert (D36 : zlen (dec 36) = 2) by (vm_compute; reflexivity).
  assert (D52 : zlen (dec 52) = 2) by (vm_compute; reflexivity).
  assert (DY : zlen (bytes_of_string "Y") = 1) by reflexivity.
  unfold gap_fields, wire_fields. cbn [fmap list_fmap concat].
  rewrite app_nil_r, !length_app, !Nat2Z.inj_add, !length_wire_field. lia.
Qed.

(** ** The sending time of a resent message *)

Lemma find_prefix_first p a r i :
  (∀ a1 a2, a = a1 ++ a2 → a2 ≠ [] → prefixb p (a2 ++ p ++ r) = false) →
  find_prefix p (a ++ p ++ r) i = Some (i + zlen a).
Proof.
  revert i. induction a as [|c a IH]; intros i Hno.
  - cbn [app]. assert (Hp : prefixb p (p ++ r) = true) by apply prefixb_app.
    destruct p as [|x p]; [destruct r; cbn; f_equal; lia|]. cbn [app find_prefix] in *. rewrite Hp.
    f_equal. cbn. lia.
  - cbn [app find_prefix]. rewrite (Hno [] (c :: a) eq_refl ltac:(done) : prefixb p (c :: a ++ p ++ r) = false).
    rewrite IH; [f_equal; rewrite length_cons; lia|]. intros a1 a2 -> Hne. by apply (Hno (c :: a1)).
Qed.

Lemma until_nul_none l : Forall (λ c, c ≠ 0) l → until_nul l = l.
Proof. intros H. rewrite <- (app_nil_r l) at 1. rewrite until_nul_app by done. by rewrite app_nil_r. Qed.

(** Three consecutive stores that overlap leave the last writer's bytes. *)
Lemma write_text a old x rest (new : list Z) c :
  length old = length new →
  (b ← write_at (a ++ old ++ x :: rest) (zlen a) (new ++ [0]); write_at b (zlen a + zlen new) [c])
  = Some (a ++ new ++ c :: rest).
Proof.
  intros Hl. change (x :: rest) with ([x] ++ rest). rewrite (app_assoc old).
  rewrite (write_at_mid a (old ++ [x]) rest (new ++ [0])) by (done || rewrite !length_app, Hl; done).
  obind. rewrite <- app_assoc, app_assoc.
  rewrite (write_at_mid (a ++ new) [0] rest [c]) by (done || rewrite length_app; lia). by rewrite <- app_assoc.
Qed.

(** ** Properties of [resend] *)

(** [resend] on a running pusher is undefined: it stops the pusher first,
    whose thread closes the database on the way, so the list of messages it
    then asks for is the null pointer it goes on to dereference. *)
Theorem resend_dereferences_null soh utc_time CACHE_LINE_SIZE tx_malloc tx_realloc IOV_MAX args malloc clock
    romeo error v start end_ vdata kernel close_rc list_ok prepare steps db_now new_ok db :
  is_Some (tx_malloc 0%nat INITIAL_TX_BUFFER_SIZE) → (close close_rc db).1 = 1 →
  resend soh utc_time CACHE_LINE_SIZE tx_malloc tx_realloc IOV_MAX args malloc clock romeo error
    true v start end_ (Some vdata) kernel close_rc list_ok prepare steps db_now new_ok db = None.
Proof.
  intros [b Hb] Hc. unfold resend, init. change (allocs_ (make_tx CACHE_LINE_SIZE soh)) with 0%nat.
  rewrite Hb. destruct (write_at b 0 _) as [b'|]; [obind | done]. cbv beta iota zeta.
  change (1 =? 0) with false. cbv iota. unfold stop_effect, get_sent_msgs.
  assert (Hn : db_ (close close_rc db).2 = None).
  { destruct (db_ db) as [path|] eqn:E; [rewrite (close_some _ _ path) in * by done | by rewrite close_none].
    cbn [fst snd db_] in *. by destruct (close_loop 5 close_rc 0). }
  by rewrite Hn.
Qed.

(** the messages a [resend] sends do not get consecutive numbers: the
    sequence number is advanced by [complete_FIX_message] and once more by the
    loop, so the messages asked for from [start] on go out as [start],
    [start + 2], [start + 4] and so on, and are stored under those numbers. *)
Theorem resend_skips_numbers soh utc_time CACHE_LINE_SIZE tx_malloc tx_realloc IOV_MAX args malloc clock
    romeo error v start vdata kernel tx l s' :
  resend_loop soh utc_time CACHE_LINE_SIZE tx_malloc tx_realloc IOV_MAX args malloc clock romeo error
    v 0 l vdata (mkResending tx (u64 (start - 1)) kernel [] []) = Some (0, s') →
  sent_seqnum <$> r_sent s' = (λ i, u64 (start + 2 * Z.of_nat i)) <$> seq 0 (length l).
Proof.
  intros H. apply resend_loop_numbers in H. cbn [r_sent r_seqnum fmap list_fmap app] in H. rewrite H.
  apply list_fmap_ext. intros i x _. unfold u64. rewrite <- Z.add_assoc, Zplus_mod_idemp_l. f_equal. lia.
Qed.

(** the gap fill message [resend] sends for a message whose time to live
    is over is a complete, correctly numbered SequenceReset with GapFillFlag,
    but its NewSeqNo is its own MsgSeqNum, not the number after the gap; the next
    message is numbered two higher. *)
Theorem gap_fill_names_itself soh utc_time CACHE_LINE_SIZE tx_malloc tx_realloc IOV_MAX start malloc
    clock romeo v n pmsg vdata s ints kernel :
  (∀ n sz b, 0 ≤ sz → tx_malloc n sz = Some b → zlen b = sz) → 16 ≤ CACHE_LINE_SIZE →
  is_Some (tx_malloc (allocs_ (r_tx s)) INITIAL_TX_BUFFER_SIZE) →
  (∀ sz, 0 ≤ sz → ∃ b, malloc sz = Some b ∧ zlen b = sz) →
  from_option (λ d, zlen d) 0 (bdata (romeo n)) = allocated_size (romeo n) →
  pm_length pmsg = 0 → soh_ (r_tx s) = soh → zlen (msg_type_ (r_tx s)) = CACHE_LINE_SIZE →
  0 ≤ r_seqnum s < 2 ^ 64 - 2 → 1 < IOV_MAX ≤ zlen vdata → zlen start ≤ 31 →
  let time := sendingtime_text utc_time v (clock (2 * n)%nat) in
  zlen time ≤ 23 → Forall (λ c, c ≠ 0) time →
  let now := expire_time (clock (2 * n + 1)%nat) (pm_ttl pmsg) in
  let msg := numbered start soh (r_seqnum s + 1)
               (gap_waiting soh (r_seqnum s + 1) time (u64 now.1, u64 now.2)) in
  zlen msg < 2 ^ 64 → Forall interrupt ints → r_kernel s = ints ++ WOk (zlen msg) :: kernel →
  ∃ s', resend_one soh utc_time CACHE_LINE_SIZE tx_malloc tx_realloc IOV_MAX (mkArgs start (zlen start) soh)
          malloc clock romeo 0 v n pmsg vdata s = Some (Some s')
    ∧ r_out s' = r_out s ++ msg ∧ r_seqnum s' = r_seqnum s + 2 ∧ r_kernel s' = kernel.
Proof.
  intros Htm Hcl Hb Hma Hro Hp Hs Hmtl Hseq Hiov Hst time Htl Htz now msg Hbig Hi Hk. unfold resend_one.
  destruct (gap_fill_built soh utc_time CACHE_LINE_SIZE tx_malloc tx_realloc Htm Hcl v (clock (2 * n)%nat)
    (r_seqnum s) pmsg (r_tx s)) as (tx1 & r & -> & Hh & M1 & P1 & B1 & T1); try done; [lia|]. obind_rw.
  fold time in Hh.
  pose proof (length_gap_fields soh (r_seqnum s + 1) time ltac:(lia) Htl) as Hfl.
  set (fields := wire_fields soh (gap_fields (r_seqnum s + 1) time)) in *.
  destruct (expose_holds tx1 _ 52 (0 :: r) Hh M1 ltac:(done) P1) as (rest & tx2 & -> & _).
  { rewrite B1, length_cons. unfold INITIAL_TX_BUFFER_SIZE. lia. }
  obind_rw. obind_rw. cbn [ex_data ex_len ex_msg_type ex_ttl].
  assert (Hrd : read_at ((soh :: fields) ++ bytes_of_string "10=" ++ rest) 0 (zlen (soh :: fields) + 3)
    = Some (soh :: fields ++ bytes_of_string "10=")).
  { rewrite app_assoc. apply (read_at_prefix ((soh :: fields) ++ bytes_of_string "10=")).
    rewrite length_app. assert (D10 : zlen (bytes_of_string "10=") = 3) by reflexivity. lia. }
  rewrite Hrd. obind_rw. rewrite M1, T1, Hk.
  destruct (romeo_sends IOV_MAX start soh malloc (clock (2 * n + 1)%nat) (pm_ttl pmsg) (romeo n) fields
    (bytes_of_string "4") r (r_seqnum s) ints kernel vdata Hma Hro)
    as (e & b & Hto & Hfrom & Ho & Hsq & Hker); try done; try lia; [by repeat constructor|].
  change (52 :: 0 :: r) with (bytes_of_string "4" ++ 0 :: r). rewrite Hto. obind_rw.
  change (negb (0 =? 0)) with false. cbv beta iota. fold now in Hfrom.
  change (mkWaiting (bytes_of_string "4") (u64 now.1, u64 now.2) soh fields)
    with (gap_waiting soh (r_seqnum s + 1) time (u64 now.1, u64 now.2)) in Hfrom.
  fold msg in Hfrom. rewrite Hfrom. obind_rw. eexists. split; [reflexivity|].
  cbn [r_out r_seqnum r_kernel]. rewrite Ho, Hsq, Hker. split; [done|]. split; [|done].
  unfold u64. rewrite Z.mod_small; lia.
Qed.

(** [update_sendingtime] on a stored message whose first field 52 is
    followed by a time of the length the version uses: the time is replaced in
    place by the current one, nothing else changes (the byte behind it becomes
    the SOH it already is), and the old time is handed out for OrigSendingTime.
    For a time without milliseconds in a FIX 4.2 or later message, [old] covers
    four bytes of what follows: they are lost. *)
Theorem update_sendingtime_spec soh utc_time v now len mt ttl a old x rest spare :
  let tag := [soh; 53; 50; 61] in
  let part := a ++ tag ++ old ++ x :: rest in
  let new := sendingtime_text utc_time v now in
  soh ≠ 0 → Forall (λ c, c ≠ 0) a → Forall (λ c, c ≠ 0) old →
  (∀ a1 a2, a = a1 ++ a2 → a2 ≠ [] → prefixb tag (a2 ++ tag ++ until_nul (old ++ x :: rest)) = false) →
  len = zlen part → zlen (utc_time now.1) = 17 → 0 ≤ now.2 < 1000000 →
  zlen old = (if without_millis v then 17 else 21) →
  update_sendingtime soh utc_time v now (mkPartial len mt (part ++ spare) ttl)
  = Some (mkPartial len mt (a ++ tag ++ new ++ soh :: rest ++ spare) ttl, old).
Proof.
  intros tag part new Hs Ha Ho Hno Hlen Hut Hnow Hold. unfold update_sendingtime. fold tag.
  cbn [pm_part_msg pm_length pm_msg_type pm_ttl].
  assert (Htag : Forall (λ c, c ≠ 0) tag) by (by repeat constructor).
  assert (Hfind : strnstr_at (part ++ spare) tag len = Some (zlen a)).
  { unfold strnstr_at. rewrite Hlen, Nat2Z.id, take_app_length. unfold part.
    rewrite app_assoc, until_nul_app by (by apply Forall_app). rewrite <- app_assoc.
    by apply find_prefix_first. }
  rewrite Hfind. obind_rw. assert (Ht4 : zlen tag = 4) by reflexivity.
  assert (Hpart : part ++ spare = (a ++ tag) ++ old ++ x :: rest ++ spare) by (unfold part; by app_norm).
  assert (Hpos : zlen a + zlen tag = zlen (a ++ tag)) by (rewrite length_app; lia). rewrite Hpos, Hpart.
  unfold strncpy_z. rewrite (read_at_mid (a ++ tag) old) by done. obind_rw.
  rewrite until_nul_none by done. obind_rw.
  assert (Hq : (Z.quot now.2 1000 <? 1000) = true).
  { apply Z.ltb_lt. rewrite Z.quot_div_nonneg by lia. apply Z.div_lt_upper_bound; lia. }
  unfold new, sendingtime_text. destruct (without_millis v).
  - change ([] ++ [0]) with [0].
    pose proof (write_text (a ++ tag) old x (rest ++ spare) (utc_time now.1) soh ltac:(lia)) as Hw.
    destruct (write_at _ _ (utc_time now.1 ++ [0])) as [b|]; [|done]. cbn [mbind option_bind] in *.
    rewrite Hut in Hw. rewrite Hw. obind. by rewrite <- app_assoc.
  - cbv zeta. rewrite Hq. set (ms := padded 3 (Z.quot now.2 1000)).
    assert (Hms : zlen ms = 3) by (unfold ms; by rewrite length_padded).
    destruct (split_free old 18) as (o1 & o2 & -> & Ho1); [lia|].
    destruct o2 as [|y o2]; [rewrite app_nil_r in Hold; lia|].
    rewrite length_app, length_cons in Hold.
    replace ((a ++ tag) ++ (o1 ++ y :: o2) ++ x :: rest ++ spare)
      with ((a ++ tag) ++ (o1 ++ [y]) ++ o2 ++ x :: rest ++ spare) by (by app_norm).
    rewrite (write_at_mid (a ++ tag) (o1 ++ [y])) by (done || rewrite !length_app; cbn; lia). obind.
    pose proof (write_text ((a ++ tag) ++ utc_time now.1 ++ [46]) (0 :: o2) x (rest ++ spare) ms soh) as Hw.
    assert (Hpre : zlen ((a ++ tag) ++ utc_time now.1 ++ [46]) = zlen (a ++ tag) + 18)
      by (rewrite (length_app (a ++ tag)), (length_app (utc_time now.1)); cbn [length]; lia).
    rewrite Hpre, Hms in Hw.
    replace ((a ++ tag) ++ (utc_time now.1 ++ [46] ++ [0]) ++ o2 ++ x :: rest ++ spare)
      with (((a ++ tag) ++ utc_time now.1 ++ [46]) ++ (0 :: o2) ++ x :: rest ++ spare) by (by app_norm).
    specialize (Hw ltac:(rewrite length_cons; lia)).
    destruct (write_at _ _ (ms ++ [0])) as [b|]; [|discriminate Hw].
    cbn [mbind option_bind] in *. rewrite <- Z.add_assoc in Hw. change (18 + 3) with 21 in Hw.
    rewrite Hw. obind. do 3 f_equal. by app_norm.
Qed.

(** ** Concrete runs *)

Definition demo_life : list pusher_action :=
  [DoStart; ThreadStep; ThreadStep; ThreadStep; ClientStep; ThreadStep; ThreadStep].
Definition demo_running : pusher := default pusher_paused (pusher_run demo_life pusher_paused).

Lemma pusher_start_stop_synchronise_witness :
  started_ demo_running = true ∧
  if started_ demo_running
  then pause_thread_ demo_running = false ∧
       ((open_ demo_running = true ∧ db_is_open_ demo_running = true ∧
         (thread demo_running = TCheck ∨ thread demo_running = TPush))
        ∨ (WriteFails ∈ demo_life ∧ has_failed (thread demo_running) = true))
  else pause_thread_ demo_running = true ∧ open_ demo_running = false ∧ db_is_open_ demo_running = false ∧
       (thread demo_running = TSpin ∨ (WriteFails ∈ demo_life ∧ thread demo_running = TDead)).
Proof.
  split; [reflexivity|].
  apply (pusher_start_stop_synchronise [ThreadStep; CloseFails; ThreadStep; ThreadStep; ThreadStep] demo_life pusher_paused demo_running).
  - reflexivity.
  - by apply (bool_decide_unpack _).
  - reflexivity.
  - reflexivity.
  - reflexivity.
Defined.

Definition demo_failure : list pusher_action :=
  demo_life ++ [WriteFails; ThreadStep; ThreadStep; DoStop; ClientStep; DoStart].
Definition demo_failed : pusher := default pusher_paused (pusher_run demo_failure pusher_paused).

Lemma pusher_start_hangs_after_failure_witness :
  client demo_failed = StartWait ∧ started_ demo_failed = false.
Proof.
  apply (pusher_start_hangs_after_failure demo_failed demo_failed); [|reflexivity|reflexivity|apply rtc_refl].
  apply (pusher_run_rtc demo_failure). reflexivity.
Defined.

Definition demo_utc (t : Z) : list Z := bytes_of_string "20130401-12:00:0" ++ [ch_0 + t mod 10].
Definition demo_blank : PartialMessage := mkPartial 0 [] [] (0, 0).
Definition demo_clock (n : nat) : timeval := (Z.of_nat n, 250000).
Definition demo_romeo (n : nat) : bravo_t := mkBravo 0 None.
Definition demo_args : pusher_thread_args_t := mkArgs demo_start (zlen demo_start) 1.
Definition demo_vdata : list iovec := replicate 8 (mkIov [] 0).
Definition demo_tx : FIXMessageTX := default (make_tx 64 1) (snd <$> init FixMessageTX.malloc_ok (make_tx 64 1)).
Definition demo_gap (seqnum t now : Z) : list Z :=
  numbered demo_start 1 seqnum (gap_waiting 1 seqnum (demo_utc t ++ bytes_of_string ".250") (now, 250000)).

Lemma resend_dereferences_null_witness :
  resend 1 demo_utc 64 FixMessageTX.malloc_ok FixMessageTX.realloc_ok 8 demo_args demo_malloc demo_clock
    demo_romeo 0 true FIX_4_4 3 9 (Some demo_vdata) [] (λ _, SQLITE_OK) true SQLITE_OK [SQLITE_ROW; SQLITE_DONE]
    (λ _, (103, 0)) (λ _, true) demo_two = None.
Proof.
  apply (resend_dereferences_null 1 demo_utc 64 FixMessageTX.malloc_ok FixMessageTX.realloc_ok 8 demo_args
    demo_malloc demo_clock demo_romeo 0 FIX_4_4 3 9 demo_vdata [] (λ _, SQLITE_OK) true SQLITE_OK
    [SQLITE_ROW; SQLITE_DONE] (λ _, (103, 0)) (λ _, true) demo_two); [eexists; reflexivity | reflexivity].
Defined.

Definition demo_resending (kernel : list wret) : resending := mkResending demo_tx (u64 (5 - 1)) kernel [] [].
Definition demo_kernel2 : list wret := [WOk (zlen (demo_gap 5 0 1)); WErr EAGAIN; WOk (zlen (demo_gap 7 2 3))].
Definition demo_resent : resending :=
  default (demo_resending []) (snd <$> resend_loop 1 demo_utc 64 FixMessageTX.malloc_ok FixMessageTX.realloc_ok 8
    demo_args demo_malloc demo_clock demo_romeo 0 FIX_4_4 0 [demo_blank; demo_blank] demo_vdata
    (demo_resending demo_kernel2)).

Lemma resend_skips_numbers_witness : sent_seqnum <$> r_sent demo_resent = [5; 7].
Proof.
  apply (resend_skips_numbers 1 demo_utc 64 FixMessageTX.malloc_ok FixMessageTX.realloc_ok 8 demo_args
    demo_malloc demo_clock demo_romeo 0 FIX_4_4 5 demo_vdata demo_kernel2 demo_tx [demo_blank; demo_blank]
    demo_resent).
  vm_compute. reflexivity.
Defined.

Lemma gap_fill_names_itself_witness : ∃ s',
  resend_one 1 demo_utc 64 FixMessageTX.malloc_ok FixMessageTX.realloc_ok 8 demo_args demo_malloc demo_clock
    demo_romeo 0 FIX_4_4 0 demo_blank demo_vdata (demo_resending demo_kernel2) = Some (Some s')
  ∧ r_out s' = r_out (demo_resending demo_kernel2) ++ demo_gap (4 + 1) 0 1 ∧ r_seqnum s' = 4 + 2
  ∧ r_kernel s' = [WErr EAGAIN; WOk (zlen (demo_gap 7 2 3))].
Proof.
  apply (gap_fill_names_itself 1 demo_utc 64 FixMessageTX.malloc_ok FixMessageTX.realloc_ok 8 demo_start
    demo_malloc demo_clock demo_romeo FIX_4_4 0 demo_blank demo_vdata (demo_resending demo_kernel2) []
    [WErr EAGAIN; WOk (zlen (demo_gap 7 2 3))]).
  - exact malloc_ok_size.
  - lia.
  - eexists. reflexivity.
  - intros sz Hsz. eexists. split; [reflexivity|]. rewrite length_replicate. lia.
  - reflexivity.
  - reflexivity.
  - reflexivity.
  - reflexivity.
  - vm_compute. split; congruence.
  - vm_compute. split; congruence.
  - vm_compute. congruence.
  - vm_compute. congruence.
  - vm_compute. by repeat constructor.
  - vm_compute. congruence.
  - constructor.
  - vm_compute. reflexivity.
Defined.

Lemma update_sendingtime_spec_witness :
  let a := [1] ++ bytes_of_string "49=X" in
  let old := bytes_of_string "20121105-23:24:37.000" in
  update_sendingtime 1 demo_utc FIX_4_4 (7, 250000)
    (mkPartial 36 [68; 0] ((a ++ [1; 53; 50; 61] ++ old ++ 1 :: bytes_of_string "56=EX") ++ [0; 0]) (0, 0))
  = Some (mkPartial 36 [68; 0]
      (a ++ [1; 53; 50; 61] ++ bytes_of_string "20130401-12:00:07.250" ++ 1 :: bytes_of_string "56=EX" ++ [0; 0])
      (0, 0), old).
Proof.
  intros a old.
  apply (update_sendingtime_spec 1 demo_utc FIX_4_4 (7, 250000) 36 [68; 0] (0, 0) a old 1
    (bytes_of_string "56=EX") [0; 0]); try (vm_compute; congruence); try (by repeat constructor).
  - intros a1 a2 Ha Hne. destruct a1 as [|c1 [|c2 [|c3 [|c4 [|c5 a1]]]]]; vm_compute in Ha; simplify_eq;
      try reflexivity. destruct a1; [by destruct a2 | done].
Defined.
