(* ===== verification/PopperQueues.v ===== *)
(** * The popper's side of the queues: [init], the three ways to pop, and the
    settings of [start] ([src/applib/fixio/fix_popper.cpp])

    [Splitter] models what is done with one entry; here the entries are those of
    the delta and echo rings of [Disruptor], with the cursors [FIX_Popper] keeps.
    A call happens at once: a call that would wait for another thread is [Waits]
    and changes nothing; the interleavings inside the ring are those of
    [Disruptor]. *)
From S2P Require Import Prelude Primitives FixTypes Disruptor RingQueue.
From S2P Require Splitter Popper PusherControl.

Abbreviation delta_t := Splitter.delta_t.
Abbreviation block := Splitter.block.

Definition DELTA_QUEUE_LENGTH : Z := 128.
Definition DELTA_ENTRY_PROCESSORS : nat := 8.
Definition ECHO_QUEUE_LENGTH : Z := 512.
Definition ECHO_ENTRY_PROCESSORS : nat := 1.
Definition FOXTROT_QUEUE_LENGTH : Z := 1024.
Definition FOXTROT_ENTRY_PROCESSORS : nat := 1.

(** ** The delta queue *)

(** [delta_] and the cursors of the one entry processor behind [pop]. *)
Record delta_queue := mkDeltaQueue {
  delta_ : ring delta_t; delta_n_ : Z; delta_cursor_upper_limit_ : Z; delta_reg_number_ : nat }.

Definition set_delta_ (r : ring delta_t) (q : delta_queue) : delta_queue :=
  mkDeltaQueue r (delta_n_ q) (delta_cursor_upper_limit_ q) (delta_reg_number_ q).

Definition no_message : delta_t := Splitter.mkDelta 0 0 Splitter.Null.

(** [init], once the ring is allocated. *)
Definition init_delta : call delta_queue :=
  '(s, n, r) ← barrier_register
                 (ring_buffer_init DELTA_ENTRY_PROCESSORS (replicate (Z.to_nat DELTA_QUEUE_LENGTH) no_message));
  Returns (mkDeltaQueue r s s n).

Record RawMessage := mkRaw { len : Z; msgtype_offset : Z; data : block }.

(** The first [pop]: one message, through the registered processor; [locked] is
    the answer of the mutex, the result is [None] when that failed. *)
Definition pop (locked : bool) (q : delta_queue) : call (option RawMessage * delta_queue) :=
  if negb locked then Returns (None, q)
  else
    let n := delta_n_ q in
    upper ← (if n =? delta_cursor_upper_limit_ q
             then u ← wait_for_blocking (delta_cursor_upper_limit_ q) (delta_ q); Returns (u64 (u + 1))
             else Returns (delta_cursor_upper_limit_ q));
    entry ← defined (show_entry (delta_ q) n);
    let '(sz, off, d, entry) := Splitter.pop entry in
    let r := release_entry (delta_reg_number_ q) n (store_entry n entry (delta_ q)) in
    Returns (Some (mkRaw sz off d), mkDeltaQueue r (u64 (n + 1)) upper (delta_reg_number_ q)).

(** The loop of the second [pop], [k] rounds from [n] on; the offset of the type
    stays in the entry. *)
Fixpoint pop_loop (k : nat) (n : Z) (r : ring delta_t) (messages : list RawMessage)
    : call (list RawMessage * ring delta_t) :=
  match k with
  | O => Returns (messages, r)
  | S k =>
      entry ← defined (show_entry r n);
      let message := mkRaw (Splitter.size entry) (Splitter.msgtype_offset entry) (Splitter.data entry) in
      let r := store_entry n (Splitter.mkDelta 0 (Splitter.msgtype_offset entry) Splitter.Null) r in
      pop_loop k (n + 1) r (messages ++ [message])
  end.

(** The second [pop]: all there is, for a caller with its own registration. *)
Definition pop_batch (reg_number : nat) (cursor : Z) (messages : list RawMessage) (q : delta_queue)
    : call (Z * list RawMessage * delta_queue) :=
  upper ← wait_for_blocking cursor (delta_ q);
  '(messages, r) ← pop_loop (Z.to_nat (upper + 1 - cursor)) cursor (delta_ q) messages;
  Returns (u64 (upper + 1), messages, set_delta_ (release_entry reg_number upper r) q).

Definition register_popper (q : delta_queue) : call (Z * nat * delta_queue) :=
  '(s, n, r) ← barrier_register (delta_ q); Returns (s, n, set_delta_ r q).

Definition unregister_popper (reg_number : nat) (q : delta_queue) : delta_queue :=
  set_delta_ (unregister reg_number (delta_ q)) q.

(** The splitter commits a message. *)
Definition commit_message (m : delta_t) (q : delta_queue) : call delta_queue :=
  r ← publish m (delta_ q); Returns (set_delta_ r q).

(** ** The echo queue *)

Record echo_queue := mkEchoQueue {
  echo_ : ring (list Z); echo_n_ : Z; echo_cursor_upper_limit_ : Z; echo_reg_number_ : nat }.

Definition init_echo : call echo_queue :=
  '(s, n, r) ← barrier_register
                 (ring_buffer_init ECHO_ENTRY_PROCESSORS
                    (replicate (Z.to_nat ECHO_QUEUE_LENGTH) (replicate (Z.to_nat Splitter.ECHO_ENTRY_SIZE) 0)));
  Returns (mkEchoQueue r s s n).

(** [session_pop] first gives back the entry of the call before. *)
Definition session_release (q : echo_queue) : echo_queue :=
  mkEchoQueue (release_entry (echo_reg_number_ q) (u64 (echo_n_ q - 1)) (echo_ q)) (echo_n_ q)
    (echo_cursor_upper_limit_ q) (echo_reg_number_ q).

(** Then it takes the next one, whose bytes stay in the ring. *)
Definition session_take (q : echo_queue) : call (Z * Z * list Z * echo_queue) :=
  let n := echo_n_ q in
  upper ← (if n =? echo_cursor_upper_limit_ q
           then wait_for_blocking (echo_cursor_upper_limit_ q) (echo_ q) ≫= λ u, Returns (u64 (u + 1))
           else Returns (echo_cursor_upper_limit_ q));
  entry ← defined (show_entry (echo_ q) n);
  '(sz, off, d) ← defined (Splitter.session_pop entry);
  Returns (sz, off, d, mkEchoQueue (echo_ q) (u64 (n + 1)) upper (echo_reg_number_ q)).

Definition session_pop (q : echo_queue) : call (Z * Z * list Z * echo_queue) := session_take (session_release q).

Definition commit_session (e : list Z) (q : echo_queue) : call echo_queue :=
  r ← publish e (echo_ q);
  Returns (mkEchoQueue r (echo_n_ q) (echo_cursor_upper_limit_ q) (echo_reg_number_ q)).

(** ** [init] *)

(** What it allocates, and the threads it has created. *)
Record objects := mkObjects {
  o_delta : option delta_queue; o_echo : option echo_queue; o_foxtrot : option (ring (list Z));
  splitter_args_ : bool; sucker_args_ : bool; splitter_threads : nat; sucker_threads : nat }.

(** The answers of the allocator and of [create_detached_thread]. *)
Record answers := mkAnswers {
  delta_ok : bool; echo_ok : bool; foxtrot_ok : bool; splitter_args_ok : bool; splitter_thread_ok : bool;
  sucker_args_ok : bool; sucker_thread_ok : bool }.

(** The constructor. *)
Definition no_objects : objects := mkObjects None None None false false 0 0.

Definition init_foxtrot : ring (list Z) :=
  ring_buffer_init FOXTROT_ENTRY_PROCESSORS
    (replicate (Z.to_nat FOXTROT_QUEUE_LENGTH) (replicate (Z.to_nat Popper.FOXTROT_ENTRY_SIZE) 0)).

(** [init] on a stopped popper.  A stage answers whether to go on. *)
Definition stage (f : objects → call (bool * objects)) (x : bool * objects) : call (bool * objects) :=
  if x.1 then f x.2 else Returns x.

Definition init_stages (a : answers) : list (objects → call (bool * objects)) :=
  [λ o, match o_delta o with
        | Some _ => Returns (true, o)
        | None =>
            if delta_ok a then
              q ← init_delta;
              Returns (true, mkObjects (Some q) (o_echo o) (o_foxtrot o) (splitter_args_ o) (sucker_args_ o)
                               (splitter_threads o) (sucker_threads o))
            else Returns (false, o)
        end;
   λ o, match o_echo o with
        | Some _ => Returns (true, o)
        | None =>
            if echo_ok a then
              q ← init_echo;
              Returns (true, mkObjects (o_delta o) (Some q) (o_foxtrot o) (splitter_args_ o) (sucker_args_ o)
                               (splitter_threads o) (sucker_threads o))
            else Returns (false, o)
        end;
   λ o, match o_foxtrot o with
        | Some _ => Returns (true, o)
        | None =>
            Returns (foxtrot_ok a,
              mkObjects (o_delta o) (o_echo o) (if foxtrot_ok a then Some init_foxtrot else None) (splitter_args_ o)
                (sucker_args_ o) (splitter_threads o) (sucker_threads o))
        end;
   λ o, if splitter_args_ o then Returns (true, o)
        else if splitter_args_ok a then
          Returns (splitter_thread_ok a,
            mkObjects (o_delta o) (o_echo o) (o_foxtrot o) true (sucker_args_ o)
              (if splitter_thread_ok a then S (splitter_threads o) else splitter_threads o) (sucker_threads o))
        else Returns (false, o);
   λ o, if sucker_args_ o then Returns (true, o)
        else if sucker_args_ok a then
          Returns (sucker_thread_ok a,
            mkObjects (o_delta o) (o_echo o) (o_foxtrot o) (splitter_args_ o) true (splitter_threads o)
              (if sucker_thread_ok a then S (sucker_threads o) else sucker_threads o))
        else Returns (false, o)].

Definition init (a : answers) (o : objects) : call (bool * objects) :=
  foldl (λ x f, x ≫= stage f) (Returns (true, o)) (init_stages a).

(** ** The settings of [start] *)

Definition BEGIN_STRING_SIZE : Z := 32.

Record settings := mkSettings {
  begin_string_ : list Z; begin_string_length_ : Z; fix_ver_ : FIX_Version; source_fd_ : Z; db_path : option (list Z);
  closed_fds : list Z }.

Definition make_settings (ver : FIX_Version) : settings :=
  mkSettings (replicate (Z.to_nat BEGIN_STRING_SIZE) 0) 0 ver (-1) None [].

(** [start] of a stopped popper, up to the flags: whether it goes on to release
    the threads.  [timeout_ok] is the answer of [set_recv_timeout], [path_ok] that
    of [set_db_path].  [None] is undefined behaviour, [Some None] the call of
    [abort]. *)
Definition start_settings (soh : Z) (timeout_ok path_ok : bool) (local_cache FIX_ver : option (list Z)) (source_fd : Z)
    (s : settings) : option (option (bool * settings)) :=
  r ← match FIX_ver with
      | None => Some (true, s)
      | Some ver =>
          let s := mkSettings (begin_string_ s) (begin_string_length_ s) (PusherControl.version_of ver) (source_fd_ s)
                     (db_path s) (closed_fds s) in
          if BEGIN_STRING_SIZE <=? zlen ver then Some (false, s)
          else
            b ← PusherControl.snprintf_start (begin_string_ s) BEGIN_STRING_SIZE ver soh;
            str ← cstr b;
            Some (true, mkSettings b (zlen str) (fix_ver_ s) (source_fd_ s) (db_path s) (closed_fds s))
      end;
  let '(ok, s) := r in
  c ← get_at (begin_string_ s) 0;
  if negb ok || (c =? 0) then Some (Some (false, s))
  else
    let set_fd := mkSettings (begin_string_ s) (begin_string_length_ s) (fix_ver_ s) source_fd (db_path s)
                    (if 0 <=? source_fd_ s then closed_fds s ++ [source_fd_ s] else closed_fds s) in
    let s := if 0 <=? source_fd then set_fd else s in
    if (0 <=? source_fd) && negb timeout_ok then Some None
    else if source_fd_ s <? 0 then Some (Some (false, s))
    else
      match local_cache with
      | None => Some (Some (true, s))
      | Some path =>
          Some (Some (path_ok, mkSettings (begin_string_ s) (begin_string_length_ s) (fix_ver_ s) (source_fd_ s)
                                 (if path_ok then Some path else None) (closed_fds s)))
      end.

(** ** The delta ring holds a queue *)

Abbreviation holds := (RingQueue.holds 7).

Definition raw (m : delta_t) : RawMessage :=
  mkRaw (Splitter.size m) (Splitter.msgtype_offset m) (Splitter.data m).

Lemma pop_loop_holds w msgs : ∀ r n acc, holds r n w msgs →
  ∃ r', pop_loop (length msgs) n r acc = Returns (acc ++ (raw <$> msgs), r') ∧ holds r' (w + 1) w []
        ∧ entry_processor_cursors r' = entry_processor_cursors r.
Proof.
  induction msgs as [|m msgs IH]; intros r n acc H.
  - exists r. cbn [length pop_loop fmap list_fmap]. rewrite app_nil_r. split; [done|]. split; [|done].
    replace (w + 1) with n; [done|]. destruct H. zlen_simpl in *. lia.
  - cbn [length pop_loop]. rewrite (holds_show 7 r n w m msgs H). cbn [defined mbind call_mbind cbind].
    fold (raw m).
    destruct (IH _ (n + 1) (acc ++ [raw m]) (holds_take 7 r n w m msgs (Splitter.mkDelta 0 (Splitter.msgtype_offset m) Splitter.Null) H)) as (r' & -> & Hr' & Hc).
    exists r'. split; [by rewrite <- app_assoc|]. by split.
Qed.

(** ** The queue behind the first [pop] *)

Inductive op := Commit (m : delta_t) | Pop.

Definition run_op (o : op) (q : delta_queue) : call (list RawMessage * delta_queue) :=
  match o with
  | Commit m => q ← commit_message m q; Returns ([], q)
  | Pop => '(m, q) ← pop true q; Returns (option_list m, q)
  end.

(** The reference: a bounded queue, one place smaller once something has been
    taken. *)
Definition queue_op (o : op) (s : bool * list delta_t) : call (list RawMessage * (bool * list delta_t)) :=
  match o with
  | Commit m => if zlen s.2 <? (if s.1 then 127 else 128) then Returns ([], (s.1, s.2 ++ [m])) else Waits
  | Pop => match s.2 with [] => Waits | m :: msgs => Returns ([raw m], (true, msgs)) end
  end.

Definition queue_ok (q : delta_queue) (s : bool * list delta_t) (w : Z) : Prop :=
  holds (delta_ q) (delta_n_ q) w s.2
  ∧ entry_processor_cursors (delta_ q) = (if s.1 then delta_n_ q - 1 else 1) :: replicate 7 VACANT
  ∧ delta_n_ q ≤ delta_cursor_upper_limit_ q ≤ w + 1
  ∧ delta_reg_number_ q = O
  ∧ (if s.1 then 2 ≤ delta_n_ q else delta_n_ q = 1).

Lemma queue_op_ok o q s w : queue_ok q s w → w < 2 ^ 62 - 1 →
  match queue_op o s with
  | Returns (a, s') => ∃ q' w', run_op o q = Returns (a, q') ∧ queue_ok q' s' w' ∧ w' ≤ w + 1
  | _ => run_op o q = Waits
  end.
Proof.
  destruct q as [r n upper reg], s as [p msgs]. intros (H & Hc & Hu & Hreg & Hp) Hw. cbn in H, Hc, Hu, Hreg, Hp.
  pose proof (holds_bound _ _ _ _ _ H) as [Hn H0]. subst reg. pose proof (h_len _ _ _ _ _ H) as Hl.
  pose proof (h_first _ _ _ _ _ H) as H1. destruct o as [m|]; cbn [run_op queue_op fst snd].
  - unfold commit_message. cbn [Splitter.size]. set (c := if p then n - 1 else 1) in *.
    assert (Hcb : 1 ≤ c ≤ n ∧ c ≤ w + 1) by (unfold c; destruct p; lia).
    pose proof (holds_commit 7 r n w msgs m c H ltac:(lia)) as Hcom. rewrite Hc in Hcom. change (2 ^ 7 - 1) with 127 in Hcom.
    specialize (Hcom (slowest_one 7 c ltac:(unfold VACANT; lia)) ltac:(lia) ltac:(lia)).
    replace (zlen msgs <? (if p then 127 else 128)) with (w + 1 - c <=? 127)
      by (unfold c; destruct p; apply Bool.eq_iff_eq_true; rewrite Z.leb_le, Z.ltb_lt; lia).
    cbn [delta_]. destruct (w + 1 - c <=? 127).
    + destruct Hcom as (r' & -> & Hr' & Hc' & _). cbn [mbind call_mbind cbind]. exists (mkDeltaQueue r' n upper 0), (w + 1).
      split; [done|]. split; [|lia]. unfold queue_ok. cbn. rewrite Hc'. split_and!; (done || lia).
    + by rewrite Hcom.
  - unfold pop. cbn [negb delta_n_ delta_cursor_upper_limit_ delta_ delta_reg_number_]. unfold wait_for_blocking.
    rewrite (h_read _ _ _ _ _ H). destruct msgs as [|m msgs].
    + cbn in Hl. rewrite (proj2 (Z.eqb_eq n upper)), (proj2 (Z.ltb_lt w upper)) by lia. done.
    + rewrite length_cons in Hl.
      assert (Hup : ∃ upper', (if n =? upper then u ← (if w <? upper then Waits else Returns w); Returns (u64 (u + 1))
                               else Returns upper) = Returns upper' ∧ n + 1 ≤ upper' ≤ w + 1).
      { destruct (Z.eqb_spec n upper) as [<-|]; [|eexists; split; [done | lia]].
        rewrite (proj2 (Z.ltb_ge w n)) by lia. cbn [mbind call_mbind cbind]. eexists. split; [done|].
        unfold u64. rewrite Z.mod_small; lia. }
      destruct Hup as (upper' & -> & Hup). cbn [mbind call_mbind cbind].
      rewrite (holds_show _ _ _ _ _ _ H). cbn [defined cbind Splitter.pop option_list].
      eexists _, w. split; [done|]. split; [|lia]. unfold queue_ok. cbn [fst snd delta_ delta_n_ delta_cursor_upper_limit_ delta_reg_number_].
      assert (Hn1 : u64 (n + 1) = n + 1) by (unfold u64; rewrite Z.mod_small; lia). rewrite Hn1.
      split_and!; try (done || lia).
      * apply holds_release. by eapply holds_take.
      * cbn [release_entry set_cursors entry_processor_cursors store_entry set_buffer]. rewrite Hc. cbn. do 2 f_equal. lia.
Qed.

Definition delta_init : delta_queue := match init_delta with Returns q => q | _ => mkDeltaQueue (ring_buffer_init 0 []) 0 0 0 end.

Lemma init_delta_returns : init_delta = Returns delta_init.
Proof. vm_compute. reflexivity. Qed.

Lemma delta_init_holds : holds (delta_ delta_init) 1 0 [].
Proof. split; try (vm_compute; congruence); done. Qed.

Lemma delta_init_ok : queue_ok delta_init (false, []) 0.
Proof. unfold queue_ok. split; [exact delta_init_holds | split_and!; vm_compute; congruence]. Qed.

(** ** Poppers with their own registration *)

Inductive batch_op := BCommit (m : delta_t) | Batch.

(** A client of the second [pop] with its cursor. *)
Definition run_batch_op (reg : nat) (o : batch_op) (s : Z * delta_queue) : call (list RawMessage * (Z * delta_queue)) :=
  match o with
  | BCommit m => q ← commit_message m s.2; Returns ([], (s.1, q))
  | Batch => '(cursor, messages, q) ← pop_batch reg s.1 [] s.2; Returns (messages, (cursor, q))
  end.

(** The reference: the number of messages committed and those not popped; the
    129th waits for ever. *)
Definition stalling_op (o : batch_op) (s : Z * list delta_t) : call (list RawMessage * (Z * list delta_t)) :=
  match o with
  | BCommit m => if s.1 <? DELTA_QUEUE_LENGTH then Returns ([], (s.1 + 1, s.2 ++ [m])) else Waits
  | Batch => match s.2 with [] => Waits | msgs => Returns (raw <$> msgs, (s.1, [])) end
  end.

Definition batch_ok (s : Z * delta_queue) (t : Z * list delta_t) : Prop :=
  holds (delta_ s.2) s.1 t.1 t.2 ∧ t.1 ≤ 128
  ∧ ∃ c, 1 ≤ c ≤ 128 ∧ entry_processor_cursors (delta_ s.2) = 1 :: c :: replicate 6 VACANT.

Lemma slowest_two c : 1 ≤ c → slowest (1 :: c :: replicate 6 VACANT) VACANT = 1.
Proof.
  intros H. cbn [slowest foldl replicate]. change (1 <? VACANT) with true. cbn iota.
  by rewrite (proj2 (Z.ltb_ge c 1)) by lia.
Qed.

Lemma batch_op_ok o s t : batch_ok s t →
  match stalling_op o t with
  | Returns (a, t') => ∃ s', run_batch_op 1 o s = Returns (a, s') ∧ batch_ok s' t'
  | _ => run_batch_op 1 o s = Waits
  end.
Proof.
  destruct s as [n q], t as [w msgs]. intros (H & H128 & c & Hc & Hcs). cbn [fst snd] in *.
  pose proof (holds_bound _ _ _ _ _ H) as [Hn H0]. pose proof (h_len _ _ _ _ _ H) as Hl.
  pose proof (h_first _ _ _ _ _ H) as H1. pose proof (h_lap _ _ _ _ _ H) as Hlap.
  destruct o as [m|]; cbn [run_batch_op stalling_op fst snd].
  - unfold commit_message. pose proof (holds_commit 7 (delta_ q) n w msgs m 1 H) as Hcom. rewrite Hcs in Hcom. change (2 ^ 7 - 1) with 127 in Hcom.
    change DELTA_QUEUE_LENGTH with 128. destruct (Z.ltb_spec w 128) as [Hlt|Hge].
    + specialize (Hcom ltac:(lia) (slowest_two c ltac:(lia)) ltac:(lia) ltac:(lia)).
      rewrite (proj2 (Z.leb_le _ _)) in Hcom by lia. destruct Hcom as (r' & -> & Hr' & Hc' & _).
      cbn [mbind call_mbind cbind]. eexists. split; [done|]. split; [exact Hr'|]. cbn [fst snd set_delta_ delta_].
      rewrite Hc'. split; [lia | eauto].
    + specialize (Hcom ltac:(lia) (slowest_two c ltac:(lia)) ltac:(lia) ltac:(lia)).
      rewrite (proj2 (Z.leb_gt _ _)) in Hcom by lia. by rewrite Hcom.
  - unfold pop_batch, wait_for_blocking. rewrite (h_read _ _ _ _ _ H). destruct msgs as [|m msgs].
    + cbn in Hl. by rewrite (proj2 (Z.ltb_lt w n)) by lia.
    + rewrite (proj2 (Z.ltb_ge w n)) by (llia). cbn [mbind call_mbind cbind].
      destruct (pop_loop_holds w (m :: msgs) (delta_ q) n [] H) as (r' & Hr & Hr' & Hc').
      replace (Z.to_nat (w + 1 - n)) with (length (m :: msgs)) by lia. rewrite Hr. cbn [cbind app].
      eexists. split; [done|]. unfold batch_ok. cbn [fst snd set_delta_ delta_].
      assert (Hu : u64 (w + 1) = w + 1) by (unfold u64; rewrite Z.mod_small; lia). rewrite Hu.
      split; [by apply holds_release | split; [done|]]. exists w. split; [llia|].
      cbn [release_entry set_cursors entry_processor_cursors]. by rewrite Hc', Hcs.
Qed.

(** The state after [init] and [register_popper]. *)
Definition batch_start : Z * delta_queue :=
  match register_popper delta_init with Returns (cursor, _, q) => (cursor, q) | _ => (0, delta_init) end.

Lemma register_popper_returns :
  (q ← init_delta; register_popper q) = Returns (batch_start.1, 1%nat, batch_start.2).
Proof. vm_compute. reflexivity. Qed.

Lemma batch_start_ok : batch_ok batch_start (0, []).
Proof.
  split; [|split; [done|]].
  - split; try (vm_compute; congruence); done.
  - exists 1. split; [lia | vm_compute; reflexivity].
Qed.

(** ** Properties *)

(** C11: the delta queue behind the first [pop] is a bounded queue: from [init]
    on, in every sequence of calls each message committed is popped once, in
    order, with its length, type offset and data; [pop] waits exactly when there
    is none, and the splitter exactly when 127 are waiting (128 before the first
    [pop]). *)
Theorem delta_queue_is_fifo ops :
  Z.of_nat (length ops) < 2 ^ 62 - 1 →
  out (q ← init_delta; run run_op ops q) = out (run queue_op ops (false, [])).
Proof.
  intros Hlen. rewrite init_delta_returns. cbn [mbind call_mbind cbind].
  apply (run_out run_op queue_op (λ w q s, queue_ok q s w) ops (2 ^ 62 - 1)) with 0; [| | exact delta_init_ok | lia].
  - intros o w q s Hok Hw. by apply queue_op_ok.
  - intros [m|] [p [|x msgs]]; cbn [queue_op fst snd]; repeat case_match; done.
Qed.

Definition commits (ops : list batch_op) : Z :=
  zlen (List.filter (λ o, match o with BCommit _ => true | Batch => false end) ops).

Lemma stalling_commits ops : ∀ s x, run stalling_op ops s = Returns x → s.1 ≤ 128 → s.1 + commits ops ≤ 128.
Proof.
  unfold commits. induction ops as [|[m|] ops IH]; intros [w msgs] x; cbn [run stalling_op fst snd List.filter].
  - cbn. lia.
  - change DELTA_QUEUE_LENGTH with 128. destruct (Z.ltb_spec w 128); [|done]. cbn [mbind call_mbind cbind].
    destruct (run stalling_op ops (w + 1, msgs ++ [m])) as [y| |] eqn:E; [|done..]. intros _ _.
    apply IH in E; cbn [fst] in *; llia.
  - destruct msgs as [|m msgs]; [done|]. cbn [mbind call_mbind cbind].
    destruct (run stalling_op ops (w, [])) as [y| |] eqn:E; [|done..]. intros _ Hw. by apply IH in E.
Qed.

Lemma stalling_defined ops : ∀ s, run stalling_op ops s ≠ Undefined.
Proof.
  induction ops as [|[m|] ops IH]; intros [w msgs]; cbn [run stalling_op fst snd]; [done|..].
  - destruct (w <? DELTA_QUEUE_LENGTH); [|done]. cbn [mbind call_mbind cbind].
    specialize (IH (w + 1, msgs ++ [m])). by destruct (run stalling_op ops _) as [[]| |].
  - destruct msgs as [|m msgs]; [done|]. cbn [mbind call_mbind cbind].
    specialize (IH (w, [])). by destruct (run stalling_op ops _) as [[]| |].
Qed.

(** C38: a client that registers a popper of its own and uses the second [pop]
    gets the messages in order, all that are there at each call; but the entry
    processor [init] has registered for the first [pop] never moves on, so after
    128 messages the splitter waits for ever, however many the client has
    taken. *)
Theorem registered_poppers_stall ops :
  let client := out ('(cursor, reg, q) ← (q ← init_delta; register_popper q); run (run_batch_op reg) ops (cursor, q)) in
  client = out (run stalling_op ops (0, [])) ∧ (DELTA_QUEUE_LENGTH < commits ops → client = Waits).
Proof.
  intros client. assert (Heq : client = out (run stalling_op ops (0, []))); [unfold client; clear client|].
  2: { split; [done|]. rewrite Heq. intros Hc. change DELTA_QUEUE_LENGTH with 128 in Hc. unfold out.
       pose proof (stalling_defined ops (0, [])) as Hd. pose proof (stalling_commits ops (0, [])) as Hb.
       destruct (run stalling_op ops (0, [])) as [x| |]; [|done..]. specialize (Hb x eq_refl). cbn in Hb. lia. }
  rewrite register_popper_returns. cbn [mbind call_mbind cbind]. destruct batch_start as [cursor q] eqn:E.
  cbn [fst snd]. apply (run_out (run_batch_op 1) stalling_op (λ _, batch_ok) ops (Z.of_nat (length ops))) with 0.
  - intros o w s t Hok _. pose proof (batch_op_ok o s t Hok) as H.
    destruct (stalling_op o t) as [[a t']| |]; [|done..]. destruct H as (s' & ? & ?). exists s', w. split_and!; (done || lia).
  - intros [m|] [n [|x msgs]]; cbn [stalling_op fst snd]; repeat case_match; done.
  - rewrite <- E. apply batch_start_ok.
  - lia.
Qed.

Definition echo_init : echo_queue :=
  let entries := replicate (Z.to_nat ECHO_QUEUE_LENGTH) (replicate (Z.to_nat Splitter.ECHO_ENTRY_SIZE) 0) in
  mkEchoQueue (mkRing (zlen entries - 1) 0 0 0 [1] entries) 1 1 O.

Lemma init_echo_returns : init_echo = Returns echo_init.
Proof. unfold init_echo, ECHO_ENTRY_PROCESSORS. by rewrite register_fresh. Qed.

(** What a thread has to do with its arguments. *)
Definition threads_ok (o : objects) : Prop :=
  (splitter_threads o ≤ if splitter_args_ o then 1 else 0)%nat
  ∧ (sucker_threads o ≤ if sucker_args_ o then 1 else 0)%nat.

Definition complete (o : objects) : Prop :=
  is_Some (o_delta o) ∧ is_Some (o_echo o) ∧ is_Some (o_foxtrot o) ∧ splitter_args_ o = true ∧ sucker_args_ o = true.

Ltac init_cbn :=
  cbn -[init_delta init_echo init_foxtrot delta_init echo_init Nat.le];
  try (rewrite init_delta_returns; cbn -[init_echo init_foxtrot delta_init echo_init Nat.le]);
  try (rewrite init_echo_returns; cbn -[init_foxtrot delta_init echo_init Nat.le]).

(** One decision of [init]. *)
Ltac init_case :=
  match goal with |- context[match ?b with _ => _ end] => is_var b; destruct b; init_cbn end.

(** whatever the allocator and the threads library answer, [init] returns;
    however often it is called each thread is created at most once, nothing that
    is there is replaced, it answers 1 only when everything is allocated, and
    then every later call changes nothing. *)
Theorem init_calls a o :
  threads_ok o →
  ∃ ok o', init a o = Returns (ok, o') ∧ threads_ok o'
    ∧ (∀ q, o_delta o = Some q → o_delta o' = Some q) ∧ (∀ q, o_echo o = Some q → o_echo o' = Some q)
    ∧ (ok = true → complete o') ∧ (complete o → ok = true ∧ o' = o).
Proof.
  destruct a as [ad ae af aa at' as' ast], o as [d e f sa ka st kt]. intros Ht.
  unfold init, init_stages, stage. 
  init_cbn. repeat init_case.
  all: eexists _, _; split; [reflexivity|]; unfold threads_ok, complete in *;
    cbn [o_delta o_echo o_foxtrot splitter_args_ sucker_args_ splitter_threads sucker_threads] in *;
    split; [lia | split; [congruence | split; [congruence | split]]];
    [intros ?; first [discriminate | repeat split; eauto]
    | intros ([? ?] & [? ?] & [? ?] & ? & ?); first [discriminate | done]].
Qed.

(** once the creation of the splitter thread has failed, its arguments stay
    behind: the next [init] skips the thread and answers 1 without it, so
    [start] will wait for ever. *)
Theorem init_forgets_thread a a' :
  delta_ok a = true → echo_ok a = true → foxtrot_ok a = true → splitter_args_ok a = true → splitter_thread_ok a = false →
  sucker_args_ok a' = true → sucker_thread_ok a' = true →
  ∃ o o', init a no_objects = Returns (false, o) ∧ init a' o = Returns (true, o')
    ∧ complete o' ∧ splitter_threads o' = O ∧ sucker_threads o' = 1%nat.
Proof.
  destruct a as [ad ae af aa at' as' ast], a' as [bd be bf ba bt bs bst]. cbn. intros -> -> -> -> -> -> ->.
  init_cbn. eexists _, _. split; [reflexivity|]. init_cbn. split; [reflexivity|]. cbn. unfold complete. cbn. eauto 10.
Qed.

Definition begin_text (ver : list Z) (soh : Z) : list Z := bytes_of_string "8=" ++ ver ++ [soh] ++ bytes_of_string "9=".

Lemma snprintf_start_spec b ver soh : zlen b = 32 → Forall (λ c, c ≠ 0) ver → soh ≠ 0 →
  ∃ b', PusherControl.snprintf_start b BEGIN_STRING_SIZE ver soh = Some b' ∧ zlen b' = 32
        ∧ cstr b' = Some (take 31 (begin_text ver soh)).
Proof.
  intros Hb Hv Hs. unfold PusherControl.snprintf_start. change (Z.to_nat (BEGIN_STRING_SIZE - 1)) with 31%nat.
  fold (begin_text ver soh). set (t := take 31 (begin_text ver soh)).
  assert (Ht : zlen t ≤ 31) by (unfold t; rewrite length_take; lia).
  assert (Hn : Forall (λ c, c ≠ 0) t).
  { apply Forall_take. unfold begin_text. rewrite !Forall_app. repeat split; [by repeat constructor | done | by repeat constructor | by repeat constructor]. }
  clearbody t. destruct (write_at_inside b 0 (t ++ [0])) as [b' Hw]; [lia | rewrite length_app; cbn [length]; lia |].
  exists b'. split; [done|]. split; [apply write_at_length in Hw; lia|].
  apply write_at_split in Hw as (pre & old & post & -> & -> & Hpre & Hold).
  destruct pre; [|cbn [length] in Hpre; lia]. cbn [app]. rewrite <- app_assoc. by apply cstr_app.
Qed.

(** [start] of a stopped popper with a FIX version of fewer than 32
    characters and a descriptor goes on to release the threads, with the
    settings asked for; the text a message must begin with is the version
    between "8=" and the delimiter and "9=", as long as the version has at most
    26 characters: the rest of a longer one is cut off. *)
Theorem popper_start_settings soh ver path fd s :
  zlen (begin_string_ s) = 32 → Forall (λ c, c ≠ 0) ver → soh ≠ 0 → zlen ver < 32 → 0 ≤ fd →
  ∃ s', start_settings soh true true (Some path) (Some ver) fd s = Some (Some (true, s'))
    ∧ cstr (begin_string_ s') = Some (take 31 (begin_text ver soh))
    ∧ begin_string_length_ s' = Z.min 31 (zlen ver + 5)
    ∧ (begin_string_length_ s' = zlen (begin_text ver soh) ↔ zlen ver ≤ 26)
    ∧ fix_ver_ s' = PusherControl.version_of ver ∧ source_fd_ s' = fd ∧ db_path s' = Some path
    ∧ zlen (begin_string_ s') = 32.
Proof.
  intros Hb Hv Hs Hlen Hfd. destruct (snprintf_start_spec (begin_string_ s) ver soh Hb Hv Hs) as (b & Hp & Hb' & Hc).
  unfold start_settings. unfold BEGIN_STRING_SIZE at 1. rewrite (proj2 (Z.leb_gt 32 (zlen ver))) by done.
  cbn [begin_string_]. rewrite Hp. obind. rewrite Hc. obind. cbn [begin_string_].
  assert (Ht : zlen (begin_text ver soh) = zlen ver + 5) by (unfold begin_text; rewrite !length_app; cbn; lia).
  assert (Hg : get_at b 0 = Some 56).
  { destruct b as [|x b]; [cbn in Hb'; lia|]. unfold begin_text in Hc. cbn in Hc. unfold get_at. cbn.
    destruct (x =? 0); [done|]. by destruct (cstr b); cbn in Hc; simplify_eq. }
  rewrite Hg. cbn [negb orb Z.eqb mbind option_bind andb source_fd_ db_path closed_fds begin_string_ fix_ver_ begin_string_length_].
  rewrite (proj2 (Z.leb_le 0 fd)) by done. cbn [andb negb source_fd_]. rewrite (proj2 (Z.ltb_ge fd 0)) by done.
  eexists. split; [reflexivity|]. cbn [begin_string_ begin_string_length_ fix_ver_ source_fd_ db_path].
  assert (Hz : zlen (take 31 (begin_text ver soh)) = Z.min 31 (zlen ver + 5)) by (rewrite length_take; lia).
  rewrite Hz, Ht. split_and!; try done; lia.
Qed.

(** ** Where the parts do not fit together *)

Definition demo_message (k : Z) : delta_t := Splitter.mkDelta 3 1 (Splitter.Block [k; k; k]).

(** entries that more than one popper takes.  A message [pop] has taken is
    a null pointer for a registered popper, and a popper that registers late
    begins with entries taken long ago.  A refused [start] changes the version,
    and a [start] with the descriptor in use closes it. *)
Theorem popper_defects :
  out (q ← init_delta; '(cursor, reg, q) ← register_popper q; q ← commit_message (demo_message 7) q;
       '(m, q) ← pop true q; '(_, ms, q) ← pop_batch reg cursor [] q; Returns (option_list m ++ ms, q))
  = Returns [mkRaw 3 1 (Splitter.Block [7; 7; 7]); mkRaw 0 0 Splitter.Null]
  ∧ out (q ← init_delta; '(ms, q) ← run run_op [Commit (demo_message 7); Pop; Commit (demo_message 8); Pop] q;
         '(cursor, reg, q) ← register_popper q; '(_, ms', q) ← pop_batch reg cursor [] q; Returns (ms', q))
    = Returns [mkRaw 0 0 Splitter.Null; mkRaw 0 0 Splitter.Null]
  ∧ (∀ soh t p path fd ver s, 32 ≤ zlen ver → zlen (begin_string_ s) = 32 →
       start_settings soh t p path (Some ver) fd s
       = Some (Some (false, mkSettings (begin_string_ s) (begin_string_length_ s) (PusherControl.version_of ver)
                              (source_fd_ s) (db_path s) (closed_fds s))))
  ∧ (∀ soh c s, get_at (begin_string_ s) 0 = Some c → c ≠ 0 → 0 ≤ source_fd_ s →
       ∃ s', start_settings soh true true None None (source_fd_ s) s = Some (Some (true, s'))
             ∧ source_fd_ s' = source_fd_ s ∧ closed_fds s' = closed_fds s ++ [source_fd_ s]).
Proof.
  split; [vm_compute; reflexivity|]. split; [vm_compute; reflexivity|]. split.
  - intros soh t p path fd ver s Hl Hb. unfold start_settings, BEGIN_STRING_SIZE.
    rewrite (proj2 (Z.leb_le 32 (zlen ver))) by done. obind. cbn [begin_string_].
    destruct (begin_string_ s) as [|c b]; [cbn in Hb; lia|]. done.
  - intros soh c s Hg Hc Hfd. unfold start_settings. obind. rewrite Hg. obind.
    rewrite (proj2 (Z.eqb_neq c 0)), (proj2 (Z.leb_le 0 (source_fd_ s))) by done.
    cbn [negb orb andb source_fd_ closed_fds]. rewrite (proj2 (Z.ltb_ge (source_fd_ s) 0)) by done.
    eexists. split; [reflexivity|]. by cbn.
Qed.

(** ** Concrete runs *)

Definition demo_ops : list op := [Commit (demo_message 1); Commit (demo_message 2); Pop; Commit (demo_message 3); Pop; Pop].

Lemma delta_queue_is_fifo_witness :
  out (q ← init_delta; run run_op demo_ops q) = Returns (raw <$> [demo_message 1; demo_message 2; demo_message 3]).
Proof.
  rewrite (delta_queue_is_fifo demo_ops).
  - vm_compute. reflexivity.
  - vm_compute. reflexivity.
Defined.

Definition demo_batches : list batch_op := concat (replicate 129 [BCommit (demo_message 1); Batch]).

Lemma registered_poppers_stall_witness :
  out ('(cursor, reg, q) ← (q ← init_delta; register_popper q); run (run_batch_op reg) demo_batches (cursor, q)) = Waits.
Proof. apply (registered_poppers_stall demo_batches). vm_compute. reflexivity. Defined.

Definition all_is_well : answers := mkAnswers true true true true true true true.

Lemma init_calls_witness : ∃ ok o', init all_is_well no_objects = Returns (ok, o') ∧ threads_ok o'.
Proof.
  assert (H : threads_ok no_objects) by (split; cbn; lia).
  destruct (init_calls all_is_well no_objects H) as (ok & o' & ? & ? & _). by exists ok, o'.
Defined.

Lemma init_forgets_thread_witness :
  ∃ o o', init (mkAnswers true true true true false true true) no_objects = Returns (false, o)
    ∧ init all_is_well o = Returns (true, o') ∧ splitter_threads o' = O.
Proof.
  destruct (init_forgets_thread (mkAnswers true true true true false true true) all_is_well
              eq_refl eq_refl eq_refl eq_refl eq_refl eq_refl eq_refl) as (o & o' & ? & ? & _ & ? & _).
  by exists o, o'.
Defined.

Lemma popper_start_settings_witness :
  ∃ s', start_settings 1 true true (Some (bytes_of_string "db")) (Some (bytes_of_string "FIX.4.4")) 5 (make_settings CUSTOM)
        = Some (Some (true, s')) ∧ cstr (begin_string_ s') = Some (begin_text (bytes_of_string "FIX.4.4") 1).
Proof.
  assert (Hv : Forall (λ c, c ≠ 0) (bytes_of_string "FIX.4.4")) by (vm_compute; repeat constructor; discriminate).
  destruct (popper_start_settings 1 (bytes_of_string "FIX.4.4") (bytes_of_string "db") 5 (make_settings CUSTOM)
              eq_refl Hv ltac:(lia) ltac:(vm_compute; reflexivity) ltac:(lia)) as (s' & H & Hc & _).
  by exists s'.
Defined.

Lemma popper_defects_witness :
  ∃ s', start_settings 1 true true None None 5 (mkSettings (begin_text [70] 1) 6 CUSTOM 5 None []) = Some (Some (true, s'))
        ∧ source_fd_ s' = 5 ∧ closed_fds s' = [5].
Proof.
  apply (proj2 (proj2 (proj2 popper_defects)) 1 56 (mkSettings (begin_text [70] 1) 6 CUSTOM 5 None [])).
  - vm_compute. reflexivity.
  - lia.
  - cbn. lia.
Defined.
