(* ===== verification/Guards.v ===== *)
(** * Guards and file locks
    ([src/stdlib/locks/guard.h], [file_locks.cpp])

    [MutexGuard] is a mutex of the system of the default kind, [SpinlockGuard] a
    spin lock; for the threads of one process, none of which enters twice, they
    behave alike.  [Poppers] uses the first for [FIX_Popper::guard_]. *)
From S2P Require Import Prelude.

Definition EBUSY : Z := 16.

(** Who is inside. *)
Definition guard : Type := option nat.

(** The constructors, with the answer of the system: [None] is the call of
    [abort]. *)
Definition make_guard (rc : Z) : option guard := if rc =? 0 then Some None else None.

(** [enter] of thread [i] returns an error of the system, or waits ([None]) until
    nobody is inside. *)
Definition enter (rc : Z) (i : nat) (g : guard) : option (Z * guard) :=
  if rc =? 0 then match g with None => Some (0, Some i) | Some _ => None end else Some (rc, g).

Definition try_enter (i : nat) (g : guard) : Z * guard :=
  match g with None => (0, Some i) | Some _ => (EBUSY, g) end.

(** Who leaves must be inside. *)
Definition leave (i : nat) (g : guard) : option guard := if decide (g = Some i) then Some None else None.

(** ** File locks *)

Definition LOCK_EX : Z := 2.
Definition LOCK_NB : Z := 4.
Definition LOCK_UN : Z := 8.

Section FileLocks.
Context (flock : Z → Z → Z).

Definition lock_fd (fd : Z) : Z := flock fd (Z.lor LOCK_EX LOCK_NB).
Definition lock_fd_block (fd : Z) : Z := flock fd LOCK_EX.
Definition unlock_fd (fd : Z) : Z := flock fd LOCK_UN.
End FileLocks.

(** ** Lemmas *)

(** An enter that returns without an error is of a thread that is then inside
    alone, and only after that can it leave. *)
Lemma entered rc i g rc' g' : enter rc i g = Some (rc', g') → rc' = 0 ↔ rc = 0 ∧ g = None ∧ g' = Some i.
Proof. unfold enter. destruct (Z.eqb_spec rc 0), g as [j|]; intros [= <- <-]; naive_solver. Qed.

Lemma leave_inside i : leave i (Some i) = Some None.
Proof. unfold leave. by rewrite decide_True. Qed.
