(* ===== verification/Poppers.v ===== *)
(** * Threads that pop the same queue
    ([src/applib/fixio/fix_popper.cpp], the first [pop]; [src/stdlib/locks/guard.h])

    Several threads call [pop] while splitters publish on the delta ring: every
    access of [pop] to the ring, to its cursors and to [guard_] is one step, the
    publishers take those of [Disruptor], and all are interleaved in any order.
    Under the mutex the threads act as the one reader of a broadcast ring, and so
    each message is handed out once. *)
From S2P Require Import Prelude Primitives FixTypes Disruptor RingQueue PopperQueues Guards.
From S2P Require Splitter.

(** ** [pop], access by access *)

(** [Locked]: has entered.  [Numbered n]: has number [n].  [Waiting n], [Seen n],
    [Stored n]: in [wait_for_blocking], before its first load, before its second
    one, and before the limit is incremented.  [Entry n]: before the message is
    read.  [HasRead n m], [Emptied n m], [Released m]: before it is erased, before
    the entry is released, and before the mutex is left. *)
Inductive pop_pc :=
  | Outside | Locked | Numbered (n : Z) | Waiting (n : Z) | Seen (n : Z) | Stored (n : Z) | Entry (n : Z)
  | HasRead (n : Z) (m : RawMessage) | Emptied (n : Z) (m : RawMessage) | Released (m : RawMessage).

(** A message is taken from its entry; a call returns, with nothing if it could
    not lock. *)
Inductive pop_event := Took (m : delta_t) | Returned (m : option RawMessage).

(** One step of thread [i]; [rc] is the answer of the mutex.  The result is [None]
    for an access outside the ring, and for leaving what one has not entered. *)
Definition pop_step (i : nat) (rc : Z) (pc : pop_pc) (q : delta_queue) (m : guard)
    : option (pop_pc * delta_queue * guard * list pop_event) :=
  match pc with
  | Outside =>
      match enter rc i m with
      | None => Some (Outside, q, m, [])
      | Some (r, m) => if r =? 0 then Some (Locked, q, m, []) else Some (Outside, q, m, [Returned None])
      end
  | Locked =>
      Some (Numbered (delta_n_ q),
            mkDeltaQueue (delta_ q) (u64 (delta_n_ q + 1)) (delta_cursor_upper_limit_ q) (delta_reg_number_ q), m, [])
  | Numbered n => Some (if n =? delta_cursor_upper_limit_ q then Waiting n else Entry n, q, m, [])
  | Waiting n => Some (if max_read_cursor (delta_ q) <? n then Waiting n else Seen n, q, m, [])
  | Seen n => Some (Stored n, mkDeltaQueue (delta_ q) (delta_n_ q) (max_read_cursor (delta_ q)) (delta_reg_number_ q), m, [])
  | Stored n =>
      Some (Entry n, mkDeltaQueue (delta_ q) (delta_n_ q) (u64 (delta_cursor_upper_limit_ q + 1)) (delta_reg_number_ q), m, [])
  | Entry n => e ← show_entry (delta_ q) n; Some (HasRead n (raw e), q, m, [Took e])
  | HasRead n x => Some (Emptied n x, set_delta_ (store_entry n no_message (delta_ q)) q, m, [])
  | Emptied n x => Some (Released x, set_delta_ (release_entry (delta_reg_number_ q) n (delta_ q)) q, m, [])
  | Released x => m ← leave i m; Some (Outside, q, m, [Returned (Some x)])
  end.

(** ** The threads together *)

(** What has been taken and what has been returned, each with its thread, in the
    order of time. *)
Record poppers := mkPoppers {
  queue_ : delta_queue; guard_ : guard; threads : list pop_pc; splitters : list (@publisher delta_t);
  committed : list delta_t; took : list (nat * delta_t); returned : list (nat * option RawMessage) }.

Definition took_of (i : nat) (evs : list pop_event) : list (nat * delta_t) :=
  omap (λ e, match e with Took m => Some (i, m) | _ => None end) evs.
Definition returned_of (i : nat) (evs : list pop_event) : list (nat * option RawMessage) :=
  omap (λ e, match e with Returned m => Some (i, m) | _ => None end) evs.

(** Who acts: splitter [i] with the message it publishes, or a thread. *)
Inductive turn := Publishes (i : nat) (m : delta_t) | Pops (i : nat) (rc : Z).

Definition take_turn (o : turn) (s : poppers) : option poppers :=
  match o with
  | Publishes i m =>
      p ← splitters s !! i;
      '(r, p, out) ← pub_step true m (delta_ (queue_ s)) p;
      Some (mkPoppers (set_delta_ r (queue_ s)) (guard_ s) (threads s) (<[i := p]> (splitters s)) (committed s ++ out)
              (took s) (returned s))
  | Pops i rc =>
      pc ← threads s !! i;
      '(pc, q, g, evs) ← pop_step i rc pc (queue_ s) (guard_ s);
      Some (mkPoppers q g (<[i := pc]> (threads s)) (splitters s) (committed s)
              (took s ++ took_of i evs) (returned s ++ returned_of i evs))
  end.

Fixpoint take_turns (os : list turn) (s : poppers) : option poppers :=
  match os with [] => Some s | o :: os => s ← take_turn o s; take_turns os s end.

(** After [init]: [k] threads, [p] splitters. *)
Definition poppers_start (k p : nat) : poppers :=
  mkPoppers delta_init None (replicate k Outside) (replicate p PIdle) [] [] [].

(** ** One reader *)

(** The reader of [Disruptor] the threads are: [n] is the number to be taken
    next, [upper] the limit. *)
Definition between (n upper : Z) : reader := if n =? upper then RWait n else RRead n (upper - 1).

Definition reader_of (pc : pop_pc) (q : delta_queue) : reader :=
  let upper := delta_cursor_upper_limit_ q in
  match pc with
  | Outside | Locked | Released _ => between (delta_n_ q) upper
  | Numbered n => between n upper
  | Waiting n => RWait n
  | Seen n => RLoad n
  | Stored n => RRead n upper
  | Entry n => RRead n (upper - 1)
  | HasRead n _ | Emptied n _ => RDone n (upper - 1)
  end.

(** The thread that has the mutex. *)
Definition inside (s : poppers) : pop_pc := default Outside (i ← guard_ s; threads s !! i).

(** What a thread inside knows. *)
Definition pc_ok (pc : pop_pc) (q : delta_queue) : Prop :=
  let n' := delta_n_ q in let upper := delta_cursor_upper_limit_ q in
  match pc with
  | Outside | Locked | Released _ => n' ≤ upper
  | Numbered n => n' = n + 1 ∧ n ≤ upper
  | Waiting n | Seen n => n' = n + 1 ∧ n = upper
  | Stored n => n' = n + 1 ∧ n ≤ upper
  | Entry n | HasRead n _ | Emptied n _ => n' = n + 1 ∧ n < upper
  end.

(** The message a thread has taken and not yet returned. *)
Definition in_hand (pc : pop_pc) : list (option RawMessage) :=
  match pc with HasRead _ m | Emptied _ m | Released m => [Some m] | _ => [] end.

Definition mine {A} (i : nat) (l : list (nat * A)) : list A := (filter (λ x, x.1 = i) l).*2.

(** The message a publisher has written and not yet committed. *)
Definition written (p : @publisher delta_t) : option (Z * delta_t) :=
  match p with PWritten s v | PCommit s v => Some (s, v) | _ => None end.

(** The buffers of the two rings agree on what is still to be read, and on what
    has been written and not yet committed. *)
Record agree (b : list delta_t) (r : ring delta_t) (lo : Z) (ps : list (@publisher delta_t)) : Prop := {
  g_len : length b = length (buffer r);
  g_read : ∀ t, lo ≤ t ≤ max_read_cursor r → b !! Z.to_nat (entry_index r t) = show_entry r t;
  g_written : ∀ i p s v, ps !! i = Some p → written p = Some (s, v) → show_entry r s = Some v;
  g_lap : ∃ c, entry_processor_cursors r !! 0%nat = Some c ∧ max_read_cursor r ≤ c + reduced_size r }.

(** [a] is the ring of [Disruptor] with one reader that the threads share. *)
Record sim (s : poppers) (a : @system delta_t) : Prop := {
  m_ring : the_ring a = set_buffer (buffer (the_ring a)) (delta_ (queue_ s));
  m_pubs : pubs a = splitters s;
  m_published : published a = committed s;
  m_reader : readers a = [(reader_of (inside s) (queue_ s), (took s).*2)];
  m_reg : delta_reg_number_ (queue_ s) = O;
  m_pc : pc_ok (inside s) (queue_ s);
  m_agree : agree (buffer (the_ring a)) (delta_ (queue_ s)) (has_read (reader_of (inside s) (queue_ s)) + 1) (splitters s);
  m_guard : ∀ i pc, threads s !! i = Some pc → pc ≠ Outside → guard_ s = Some i;
  m_owner : ∀ i, guard_ s = Some i → ∃ pc, threads s !! i = Some pc ∧ pc ≠ Outside;
  m_results : ∀ i, Some <$> (raw <$> mine i (took s))
                = filter (λ m, m ≠ None) (mine i (returned s)) ++ default [] (in_hand <$> threads s !! i) }.

Lemma needs_between n upper : needs (between n upper) = n.
Proof. unfold between. by case_match. Qed.
Lemma has_read_between n upper : has_read (between n upper) = n - 1.
Proof. unfold between. by case_match. Qed.

Abbreviation place r s := (Z.to_nat (entry_index r s)).

(** What a publisher does does not depend on what is in the buffer. *)
Lemma pub_step_buffer b v r (B : list delta_t) p r' p' out : length B = length (buffer r) →
  pub_step b v r p = Some (r', p', out) →
  pub_step b v (set_buffer B r) p
  = Some (set_buffer (match p with PGranted s => <[place r s := v]> B | _ => B end) r', p', out).
Proof.
  intros Hl. destruct r as [m sl mr w c buf]. destruct p as [|b' s n x|s|s|s y|s y]; cbn [pub_step set_buffer buffer entry_processor_cursors
    write_cursor max_read_cursor pub_start set_write].
  - destruct b; by intros [= <- <- <-].
  - destruct (c !! n); [by intros [= <- <- <-]|]. unfold pub_check. cbn [set_slowest reduced_size]. destruct (_ <=? _); by intros [= <- <- <-].
  - destruct (_ =? _); by intros [= <- <- <-].
  - unfold entry_index. cbn [reduced_size] in *. rewrite Hl. destruct (_ <? _)%nat; by intros [= <- <- <-].
  - by intros [= <- <- <-].
  - by intros [= <- <- <-].
Qed.

Lemma agree_quiet B r r' lo ps i p' : agree B r lo ps → quiet r r' → written p' = None → agree B r' lo (<[i := p']> ps).
Proof.
  intros [Hl Hr Hw Hlap] Hq Hp'. pose proof Hq as (E1 & E2 & E3 & E4 & _). split.
  - by rewrite E3.
  - intros t Ht. rewrite E4 in Ht. rewrite (quiet_show r r') by done. unfold entry_index. rewrite E1. by apply Hr.
  - intros j p s v Hj Hp. rewrite (quiet_show r r') by done. destruct (decide (i = j)) as [<-|Hne].
    + apply list_lookup_insert_Some in Hj as [(_ & <- & _)|[? _]]; [congruence | done].
    + rewrite list_lookup_insert_ne in Hj by done. by eapply Hw.
  - by rewrite E1, E2, E4.
Qed.

Lemma needs_read rd : needs rd ≤ has_read rd + 1.
Proof. destruct rd; cbn; lia. Qed.

Section Agree.
Context (N : Z) (a : @system delta_t) (r : ring delta_t) (rd : reader) (log : list delta_t).
Context (HI : Inv 7 1 N a) (Hring : the_ring a = set_buffer (buffer (the_ring a)) r) (Hrd : readers a = [(rd, log)]).
#[local] Abbreviation B := (buffer (the_ring a)).

Lemma same_index t : entry_index (the_ring a) t = entry_index r t.
Proof. by rewrite Hring. Qed.
Lemma same_cursors : entry_processor_cursors (the_ring a) = entry_processor_cursors r.
Proof. by rewrite Hring. Qed.
Lemma same_size : reduced_size (the_ring a) = reduced_size r.
Proof. by rewrite Hring. Qed.
Lemma same_max : max_read_cursor (the_ring a) = max_read_cursor r.
Proof. by rewrite Hring. Qed.

Lemma sizes : reduced_size r = 2 ^ 7 - 1 ∧ zlen B = 2 ^ 7 ∧ 0 ≤ max_read_cursor r ≤ N.
Proof. destruct HI as [(_ & Hs & Hb & Hm & Hw & _) _ _ _ _]. rewrite same_size in Hs. rewrite same_max in Hm. lia. Qed.

Lemma the_reader : reader_ok (the_ring a) (published a) 0 rd log.
Proof. destruct HI as [_ _ _ _ [_ H]]. apply H. by rewrite Hrd. Qed.

(** The place of an entry a publisher holds is not that of one to be read. *)
Lemma place_apart i p s t : pubs a !! i = Some p → Disruptor.claim p = Some s → (∀ b n m, p ≠ PScan b s n m) → needs rd ≤ t ≤ max_read_cursor r →
  place r s ≠ place r t.
Proof.
  intros Hp Hs Hn Ht. destruct HI as [_ _ Hps _ _]. destruct (Hps _ _ Hp) as [Hc Hok]. specialize (Hc s Hs). rewrite same_max in Hc.
  destruct the_reader as ((c & Hcur & Hc1) & _). destruct sizes as (Hsz & _ & _).
  assert (Hw : within 1 (the_ring a) s).
  { destruct p; cbn [Disruptor.claim] in Hs; simplify_eq; try (case_match; simplify_eq; by destruct (Hn _ _ _ eq_refl)); tauto. }
  pose proof (Hw 0%nat c ltac:(lia) Hcur) as Hwc. rewrite same_size in Hwc. apply (index_differs 7); lia.
Qed.

Lemma places_apart i j p p' s s' : pubs a !! i = Some p → pubs a !! j = Some p' → i ≠ j →
  p = PGranted s → (∃ v, written p' = Some (s', v)) → place r s ≠ place r s'.
Proof.
  intros Hp Hp' Hij -> (v & Hv). pose proof HI as [Hr _ Hps Hcl _].
  destruct (Hps _ _ Hp) as [Hc Hw]. specialize (Hc s eq_refl).
  assert (Hs' : Disruptor.claim p' = Some s' ∧ within 1 (the_ring a) s').
  { destruct (Hps _ _ Hp') as [_ Hok]. destruct p'; cbn [written] in Hv; simplify_eq; split; tauto. }
  destruct Hs' as [Hs' Hw']. destruct (Hps _ _ Hp') as [Hc' _]. specialize (Hc' s' Hs').
  rewrite <- !same_index. apply (claims_apart 7 1 N); try done; [by eapply inv_reader0 | lia | lia |].
  intros <-. by eapply Hij, Hcl.
Qed.

Lemma agree_pub i p b v r' p' out lo : agree B r lo (pubs a) → needs rd ≤ lo → pubs a !! i = Some p → 0 ≤ N → N + 2 < 2 ^ 62 →
  pub_step b v r p = Some (r', p', out) →
  agree (match p with PGranted s => <[place r s := v]> B | _ => B end) r' lo (<[i := p']> (pubs a)).
Proof.
  intros Hag Hlo Hi H0 Hmax Hs. pose proof HI as [Hr _ Hps _ _]. destruct (Hps _ _ Hi) as [Hc Hok]. destruct sizes as (Hsz & Hlen & Hm).
  assert (Hwc : write_cursor (the_ring a) = write_cursor r) by by rewrite Hring.
  destruct p as [|b' s n x|s|s|s y|s y]; cbn [pub_step] in Hs.
  - unfold pub_start in Hs. destruct Hr as (_ & _ & _ & Hmr & Hw & _). rewrite Hwc in *. rewrite u64_id in Hs by lia.
    destruct b; injection Hs as <- <- _; eapply agree_quiet; try done. repeat split; cbn; lia.
  - destruct (_ !! n); [injection Hs as <- <- _; by eapply agree_quiet|]. unfold pub_check in Hs.
    destruct (_ <=? _); injection Hs as <- <- _; (eapply agree_quiet; [done | repeat split; cbn; lia | by destruct b']).
  - destruct Hr as (_ & _ & _ & Hmr & Hw & _). rewrite Hwc in *. destruct (Z.eqb_spec (write_cursor r) (u64 (s - 1))) as [E|E];
      injection Hs as <- <- _; (eapply agree_quiet; [done | | done]); [|done]. destruct Hok as [Hb _]. rewrite u64_id in E by lia.
    repeat split; cbn; lia.
  - destruct (_ <? _)%nat eqn:Hin; [|done]. injection Hs as <- <- _. apply Nat.ltb_lt in Hin. specialize (Hc s eq_refl).
    destruct Hag as [Hl Hrd' Hw Hlap]. split.
    + cbn [set_buffer buffer]. by rewrite !length_insert.
    + intros t Ht. cbn [set_buffer max_read_cursor] in Ht. change (entry_index (set_buffer _ r) t) with (entry_index r t).
      unfold show_entry. cbn [set_buffer buffer]. change (entry_index (set_buffer _ r) t) with (entry_index r t).
      pose proof (place_apart i _ s t Hi eq_refl ltac:(done) ltac:(lia)). rewrite !list_lookup_insert_ne by done. by apply Hrd'.
    + intros j p s' w Hj Hp. unfold show_entry. cbn [set_buffer buffer]. change (entry_index (set_buffer _ r) s') with (entry_index r s').
      destruct (decide (i = j)) as [<-|Hne].
      * apply list_lookup_insert_Some in Hj as [(_ & <- & _)|[? _]]; [|done]. cbn in Hp. simplify_eq. by apply list_lookup_insert_eq.
      * rewrite list_lookup_insert_ne in Hj by done.
        pose proof (places_apart i j _ p s s' Hi Hj Hne eq_refl (ex_intro _ w Hp)). rewrite list_lookup_insert_ne by done. by eapply Hw.
    + exact Hlap.
  - injection Hs as <- <- _. destruct Hag as [Hl Hrd' Hw Hlap]. split; try done. intros j p s' w Hj Hp. destruct (decide (i = j)) as [<-|Hne].
    + apply list_lookup_insert_Some in Hj as [(_ & <- & _)|[? _]]; [|done]. eapply Hw; [exact Hi|]. cbn. case_match; exact Hp.
    + rewrite list_lookup_insert_ne in Hj by done. by eapply Hw.
  - injection Hs as <- <- _. destruct Hag as [Hl Hrd' Hw (c & Hcur & Hlap)]. specialize (Hc s eq_refl). destruct Hok as (Hwi & Hsh & Hmx).
    rewrite same_max in *. rewrite u64_id by lia. split.
    + exact Hl.
    + intros t Ht. cbn [set_max_read max_read_cursor] in Ht. change (entry_index (set_max_read _ r) t) with (entry_index r t).
      change (show_entry (set_max_read _ r) t) with (show_entry r t). destruct (decide (t = s)) as [->|].
      * rewrite <- same_index. change (show_entry (the_ring a) s = show_entry r s). rewrite Hsh. symmetry. by eapply Hw.
      * apply Hrd'. lia.
    + intros j p s' w Hj Hp. change (show_entry (set_max_read _ r) s') with (show_entry r s'). destruct (decide (i = j)) as [<-|Hne].
      * apply list_lookup_insert_Some in Hj as [(_ & <- & _)|[? _]]; done.
      * rewrite list_lookup_insert_ne in Hj by done. by eapply Hw.
    + exists c. split; [done|]. cbn [set_max_read max_read_cursor reduced_size]. rewrite <- same_cursors in Hcur.
      specialize (Hwi 0%nat c ltac:(lia) Hcur). rewrite same_size in Hwi. lia.
Qed.
End Agree.

(** ** Simulation *)

Lemma sim_publish N s a i m s' : Inv 7 1 N a → 0 ≤ N → N + 2 < 2 ^ 62 → sim s a → take_turn (Publishes i m) s = Some s' →
  ∃ a', step a a' ∧ sim s' a'.
Proof.
  intros HI H0 Hmax [Hring Hps Hpub Hrd Hreg Hpc Hag Hg Ho Hres]. cbn [take_turn].
  destruct (splitters s !! i) as [p|] eqn:Hi; cbn [mbind option_bind]; [|done].
  destruct (pub_step true m (delta_ (queue_ s)) p) as [[[r' p'] out]|] eqn:Hst; cbn [mbind option_bind]; [|done]. intros [= <-].
  rewrite <- Hps in Hi, Hag.
  pose proof (agree_pub N a _ _ _ HI Hring Hrd i p true m r' p' out _ Hag ltac:(apply needs_read) Hi H0 Hmax Hst) as Hag'.
  pose proof (pub_step_buffer true m _ _ p r' p' out (g_len _ _ _ _ Hag) Hst) as Hst'. rewrite <- Hring in Hst'.
  eexists. split; [by eapply step_pub|].
  split; cbn [the_ring pubs readers published queue_ guard_ threads splitters committed took returned set_delta_ delta_ delta_reg_number_ set_buffer
    buffer]; rewrite <- ?Hps, <- ?Hpub; try done; exact Hag'.
Qed.

Lemma inside_owner s i pc : guard_ s = Some i → threads s !! i = Some pc → inside s = pc.
Proof. intros Hg Ht. unfold inside. rewrite Hg. cbn. by rewrite Ht. Qed.

Lemma mine_app {A} i (l k : list (nat * A)) : mine i (l ++ k) = mine i l ++ mine i k.
Proof. unfold mine. by rewrite filter_app, fmap_app. Qed.

Definition values (evs : list pop_event) : list delta_t := omap (λ e, match e with Took m => Some m | _ => None end) evs.
Definition answers_of (evs : list pop_event) : list (option RawMessage) :=
  omap (λ e, match e with Returned m => Some m | _ => None end) evs.

Lemma took_values i evs : (took_of i evs).*2 = values evs.
Proof. induction evs as [|[m|m] evs IH]; cbn; [done | | done]. by f_equal. Qed.

Lemma mine_cons {A} i j (x : A) l : mine j ((i, x) :: l) = (if decide (i = j) then [x] else []) ++ mine j l.
Proof. unfold mine. rewrite filter_cons. cbn [fst]. by case_decide. Qed.

Lemma mine_took i j evs : mine j (took_of i evs) = if decide (i = j) then values evs else [].
Proof.
  induction evs as [|[m|m] evs IH]; [by case_decide | | exact IH].
  change (took_of i (Took m :: evs)) with ((i, m) :: took_of i evs). rewrite mine_cons, IH. by case_decide.
Qed.
Lemma mine_returned i j evs : mine j (returned_of i evs) = if decide (i = j) then answers_of evs else [].
Proof.
  induction evs as [|[m|m] evs IH]; [by case_decide | exact IH |].
  change (returned_of i (Returned m :: evs)) with ((i, m) :: returned_of i evs). rewrite mine_cons, IH. by case_decide.
Qed.

(** What the step of the thread inside has to show: a step or none of the shared
    reader. *)
Lemma sim_thread s a a' i pc pc' q' g' evs :
  sim s a → threads s !! i = Some pc → inside s = pc → (guard_ s = Some i ∨ guard_ s = None) →
  (pc' ≠ Outside ∧ g' = Some i ∨ pc' = Outside ∧ g' = None) →
  the_ring a' = set_buffer (buffer (the_ring a')) (delta_ q') → pubs a' = pubs a → published a' = published a →
  readers a' = [(reader_of pc' q', (took s).*2 ++ values evs)] → delta_reg_number_ q' = O → pc_ok pc' q' →
  agree (buffer (the_ring a')) (delta_ q') (has_read (reader_of pc' q') + 1) (splitters s) →
  in_hand pc ++ (Some <$> (raw <$> values evs)) = filter (λ m, m ≠ None) (answers_of evs) ++ in_hand pc' →
  sim (mkPoppers q' g' (<[i := pc']> (threads s)) (splitters s) (committed s) (took s ++ took_of i evs)
         (returned s ++ returned_of i evs)) a'.
Proof.
  intros [Hring Hps Hpub Hrd Hreg Hpc Hag Hg Ho Hres] Hi Hin Hgs Hg' R1 R2 R3 R4 R5 R6 R7 Hres'.
  assert (Hnew : <[i := pc']> (threads s) !! i = Some pc') by (apply list_lookup_insert_eq; by eapply lookup_lt_Some).
  assert (Hinside : inside (mkPoppers q' g' (<[i := pc']> (threads s)) (splitters s) (committed s) (took s ++ took_of i evs)
         (returned s ++ returned_of i evs)) = pc').
  { unfold inside. cbn [guard_ threads]. destruct Hg' as [[_ ->]|[-> ->]]; [|done]. cbn. by rewrite Hnew. }
  split; cbn [queue_ guard_ threads splitters committed took returned]; rewrite ?Hinside; try done.
  - congruence.
  - congruence.
  - by rewrite R4, fmap_app, took_values.
  - intros j x Hj Hx. destruct (decide (i = j)) as [<-|Hne].
    + rewrite Hnew in Hj. injection Hj as <-. destruct Hg' as [[_ ?]|[? _]]; done.
    + rewrite list_lookup_insert_ne in Hj by done. specialize (Hg j x Hj Hx). destruct Hgs; congruence.
  - intros j Hj. destruct Hg' as [[Hp Hg']|[_ Hg']]; rewrite Hg' in Hj; [|done]. injection Hj as <-. by exists pc'.
  - intros j. specialize (Hres j). rewrite !mine_app, mine_took, mine_returned. case_decide as Hij.
    + subst j. rewrite Hnew. rewrite Hi in Hres. cbn [fmap option_fmap option_map default] in *.
      rewrite !fmap_app, Hres, filter_app, <- !app_assoc. by f_equal.
    + rewrite list_lookup_insert_ne by done. by rewrite !app_nil_r.
Qed.

Lemma sim_idle s a i evs : sim s a → threads s !! i = Some Outside → values evs = [] → filter (λ m, m ≠ None) (answers_of evs) = [] →
  sim (mkPoppers (queue_ s) (guard_ s) (<[i := Outside]> (threads s)) (splitters s) (committed s) (took s ++ took_of i evs)
         (returned s ++ returned_of i evs)) a.
Proof.
  intros [Hring Hps Hpub Hrd Hreg Hpc Hag Hg Ho Hres] Hi Hv Hr. rewrite list_insert_id by done.
  assert (Ht : (took s ++ took_of i evs).*2 = (took s).*2) by by rewrite fmap_app, took_values, Hv, app_nil_r.
  split; cbn [queue_ guard_ threads splitters committed took returned]; try done.
  - by rewrite Ht.
  - intros j. rewrite !mine_app, mine_took, mine_returned, filter_app. rewrite Hv. specialize (Hres j).
    case_decide; by rewrite ?Hr, ?app_nil_r.
Qed.

Section Step.
Context (N : Z) (s : poppers) (a : @system delta_t) (HI : Inv 7 1 N a) (H0 : 0 ≤ N) (Hmax : N + 2 < 2 ^ 62) (Hsim : sim s a).
#[local] Abbreviation rd := (reader_of (inside s) (queue_ s)).

Lemma shared_reader : reader_ok (the_ring a) (published a) 0 rd (took s).*2.
Proof. apply (the_reader N); [done | apply Hsim]. Qed.

Lemma number_range : 1 ≤ needs rd ≤ max_read_cursor (delta_ (queue_ s)) + 1 ∧ max_read_cursor (delta_ (queue_ s)) ≤ N.
Proof.
  destruct shared_reader as ((c & _ & Hc) & Hn & _). pose proof (m_ring _ _ Hsim) as Hring.
  rewrite (same_max a _ Hring) in Hn. destruct (sizes N a _ HI Hring) as (_ & _ & ?). lia.
Qed.

(** A step of the shared reader. *)
Lemma reader_moves r' rd' out : reader_step 0 (the_ring a) rd = Some (r', rd', out) →
  step a (mkSystem r' (pubs a) [(rd', (took s).*2 ++ out)] (published a)).
Proof.
  intros H. pose proof (m_reader _ _ Hsim) as Hrd. pose proof (step_reader 0 rd (took s).*2 r' rd' out a) as Hs.
  rewrite Hrd in Hs. by apply Hs.
Qed.

(** The reads from and stores into the entry the thread inside holds. *)
Lemma agree_read lo lo' : agree (buffer (the_ring a)) (delta_ (queue_ s)) lo (splitters s) → lo ≤ lo' →
  agree (buffer (the_ring a)) (delta_ (queue_ s)) lo' (splitters s).
Proof. intros [? Hr ? ?] Hlo. split; try done. intros t Ht. apply Hr. lia. Qed.

Lemma agree_erase n v : rd = RDone n (delta_cursor_upper_limit_ (queue_ s) - 1) →
  agree (buffer (the_ring a)) (delta_ (queue_ s)) (n + 1) (splitters s) →
  agree (buffer (the_ring a)) (store_entry n v (delta_ (queue_ s))) (n + 1) (splitters s).
Proof.
  intros Hd [Hl Hr Hw Hlap]. pose proof (m_ring _ _ Hsim) as Hring. pose proof (m_reader _ _ Hsim) as Hrd. pose proof number_range as Hn.
  rewrite Hd in Hn, Hrd. cbn [needs] in Hn. destruct (sizes N a _ HI Hring) as (Hsz & _ & Hm).
  destruct shared_reader as ((c & Hcur & Hc) & _ & _ & Hup & _). rewrite Hd in Hc, Hup. cbn [needs] in Hc.
  rewrite (same_max a _ Hring) in Hup. split.
  - cbn [store_entry set_buffer buffer]. by rewrite length_insert.
  - intros t Ht. cbn [store_entry set_buffer max_read_cursor] in Ht. unfold show_entry, store_entry. cbn [set_buffer buffer].
    change (entry_index (set_buffer _ ?r) t) with (entry_index r t). destruct Hlap as (c' & Hcur' & Hlap).
    rewrite (same_cursors a _ Hring) in Hcur. rewrite Hcur in Hcur'. injection Hcur' as <-.
    rewrite list_lookup_insert_ne; [by apply Hr|]. intros E. symmetry in E. revert E. apply (index_differs 7); lia.
  - intros j p x w Hj Hp. unfold show_entry, store_entry. cbn [set_buffer buffer].
    change (entry_index (set_buffer _ ?r) x) with (entry_index r x). rewrite list_lookup_insert_ne; [by eapply Hw|].
    pose proof Hj as Hj'. rewrite <- (m_pubs _ _ Hsim) in Hj'. intros E. symmetry in E. revert E.
    eapply (place_apart N a _ _ _ HI Hring Hrd j p); [done | by destruct p; cbn in *; simplify_eq | by destruct p | cbn [needs]; lia].
  - exact Hlap.
Qed.

Lemma agree_release n : rd = RDone n (delta_cursor_upper_limit_ (queue_ s) - 1) →
  agree (buffer (the_ring a)) (delta_ (queue_ s)) (n + 1) (splitters s) →
  agree (buffer (the_ring a)) (release_entry 0 n (delta_ (queue_ s))) (n + 1) (splitters s).
Proof.
  intros Hd [Hl Hr Hw (c & Hcur & Hlap)]. split; try done. destruct shared_reader as ((c' & Hcur' & Hc) & _). rewrite Hd in Hc. cbn [needs] in Hc.
  rewrite (same_cursors a _ (m_ring _ _ Hsim)), Hcur in Hcur'. injection Hcur' as <-.
  exists n. cbn [release_entry set_cursors entry_processor_cursors max_read_cursor reduced_size]. split; [|lia].
  apply list_lookup_insert_eq. by eapply lookup_lt_Some.
Qed.

(** A step of the thread inside. *)
Lemma sim_inside i rc pc pc' q' g' evs : threads s !! i = Some pc → inside s = pc → guard_ s = Some i → pc ≠ Outside →
  pop_step i rc pc (queue_ s) (guard_ s) = Some (pc', q', g', evs) →
  let s' := mkPoppers q' g' (<[i := pc']> (threads s)) (splitters s) (committed s) (took s ++ took_of i evs)
              (returned s ++ returned_of i evs) in
  sim s' a ∨ ∃ a', step a a' ∧ sim s' a'.
Proof.
  intros Hi Hin Hg Hpc Hst s'. pose proof number_range as Hn. pose proof shared_reader as (_ & _ & _ & Hrok & Hshow).
  pose proof (m_ring _ _ Hsim) as Hring. pose proof (m_reader _ _ Hsim) as Hrd. pose proof (m_pc _ _ Hsim) as Hok.
  pose proof (m_agree _ _ Hsim) as Hag. pose proof (m_reg _ _ Hsim) as Hreg. pose proof reader_moves as Hmove.
  rewrite Hin in Hn, Hrok, Hshow, Hrd, Hok, Hag, Hmove.
  assert (Hout : ∀ pc2 q2 evs2 a2, pc2 ≠ Outside → the_ring a2 = set_buffer (buffer (the_ring a2)) (delta_ q2) →
    pubs a2 = pubs a → published a2 = published a → readers a2 = [(reader_of pc2 q2, (took s).*2 ++ values evs2)] →
    delta_reg_number_ q2 = O → pc_ok pc2 q2 → agree (buffer (the_ring a2)) (delta_ q2) (has_read (reader_of pc2 q2) + 1) (splitters s) →
    in_hand pc ++ (Some <$> (raw <$> values evs2)) = filter (λ m, m ≠ None) (answers_of evs2) ++ in_hand pc2 →
    sim (mkPoppers q2 (Some i) (<[i := pc2]> (threads s)) (splitters s) (committed s) (took s ++ took_of i evs2)
           (returned s ++ returned_of i evs2)) a2).
  { intros. eapply (sim_thread s a a2 i pc); try done; by left. }
  rewrite Hg in Hst. unfold s'. clear s'. destruct pc as [| |n|n|n|n|n|n m|n m|m]; cbn [pop_step] in Hst; [done|..].
  - injection Hst as <- <- <- <-. left. cbn [reader_of pc_ok] in *. apply Hout; try done; [by rewrite Hrd, app_nil_r|].
    cbn [pc_ok delta_n_ delta_cursor_upper_limit_]. rewrite needs_between in Hn. rewrite u64_id; lia.
  - injection Hst as <- <- <- <-. left. cbn [reader_of pc_ok] in *. unfold between in *.
    destruct (Z.eqb_spec n (delta_cursor_upper_limit_ (queue_ s))) as [E|E];
      (apply Hout; try done; [by rewrite Hrd, app_nil_r | cbn [pc_ok]; lia]).
  - injection Hst as <- <- <- <-. cbn [reader_of pc_ok has_read] in *. destruct (Z.ltb_spec (max_read_cursor (delta_ (queue_ s))) n) as [Hlt|Hge].
    + left. apply Hout; try done. by rewrite Hrd, app_nil_r.
    + right. eexists. split; [apply Hmove; cbn [reader_step]; reflexivity|]. rewrite (same_max a _ Hring), (proj2 (Z.ltb_ge _ _)) by done.
      apply Hout; done.
  - injection Hst as <- <- <- <-. cbn [reader_of pc_ok has_read needs] in *. right. eexists. split; [apply Hmove; cbn [reader_step]; reflexivity|].
    rewrite (same_max a _ Hring) in *. apply Hout; try done. cbn [pc_ok delta_n_ delta_cursor_upper_limit_]. lia.
  - injection Hst as <- <- <- <-. cbn [reader_of pc_ok has_read needs] in *. rewrite (same_max a _ Hring) in *. left.
    assert (Hu : u64 (delta_cursor_upper_limit_ (queue_ s) + 1) = delta_cursor_upper_limit_ (queue_ s) + 1) by (apply u64_id; lia).
    apply Hout; try done; cbn [reader_of pc_ok delta_n_ delta_cursor_upper_limit_]; rewrite Hu.
    + rewrite Hrd, app_nil_r. do 3 f_equal. lia.
    + lia.
  - cbn [reader_of pc_ok has_read needs] in *. rewrite (same_max a _ Hring) in *.
    destruct (show_entry (delta_ (queue_ s)) n) as [e|] eqn:He; cbn [mbind option_bind] in Hst; [|done]. injection Hst as <- <- <- <-.
    assert (Hse : show_entry (the_ring a) n = Some e).
    { rewrite <- He, <- (g_read _ _ _ _ Hag n) by lia. unfold show_entry. by rewrite (same_index a _ Hring). }
    right. eexists. split; [apply Hmove; cbn [reader_step]; rewrite Hse; reflexivity|].
    apply Hout; try done. cbn [reader_of has_read the_ring]. eapply agree_read; [exact Hag | lia].
  - injection Hst as <- <- <- <-. cbn [reader_of pc_ok has_read] in *. left. apply Hout; try done.
    + by rewrite Hrd, app_nil_r.
    + apply agree_erase; [by rewrite Hin | done].
  - injection Hst as <- <- <- <-. rewrite Hreg. cbn [reader_of pc_ok has_read] in *. right. eexists.
    split; [apply Hmove; cbn [reader_step]; reflexivity|].
    assert (Hb : (if n <? delta_cursor_upper_limit_ (queue_ s) - 1 then RRead (n + 1) (delta_cursor_upper_limit_ (queue_ s) - 1) else RWait (n + 1))
                 = between (n + 1) (delta_cursor_upper_limit_ (queue_ s))).
    { unfold between. destruct (Z.eqb_spec (n + 1) (delta_cursor_upper_limit_ (queue_ s))); [rewrite (proj2 (Z.ltb_ge _ _)) by lia | rewrite (proj2 (Z.ltb_lt _ _)) by lia]; done. }
    destruct Hok as [Hn' Hok]. apply Hout; try done; cbn [reader_of pc_ok delta_n_ delta_cursor_upper_limit_ set_delta_ readers]; rewrite ?Hn', ?Hb.
    + cbn [the_ring set_delta_ delta_]. rewrite Hring at 1. done.
    + done.
    + lia.
    + rewrite has_read_between. replace (n + 1 - 1 + 1) with (n + 1) by lia.
      cbn [the_ring release_entry set_cursors buffer set_delta_ delta_]. apply agree_release; [by rewrite Hin | done].
  - rewrite leave_inside in Hst. injection Hst as <- <- <- <-. left. eapply (sim_thread s a a i (Released m) Outside); try done; [by left | by right | by rewrite Hrd, app_nil_r].
Qed.
End Step.

Lemma sim_turn N s a o s' : Inv 7 1 N a → 0 ≤ N → N + 2 < 2 ^ 62 → sim s a → take_turn o s = Some s' →
  sim s' a ∨ ∃ a', step a a' ∧ sim s' a'.
Proof.
  intros HI H0 Hmax Hsim. destruct o as [i m|i rc]; [intros H; right; by eapply sim_publish|]. cbn [take_turn].
  destruct (threads s !! i) as [pc|] eqn:Hi; cbn [mbind option_bind]; [|done].
  assert (Hcase : pc = Outside ∨ pc ≠ Outside) by (destruct pc; [by left | by right..]). destruct Hcase as [->|Hne].
  - cbn [pop_step]. unfold enter.
    destruct (Z.eqb_spec rc 0) as [Hz|Hz]; cycle 1.
    { rewrite (proj2 (Z.eqb_neq rc 0)) by done. intros [= <-]. left. by apply (sim_idle s a i [Returned None]). }
    destruct (guard_ s) as [k|] eqn:Hg; cbn [Z.eqb]; intros [= <-]; left; [rewrite <- Hg; by apply (sim_idle s a i [])|].
    pose proof (m_reader _ _ Hsim) as Hrd. pose proof (m_pc _ _ Hsim) as Hpc. pose proof (m_agree _ _ Hsim) as Hag.
    assert (Hin : inside s = Outside) by (unfold inside; by rewrite Hg). rewrite Hin in Hrd, Hpc, Hag.
    eapply (sim_thread s a a i Outside Locked (queue_ s) (Some i) []); try done; [by right | by left | apply Hsim | by rewrite Hrd, app_nil_r | apply Hsim].
  - pose proof (m_guard _ _ Hsim i pc Hi Hne) as Hg. destruct (pop_step i rc pc (queue_ s) (guard_ s)) as [[[[pc' q'] g'] evs]|] eqn:Hst;
      cbn [mbind option_bind]; [|done]. intros [= <-].
    apply (sim_inside N s a HI Hmax Hsim i rc pc pc' q' g' evs); try done. by eapply inside_owner.
Qed.

Lemma sim_start k p : sim (poppers_start k p) (start_system (delta_ delta_init) 1 p).
Proof.
  split; cbn [poppers_start start_system the_ring pubs readers published queue_ guard_ threads splitters committed took returned];
    try (vm_compute; congruence).
  - split; try (vm_compute; congruence).
    + intros i x s v Hi Hx. apply lookup_replicate in Hi as [-> _]. done.
    + exists 1. split; [reflexivity | vm_compute; congruence].
  - intros i pc Hi Hne. apply lookup_replicate in Hi as [-> _]. done.
  - intros i. unfold mine. cbn. destruct (replicate k Outside !! i) as [pc|] eqn:Hi; [|done].
    apply lookup_replicate in Hi as [-> _]. done.
Qed.

Lemma delta_setup : ring_setup 7 1 DELTA_ENTRY_PROCESSORS (replicate (Z.to_nat DELTA_QUEUE_LENGTH) no_message) (delta_ delta_init).
Proof. unfold ring_setup, DELTA_ENTRY_PROCESSORS. split_and!; try lia; vm_compute; reflexivity. Qed.

(** Every state the threads reach is one of the shared ring. *)
Lemma poppers_reach k p os : ∀ s, take_turns os (poppers_start k p) = Some s → Z.of_nat (length os) + 2 < 2 ^ 62 →
  ∃ a m, (m ≤ length os)%nat ∧ Inv 7 1 (Z.of_nat m) a ∧ sim s a.
Proof.
  enough (H : ∀ os n s a s', reaches n (start_system (delta_ delta_init) 1 p) a → sim s a → take_turns os s = Some s' →
    Z.of_nat (n + length os) + 2 < 2 ^ 62 → ∃ a' m, (m ≤ n + length os)%nat ∧ reaches m (start_system (delta_ delta_init) 1 p) a' ∧ sim s' a').
  { intros s Hs Hlen. destruct (H os 0%nat _ _ s (reaches_refl _) (sim_start k p) Hs Hlen) as (a & m & Hm & Hr & Hsim).
    exists a, m. split; [done|]. split; [|done]. by apply (reachable_inv 7 1 p _ _ _ m a delta_setup Hr ltac:(lia)). }
  clear os. induction os as [|o os IH]; intros n s a s' Hr Hsim; cbn [take_turns length].
  - intros [= <-] _. exists a, n. split_and!; (done || lia).
  - destruct (take_turn o s) as [s1|] eqn:Hs1; cbn [mbind option_bind]; [|done]. intros Hs' Hn.
    pose proof (reachable_inv 7 1 p _ _ _ n a delta_setup Hr ltac:(lia)) as HI.
    destruct (sim_turn (Z.of_nat n) s a o s1 HI ltac:(lia) ltac:(lia) Hsim Hs1) as [Hsim1|(a1 & Hst & Hsim1)].
    + destruct (IH n s1 a s' Hr Hsim1 Hs' ltac:(lia)) as (a' & m & Hm & H). exists a', m. split; [lia | done].
    + destruct (IH (S n) s1 a1 s' ltac:(by eapply reaches_step) Hsim1 Hs' ltac:(lia)) as (a' & m & Hm & H). exists a', m. split; [lia | done].
Qed.

Lemma take_turns_app os os2 s : take_turns (os ++ os2) s = s1 ← take_turns os s; take_turns os2 s1.
Proof. revert s. induction os as [|o os IH]; intros s; [done|]. cbn [app take_turns]. destruct (take_turn o s); cbn; [apply IH | done]. Qed.

(** ** Progress *)

(** The steps a thread inside has left. *)
Definition steps_left (pc : pop_pc) : nat :=
  match pc with
  | Outside => 0 | Locked => 9 | Numbered _ => 8 | Waiting _ => 7 | Seen _ => 6 | Stored _ => 5 | Entry _ => 4
  | HasRead _ _ => 3 | Emptied _ _ => 2 | Released _ => 1
  end.

(** Thread [i] is inside with a message to return or to be taken. *)
Definition served (i : nat) (s : poppers) (pc : pop_pc) : Prop :=
  threads s !! i = Some pc ∧ pc ≠ Outside ∧ (in_hand pc ≠ [] ∨ (length (took s) < length (committed s))%nat).

Section Progress.
Context (N : Z) (s : poppers) (a : @system delta_t) (HI : Inv 7 1 N a) (H0 : 0 ≤ N) (Hmax : N + 2 < 2 ^ 62) (Hsim : sim s a).

Lemma counts : Z.of_nat (length (took s)) = has_read (reader_of (inside s) (queue_ s))
  ∧ zlen (committed s) = max_read_cursor (delta_ (queue_ s)) ∧ (took s).*2 `prefix_of` committed s.
Proof.
  destruct (shared_reader N s a HI Hsim) as (_ & Hn & Hlog & Hrok & _). pose proof (m_published _ _ Hsim) as Hpub.
  pose proof (inv_published _ _ _ _ HI) as Hlen. rewrite Hpub in *. rewrite (same_max a _ (m_ring _ _ Hsim)) in *.
  destruct (number_range N s a HI Hsim) as [H1 _]. split_and!; [|done|rewrite Hlog; apply prefix_take].
  assert (Hl : length (took s) = length (took s).*2) by by rewrite length_fmap. rewrite Hl, Hlog, length_take.
  destruct (reader_of (inside s) (queue_ s)); cbn [needs has_read] in *; lia.
Qed.

Lemma turn_defined o : match o with Publishes i _ => (i < length (splitters s))%nat | Pops i _ => (i < length (threads s))%nat end →
  is_Some (take_turn o s).
Proof.
  destruct o as [i m|i rc]; intros [x Hi]%lookup_lt_is_Some; cbn [take_turn]; rewrite Hi; cbn [mbind option_bind].
  - pose proof Hi as Hi'. rewrite <- (m_pubs _ _ Hsim) in Hi'. pose proof (inv_pubs _ _ _ _ HI _ _ Hi') as [Hc _].
    assert (Hd : is_Some (pub_step true m (delta_ (queue_ s)) x)); [|destruct Hd as [[[r' p'] out] ->]; by eexists].
    destruct x as [|b' y n z|y|y|y w|y w]; cbn [pub_step]; try (by eexists); [destruct (_ !! n); by eexists|].
    pose proof (index_inside 7 1 N _ y (inv_ring _ _ _ _ HI)) as Hin. rewrite (same_index a _ (m_ring _ _ Hsim)), (g_len _ _ _ _ (m_agree _ _ Hsim)) in Hin.
    specialize (Hc y eq_refl). rewrite (same_max a _ (m_ring _ _ Hsim)) in Hc. destruct (sizes N a _ HI (m_ring _ _ Hsim)) as (_ & _ & ?).
    rewrite (proj2 (Nat.ltb_lt _ _)) by (apply Hin; lia). by eexists.
  - destruct x as [| |n|n|n|n|n|n m|n m|m]; cbn [pop_step]; try (by eexists); [unfold enter; destruct (rc =? 0) eqn:Er, (guard_ s); rewrite ?Er; by eexists | |].
    2: { rewrite (m_guard _ _ Hsim i _ Hi ltac:(done)), leave_inside. by eexists. }
    pose proof (m_guard _ _ Hsim i _ Hi ltac:(done)) as Hg. pose proof (inside_owner s i _ Hg Hi) as Hin.
    destruct (shared_reader N s a HI Hsim) as (_ & _ & _ & Hrok & Hshow). pose proof (m_agree _ _ Hsim) as Hag.
    rewrite Hin in Hrok, Hshow, Hag. cbn [reader_of needs has_read] in *. rewrite (same_max a _ (m_ring _ _ Hsim)) in *.
    rewrite <- (g_read _ _ _ _ Hag n) by lia. rewrite <- (same_index a _ (m_ring _ _ Hsim)). pose proof (Hshow n ltac:(lia)) as Hs.
    unfold show_entry in Hs. rewrite Hs. pose proof (inv_published _ _ _ _ HI) as Hlen. rewrite (same_max a _ (m_ring _ _ Hsim)) in Hlen.
    destruct (number_range N s a HI Hsim) as [Hr _]. rewrite Hin in Hr. cbn [reader_of needs] in Hr.
    destruct (lookup_lt_is_Some_2 (published a) (Z.to_nat (n - 1))) as [v ->]; [lia|]. by eexists.
Qed.

(** A turn of the thread inside brings it nearer to its return. *)
Lemma own_turn i pc rc s' : served i s pc → take_turn (Pops i rc) s = Some s' →
  (∃ m, mine i (returned s') = mine i (returned s) ++ [Some m]) ∨ ∃ pc', served i s' pc' ∧ (steps_left pc' < steps_left pc)%nat ∧ mine i (returned s') = mine i (returned s).
Proof.
  intros (Hi & Hne & Hav). pose proof (m_guard _ _ Hsim i _ Hi Hne) as Hg. pose proof (inside_owner s i _ Hg Hi) as Hin.
  destruct counts as (Ht & Hc & _). rewrite Hin in Ht. pose proof (m_pc _ _ Hsim) as Hok. rewrite Hin in Hok.
  cbn [take_turn]. rewrite Hi. cbn [mbind option_bind]. pose proof (lookup_lt_Some _ _ _ Hi) as Hlt.
  destruct pc as [| |n|n|n|n|n|n m|n m|m]; cbn [pop_step in_hand reader_of has_read pc_ok] in *; [done|..].
  - intros [= <-]. right. eexists. split; [split; [by apply list_lookup_insert_eq | split; [done|]] | split; [cbn; lia | cbn; by rewrite app_nil_r]].
    right. cbn. rewrite app_nil_r. naive_solver.
  - intros [= <-]. right. eexists. split; [split; [by apply list_lookup_insert_eq | split; [by case_match|]] | split; [cbn; case_match; cbn; lia | cbn; by rewrite app_nil_r]].
    right. cbn. rewrite app_nil_r. naive_solver.
  - rewrite (proj2 (Z.ltb_ge _ _)) by naive_solver lia. intros [= <-]. right. eexists.
    split; [split; [by apply list_lookup_insert_eq | split; [done|]] | split; [cbn; lia | cbn; by rewrite app_nil_r]]. right. cbn. rewrite app_nil_r. naive_solver.
  - intros [= <-]. right. eexists. split; [split; [by apply list_lookup_insert_eq | split; [done|]] | split; [cbn; lia | cbn; by rewrite app_nil_r]].
    right. cbn. rewrite app_nil_r. naive_solver.
  - intros [= <-]. right. eexists. split; [split; [by apply list_lookup_insert_eq | split; [done|]] | split; [cbn; lia | cbn; by rewrite app_nil_r]].
    right. cbn. rewrite app_nil_r. naive_solver.
  - destruct (show_entry _ n) as [e|]; cbn [mbind option_bind]; [|done]. intros [= <-]. right. eexists.
    split; [split; [by apply list_lookup_insert_eq | split; [done|]] | split; [cbn; lia | cbn; by rewrite app_nil_r]]. by left.
  - intros [= <-]. right. eexists. split; [split; [by apply list_lookup_insert_eq | split; [done|]] | split; [cbn; lia | cbn; by rewrite app_nil_r]]. by left.
  - intros [= <-]. right. eexists. split; [split; [by apply list_lookup_insert_eq | split; [done|]] | split; [cbn; lia | cbn; by rewrite app_nil_r]]. by left.
  - rewrite Hg, leave_inside. intros [= <-]. left. exists m. cbn [returned returned_of omap list_omap]. rewrite mine_app, mine_cons. by rewrite decide_True.
Qed.

(** A turn of another leaves it where it is. *)
Lemma other_turn i pc o s' : served i s pc → (match o with Pops j _ => i ≠ j | _ => True end) → take_turn o s = Some s' →
  served i s' pc ∧ mine i (returned s') = mine i (returned s).
Proof.
  intros (Hi & Hne & Hav) Ho. pose proof (m_guard _ _ Hsim i _ Hi Hne) as Hg. destruct o as [j m|j rc]; cbn [take_turn].
  - destruct (splitters s !! j) as [p|]; cbn [mbind option_bind]; [|done].
    destruct (pub_step true m _ p) as [[[r' p'] out]|]; cbn [mbind option_bind]; [|done]. intros [= <-].
    split; [|done]. split; [done|]. split; [done|]. cbn. destruct Hav as [?|?]; [by left | right; rewrite length_app; lia].
  - destruct (threads s !! j) as [pc'|] eqn:Hj; cbn [mbind option_bind]; [|done].
    assert (pc' = Outside) as ->.
    { assert (Hcase : pc' = Outside ∨ pc' ≠ Outside) by (destruct pc'; [by left | by right..]).
      destruct Hcase as [|Hx]; [done|]. pose proof (m_guard _ _ Hsim j _ Hj Hx). congruence. }
    cbn [pop_step]. rewrite Hg. unfold enter. destruct (rc =? 0) eqn:Er; rewrite ?Er; intros [= <-]; unfold served; cbn [threads took committed returned];
      rewrite list_insert_id, ?app_nil_r by done; (split; [done|]); [done|].
    rewrite mine_app. cbn [returned_of omap list_omap]. rewrite mine_cons, decide_False by congruence. by rewrite !app_nil_r.
Qed.
End Progress.

(** ** Properties *)

(** How often thread [i] gets its turn. *)
Definition turns_of (i : nat) (os : list turn) : nat :=
  length (List.filter (λ o, match o with Pops j _ => (i =? j)%nat | Publishes _ _ => false end) os).

(** The messages the calls of thread [i] have returned, and the one it holds. *)
Definition got (i : nat) (s : poppers) : list RawMessage := omap id (mine i (returned s)).
Definition holding (i : nat) (s : poppers) : list RawMessage := omap id (default [] (in_hand <$> threads s !! i)).

Lemma returned_grows i os : ∀ s s', take_turns os s = Some s' → mine i (returned s) `prefix_of` mine i (returned s').
Proof.
  induction os as [|o os IH]; intros s s'; cbn [take_turns]; [by intros [= <-]|].
  destruct (take_turn o s) as [s1|] eqn:E; cbn [mbind option_bind]; [|done]. intros H. etrans; [|by apply IH].
  destruct o as [j m|j rc]; cbn [take_turn] in E.
  - destruct (splitters s !! j) as [p|]; cbn [mbind option_bind] in E; [|done].
    destruct (pub_step _ _ _ p) as [[[r' p'] out]|]; cbn [mbind option_bind] in E; [|done]. by injection E as <-.
  - destruct (threads s !! j) as [pc|]; cbn [mbind option_bind] in E; [|done].
    destruct (pop_step _ _ pc _ _) as [[[[pc' q'] g'] evs]|]; cbn [mbind option_bind] in E; [|done]. injection E as <-.
    cbn [returned]. rewrite mine_app. by apply prefix_app_r.
Qed.

Lemma only_some {A} (l : list (option A)) : omap id (filter (λ m, m ≠ None) l) = omap id l.
Proof. induction l as [|[x|] l IH]; [done | |]; rewrite filter_cons; case_decide; cbn; rewrite ?IH; done. Qed.
Lemma all_some {A} (l : list A) : omap id (Some <$> l) = l.
Proof. induction l as [|x l IH]; cbn; [done | by rewrite IH]. Qed.

Section Properties.
Context (k p : nat) (os : list turn) (s : poppers).
Context (reached : take_turns os (poppers_start k p) = Some s) (short : Z.of_nat (length os) + 2 < 2 ^ 62).

(** C4: threads that call [pop] at the same time share the queue: whatever the
    order of their accesses and of those of the splitters, no access is outside the
    ring, the messages taken are the first ones committed, in order and each once,
    every thread's calls return the messages it took, in that order, and two threads
    are never inside at once. *)
Theorem popped_once :
  (took s).*2 `prefix_of` committed s
  ∧ (∀ i, raw <$> mine i (took s) = got i s ++ holding i s)
  ∧ (∀ i j x y, threads s !! i = Some x → threads s !! j = Some y → x ≠ Outside → y ≠ Outside → i = j)
  ∧ ∀ o, match o with Publishes i _ => (i < length (splitters s))%nat | Pops i _ => (i < length (threads s))%nat end →
      is_Some (take_turn o s).
Proof.
  destruct (poppers_reach k p os s reached short) as (a & m & Hm & HI & Hsim). split_and!.
  - by destruct (counts _ s a HI Hsim) as (_ & _ & ?).
  - intros i. pose proof (f_equal (omap id) (m_results _ _ Hsim i)) as Hr. by rewrite all_some, omap_app, only_some in Hr.
  - intros i j x y Hi Hj Hx Hy. pose proof (m_guard _ _ Hsim i x Hi Hx). pose proof (m_guard _ _ Hsim j y Hj Hy). congruence.
  - intros o Ho. by apply (turn_defined (Z.of_nat m) s a).
Qed.
End Properties.

(** C5: no call is held up: a thread that is inside and has a message to take
    returns one after at most nine turns of its own, whatever the others do in the
    meantime; inside it waits for nothing but a message. *)
Theorem pop_returns k p os s : take_turns os (poppers_start k p) = Some s → ∀ more s' i pc,
  take_turns more s = Some s' → Z.of_nat (length (os ++ more)) + 2 < 2 ^ 62 → served i s pc → (9 ≤ turns_of i more)%nat →
  ∃ m rest, mine i (returned s') = mine i (returned s) ++ Some m :: rest.
Proof.
  intros Hs more s' i pc Hmore Hlen Hserved Hturns.
  assert (Hleft : (steps_left pc ≤ turns_of i more)%nat) by (destruct pc; cbn; lia). clear Hturns.
  revert os s pc Hs Hmore Hlen Hserved Hleft. induction more as [|o more IH]; intros os s pc Hs Hmore Hlen Hserved Hleft.
  { destruct Hserved as (_ & ? & _). destruct pc; cbn in Hleft; (done || lia). }
  cbn [take_turns] in Hmore. destruct (take_turn o s) as [s1|] eqn:Ho; cbn [mbind option_bind] in Hmore; [|done].
  rewrite length_app, length_cons in Hlen. destruct (poppers_reach k p os s Hs ltac:(lia)) as (a & m & Hm & HI & Hsim).
  assert (Hs1 : take_turns (os ++ [o]) (poppers_start k p) = Some s1) by (rewrite take_turns_app, Hs; cbn; by rewrite Ho).
  assert (Hlen1 : Z.of_nat (length ((os ++ [o]) ++ more)) + 2 < 2 ^ 62) by (rewrite !length_app; cbn; lia).
  destruct (match o with Pops j _ => (i =? j)%nat | _ => false end) eqn:Hmine.
  - destruct o as [|j rc]; [done|]. apply Nat.eqb_eq in Hmine as <-.
    destruct (own_turn (Z.of_nat m) s a HI Hsim i pc rc s1 Hserved Ho) as [(x & Hx)|(pc' & Hserved' & Hless & Hsame)].
    + destruct (returned_grows i more _ _ Hmore) as [rest Hrest]. exists x, rest. by rewrite Hrest, Hx, <- app_assoc.
    + rewrite <- Hsame. apply (IH (os ++ [Pops i rc]) s1 pc'); try done.
      unfold turns_of in *. cbn [List.filter] in Hleft. rewrite Nat.eqb_refl in Hleft. cbn [length] in Hleft. lia.
  - destruct (other_turn s a Hsim i pc o s1 Hserved) as [Hserved' Hsame]; [|done|].
    { destruct o; [done|]. by apply Nat.eqb_neq. }
    rewrite <- Hsame. apply (IH (os ++ [o]) s1 pc); try done. unfold turns_of in *. cbn [List.filter] in Hleft. by rewrite Hmine in Hleft.
Qed.

(** Alone, a thread does what [pop] of [PopperQueues] does. *)
Fixpoint pop_alone (fuel : nat) (i : nat) (rc : Z) (pc : pop_pc) (q : delta_queue) (m : guard)
    : option (option RawMessage * delta_queue) :=
  match fuel with
  | O => None
  | S fuel =>
      '(pc, q, m, evs) ← pop_step i rc pc q m;
      match answers_of evs with x :: _ => Some (x, q) | [] => pop_alone fuel i rc pc q m end
  end.

(** the accesses of [pop], one after the other on a free queue, are the call of
    [PopperQueues]: it returns the same message and leaves the same queue, and
    where that waits it has not returned. *)
Theorem pop_alone_is_pop i rc q :
  pop_alone 10 i rc Outside q None = match pop (rc =? 0) q with Returns x => Some x | _ => None end.
Proof.
  destruct q as [r n upper reg]. unfold pop, wait_for_blocking. cbn [delta_n_ delta_cursor_upper_limit_ delta_ delta_reg_number_].
  destruct (rc =? 0) eqn:Hrc; cbn [negb]; [|cbn; unfold enter; rewrite Hrc; cbn; by rewrite Hrc].
  destruct (Z.eqb_spec n upper) as [->|E].
  - destruct (max_read_cursor r <? upper) eqn:Em; cbn [mbind call_mbind cbind].
    + do 10 (cbn; unfold enter; rewrite ?Hrc, ?Z.eqb_refl, ?Em). done.
    + do 6 (cbn; unfold enter; rewrite ?Hrc, ?Z.eqb_refl, ?Em). destruct (show_entry r upper) as [e|]; cbn; [|done].
      by rewrite leave_inside.
  - cbn. unfold enter. rewrite Hrc. cbn. rewrite (proj2 (Z.eqb_neq n upper)) by done. cbn. destruct (show_entry r n) as [e|]; cbn; [|done].
    by rewrite leave_inside.
Qed.

(** ** Witnesses *)

Definition demo_message : delta_t := Splitter.mkDelta 3 1 (Splitter.Block [65; 66; 67]).

(** Thread 0 enters and waits, thread 1 finds the mutex taken; a message is
    published; thread 0 goes on. *)
Definition demo_before : list turn :=
  [Pops 0 0; Pops 1 0; Pops 0 0; Pops 0 0; Pops 0 0] ++ replicate 14 (Publishes 0 demo_message).
Definition demo_after : list turn := replicate 9 (Pops 0 0) ++ [Pops 1 22].

Definition demo_reached : poppers := default (poppers_start 0 0) (take_turns demo_before (poppers_start 2 1)).
Definition demo_end : poppers := default (poppers_start 0 0) (take_turns demo_after demo_reached).

Lemma demo_served : served 0 demo_reached (Waiting 1).
Proof. split; [vm_compute; reflexivity|]. split; [done|]. right. vm_compute. lia. Qed.

Lemma popped_once_witness :
  take_turns (demo_before ++ demo_after) (poppers_start 2 1) = Some demo_end
  ∧ committed demo_end = [demo_message] ∧ returned demo_end = [(0%nat, Some (raw demo_message)); (1%nat, None)]
  ∧ (took demo_end).*2 `prefix_of` committed demo_end ∧ raw <$> mine 0 (took demo_end) = got 0 demo_end ++ holding 0 demo_end.
Proof.
  assert (H : take_turns (demo_before ++ demo_after) (poppers_start 2 1) = Some demo_end) by (vm_compute; reflexivity).
  destruct (popped_once 2 1 (demo_before ++ demo_after) demo_end H ltac:(vm_compute; reflexivity)) as (H1 & H2 & _).
  split; [exact H|]. split; [vm_compute; reflexivity|]. split; [vm_compute; reflexivity|]. split; [exact H1 | exact (H2 0%nat)].
Defined.

Lemma pop_returns_witness :
  ∃ m rest, mine 0 (returned demo_end) = mine 0 (returned demo_reached) ++ Some m :: rest.
Proof.
  apply (pop_returns 2 1 demo_before demo_reached ltac:(vm_compute; reflexivity) demo_after demo_end 0 (Waiting 1)).
  - vm_compute. reflexivity.
  - vm_compute. reflexivity.
  - exact demo_served.
  - vm_compute. lia.
Defined.
