(* ===== verification/ConfigFile.v ===== *)
(** * The configuration file: [src/stdlib/config/config_file.cpp], [.h]

    The parser works in place on the buffer [read_conf] fills: [p] is an offset
    into it, line ends have become NULs, and every step may write NULs over
    white space.  [None] is an access outside the buffer or a null or dangling
    pointer.  Items are the copies [itemize] makes.  Locks and the allocator's
    failures (which end in -1) are left out; the file system is an argument of
    [read_conf]. *)
From S2P Require Import Prelude.

Definition ch_space : Z := 32.
Definition ch_tab : Z := 9.
Definition ch_cr : Z := 13.
Definition ch_nl : Z := 10.
Definition COMMENT_CHAR : Z := 35.
Definition MAX_CONFIG_FILE_SIZE : Z := 20480.

Definition wspace (c : Z) : bool := (c =? ch_space) || (c =? ch_tab) || (c =? ch_cr).

(** The number of characters before the first one [stop] holds of; [None] when
    there is none. *)
Fixpoint scan (stop : Z → bool) (l : list Z) : option Z :=
  match l with
  | [] => None
  | c :: l => if stop c then Some 0 else n ← scan stop l; Some (1 + n)
  end.

Definition scan_at (stop : Z → bool) (buf : list Z) (p : Z) : option Z :=
  if 0 <=? p then scan stop (drop (Z.to_nat p) buf) else None.

Definition zeros (n : Z) : list Z := replicate (Z.to_nat n) 0.

(** ** [point_to_value]

    The result: the return value, the buffer, [*str] and [*val]. *)
Definition point_to_value (buf : list Z) (str : Z) : option (Z * list Z * Z * option Z) :=
  c ← get_at buf str;
  if wspace c then Some (-1, buf, str, None)
  else
    (* skip past token *)
    n ← scan_at (λ c, wspace c || (c =? 0)) buf str;
    let str := str + n in
    c ← get_at buf str;
    if c =? 0 then Some (0, buf, str, Some str)
    else
      (* skip past whitespace to value *)
      n ← scan_at (λ c, negb (wspace c)) buf str;
      buf ← write_at buf str (zeros n);
      let str := str + n in
      (* remove trailing whitespace: the loop runs backwards from the last
         character of the value *)
      k ← scan_at (λ c, c =? 0) buf str;
      t ← scan (λ c, negb (wspace c)) (rev (take (Z.to_nat (str + k)) buf));
      buf ← write_at buf (str + k - t) (zeros t);
      Some (0, buf, str, Some str).

(** ** [get_next_line]

    [fbuf_] has [fsize_ = zlen buf] bytes; reaching its end sets [*str] to
    null.  The result: the return value, [*str], [lnum_].  Every round moves on,
    so the length of the buffer is fuel enough. *)
Fixpoint get_next_line_loop (fuel : nat) (buf : list Z) (str lnum : Z) : option (Z * option Z * Z) :=
  match fuel with
  | O => None
  | S fuel =>
      (* skip printable characters *)
      match scan_at (λ c, c =? 0) buf str with
      | None => Some (0, None, lnum)
      | Some n =>
          let str := str + n in
          (* skip '\0's *)
          match scan_at (λ c, negb (c =? 0)) buf str with
          | None => Some (0, None, lnum + (zlen buf - str))
          | Some n =>
              let str := str + n in
              let lnum := lnum + n in
              c ← get_at buf str;
              if wspace c then
                match scan_at (λ c, negb (wspace c)) buf str with
                | None => Some (0, None, lnum)
                | Some n =>
                    let str := str + n in
                    c ← get_at buf str;
                    if negb (c =? 0) then Some (-1, Some str, lnum)
                    else get_next_line_loop fuel buf str lnum
                end
              else if negb (c =? COMMENT_CHAR) then Some (0, Some str, lnum)
              else get_next_line_loop fuel buf str lnum
          end
      end
  end.

Definition get_next_line (buf : list Z) (str lnum : Z) : option (Z * option Z * Z) :=
  _ ← get_at buf str; get_next_line_loop (S (length buf)) buf str lnum.

(** ** [itemize] *)

Definition item : Type := list Z * list Z.

(** The [while (true)] loop; [EOF] is the [char] -1, the byte 255.  An item takes
    at least one NUL, so the length of the buffer is fuel enough. *)
Fixpoint itemize_loop (fuel : nat) (buf : list Z) (p : option Z) (lnum : Z) (items : list item)
    : option (Z * list item) :=
  match fuel with
  | O => None
  | S fuel =>
      match p with
      | None => Some (0, items)
      | Some p =>
          c ← get_at buf p;
          if schar c =? -1 then Some (0, items)
          else
            let token := p in
            '(r, buf, p, val) ← point_to_value buf p;
            if negb (r =? 0) then Some (lnum, [])
            else
              val ← val;
              token ← cstr_at buf token;
              value ← cstr_at buf val;
              let items := items ++ [(token, value)] in
              '(r, p, lnum) ← get_next_line buf p lnum;
              if negb (r =? 0) then Some (lnum, []) else itemize_loop fuel buf p lnum items
      end
  end.

(** The return value and [items_]. *)
Definition itemize (buf : list Z) : option (Z * list item) :=
  c ← get_at buf 0;
  if (c =? 0) || wspace c || (c =? COMMENT_CHAR) then
    '(r, p, lnum) ← get_next_line buf 0 1;
    if negb (r =? 0) then Some (lnum, []) else itemize_loop (S (length buf)) buf p lnum []
  else itemize_loop (S (length buf)) buf (Some 0) 1 [].

(** ** Reading and looking up *)

(** What [read_conf] sees of the file system: the result of [stat] on the
    ".ready" file ([true] when it exists, otherwise whether [errno] is ENOENT),
    and the file: its size according to [stat] and its contents. *)
Inductive READ_FILE_RESULT : Set := READ_OK | READ_AGAIN | READ_ERROR.

Record conf_file := mkConf { st_size : Z; f_content : list Z }.

(** Storing one character after the other; the position stays on the last byte
    of the allocation. *)
Fixpoint store_chars (st_size pos : Z) (content buf : list Z) : option (list Z) :=
  match content with
  | [] => Some buf
  | c :: content =>
      let c := if (c =? ch_nl) || (c =? ch_cr) then 0 else c in
      buf ← write_at buf (Z.min pos (Z.max 0 (st_size - 1))) [c];
      store_chars st_size (pos + 1) content buf
  end.

(** The result, [*size] and [*buf].  [aliased] says that the name passed is the
    string [file_name_] itself, which is freed before it is duplicated. *)
Definition read_conf (aliased : bool) (ready : bool) (enoent : bool) (file : option conf_file)
    : option (READ_FILE_RESULT * Z * list Z) :=
  if negb ready then Some (if enoent then READ_AGAIN else READ_ERROR, 0, [])
  else
    match file with
    | None => Some (READ_ERROR, 0, [])
    | Some f =>
        if MAX_CONFIG_FILE_SIZE <? st_size f then Some (READ_ERROR, 0, [])
        else
          buf ← store_chars (st_size f) 0 (f_content f) (zeros (st_size f));
          if aliased then None else Some (READ_OK, zlen (f_content f), buf)
    end.

(** [load]: the file is looked for until the ".ready" file is there; [looks] is
    what successive attempts find, [None] while it still waits.  [-1] leaves no
    items. *)
Fixpoint load (aliased : bool) (looks : list (bool * bool * option conf_file)) : option (option (Z * list item)) :=
  match looks with
  | [] => Some None
  | (ready, enoent, file) :: looks =>
      '(r, size, buf) ← read_conf aliased ready enoent file;
      match r with
      | READ_AGAIN => load aliased looks
      | READ_ERROR => Some (Some (-1, []))
      | READ_OK => buf ← read_at buf 0 size; x ← itemize buf; Some (Some x)
      end
  end.

(** [reload]: without a name yet [load] returns at once. *)
Definition reload (file_name_ : option (list Z)) (items : list item)
    (looks : list (bool * bool * option conf_file)) : option (option (Z * list item)) :=
  match file_name_ with
  | None => Some (Some (-1, items))
  | Some _ => load true looks
  end.

(** [get_value]: the first item with that token. *)
Fixpoint get_value (items : list item) (token : list Z) : option (list Z) :=
  match items with
  | [] => None
  | (t, v) :: items => if bool_decide (token = t) then Some v else get_value items token
  end.

Example itemize_demo :
  itemize (bytes_of_string "# comment" ++ [0] ++ bytes_of_string "A:B:C  some value  " ++ [0; 0]
           ++ bytes_of_string "  " ++ [0] ++ bytes_of_string "TOKEN" ++ [0])
  = Some (0, [(bytes_of_string "A:B:C", bytes_of_string "some value"); (bytes_of_string "TOKEN", [])]).
Proof. vm_compute. reflexivity. Qed.

(** ** The configuration as lines *)

Fixpoint take_while (p : Z → bool) (l : list Z) : list Z :=
  match l with [] => [] | c :: l => if p c then c :: take_while p l else [] end.
Fixpoint drop_while (p : Z → bool) (l : list Z) : list Z :=
  match l with [] => [] | c :: l' => if p c then drop_while p l' else l end.

Definition not_ws (c : Z) : bool := negb (wspace c).

(** "<TOKEN><WHITESPACE><VALUE(S)>[WHITESPACE]" *)
Definition parse_line (l : list Z) : item :=
  (take_while not_ws l,
   rev (drop_while wspace (rev (drop_while wspace (drop_while not_ws l))))).

Inductive line_kind : Set := Blank | Comment | Line | Floating | EofByte.

(** What a line is. *)
Definition kind_of (l : list Z) : line_kind :=
  match l with
  | [] => Blank
  | c :: _ =>
      if wspace c then (if forallb wspace l then Blank else Floating)
      else if c =? COMMENT_CHAR then Comment
      else if schar c =? -1 then EofByte
      else Line
  end.

#[global] Instance line_kind_eq_dec : EqDecision line_kind.
Proof. solve_decision. Defined.

(** What the lines of a file say: [None] when one of them is floating text. *)
Fixpoint read_lines (ls : list (list Z)) : option (list item) :=
  match ls with
  | [] => Some []
  | l :: ls =>
      match kind_of l with
      | Blank | Comment => read_lines ls
      | Line => items ← read_lines ls; Some (parse_line l :: items)
      | Floating => None
      | EofByte => Some []
      end
  end.

(** Floating text on the first line is skipped. *)
Definition read_config (ls : list (list Z)) : option (list item) :=
  match ls with
  | [] => Some []
  | l :: ls' => match kind_of l with Floating => read_lines ls' | _ => read_lines ls end
  end.

(** The buffer: every line with its terminator. *)
Definition buffer (ls : list (list Z)) : list Z := concat ((λ l, l ++ [0]) <$> ls).

Definition no_nul (l : list Z) : Prop := Forall (λ c, c ≠ 0) l.

(** ** Scans *)

Lemma scan_found stop a c r :
  forallb (λ x, negb (stop x)) a = true → stop c = true → scan stop (a ++ c :: r) = Some (zlen a).
Proof.
  intros Ha Hc. induction a as [|x a IH]; cbn [app scan forallb] in *.
  - by rewrite Hc.
  - apply andb_true_iff in Ha as [Hx Ha]. apply negb_true_iff in Hx. rewrite Hx, IH by done. obind.
    f_equal. rewrite length_cons. lia.
Qed.

Lemma scan_none stop a : forallb (λ x, negb (stop x)) a = true → scan stop a = None.
Proof.
  intros Ha. induction a as [|x a IH]; cbn [scan forallb] in *; [done|].
  apply andb_true_iff in Ha as [Hx Ha]. apply negb_true_iff in Hx. by rewrite Hx, IH.
Qed.

Lemma scan_at_mid stop pre a c r p :
  p = zlen pre → forallb (λ x, negb (stop x)) a = true → stop c = true →
  scan_at stop (pre ++ a ++ c :: r) p = Some (zlen a).
Proof.
  intros -> Ha Hc. unfold scan_at. bsolve. rewrite Nat2Z.id, drop_app_length. by apply scan_found.
Qed.

Lemma scan_at_end stop pre a p :
  p = zlen pre → forallb (λ x, negb (stop x)) a = true → scan_at stop (pre ++ a) p = None.
Proof.
  intros -> Ha. unfold scan_at. bsolve. rewrite Nat2Z.id, drop_app_length. by apply scan_none.
Qed.

Lemma forallb_zeros n : forallb (λ x, negb (negb (x =? 0))) (zeros n) = true.
Proof. unfold zeros. induction (Z.to_nat n); done. Qed.

Lemma forallb_no_nul l : no_nul l → forallb (λ x, negb (x =? 0)) l = true.
Proof.
  induction 1 as [|c l Hc _ IH]; [done|]. cbn [forallb]. by rewrite (proj2 (Z.eqb_neq c 0)).
Qed.

Lemma forallb_nn (f : Z → bool) l : forallb f l = true → forallb (λ x, negb (negb (f x))) l = true.
Proof. induction l as [|c l IH]; cbn [forallb]; [done|]. intros [Hc Hl]%andb_true_iff. by rewrite Hc, IH. Qed.

Lemma zeros_S n : 0 ≤ n → zeros (n + 1) = zeros n ++ [0].
Proof.
  intros. unfold zeros. replace (Z.to_nat (n + 1)) with (Z.to_nat n + 1)%nat by lia.
  by rewrite replicate_add.
Qed.

Lemma length_zeros n : 0 ≤ n → zlen (zeros n) = n.
Proof. intros. unfold zeros. rewrite length_replicate. lia. Qed.

Lemma wspace_nul : wspace 0 = false.
Proof. reflexivity. Qed.

Lemma buffer_cons l ls : buffer (l :: ls) = l ++ 0 :: buffer ls.
Proof. unfold buffer. cbn [fmap list_fmap concat]. by rewrite <- app_assoc. Qed.

(** ** The next line *)

(** Blank lines and comments skipped: the rest from the first other line on. *)
Fixpoint skip_lines (ls : list (list Z)) : list (list Z) :=
  match ls with
  | [] => []
  | l :: ls' => match kind_of l with Blank | Comment => skip_lines ls' | _ => ls end
  end.

Lemma take_drop_while p l : take_while p l ++ drop_while p l = l.
Proof. induction l as [|c l IH]; cbn; [done|]. destruct (p c); cbn; by rewrite ?IH. Qed.

Lemma take_while_all p l : forallb p (take_while p l) = true.
Proof. induction l as [|c l IH]; cbn; [done|]. destruct (p c) eqn:E; cbn; [by rewrite E, IH | done]. Qed.

Lemma drop_while_head p l c r : drop_while p l = c :: r → p c = false.
Proof.
  induction l as [|x l IH]; cbn; [done|]. destruct (p x) eqn:E; [done|]. by intros [= <- <-].
Qed.

Lemma drop_while_nil p l : forallb p l = true ↔ drop_while p l = [].
Proof. induction l as [|x l IH]; cbn; [done|]. destruct (p x); cbn; [done|]. split; done. Qed.

Lemma zeros_pos k : 1 ≤ k → zeros k = 0 :: zeros (k - 1).
Proof. intros H. unfold zeros. by replace (Z.to_nat k) with (S (Z.to_nat (k - 1))) by lia. Qed.

(** Where the scan over NULs of a round ends when another line follows. *)
Definition line_start (pre v : list Z) (k : Z) : Z := zlen (pre ++ v ++ zeros k).

(** One round of the loop up to the first character of the next non-empty line. *)
Lemma round_spec fuel pre v k c l ls lnum :
  no_nul v → c ≠ 0 → 1 ≤ k →
  let buf := pre ++ v ++ zeros k ++ c :: l ++ 0 :: buffer ls in
  let at_ := line_start pre v k in
  get_next_line_loop (S fuel) buf (zlen pre) lnum
  = (if wspace c then
       match scan_at not_ws buf at_ with
       | None => Some (0, None, lnum + k)
       | Some n =>
           x ← get_at buf (at_ + n);
           if negb (x =? 0) then Some (-1, Some (at_ + n), lnum + k)
           else get_next_line_loop fuel buf (at_ + n) (lnum + k)
       end
     else if negb (c =? COMMENT_CHAR) then Some (0, Some at_, lnum + k)
     else get_next_line_loop fuel buf at_ (lnum + k)).
Proof.
  intros Hv Hc Hk buf at_. cbn [get_next_line_loop].
  assert (H1 : scan_at (λ c, c =? 0) buf (zlen pre) = Some (zlen v)).
  { unfold buf. rewrite (zeros_pos k) by done. apply scan_at_mid; [done | by apply forallb_no_nul | done]. }
  rewrite H1. assert (H2 : scan_at (λ c, negb (c =? 0)) buf (zlen pre + zlen v) = Some k).
  { unfold buf. rewrite app_assoc. rewrite <- (length_zeros k) at 2 by lia.
    apply scan_at_mid; [rewrite length_app; lia | apply forallb_zeros | by rewrite (proj2 (Z.eqb_neq c 0))]. }
  rewrite H2. assert (Hat : zlen pre + zlen v + k = at_).
  { unfold at_, line_start. rewrite !length_app, !Nat2Z.inj_add, length_zeros by lia. lia. }
  rewrite Hat.
  assert (H3 : get_at buf at_ = Some c).
  { unfold buf. rewrite (app_assoc v), (app_assoc pre). by apply get_at_mid. }
  rewrite H3. obind. reflexivity.
Qed.

(** A round at the end of the buffer. *)
Lemma round_end fuel pre v k lnum : no_nul v → 1 ≤ k →
  get_next_line_loop (S fuel) (pre ++ v ++ zeros k) (zlen pre) lnum
  = Some (0, None, lnum + (zlen (pre ++ v ++ zeros k) - (zlen pre + zlen v))).
Proof.
  intros Hv Hk. cbn [get_next_line_loop].
  assert (H1 : scan_at (λ c, c =? 0) (pre ++ v ++ zeros k) (zlen pre) = Some (zlen v)).
  { rewrite (zeros_pos k) by done. apply scan_at_mid; [done | by apply forallb_no_nul | done]. }
  assert (H2 : scan_at (λ c, negb (c =? 0)) (pre ++ v ++ zeros k) (zlen pre + zlen v) = None).
  { rewrite app_assoc. apply scan_at_end; [rewrite length_app; lia | apply forallb_zeros]. }
  by rewrite H1, H2.
Qed.

(** White space at the start of a line, up to the next character. *)
Lemma past_blanks P v k pre text a x r :
  P = pre ++ v ++ zeros k → text = a ++ x :: r → forallb wspace a = true → wspace x = false →
  scan_at not_ws (P ++ text) (line_start pre v k) = Some (zlen a)
  ∧ get_at (P ++ text) (line_start pre v k + zlen a) = Some x.
Proof.
  intros HP -> Ha Hx. unfold line_start. rewrite <- HP. split.
  - apply scan_at_mid; [done | by apply forallb_nn | unfold not_ws; by rewrite Hx].
  - rewrite app_assoc. apply get_at_mid. rewrite length_app. lia.
Qed.

Lemma get_next_line_spec buf ls : ∀ fuel pre v k str lnum,
  buf = pre ++ v ++ zeros k ++ buffer ls → no_nul v → Forall no_nul ls → 1 ≤ k → str = zlen pre →
  (length ls < fuel)%nat →
  ∃ lnum', lnum ≤ lnum' ∧
    get_next_line_loop fuel buf str lnum
    = Some match skip_lines ls with
           | [] => (0, None, lnum')
           | l :: ls' =>
               let p := zlen buf - zlen (buffer (l :: ls')) in
               match kind_of l with
               | Floating => (-1, Some (p + zlen (take_while wspace l)), lnum')
               | _ => (0, Some p, lnum')
               end
           end.
Proof.
  induction ls as [|l ls IH]; intros fuel pre v k str lnum Hbuf Hv Hls Hk Hstr Hfuel;
    (destruct fuel as [|fuel]; [lia|]).
  - cbn [skip_lines]. unfold buffer in Hbuf. cbn [fmap list_fmap concat] in Hbuf. rewrite app_nil_r in Hbuf.
    subst buf str. rewrite round_end by done. eexists. split; [|reflexivity]. rewrite !length_app. lia.
  - apply Forall_cons in Hls as [Hl Hls]. rewrite buffer_cons in Hbuf. cbn [length] in Hfuel.
    destruct l as [|c l].
    { cbn [skip_lines kind_of]. cbn [app] in Hbuf.
      destruct (IH (S fuel) pre v (k + 1) str lnum) as (lnum' & Hle & Hrun); try done; try lia.
      - rewrite Hbuf, zeros_S by lia. by app_norm.
      - exists lnum'. split; [lia | exact Hrun]. }
    apply Forall_cons in Hl as [Hc Hl]. subst str. cbn [app] in Hbuf.
    pose proof (round_spec fuel pre v k c l ls lnum Hv Hc Hk) as Hround. cbv zeta in Hround.
    rewrite <- Hbuf in Hround. rewrite Hround. clear Hround.
    assert (Hat : line_start pre v k = zlen buf - zlen (buffer ((c :: l) :: ls))).
    { rewrite Hbuf, buffer_cons. unfold line_start. rewrite !length_app, !length_cons, !length_app, !length_cons. lia. }
    set (P := pre ++ v ++ zeros k).
    assert (HP : buf = P ++ (c :: l) ++ 0 :: buffer ls) by (rewrite Hbuf; unfold P; by app_norm).
    assert (Hnn : no_nul (c :: l)) by (by constructor).
    destruct (wspace c) eqn:Ew.
    + pose proof (λ a x r, past_blanks P v k pre (c :: l ++ 0 :: buffer ls) a x r eq_refl) as Hnext. cbn [app] in HP. rewrite <- HP in Hnext.
      destruct (drop_while wspace (c :: l)) as [|x r] eqn:Ed.
      * apply drop_while_nil in Ed.
        destruct (Hnext (c :: l) 0 (buffer ls) eq_refl Ed wspace_nul) as [-> ->]. obind.
        change (negb (0 =? 0)) with false. cbv iota.
        assert (Hkind : kind_of (c :: l) = Blank) by (cbn [kind_of]; by rewrite Ew, Ed).
        cbn [skip_lines]. rewrite Hkind.
        destruct (IH fuel (P ++ c :: l) [] 1 (line_start pre v k + zlen (c :: l)) (lnum + k))
          as (lnum' & Hle & Hrun); try done; try lia.
        { rewrite HP. change (zeros 1) with [0]. by app_norm. }
        { constructor. }
        { unfold line_start. fold P. rewrite length_app. lia. }
        exists lnum'. split; [lia | exact Hrun].
      * pose proof (take_drop_while wspace (c :: l)) as Htd. rewrite Ed in Htd.
        pose proof (drop_while_head _ _ _ _ Ed) as Hx.
        assert (Hx0 : x ≠ 0).
        { unfold no_nul in Hnn. rewrite <- Htd in Hnn. apply Forall_app in Hnn as [_ Hnn].
          by apply Forall_cons in Hnn as [? _]. }
        destruct (Hnext (take_while wspace (c :: l)) x (r ++ 0 :: buffer ls)) as [-> ->].
        { change (c :: l ++ 0 :: buffer ls) with ((c :: l) ++ 0 :: buffer ls). rewrite <- Htd at 1. by app_norm. }
        { apply take_while_all. }
        { exact Hx. }
        obind. rewrite (proj2 (Z.eqb_neq x 0)) by done. cbn [negb].
        assert (Hkind : kind_of (c :: l) = Floating).
        { cbn [kind_of]. rewrite Ew. destruct (forallb wspace (c :: l)) eqn:Ef; [|done].
          apply drop_while_nil in Ef. congruence. }
        cbn [skip_lines]. rewrite Hkind. cbv zeta. rewrite Hkind, Hat.
        eexists. split; [|reflexivity]. lia.
    + destruct (Z.eqb_spec c COMMENT_CHAR) as [->|Hnc]; cbn [negb].
      * cbn [skip_lines kind_of]. rewrite Ew, Z.eqb_refl.
        destruct (IH fuel P (COMMENT_CHAR :: l) 1 (line_start pre v k) (lnum + k))
          as (lnum' & Hle & Hrun); try done; try lia.
        exists lnum'. split; [lia | exact Hrun].
      * assert (Hkind : kind_of (c :: l) = Line ∨ kind_of (c :: l) = EofByte).
        { cbn [kind_of]. rewrite Ew, (proj2 (Z.eqb_neq c COMMENT_CHAR)) by done. destruct (schar c =? -1); auto. }
        cbn [skip_lines]. rewrite Hat. exists (lnum + k). split; [lia|].
        destruct Hkind as [Hkind|Hkind]; rewrite Hkind; cbv zeta; by rewrite Hkind.
Qed.

(** ** The items *)

(** The parts of an item line: token, white space, value, white space. *)
Record parts := mkParts { tok : list Z; w1 : list Z; val : list Z; w2 : list Z }.

Definition parts_of (l : list Z) : parts :=
  let r := drop_while not_ws l in
  let rv := rev (drop_while wspace r) in
  mkParts (take_while not_ws l) (take_while wspace r) (rev (drop_while wspace rv)) (rev (take_while wspace rv)).

Lemma rev_zapp (a b : list Z) : rev (a ++ b) = rev b ++ rev a.
Proof. apply rev_app_distr. Qed.

Lemma parts_app l : l = tok (parts_of l) ++ w1 (parts_of l) ++ val (parts_of l) ++ w2 (parts_of l).
Proof.
  unfold parts_of. cbn [tok w1 val w2].
  rewrite <- rev_zapp, take_drop_while, rev_involutive, take_drop_while. symmetry. apply take_drop_while.
Qed.

Lemma parts_line l : parse_line l = (tok (parts_of l), val (parts_of l)).
Proof. reflexivity. Qed.

Lemma forallb_rev (f : Z → bool) l : forallb f (rev l) = forallb f l.
Proof.
  induction l as [|c l IH]; [done|]. cbn [rev]. rewrite forallb_app, IH. cbn [forallb].
  rewrite andb_true_r. apply andb_comm.
Qed.

(** The value is empty or ends in a character that is not white space. *)
Lemma val_last l : val (parts_of l) = [] ∧ w2 (parts_of l) = []
  ∨ ∃ a c, val (parts_of l) = a ++ [c] ∧ wspace c = false.
Proof.
  unfold parts_of. cbn [val w2].
  destruct (drop_while wspace (rev (drop_while wspace (drop_while not_ws l)))) as [|c r] eqn:E.
  - left. split; [done|]. pose proof (take_drop_while wspace (rev (drop_while wspace (drop_while not_ws l)))) as H.
    rewrite E, app_nil_r in H.
    destruct (drop_while wspace (drop_while not_ws l)) as [|x r] eqn:E2; [done|].
    exfalso. pose proof (drop_while_head _ _ _ _ E2) as Hx.
    assert (Hall : forallb wspace (rev (x :: r)) = true) by (apply drop_while_nil; exact E).
    rewrite forallb_rev in Hall. cbn [forallb] in Hall. by rewrite Hx in Hall.
  - right. exists (rev r), c. split; [done|]. by apply drop_while_head in E.
Qed.

(** The value is empty or starts with a character that is not white space; with
    nothing behind the token there is no value. *)
Lemma val_first l : no_nul l →
  (∃ c r, w1 (parts_of l) ++ val (parts_of l) ++ w2 (parts_of l) ++ [0] = w1 (parts_of l) ++ c :: r
     ∧ wspace c = false ∧ (w1 (parts_of l) = [] → c = 0 ∧ val (parts_of l) = [] ∧ w2 (parts_of l) = [])).
Proof.
  intros Hl. unfold parts_of. cbn [w1 val w2]. set (r := drop_while not_ws l).
  rewrite (app_assoc (rev _)), <- rev_zapp, take_drop_while, rev_involutive.
  destruct (drop_while wspace r) as [|x t] eqn:E.
  - exists 0, []. cbn. done.
  - exists x, (t ++ [0]). cbn [app]. split; [done|]. split; [by apply drop_while_head in E|].
    intros Hw. pose proof (take_drop_while wspace r) as Htd. rewrite Hw, E in Htd. cbn [app] in Htd.
    destruct r as [|y r'] eqn:Er; [done|]. injection Htd as <- <-.
    assert (Hy : not_ws x = false) by (by eapply drop_while_head).
    assert (Hx : wspace x = false) by (by eapply drop_while_head).
    unfold not_ws in Hy. by rewrite Hx in Hy.
Qed.

Lemma no_nul_app a b : no_nul (a ++ b) ↔ no_nul a ∧ no_nul b.
Proof. apply Forall_app. Qed.

Lemma parts_no_nul l : no_nul l → no_nul (tok (parts_of l)) ∧ no_nul (val (parts_of l)) ∧ no_nul (w2 (parts_of l)).
Proof. intros Hl. rewrite (parts_app l), !no_nul_app in Hl. tauto. Qed.

Lemma token_scan l : no_nul l → forallb (λ x, negb (wspace x || (x =? 0))) (tok (parts_of l)) = true.
Proof.
  intros Hl. destruct (parts_no_nul l Hl) as [Ht _]. apply forallb_forall. intros x Hx.
  unfold no_nul in Ht. rewrite Forall_forall in Ht. specialize (Ht x (proj2 (list_elem_of_In _ _) Hx)).
  pose proof (take_while_all not_ws l) as Hn. rewrite forallb_forall in Hn. specialize (Hn x Hx).
  unfold not_ws in Hn. apply negb_true_iff in Hn. by rewrite Hn, (proj2 (Z.eqb_neq x 0)).
Qed.

Lemma w1_wspace l : forallb wspace (w1 (parts_of l)) = true.
Proof. apply take_while_all. Qed.

Lemma w2_wspace l : forallb wspace (w2 (parts_of l)) = true.
Proof. unfold parts_of. cbn [w2]. rewrite forallb_rev. apply take_while_all. Qed.

(** The backward loop stops behind the value. *)
Lemma trailing_scan l pre n : 1 ≤ n →
  scan not_ws (rev (pre ++ zeros n ++ val (parts_of l) ++ w2 (parts_of l))) = Some (zlen (w2 (parts_of l))).
Proof.
  intros Hn. destruct (val_last l) as [[-> ->]|(a & c & -> & Hc)].
  - replace n with (n - 1 + 1) by lia. rewrite zeros_S by lia.
    rewrite !app_nil_r, app_assoc, rev_zapp. reflexivity.
  - rewrite !rev_zapp. cbn [rev app]. rewrite <- !app_assoc. cbn [app].
    rewrite <- (length_rev (w2 _)). apply scan_found; [|unfold not_ws; by rewrite Hc].
    apply forallb_nn. rewrite forallb_rev. apply w2_wspace.
Qed.

Lemma line_head l : kind_of l = Line ∨ kind_of l = EofByte →
  ∃ c r, l = c :: r ∧ wspace c = false ∧ c ≠ COMMENT_CHAR ∧ (schar c = -1 ↔ kind_of l = EofByte).
Proof.
  destruct l as [|c r]; [by intros [|]|]. intros Hk. exists c, r. split; [done|]. revert Hk. cbn [kind_of].
  destruct (wspace c); [destruct (forallb wspace (c :: r)); by intros [|]|].
  destruct (Z.eqb_spec c COMMENT_CHAR); [by intros [|]|]. destruct (Z.eqb_spec (schar c) (-1)); by intros [|].
Qed.

Lemma scan_at_here (stop : Z → bool) pre a c r :
  forallb (λ x, negb (stop x)) a = true → stop c = true → scan_at stop (pre ++ a ++ c :: r) (zlen pre) = Some (zlen a).
Proof. by apply scan_at_mid. Qed.

(** A token with a value behind it, from the scans over its four parts. *)
Lemma point_to_value_parts pre t w v u R :
  t ≠ [] → w ≠ [] → forallb (λ x, negb (wspace x || (x =? 0))) t = true →
  forallb wspace w = true → no_nul (v ++ u) → (∃ x r, v ++ u ++ [0] = x :: r ∧ wspace x = false) →
  scan not_ws (rev ((pre ++ t ++ zeros (zlen w)) ++ v ++ u)) = Some (zlen u) →
  point_to_value (pre ++ (t ++ w ++ v ++ u) ++ 0 :: R) (zlen pre)
  = Some (0, (pre ++ t ++ zeros (zlen w)) ++ v ++ zeros (zlen u) ++ 0 :: R,
          zlen (pre ++ t ++ zeros (zlen w)), Some (zlen (pre ++ t ++ zeros (zlen w)))).
Proof.
  intros Ht0 Hw0 Ht Hw Hvu (x & r & Hx & Hxw) Htr. unfold point_to_value.
  destruct t as [|c t]; [done|]. destruct w as [|d w]; [done|].
  assert (Hc : wspace c = false).
  { cbn [forallb] in Ht. apply andb_true_iff in Ht as [Hc _]. apply negb_true_iff, orb_false_iff in Hc. tauto. }
  assert (Hd : wspace d = true) by (cbn [forallb] in Hw; by apply andb_true_iff in Hw as [? _]).
  assert (Hd0 : (d =? 0) = false) by (apply Z.eqb_neq; intros ->; done).
  assert (H0 : get_at (pre ++ ((c :: t) ++ (d :: w) ++ v ++ u) ++ 0 :: R) (zlen pre) = Some c) by (by apply get_at_mid).
  rewrite H0. obind. rewrite Hc. clear H0. set (T := c :: t) in *. set (W := d :: w) in *.
  assert (H1 : scan_at (λ c, wspace c || (c =? 0)) (pre ++ (T ++ W ++ v ++ u) ++ 0 :: R) (zlen pre) = Some (zlen T)).
  { rewrite <- (app_assoc T). unfold W. cbn [app]. apply scan_at_here; [done | by rewrite Hd]. }
  rewrite H1. obind. assert (H2 : get_at (pre ++ (T ++ W ++ v ++ u) ++ 0 :: R) (zlen pre + zlen T) = Some d).
  { replace (pre ++ _) with ((pre ++ T) ++ d :: (w ++ v ++ u) ++ 0 :: R) by (unfold W; by app_norm).
    apply get_at_mid. rewrite length_app. lia. }
  rewrite H2. obind. rewrite Hd0.
  assert (E : pre ++ (T ++ W ++ v ++ u) ++ 0 :: R = (pre ++ T) ++ W ++ x :: r ++ R).
  { transitivity ((pre ++ T) ++ W ++ (v ++ u ++ [0]) ++ R); [by app_norm | by rewrite Hx]. }
  assert (H3 : scan_at (λ c, negb (wspace c)) (pre ++ (T ++ W ++ v ++ u) ++ 0 :: R) (zlen pre + zlen T) = Some (zlen W)).
  { rewrite E. apply scan_at_mid; [rewrite length_app; lia | by apply forallb_nn | by rewrite Hxw]. }
  rewrite H3. obind.
  assert (H4 : write_at (pre ++ (T ++ W ++ v ++ u) ++ 0 :: R) (zlen pre + zlen T) (zeros (zlen W))
    = Some ((pre ++ T ++ zeros (zlen W)) ++ (v ++ u) ++ 0 :: R)).
  { rewrite E, (write_at_mid _ W) by (rewrite ?length_app; unfold zeros; rewrite ?length_replicate; lia).
    f_equal. transitivity ((pre ++ T ++ zeros (zlen W)) ++ (v ++ u ++ [0]) ++ R); [rewrite Hx|]; by app_norm. }
  rewrite H4. obind. set (A := pre ++ T ++ zeros (zlen W)) in *.
  assert (HA : zlen pre + zlen T + zlen W = zlen A).
  { unfold A. rewrite !length_app, !Nat2Z.inj_add, length_zeros; lia. }
  rewrite HA. rewrite scan_at_mid by (try done; by apply forallb_no_nul). obind.
  assert (H5 : take (Z.to_nat (zlen A + zlen (v ++ u))) (A ++ (v ++ u) ++ 0 :: R) = A ++ v ++ u).
  { rewrite (app_assoc A (v ++ u)). apply take_app_length'. rewrite !length_app. lia. }
  rewrite H5. change (λ c0, negb (wspace c0)) with not_ws. rewrite Htr. obind.
  replace (A ++ (v ++ u) ++ 0 :: R) with ((A ++ v) ++ u ++ 0 :: R) by (by app_norm).
  rewrite (write_at_mid (A ++ v) u); [by app_norm | rewrite !length_app; lia | unfold zeros; rewrite length_replicate; lia].
Qed.

Lemma point_to_value_spec pre l R :
  no_nul l → kind_of l = Line →
  let P := parts_of l in
  point_to_value (pre ++ l ++ 0 :: R) (zlen pre)
  = Some (0, (pre ++ tok P ++ zeros (zlen (w1 P))) ++ val P ++ zeros (zlen (w2 P)) ++ 0 :: R,
          zlen (pre ++ tok P ++ zeros (zlen (w1 P))), Some (zlen (pre ++ tok P ++ zeros (zlen (w1 P))))).
Proof.
  intros Hnn Hkind P. destruct (line_head l (or_introl Hkind)) as (c & l' & El & Hc & _).
  destruct (parts_no_nul l Hnn) as (Ht & Hv & Hw).
  destruct (val_first l Hnn) as (x & r & Hx & Hxw & Hempty). fold P in Ht, Hv, Hw, Hx, Hempty.
  assert (Htok : tok P ≠ []) by (unfold P; rewrite El; cbn; unfold not_ws; by rewrite Hc).
  rewrite (parts_app l). fold P. destruct (decide (w1 P = [])) as [Ew|Ew].
  - destruct (Hempty Ew) as (-> & -> & ->). rewrite Ew. cbn [app]. rewrite !app_nil_r.
    unfold point_to_value. destruct (tok P) as [|d t] eqn:Etok; [done|].
    pose proof (token_scan l Hnn) as Hts. fold P in Hts. rewrite Etok in Hts.
    assert (H0 : get_at (pre ++ (d :: t) ++ 0 :: R) (zlen pre) = Some d) by (by apply get_at_mid).
    assert (Hd : wspace d = false).
    { cbn [forallb] in Hts. apply andb_true_iff in Hts as [Hd _]. apply negb_true_iff, orb_false_iff in Hd. tauto. }
    rewrite H0. obind. rewrite Hd, scan_at_here by done. obind.
    rewrite (app_assoc pre), get_at_mid by llia. obind. cbn [Z.eqb]. cbn [length].
    by rewrite Nat2Z.inj_0, length_app, Nat2Z.inj_add; app_norm.
  - apply point_to_value_parts; try done.
    + apply token_scan, Hnn.
    + apply w1_wspace.
    + by apply no_nul_app.
    + exists x, r. split; [|done]. by apply app_inv_head in Hx.
    + rewrite (app_assoc pre (tok P)), <- (app_assoc (pre ++ tok P)). apply trailing_scan.
      destruct (w1 P); [done|]. cbn [length]. lia.
Qed.

(** ** [itemize] *)

Lemma kind_dec l : kind_of l = Line ∨ kind_of l = EofByte ∨ kind_of l = Blank ∨ kind_of l = Comment ∨ kind_of l = Floating.
Proof. destruct (kind_of l); auto. Qed.

(** The lines skipped are a prefix of the buffer and say nothing. *)
Lemma skip_lines_spec ls : Forall no_nul ls →
  Forall no_nul (skip_lines ls) ∧ (length (skip_lines ls) ≤ length ls)%nat
  ∧ read_lines ls = read_lines (skip_lines ls)
  ∧ (∃ pre, buffer ls = pre ++ buffer (skip_lines ls))
  ∧ (skip_lines ls = [] ∨ ∃ l ls', skip_lines ls = l :: ls' ∧ kind_of l ≠ Blank ∧ kind_of l ≠ Comment).
Proof.
  induction ls as [|l ls IH]; intros Hls.
  { cbn. repeat split; auto. by exists []. }
  pose proof Hls as [_ Hls']%Forall_cons. destruct (IH Hls') as (H1 & H2 & H3 & (pre & H4) & H5).
  cbn [skip_lines length]. destruct (kind_of l) eqn:Ek;
    [ | | split; [done|]; split; [cbn [length]; lia|]; split; [done|];
          split; [by exists [] | right; exists l, ls; rewrite Ek; by auto].. ].
  all: split; [done|]; split; [lia|]; split; [cbn [read_lines]; by rewrite Ek|]; split; [|done].
  all: rewrite buffer_cons, H4; exists (l ++ 0 :: pre); by app_norm.
Qed.

Lemma buffer_length ls : (length ls ≤ length (buffer ls))%nat.
Proof.
  induction ls as [|l ls IH]; [cbn; lia|]. rewrite buffer_cons, length_app. cbn [length]. lia.
Qed.

(** What [itemize] makes of lines that say [r]. *)
Definition itemized (items : list item) (r : option (list item)) (x : option (Z * list item)) : Prop :=
  match r with
  | Some its => x = Some (0, items ++ its)
  | None => ∃ n, 1 ≤ n ∧ x = Some (n, [])
  end.

(** From a position whose next line is looked for: the loop sees the rest of the
    lines. *)
Definition after_line (fuel : nat) (buf : list Z) (p lnum : Z) (items : list item) : option (Z * list item) :=
  '(r, p, lnum) ← get_next_line buf p lnum;
  if negb (r =? 0) then Some (lnum, []) else itemize_loop fuel buf p lnum items.

(** The loop at the first character of an item's line. *)
Lemma item_round fuel pre l ls lnum items :
  no_nul l → kind_of l = Line →
  let P := parts_of l in
  itemize_loop (S fuel) (pre ++ buffer (l :: ls)) (Some (zlen pre)) lnum items
  = after_line fuel ((pre ++ tok P ++ zeros (zlen (w1 P))) ++ val P ++ zeros (zlen (w2 P) + 1) ++ buffer ls)
      (zlen (pre ++ tok P ++ zeros (zlen (w1 P)))) lnum (items ++ [parse_line l]).
Proof.
  intros Hl Hk P. destruct (line_head l (or_introl Hk)) as (c & r & El & _ & _ & Hc).
  cbn [itemize_loop]. rewrite buffer_cons.
  assert (H0 : get_at (pre ++ l ++ 0 :: buffer ls) (zlen pre) = Some c) by (rewrite El; by apply get_at_mid).
  rewrite H0. obind. assert (Hs : (schar c =? -1) = false) by (apply Z.eqb_neq; intros ?%Hc; congruence).
  rewrite Hs, point_to_value_spec by done. fold P. obind. cbn [Z.eqb negb].
  set (A := pre ++ tok P ++ zeros (zlen (w1 P))).
  assert (Ebuf : A ++ val P ++ zeros (zlen (w2 P)) ++ 0 :: buffer ls
    = A ++ val P ++ zeros (zlen (w2 P) + 1) ++ buffer ls) by (rewrite zeros_S by lia; by app_norm).
  destruct (parts_no_nul l Hl) as (Ht & Hv & _). fold P in Ht, Hv.
  assert (Htoken : cstr_at (A ++ val P ++ zeros (zlen (w2 P)) ++ 0 :: buffer ls) (zlen pre) = Some (tok P)).
  { unfold A. destruct (zeros (zlen (w1 P)) ++ val P ++ zeros (zlen (w2 P)) ++ 0 :: buffer ls) as [|y t] eqn:E.
    { by apply app_eq_nil in E as [_ [_ [_ ?]%app_eq_nil]%app_eq_nil]. }
    assert (Hy : y = 0).
    { destruct (val_first l Hl) as (x & t' & Hx & _ & Hempty). fold P in Hempty.
      destruct (w1 P) as [|w ws] eqn:Ew.
      - destruct (Hempty eq_refl) as (_ & Hv0 & Hw0). rewrite Hv0, Hw0 in E. by injection E.
      - revert E. cbn [length]. unfold zeros at 1. replace (Z.to_nat _) with (S (length ws)) by lia. by intros [= <- _]. }
    rewrite <- !app_assoc, E, Hy. by apply cstr_at_mid. }
  assert (Hvalue : cstr_at (A ++ val P ++ zeros (zlen (w2 P)) ++ 0 :: buffer ls) (zlen A) = Some (val P)).
  { rewrite Ebuf, zeros_S by lia. destruct (zeros (zlen (w2 P))) as [|y t] eqn:E.
    - cbn [app]. by apply cstr_at_mid.
    - assert (y = 0) as ->. { unfold zeros in E. destruct (Z.to_nat _); [done|]. by injection E. }
      cbn [app]. by apply cstr_at_mid. }
  rewrite Htoken. obind. rewrite Hvalue. obind. rewrite Ebuf. rewrite parts_line. reflexivity.
Qed.

Lemma get_at_start (pre r : list Z) : r ≠ [] → is_Some (get_at (pre ++ r) (zlen pre)).
Proof. destruct r as [|c r]; [done|]. intros _. rewrite get_at_mid by done. eauto. Qed.

Lemma after_line_spec : ∀ ls fuel pre v k lnum items,
  (length ls < fuel)%nat → no_nul v → Forall no_nul ls → 1 ≤ k → 1 ≤ lnum →
  itemized items (read_lines ls) (after_line fuel (pre ++ v ++ zeros k ++ buffer ls) (zlen pre) lnum items).
Proof.
  induction ls as [ls IH] using (well_founded_induction (well_founded_ltof _ (@length (list Z)))).
  intros fuel pre v k lnum items Hfuel Hv Hls Hk Hlnum. set (buf := pre ++ v ++ zeros k ++ buffer ls).
  destruct (get_at_start pre (v ++ zeros k ++ buffer ls)) as [x Hx].
  { intros E. apply (f_equal length) in E. rewrite !length_app in E. unfold zeros in E.
    rewrite length_replicate in E. cbn [length] in E. lia. }
  unfold after_line, get_next_line. fold buf in Hx. rewrite Hx. obind.
  pose proof (buffer_length ls) as Hlen.
  destruct (get_next_line_spec buf ls (S (length buf)) pre v k (zlen pre) lnum) as (lnum' & Hle & Hrun); try done.
  { unfold buf. rewrite !length_app. lia. }
  rewrite Hrun. clear Hrun x Hx.
  destruct (skip_lines_spec ls Hls) as (H1 & H2 & H3 & (p & H4) & H5). rewrite H3.
  destruct fuel as [|fuel]; [lia|].
  destruct (skip_lines ls) as [|l ls'].
  { obind. cbn. by rewrite app_nil_r. }
  destruct H5 as [?|(l0 & ls0 & [= <- <-] & Hb & Hc)]; [done|]. cbn [length] in H2.
  apply Forall_cons in H1 as [Hl Hls']. cbv zeta.
  assert (Hbuf : buf = (pre ++ v ++ zeros k ++ p) ++ buffer (l :: ls')) by (unfold buf; rewrite H4; by app_norm).
  assert (Hp : zlen buf - zlen (buffer (l :: ls')) = zlen (pre ++ v ++ zeros k ++ p)).
  { rewrite Hbuf, length_app. lia. }
  rewrite Hp. destruct (kind_of l) eqn:Ek; [done|done|..].
  - obind. cbn [Z.eqb negb]. rewrite Hbuf, item_round by done. cbn [read_lines]. rewrite Ek.
    specialize (IH ls'). unfold ltof in IH.
    set (A := (pre ++ v ++ zeros k ++ p) ++ tok (parts_of l) ++ zeros (zlen (w1 (parts_of l)))).
    destruct (parts_no_nul l Hl) as (_ & Hval & _).
    specialize (IH ltac:(lia) fuel A (val (parts_of l)) (zlen (w2 (parts_of l)) + 1) lnum'
      (items ++ [parse_line l]) ltac:(lia) Hval Hls' ltac:(lia) ltac:(lia)).
    revert IH. generalize (after_line fuel (A ++ val (parts_of l) ++ zeros (zlen (w2 (parts_of l)) + 1) ++ buffer ls')
      (zlen A) lnum' (items ++ [parse_line l])). intros r.
    destruct (read_lines ls') as [its|]; cbn; [|done]. by rewrite <- app_assoc.
  - obind. cbn [Z.eqb negb read_lines]. rewrite Ek. cbn. exists lnum'. split; [lia|done].
  - obind. cbn [Z.eqb negb read_lines itemize_loop]. rewrite Ek.
    destruct (line_head l (or_intror Ek)) as (c & r & El & _ & _ & Hs).
    assert (Hg : get_at buf (zlen (pre ++ v ++ zeros k ++ p)) = Some c).
    { rewrite Hbuf, buffer_cons, El. by apply get_at_mid. }
    rewrite Hg. obind. rewrite (proj2 Hs Ek). cbn. by rewrite app_nil_r.
Qed.

Lemma kind_skipped c r : kind_of (c :: r) = Blank ∨ kind_of (c :: r) = Comment ∨ kind_of (c :: r) = Floating →
  (c =? 0) || wspace c || (c =? COMMENT_CHAR) = true.
Proof.
  cbn [kind_of]. destruct (wspace c); [by rewrite orb_true_r|]. destruct (c =? COMMENT_CHAR); [by rewrite orb_true_r|].
  destruct (schar c =? -1); by intros [|[|]].
Qed.

Lemma itemize_lines l ls :
  Forall no_nul (l :: ls) → itemized [] (read_config (l :: ls)) (itemize (buffer (l :: ls))).
Proof.
  intros Hnn. pose proof Hnn as [Hl Hls]%Forall_cons. pose proof (buffer_length ls) as Hlen.
  unfold itemize. rewrite buffer_cons.
  assert (Hskip : kind_of l = Blank ∨ kind_of l = Comment ∨ kind_of l = Floating →
    itemized [] (read_config (l :: ls)) (after_line (S (length (l ++ 0 :: buffer ls))) (l ++ 0 :: buffer ls) 0 1 [])).
  { intros Hk. assert (Hr : read_config (l :: ls) = read_lines ls).
    { cbn [read_config read_lines]. by destruct Hk as [-> | [-> | ->]]. }
    rewrite Hr. apply (after_line_spec ls _ [] l 1); try done. rewrite length_app. cbn [length]. lia. }
  destruct l as [|c r].
  { cbn [app]. rewrite (get_at_mid [] (buffer ls) 0) by done. obind. apply Hskip. auto. }
  assert (H0 : get_at ((c :: r) ++ 0 :: buffer ls) 0 = Some c) by (by apply (get_at_mid [])).
  rewrite H0. obind. pose proof (line_head (c :: r)) as Hhead. apply Forall_cons in Hl as [Hc0 _].
  destruct (kind_dec (c :: r)) as [Hk|[Hk|[Hk|[Hk|Hk]]]].
  1,2: destruct Hhead as (c' & r' & [= <- <-] & Hw & Hcc & Hs); [by auto|];
    rewrite Hw, (proj2 (Z.eqb_neq c 0)), (proj2 (Z.eqb_neq c COMMENT_CHAR)) by done; cbn [orb].
  - pose proof Hnn as [Hl _]%Forall_cons. rewrite <- buffer_cons.
    pose proof (item_round (length (buffer ((c :: r) :: ls))) [] (c :: r) ls 1 [] Hl Hk) as Hround.
    cbv zeta in Hround. rewrite !app_nil_l in Hround. change (zlen []) with 0 in Hround. rewrite Hround.
    assert (Hr : read_config ((c :: r) :: ls) = (items ← read_lines ls; Some (parse_line (c :: r) :: items)))
      by (cbn [read_config read_lines]; by rewrite Hk).
    rewrite Hr. destruct (parts_no_nul _ Hl) as (_ & Hval & _).
    set (A := tok (parts_of (c :: r)) ++ zeros (zlen (w1 (parts_of (c :: r))))).
    pose proof (after_line_spec ls (length (buffer ((c :: r) :: ls))) A (val (parts_of (c :: r)))
      (zlen (w2 (parts_of (c :: r))) + 1) 1 [parse_line (c :: r)]) as Hall.
    destruct (read_lines ls) as [its|]; apply Hall; try done; try lia;
      rewrite buffer_cons, length_app; cbn [length]; lia.
  - cbn [read_config read_lines]. rewrite Hk. cbn [read_lines]. rewrite ?Hk. cbn [itemize_loop]. rewrite H0. obind.
    by rewrite (proj2 Hs Hk).
  - rewrite (kind_skipped c r) by auto. apply Hskip. auto.
  - rewrite (kind_skipped c r) by auto. apply Hskip. auto.
  - rewrite (kind_skipped c r) by auto. apply Hskip. auto.
Qed.

(** C20: on a buffer of terminated lines [itemize] always returns, and returns
    what the lines say: the tokens and values in order, without the white space
    around them, empty lines, blank lines and comments skipped; a line of text
    behind white space is an error, with a positive line number and no items,
    except on the first line, where it is skipped; a line starting with the
    byte 255 ends the file. *)
Theorem itemize_spec l ls :
  Forall no_nul (l :: ls) → itemized [] (read_config (l :: ls)) (itemize (buffer (l :: ls))).
Proof. apply itemize_lines. Qed.

Lemma itemize_spec_witness :
  let ls := [bytes_of_string "# c"; []; bytes_of_string "A:B  some value "; bytes_of_string "T"] in
  Forall no_nul ls ∧ itemize (buffer ls) = Some (0, [(bytes_of_string "A:B", bytes_of_string "some value"); (bytes_of_string "T", [])]).
Proof.
  intros ls. assert (H : Forall no_nul ls) by (repeat constructor; done). split; [exact H|].
  exact (itemize_spec _ _ H).
Defined.

(** ** From the file to the items *)

Definition line_end (c : Z) : Z := if (c =? ch_nl) || (c =? ch_cr) then 0 else c.

Fixpoint split_lines (l : list Z) : list (list Z) :=
  match l with
  | [] => []
  | c :: l =>
      if c =? 0 then [] :: split_lines l
      else match split_lines l with [] => [[c]] | x :: xs => (c :: x) :: xs end
  end.

Lemma split_lines_nil l : split_lines l = [] → l = [].
Proof. destruct l as [|c l]; cbn; [done|]. destruct (c =? 0); [done|]. by destruct (split_lines l). Qed.

Lemma split_lines_no_nul l : Forall no_nul (split_lines l).
Proof.
  induction l as [|c l IH]; cbn [split_lines]; [constructor|]. destruct (Z.eqb_spec c 0) as [->|Hc].
  - constructor; [constructor | done].
  - destruct (split_lines l) as [|x xs]; [by repeat constructor|].
    apply Forall_cons in IH as [? ?]. by constructor; [constructor|].
Qed.

Lemma buffer_split l : l = [] ∨ last l = Some 0 → buffer (split_lines l) = l.
Proof.
  induction l as [|c l IH]; intros [?|H]; [done..|]. cbn [split_lines].
  assert (Hl : l = [] ∧ c = 0 ∨ last l = Some 0).
  { rewrite last_cons in H. destruct (last l) as [z|] eqn:E; [by right|]. left. apply last_None in E. split; [done|by injection H]. }
  destruct (Z.eqb_spec c 0) as [->|Hc].
  - rewrite buffer_cons. cbn [app]. f_equal. apply IH. tauto.
  - destruct Hl as [[_ ?]|Hl]; [done|]. destruct (split_lines l) as [|x xs] eqn:E.
    { apply split_lines_nil in E. by rewrite E in Hl. }
    rewrite <- (IH (or_intror Hl)). rewrite !buffer_cons. done.
Qed.

Lemma store_chars_spec content : ∀ a st,
  st = zlen a + zlen content →
  store_chars st (zlen a) content (a ++ zeros (zlen content)) = Some (a ++ (line_end <$> content)).
Proof.
  induction content as [|c content IH]; intros a st Hst; cbn [store_chars].
  - done.
  - cbn [length] in Hst. replace (Z.min (zlen a) (Z.max 0 (st - 1))) with (zlen a) by lia. fold (line_end c).
    assert (Hz : zeros (zlen (c :: content)) = [0] ++ zeros (zlen content)).
    { unfold zeros. cbn [length]. by replace (Z.to_nat (Z.of_nat (S (length content)))) with (S (Z.to_nat (zlen content))) by lia. }
    rewrite Hz, write_at_mid by done. obind. rewrite app_assoc.
    replace (zlen a + 1) with (zlen (a ++ [line_end c])) by (rewrite length_app; cbn; lia).
    rewrite IH by (rewrite length_app; cbn [length]; lia). cbn [fmap list_fmap]. by rewrite <- app_assoc.
Qed.

Lemma read_conf_spec f enoent : 
  st_size f = zlen (f_content f) → zlen (f_content f) ≤ MAX_CONFIG_FILE_SIZE →
  read_conf false true enoent (Some f) = Some (READ_OK, zlen (f_content f), line_end <$> f_content f).
Proof.
  intros Hst Hmax. unfold read_conf. cbn [negb]. rewrite Hst, (proj2 (Z.ltb_ge _ _)) by lia.
  pose proof (store_chars_spec (f_content f) [] (zlen (f_content f)) eq_refl) as Hs.
  cbn [app length] in Hs. rewrite Nat2Z.inj_0 in Hs. by rewrite Hs.
Qed.

Lemma load_readable waits any f rest l ls :
  Forall (λ x, x.1.1 = false ∧ x.1.2 = true) waits →
  st_size f = zlen (f_content f) → zlen (f_content f) ≤ MAX_CONFIG_FILE_SIZE →
  last (line_end <$> f_content f) = Some 0 → split_lines (line_end <$> f_content f) = l :: ls →
  ∃ x, load false (waits ++ (true, any, Some f) :: rest) = Some (Some x) ∧ itemized [] (read_config (l :: ls)) (Some x).
Proof.
  intros Hw Hst Hmax Hlast Hls. induction Hw as [|[[r e] o] waits [Hr He] _ IH]; cbn [app load].
  - rewrite read_conf_spec by done. obind.
    assert (Hread : read_at (line_end <$> f_content f) 0 (zlen (f_content f)) = Some (line_end <$> f_content f)).
    { rewrite <- (app_nil_r (line_end <$> f_content f)) at 1. apply read_at_prefix. by rewrite length_fmap. }
    rewrite Hread. obind.
    pose proof (itemize_lines l ls) as Hit. rewrite <- Hls, buffer_split in Hit by (by right).
    specialize (Hit (split_lines_no_nul _)).
    destruct (itemize (line_end <$> f_content f)) as [x|] eqn:Ei.
    + obind. exists x. split; [done | by rewrite <- Hls].
    + exfalso. revert Hit. unfold itemized. destruct (read_config _); [done | by intros (? & _ & ?)].
  - cbn in Hr, He. subst. cbn [read_conf negb]. obind. exact IH.
Qed.

(** loading a file: while its ".ready" file is missing [load] keeps
    looking; then a file of at most 20480 bytes whose last character ends a line
    gives the items its lines say (lines end at carriage returns and newlines
    alike), or a positive line number and no items. *)
Theorem load_spec waits any f rest l ls :
  Forall (λ x, x.1.1 = false ∧ x.1.2 = true) waits →
  st_size f = zlen (f_content f) → zlen (f_content f) ≤ MAX_CONFIG_FILE_SIZE →
  last (line_end <$> f_content f) = Some 0 → split_lines (line_end <$> f_content f) = l :: ls →
  ∃ x, load false (waits ++ (true, any, Some f) :: rest) = Some (Some x) ∧ itemized [] (read_config (l :: ls)) (Some x).
Proof. apply load_readable. Qed.

Lemma load_spec_witness :
  ∃ x, load false [(false, true, None);
             (true, false, Some (mkConf 9 (bytes_of_string "A b" ++ [13; 10] ++ bytes_of_string "C d" ++ [10])))]
       = Some (Some x)
  ∧ itemized [] (read_config [bytes_of_string "A b"; []; bytes_of_string "C d"]) (Some x).
Proof.
  apply (load_spec [(false, true, None)] false
    (mkConf 9 (bytes_of_string "A b" ++ [13; 10] ++ bytes_of_string "C d" ++ [10])) []
    (bytes_of_string "A b") [[]; bytes_of_string "C d"]).
  - by repeat constructor.
  - reflexivity.
  - vm_compute. done.
  - reflexivity.
  - reflexivity.
Defined.

(** [get_value] returns the value of the first item with that token, and
    null exactly when there is none. *)
Theorem get_value_first items t :
  match get_value items t with
  | Some v => ∃ a b, items = a ++ (t, v) :: b ∧ t ∉ a.*1
  | None => t ∉ items.*1
  end.
Proof.
  induction items as [|[t' v] items IH]; cbn [get_value]; [apply not_elem_of_nil|].
  case_bool_decide as Ht.
  - subst. exists [], items. split; [done | apply not_elem_of_nil].
  - destruct (get_value items t) as [w|].
    + destruct IH as (a & b & -> & Ha). exists ((t', v) :: a), b. split; [done|].
      cbn. by apply not_elem_of_cons.
    + cbn. by apply not_elem_of_cons.
Qed.

(** An item line without its terminator. *)
Lemma unterminated_line l : no_nul l → kind_of l = Line → itemize l = None.
Proof.
  intros Hl Hk. destruct (line_head l (or_introl Hk)) as (c & r & El & Hw & Hcc & Hs).
  assert (Hc0 : c ≠ 0) by (rewrite El in Hl; by apply Forall_cons in Hl as [? _]).
  assert (Hget : get_at l 0 = Some c) by (rewrite El; by apply (get_at_mid [])).
  unfold itemize. rewrite Hget. obind.
  rewrite (proj2 (Z.eqb_neq c 0)), Hw, (proj2 (Z.eqb_neq c COMMENT_CHAR)) by done. cbn [orb itemize_loop].
  rewrite Hget. obind. assert (Hs' : (schar c =? -1) = false) by (apply Z.eqb_neq; intros ?%Hs; congruence).
  rewrite Hs'. assert (Hp : point_to_value l 0 = None); [|by rewrite Hp].
  unfold point_to_value. rewrite Hget. obind. rewrite Hw.
  destruct (parts_no_nul l Hl) as (Ht & Hv & Hu). pose proof (token_scan l Hl) as Hts.
  destruct (val_first l Hl) as (x & r' & Hx & Hxw & Hempty). pose proof (w1_wspace l) as Hw1.
  apply app_inv_head in Hx. pose proof (parts_app l) as Hl'.
  set (t := tok (parts_of l)) in *. set (v := val (parts_of l)) in *. set (u := w2 (parts_of l)) in *.
  set (w := w1 (parts_of l)) in *. clearbody t v u w. rewrite Hl'. clear - Ht Hv Hu Hts Hx Hxw Hempty Hw1.
  destruct w as [|d w].
  - destruct (Hempty eq_refl) as (-> & -> & ->). rewrite !app_nil_r, <- (app_nil_l t).
    rewrite scan_at_end by done. reflexivity.
  - pose proof Hw1 as Hd. cbn [forallb] in Hd. apply andb_true_iff in Hd as [Hd _].
    pose proof (scan_at_here (λ c, wspace c || (c =? 0)) [] t d (w ++ v ++ u) Hts ltac:(cbn beta; by rewrite Hd)) as Hs.
    cbn [app] in Hs. change (zlen []) with 0 in Hs.
    set (W := d :: w) in *. change (d :: w ++ v ++ u) with (W ++ v ++ u) in Hs. rewrite Hs. obind.
    rewrite Z.add_0_l.
    assert (Hg : get_at (t ++ W ++ v ++ u) (zlen t) = Some d) by (unfold W; by apply get_at_mid).
    rewrite Hg. obind. assert (Hd0 : (d =? 0) = false) by (apply Z.eqb_neq; intros ->; done). rewrite Hd0.
    destruct (v ++ u) as [|y z] eqn:Evu.
    + rewrite app_nil_r, scan_at_end by (try done; by apply forallb_nn). reflexivity.
    + assert (Hy : wspace y = false) by (rewrite (app_assoc v), Evu in Hx; by injection Hx as -> _).
      assert (Hs2 : scan_at (λ c, negb (wspace c)) (t ++ W ++ y :: z) (zlen t) = Some (zlen W))
        by (apply scan_at_mid; [done | by apply forallb_nn | by rewrite Hy]).
      rewrite Hs2. obind. rewrite (write_at_mid t W) by (try done; unfold zeros; rewrite length_replicate; lia). obind.
      rewrite <- Evu, (app_assoc t), scan_at_end; [done | | by apply forallb_no_nul, no_nul_app].
      rewrite length_app, Nat2Z.inj_add, length_zeros; lia.
Qed.

Lemma reload_frees_name name items any f rest :
  st_size f ≤ MAX_CONFIG_FILE_SIZE → reload (Some name) items ((true, any, Some f) :: rest) = None.
Proof.
  intros Hf. unfold reload. cbn [load]. unfold read_conf. cbn [negb].
  rewrite (proj2 (Z.ltb_ge _ _)) by lia. by destruct (store_chars _ _ _ _).
Qed.

(** what the format promises and the parser does not keep: an empty file and
    an item line without a line end are read past the end of the buffer;
    floating text on the first line is skipped without an error, the same text
    one line further down is an error; the line number reported counts the
    NULs, so that a carriage return before the newline counts as a line of its
    own; and [reload] of a file that can be read duplicates the freed name. *)
Theorem config_file_defects :
  itemize [] = None
  ∧ (∀ l, no_nul l → kind_of l = Line → itemize l = None)
  ∧ (∀ l, no_nul l → kind_of l = Floating →
       itemize (buffer [l]) = Some (0, []) ∧ ∃ n, 1 ≤ n ∧ itemize (buffer [[]; l]) = Some (n, []))
  ∧ (let text sep := bytes_of_string "A b" ++ sep ++ bytes_of_string " x" ++ sep in
     itemize (line_end <$> text [ch_nl]) = Some (2, [])
     ∧ itemize (line_end <$> text [ch_cr; ch_nl]) = Some (3, []))
  ∧ (∀ name items any f rest, st_size f ≤ MAX_CONFIG_FILE_SIZE →
       reload (Some name) items ((true, any, Some f) :: rest) = None).
Proof.
  split; [reflexivity|]. split; [exact unterminated_line|].
  split; [|split; [split; vm_compute; reflexivity|]].
  2: exact reload_frees_name.
  intros l Hl Hk. split.
  - pose proof (itemize_lines l [] ltac:(by repeat constructor)) as H. cbn [read_config] in H. by rewrite Hk in H.
  - pose proof (itemize_lines [] [l] ltac:(repeat constructor; done)) as H.
    cbn [read_config read_lines kind_of] in H. by rewrite Hk in H.
Qed.

Lemma config_file_defects_witness :
  itemize (bytes_of_string "TOKEN value") = None
  ∧ reload (Some [47]) [] [(true, false, Some (mkConf 4 (bytes_of_string "A b" ++ [10])))] = None.
Proof.
  pose proof config_file_defects as (_ & H & _ & _ & Hr). split.
  - apply H; [by repeat constructor | reflexivity].
  - apply Hr. vm_compute. discriminate.
Defined.
