(* ===== verification/ConfigItems.v ===== *)
(** * Configuration items: [src/utillib/config/]

    An item holds a copy of the value of a configuration line and parses it on
    demand: a single string ([Simple]), a purpose ([AppPurpose]), the fields
    between white space ([StringVector]), network endpoints ([Network]) and the
    properties of a FIX session ([FIXSession]).  A C string is the list of its
    characters, without terminator; [None] as the result of an operation is
    undefined behaviour.  The locks are left out; whether [strdup] and
    [push_back] succeed is an argument. *)
From S2P Require Import Prelude ConfigFile.

Inductive DataSource : Set := UNKNOWN | File | DataBase.

#[global] Instance DataSource_eq_dec : EqDecision DataSource.
Proof. solve_decision. Defined.

(** What the items have in common: the reference count, positive when the lock
    could be initialised, and the copy of the line. *)
Record config_item := mkItem { refcnt_ : Z; line_ : option (list Z) }.

Definition delims (c : Z) : bool := (c =? ch_space) || (c =? ch_cr) || (c =? ch_tab).

(** ** The C library *)

(** [strsep(&str, delim)] of a string: the token, and the new [str]. *)
Fixpoint strsep (delim : Z → bool) (s : list Z) : list Z * option (list Z) :=
  match s with
  | [] => ([], None)
  | c :: s => if delim c then ([], Some s) else let '(t, r) := strsep delim s in (c :: t, r)
  end.

(** The subject sequence of [strtol] and [strtoul] to base 10: sign, digits and
    the rest; without digits the rest is the whole string. *)
Fixpoint digits_rest (s : list Z) : list Z * list Z :=
  match s with
  | [] => ([], [])
  | c :: s' => if isdigit c then let '(d, r) := digits_rest s' in (c :: d, r) else ([], s)
  end.

Fixpoint skip_spaces (s : list Z) : list Z :=
  match s with [] => [] | c :: s' => if isspace c then skip_spaces s' else s end.

Definition signed_digits (s : list Z) : bool * list Z * list Z :=
  let s0 := skip_spaces s in
  let neg := match s0 with c :: _ => c =? 45 | [] => false end in
  let s1 := match s0 with c :: r => if (c =? 43) || (c =? 45) then r else s0 | [] => [] end in
  let '(d, rest) := digits_rest s1 in
  (neg, d, match d with [] => s | _ => rest end).

(** [strtol(s, &end, 10)]: the value, clamped to a [long], and [end]. *)
Definition strtol (s : list Z) : Z * list Z :=
  let '(neg, d, rest) := signed_digits s in
  let v := if neg then - dval d else dval d in
  (Z.max (- 2 ^ 63) (Z.min (2 ^ 63 - 1) v), rest).

(** [strtoul(s, NULL, 10)]: the value, and whether [errno] becomes ERANGE. *)
Definition strtoul (s : list Z) : Z * bool :=
  let '(neg, d, _) := signed_digits s in
  if 2 ^ 64 <=? dval d then (2 ^ 64 - 1, true) else (u64 (if neg then - dval d else dval d), false).

(** [std::string::find] of a character and the two parts around it. *)
Fixpoint find_char (c : Z) (s : list Z) : option (list Z * list Z) :=
  match s with
  | [] => None
  | x :: s => if x =? c then Some ([], s) else '(a, b) ← find_char c s; Some (x :: a, b)
  end.

(** The loop over [strsep] that collects the tokens; what is left of the string
    when a [push_back] throws is passed to [free], which is defined for the null
    pointer only: the block started further left. *)
Fixpoint tokens_loop (fuel : nat) (delim : Z → bool) (push_ok : nat → bool) (line : option (list Z))
    (strings : list (list Z)) : option (bool * list (list Z)) :=
  match fuel with
  | O => None
  | S fuel =>
      match line with
      | None => Some (true, strings)
      | Some s =>
          let '(tmp, line) := strsep delim s in
          if push_ok (length strings) then tokens_loop fuel delim push_ok line (strings ++ [tmp])
          else match line with None => Some (false, strings) | Some _ => None end
      end
  end.

Definition split_string (delim : Z → bool) (push_ok : nat → bool) (s : list Z)
    : option (bool * list (list Z)) :=
  tokens_loop (S (S (length s))) delim push_ok (Some s) [].

(** ** A single string *)

Module Simple.

Definition fill (strdup_ok : bool) (data_source : DataSource) (data : option (list Z)) (it : config_item)
    : bool * config_item :=
  if refcnt_ it =? 0 then (false, it)
  else if negb (bool_decide (File = data_source)) then (false, it)
  else
    match data with
    | Some d => if strdup_ok then (true, mkItem (refcnt_ it) (Some d)) else (false, mkItem (refcnt_ it) None)
    | None => (true, mkItem (refcnt_ it) None)
    end.

Definition get (strdup_ok : bool) (it : config_item) : bool * option (list Z) :=
  match line_ it with
  | None => (false, None)
  | Some v => if strdup_ok then (true, Some v) else (false, None)
  end.

End Simple.

(** ** The purpose of the application *)

Module AppPurpose.

Inductive purpose : Set := FixGateway.

Definition FIX_GATEWAY : list Z := bytes_of_string "FIX_GATEWAY".

(** The item and the simple item inside it. *)
Definition fill (strdup_ok : bool) (data_source : DataSource) (data : option (list Z))
    (it : Z * config_item) : bool * (Z * config_item) :=
  if it.1 =? 0 then (false, it)
  else let '(r, simple) := Simple.fill strdup_ok data_source data it.2 in (r, (it.1, simple)).

Definition get (strdup_ok : bool) (it : Z * config_item) : option purpose :=
  let '(r, s) := Simple.get strdup_ok it.2 in
  if negb r then None
  else
    s ← s;
    if bool_decide (take (length FIX_GATEWAY) s = FIX_GATEWAY) then Some FixGateway else None.

End AppPurpose.

(** ** The fields of a line *)

Module StringVector.

Definition fill (strdup_ok : bool) (data_source : DataSource) (data : option (list Z)) (it : config_item)
    : bool * config_item :=
  if refcnt_ it =? 0 then (false, it)
  else if negb (bool_decide (File = data_source)) then (false, it)
  else
    match data with
    | Some d => if strdup_ok then (true, mkItem (refcnt_ it) (Some d)) else (false, mkItem (refcnt_ it) None)
    | None => (true, mkItem (refcnt_ it) None)
    end.

Definition get (strdup_ok : bool) (push_ok : nat → bool) (it : config_item) : option (bool * list (list Z)) :=
  match line_ it with
  | None => Some (false, [])
  | Some line => if strdup_ok then split_string delims push_ok line else Some (false, [])
  end.

End StringVector.

(** ** Endpoints *)

Inductive pf : Set := PF_UNSPEC | PF_INET | PF_INET6.
Inductive kind_t : Set := ConnectToThis | ListenOnThis.
Record endpoint_t := mkEndpoint { kind : kind_t; interface : list Z; port : Z; pf_family : pf }.

Definition ch_bar : Z := 124.
Definition ch_colon : Z := 58.

Module Network.

Definition fill (strdup_ok : bool) (data_source : DataSource) (data : option (list Z)) (it : config_item)
    : bool * config_item :=
  if refcnt_ it =? 0 then (false, it)
  else if negb (bool_decide (File = data_source)) then (false, it)
  else
    match data with
    | Some d => if strdup_ok then (true, mkItem (refcnt_ it) (Some d)) else (false, mkItem (refcnt_ it) None)
    | None => (true, mkItem (refcnt_ it) None)
    end.

Definition family_of (c : Z) : option pf :=
  if c =? 63 then Some PF_UNSPEC else if c =? 52 then Some PF_INET else if c =? 54 then Some PF_INET6 else None.

Definition kind_of (c : Z) : option kind_t :=
  if c =? 67 then Some ConnectToThis else if c =? 76 then Some ListenOnThis else None.

(** One token: an endpoint or [goto out].  Without a '|' the null pointer
    [strchr] returns is written through. *)
Definition endpoint (tmp : list Z) : option (option endpoint_t) :=
  match tmp with
  | [] => Some None
  | c :: tmp =>
      match family_of c with
      | None => Some None
      | Some fam =>
          match tmp with
          | [] => Some None
          | c :: tmp =>
              match kind_of c with
              | None => Some None
              | Some k =>
                  '(intf, pstr) ← find_char ch_bar tmp;
                  let '(port, pstr) := strtol pstr in
                  match pstr with
                  | _ :: _ => Some None
                  | [] =>
                      if (port <? 1) || (0xFFFF <? port) then Some None
                      else if zlen intf <=? 1 then Some None
                      else Some (Some (mkEndpoint k intf port fam))
                  end
              end
          end
      end
  end.

Fixpoint get_loop (fuel : nat) (data_dup : option (list Z)) (endpoints : list endpoint_t)
    : option (bool * list endpoint_t) :=
  match fuel with
  | O => None
  | S fuel =>
      match data_dup with
      | None => Some (true, endpoints)
      | Some s =>
          let '(tmp, data_dup) := strsep delims s in
          r ← endpoint tmp;
          match r with
          | None => Some (false, endpoints)
          | Some e => get_loop fuel data_dup (endpoints ++ [e])
          end
      end
  end.

(** The return value and [endpoints]. *)
Definition get (strdup_ok : bool) (it : config_item) : option (bool * list endpoint_t) :=
  match line_ it with
  | None => Some (false, [])
  | Some line => if strdup_ok then get_loop (S (S (length line))) (Some line) [] else Some (false, [])
  end.

End Network.

(** ** FIX sessions *)

Inductive FIX_Application_Version : Set :=
  | FIX_4_0 | FIX_4_1 | FIX_4_2 | FIX_4_3 | FIX_4_4 | FIX_5_0 | FIX_5_0_SP1 | FIX_5_0_SP2.
Inductive FIX_Session_Version : Set := NO_FIXT | FIXT_1_1.

Record FIX_Session_Config := mkConfig {
  is_duplex : bool; must_initiate_logon : bool; reset_seq_numbers_at_logon : bool;
  session_days_ : list bool; fixA_ver : FIX_Application_Version; fixT_ver : FIX_Session_Version;
  heartbeat_interval : Z; test_request_delay : Z; session_warm_up_time : Z;
  session_start : Z; session_end : Z; timezone : option (list Z);
  in_going : endpoint_t; out_going : endpoint_t }.

Definition ERANGE : Z := 34.
Definition EINVAL : Z := 22.
Definition SECONDS_IN_HOUR : Z := 3600.

Module FIXSession.

Definition DUPLEX_KEY := bytes_of_string "IS_DUPLEX".
Definition MUST_INITIATE_LOGON_KEY := bytes_of_string "INITIATE_LOGON".
Definition RESET_SEQ_NUMBERS_AT_LOGON_KEY := bytes_of_string "RESET_SEQ_NUMBERS_AT_LOGON".
Definition SESSION_DAYS_KEY := bytes_of_string "SESSION_DAYS".
Definition FIX_APPLICATION_VER_KEY := bytes_of_string "FIX_APPLICATION_VERSION".
Definition FIX_SESSION_VER_KEY := bytes_of_string "FIX_SESSION_VERSION".
Definition HEARTBEAT_INTERVAL_KEY := bytes_of_string "HEARTBEAT_INTERVAL".
Definition TEST_REQUEST_DELAY_KEY := bytes_of_string "TEST_REQUEST_DELAY".
Definition SESSION_WARM_UP_TIME_KEY := bytes_of_string "SESSION_WARM_UP_TIME".
Definition SESSION_START_KEY := bytes_of_string "SESSION_START".
Definition SESSION_END_KEY := bytes_of_string "SESSION_END".
Definition TIMEZONE_KEY := bytes_of_string "TIMEZONE".
Definition ENDPOINT_IN_GOING_KEY := bytes_of_string "ENDPOINT_IN_GOING".
Definition ENDPOINT_OUT_GOING_KEY := bytes_of_string "ENDPOINT_OUT_GOING".
Definition ENDPOINT_IN_OUT_KEY := bytes_of_string "ENDPOINT_IN_OUT".

(** The days in the order of [session_days_]. *)
Definition day_names : list (list Z) :=
  bytes_of_string <$> ["SU"; "MO"; "TU"; "WE"; "TH"; "FR"; "SA"]%string.

Definition str_to_ulong (errno : Z) (str : list Z) : bool * Z * Z :=
  let '(val, over) := strtoul str in
  let errno := if over then ERANGE else errno in
  (negb (errno =? ERANGE) && negb (errno =? EINVAL), val, errno).

(** The result, [first] and [second]. *)
Definition split (original : list Z) (delimiter : Z) : bool * list Z * list Z :=
  match find_char delimiter original with
  | None => (false, [], [])
  | Some (first, second) => (true, first, second)
  end.

(** The result, [seconds] and [errno]. *)
Definition hhmm_to_seconds (errno : Z) (HHMM : list Z) (seconds : Z) : bool * Z * Z :=
  let '(r, hours, minutes) := split HHMM ch_colon in
  if negb r then (false, seconds, errno)
  else
    let '(r, seconds, errno) := str_to_ulong errno hours in
    if negb r then (false, seconds, errno)
    else if 23 <? seconds then (false, seconds, errno)
    else
      let seconds := u64 (seconds * SECONDS_IN_HOUR) in
      let '(r, tmp, errno) := str_to_ulong errno minutes in
      if negb r then (false, seconds, errno)
      else if 59 <? tmp then (false, seconds, errno)
      else (true, u64 (seconds + u64 (tmp * 60)), errno).

Definition make_vector (strdup_ok : bool) (push_ok : nat → bool) (array : list Z) (delim : Z → bool)
    : option (bool * list (list Z)) :=
  if (zlen array =? 0) || negb strdup_ok then Some (false, []) else split_string delim push_ok array.

Abbreviation props := (gmap (list Z) (list Z)).

Definition required_keys : list (list Z) :=
  [DUPLEX_KEY; MUST_INITIATE_LOGON_KEY; RESET_SEQ_NUMBERS_AT_LOGON_KEY; SESSION_DAYS_KEY;
   FIX_APPLICATION_VER_KEY; FIX_SESSION_VER_KEY; HEARTBEAT_INTERVAL_KEY; TEST_REQUEST_DELAY_KEY;
   SESSION_WARM_UP_TIME_KEY; SESSION_START_KEY; SESSION_END_KEY; TIMEZONE_KEY].

Definition check_session_props (session_props : props) : bool :=
  forallb (λ k, bool_decide (is_Some (session_props !! k))) required_keys.

(** [session_props[key]]. *)
Definition prop (session_props : props) (key : list Z) : list Z := default [] (session_props !! key).

(** The first loop of [get]; [None] is the early return. *)
Fixpoint props_loop (items : list (list Z)) (session_props : props) : option props :=
  match items with
  | [] => Some session_props
  | it :: items =>
      let '(r, token, value) := split it ch_colon in
      if negb r then None
      else props_loop items
             (if (0 <? zlen token) && (0 <? zlen value) then <[token := value]> session_props else session_props)
  end.

Fixpoint days_loop (days : list (list Z)) (session_days : list bool) : bool * list bool :=
  match days with
  | [] => (true, session_days)
  | d :: days =>
      match list_find (λ n, n = d) day_names with
      | Some (i, _) => days_loop days (<[i := true]> session_days)
      | None => (false, session_days)
      end
  end.

Definition application_versions : list (list Z * FIX_Application_Version) :=
  [(bytes_of_string "FIX_4_0", FIX_4_0); (bytes_of_string "FIX_4_1", FIX_4_1);
   (bytes_of_string "FIX_4_2", FIX_4_2); (bytes_of_string "FIX_4_3", FIX_4_3);
   (bytes_of_string "FIX_4_4", FIX_4_4); (bytes_of_string "FIX_5_0", FIX_5_0);
   (bytes_of_string "FIX_5_0_SP1", FIX_5_0_SP1); (bytes_of_string "FIX_5_0_SP2", FIX_5_0_SP2)].
Definition session_versions : list (list Z * FIX_Session_Version) :=
  [(bytes_of_string "NO_FIXT", NO_FIXT); (bytes_of_string "FIXT_1_1", FIXT_1_1)].

Fixpoint choose {V} (l : list (list Z * V)) (s : list Z) : option V :=
  match l with
  | [] => None
  | (n, v) :: l => if bool_decide (n = s) then Some v else choose l s
  end.

(** Assignments to members. *)
Definition set_flags (d m r : bool) (c : FIX_Session_Config) : FIX_Session_Config := mkConfig d m r
  (session_days_ c) (fixA_ver c) (fixT_ver c) (heartbeat_interval c) (test_request_delay c)
  (session_warm_up_time c) (session_start c) (session_end c) (timezone c) (in_going c) (out_going
  c).
Definition set_days (d : list bool) (c : FIX_Session_Config) : FIX_Session_Config := mkConfig
  (is_duplex c) (must_initiate_logon c) (reset_seq_numbers_at_logon c) d (fixA_ver c) (fixT_ver c)
  (heartbeat_interval c) (test_request_delay c) (session_warm_up_time c) (session_start c)
  (session_end c) (timezone c) (in_going c) (out_going c).
Definition set_fixA (v : FIX_Application_Version) (c : FIX_Session_Config) : FIX_Session_Config :=
  mkConfig (is_duplex c) (must_initiate_logon c) (reset_seq_numbers_at_logon c) (session_days_ c) v
  (fixT_ver c) (heartbeat_interval c) (test_request_delay c) (session_warm_up_time c) (session_start
  c) (session_end c) (timezone c) (in_going c) (out_going c).
Definition set_fixT (v : FIX_Session_Version) (c : FIX_Session_Config) : FIX_Session_Config :=
  mkConfig (is_duplex c) (must_initiate_logon c) (reset_seq_numbers_at_logon c) (session_days_ c)
  (fixA_ver c) v (heartbeat_interval c) (test_request_delay c) (session_warm_up_time c)
  (session_start c) (session_end c) (timezone c) (in_going c) (out_going c).
Definition set_heartbeat (v : Z) (c : FIX_Session_Config) : FIX_Session_Config := mkConfig
  (is_duplex c) (must_initiate_logon c) (reset_seq_numbers_at_logon c) (session_days_ c) (fixA_ver
  c) (fixT_ver c) v (test_request_delay c) (session_warm_up_time c) (session_start c) (session_end
  c) (timezone c) (in_going c) (out_going c).
Definition set_delay (v : Z) (c : FIX_Session_Config) : FIX_Session_Config := mkConfig (is_duplex c)
  (must_initiate_logon c) (reset_seq_numbers_at_logon c) (session_days_ c) (fixA_ver c) (fixT_ver c)
  (heartbeat_interval c) v (session_warm_up_time c) (session_start c) (session_end c) (timezone c)
  (in_going c) (out_going c).
Definition set_warm_up (v : Z) (c : FIX_Session_Config) : FIX_Session_Config := mkConfig (is_duplex
  c) (must_initiate_logon c) (reset_seq_numbers_at_logon c) (session_days_ c) (fixA_ver c) (fixT_ver
  c) (heartbeat_interval c) (test_request_delay c) v (session_start c) (session_end c) (timezone c)
  (in_going c) (out_going c).
Definition set_start (v : Z) (c : FIX_Session_Config) : FIX_Session_Config := mkConfig (is_duplex c)
  (must_initiate_logon c) (reset_seq_numbers_at_logon c) (session_days_ c) (fixA_ver c) (fixT_ver c)
  (heartbeat_interval c) (test_request_delay c) (session_warm_up_time c) v (session_end c) (timezone
  c) (in_going c) (out_going c).
Definition set_end (v : Z) (c : FIX_Session_Config) : FIX_Session_Config := mkConfig (is_duplex c)
  (must_initiate_logon c) (reset_seq_numbers_at_logon c) (session_days_ c) (fixA_ver c) (fixT_ver c)
  (heartbeat_interval c) (test_request_delay c) (session_warm_up_time c) (session_start c) v
  (timezone c) (in_going c) (out_going c).
Definition set_timezone (v : option (list Z)) (c : FIX_Session_Config) : FIX_Session_Config := mkConfig
  (is_duplex c) (must_initiate_logon c) (reset_seq_numbers_at_logon c) (session_days_ c) (fixA_ver
  c) (fixT_ver c) (heartbeat_interval c) (test_request_delay c) (session_warm_up_time c)
  (session_start c) (session_end c) v (in_going c) (out_going c).
Definition set_in (v : endpoint_t) (c : FIX_Session_Config) : FIX_Session_Config := mkConfig
  (is_duplex c) (must_initiate_logon c) (reset_seq_numbers_at_logon c) (session_days_ c) (fixA_ver
  c) (fixT_ver c) (heartbeat_interval c) (test_request_delay c) (session_warm_up_time c)
  (session_start c) (session_end c) (timezone c) v (out_going c).
Definition set_out (v : endpoint_t) (c : FIX_Session_Config) : FIX_Session_Config := mkConfig
  (is_duplex c) (must_initiate_logon c) (reset_seq_numbers_at_logon c) (session_days_ c) (fixA_ver
  c) (fixT_ver c) (heartbeat_interval c) (test_request_delay c) (session_warm_up_time c)
  (session_start c) (session_end c) (timezone c) (in_going c) v.

(** Whether the calls of [strdup] on the way succeed. *)
Record allocs := mkAllocs {
  ok_items : bool; ok_days : bool; ok_timezone : bool; ok_endpoint : bool; ok_endpoint_dup : bool }.

Definition is_yes (s : list Z) : bool := bool_decide (bytes_of_string "YES" = s).

(** The state of [get]: the return value, [session_config] and [errno]. *)
Definition outcome : Type := bool * FIX_Session_Config * Z.

(** A local [ConfigItemNetwork] filled and read for one key: the endpoints. *)
Definition endpoints_of (ok : allocs) (data_source : DataSource) (session_props : props) (key : list Z)
    (ci_network : config_item) : option (list endpoint_t * config_item) :=
  let ci_network := (Network.fill (ok_endpoint ok) data_source (Some (prop session_props key)) ci_network).2 in
  '(_, endpoints) ← Network.get (ok_endpoint_dup ok) ci_network;
  Some (endpoints, ci_network).

(** The end of [get]: the endpoints. *)
Definition get_endpoints (ok : allocs) (data_source : DataSource) (session_props : props)
    (errno : Z) (c : FIX_Session_Config) : option outcome :=
  if is_duplex c then
    '(eps, _) ← endpoints_of ok data_source session_props ENDPOINT_IN_OUT_KEY (mkItem 1 None);
    match eps with
    | [e] => Some (true, set_out e (set_in e c), errno)
    | _ => Some (false, c, errno)
    end
  else
    '(eps, ci) ← endpoints_of ok data_source session_props ENDPOINT_IN_GOING_KEY (mkItem 1 None);
    match eps with
    | [e] =>
        let c := set_in e c in
        '(eps, _) ← endpoints_of ok data_source session_props ENDPOINT_OUT_GOING_KEY ci;
        match eps with
        | [e] => Some (true, set_out e c, errno)
        | _ => Some (false, c, errno)
        end
    | _ => Some (false, c, errno)
    end.

(** The numbers and times and the time zone. *)
Definition get_numbers (ok : allocs) (session_props : props) (errno : Z) (c : FIX_Session_Config) : outcome :=
  let '(r, v, errno) := str_to_ulong errno (prop session_props HEARTBEAT_INTERVAL_KEY) in
  let c := set_heartbeat v c in
  if negb r then (false, c, errno) else
  let '(r, v, errno) := str_to_ulong errno (prop session_props TEST_REQUEST_DELAY_KEY) in
  let c := set_delay v c in
  if negb r then (false, c, errno) else
  let '(r, v, errno) := str_to_ulong errno (prop session_props SESSION_WARM_UP_TIME_KEY) in
  let c := set_warm_up v c in
  if negb r then (false, c, errno) else
  let '(r, v, errno) := hhmm_to_seconds errno (prop session_props SESSION_START_KEY) (session_start c) in
  let c := set_start v c in
  if negb r then (false, c, errno) else
  let '(r, v, errno) := hhmm_to_seconds errno (prop session_props SESSION_END_KEY) (session_end c) in
  let c := set_end v c in
  if negb r then (false, c, errno) else
  if zlen (prop session_props TIMEZONE_KEY) =? 0 then (false, c, errno) else
  if negb (ok_timezone ok) then (false, set_timezone None c, errno)
  else (true, set_timezone (Some (prop session_props TIMEZONE_KEY)) c, errno).

(** [get] behind the check of the properties. *)
Definition get_checked (ok : allocs) (push_ok : nat → bool) (data_source : DataSource) (session_props : props)
    (errno : Z) (c : FIX_Session_Config) : option outcome :=
  let c := set_flags (is_yes (prop session_props DUPLEX_KEY)) (is_yes (prop session_props MUST_INITIATE_LOGON_KEY))
             (is_yes (prop session_props RESET_SEQ_NUMBERS_AT_LOGON_KEY)) c in
  '(r, days) ← make_vector (ok_days ok) push_ok (prop session_props SESSION_DAYS_KEY) (λ c, c =? 44);
  if negb r then Some (false, c, errno) else
  let '(r, arr) := days_loop days (replicate 7 false) in
  let c := set_days arr c in
  if negb r then Some (false, c, errno) else
  match choose application_versions (prop session_props FIX_APPLICATION_VER_KEY) with
  | None => Some (false, c, errno)
  | Some v =>
      let c := set_fixA v c in
      match choose session_versions (prop session_props FIX_SESSION_VER_KEY) with
      | None => Some (false, c, errno)
      | Some v =>
          let '(r, c, errno) := get_numbers ok session_props errno (set_fixT v c) in
          if negb r then Some (false, c, errno) else get_endpoints ok data_source session_props errno c
      end
  end.

(** The item: its reference count, [data_source_] and the vector item. *)
Record session_item := mkSession { s_refcnt : Z; data_source_ : DataSource; config_vector_item_ : config_item }.

Definition fill (strdup_ok : bool) (data_source : DataSource) (data : option (list Z)) (it : session_item)
    : bool * session_item :=
  if s_refcnt it =? 0 then (false, it)
  else
    let '(r, v) := StringVector.fill strdup_ok data_source data (config_vector_item_ it) in
    if negb r then (false, mkSession (s_refcnt it) (data_source_ it) v)
    else (true, mkSession (s_refcnt it) data_source v).

Definition get (ok : allocs) (push_ok push_days : nat → bool) (it : session_item) (errno : Z) (c : FIX_Session_Config)
    : option outcome :=
  '(r, items) ← StringVector.get (ok_items ok) push_ok (config_vector_item_ it);
  if negb r then Some (false, c, errno) else
  match props_loop items ∅ with
  | None => Some (false, c, errno)
  | Some session_props =>
      if negb (check_session_props session_props) then Some (false, c, errno)
      else get_checked ok push_days (data_source_ it) session_props errno c
  end.

End FIXSession.

(** ** Splitting *)

(** The fields of a string between single delimiters. *)
Fixpoint fields (delim : Z → bool) (s : list Z) : list (list Z) :=
  match s with
  | [] => [[]]
  | c :: s =>
      if delim c then [] :: fields delim s
      else match fields delim s with t :: ts => (c :: t) :: ts | [] => [] end
  end.

Lemma fields_nonempty delim s : fields delim s ≠ [].
Proof. induction s as [|c s IH]; cbn; [done|]. destruct (delim c); [done|]. by destruct (fields delim s). Qed.

Lemma strsep_fields delim s :
  fields delim s = (strsep delim s).1 :: match (strsep delim s).2 with None => [] | Some r => fields delim r end
  ∧ (∀ r, (strsep delim s).2 = Some r → (length r < length s)%nat).
Proof.
  induction s as [|c s [IH1 IH2]]; cbn [fields strsep length]; [done|].
  destruct (delim c); cbn; [split; [done | intros r [= <-]; lia]|].
  destruct (strsep delim s) as [t r]. cbn in *. rewrite IH1. split; [done|]. intros r' Hr. specialize (IH2 r' Hr). lia.
Qed.

Lemma tokens_loop_fields delim push_ok fuel : ∀ s strings,
  (∀ n, push_ok n = true) → (length s + 1 < fuel)%nat →
  tokens_loop fuel delim push_ok (Some s) strings = Some (true, strings ++ fields delim s).
Proof.
  induction fuel as [|fuel IH]; intros s strings Hok Hfuel; [lia|]. cbn [tokens_loop].
  destruct (strsep_fields delim s) as [-> Hlen]. destruct (strsep delim s) as [t [r|]]; cbn [fst snd] in *; rewrite Hok.
  - specialize (Hlen r eq_refl). rewrite IH by (done || lia). by rewrite <- app_assoc.
  - destruct fuel; [lia|]. cbn [tokens_loop]. done.
Qed.

Lemma split_string_fields delim push_ok s :
  (∀ n, push_ok n = true) → split_string delim push_ok s = Some (true, fields delim s).
Proof. intros Hok. unfold split_string. rewrite tokens_loop_fields by (done || lia). done. Qed.

(** Fields joined by one character. *)
Fixpoint join (sep : Z) (l : list (list Z)) : list Z :=
  match l with
  | [] => []
  | [t] => t
  | t :: l => t ++ sep :: join sep l
  end.

Definition free_of (delim : Z → bool) (t : list Z) : Prop := Forall (λ c, delim c = false) t.

Lemma fields_app delim t r : free_of delim t →
  fields delim (t ++ r) = match fields delim r with f :: fs => (t ++ f) :: fs | [] => [] end.
Proof.
  induction 1 as [|c t Hc _ IH]; cbn [app fields].
  - destruct (fields delim r) eqn:E; [by destruct (fields_nonempty delim r) | done].
  - rewrite Hc, IH. by destruct (fields delim r).
Qed.

Lemma fields_join delim sep l :
  delim sep = true → l ≠ [] → Forall (free_of delim) l → fields delim (join sep l) = l.
Proof.
  intros Hsep Hl Hf. induction Hf as [|t l Ht Hf IH]; [done|]. destruct l as [|t' l].
  - cbn [join]. rewrite <- (app_nil_r t) at 1. rewrite fields_app by done. cbn. by rewrite app_nil_r.
  - change (join sep (t :: t' :: l)) with (t ++ sep :: join sep (t' :: l)). rewrite fields_app by done.
    cbn [fields]. rewrite Hsep, IH by done. by rewrite app_nil_r.
Qed.

(** The fields are the pieces: put together again with their delimiters they are
    the string, and they have no delimiter inside. *)
Lemma fields_free delim s : Forall (free_of delim) (fields delim s).
Proof.
  induction s as [|c s IH]; cbn [fields]; [by repeat constructor|]. destruct (delim c) eqn:Ec; [by repeat constructor|].
  destruct (fields delim s); [done|]. apply Forall_cons in IH as [? ?]. by repeat constructor.
Qed.

Lemma find_char_spec c a b : Forall (λ x, x ≠ c) a → find_char c (a ++ c :: b) = Some (a, b).
Proof.
  induction 1 as [|x a Hx _ IH]; cbn [app find_char]; [by rewrite Z.eqb_refl|].
  by rewrite (proj2 (Z.eqb_neq x c)), IH.
Qed.

Lemma find_char_Some c s a b : find_char c s = Some (a, b) → s = a ++ c :: b ∧ Forall (λ x, x ≠ c) a.
Proof.
  revert a. induction s as [|x s IH]; cbn [find_char]; intros a H; [done|]. destruct (Z.eqb_spec x c) as [->|Hx].
  - by injection H as <- <-.
  - destruct (find_char c s) as [[a' b']|]; [|done]. cbn in H. injection H as <- <-.
    destruct (IH a' eq_refl) as [-> ?]. split; [done | by constructor].
Qed.

Lemma find_char_None c s : find_char c s = None ↔ Forall (λ x, x ≠ c) s.
Proof.
  induction s as [|x s IH]; cbn [find_char]; [done|]. rewrite Forall_cons. destruct (Z.eqb_spec x c) as [->|Hx].
  - split; [done | by intros [? _]].
  - destruct (find_char c s) as [[a b]|]; cbn; [|tauto]. split; [done|]. intros [_ H]. by apply IH in H.
Qed.

(** ** Numbers *)

Lemma digits_rest_digits d : digits d → digits_rest d = (d, []).
Proof. induction 1 as [|c d Hc _ IH]; cbn [digits_rest]; [done|]. by rewrite Hc, IH. Qed.

Lemma signed_digits_digits d : digits d → d ≠ [] → signed_digits d = (false, d, []).
Proof.
  intros Hd Hne. destruct d as [|c d]; [done|]. pose proof Hd as [Hc _]%Forall_cons.
  apply isdigit_spec in Hc as Hr. unfold signed_digits. cbn [skip_spaces].
  assert (Hs : isspace c = false) by (unfold isspace; bsolve; done).
  assert (H43 : (c =? 43) = false) by (apply Z.eqb_neq; lia).
  assert (H45 : (c =? 45) = false) by (apply Z.eqb_neq; lia).
  rewrite Hs. cbv iota. rewrite H43, H45. cbn [orb]. by rewrite digits_rest_digits.
Qed.

Lemma dec_nonempty n : dec n ≠ [].
Proof. intros H. pose proof (dec_length_pos n) as Hl. rewrite H in Hl. cbn in Hl. lia. Qed.

Lemma strtol_dec n : 0 ≤ n < 2 ^ 63 → strtol (dec n) = (n, []).
Proof.
  intros Hn. unfold strtol. rewrite signed_digits_digits by (try apply dec_digits; try apply dec_nonempty; lia).
  rewrite dval_dec by lia. f_equal. lia.
Qed.

Lemma strtoul_digits d : digits d → d ≠ [] → 0 ≤ dval d < 2 ^ 64 → strtoul d = (dval d, false).
Proof.
  intros Hd Hne Hv. unfold strtoul. rewrite signed_digits_digits by done. bsolve.
  f_equal. by apply Z.mod_small.
Qed.

Lemma dval_digits_nonneg d : digits d → 0 ≤ dval d.
Proof. intros Hd. by apply (dval_from_ge 0 d). Qed.

Lemma strtoul_range s : 0 ≤ (strtoul s).1 < 2 ^ 64.
Proof.
  unfold strtoul. destruct (signed_digits s) as [[neg d] r]. destruct (2 ^ 64 <=? dval d); cbn [fst].
  - lia.
  - apply Z.mod_pos_bound. lia.
Qed.

(** with memory available [StringVector.get] returns the fields of the line:
    the fields joined by any one of the delimiters are returned again, no field
    contains a delimiter, and a delimiter too many is an empty field.  When
    [push_back] throws before the last field, [free] is given a pointer into the
    block. *)
Theorem string_vector_get sep l r push_ok :
  delims sep = true → l ≠ [] → Forall (free_of delims) l →
  let it := mkItem r (Some (join sep l)) in
  ((∀ n, push_ok n = true) → StringVector.get true push_ok it = Some (true, l))
  ∧ ((2 ≤ length l)%nat → push_ok 0%nat = false → StringVector.get true push_ok it = None).
Proof.
  intros Hsep Hl Hf it. unfold StringVector.get, it. cbn [line_]. split.
  - intros Hok. rewrite split_string_fields, fields_join by done. done.
  - intros Hlen Hno. unfold split_string. cbn [tokens_loop length]. rewrite Hno.
    pose proof (fields_join delims sep l Hsep Hl Hf) as Hj. destruct (strsep_fields delims (join sep l)) as [Hs _].
    rewrite Hj in Hs. destruct (strsep delims (join sep l)) as [t [x|]]; [done|]. cbn in Hs. subst l. cbn in Hlen. lia.
Qed.

Lemma string_vector_get_witness :
  StringVector.get true (λ _, true) (mkItem 1 (Some (bytes_of_string "K:V L:W"))) = Some (true, bytes_of_string <$> ["K:V"; "L:W"]%string).
Proof.
  assert (Hf : Forall (free_of delims) (bytes_of_string <$> ["K:V"; "L:W"]%string)) by (by repeat constructor).
  assert (Hl : bytes_of_string <$> ["K:V"; "L:W"]%string ≠ []) by done.
  exact (proj1 (string_vector_get ch_space (bytes_of_string <$> ["K:V"; "L:W"]%string) 1 (λ _, true) eq_refl Hl Hf)
    (λ _, eq_refl)).
Defined.

(** ** Endpoints *)

Definition family_char (f : pf) : Z := match f with PF_UNSPEC => 63 | PF_INET => 52 | PF_INET6 => 54 end.
Definition kind_char (k : kind_t) : Z := match k with ConnectToThis => 67 | ListenOnThis => 76 end.

Definition render_endpoint (e : endpoint_t) : list Z :=
  family_char (pf_family e) :: kind_char (kind e) :: interface e ++ ch_bar :: dec (port e).

Definition endpoint_ok (e : endpoint_t) : Prop :=
  Forall (λ c, c ≠ ch_bar ∧ c ≠ 0 ∧ delims c = false) (interface e)
  ∧ 2 ≤ zlen (interface e) ∧ 1 ≤ port e ≤ 0xFFFF.

Lemma family_of_char f : Network.family_of (family_char f) = Some f.
Proof. by destruct f. Qed.
Lemma kind_of_char k : Network.kind_of (kind_char k) = Some k.
Proof. by destruct k. Qed.
Lemma family_of_inv c f : Network.family_of c = Some f → c = family_char f.
Proof. unfold Network.family_of. repeat case_match; bool_hyps; by intros [= <-]. Qed.
Lemma kind_of_inv c k : Network.kind_of c = Some k → c = kind_char k.
Proof. unfold Network.kind_of. repeat case_match; bool_hyps; by intros [= <-]. Qed.

Lemma endpoint_tokens t :
  (∀ e, Network.endpoint t = Some (Some e) ↔
     ∃ num, t = family_char (pf_family e) :: kind_char (kind e) :: interface e ++ ch_bar :: num
       ∧ strtol num = (port e, []) ∧ Forall (λ c, c ≠ ch_bar) (interface e)
       ∧ 2 ≤ zlen (interface e) ∧ 1 ≤ port e ≤ 0xFFFF)
  ∧ (Network.endpoint t = None ↔
     ∃ f k r, t = family_char f :: kind_char k :: r ∧ Forall (λ c, c ≠ ch_bar) r).
Proof.
  unfold Network.endpoint. split.
  - intros e. split.
    + destruct t as [|c [|c' t]]; [done| by destruct (Network.family_of c) |].
      destruct (Network.family_of c) as [f|] eqn:Ef; [|done]. destruct (Network.kind_of c') as [k|] eqn:Ek; [|done].
      destruct (find_char ch_bar t) as [[intf num]|] eqn:Eb; [|done]. obind.
      destruct (strtol num) as [p [|? ?]] eqn:En; [|done]. destruct ((p <? 1) || (65535 <? p)) eqn:Ep; [done|].
      destruct (zlen intf <=? 1) eqn:Ei; [done|]. intros [= <-]. cbn. exists num. bool_hyps.
      apply find_char_Some in Eb as [-> Hb]. apply family_of_inv in Ef as ->. apply kind_of_inv in Ek as ->.
      repeat split; try done; lia.
    + intros (num & -> & Hn & Hb & Hi & Hp). rewrite family_of_char, kind_of_char, find_char_spec by done. obind.
      rewrite Hn. bsolve. by destruct e.
  - split.
    + destruct t as [|c [|c' t]]; [done| by destruct (Network.family_of c) |].
      destruct (Network.family_of c) as [f|] eqn:Ef; [|done]. destruct (Network.kind_of c') as [k|] eqn:Ek; [|done].
      destruct (find_char ch_bar t) as [[intf num]|] eqn:Eb; obind.
      * destruct (strtol num) as [p [|? ?]]; [|done]. by repeat case_match.
      * intros _. exists f, k, t. apply find_char_None in Eb.
        by rewrite (family_of_inv _ _ Ef), (kind_of_inv _ _ Ek).
    + intros (f & k & r & -> & Hr). rewrite family_of_char, kind_of_char. by apply find_char_None in Hr as ->.
Qed.

(** what a token means: it is an endpoint exactly when it consists of a
    family, a kind, an interface of at least two characters without '|', a '|'
    and a number [strtol] reads to the end and finds between 1 and 65535; and
    it makes [get] write through a null pointer exactly when family and kind
    are valid and no '|' follows. *)
Theorem endpoint_exact t :
  (∀ e, Network.endpoint t = Some (Some e) ↔
     ∃ num, t = family_char (pf_family e) :: kind_char (kind e) :: interface e ++ ch_bar :: num
       ∧ strtol num = (port e, []) ∧ Forall (λ c, c ≠ ch_bar) (interface e)
       ∧ 2 ≤ zlen (interface e) ∧ 1 ≤ port e ≤ 0xFFFF)
  ∧ (Network.endpoint t = None ↔
     ∃ f k r, t = family_char f :: kind_char k :: r ∧ Forall (λ c, c ≠ ch_bar) r).
Proof. apply endpoint_tokens. Qed.

Lemma endpoint_render e : endpoint_ok e → Network.endpoint (render_endpoint e) = Some (Some e).
Proof.
  intros (Hb & Hi & Hp). apply endpoint_tokens. exists (dec (port e)).
  split; [done|]. split; [by rewrite strtol_dec by lia|]. split; [|done]. eapply Forall_impl; [exact Hb|]. by intros ? [? _].
Qed.

(** The tokens one after the other. *)
Fixpoint take_endpoints (ts : list (list Z)) (eps : list endpoint_t) : option (bool * list endpoint_t) :=
  match ts with
  | [] => Some (true, eps)
  | t :: ts =>
      r ← Network.endpoint t;
      match r with
      | None => Some (false, eps)
      | Some e => take_endpoints ts (eps ++ [e])
      end
  end.

Lemma get_loop_fields fuel : ∀ s eps,
  (length s + 1 < fuel)%nat → Network.get_loop fuel (Some s) eps = take_endpoints (fields delims s) eps.
Proof.
  induction fuel as [|fuel IH]; intros s eps Hfuel; [lia|]. cbn [Network.get_loop].
  destruct (strsep_fields delims s) as [-> Hlen]. destruct (strsep delims s) as [t [r|]]; cbn [fst snd take_endpoints] in *.
  - specialize (Hlen r eq_refl). destruct (Network.endpoint t) as [[e|]|]; [|done..]. obind. apply IH. lia.
  - destruct (Network.endpoint t) as [[e|]|]; [|done..]. obind. destruct fuel; [lia|]. done.
Qed.

Lemma network_get_fields r s : Network.get true (mkItem r (Some s)) = take_endpoints (fields delims s) [].
Proof. unfold Network.get. cbn [line_]. apply get_loop_fields. lia. Qed.

Lemma dec_free n : 0 ≤ n → free_of delims (dec n).
Proof.
  intros Hn. eapply Forall_impl; [by apply dec_digits|]. intros c Hc%isdigit_spec.
  unfold delims, ch_space, ch_cr, ch_tab. bsolve. done.
Qed.

Lemma endpoint_free e : endpoint_ok e → free_of delims (render_endpoint e).
Proof.
  intros (Hb & _ & Hp). unfold render_endpoint. constructor; [by destruct (pf_family e)|].
  constructor; [by destruct (kind e)|]. apply Forall_app. split.
  - eapply Forall_impl; [exact Hb|]. by intros c (_ & _ & ?).
  - constructor; [done|]. apply dec_free. lia.
Qed.

Lemma take_endpoints_render eps : ∀ acc, Forall endpoint_ok eps →
  take_endpoints (render_endpoint <$> eps) acc = Some (true, acc ++ eps).
Proof.
  induction eps as [|e eps IH]; intros acc He; cbn [fmap list_fmap take_endpoints]; [by rewrite app_nil_r|].
  apply Forall_cons in He as [He Hs]. rewrite endpoint_render by done. obind. unfold fmap in IH. rewrite IH by done.
  by rewrite <- app_assoc.
Qed.

Lemma network_get_render r eps : eps ≠ [] → Forall endpoint_ok eps →
  Network.get true (mkItem r (Some (join ch_space (render_endpoint <$> eps)))) = Some (true, eps).
Proof.
  intros Hne He. rewrite network_get_fields, fields_join; [by apply take_endpoints_render | done | by destruct eps|].
  apply Forall_fmap. eapply Forall_impl; [exact He|]. intros e Hok. by apply endpoint_free.
Qed.

(** a line of endpoints is read back: filling the item with endpoints
    written in the documented form, separated by a space, and getting them
    returns exactly those endpoints in order. *)
Theorem endpoints_roundtrip eps it :
  eps ≠ [] → Forall endpoint_ok eps → refcnt_ it ≠ 0 →
  ∃ it', Network.fill true File (Some (join ch_space (render_endpoint <$> eps))) it = (true, it')
    ∧ Network.get true it' = Some (true, eps).
Proof.
  intros Hne He Hr. unfold Network.fill. rewrite (proj2 (Z.eqb_neq _ _)) by done. cbn.
  eexists. split; [done|]. by apply network_get_render.
Qed.

Definition demo_endpoint : endpoint_t := mkEndpoint ListenOnThis (bytes_of_string "eth0") 5001 PF_INET.

Lemma demo_endpoint_ok : endpoint_ok demo_endpoint.
Proof. split; [repeat constructor; done | cbn; lia]. Qed.

Lemma endpoints_roundtrip_witness :
  ∃ it', Network.fill true File (Some (bytes_of_string "4Leth0|5001")) (mkItem 1 None) = (true, it')
    ∧ Network.get true it' = Some (true, [demo_endpoint]).
Proof.
  assert (Hl : [demo_endpoint] ≠ []) by done.
  assert (H1 : refcnt_ (mkItem 1 None) ≠ 0) by done.
  exact (endpoints_roundtrip [demo_endpoint] (mkItem 1 None) Hl (Forall_cons_2 _ _ _ demo_endpoint_ok (Forall_nil_2 _)) H1).
Defined.

(** ** Sessions *)

Import FIXSession.

Lemma str_to_ulong_dec errno n : 0 ≤ n < 2 ^ 64 → errno ≠ ERANGE → errno ≠ EINVAL →
  str_to_ulong errno (dec n) = (true, n, errno).
Proof.
  intros Hn H1 H2. unfold str_to_ulong.
  rewrite strtoul_digits by (rewrite ?dval_dec by lia; try apply dec_digits; try apply dec_nonempty; lia).
  rewrite dval_dec by lia. by rewrite (proj2 (Z.eqb_neq errno ERANGE)), (proj2 (Z.eqb_neq errno EINVAL)).
Qed.

Lemma str_to_ulong_padded errno k n : 0 ≤ n < 10 ^ Z.of_nat k → (0 < k ≤ 19)%nat → errno ≠ ERANGE → errno ≠ EINVAL →
  str_to_ulong errno (padded k n) = (true, n, errno).
Proof.
  intros Hn Hk H1 H2. assert (Hp : 10 ^ Z.of_nat k ≤ 10 ^ 19) by (apply Z.pow_le_mono_r; lia).
  assert (Hv : dval (padded k n) = n) by (rewrite dval_padded by lia; apply Z.mod_small; lia).
  unfold str_to_ulong. rewrite strtoul_digits, Hv.
  - by rewrite (proj2 (Z.eqb_neq errno ERANGE)), (proj2 (Z.eqb_neq errno EINVAL)).
  - apply padded_digits.
  - intros H. apply (f_equal length) in H. rewrite length_padded in H. cbn in H. lia.
  - rewrite Hv. split; [lia|]. apply (Z.lt_trans _ (10 ^ 19 + 1)); [lia | done].
Qed.

(** The time of day as "HH:MM". *)
Definition hhmm (t : Z) : list Z := padded 2 (t / 3600) ++ ch_colon :: padded 2 (t / 60 mod 60).

Definition time_ok (t : Z) : Prop := 0 ≤ t < 86400 ∧ t mod 60 = 0.

Lemma digits_no_colon d : digits d → Forall (λ c, c ≠ ch_colon) d.
Proof. intros Hd. eapply Forall_impl; [exact Hd|]. intros c Hc%isdigit_spec. unfold ch_colon. lia. Qed.

Lemma hhmm_to_seconds_hhmm errno t old : time_ok t → errno ≠ ERANGE → errno ≠ EINVAL →
  hhmm_to_seconds errno (hhmm t) old = (true, t, errno).
Proof.
  intros [Ht Hm] H1 H2. unfold hhmm_to_seconds, split, hhmm.
  rewrite find_char_spec by apply digits_no_colon, padded_digits. cbn [negb].
  rewrite str_to_ulong_padded by (try done; try lia; change (10 ^ Z.of_nat 2) with 100; Z.div_mod_to_equations; lia).
  cbn [negb]. unfold SECONDS_IN_HOUR.
  assert (Hh : (23 <? t / 3600) = false) by (apply Z.ltb_ge; Z.div_mod_to_equations; lia). rewrite Hh.
  rewrite str_to_ulong_padded by (try done; try lia; change (10 ^ Z.of_nat 2) with 100; Z.div_mod_to_equations; lia).
  cbn [negb]. assert (Hmm : (59 <? t / 60 mod 60) = false) by (apply Z.ltb_ge; Z.div_mod_to_equations; lia). rewrite Hmm.
  assert (Hq : t / 3600 = t / 60 / 60) by (rewrite Z.div_div by lia; done).
  assert (Hsum : t / 3600 * 3600 + t / 60 mod 60 * 60 = t) by (rewrite Hq; Z.div_mod_to_equations; lia).
  assert (Hb : 0 ≤ t / 3600 * 3600 ∧ 0 ≤ t / 60 mod 60 * 60) by (Z.div_mod_to_equations; lia).
  unfold u64. rewrite (Z.mod_small (t / 3600 * 3600)), (Z.mod_small (t / 60 mod 60 * 60)), Hsum, Z.mod_small by lia.
  done.
Qed.

(** a time of day [hhmm_to_seconds] accepts is a whole minute below 24
    hours, whatever the text; and every such time is accepted in the form
    "HH:MM" and gives its number of seconds. *)
Theorem hhmm_to_seconds_exact errno t old :
  (∀ s v e, hhmm_to_seconds errno s old = (true, v, e) → time_ok v)
  ∧ (time_ok t → errno ≠ ERANGE → errno ≠ EINVAL → hhmm_to_seconds errno (hhmm t) old = (true, t, errno)).
Proof.
  split; [|apply hhmm_to_seconds_hhmm]. intros s v e. unfold hhmm_to_seconds.
  destruct (split s ch_colon) as [[r hours] minutes]. destruct r; cbn [negb]; [|done]. unfold str_to_ulong.
  pose proof (strtoul_range hours) as Hh. pose proof (strtoul_range minutes) as Hm.
  destruct (strtoul hours) as [h o]. destruct (strtoul minutes) as [m o']. cbn [fst] in *.
  match goal with |- context [negb (negb ?x && negb ?y)] => destruct (negb x && negb y) end; cbn [negb]; [|done].
  destruct (23 <? h) eqn:E1; [done|].
  match goal with |- context [negb (negb ?x && negb ?y)] => destruct (negb x && negb y) end; cbn [negb]; [|done].
  destruct (59 <? m) eqn:E2; [done|]. intros [= <- _]. bool_hyps. unfold SECONDS_IN_HOUR, u64, time_ok.
  rewrite (Z.mod_small (h * 3600)), (Z.mod_small (m * 60)), (Z.mod_small (_ + _)) by lia.
  split; [lia|]. replace (h * 3600 + m * 60) with ((h * 60 + m) * 60) by lia. apply Z_mod_mult.
Qed.

Lemma hhmm_to_seconds_exact_witness :
  hhmm_to_seconds 0 (bytes_of_string "23:05") 7 = (true, 83100, 0) ∧ time_ok 83100.
Proof.
  assert (Ht : time_ok 83100) by (split; [lia | reflexivity]).
  assert (H1 : 0 ≠ ERANGE) by done. assert (H2 : 0 ≠ EINVAL) by done.
  split; [exact (proj2 (hhmm_to_seconds_exact 0 83100 7) Ht H1 H2) | exact Ht].
Defined.

(** A property as the line has it. *)
Definition kv_text (kv : list Z * list Z) : list Z := kv.1 ++ ch_colon :: kv.2.

Definition key_ok (kv : list Z * list Z) : Prop :=
  Forall (λ c, c ≠ ch_colon) kv.1 ∧ kv.1 ≠ [] ∧ kv.2 ≠ [] ∧ free_of delims kv.1 ∧ free_of delims kv.2.

Lemma props_loop_spec kvs : ∀ m, NoDup kvs.*1 → Forall key_ok kvs →
  ∃ m', props_loop (kv_text <$> kvs) m = Some m'
    ∧ (∀ k v, (k, v) ∈ kvs → m' !! k = Some v) ∧ (∀ k, k ∉ kvs.*1 → m' !! k = m !! k).
Proof.
  induction kvs as [|[k v] kvs IH]; intros m Hnd Hok; cbn [fmap list_fmap props_loop].
  { exists m. split; [done|]. split; [by intros ? ? ?%not_elem_of_nil | done]. }
  apply NoDup_cons in Hnd as [Hk Hnd]. apply Forall_cons in Hok as [(Hc & Hk0 & Hv0 & _) Hok]. cbn [fst snd] in *.
  unfold split, kv_text at 1. cbn [fst snd]. rewrite find_char_spec by done. cbn [negb].
  assert (Hlen : (0 <? zlen k) && (0 <? zlen v) = true).
  { destruct k; [done|]. destruct v; [done|]. cbn [length]. bsolve. done. }
  rewrite Hlen. destruct (IH (<[k:=v]> m) Hnd Hok) as (m' & Hrun & Hin & Hout). exists m'. split; [exact Hrun|].
  split.
  - intros k' v' [[= -> ->]|Hel]%elem_of_cons; [|by apply Hin]. rewrite Hout by done. apply lookup_insert_eq.
  - intros k' [Hne Hk']%not_elem_of_cons. rewrite Hout by done. by rewrite lookup_insert_ne.
Qed.

Definition yes (b : bool) : list Z := if b then bytes_of_string "YES" else bytes_of_string "NO".

(** The names of the days that are set. *)
Definition names_of (days : list bool) : list (list Z) :=
  concat (zip_with (λ (b : bool) n, if b then [n] else []) days day_names).

Definition application_name (v : FIX_Application_Version) : list Z :=
  match v with
  | FIX_4_0 => bytes_of_string "FIX_4_0" | FIX_4_1 => bytes_of_string "FIX_4_1"
  | FIX_4_2 => bytes_of_string "FIX_4_2" | FIX_4_3 => bytes_of_string "FIX_4_3"
  | FIX_4_4 => bytes_of_string "FIX_4_4" | FIX_5_0 => bytes_of_string "FIX_5_0"
  | FIX_5_0_SP1 => bytes_of_string "FIX_5_0_SP1" | FIX_5_0_SP2 => bytes_of_string "FIX_5_0_SP2"
  end.
Definition session_name (v : FIX_Session_Version) : list Z :=
  match v with NO_FIXT => bytes_of_string "NO_FIXT" | FIXT_1_1 => bytes_of_string "FIXT_1_1" end.

(** The properties of a configuration. *)
Definition render_session (c : FIX_Session_Config) : list (list Z * list Z) :=
  [(DUPLEX_KEY, yes (is_duplex c)); (MUST_INITIATE_LOGON_KEY, yes (must_initiate_logon c));
   (RESET_SEQ_NUMBERS_AT_LOGON_KEY, yes (reset_seq_numbers_at_logon c));
   (SESSION_DAYS_KEY, join 44 (names_of (session_days_ c)));
   (FIX_APPLICATION_VER_KEY, application_name (fixA_ver c)); (FIX_SESSION_VER_KEY, session_name (fixT_ver c));
   (HEARTBEAT_INTERVAL_KEY, dec (heartbeat_interval c)); (TEST_REQUEST_DELAY_KEY, dec (test_request_delay c));
   (SESSION_WARM_UP_TIME_KEY, dec (session_warm_up_time c)); (SESSION_START_KEY, hhmm (session_start c));
   (SESSION_END_KEY, hhmm (session_end c)); (TIMEZONE_KEY, default [] (timezone c))]
  ++ if is_duplex c then [(ENDPOINT_IN_OUT_KEY, render_endpoint (in_going c))]
     else [(ENDPOINT_IN_GOING_KEY, render_endpoint (in_going c));
           (ENDPOINT_OUT_GOING_KEY, render_endpoint (out_going c))].

Definition ulong (z : Z) : Prop := 0 ≤ z < 2 ^ 64.

Record config_ok (c : FIX_Session_Config) : Prop := mkOk {
  ok_seven : length (session_days_ c) = 7%nat;
  ok_some_day : true ∈ session_days_ c;
  ok_heartbeat : ulong (heartbeat_interval c);
  ok_delay : ulong (test_request_delay c);
  ok_warm_up : ulong (session_warm_up_time c);
  ok_start : time_ok (session_start c);
  ok_end : time_ok (session_end c);
  ok_tz : ∃ tz, timezone c = Some tz ∧ tz ≠ [] ∧ free_of delims tz;
  ok_in : endpoint_ok (in_going c);
  ok_out : endpoint_ok (out_going c);
  ok_same : is_duplex c = true → out_going c = in_going c }.

Definition freeb (t : list Z) : bool := forallb (λ c, negb (delims c)) t.

Lemma freeb_spec t : freeb t = true → free_of delims t.
Proof.
  intros H. apply Forall_forall. intros c Hc. unfold freeb in H. rewrite forallb_forall in H.
  apply negb_true_iff, H. by apply list_elem_of_In.
Qed.

(** The 128 sets of days, by evaluation. *)
Definition days_check (l : list bool) : bool :=
  let s := join 44 (names_of l) in
  negb (existsb id l)
  || (bool_decide (fields (λ c, c =? 44) s = names_of l)
      && bool_decide (days_loop (names_of l) (replicate 7 false) = (true, l)) && freeb s && (0 <? zlen s)).

Lemma days_checked l : length l = 7%nat → days_check l = true.
Proof.
  destruct l as [|b0 [|b1 [|b2 [|b3 [|b4 [|b5 [|b6 [|]]]]]]]]; try done. intros _.
  destruct b0, b1, b2, b3, b4, b5, b6; vm_compute; reflexivity.
Qed.

Lemma days_spec l : length l = 7%nat → true ∈ l →
  fields (λ c, c =? 44) (join 44 (names_of l)) = names_of l
  ∧ days_loop (names_of l) (replicate 7 false) = (true, l)
  ∧ free_of delims (join 44 (names_of l)) ∧ join 44 (names_of l) ≠ [].
Proof.
  intros Hlen Hin. pose proof (days_checked l Hlen) as H. unfold days_check in H.
  assert (Hex : existsb id l = true) by (apply existsb_exists; exists true; split; [by apply list_elem_of_In | done]).
  rewrite Hex in H. cbn [negb orb] in H. rewrite !andb_true_iff in H. destruct H as [[[H1 H2] H3] H4].
  apply bool_decide_eq_true in H1, H2. repeat split; [done..|by apply freeb_spec|].
  intros He. by rewrite He in H4.
Qed.

Lemma yes_is_yes b : is_yes (yes b) = b.
Proof. by destruct b. Qed.

Lemma choose_application v : choose application_versions (application_name v) = Some v.
Proof. by destruct v. Qed.
Lemma choose_session v : choose session_versions (session_name v) = Some v.
Proof. by destruct v. Qed.

Lemma free_hhmm t : free_of delims (hhmm t).
Proof.
  assert (Hp : ∀ k n, free_of delims (padded k n)).
  { intros k n. eapply Forall_impl; [apply padded_digits|]. intros c Hc%isdigit_spec.
    unfold delims, ch_space, ch_cr, ch_tab. bsolve. done. }
  apply Forall_app. split; [apply Hp|]. constructor; [done | apply Hp].
Qed.

Lemma render_keys c kv : config_ok c → kv ∈ render_session c → key_ok kv.
Proof.
  intros H Hin. destruct (days_spec _ (ok_seven c H) (ok_some_day c H)) as (_ & _ & Hd & Hd0).
  destruct (ok_tz c H) as (tz & Etz & Htz0 & Htz). unfold render_session in Hin. rewrite Etz in Hin.
  assert (Hk : ∀ k v, forallb (λ c, negb (c =? ch_colon)) k && freeb k && (0 <? zlen k) = true →
    v ≠ [] → free_of delims v → key_ok (k, v)).
  { intros k v [[H1 H2]%andb_true_iff H3]%andb_true_iff Hv Hf. repeat split; cbn; try done; [|by intros ->|by apply freeb_spec].
    apply Forall_forall. intros x Hx. rewrite forallb_forall in H1. apply list_elem_of_In, H1 in Hx.
    by apply negb_true_iff, Z.eqb_neq in Hx. }
  assert (Hdec : ∀ k z, forallb (λ c, negb (c =? ch_colon)) k && freeb k && (0 <? zlen k) = true → ulong z → key_ok (k, dec z)).
  { intros k z Hkk Hz. apply Hk; [done | apply dec_nonempty | apply dec_free, Hz]. }
  apply elem_of_app in Hin as [Hin|Hin].
  - rewrite !elem_of_cons, elem_of_nil in Hin. destruct_or! Hin; subst kv.
    1-3: apply Hk; [reflexivity | unfold yes; by case_match | apply freeb_spec; unfold yes; by case_match].
    + by apply Hk.
    + apply Hk; [reflexivity | by destruct (fixA_ver c) | apply freeb_spec; by destruct (fixA_ver c)].
    + apply Hk; [reflexivity | by destruct (fixT_ver c) | apply freeb_spec; by destruct (fixT_ver c)].
    + apply Hdec; [reflexivity | apply H].
    + apply Hdec; [reflexivity | apply H].
    + apply Hdec; [reflexivity | apply H].
    + apply Hk; [reflexivity | done | apply free_hhmm].
    + apply Hk; [reflexivity | done | apply free_hhmm].
    + by apply Hk.
  - destruct (is_duplex c).
    + apply list_elem_of_singleton in Hin. subst kv. apply Hk; [reflexivity | done | apply endpoint_free, H].
    + rewrite !elem_of_cons, elem_of_nil in Hin. destruct_or! Hin; subst kv;
        (apply Hk; [reflexivity | done | apply endpoint_free, H]).
Qed.

Lemma render_keys_NoDup c : NoDup (render_session c).*1.
Proof. apply (bool_decide_eq_true _). unfold render_session. destruct (is_duplex c); vm_compute; reflexivity. Qed.

Definition all_ok : allocs := mkAllocs true true true true true.

(** What the map of properties has to answer for a configuration. *)
Definition answers_for (c : FIX_Session_Config) (m : props) : Prop :=
  ∀ k v, (k, v) ∈ render_session c → m !! k = Some v.

Lemma answers_prop c m k v : answers_for c m → (k, v) ∈ render_session c → prop m k = v.
Proof. intros Ha Hin. unfold prop. by rewrite (Ha k v Hin). Qed.

(** Membership in the first twelve properties. *)
Ltac rendered := unfold render_session; rewrite elem_of_app; left; repeat (first [by left | right]).

Lemma get_numbers_spec c m errno c0 : config_ok c → answers_for c m → errno ≠ ERANGE → errno ≠ EINVAL →
  get_numbers all_ok m errno c0
  = (true, set_timezone (timezone c) (set_end (session_end c) (set_start (session_start c)
       (set_warm_up (session_warm_up_time c) (set_delay (test_request_delay c)
         (set_heartbeat (heartbeat_interval c) c0))))), errno).
Proof.
  intros Hc Ha H1 H2. unfold get_numbers.
  rewrite (answers_prop c m HEARTBEAT_INTERVAL_KEY _ Ha ltac:(rendered)), str_to_ulong_dec by (done || apply Hc). cbn [negb].
  rewrite (answers_prop c m TEST_REQUEST_DELAY_KEY _ Ha ltac:(rendered)), str_to_ulong_dec by (done || apply Hc). cbn [negb].
  rewrite (answers_prop c m SESSION_WARM_UP_TIME_KEY _ Ha ltac:(rendered)), str_to_ulong_dec by (done || apply Hc). cbn [negb].
  rewrite (answers_prop c m SESSION_START_KEY _ Ha ltac:(rendered)), hhmm_to_seconds_hhmm by (done || apply Hc). cbn [negb].
  rewrite (answers_prop c m SESSION_END_KEY _ Ha ltac:(rendered)), hhmm_to_seconds_hhmm by (done || apply Hc). cbn [negb].
  rewrite (answers_prop c m TIMEZONE_KEY _ Ha ltac:(rendered)).
  destruct (ok_tz c Hc) as (tz & -> & Htz & _). cbn [default]. destruct tz; [done|]. reflexivity.
Qed.

Lemma endpoints_of_spec ds m key e ci :
  ds = File → refcnt_ ci ≠ 0 → endpoint_ok e → prop m key = render_endpoint e →
  ∃ ci', endpoints_of all_ok ds m key ci = Some ([e], ci') ∧ refcnt_ ci' ≠ 0.
Proof.
  intros -> Hr He Hp. unfold endpoints_of. rewrite Hp.
  assert (Hfill : Network.fill (ok_endpoint all_ok) File (Some (render_endpoint e)) ci
    = (true, mkItem (refcnt_ ci) (Some (render_endpoint e)))).
  { unfold Network.fill. by rewrite (proj2 (Z.eqb_neq _ _)). }
  rewrite Hfill. cbn [snd ok_endpoint_dup all_ok].
  pose proof (network_get_render (refcnt_ ci) [e]) as Hg. cbn [fmap list_fmap join] in Hg.
  rewrite Hg by (try done; by constructor). obind. by eexists.
Qed.

Lemma get_endpoints_spec c m errno c0 : config_ok c → answers_for c m → is_duplex c0 = is_duplex c →
  get_endpoints all_ok File m errno c0 = Some (true, set_out (out_going c) (set_in (in_going c) c0), errno).
Proof.
  intros Hc Ha Hd. unfold get_endpoints. rewrite Hd. destruct (is_duplex c) eqn:Ed.
  - destruct (endpoints_of_spec File m ENDPOINT_IN_OUT_KEY (in_going c) (mkItem 1 None)) as (ci & -> & _); try done.
    { apply Hc. }
    { apply (answers_prop c); [done|]. unfold render_session. rewrite Ed, elem_of_app. right. by left. }
    obind. by rewrite (ok_same c Hc Ed).
  - destruct (endpoints_of_spec File m ENDPOINT_IN_GOING_KEY (in_going c) (mkItem 1 None)) as (ci & -> & Hr); try done.
    { apply Hc. }
    { apply (answers_prop c); [done|]. unfold render_session. rewrite Ed, elem_of_app. right. by left. }
    obind. destruct (endpoints_of_spec File m ENDPOINT_OUT_GOING_KEY (out_going c) ci) as (ci' & -> & _); try done.
    { apply Hc. }
    { apply (answers_prop c); [done|]. unfold render_session. rewrite Ed, elem_of_app. right. right. by left. }
Qed.

Lemma check_answers c m : answers_for c m → check_session_props m = true.
Proof.
  intros Ha. unfold check_session_props. apply forallb_forall. intros k Hk. apply bool_decide_eq_true.
  assert (Hin : ∃ v, (k, v) ∈ render_session c).
  { apply list_elem_of_In in Hk. unfold required_keys in Hk. rewrite !elem_of_cons, elem_of_nil in Hk.
    destruct_or! Hk; subst k; eexists; rendered. }
  destruct Hin as [v Hin]. rewrite (Ha k v Hin). eauto.
Qed.

Lemma get_checked_spec c m push errno c0 : config_ok c → answers_for c m → (∀ n, push n = true) →
  errno ≠ ERANGE → errno ≠ EINVAL → get_checked all_ok push File m errno c0 = Some (true, c, errno).
Proof.
  intros Hc Ha Hpush H1 H2. unfold get_checked.
  rewrite (answers_prop c m DUPLEX_KEY _ Ha ltac:(rendered)), (answers_prop c m MUST_INITIATE_LOGON_KEY _ Ha ltac:(rendered)),
    (answers_prop c m RESET_SEQ_NUMBERS_AT_LOGON_KEY _ Ha ltac:(rendered)),
    (answers_prop c m SESSION_DAYS_KEY _ Ha ltac:(rendered)), !yes_is_yes.
  destruct (days_spec _ (ok_seven c Hc) (ok_some_day c Hc)) as (Hf & Hloop & _ & Hne).
  assert (Hmv : make_vector (ok_days all_ok) push (join 44 (names_of (session_days_ c))) (λ c, c =? 44)
    = Some (true, names_of (session_days_ c))).
  { unfold make_vector. cbn [ok_days all_ok negb]. rewrite orb_false_r.
    assert (Hlen : (zlen (join 44 (names_of (session_days_ c))) =? 0) = false).
    { destruct (join 44 (names_of (session_days_ c))); [done | by apply Z.eqb_neq]. }
    by rewrite Hlen, split_string_fields, Hf. }
  rewrite Hmv. obind. cbn [negb]. rewrite Hloop. cbn [negb].
  rewrite (answers_prop c m FIX_APPLICATION_VER_KEY _ Ha ltac:(rendered)), choose_application.
  rewrite (answers_prop c m FIX_SESSION_VER_KEY _ Ha ltac:(rendered)), choose_session.
  rewrite (get_numbers_spec c) by done. cbn [negb]. rewrite (get_endpoints_spec c) by done.
  by destruct c.
Qed.

Lemma session_line_read c c0 kvs it push push_days errno :
  config_ok c → kvs ≡ₚ render_session c →
  s_refcnt it ≠ 0 → refcnt_ (config_vector_item_ it) ≠ 0 →
  (∀ n, push n = true) → (∀ n, push_days n = true) → errno ≠ ERANGE → errno ≠ EINVAL →
  ∃ it', fill true File (Some (join ch_space (kv_text <$> kvs))) it = (true, it')
    ∧ get all_ok push push_days it' errno c0 = Some (true, c, errno).
Proof.
  intros Hc Hp Hr1 Hr2 Hpush Hpush' H1 H2. unfold fill, StringVector.fill.
  rewrite (proj2 (Z.eqb_neq (s_refcnt it) 0)), (proj2 (Z.eqb_neq (refcnt_ _) 0)) by done.
  cbn [negb]. rewrite (bool_decide_true (File = File)) by done. cbn [negb]. eexists. split; [reflexivity|].
  assert (Hkeys : Forall key_ok kvs).
  { apply Forall_forall. intros kv Hkv. apply (render_keys c); [done|]. by rewrite <- Hp. }
  assert (Hne : kv_text <$> kvs ≠ []).
  { intros Hn%fmap_nil_inv. subst kvs. by apply Permutation_nil_l in Hp. }
  assert (Hfree : Forall (free_of delims) (kv_text <$> kvs)).
  { apply Forall_fmap. eapply Forall_impl; [exact Hkeys|]. intros kv (_ & _ & _ & Hk & Hv).
    apply Forall_app. split; [done|]. by constructor. }
  unfold get. cbn [ok_items all_ok config_vector_item_]. unfold StringVector.get. cbn [line_].
  rewrite split_string_fields, fields_join by done. obind. cbn [negb].
  destruct (props_loop_spec kvs ∅) as (m & -> & Hm & _); [|done|].
  { rewrite Hp. apply render_keys_NoDup. }
  assert (Ha : answers_for c m) by (intros k v Hin; apply Hm; by rewrite Hp).
  rewrite (check_answers c) by done. cbn [negb data_source_]. by apply get_checked_spec.
Qed.

(** the configuration of a session is read back: a line with one property
    per member, in any order, separated by single spaces, makes [get] succeed
    and set every member to its value, whatever [session_config] was before
    ([errno] must not be left over from an earlier error). *)
Theorem session_config_roundtrip c c0 kvs it push push_days errno :
  config_ok c → kvs ≡ₚ render_session c →
  s_refcnt it ≠ 0 → refcnt_ (config_vector_item_ it) ≠ 0 →
  (∀ n, push n = true) → (∀ n, push_days n = true) → errno ≠ ERANGE → errno ≠ EINVAL →
  ∃ it', fill true File (Some (join ch_space (kv_text <$> kvs))) it = (true, it')
    ∧ get all_ok push push_days it' errno c0 = Some (true, c, errno).
Proof. apply session_line_read. Qed.

Definition demo_config : FIX_Session_Config :=
  mkConfig true true false [false; true; true; true; true; true; false] FIX_4_4 NO_FIXT 30 10 60 28800 59400
    (Some (bytes_of_string "Europe/Copenhagen")) demo_endpoint demo_endpoint.

Lemma demo_config_ok : config_ok demo_config.
Proof.
  split; cbn; try done; try (unfold ulong; lia); try apply demo_endpoint_ok; try (split; [lia | reflexivity]).
  - apply list_elem_of_In. cbn. tauto.
  - eexists. split; [done|]. split; [done|]. by apply freeb_spec.
Qed.

Lemma session_config_roundtrip_witness :
  ∃ it', fill true File (Some (join ch_space (kv_text <$> render_session demo_config)))
           (mkSession 1 UNKNOWN (mkItem 1 None)) = (true, it')
    ∧ get all_ok (λ _, true) (λ _, true) it' 0 (set_heartbeat 5 demo_config) = Some (true, demo_config, 0).
Proof.
  assert (H1 : 1 ≠ 0) by done. assert (H2 : 0 ≠ ERANGE) by done. assert (H3 : 0 ≠ EINVAL) by done.
  exact (session_config_roundtrip demo_config (set_heartbeat 5 demo_config) (render_session demo_config)
    (mkSession 1 UNKNOWN (mkItem 1 None)) (λ _, true) (λ _, true) 0 demo_config_ok (Permutation_refl _)
    H1 H1 (λ _, eq_refl) (λ _, eq_refl) H2 H3).
Defined.

Lemma get_numbers_stale ok m errno c : errno = ERANGE ∨ errno = EINVAL → (get_numbers ok m errno c).1.1 = false.
Proof.
  intros He. unfold get_numbers, str_to_ulong at 1. destruct (strtoul _) as [v over].
  assert (Hbad : negb ((if over then ERANGE else errno) =? ERANGE) && negb ((if over then ERANGE else errno) =? EINVAL) = false).
  { destruct over; [done|]. by destruct He as [-> | ->]. }
  by rewrite Hbad.
Qed.

(** what [get] does with what it does not check.  [errno] is compared
    without having been cleared: after an earlier overflow in the same thread no
    configuration is accepted any more.  A second space between two properties
    makes an empty field, which has no ':' and fails the whole line.  Text that
    is no number counts as 0 and a negative one wraps around, so a heartbeat
    interval of "-1" is [2^64 - 1] seconds; a time of ":" is midnight. *)
Theorem session_config_defects :
  (∀ ok push push_days it errno c r,
     errno = ERANGE ∨ errno = EINVAL → get ok push push_days it errno c = Some r → r.1.1 = false)
  ∧ (∀ a b m, props_loop (a ++ [] :: b) m = None)
  ∧ (∀ errno, errno ≠ ERANGE → errno ≠ EINVAL →
       str_to_ulong errno (bytes_of_string "soon") = (true, 0, errno)
       ∧ str_to_ulong errno (bytes_of_string "-1") = (true, 2 ^ 64 - 1, errno)
       ∧ ∀ old, hhmm_to_seconds errno (bytes_of_string ":") old = (true, 0, errno)).
Proof.
  split; [|split].
  - intros ok push push_days it errno c r He. unfold get. opt_case; [|done]. destruct p as [r0 items].
    destruct r0; cbn [negb]; [|by intros [= <-]]. destruct (props_loop items ∅) as [m|]; [|by intros [= <-]].
    destruct (check_session_props m); cbn [negb]; [|by intros [= <-]]. unfold get_checked.
    destruct (make_vector _ _ _ _) as [[r1 days]|]; obind; [|done]. destruct r1; cbn [negb]; [|by intros [= <-]].
    destruct (days_loop days _) as [r2 arr]. destruct r2; cbn [negb]; [|by intros [= <-]].
    destruct (choose application_versions _) as [va|]; [|by intros [= <-]].
    destruct (choose session_versions _) as [vs|]; [|by intros [= <-]].
    match goal with |- context [get_numbers ?a ?b ?x ?y] => pose proof (get_numbers_stale a b x y He) as Hn;
      destruct (get_numbers a b x y) as [[r3 c3] e3] end.
    cbn in Hn. subst r3. cbn [negb]. by intros [= <-].
  - intros a b. induction a as [|x a IH]; intros m; cbn [app props_loop]; [done|].
    unfold split. destruct (find_char ch_colon x) as [[t v]|]; cbn [negb]; [apply IH | done].
  - intros errno H1 H2. assert (Ho : negb (errno =? ERANGE) && negb (errno =? EINVAL) = true).
    { by rewrite (proj2 (Z.eqb_neq errno ERANGE)), (proj2 (Z.eqb_neq errno EINVAL)). }
    assert (Hs : ∀ s v, strtoul s = (v, false) → str_to_ulong errno s = (true, v, errno)).
    { intros s v Hv. unfold str_to_ulong. by rewrite Hv, Ho. }
    split; [apply Hs; vm_compute; reflexivity|]. split; [apply Hs; vm_compute; reflexivity|].
    intros old. unfold hhmm_to_seconds. change (split (bytes_of_string ":") ch_colon) with (true, @nil Z, @nil Z).
    cbn [negb]. by rewrite !(Hs [] 0 eq_refl).
Qed.

Lemma session_config_defects_witness :
  (get all_ok (λ _, true) (λ _, true)
     (mkSession 1 File (mkItem 1 (Some (join ch_space (kv_text <$> render_session demo_config))))) ERANGE demo_config)
  = Some (false, demo_config, ERANGE)
  ∧ str_to_ulong 0 (bytes_of_string "soon") = (true, 0, 0).
Proof.
  assert (H1 : 0 ≠ ERANGE) by done. assert (H2 : 0 ≠ EINVAL) by done.
  split; [vm_compute; reflexivity | exact (proj1 (proj2 (proj2 session_config_defects) 0 H1 H2))].
Defined.
