(* ===== verification/Config.v ===== *)
(** * Subscribing to configuration items: [src/stdlib/config/config.cpp], [.h]

    [Config] owns a reference counted [ConfigFile]; [subscribe] looks a value up
    under the key "identity:domain:item", fills the item with it and starts a
    thread that refreshes it.  The item is an instance of the class
    [ConfigItem], the abstract class of the source. *)
From S2P Require Import Prelude ConfigFile ConfigItems.

(** ** The abstract class *)

Class ConfigItem (S : Type) := {
  refcnt : S → Z;
  item_fill : bool → DataSource → option (list Z) → S → bool * S }.

(** What the implementations promise: [fill] keeps the reference count, does
    nothing to an item without one, and takes values from files only. *)
Class ConfigItemLaws (S : Type) `{ConfigItem S} := {
  fill_refcnt ok src d s : refcnt (item_fill ok src d s).2 = refcnt s;
  fill_dead ok src d s : refcnt s = 0 → item_fill ok src d s = (false, s);
  fill_source ok src d s : src ≠ File → (item_fill ok src d s).1 = false }.

Definition SimpleItem : ConfigItem config_item := Build_ConfigItem _ refcnt_ Simple.fill.
Definition StringVectorItem : ConfigItem config_item := Build_ConfigItem _ refcnt_ StringVector.fill.
Definition NetworkItem : ConfigItem config_item := Build_ConfigItem _ refcnt_ Network.fill.
#[global] Instance AppPurposeItem : ConfigItem (Z * config_item) := Build_ConfigItem _ fst AppPurpose.fill.
#[global] Instance FIXSessionItem : ConfigItem FIXSession.session_item :=
  Build_ConfigItem _ FIXSession.s_refcnt FIXSession.fill.

(** ** The object *)

(** [default_identity], the items of [config_file_] and its reference count. *)
Record config := mkConfigObj {
  default_identity : option (list Z); file_items : list ConfigFile.item; file_refs : Z }.

(** What [init] leaves behind, with the return value; [None] is undefined, the
    inner [None] a [load] that still waits.  The source is not null. *)
Definition init (identity : option (list Z)) (looks : list (bool * bool * option conf_file))
    : option (option (bool * config)) :=
  r ← load false looks;
  match r with
  | None => Some None
  | Some (retv, items) => Some (Some (retv =? 0, mkConfigObj identity items 1))
  end.

(** Whether the allocations of [subscribe] and the creation of the thread
    succeed. *)
Record sub_ok := mkSubOk { ok_key : bool; ok_kv : bool; ok_value : bool; ok_fill : bool; ok_thread : bool }.

Definition key_text (id domain item : option (list Z)) : list Z :=
  default [] id ++ ch_colon :: default [] domain ++ ch_colon :: default [] item.

(** The length computed for the key, and [snprintf] into a block of that
    size. *)
Definition key_len (id domain item : option (list Z)) : Z :=
  zlen (default [] id) + zlen (default [] domain) + zlen (default [] item) + 3.

Definition snprintf_key (id domain item : option (list Z)) : option (list Z) :=
  let len := key_len id domain item in
  write_at (replicate (Z.to_nat len) 0) 0 (take (Z.to_nat (len - 1)) (key_text id domain item) ++ [0]).

Section Subscribe.
Context {S : Type} `{ConfigItem S}.

(** The return value, the object and the item.  When [fill] fails the freed
    value is passed on to the log. *)
Definition subscribe (ok : sub_ok) (identity domain item : option (list Z)) (value : option S) (c : config)
    : option (bool * config * option S) :=
  match value with
  | None => Some (false, c, value)
  | Some v =>
      if refcnt v =? 0 then Some (false, c, value)
      else
        let id := match identity with Some _ => identity | None => default_identity c end in
        if negb (ok_key ok) then Some (false, c, value)
        else
          block ← snprintf_key id domain item;
          key ← cstr block;
          if negb (ok_kv ok) then Some (false, c, value)
          else
            let retained := mkConfigObj (default_identity c) (file_items c) (file_refs c + 1) in
            let released := c in
            match (if ok_value ok then get_value (file_items c) key else None) with
            | None => Some (false, released, value)
            | Some item_value =>
                let '(r, v) := item_fill (ok_fill ok) File (Some item_value) v in
                if negb r then None
                else if negb (ok_thread ok) then Some (false, released, Some v)
                else Some (true, retained, Some v)
            end
  end.

(** One round of the updater thread for [key]: [reload], the look up, [fill].
    The inner [None] is a [reload] that still waits. *)
Definition updater_round (ok : sub_ok) (file_name_ : option (list Z)) (key : list Z)
    (looks : list (bool * bool * option conf_file)) (c : config) (v : S) : option (option (config * S)) :=
  r ← reload file_name_ (file_items c) looks;
  match r with
  | None => Some None
  | Some (load_res, items) =>
      let c := mkConfigObj (default_identity c) items (file_refs c) in
      if negb (load_res =? 0) then Some (Some (c, v))
      else
        match (if ok_value ok then get_value items key else None) with
        | None => Some (Some (c, v))
        | Some item_value => Some (Some (c, (item_fill (ok_fill ok) File (Some item_value) v).2))
        end
  end.

End Subscribe.

(** ** The implementations keep the promise *)

Lemma simple_laws : @ConfigItemLaws config_item SimpleItem.
Proof.
  split; cbn; unfold Simple.fill.
  - intros ok src d s. destruct (refcnt_ s =? 0); [done|]. case_bool_decide; [|done]. by destruct d, ok.
  - intros ok src d s ->. done.
  - intros ok src d s Hs. destruct (refcnt_ s =? 0); [done|]. by rewrite bool_decide_false.
Qed.

Lemma string_vector_laws : @ConfigItemLaws config_item StringVectorItem.
Proof. exact simple_laws. Qed.

Lemma network_laws : @ConfigItemLaws config_item NetworkItem.
Proof. exact simple_laws. Qed.

#[global] Instance app_purpose_laws : ConfigItemLaws (Z * config_item).
Proof.
  split; cbn; unfold AppPurpose.fill.
  - intros ok src d [n s]. cbn. destruct (n =? 0); [done|]. by destruct (Simple.fill ok src d s).
  - intros ok src d [n s]. by intros ->.
  - intros ok src d [n s] Hs. cbn. destruct (n =? 0); [done|].
    pose proof (@fill_source _ _ simple_laws ok src d s Hs) as Hf. cbn in Hf. by destruct (Simple.fill ok src d s).
Qed.

#[global] Instance session_laws : ConfigItemLaws FIXSession.session_item.
Proof.
  split; cbn; unfold FIXSession.fill.
  - intros ok src d s. destruct (FIXSession.s_refcnt s =? 0); [done|].
    destruct (StringVector.fill _ _ _ _) as [[|] v]; done.
  - intros ok src d s. by intros ->.
  - intros ok src d s Hs. destruct (FIXSession.s_refcnt s =? 0); [done|].
    pose proof (@fill_source _ _ string_vector_laws ok src d (FIXSession.config_vector_item_ s) Hs) as Hf. cbn in Hf.
    destruct (StringVector.fill _ _ _ _) as [[|] v]; done.
Qed.

(** ** Keys *)

Lemma snprintf_key_text id domain item :
  Forall (λ c, c ≠ 0) (default [] id) → Forall (λ c, c ≠ 0) (default [] domain) →
  Forall (λ c, c ≠ 0) (default [] item) →
  ∃ block, snprintf_key id domain item = Some block ∧ cstr block = Some (key_text id domain item).
Proof.
  intros Hi Hd Ht. unfold snprintf_key. set (len := key_len id domain item).
  assert (Hlen : zlen (key_text id domain item) = len - 1).
  { unfold key_text, len, key_len. rewrite !length_app, !length_cons, !length_app, !length_cons. lia. }
  rewrite take_ge by lia. exists (key_text id domain item ++ [0]). split.
  - rewrite <- (app_nil_r (replicate _ _)), write_at_head; [by rewrite app_nil_r|].
    rewrite length_replicate, length_app. cbn [length]. lia.
  - rewrite <- (app_nil_r [0]) at 1. cbn [app]. apply cstr_app. unfold key_text, ch_colon.
    apply Forall_app. split; [done|]. constructor; [done|]. apply Forall_app. split; [done|]. by constructor.
Qed.

Definition no_colon (s : option (list Z)) : Prop := Forall (λ c, c ≠ ch_colon) (default [] s).

(** Keys made of parts without a colon name their parts. *)
Lemma key_text_inj i d t i' d' t' :
  no_colon i → no_colon d → no_colon i' → no_colon d' →
  key_text i d t = key_text i' d' t' → default [] i = default [] i' ∧ default [] d = default [] d' ∧ default [] t = default [] t'.
Proof.
  unfold key_text. intros Hi Hd Hi' Hd' Hk.
  apply (f_equal (find_char ch_colon)) in Hk. rewrite !find_char_spec in Hk by done.
  injection Hk as -> Hk. apply (f_equal (find_char ch_colon)) in Hk. rewrite !find_char_spec in Hk by done.
  by injection Hk as -> ->.
Qed.

Definition plain (s : option (list Z)) : Prop := Forall (λ c, c ≠ 0) (default [] s).

Section SubscribeSpec.
Context {S : Type} `{ConfigItemLaws S}.

Lemma subscribe_found identity domain item (v : S) c :
  let id := match identity with Some _ => identity | None => default_identity c end in
  let found := get_value (file_items c) (key_text id domain item) in
  let ok := mkSubOk true true true true true in
  refcnt v ≠ 0 → plain id → plain domain → plain item →
  match found with
  | None => subscribe ok identity domain item (Some v) c = Some (false, c, Some v)
  | Some x =>
      match item_fill true File (Some x) v with
      | (true, v') =>
          refcnt v' = refcnt v ∧ subscribe ok identity domain item (Some v) c
          = Some (true, mkConfigObj (default_identity c) (file_items c) (file_refs c + 1), Some v')
      | (false, _) => subscribe ok identity domain item (Some v) c = None
      end
  end.
Proof.
  intros id found ok Hr Hi Hd Ht. unfold subscribe. rewrite (proj2 (Z.eqb_neq _ _)) by done. fold id.
  destruct (snprintf_key_text id domain item Hi Hd Ht) as (block & Hb & Hc).
  cbn [ok ok_key ok_kv ok_value ok_fill ok_thread negb]. rewrite Hb. obind. rewrite Hc. obind. fold found.
  destruct found as [x|]; [|done]. pose proof (fill_refcnt true File (Some x) v) as Hf.
  destruct (item_fill true File (Some x) v) as [r v']. destruct r; done.
Qed.

(** [subscribe] with memory available: the item is filled with the value of
    the first line whose token is exactly "identity:domain:item" (the default
    identity where none is given), and the configuration is retained for the
    thread; without such a line it fails and leaves everything as it was; a
    value [fill] refuses makes it use the value after freeing it. *)
Theorem subscribe_spec identity domain item (v : S) c :
  let id := match identity with Some _ => identity | None => default_identity c end in
  let found := get_value (file_items c) (key_text id domain item) in
  let ok := mkSubOk true true true true true in
  refcnt v ≠ 0 → plain id → plain domain → plain item →
  match found with
  | None => subscribe ok identity domain item (Some v) c = Some (false, c, Some v)
  | Some x =>
      match item_fill true File (Some x) v with
      | (true, v') =>
          refcnt v' = refcnt v ∧ subscribe ok identity domain item (Some v) c
          = Some (true, mkConfigObj (default_identity c) (file_items c) (file_refs c + 1), Some v')
      | (false, _) => subscribe ok identity domain item (Some v) c = None
      end
  end.
Proof. apply subscribe_found. Qed.

End SubscribeSpec.

Lemma subscribe_spec_witness :
  let c := mkConfigObj (Some (bytes_of_string "me")) [(bytes_of_string "me:net:name", bytes_of_string "x")] 1 in
  @subscribe _ SimpleItem (mkSubOk true true true true true) None (Some (bytes_of_string "net")) (Some (bytes_of_string "name"))
    (Some (mkItem 1 None)) c
  = Some (true, mkConfigObj (default_identity c) (file_items c) 2, Some (mkItem 1 (Some (bytes_of_string "x")))).
Proof.
  intros c. assert (H1 : @refcnt _ SimpleItem (mkItem 1 None) ≠ 0) by done.
  assert (Hp : ∀ s, forallb (λ c, negb (c =? 0)) (bytes_of_string s) = true → plain (Some (bytes_of_string s))).
  { intros s Hs. apply Forall_forall. intros x Hx%list_elem_of_In. rewrite forallb_forall in Hs.
    by apply Hs, negb_true_iff, Z.eqb_neq in Hx. }
  exact (proj2 (@subscribe_spec _ SimpleItem simple_laws None (Some (bytes_of_string "net")) (Some (bytes_of_string "name"))
    (mkItem 1 None) c H1 (Hp "me"%string eq_refl) (Hp "net"%string eq_refl) (Hp "name"%string eq_refl))).
Defined.

(** ** From the file to a session *)

Definition readable (waits : list (bool * bool * option conf_file)) (f : conf_file) : Prop :=
  Forall (λ x, x.1.1 = false ∧ x.1.2 = true) waits
  ∧ st_size f = zlen (f_content f) ∧ zlen (f_content f) ≤ MAX_CONFIG_FILE_SIZE
  ∧ last (line_end <$> f_content f) = Some 0.

(** The items of a readable file. *)
Lemma init_items waits any f rest identity items :
  readable waits f → read_config (split_lines (line_end <$> f_content f)) = Some items →
  init identity (waits ++ (true, any, Some f) :: rest) = Some (Some (true, mkConfigObj identity items 1)).
Proof.
  intros (Hw & Hst & Hmax & Hlast) Hr.
  assert (Hne : ∃ l ls, split_lines (line_end <$> f_content f) = l :: ls).
  { destruct (split_lines _) as [|l ls] eqn:E; [|by eauto]. apply split_lines_nil in E. by rewrite E in Hlast. }
  destruct Hne as (l & ls & Els). destruct (load_readable waits any f rest l ls Hw Hst Hmax Hlast Els) as (x & Hload & Hx).
  rewrite <- Els, Hr in Hx. cbn in Hx. injection Hx as ->. unfold init. by rewrite Hload.
Qed.

(** C15: a FIX session configured in a file arrives in the program: once the
    ".ready" file is there, [init] reads the file, [subscribe] finds the line of
    the session and [get] returns the configuration that was written there. *)
Theorem session_from_file waits any f rest identity domain item items kvs c c0 it push push_days errno :
  readable waits f → read_config (split_lines (line_end <$> f_content f)) = Some items →
  plain identity → plain domain → plain item →
  get_value items (key_text identity domain item) = Some (join ch_space (kv_text <$> kvs)) →
  config_ok c → kvs ≡ₚ render_session c →
  FIXSession.s_refcnt it ≠ 0 → refcnt_ (FIXSession.config_vector_item_ it) ≠ 0 →
  (∀ n, push n = true) → (∀ n, push_days n = true) → errno ≠ ERANGE → errno ≠ EINVAL →
  ∃ cfg cfg' it',
    init identity (waits ++ (true, any, Some f) :: rest) = Some (Some (true, cfg))
    ∧ subscribe (mkSubOk true true true true true) None domain item (Some it) cfg = Some (true, cfg', Some it')
    ∧ FIXSession.get all_ok push push_days it' errno c0 = Some (true, c, errno).
Proof.
  intros Hf Hr Hpi Hpd Hpt Hv Hc Hk Hr1 Hr2 Hpush Hpush' H1 H2.
  destruct (session_line_read c c0 kvs it push push_days errno Hc Hk Hr1 Hr2 Hpush Hpush' H1 H2) as (it' & Hfill & Hget).
  exists (mkConfigObj identity items 1), (mkConfigObj identity items 2), it'. split; [by apply init_items|].
  split; [|exact Hget].
  pose proof (subscribe_found None domain item it (mkConfigObj identity items 1)) as Hs. cbn [default_identity file_items] in Hs.
  rewrite Hv in Hs. specialize (Hs Hr1 Hpi Hpd Hpt). cbn [item_fill FIXSessionItem] in Hs. rewrite Hfill in Hs. apply Hs.
Qed.

Definition demo_line : list Z := join ch_space (kv_text <$> render_session demo_config).
Definition demo_file : list Z := bytes_of_string "# sessions" ++ [10] ++ bytes_of_string "gw:fix:s1 " ++ demo_line ++ [10].

Lemma session_from_file_witness :
  ∃ cfg cfg' it',
    init (Some (bytes_of_string "gw")) [(false, true, None); (true, false, Some (mkConf (zlen demo_file) demo_file))]
    = Some (Some (true, cfg))
    ∧ subscribe (mkSubOk true true true true true) None (Some (bytes_of_string "fix")) (Some (bytes_of_string "s1"))
        (Some (FIXSession.mkSession 1 UNKNOWN (mkItem 1 None))) cfg = Some (true, cfg', Some it')
    ∧ FIXSession.get all_ok (λ _, true) (λ _, true) it' 0 demo_config = Some (true, demo_config, 0).
Proof.
  assert (Hp : ∀ s, forallb (λ c, negb (c =? 0)) (bytes_of_string s) = true → plain (Some (bytes_of_string s))).
  { intros s Hs. apply Forall_forall. intros x Hx%list_elem_of_In. rewrite forallb_forall in Hs.
    by apply Hs, negb_true_iff, Z.eqb_neq in Hx. }
  apply (session_from_file [(false, true, None)] false (mkConf (zlen demo_file) demo_file) []
    (Some (bytes_of_string "gw")) (Some (bytes_of_string "fix")) (Some (bytes_of_string "s1"))
    [(bytes_of_string "gw:fix:s1", demo_line)] (render_session demo_config) demo_config demo_config
    (FIXSession.mkSession 1 UNKNOWN (mkItem 1 None)) (λ _, true) (λ _, true) 0).
  - split; [by repeat constructor|]. split; [reflexivity|]. split; [vm_compute; discriminate | vm_compute; reflexivity].
  - vm_compute. reflexivity.
  - by apply Hp.
  - by apply Hp.
  - by apply Hp.
  - vm_compute. reflexivity.
  - apply demo_config_ok.
  - reflexivity.
  - done.
  - done.
  - done.
  - done.
  - done.
  - done.
Defined.

(** two defects behind [subscribe].  The first refresh of a subscribed item
    whose file can still be read is undefined: [reload] frees the name it then
    copies.  And different items can have the same key, because ':' may occur in
    the parts; keys of parts without it are different. *)
Theorem config_defects {S : Type} `{ConfigItem S} ok name key any f rest c (v : S) i d t i' d' t' :
  (st_size f ≤ MAX_CONFIG_FILE_SIZE → updater_round ok (Some name) key ((true, any, Some f) :: rest) c v = None)
  ∧ key_text (Some (bytes_of_string "a:b")) (Some (bytes_of_string "c")) t
    = key_text (Some (bytes_of_string "a")) (Some (bytes_of_string "b:c")) t
  ∧ (no_colon i → no_colon d → no_colon i' → no_colon d' → key_text i d t = key_text i' d' t' →
     default [] i = default [] i' ∧ default [] d = default [] d' ∧ default [] t = default [] t').
Proof.
  split; [|split].
  - intros Hf. unfold updater_round. by rewrite reload_frees_name.
  - reflexivity.
  - apply key_text_inj.
Qed.

Lemma config_defects_witness :
  @updater_round _ SimpleItem (mkSubOk true true true true true) (Some (bytes_of_string "/etc/fix.conf"))
    (bytes_of_string "gw:fix:s1") [(true, false, Some (mkConf (zlen demo_file) demo_file))]
    (mkConfigObj None [] 2) (mkItem 1 None) = None.
Proof.
  assert (Hz : st_size (mkConf (zlen demo_file) demo_file) ≤ MAX_CONFIG_FILE_SIZE) by (vm_compute; discriminate).
  exact (proj1 (@config_defects _ SimpleItem (mkSubOk true true true true true) (bytes_of_string "/etc/fix.conf")
    (bytes_of_string "gw:fix:s1") false (mkConf (zlen demo_file) demo_file) [] (mkConfigObj None [] 2) (mkItem 1 None)
    None None None None None None) Hz).
Defined.
