(* ===== verification/RuleEngine.v ===== *)
(** * The rule engine: [src/stdlib/rule_engine/rule_engine.cpp], [.h]

    A rule is a text of criteria (hexadecimal identifiers) with the operators
    '+' (and) and '|' (or) and parentheses.  The evaluator moves a pointer over
    the text; here the pointer is what is left of the text, terminator included,
    so moving past the terminator is undefined.  The host is little endian. *)
From S2P Require Import Prelude.
From Stdlib Require Import Sorted.

(** ** Data *)

Definition AND : Z := 43.
Definition OR : Z := 124.
Definition PAR_START : Z := 40.
Definition PAR_END : Z := 41.

Definition vt_boolean : Z := 0x00.
Definition vt_uint8 : Z := 0x01.
Definition vt_int8 : Z := 0x02.
Definition vt_uint16 : Z := 0x03.
Definition vt_int16 : Z := 0x04.
Definition vt_uint32 : Z := 0x05.
Definition vt_int32 : Z := 0x06.
Definition vt_ASCIIString : Z := 0x0A.
Definition vt_ASCIIStringNoCase : Z := 0x0B.

Inductive Evaluation : Set :=
  eEqual | eGreaterThan | eGreaterThanOrEqual | eLessThan | eLessThanOrEqual | eNotEqual | eTrue | eFalse.

(** A string member is the characters in front of the terminator; [None] is a
    null pointer. *)
Record TagInstance := mkTag { ti_int : Z; ti_ptr : option (list Z) }.
Record Criteria := mkCriteria { cond : Evaluation; tag : Z; cr_int : Z; cr_ptr : option (list Z) }.
Abbreviation Event := (gmap Z TagInstance).
Abbreviation CriteriaCache := (gmap Z Criteria).

Record Rule := mkRule { negate : Z; priority : Z; action : Z; expression : list Z; rule_id : list Z }.

(** What a computation can come to: a result, a failed [assert], undefined
    behaviour, or more rounds than the fuel allows. *)
Inductive res (A : Type) : Type := Done (x : A) | Aborts | Undefined | Running.
Arguments Done {A} x.
Arguments Aborts {A}.
Arguments Undefined {A}.
Arguments Running {A}.

Definition rbind {A B} (x : res A) (f : A → res B) : res B :=
  match x with Done a => f a | Aborts => Aborts | Undefined => Undefined | Running => Running end.

#[global] Instance res_mbind : MBind res := λ A B f x, rbind x f.

(** ** Comparisons *)

(** [strcmp] and [strcasecmp] (C locale): negative, zero or positive. *)
Fixpoint compare_chars (l r : list Z) : Z :=
  match l, r with
  | [], [] => 0
  | [], _ :: _ => -1
  | _ :: _, [] => 1
  | a :: l, b :: r => if a <? b then -1 else if b <? a then 1 else compare_chars l r
  end.

Definition tolower (c : Z) : Z := if (65 <=? c) && (c <=? 90) then c + 32 else c.

Definition eval_string (cmp : list Z → list Z → Z) (lval : option (list Z)) (c : Evaluation) (rval : option (list Z))
    : res bool :=
  match c with
  | eTrue => Done true
  | eFalse => Done false
  | eGreaterThanOrEqual | eLessThanOrEqual => Aborts
  | _ =>
      match lval, rval with
      | Some l, Some r =>
          let d := cmp l r in
          Done match c with eEqual => 0 =? d | eGreaterThan => 0 <? d | eLessThan => d <? 0 | _ => negb (0 =? d) end
      | _, _ => Undefined
      end
  end.

Definition eval_string_case := eval_string compare_chars.
Definition eval_string_no_case := eval_string (λ l r, compare_chars (tolower <$> l) (tolower <$> r)).

(** [eval_generic<T>]: [read] is a [T] read from the address of a 64 bit
    integer, [None] when that is no value of the type. *)
Definition eval_generic (read : Z → option Z) (lval : Z) (c : Evaluation) (rval : Z) : res bool :=
  match c with
  | eTrue => Done true
  | eFalse => Done false
  | eGreaterThanOrEqual | eLessThanOrEqual => Aborts
  | _ =>
      match read lval, read rval with
      | Some l, Some r =>
          Done match c with eEqual => l =? r | eGreaterThan => r <? l | eLessThan => l <? r | _ => negb (l =? r) end
      | _, _ => Undefined
      end
  end.

Definition read_bool (v : Z) : option Z := if u8 v <=? 1 then Some (u8 v) else None.

(** The [switch] on the type of the tag. *)
Definition eval_typed (inst : TagInstance) (cr : Criteria) : res bool :=
  let t := Z.shiftr (tag cr) 24 in
  let int read := eval_generic read (ti_int inst) (cond cr) (cr_int cr) in
  if t =? vt_boolean then int read_bool
  else if t =? vt_uint8 then int (λ v, Some (u8 v))
  else if t =? vt_int8 then int (λ v, Some (sint 8 v))
  else if t =? vt_uint16 then int (λ v, Some (u16 v))
  else if t =? vt_int16 then int (λ v, Some (sint 16 v))
  else if t =? vt_uint32 then int (λ v, Some (u32 v))
  else if t =? vt_int32 then int (λ v, Some (sint 32 v))
  else if t =? vt_ASCIIString then eval_string_case (ti_ptr inst) (cond cr) (cr_ptr cr)
  else if t =? vt_ASCIIStringNoCase then eval_string_no_case (ti_ptr inst) (cond cr) (cr_ptr cr)
  else Done false.

(** ** Identifiers *)

Definition hex_digit (c : Z) : option Z :=
  if isdigit c then Some (c - 48)
  else if (65 <=? c) && (c <=? 70) then Some (c - 55)
  else if (97 <=? c) && (c <=? 102) then Some (c - 87)
  else None.

(** The hexadecimal digits at the front and the rest. *)
Fixpoint hex_digits (s : list Z) : list Z * list Z :=
  match s with
  | [] => ([], [])
  | c :: s' => match hex_digit c with
               | Some d => let '(ds, r) := hex_digits s' in (d :: ds, r)
               | None => ([], s)
               end
  end.

Definition hex_value (ds : list Z) : Z := foldl (λ a d, 16 * a + d) 0 ds.

Fixpoint skip_spaces (s : list Z) : list Z :=
  match s with [] => [] | c :: s' => if isspace c then skip_spaces s' else s end.

Definition ERANGE : Z := 34.
Definition EINVAL : Z := 22.

(** A "0x" counts only in front of a digit. *)
Definition skip_0x (s : list Z) : list Z :=
  match s with
  | z :: x :: d :: r =>
      if (z =? 48) && ((x =? 120) || (x =? 88)) && bool_decide (is_Some (hex_digit d)) then d :: r else s
  | _ => s
  end.

(** [strtoul(s, &s, 16)]: the value, the rest and [errno]. *)
Definition strtoul16 (errno : Z) (s : list Z) : Z * list Z * Z :=
  let s0 := skip_spaces s in
  let neg := match s0 with c :: _ => c =? 45 | [] => false end in
  let s1 := match s0 with c :: r => if (c =? 43) || (c =? 45) then r else s0 | [] => [] end in
  let '(ds, rest) := hex_digits (skip_0x s1) in
  match ds with
  | [] => (0, s, errno)
  | _ => let v := hex_value ds in
         if 2 ^ 64 <=? v then (2 ^ 64 - 1, rest, ERANGE) else (u64 (if neg then - v else v), rest, errno)
  end.

(** ** Evaluation *)

Section Evaluate.
Context (incident : Event) (criteria_cache : CriteriaCache).

(** What one criterion comes to. *)
Definition criterion (id : Z) : res bool :=
  match criteria_cache !! id with
  | None => Done false
  | Some cr =>
      match incident !! tag cr with
      | None => Done false
      | Some inst => eval_typed inst cr
      end
  end.

(** The result, the new position and [errno]. *)
Definition evaluate_criteria (errno : Z) (l : list Z) : res (bool * list Z * Z) :=
  let '(v, l, errno) := strtoul16 errno l in
  let criteria_id := u32 v in
  if (criteria_id =? 0) && (errno =? EINVAL) then Done (false, l, errno)
  else b ← criterion criteria_id; Done (b, l, errno).

(** [skip_forward_over_block], from a '('; [case PAR_END] falls through. *)
Fixpoint skip_forward_over_block (par_cnt : Z) (l : list Z) : option (list Z) :=
  match l with
  | [] => None
  | _ :: l =>
      match l with
      | [] => None
      | c :: _ =>
          if c =? PAR_END then
            let par_cnt := u32 (par_cnt - 1) in
            if par_cnt =? 0 then Some l else skip_forward_over_block (u32 (par_cnt + 1)) l
          else if c =? PAR_START then skip_forward_over_block (u32 (par_cnt + 1)) l
          else if c =? 0 then Some l
          else skip_forward_over_block par_cnt l
      end
  end.

(** [skip_forward_to_OR] and [skip_forward_to_AND]; every round moves on. *)
Fixpoint skip_forward_loop (fuel : nat) (op : Z) (l : list Z) : option (list Z) :=
  match fuel with
  | O => None
  | S fuel =>
      c ← get_at l 0;
      if (c =? 0) || (c =? op) then Some l
      else
        l ← (if c =? PAR_START then skip_forward_over_block 1 l else Some l);
        match l with
        | [] => None
        | _ :: l =>
            c ← get_at l 0;
            if c =? 0 then Some l else skip_forward_loop fuel op l
        end
  end.

Definition skip_forward_to_OR (l : list Z) : option (list Z) := skip_forward_loop (length l) OR l.
Definition skip_forward_to_AND (l : list Z) : option (list Z) := skip_forward_loop (length l) AND l.

(** The [while] loop of [evaluate_expression] with [retv]; the recursive calls
    start with [false]. *)
Fixpoint evaluate_loop (fuel : nat) (errno : Z) (retv : bool) (l : list Z) : res (bool * list Z * Z) :=
  match fuel with
  | O => Running
  | S fuel =>
      match l with
      | [] => Undefined
      | c :: r =>
          if c =? 0 then Done (retv, l, errno)
          else
            match (if c =? PAR_START then r else l) with
            | [] => Undefined
            | (c :: r) as l =>
                if c =? 0 then Done (retv, l, errno)
                else if c =? PAR_END then evaluate_loop fuel errno retv r
                else if c =? AND then
                  match (if retv then Some r else skip_forward_to_OR r) with
                  | None | Some [] => Undefined
                  | Some ((c :: _) as l) =>
                      '(v, l, errno) ← (if retv then
                                           if c =? PAR_START then evaluate_loop fuel errno false l
                                           else evaluate_criteria errno l
                                         else Done (false, l, errno));
                      evaluate_loop fuel errno v l
                  end
                else if c =? OR then
                  if retv then
                    match skip_forward_to_AND r with
                    | None => Undefined
                    | Some l => evaluate_loop fuel errno retv l
                    end
                  else
                    match r with
                    | [] => Undefined
                    | c :: _ =>
                        '(v, l, errno) ← (if c =? PAR_START then evaluate_loop fuel errno false r
                                           else evaluate_criteria errno r);
                        evaluate_loop fuel errno v l
                    end
                else if c =? PAR_START then
                  '(v, l, errno) ← evaluate_loop fuel errno false l; evaluate_loop fuel errno v l
                else
                  '(v, l, errno) ← evaluate_criteria errno l; evaluate_loop fuel errno v l
            end
      end
  end.

Definition evaluate_expression (errno : Z) (l : list Z) : res (bool * list Z * Z) :=
  evaluate_loop (2 * length l + 2) errno false l.

(** [evaluate_incident_with_rules]: the identifier of the first rule that
    matches, [None] for the null pointer. *)
Fixpoint rules_loop (errno : Z) (rules : list Rule) : res (option (list Z)) :=
  match rules with
  | [] => Done None
  | r :: rules =>
      '(retv, _, errno) ← evaluate_expression errno (expression r);
      let retv := if negate r =? 0 then retv else negb retv in
      if retv then Done (Some (rule_id r)) else rules_loop errno rules
  end.

Definition evaluate_incident_with_rules (errno : Z) (rules : list Rule) : res (option (list Z)) :=
  rules_loop errno rules.

End Evaluate.

(** [sort_rule_set] leaves the rules in an order in which none is less important
    than the one before it; [std::sort] does not say which. *)
Definition lrule_is_less_important_than_rrule (l_rule r_rule : Rule) : bool := priority l_rule <? priority r_rule.

Definition sort_rule_set (rules rules' : list Rule) : Prop :=
  rules' ≡ₚ rules ∧ StronglySorted (λ a b, lrule_is_less_important_than_rrule b a = false) rules'.

(** ** Expressions *)

(** An identifier is its hexadecimal digits; a block has no block inside.
    [true] stands for '+'. *)
Inductive atom : Type := Id (h : list Z) | Block (h : list Z) (ins : list (bool * list Z)).
Record expr := mkExpr { first : atom; others : list (bool * atom) }.

Definition op_char (o : bool) : Z := if o then AND else OR.

Definition render_ids (ins : list (bool * list Z)) : list Z := concat ((λ x, op_char x.1 :: x.2) <$> ins).
Definition render_atom (a : atom) : list Z :=
  match a with Id h => h | Block h ins => PAR_START :: h ++ render_ids ins ++ [PAR_END] end.
Definition render_others (outs : list (bool * atom)) : list Z := concat ((λ x, op_char x.1 :: render_atom x.2) <$> outs).

(** The expression of a rule, with its terminator. *)
Definition render (e : expr) : list Z := render_atom (first e) ++ render_others (others e) ++ [0].

(** The reference: strictly from left to right, without precedence. *)
Definition apply_op (o : bool) (a b : bool) : bool := if o then a && b else a || b.
Definition fold_ids (v : list Z → bool) (a : bool) (ins : list (bool * list Z)) : bool :=
  foldl (λ a x, apply_op x.1 a (v x.2)) a ins.
Definition atom_value (v : list Z → bool) (a : atom) : bool :=
  match a with Id h => v h | Block h ins => fold_ids v (v h) ins end.
Definition fold_atoms (v : list Z → bool) (a : bool) (outs : list (bool * atom)) : bool :=
  foldl (λ a x, apply_op x.1 a (atom_value v x.2)) a outs.
Definition left_to_right (v : list Z → bool) (e : expr) : bool := fold_atoms v (atom_value v (first e)) (others e).

Definition hex_of (h : list Z) : Z := hex_value (hex_digits h).1.

Definition ids_of_atom (a : atom) : list (list Z) := match a with Id h => [h] | Block h ins => h :: ins.*2 end.
Definition ids_of (e : expr) : list (list Z) :=
  ids_of_atom (first e) ++ concat ((λ x, ids_of_atom x.2) <$> others e).

(** A plain hexadecimal number of an [unsigned long]; when [errno] is left over
    as EINVAL it must not be 0. *)
Definition id_ok (errno : Z) (h : list Z) : Prop :=
  h ≠ [] ∧ Forall (λ c, is_Some (hex_digit c)) h ∧ hex_of h < 2 ^ 64 ∧ (u32 (hex_of h) ≠ 0 ∨ errno ≠ EINVAL).

(** What may follow an identifier. *)
Definition stop (c : Z) : Prop := c = AND ∨ c = OR ∨ c = PAR_END ∨ c = 0.

Lemma hex_digit_facts c d : hex_digit c = Some d →
  isspace c = false ∧ c ≠ 43 ∧ c ≠ 45 ∧ c ≠ 120 ∧ c ≠ 88 ∧ c ≠ 124 ∧ c ≠ 40 ∧ c ≠ 41 ∧ c ≠ 0 ∧ 0 ≤ d.
Proof.
  unfold hex_digit, isdigit, isspace, ch_0, ch_9. repeat case_match; bool_hyps; intros [= <-];
    (split; [bsolve; done | lia]).
Qed.

Lemma stop_no_digit c : stop c → hex_digit c = None ∧ c ≠ 120 ∧ c ≠ 88.
Proof. by intros [-> | [-> | [-> | ->]]]. Qed.

Lemma hex_digits_app h c r : Forall (λ c, is_Some (hex_digit c)) h → stop c →
  hex_digits (h ++ c :: r) = ((hex_digits h).1, c :: r) ∧ length (hex_digits h).1 = length h.
Proof.
  intros Hh Hc. induction Hh as [|x h [d Hx] _ [IH1 IH2]]; cbn [app hex_digits].
  - by rewrite (proj1 (stop_no_digit c Hc)).
  - rewrite Hx, IH1. destruct (hex_digits h) as [ds r']. cbn in *. by rewrite IH2.
Qed.

Lemma hex_value_nonneg ds : Forall (λ d, 0 ≤ d) ds → 0 ≤ hex_value ds.
Proof.
  unfold hex_value. assert (H : ∀ a, 0 ≤ a → Forall (λ d, 0 ≤ d) ds → 0 ≤ foldl (λ a d, 16 * a + d) a ds); [|by apply H].
  induction ds as [|d ds IH]; intros a Ha Hds; [done|]. apply Forall_cons in Hds as [? ?]. cbn. apply IH; [lia|done].
Qed.

Lemma hex_of_nonneg h : 0 ≤ hex_of h.
Proof.
  apply hex_value_nonneg. induction h as [|c h IH]; cbn [hex_digits]; [constructor|].
  destruct (hex_digit c) as [d|] eqn:E; [|constructor]. destruct (hex_digits h). cbn in *. constructor; [|done].
  destruct (hex_digit_facts c d E) as (_ & _ & _ & _ & _ & _ & _ & _ & _ & ?). done.
Qed.

Lemma strtoul16_id errno h c r : id_ok errno h → stop c →
  strtoul16 errno (h ++ c :: r) = (hex_of h, c :: r, errno).
Proof.
  intros (Hne & Hh & Hmax & _) Hc. unfold strtoul16. destruct h as [|x h]; [done|].
  pose proof Hh as [[d Hx] Hh']%Forall_cons. pose proof (hex_digit_facts x d Hx) as (Hs & H43 & H45 & _).
  cbn [app skip_spaces]. rewrite Hs. rewrite (proj2 (Z.eqb_neq x 43)), (proj2 (Z.eqb_neq x 45)) by done. cbn [orb].
  assert (Hprefix : skip_0x (x :: h ++ c :: r) = x :: h ++ c :: r).
  { unfold skip_0x. assert (Hy : ∀ y t, h ++ c :: r = y :: t → y ≠ 120 ∧ y ≠ 88).
    { intros y t Ht. destruct h as [|y' h]; injection Ht as <- _; [apply (stop_no_digit c Hc)|].
      apply Forall_cons in Hh' as [[e He] _]. apply hex_digit_facts in He. tauto. }
    destruct (h ++ c :: r) as [|y [|e t]]; [done..|]. destruct (Hy y _ eq_refl) as [H1 H2].
    rewrite (proj2 (Z.eqb_neq y 120)), (proj2 (Z.eqb_neq y 88)) by done. by rewrite andb_false_r. }
  rewrite Hprefix. change (x :: h ++ c :: r) with ((x :: h) ++ c :: r).
  destruct (hex_digits_app (x :: h) c r Hh Hc) as [-> Hlen].
  pose proof (hex_of_nonneg (x :: h)) as H0. unfold hex_of in *.
  destruct (hex_digits (x :: h)) as [ds t]. cbn [fst] in *. destruct ds as [|d0 ds]; [done|].
  rewrite (proj2 (Z.leb_gt _ _)) by done. unfold u64. by rewrite Z.mod_small.
Qed.

Section Correct.
Context (incident : Event) (criteria_cache : CriteriaCache) (errno : Z) (v : list Z → bool).

(** The criterion of an identifier comes to [v]. *)
Definition id_means (h : list Z) : Prop :=
  id_ok errno h ∧ criterion incident criteria_cache (u32 (hex_of h)) = Done (v h).

#[local] Abbreviation criteria := (evaluate_criteria incident criteria_cache).
#[local] Abbreviation loop := (evaluate_loop incident criteria_cache).

Lemma criteria_id h c r : id_means h → stop c → criteria errno (h ++ c :: r) = Done (v h, c :: r, errno).
Proof.
  intros [Hok Hv] Hc. unfold evaluate_criteria. rewrite strtoul16_id by done.
  destruct Hok as (_ & _ & _ & H0).
  assert (Hif : (u32 (hex_of h) =? 0) && (errno =? EINVAL) = false).
  { apply andb_false_iff. destruct H0; [left | right]; by apply Z.eqb_neq. }
  by rewrite Hif, Hv.
Qed.

(** The text left when the evaluator is behind an atom: in a block, the rest of
    it; then the other atoms. *)
Definition text (inside : option (list (bool * list Z))) (outs : list (bool * atom)) : list Z :=
  match inside with Some ins => render_ids ins ++ [PAR_END] | None => [] end ++ render_others outs ++ [0].

Lemma text_head inside outs : ∃ c r, text inside outs = c :: r ∧ stop c.
Proof.
  unfold text. destruct inside as [[|[o h] ins]|]; [..|destruct outs as [|[o a] outs]]; unfold stop.
  - eexists _, _. split; [done|]. tauto.
  - eexists _, _. split; [done|]. destruct o; cbn; tauto.
  - eexists _, _. split; [done|]. tauto.
  - eexists _, _. split; [done|]. destruct o; cbn; tauto.
Qed.

Lemma text_block o h ins outs :
  text (Some ((o, h) :: ins)) outs = op_char o :: h ++ text (Some ins) outs.
Proof. unfold text, render_ids. cbn. by app_norm. Qed.

Lemma text_end outs : text (Some []) outs = PAR_END :: text None outs.
Proof. reflexivity. Qed.

Lemma text_others o a outs : text None ((o, a) :: outs) = op_char o :: render_atom a ++ text None outs.
Proof. unfold text, render_others. cbn. by app_norm. Qed.

(** ** Skipping *)

Definition skips (op : Z) (l l' : list Z) : Prop :=
  ∀ fuel, (length l ≤ fuel)%nat → skip_forward_loop fuel op l = Some l'.

Lemma skips_here op c r : c = 0 ∨ c = op → skips op (c :: r) (c :: r).
Proof.
  intros Hc [|fuel] Hf; [cbn in Hf; lia|]. cbn [skip_forward_loop]. change (get_at (c :: r) 0) with (Some c). obind.
  assert (Hif : (c =? 0) || (c =? op) = true) by (destruct Hc as [-> | ->]; [done | by rewrite Z.eqb_refl, orb_true_r]).
  by rewrite Hif.
Qed.

Lemma skips_char op c d r l' : c ≠ 0 → c ≠ op → c ≠ PAR_START → skips op (d :: r) l' → skips op (c :: d :: r) l'.
Proof.
  intros H0 Hop Hp Hs [|fuel] Hf; [cbn in Hf; lia|]. cbn [skip_forward_loop].
  change (get_at (c :: d :: r) 0) with (Some c). obind.
  rewrite (proj2 (Z.eqb_neq c 0)), (proj2 (Z.eqb_neq c op)), (proj2 (Z.eqb_neq c PAR_START)) by done. cbn [orb]. obind.
  change (get_at (d :: r) 0) with (Some d). obind. cbn [length] in Hf.
  destruct (Z.eqb_spec d 0) as [->|Hd].
  - specialize (Hs (S fuel) ltac:(cbn [length]; lia)). cbn [skip_forward_loop] in Hs. by rewrite <- Hs.
  - apply Hs. cbn [length]. lia.
Qed.

Lemma skips_id op h l c r : Forall (λ c, is_Some (hex_digit c)) h → op = AND ∨ op = OR →
  skips op (c :: r) l → skips op (h ++ c :: r) l.
Proof.
  intros Hh Hop Hs. induction Hh as [|x h [d Hx] Hh IH]; [done|]. cbn [app].
  destruct (hex_digit_facts x d Hx) as (_ & H43 & _ & _ & _ & H124 & H40 & _ & H0 & _). clear Hx.
  destruct (h ++ c :: r) as [|y t] eqn:E; [by destruct h|]. unfold AND, OR, PAR_START in *.
  apply skips_char; [lia | lia | unfold PAR_START; lia | done].
Qed.

(** The characters of a block are skipped up to its end. *)
Lemma skip_block_chars s r : Forall (λ c, c ≠ PAR_END ∧ c ≠ PAR_START ∧ c ≠ 0) s → ∀ c0,
  skip_forward_over_block 1 (c0 :: s ++ PAR_END :: r) = Some (PAR_END :: r).
Proof.
  induction 1 as [|c s (H1 & H2 & H3) _ IH]; intros c0; [done|]. cbn [app skip_forward_over_block].
  rewrite (proj2 (Z.eqb_neq c PAR_END)), (proj2 (Z.eqb_neq c PAR_START)), (proj2 (Z.eqb_neq c 0)) by done.
  exact (IH c).
Qed.

Definition atom_ok (a : atom) : Prop :=
  match a with Id h => id_means h | Block h ins => id_means h ∧ Forall (λ x, id_means x.2) ins end.

Lemma id_chars h : id_means h → Forall (λ c, c ≠ PAR_END ∧ c ≠ PAR_START ∧ c ≠ 0) h.
Proof.
  intros [(_ & Hh & _) _]. eapply Forall_impl; [exact Hh|]. intros c [d Hd]. apply hex_digit_facts in Hd.
  unfold PAR_END, PAR_START. tauto.
Qed.

Lemma block_chars h ins : id_means h → Forall (λ x, id_means x.2) ins →
  Forall (λ c, c ≠ PAR_END ∧ c ≠ PAR_START ∧ c ≠ 0) (h ++ render_ids ins).
Proof.
  intros Hh Hi. apply Forall_app. split; [by apply id_chars|]. unfold render_ids.
  induction Hi as [|[o g] ins Hg _ IH]; [constructor|]. cbn [fmap list_fmap concat fst snd]. constructor.
  - by destruct o.
  - apply Forall_app. split; [by apply id_chars | exact IH].
Qed.

Lemma skips_atom op a c r l : atom_ok a → op = AND ∨ op = OR →
  skips op (c :: r) l → skips op (render_atom a ++ c :: r) l.
Proof.
  intros Ha Hop Hs. destruct a as [h|h ins]; cbn [render_atom].
  - destruct Ha as [(_ & Hh & _) _]. by apply skips_id.
  - destruct Ha as [Hh Hi]. intros [|fuel] Hf; [cbn in Hf; lia|]. cbn [app skip_forward_loop].
    match goal with |- context [get_at (PAR_START :: ?x) 0] => change (get_at (PAR_START :: x) 0) with (Some PAR_START) end.
    obind. assert (Hif : (PAR_START =? 0) || (PAR_START =? op) = false) by (by destruct Hop as [-> | ->]).
    rewrite Hif, Z.eqb_refl.
    assert (Hb : skip_forward_over_block 1 (PAR_START :: (h ++ render_ids ins ++ [PAR_END]) ++ c :: r) = Some (PAR_END :: c :: r)).
    { replace ((h ++ render_ids ins ++ [PAR_END]) ++ c :: r) with ((h ++ render_ids ins) ++ PAR_END :: c :: r) by (by app_norm).
      by apply skip_block_chars, block_chars. }
    rewrite Hb. obind. change (get_at (c :: r) 0) with (Some c). obind. cbn [app length] in Hf.
    rewrite !length_app in Hf. cbn [length] in Hf.
    destruct (Z.eqb_spec c 0) as [->|Hc].
    + specialize (Hs (S fuel) ltac:(cbn [length]; lia)). cbn [skip_forward_loop] in Hs. by rewrite <- Hs.
    + apply Hs. cbn [length]. lia.
Qed.

(** From behind an atom the evaluator skips the operators that cannot change the
    value [b] ('|' for true, '+' for false): what is left has the same value. *)
Definition skipped (b : bool) (inside : option (list (bool * list Z))) (outs : list (bool * atom))
    (inside' : option (list (bool * list Z))) (outs' : list (bool * atom)) : Prop :=
  skips (op_char b) (text inside outs) (text inside' outs')
  ∧ Forall (λ x, atom_ok x.2) outs' ∧ Forall (λ x, id_means x.2) (default [] inside')
  ∧ (length (text inside' outs') ≤ length (text inside outs))%nat
  ∧ fold_atoms v (fold_ids v b (default [] inside)) outs = fold_atoms v (fold_ids v b (default [] inside')) outs'.

Lemma op_and_or o : op_char o = AND ∨ op_char o = OR.
Proof. destruct o; auto. Qed.

Lemma fold_atoms_same (b : bool) a outs : fold_atoms v b ((negb b, a) :: outs) = fold_atoms v b outs.
Proof. by destruct b. Qed.
Lemma fold_ids_same (b : bool) h ins : fold_ids v b ((negb b, h) :: ins) = fold_ids v b ins.
Proof. by destruct b. Qed.

Lemma skips_op (b : bool) r l c t : r = c :: t → skips (op_char b) r l → skips (op_char b) (op_char (negb b) :: r) l.
Proof. intros -> Hs. apply skips_char; [by destruct b.. | done]. Qed.

Lemma op_cases (o b : bool) : o = b ∨ o = negb b.
Proof. destruct o, b; auto. Qed.

Lemma atom_head a : atom_ok a → ∃ c r, render_atom a = c :: r.
Proof.
  destruct a as [h|h ins]; cbn; [|by eauto]. intros [(Hne & _) _]. destruct h; [done | by eauto].
Qed.

Lemma skips_outs (b : bool) outs : Forall (λ x, atom_ok x.2) outs → ∃ outs', skipped b None outs None outs'.
Proof.
  unfold skipped. cbn [default]. induction 1 as [|[o a] outs Ha Ho (outs' & Hs & Ho' & _ & Hlen & Hf)].
  - exists []. repeat split; auto. apply skips_here. by left.
  - destruct (op_cases o b) as [->| ->].
    + exists ((b, a) :: outs). rewrite text_others. repeat split; auto. apply skips_here. by right.
    + exists outs'. rewrite text_others. cbn [fst snd] in Ha. destruct (text_head None outs) as (c & r & Et & _).
      destruct (atom_head a Ha) as (c' & r' & Ea). split; [|split; [done|split; [constructor|split]]].
      * eapply skips_op; [by rewrite Ea|]. rewrite Et in *. apply skips_atom; [done | apply op_and_or | done].
      * cbn [length]. rewrite length_app. lia.
      * change (fold_ids v b []) with b in *. by rewrite fold_atoms_same.
Qed.

Lemma skips_inside (b : bool) outs ins : Forall (λ x, atom_ok x.2) outs → Forall (λ x, id_means x.2) ins →
  ∃ inside' outs', skipped b (Some ins) outs inside' outs'.
Proof.
  intros Ho. induction 1 as [|[o h] ins Hh Hi (inside' & outs' & Hs & Ho' & Hi' & Hlen & Hf)].
  - destruct (skips_outs b outs Ho) as (outs' & Hs & Ho' & _ & Hlen & Hf). exists None, outs'. unfold skipped in *.
    destruct (text_head None outs) as (c & r & Et & _). rewrite text_end, Et in *.
    split; [|repeat split; auto; cbn [length] in *; lia].
    apply skips_char; [done | by destruct b | done | done].
  - cbn [fst snd] in Hh. destruct (op_cases o b) as [->| ->].
    + exists (Some ((b, h) :: ins)), outs. unfold skipped. rewrite text_block. repeat split; auto.
      * apply skips_here. by right.
      * by constructor.
    + exists inside', outs'. unfold skipped in *. rewrite text_block.
      destruct (text_head (Some ins) outs) as (c & r & Et & _). pose proof Hh as [(Hne & Hhex & _) _].
      split; [|split; [done|split; [done|split]]].
      * destruct h as [|x h']; [done|]. eapply skips_op; [done|]. rewrite Et in *. apply skips_id; [done | apply op_and_or | done].
      * cbn [length]. rewrite length_app. lia.
      * cbn [default from_option id] in *. by rewrite fold_ids_same.
Qed.

Lemma skips_text (b : bool) outs inside : Forall (λ x, atom_ok x.2) outs → Forall (λ x, id_means x.2) (default [] inside) →
  ∃ inside' outs', skipped b inside outs inside' outs'.
Proof.
  intros Ho Hi. destruct inside as [ins|]; [by apply skips_inside|].
  destruct (skips_outs b outs Ho) as [outs' H]. by exists None, outs'.
Qed.

(** ** The evaluator *)

Definition evals (retv : bool) (l : list Z) (w : bool) : Prop :=
  ∀ fuel, (length l + 1 ≤ fuel)%nat → loop fuel errno retv l = Done (w, [0], errno).

(** A block, from its parenthesis on; whatever [retv] was. *)
Lemma evals_start retv h inside outs w :
  id_means h → evals (v h) (text inside outs) w → evals retv (h ++ text inside outs) w.
Proof.
  intros Hh He [|fuel] Hf; [lia|]. pose proof Hh as [(Hne & Hhex & _) _]. destruct h as [|x h]; [done|].
  destruct (text_head inside outs) as (c & r & Et & Hc). rewrite Et in *. cbn [evaluate_loop app].
  apply Forall_cons in Hhex as [[d Hd] _].
  destruct (hex_digit_facts x d Hd) as (_ & H43 & _ & _ & _ & H124 & H40 & H41 & H0 & _).
  assert (E0 : (x =? 0) = false) by by apply Z.eqb_neq. assert (E1 : (x =? PAR_START) = false) by by apply Z.eqb_neq.
  assert (E2 : (x =? PAR_END) = false) by by apply Z.eqb_neq. assert (E3 : (x =? AND) = false) by by apply Z.eqb_neq.
  assert (E4 : (x =? OR) = false) by by apply Z.eqb_neq.
  rewrite E0, E1, E0, E2, E3, E4, E1. change (x :: h ++ c :: r) with ((x :: h) ++ c :: r).
  rewrite criteria_id by done. cbn [mbind res_mbind rbind]. apply He.
  cbn [app length] in *. rewrite length_app in Hf. cbn [length] in *. lia.
Qed.

(** The right operand of an operator whose left one does not decide. *)
Definition operand (fuel : nat) (l : list Z) : res (bool * list Z * Z) :=
  match l with
  | [] => Undefined
  | c :: _ =>
      '(w, l, errno) ← (if c =? PAR_START then loop fuel errno false l else criteria errno l);
      loop fuel errno w l
  end.

Lemma loop_end fuel retv : loop (S fuel) errno retv [0] = Done (retv, [0], errno).
Proof. reflexivity. Qed.

Lemma operand_id fuel h inside outs w :
  id_means h → evals (v h) (text inside outs) w → (length (text inside outs) + 1 ≤ fuel)%nat →
  operand fuel (h ++ text inside outs) = Done (w, [0], errno).
Proof.
  intros Hh He Hf. destruct (text_head inside outs) as (c & r & Et & Hc). pose proof (id_chars h Hh) as Hch.
  pose proof Hh as [(Hne & _) _]. rewrite Et in *. unfold operand. destruct h as [|x h']; [done|].
  apply Forall_cons in Hch as [(_ & Hx & _) _]. cbn [app]. rewrite (proj2 (Z.eqb_neq x PAR_START)) by done.
  change (x :: h' ++ c :: r) with ((x :: h') ++ c :: r). rewrite criteria_id by done. by apply He.
Qed.

Lemma evals_block h ins outs w :
  id_means h → evals (v h) (text (Some ins) outs) w → evals false (render_atom (Block h ins) ++ text None outs) w.
Proof.
  intros Hh He [|fuel] Hf; [lia|].
  assert (Et : render_atom (Block h ins) ++ text None outs = PAR_START :: h ++ text (Some ins) outs).
  { unfold text. cbn [render_atom]. by app_norm. }
  rewrite Et in *. pose proof (evals_start false h (Some ins) outs w Hh He (S fuel)) as Hstart.
  cbn [length] in Hf. specialize (Hstart ltac:(lia)). pose proof (id_chars h Hh) as Hch.
  pose proof Hh as [(Hne & _) _]. destruct h as [|x h']; [done|]. apply Forall_cons in Hch as [(_ & Hx & Hx0) _].
  cbn [app evaluate_loop] in *. change (PAR_START =? 0) with false. cbv iota. rewrite Z.eqb_refl.
  rewrite (proj2 (Z.eqb_neq x PAR_START)) in * by done. rewrite (proj2 (Z.eqb_neq x 0)) in * by done.
  rewrite (proj2 (Z.eqb_neq x PAR_START)) in Hstart by done. exact Hstart.
Qed.

Lemma operand_block fuel h ins outs w :
  id_means h → evals (v h) (text (Some ins) outs) w →
  (length (render_atom (Block h ins) ++ text None outs) + 1 ≤ fuel)%nat →
  operand fuel (render_atom (Block h ins) ++ text None outs) = Done (w, [0], errno).
Proof.
  intros Hh He Hf. pose proof (evals_block h ins outs w Hh He fuel Hf) as Hs. revert Hs Hf.
  cbn [render_atom app]. unfold operand. rewrite Z.eqb_refl. intros -> Hf. destruct fuel; [lia|]. apply loop_end.
Qed.

Lemma operand_atom fuel a inside outs :
  (inside = None ∨ ∃ h, a = Id h) → atom_ok a →
  (∀ retv inside', (length (text inside' outs) < length (render_atom a ++ text inside outs) + 1)%nat →
     Forall (λ x, id_means x.2) (default [] inside') →
     evals retv (text inside' outs) (fold_atoms v (fold_ids v retv (default [] inside')) outs)) →
  Forall (λ x, id_means x.2) (default [] inside) →
  (length (render_atom a ++ text inside outs) + 1 ≤ fuel)%nat →
  operand fuel (render_atom a ++ text inside outs)
  = Done (fold_atoms v (fold_ids v (atom_value v a) (default [] inside)) outs, [0], errno).
Proof.
  intros Hin Ha IH Hi Hf. destruct a as [h|h ins].
  - cbn [render_atom atom_value] in *. rewrite length_app in *. apply operand_id; [exact Ha | apply IH; [lia | done] | lia].
  - destruct Hin as [-> | [h' ?]]; [|done]. destruct Ha as [Hh Hins]. apply operand_block; [done | | done].
    apply (IH (v h) (Some ins)); [|done]. unfold text. cbn [render_atom]. rewrite !length_app. cbn [length].
    rewrite !length_app. destruct Hh as [(Hne & _) _]. destruct h; [done|]. cbn [length]. lia.
Qed.

(** One operator. *)
Lemma op_step fuel (o retv : bool) a inside outs :
  (inside = None ∨ ∃ h, a = Id h) → atom_ok a →
  Forall (λ x, atom_ok x.2) outs → Forall (λ x, id_means x.2) (default [] inside) →
  (∀ retv inside' outs', (length (text inside' outs') < length (render_atom a ++ text inside outs) + 1)%nat →
     Forall (λ x, atom_ok x.2) outs' → Forall (λ x, id_means x.2) (default [] inside') →
     evals retv (text inside' outs') (fold_atoms v (fold_ids v retv (default [] inside')) outs')) →
  (length (render_atom a ++ text inside outs) + 2 ≤ S fuel)%nat →
  loop (S fuel) errno retv (op_char o :: render_atom a ++ text inside outs)
  = Done (fold_atoms v (fold_ids v (apply_op o retv (atom_value v a)) (default [] inside)) outs, [0], errno).
Proof.
  intros Hin Ha Ho Hi IH Hf. set (l := render_atom a ++ text inside outs) in *.
  assert (Hop : operand fuel l = Done (fold_atoms v (fold_ids v (atom_value v a) (default [] inside)) outs, [0], errno)).
  { apply operand_atom; [done | done | | done | fold l; lia]. intros retv' inside' Hlen Hi'. by apply IH. }
  assert (Hskip : ∃ inside' outs', skipped retv inside outs inside' outs' ∧ skips (op_char retv) l (text inside' outs')).
  { destruct (skips_text retv outs inside Ho Hi) as (inside' & outs' & Hsk). exists inside', outs'. split; [exact Hsk|].
    destruct Hsk as (Hs & _). destruct (text_head inside outs) as (c & r & Et & _). unfold l. rewrite Et in *.
    apply skips_atom; [done | apply op_and_or | done]. }
  destruct (atom_head a Ha) as (c & r & Ea).
  assert (El : ∃ r', l = c :: r') by (unfold l; rewrite Ea; eexists; reflexivity). destruct El as [r' El].
  assert (Hlater : ∀ inside' outs', skipped retv inside outs inside' outs' →
    loop fuel errno retv (text inside' outs')
    = Done (fold_atoms v (fold_ids v retv (default [] inside)) outs, [0], errno)).
  { intros inside' outs' (_ & Ho' & Hi' & Hlen & ->).
    assert (Htext : (length (text inside outs) ≤ length l)%nat) by (unfold l; rewrite length_app; lia).
    apply IH; [lia | done | done | lia]. }
  destruct o, retv.
  - change (operand fuel l = Done (fold_atoms v (fold_ids v (atom_value v a) (default [] inside)) outs, [0], errno)).
    exact Hop.
  - change (match skip_forward_to_OR l with
            | Some ((_ :: _) as l) => loop fuel errno false l
            | _ => Undefined end
            = Done (fold_atoms v (fold_ids v false (default [] inside)) outs, [0], errno)).
    destruct Hskip as (inside' & outs' & Hsk & Hs). unfold skip_forward_to_OR.
    change (op_char false) with OR in Hs. rewrite (Hs (length l)) by lia.
    pose proof (Hlater inside' outs' Hsk) as Hl. destruct (text_head inside' outs') as (c' & t & Et & _).
    by rewrite Et in *.
  - change (match skip_forward_to_AND l with
            | None => Undefined
            | Some l => loop fuel errno true l end
            = Done (fold_atoms v (fold_ids v true (default [] inside)) outs, [0], errno)).
    destruct Hskip as (inside' & outs' & Hsk & Hs). unfold skip_forward_to_AND.
    change (op_char true) with AND in Hs. rewrite (Hs (length l)) by lia. by apply Hlater.
  - change (operand fuel l = Done (fold_atoms v (fold_ids v (atom_value v a) (default [] inside)) outs, [0], errno)).
    exact Hop.
Qed.

Lemma evals_text n : ∀ inside outs retv, (length (text inside outs) ≤ n)%nat →
  Forall (λ x, atom_ok x.2) outs → Forall (λ x, id_means x.2) (default [] inside) →
  evals retv (text inside outs) (fold_atoms v (fold_ids v retv (default [] inside)) outs).
Proof.
  induction n as [|n IH]; intros inside outs retv Hn Ho Hi.
  { destruct (text_head inside outs) as (c & r & Et & _). rewrite Et in Hn. cbn in Hn. lia. }
  assert (IH' : ∀ retv inside' outs', (length (text inside' outs') ≤ n)%nat →
    Forall (λ x, atom_ok x.2) outs' → Forall (λ x, id_means x.2) (default [] inside') →
    evals retv (text inside' outs') (fold_atoms v (fold_ids v retv (default [] inside')) outs')) by (intros; by apply IH).
  intros [|fuel] Hf; [lia|]. destruct inside as [[|[o h] ins]|]; [..|destruct outs as [|[o a] outs]].
  - rewrite text_end in *. cbn [length] in *. change (loop fuel errno retv (text None outs)
      = Done (fold_atoms v (fold_ids v retv []) outs, [0], errno)).
    apply (IH' retv None outs); [lia | done | constructor | lia].
  - rewrite text_block in *. cbn [default from_option id] in Hi. apply Forall_cons in Hi as [Hh Hi]. cbn [fst snd length] in *.
    change (h ++ text (Some ins) outs) with (render_atom (Id h) ++ text (Some ins) outs) in *.
    rewrite (op_step fuel o retv (Id h) (Some ins) outs); [done | right; by exists h | exact Hh | done | done | | lia].
    intros retv' inside' outs' Hlen Ho' Hi'. apply IH'; [lia | done | done].
  - reflexivity.
  - rewrite text_others in *. apply Forall_cons in Ho as [Ha Ho]. cbn [fst snd length] in *.
    rewrite (op_step fuel o retv a None outs); [done | by left | done | done | done | | lia].
    intros retv' inside' outs' Hlen Ho' Hi'. apply IH'; [lia | done | done].
Qed.

Lemma expression_value e :
  Forall id_means (ids_of e) → evaluate_expression incident criteria_cache errno (render e)
  = Done (left_to_right v e, [0], errno).
Proof.
  intros Hids. apply Forall_app in Hids as [Hf Hr]. unfold evaluate_expression, left_to_right, render.
  assert (Hatom : ∀ a, Forall id_means (ids_of_atom a) → atom_ok a).
  { intros [h|h ins] H; cbn in *; apply Forall_cons in H as [Hh H]; [done|]. split; [done|]. rewrite Forall_fmap in H. exact H. }
  assert (Ho : Forall (λ x, atom_ok x.2) (others e)).
  { clear - Hatom Hr. induction (others e) as [|[o a] outs IH]; [constructor|]. cbn in Hr.
    apply Forall_app in Hr as [Ha Hr]. constructor; [by apply Hatom | by apply IH]. }
  pose proof (Hatom _ Hf) as Ha. change (render_others (others e) ++ [0]) with (text None (others e)).
  set (l := render_atom (first e) ++ text None (others e)).
  destruct (first e) as [h|h ins].
  - apply evals_start; [done | | fold l; lia].
    by apply (evals_text _ None (others e) (v h) (le_n _) Ho).
  - destruct Ha as [Hh Hins]. apply evals_block; [done | | fold l; lia].
    by apply (evals_text _ (Some ins) (others e) (v h) (le_n _) Ho).
Qed.
End Correct.

(** ** What the rules come to *)

(** The meaning of the identifiers of an expression. *)
Definition means (incident : Event) (criteria_cache : CriteriaCache) (errno : Z) (v : list Z → bool) (e : expr) : Prop :=
  Forall (id_means incident criteria_cache errno v) (ids_of e).

(** C26: an expression whose parentheses are not nested is evaluated to its value
    from left to right, '+' and '|' having the same precedence; the evaluation
    always ends, at the terminator, although criteria that cannot change the
    value are skipped. *)
Theorem expression_left_to_right incident criteria_cache errno v e :
  means incident criteria_cache errno v e →
  evaluate_expression incident criteria_cache errno (render e) = Done (left_to_right v e, [0], errno).
Proof. apply expression_value. Qed.

(** Whether a rule with that expression matches. *)
Definition rule_matches (v : list Z → bool) (x : Rule * expr) : bool :=
  if negate x.1 =? 0 then left_to_right v x.2 else negb (left_to_right v x.2).

Lemma rules_loop_find incident criteria_cache errno v rs :
  Forall (λ x, expression x.1 = render x.2 ∧ means incident criteria_cache errno v x.2) rs →
  rules_loop incident criteria_cache errno rs.*1 = Done ((rule_id ∘ fst) <$> find (rule_matches v) rs).
Proof.
  induction 1 as [|[r e] rs [Hr Hm] _ IH]; [done|]. cbn [fmap list_fmap rules_loop fst snd] in *.
  rewrite Hr, (expression_value incident criteria_cache errno v e Hm). cbn [mbind res_mbind rbind find].
  unfold rule_matches at 1. cbn [fst snd]. by destruct (if negate r =? 0 then _ else _).
Qed.

(** [evaluate_incident_with_rules] returns the identifier of the first rule
    of the set that matches, a negated rule matching when its expression is
    false, and null when none does. *)
Theorem first_matching_rule incident criteria_cache errno v rs :
  Forall (λ x, expression x.1 = render x.2 ∧ means incident criteria_cache errno v x.2) rs →
  evaluate_incident_with_rules incident criteria_cache errno rs.*1
  = Done ((rule_id ∘ fst) <$> find (rule_matches v) rs).
Proof. apply rules_loop_find. Qed.

Lemma find_split {A} (f : A → bool) l x : find f l = Some x → ∃ a b, l = a ++ x :: b ∧ f x = true ∧ Forall (λ y, f y = false) a.
Proof.
  induction l as [|y l IH]; cbn; [done|]. destruct (f y) eqn:E.
  - intros [= ->]. by exists [], l.
  - intros (a & b & -> & Hx & Ha)%IH. exists (y :: a), b. repeat split; [done|]. by constructor.
Qed.

(** in a set that [sort_rule_set] has sorted the rule returned is one of
    those with the lowest priority among the rules that match: the least
    important one wins, though a higher priority is documented to be the more
    important. *)
Theorem sorted_rules_least_important incident criteria_cache errno v rules rs id :
  sort_rule_set rules rs.*1 →
  Forall (λ x, expression x.1 = render x.2 ∧ means incident criteria_cache errno v x.2) rs →
  evaluate_incident_with_rules incident criteria_cache errno rs.*1 = Done (Some id) →
  ∃ x, x ∈ rs ∧ x.1 ∈ rules ∧ rule_id x.1 = id ∧ rule_matches v x = true
    ∧ ∀ y, y ∈ rs → rule_matches v y = true → priority x.1 ≤ priority y.1.
Proof.
  intros [Hp Hs] Hm. unfold evaluate_incident_with_rules. rewrite (rules_loop_find _ _ _ v) by done. intros [= Hid].
  destruct (find (rule_matches v) rs) as [x|] eqn:Ef; [|done]. cbn in Hid. injection Hid as Hid.
  apply find_split in Ef as (a & b & -> & Hx & Ha). exists x.
  assert (Hin : x ∈ a ++ x :: b) by (apply elem_of_app; right; by left).
  split; [done|]. split; [rewrite <- Hp; by apply list_elem_of_fmap_2|]. split; [done|]. split; [done|].
  intros y Hy Hym. apply elem_of_app in Hy as [Hy|Hy].
  - rewrite Forall_forall in Ha. by rewrite Ha in Hym.
  - apply elem_of_cons in Hy as [->|Hy]; [lia|]. rewrite fmap_app in Hs. cbn [fmap list_fmap] in Hs.
    clear - Hs Hy. induction (a.*1) as [|z l IH]; cbn [app] in Hs; apply StronglySorted_inv in Hs as [Hs Hz]; [|by apply IH].
    rewrite Forall_forall in Hz. specialize (Hz y.1 (list_elem_of_fmap_2 _ _ _ Hy)).
    unfold lrule_is_less_important_than_rrule in Hz. lia.
Qed.

(** A text [strtoul] makes nothing of. *)
Lemma no_conversion_runs incident criteria_cache errno l :
  strtoul16 errno l = (0, l, errno) → criteria_cache !! 0 = None →
  (∃ c r, l = c :: r ∧ c ≠ 0 ∧ c ≠ PAR_START ∧ c ≠ PAR_END ∧ c ≠ AND ∧ c ≠ OR) →
  ∀ fuel retv, evaluate_loop incident criteria_cache fuel errno retv l = Running.
Proof.
  intros Hs Hc (c & r & -> & H0 & H1 & H2 & H3 & H4). induction fuel as [|fuel IH]; intros retv; [done|].
  cbn [evaluate_loop]. rewrite (proj2 (Z.eqb_neq c 0)), (proj2 (Z.eqb_neq c PAR_START)), (proj2 (Z.eqb_neq c 0)),
    (proj2 (Z.eqb_neq c PAR_END)), (proj2 (Z.eqb_neq c AND)), (proj2 (Z.eqb_neq c OR)), (proj2 (Z.eqb_neq c PAR_START)) by done.
  assert (He : evaluate_criteria incident criteria_cache errno (c :: r) = Done (false, c :: r, errno)).
  { unfold evaluate_criteria. rewrite Hs. change (u32 0) with 0. unfold criterion. rewrite Hc. by destruct (_ && _). }
  rewrite He. cbn [mbind res_mbind rbind]. apply IH.
Qed.

Definition demo_tag : Z := 0x01000001.
Definition demo_event : Event := {[ demo_tag := mkTag 5 None ]}.
Definition demo_cache : CriteriaCache :=
  {[ 1 := mkCriteria eEqual demo_tag 5 None; 2 := mkCriteria eEqual demo_tag 6 None ]}.

(** what the evaluator does not handle.  Where it expects a criterion, a
    character that is none, and a space in front of an operator, are never
    passed: it runs for ever.  A space in front of '+' makes the sign part of
    the number and loses the operator.  Skipping a block that contains a block
    runs past the terminator.  The two conditions with "or equal" fail an
    assertion.  64 bit tags never match. *)
Theorem rule_engine_defects :
  (∀ incident cache errno fuel retv, cache !! 0 = None →
     evaluate_loop incident cache fuel errno retv (bytes_of_string "x" ++ [0]) = Running
     ∧ evaluate_loop incident cache fuel errno retv (bytes_of_string " |1" ++ [0]) = Running)
  ∧ evaluate_expression demo_event demo_cache 0 (bytes_of_string "2 +1" ++ [0]) = Done (true, [0], 0)
  ∧ evaluate_expression demo_event demo_cache 0 (bytes_of_string "1|((2)+1)" ++ [0]) = Undefined
  ∧ (∀ inst c t i p, 0 ≤ t < 7 →
       eval_typed inst (mkCriteria eGreaterThanOrEqual (t * 2 ^ 24 + c mod 2 ^ 24) i p) = Aborts
       ∧ eval_typed inst (mkCriteria eLessThanOrEqual (t * 2 ^ 24 + c mod 2 ^ 24) i p) = Aborts)
  ∧ (∀ inst c cn i p, eval_typed inst (mkCriteria cn (7 * 2 ^ 24 + c mod 2 ^ 24) i p) = Done false).
Proof.
  split; [|split; [vm_compute; reflexivity | split; [vm_compute; reflexivity | split]]].
  - intros incident cache errno fuel retv Hc. split; (apply no_conversion_runs; [reflexivity | done |]).
    + eexists _, _. split; [done|]. done.
    + eexists _, _. split; [done|]. done.
  - intros inst c t i p Ht. assert (Hs : Z.shiftr (t * 2 ^ 24 + c mod 2 ^ 24) 24 = t).
    { rewrite Z.shiftr_div_pow2, Z.div_add_l by lia. rewrite Z.div_small; [lia | by apply Z.mod_pos_bound]. }
    unfold eval_typed. cbn [tag cond cr_int cr_ptr]. rewrite Hs.
    assert (t = 0 ∨ t = 1 ∨ t = 2 ∨ t = 3 ∨ t = 4 ∨ t = 5 ∨ t = 6) as Hcase by lia.
    by destruct Hcase as [->|[->|[->|[->|[->|[->| ->]]]]]].
  - intros inst c cn i p. assert (Hs : Z.shiftr (7 * 2 ^ 24 + c mod 2 ^ 24) 24 = 7).
    { rewrite Z.shiftr_div_pow2, Z.div_add_l by lia. rewrite Z.div_small; [lia | by apply Z.mod_pos_bound]. }
    unfold eval_typed. cbn [tag cond cr_int cr_ptr]. by rewrite Hs.
Qed.

Definition demo_v (h : list Z) : bool := bool_decide (h = [49]).
(** "2+1|(2|1)": false and true, or (false or true). *)
Definition demo_expr : expr := mkExpr (Id [50]) [(true, Id [49]); (false, Block [50] [(false, [49])])].
(** "1+2" *)
Definition demo_expr2 : expr := mkExpr (Id [49]) [(true, Id [50])].

Lemma demo_means e : Forall (λ h, h = [49] ∨ h = [50]) (ids_of e) → means demo_event demo_cache 0 demo_v e.
Proof.
  intros H. eapply Forall_impl; [exact H|]. intros h Hh.
  assert (Hd : ∀ c, c = 49 ∨ c = 50 → id_ok 0 [c]).
  { intros c [-> | ->]; (split; [done|]; split; [repeat constructor; vm_compute; eauto|]; split; [done | by left]). }
  destruct Hh as [-> | ->]; (split; [apply Hd; auto | vm_compute; reflexivity]).
Qed.

Lemma demo_means_both : means demo_event demo_cache 0 demo_v demo_expr ∧ means demo_event demo_cache 0 demo_v demo_expr2.
Proof. split; apply demo_means; cbn; repeat (apply Forall_cons; split; [by auto|]); apply Forall_nil; done. Qed.

Lemma expression_left_to_right_witness :
  evaluate_expression demo_event demo_cache 0 (bytes_of_string "2+1|(2|1)" ++ [0]) = Done (true, [0], 0).
Proof. exact (expression_left_to_right demo_event demo_cache 0 demo_v demo_expr (proj1 demo_means_both)). Defined.

Definition demo_rules : list (Rule * expr) :=
  [(mkRule 0 3 0 (render demo_expr2) (bytes_of_string "r1"), demo_expr2);
   (mkRule 1 7 0 (render demo_expr2) (bytes_of_string "r2"), demo_expr2);
   (mkRule 0 9 0 (render demo_expr) (bytes_of_string "r3"), demo_expr)].

Lemma demo_rules_mean :
  Forall (λ x, expression x.1 = render x.2 ∧ means demo_event demo_cache 0 demo_v x.2) demo_rules.
Proof.
  repeat (apply Forall_cons; split; [split; [reflexivity | apply demo_means_both]|]). by apply Forall_nil.
Qed.

Lemma first_matching_rule_witness :
  evaluate_incident_with_rules demo_event demo_cache 0 demo_rules.*1 = Done (Some (bytes_of_string "r2")).
Proof. exact (first_matching_rule demo_event demo_cache 0 demo_v demo_rules demo_rules_mean). Defined.

Lemma demo_rules_sorted : sort_rule_set (rev demo_rules.*1) demo_rules.*1.
Proof.
  split; [apply Permutation_rev | repeat constructor].
Qed.

Lemma sorted_rules_least_important_witness :
  ∃ x, x ∈ demo_rules ∧ x.1 ∈ rev demo_rules.*1 ∧ rule_id x.1 = bytes_of_string "r2" ∧ rule_matches demo_v x = true
    ∧ ∀ y, y ∈ demo_rules → rule_matches demo_v y = true → priority x.1 ≤ priority y.1.
Proof.
  apply (sorted_rules_least_important demo_event demo_cache 0 demo_v (rev demo_rules.*1) demo_rules (bytes_of_string "r2")).
  - exact demo_rules_sorted.
  - exact demo_rules_mean.
  - vm_compute. reflexivity.
Defined.

Lemma rule_engine_defects_witness :
  evaluate_loop demo_event demo_cache 1000 0 false (bytes_of_string "x" ++ [0]) = Running.
Proof. assert (H : demo_cache !! 0 = None) by done. exact (proj1 (proj1 rule_engine_defects demo_event demo_cache 0 1000%nat false H)). Defined.
