(* ===== verification/ArgOpt.v ===== *)
(** * Command line options: [src/stdlib/cmdline/argopt.cpp], [.h]

    [argopt] is called once per option; it keeps its position in two static
    variables and moves what is no option to the end of [argv].  Strings are the
    characters in front of the terminator; [None] is undefined behaviour;
    [argc] is the length of [argv].  Output is the text written. *)
From S2P Require Import Prelude.

Definition ARGOPT_OPTION_FOUND : Z := -1.
Definition ARGOPT_AMBIGIOUS_OPTION : Z := -2.
Definition ARGOPT_UNKNOWN_OPTION : Z := -3.
Definition ARGOPT_MISSING_PARAM : Z := -4.
Definition ARGOPT_NOT_OPTION : Z := -5.
Definition ARGOPT_DONE : Z := -6.

Inductive need_param_t : Set := NO_PARAM | NEED_PARAM | OPTIONAL_PARAM.

(** [flag] is the address of an integer, if any. *)
Record option_t := mkOption {
  name : list Z; help : option (list Z); param : need_param_t; flag : option Z; val : Z }.

Definition ch_minus : Z := 45.
Definition ch_backslash : Z := 92.

Definition is_option (str : list Z) : bool :=
  match str with c :: _ :: _ => c =? ch_minus | _ => false end.

(** The element at [idx] goes to the end, those behind it move up. *)
Definition push_to_end (str : list (list Z)) (idx : Z) : option (list (list Z)) :=
  tmp ← (if 0 <=? idx then str !! Z.to_nat idx else None);
  Some (take (Z.to_nat idx) str ++ drop (S (Z.to_nat idx)) str ++ [tmp]).

(** The loop runs past both terminators when both strings are empty. *)
Fixpoint match_meassure (str1 str2 : list Z) : option Z :=
  match str1, str2 with
  | [], [] => None
  | [], _ :: _ | _ :: _, [] => Some 0
  | a :: str1, b :: str2 =>
      if negb (a =? b) then Some 0
      else
        match str1, str2 with
        | [], _ | _, [] => Some 1
        | _, _ => n ← match_meassure str1 str2; Some (1 + n)
        end
  end.

(** The [while] loop of [find_option] from the option [i] on. *)
Fixpoint find_loop (opt : list Z) (options : list option_t) (i best best_idx : Z) (amb found : bool) : option Z :=
  match options with
  | [] => Some (if negb found then ARGOPT_UNKNOWN_OPTION else if amb then ARGOPT_AMBIGIOUS_OPTION else best_idx)
  | o :: options =>
      if bool_decide (opt = name o) then Some i
      else
        m ← match_meassure (name o) opt;
        if (m =? 0) || negb (m =? zlen opt) then find_loop opt options (i + 1) best best_idx amb found
        else if m =? best then find_loop opt options (i + 1) best best_idx true true
        else if best <? m then find_loop opt options (i + 1) m i false true
        else find_loop opt options (i + 1) best best_idx amb true
  end.

(** [opt] starts with its '-'. *)
Definition find_option (opt : list Z) (options : list option_t) : option Z :=
  find_loop (drop 1 opt) options 0 0 0 true false.

Definition is_param (strdup_ok : bool) (param : list Z) : option (list Z) :=
  match param with
  | c :: r =>
      if c =? ch_minus then None
      else
        let param := match r with
                     | d :: _ => if (c =? ch_backslash) && (d =? ch_minus) then r else param
                     | [] => param
                     end in
        if strdup_ok then Some param else None
  | [] => if strdup_ok then Some [] else None
  end.

(** The static variables. *)
Record statics := mkStatics { argv_idx : Z; push_count : Z }.

(** What a call leaves behind: the return value, [argv], [*index],
    [*parameter], the static variables, and the integer it has set. *)
Record outcome := mkOutcome {
  retv : Z; out_argv : list (list Z); index : Z; parameter : option (list Z); out_st : statics;
  flag_set : option (Z * Z) }.

Definition at_index (argv : list (list Z)) (i : Z) : option (list Z) :=
  if 0 <=? i then argv !! Z.to_nat i else None.

(** The return value of an option, and the flag it sets. *)
Definition option_result (o : option_t) : Z * option (Z * Z) :=
  match flag o with None => (val o, None) | Some f => (ARGOPT_OPTION_FOUND, Some (f, val o)) end.

(** What [*index] and [*parameter] were is kept where the code does not assign
    them. *)
Definition argopt (strdup_ok : bool) (options : option (list option_t)) (st : statics) (argv : list (list Z))
    (idx : Z) (par : option (list Z)) : option outcome :=
  let argc := zlen argv in
  match options with
  | None => Some (mkOutcome ARGOPT_DONE argv idx par st None)
  | Some options =>
      let st := if idx =? -1 then mkStatics 0 0 else st in
      let i := argv_idx st + 1 in
      let pc := push_count st in
      if i <? argc then
        if argc <=? pc + i then Some (mkOutcome ARGOPT_DONE argv (argc - pc) None (mkStatics i pc) None)
        else
          arg ← at_index argv i;
          if negb (is_option arg) then
            (* the second check for remaining options is the first one again *)
            argv ← push_to_end argv i;
            Some (mkOutcome ARGOPT_NOT_OPTION argv (argc - 1) None (mkStatics (i - 1) (pc + 1)) None)
          else
            opt_index ← find_option arg options;
            if opt_index <? 0 then
              argv ← push_to_end argv i;
              let pc := pc + 1 in
              if pc + i =? argc then Some (mkOutcome opt_index argv (argc - 1) None (mkStatics (i - 1) pc) None)
              else
                arg ← at_index argv i;
                if negb (is_option arg) then
                  argv ← push_to_end argv i;
                  Some (mkOutcome opt_index argv (argc - 2) None (mkStatics (i - 1) (pc + 1)) None)
                else Some (mkOutcome opt_index argv (argc - 1) None (mkStatics (i - 1) pc) None)
            else
              o ← options !! Z.to_nat opt_index;
              let '(r, f) := option_result o in
              match param o with
              | NO_PARAM => Some (mkOutcome r argv i None (mkStatics i pc) f)
              | NEED_PARAM =>
                  if pc + i + 1 =? argc then Some (mkOutcome ARGOPT_MISSING_PARAM argv i None (mkStatics i pc) None)
                  else
                    p ← at_index argv (i + 1);
                    match is_param strdup_ok p with
                    | None => Some (mkOutcome ARGOPT_MISSING_PARAM argv i None (mkStatics i pc) None)
                    | Some p => Some (mkOutcome r argv (i + 1) (Some p) (mkStatics (i + 1) pc) f)
                    end
              | OPTIONAL_PARAM =>
                  if pc + i + 1 =? argc then Some (mkOutcome r argv i None (mkStatics i pc) f)
                  else
                    p ← at_index argv (i + 1);
                    match is_param strdup_ok p with
                    | None => Some (mkOutcome r argv i None (mkStatics i pc) f)
                    | Some p => Some (mkOutcome r argv (i + 1) (Some p) (mkStatics (i + 1) pc) f)
                    end
              end
      else Some (mkOutcome ARGOPT_DONE argv (argc - pc) None (mkStatics i pc) None)
  end.

(** ** Texts *)

Definition spaces (n : Z) : list Z := replicate (Z.to_nat n) 32.

(** The width of the names of the options with a help text. *)
Definition lmax (options : list option_t) : Z :=
  foldl (λ m o, match help o with Some _ => if m <? zlen (name o) then zlen (name o) else m | None => m end) 0 options.

Definition option_line (width : Z) (o : option_t) (h : list Z) : list Z :=
  bytes_of_string "   -" ++ name o ++ spaces (width - zlen (name o)) ++ h ++ [10].

Definition argopt_help (notice : option (list Z)) (prog : list Z) (options : option (list option_t)) : list Z :=
  match options with
  | None => []
  | Some options =>
      [10] ++ match notice with Some n => n ++ [10] | None => [] end
      ++ bytes_of_string "Usage: " ++ prog ++ bytes_of_string " <OPTIONS>" ++ [10]
      ++ bytes_of_string "Options:" ++ [10]
      ++ concat ((λ o, match help o with Some h => option_line (lmax options + 4) o h | None => [] end) <$> options)
  end.

(** [strncmp(opt, name, strlen(opt)) == 0]. *)
Definition completes (opt : list Z) (o : option_t) : bool := bool_decide (take (length opt) (name o) = opt).

(** The array is written without a test of [malloc]. *)
Definition argopt_completions (malloc_ok : bool) (notice : option (list Z)) (opt : option (list Z))
    (options : option (list option_t)) : option (list Z) :=
  match options, opt with
  | Some options, Some opt =>
      if zlen options =? 0 then Some []
      else if negb malloc_ok then None
      else
        let amb := filter (λ o, completes opt o = true) options in
        Some ([10] ++ match notice with Some n => n ++ [10; 10] | None => [] end
              ++ concat ((λ o, match help o with
                               | Some h => option_line (lmax amb + 4) o h
                               | None => bytes_of_string "   -" ++ name o ++ [10]
                               end) <$> amb))
  | _, _ => Some []
  end.

(** ** Looking up an option *)

(** The indices, from [i] on, of the options whose name properly extends
    [opt]. *)
Fixpoint extensions (opt : list Z) (options : list option_t) (i : Z) : list Z :=
  match options with
  | [] => []
  | o :: options =>
      (if completes opt o then [i] else []) ++ extensions opt options (i + 1)
  end.

Fixpoint exact (opt : list Z) (options : list option_t) (i : Z) : option Z :=
  match options with
  | [] => None
  | o :: options => if bool_decide (opt = name o) then Some i else exact opt options (i + 1)
  end.

(** The documented result: an exact name, else the only name [opt]
    abbreviates. *)
Definition looked_up (opt : list Z) (options : list option_t) : Z :=
  match exact opt options 0 with
  | Some i => i
  | None =>
      match extensions opt options 0 with
      | [] => ARGOPT_UNKNOWN_OPTION
      | [i] => i
      | _ => ARGOPT_AMBIGIOUS_OPTION
      end
  end.

Lemma match_meassure_spec str2 : ∀ str1, str2 ≠ [] →
  ∃ m, match_meassure str1 str2 = Some m ∧ 0 ≤ m ∧ (m = zlen str2 ↔ take (length str2) str1 = str2).
Proof.
  induction str2 as [|b str2 IH]; intros str1 Hne; [done|]. destruct str1 as [|a str1].
  { exists 0. split; [done|]. split; [lia|]. cbn [length take]. split; [lia | done]. }
  cbn [match_meassure length take]. destruct (Z.eqb_spec a b) as [->|Hab]; cbn [negb].
  - destruct str1 as [|a' str1].
    + exists 1. split; [done|]. split; [lia|]. rewrite take_nil. split.
      * intros Hl. destruct str2; [done | cbn [length] in Hl; lia].
      * intros [= <-]. done.
    + destruct str2 as [|b' str2]; [exists 1; by repeat split|].
      destruct (IH (a' :: str1)) as (m & Hm & H0 & Heq); [done|]. rewrite Hm. obind. exists (1 + m).
      split; [done|]. split; [lia|]. split.
      * intros Hl. f_equal. apply Heq. cbn [length] in *. lia.
      * intros Hl%(f_equal (@tail Z)). apply Heq in Hl. cbn [length] in *. lia.
  - exists 0. split; [done|]. split; [lia|]. split; [lia | by intros [= ? _]].
Qed.

(** What the loop knows after the options with the indices [pre] have matched. *)
Definition loop_state (n : Z) (pre : list Z) (best best_idx : Z) (amb found : bool) : Prop :=
  match pre with
  | [] => best = 0 ∧ found = false
  | [k] => best = n ∧ best_idx = k ∧ amb = false ∧ found = true
  | _ => best = n ∧ amb = true ∧ found = true
  end.

Definition verdict (l : list Z) : Z :=
  match l with [] => ARGOPT_UNKNOWN_OPTION | [i] => i | _ => ARGOPT_AMBIGIOUS_OPTION end.

Lemma find_loop_spec opt options : opt ≠ [] → ∀ pre i best best_idx amb found,
  loop_state (zlen opt) pre best best_idx amb found →
  find_loop opt options i best best_idx amb found
  = Some match exact opt options i with Some j => j | None => verdict (pre ++ extensions opt options i) end.
Proof.
  intros Hopt. assert (Hn : 0 < zlen opt) by (destruct opt; [done | cbn [length]; lia]).
  induction options as [|o options IH]; intros pre i best best_idx amb found Hst; cbn [find_loop exact extensions].
  - rewrite app_nil_r. f_equal. destruct pre as [|k [|k' pre]]; cbn in *.
    + by destruct Hst as [_ ->].
    + by destruct Hst as (_ & -> & -> & ->).
    + by destruct Hst as (_ & -> & ->).
  - case_bool_decide as Hex; [done|]. destruct (match_meassure_spec opt (name o) Hopt) as (m & -> & H0 & Hm). obind.
    unfold completes. case_bool_decide as Hc.
    + apply Hm in Hc as ->. rewrite (proj2 (Z.eqb_neq (zlen opt) 0)), Z.eqb_refl by lia. cbn [orb negb].
      replace (pre ++ [i] ++ extensions opt options (i + 1)) with ((pre ++ [i]) ++ extensions opt options (i + 1)) by (by app_norm).
      destruct pre as [|k pre].
      * cbn in Hst. destruct Hst as [-> ->]. rewrite (proj2 (Z.eqb_neq (zlen opt) 0)) by lia.
        rewrite (proj2 (Z.ltb_lt 0 _)) by lia. by apply IH.
      * assert (Hbest : best = zlen opt) by (destruct pre; cbn in Hst; tauto). rewrite Hbest, Z.eqb_refl.
        apply IH. destruct pre; cbn; done.
    + assert (Hskip : (m =? 0) || negb (m =? zlen opt) = true).
      { destruct (Z.eqb_spec m (zlen opt)) as [->|?]; [|by rewrite orb_true_r]. by destruct Hc; apply Hm. }
      rewrite Hskip. cbn [app]. by apply IH.
Qed.

Lemma find_option_found c opt options : opt ≠ [] → find_option (c :: opt) options = Some (looked_up opt options).
Proof.
  intros Hopt. unfold find_option, looked_up. change (drop 1 (c :: opt)) with opt.
  rewrite (find_loop_spec opt options Hopt [] 0 0 0 true false) by done. cbn [app].
  destruct (exact opt options 0); [done|]. by destruct (extensions opt options 0) as [|? [|]].
Qed.

(** [find_option] finds an option by its exact name, and otherwise by an
    abbreviation of exactly one name; an abbreviation of several is ambiguous,
    of none unknown. *)
Theorem find_option_exact c opt options :
  opt ≠ [] → find_option (c :: opt) options = Some (looked_up opt options).
Proof. apply find_option_found. Qed.

Lemma exact_range opt options : ∀ i j, exact opt options i = Some j → i ≤ j < i + zlen options.
Proof.
  induction options as [|o options IH]; intros i j; cbn [exact length]; [done|]. case_bool_decide.
  - intros [= <-]. lia.
  - intros Hj%IH. lia.
Qed.

Lemma extensions_range opt options : ∀ i j, j ∈ extensions opt options i → i ≤ j < i + zlen options.
Proof.
  induction options as [|o options IH]; intros i j; cbn [extensions length]; [by intros ?%not_elem_of_nil|].
  intros [Hj|Hj]%elem_of_app; [|apply IH in Hj; lia]. destruct (completes opt o); [|by apply not_elem_of_nil in Hj].
  apply list_elem_of_singleton in Hj. lia.
Qed.

Lemma looked_up_range opt options : 0 ≤ looked_up opt options → is_Some (options !! Z.to_nat (looked_up opt options)).
Proof.
  unfold looked_up. intros H. apply lookup_lt_is_Some_2. destruct (exact opt options 0) as [j|] eqn:E.
  - apply exact_range in E. lia.
  - destruct (extensions opt options 0) as [|j [|]] eqn:Ex; [done| |done].
    assert (Hj : j ∈ extensions opt options 0) by (rewrite Ex; by left). apply extensions_range in Hj. lia.
Qed.

(** ** The whole command line *)

(** What a client learns from one call: the return value, the parameter, the
    flag that was set, and the argument [*index] stands for. *)
Record event := mkEvent { e_ret : Z; e_param : option (list Z); e_flag : option (Z * Z); e_arg : list Z }.

(** The reference: one step over the arguments not yet looked at: the event, the
    arguments that have been used up, those put aside, and the others. *)
Definition parse_step (ok : bool) (options : list option_t) (rem : list (list Z))
    : option (event * list (list Z) * list (list Z) * list (list Z)) :=
  match rem with
  | [] => None
  | a :: rem =>
      if negb (is_option a) then Some (mkEvent ARGOPT_NOT_OPTION None None a, [], [a], rem)
      else
        let k := looked_up (drop 1 a) options in
        if k <? 0 then
          match rem with
          | b :: rem' =>
              if is_option b then Some (mkEvent k None None a, [], [a], rem)
              else Some (mkEvent k None None a, [], [a; b], rem')
          | [] => Some (mkEvent k None None a, [], [a], [])
          end
        else
          match options !! Z.to_nat k with
          | None => None
          | Some o =>
              let '(r, f) := option_result o in
              let value := match param o, rem with
                           | NO_PARAM, _ | _, [] => None
                           | _, b :: _ => is_param ok b
                           end in
              match value with
              | Some p => Some (mkEvent r (Some p) f (default [] (head rem)), a :: take 1 rem, [], drop 1 rem)
              | None =>
                  match param o with
                  | NEED_PARAM => Some (mkEvent ARGOPT_MISSING_PARAM None None a, [a], [], rem)
                  | _ => Some (mkEvent r None f a, [a], [], rem)
                  end
              end
          end
  end.

Fixpoint parse (fuel : nat) (ok : bool) (options : list option_t) (rem : list (list Z))
    : list event * list (list Z) * list (list Z) :=
  match fuel with
  | O => ([], [], [])
  | S fuel =>
      match parse_step ok options rem with
      | None => ([], [], [])
      | Some (e, used, aside, rem) =>
          let '(es, u, s) := parse fuel ok options rem in (e :: es, used ++ u, aside ++ s)
      end
  end.

(** The loop of a client: calls until [ARGOPT_DONE], from [*index = -1] on. *)
Fixpoint calls (fuel : nat) (ok : bool) (options : list option_t) (st : statics) (argv : list (list Z))
    (idx : Z) (par : option (list Z)) : option (list event * list (list Z) * Z) :=
  match fuel with
  | O => None
  | S fuel =>
      o ← argopt ok (Some options) st argv idx par;
      if retv o =? ARGOPT_DONE then Some ([], out_argv o, index o)
      else
        arg ← at_index (out_argv o) (index o);
        '(es, argv, idx) ← calls fuel ok options (out_st o) (out_argv o) (index o) (parameter o);
        Some (mkEvent (retv o) (parameter o) (flag_set o) arg :: es, argv, idx)
  end.

Lemma at_index_mid (a b : list (list Z)) x i : i = zlen a → at_index (a ++ x :: b) i = Some x.
Proof. intros ->. unfold at_index. bsolve. rewrite Nat2Z.id. by apply list_lookup_middle. Qed.

Lemma push_to_end_mid (a b : list (list Z)) x i : i = zlen a → push_to_end (a ++ x :: b) i = Some (a ++ b ++ [x]).
Proof.
  intros ->. unfold push_to_end. bsolve. rewrite Nat2Z.id, list_lookup_middle by done. obind.
  rewrite take_app_length. do 2 f_equal. rewrite (cons_middle x a b), app_assoc.
  by rewrite drop_app_length' by (rewrite length_app; cbn; lia).
Qed.

Lemma is_option_tail a : is_option a = true → ∃ c opt, a = c :: opt ∧ opt ≠ [].
Proof. destruct a as [|c [|d r]]; try done. intros _. by exists c, (d :: r). Qed.

(** No option returns the value that ends the loop, as in every table that can
    be used. *)
Definition vals_ok (options : list option_t) : Prop := Forall (λ o, val o ≠ ARGOPT_DONE) options.

Lemma looked_up_code opt options : looked_up opt options ≠ ARGOPT_DONE.
Proof.
  unfold looked_up, ARGOPT_DONE. destruct (exact opt options 0) as [j|] eqn:E; [apply exact_range in E; lia|].
  destruct (extensions opt options 0) as [|j [|]] eqn:Ex; [done| |done].
  assert (Hj : j ∈ extensions opt options 0) by (rewrite Ex; by left). apply extensions_range in Hj. lia.
Qed.

Lemma option_result_code options o : vals_ok options → o ∈ options → (option_result o).1 ≠ ARGOPT_DONE.
Proof.
  intros Hv Ho. unfold vals_ok in Hv. rewrite Forall_forall in Hv. specialize (Hv o Ho).
  unfold option_result. by destruct (flag o).
Qed.

(** What an outcome owes the reference. *)
Definition agrees (pre aside : list (list Z)) (n : nat) (o : outcome)
    (x : event * list (list Z) * list (list Z) * list (list Z)) : Prop :=
  let '(e, used, aside', rem') := x in
  retv o = e_ret e ∧ retv o ≠ ARGOPT_DONE ∧ parameter o = e_param e ∧ flag_set o = e_flag e
  ∧ at_index (out_argv o) (index o) = Some (e_arg e) ∧ index o ≠ -1
  ∧ out_argv o = (pre ++ used) ++ rem' ++ aside ++ aside'
  ∧ out_st o = mkStatics (zlen (pre ++ used) - 1) (zlen (aside ++ aside'))
  ∧ (length rem' < n)%nat
  ∧ (used = [] → zlen pre + zlen rem' ≤ index o).

Ltac lengths := rewrite ?length_app, ?Nat2Z.inj_add; cbn [length]; rewrite ?length_app, ?Nat2Z.inj_add; cbn [length]; lia.
Ltac agree := unfold agrees; cbn [retv out_argv index parameter out_st flag_set e_ret e_param e_flag e_arg];
  repeat match goal with |- _ ∧ _ => split end;
  try done; try lia; try (by (rewrite ?app_nil_r; app_norm)); try (f_equal; rewrite ?app_nil_r; lengths); try (cbn [length]; lia);
  try (intros _; lengths).

(** An option that takes its value from the next argument, or none. *)
Lemma agree_alone pre aside a rem r f n :
  pre ≠ [] → r ≠ ARGOPT_DONE → (length rem < n)%nat →
  agrees pre aside n (mkOutcome r (pre ++ a :: rem ++ aside) (zlen pre) None (mkStatics (zlen pre) (zlen aside)) f)
    (mkEvent r None f a, [a], [], rem).
Proof.
  intros Hp Hr Hn. agree.
  by apply at_index_mid.
Qed.

Lemma agree_value pre aside a b rem r p f n :
  pre ≠ [] → r ≠ ARGOPT_DONE → (length rem < n)%nat →
  agrees pre aside n
    (mkOutcome r (pre ++ a :: b :: rem ++ aside) (zlen pre + 1) (Some p) (mkStatics (zlen pre + 1) (zlen aside)) f)
    (mkEvent r (Some p) f b, [a; b], [], rem).
Proof.
  intros Hp Hr Hn. agree.
  rewrite (cons_middle a pre), app_assoc. cbn [app]. apply at_index_mid. lengths.
Qed.

(** One call against the reference: [pre] has been looked at, [rem] not yet,
    [aside] is at the end. *)
Lemma argopt_step ok options pre rem aside idx par :
  pre ≠ [] → vals_ok options → idx ≠ -1 →
  let st := mkStatics (zlen pre - 1) (zlen aside) in
  ∃ o, argopt ok (Some options) st (pre ++ rem ++ aside) idx par = Some o
  ∧ match parse_step ok options rem with
    | None => rem = [] ∧ retv o = ARGOPT_DONE ∧ out_argv o = pre ++ aside ∧ index o = zlen pre
    | Some x => agrees pre aside (length rem) o x
    end.
Proof.
  intros Hpre Hvals Hidx st. unfold argopt. rewrite (proj2 (Z.eqb_neq idx (-1))) by done.
  cbn [argv_idx push_count st]. replace (zlen pre - 1 + 1) with (zlen pre) by lia.
  assert (Hp : 0 < zlen pre) by (destruct pre; [done | cbn [length]; lia]).
  rewrite !length_app, !Nat2Z.inj_add. destruct rem as [|a rem].
  - cbn [app length parse_step]. rewrite Z.add_0_l.
    destruct (zlen pre <? zlen pre + zlen aside) eqn:E1.
    + rewrite (proj2 (Z.leb_le _ _)) by lia. eexists. split; [done|]. cbn. repeat split; try done; lia.
    + eexists. split; [done|]. cbn. repeat split; try done; lia.
  - cbn [length]. rewrite (proj2 (Z.ltb_lt _ _)), (proj2 (Z.leb_gt _ _)) by lia. cbn [app].
    rewrite (at_index_mid pre (rem ++ aside) a (zlen pre)) by done. obind. cbn [parse_step].
    destruct (is_option a) eqn:Ea; cbn [negb].
    2: { rewrite (push_to_end_mid pre (rem ++ aside) a (zlen pre)) by done. obind. eexists. split; [done|]. agree.
         rewrite !app_assoc. apply at_index_mid. lengths. }
    destruct (is_option_tail a Ea) as (c & opt & -> & Hopt). rewrite find_option_found by done. obind.
    change (drop 1 (c :: opt)) with opt. pose proof (looked_up_code opt options) as Hcode.
    destruct (looked_up opt options <? 0) eqn:Ek.
    + rewrite (push_to_end_mid pre (rem ++ aside) (c :: opt) (zlen pre)) by done. obind. destruct rem as [|b rem].
      * cbn [length app]. rewrite (proj2 (Z.eqb_eq _ _)) by lia. eexists. split; [done|]. agree.
        rewrite !app_assoc. apply at_index_mid. lengths.
      * cbn [length app]. rewrite (proj2 (Z.eqb_neq _ _)) by lia.
        rewrite (at_index_mid pre ((rem ++ aside) ++ [c :: opt]) b (zlen pre)) by done. obind.
        destruct (is_option b); cbn [negb].
        -- eexists. split; [done|]. agree.
           change (b :: (rem ++ aside) ++ [c :: opt]) with ((b :: rem ++ aside) ++ [c :: opt]).
           rewrite !app_assoc. apply at_index_mid. lengths.
        -- rewrite (push_to_end_mid pre ((rem ++ aside) ++ [c :: opt]) b (zlen pre)) by done. obind.
           eexists. split; [done|]. agree.
           replace (pre ++ ((rem ++ aside) ++ [c :: opt]) ++ [b]) with ((pre ++ rem ++ aside) ++ (c :: opt) :: [b]) by (by app_norm).
           apply at_index_mid. lengths.
    + bool_hyps. destruct (looked_up_range opt options) as [o Ho]; [lia|]. rewrite Ho. obind.
      pose proof (option_result_code options o Hvals (list_elem_of_lookup_2 _ _ _ Ho)) as Hres.
      destruct (option_result o) as [r f]. cbn [fst] in Hres.
      assert (Hm : ARGOPT_MISSING_PARAM ≠ ARGOPT_DONE) by done.
      destruct rem as [|b rem].
      * assert (Hend : (zlen aside + zlen pre + 1 =? zlen pre + (Z.of_nat (S (length (@nil (list Z)))) + zlen aside)) = true)
          by (apply Z.eqb_eq; cbn [length]; lia).
        rewrite Hend. destruct (param o); (eexists; split; [reflexivity|]; apply (agree_alone pre aside _ []); [done | done | cbn; lia]).
      * assert (Hend : (zlen aside + zlen pre + 1 =? zlen pre + (Z.of_nat (S (length (b :: rem))) + zlen aside)) = false)
          by (apply Z.eqb_neq; cbn [length]; lia).
        rewrite Hend. assert (Hnext : at_index (pre ++ (c :: opt) :: (b :: rem) ++ aside) (zlen pre + 1) = Some b).
        { rewrite (cons_middle (c :: opt) pre), app_assoc. cbn [app]. apply at_index_mid. lengths. }
        rewrite Hnext. obind. cbn [take drop head].
        destruct (param o); [|destruct (is_param ok b) as [p|]..];
          (eexists; split; [reflexivity|]);
          first [apply (agree_value pre aside _ b rem) | apply (agree_alone pre aside _ (b :: rem))];
          first [done | cbn [length]; lia].
Qed.

Lemma calls_spec ok options : vals_ok options → ∀ n rem pre aside idx par,
  (length rem < n)%nat → pre ≠ [] → idx ≠ -1 →
  let '(es, used, s) := parse n ok options rem in
  calls n ok options (mkStatics (zlen pre - 1) (zlen aside)) (pre ++ rem ++ aside) idx par
  = Some (es, pre ++ used ++ aside ++ s, zlen pre + zlen used).
Proof.
  intros Hv. induction n as [|n IH]; intros rem pre aside idx par Hn Hpre Hidx; [lia|]. cbn [parse calls].
  destruct (argopt_step ok options pre rem aside idx par Hpre Hv Hidx) as (o & Ho & Hagree). rewrite Ho. obind.
  destruct (parse_step ok options rem) as [[[[e used] s] rem']|].
  - destruct Hagree as (Hr & Hd & Hp & Hf & Harg & Hi & Hargv & Hst & Hlen & _).
    rewrite (proj2 (Z.eqb_neq _ _) Hd), Harg. obind. rewrite Hst, Hargv.
    specialize (IH rem' (pre ++ used) (aside ++ s) (index o) (parameter o) ltac:(lia)). 
    destruct (parse n ok options rem') as [[es u] t].
    rewrite IH by (done || by destruct pre). obind. rewrite Hr, Hp, Hf. destruct e. cbn [e_ret e_param e_flag e_arg].
    f_equal. f_equal; [f_equal; by app_norm|]. rewrite !length_app. lia.
  - destruct Hagree as (-> & -> & -> & ->). rewrite Z.eqb_refl. cbn [app length]. rewrite app_nil_r. do 2 f_equal. lia.
Qed.

Lemma parse_step_perm ok options rem e used s rem' :
  parse_step ok options rem = Some (e, used, s, rem') → used ++ s ++ rem' ≡ₚ rem ∧ (length rem' < length rem)%nat.
Proof.
  destruct rem as [|a rem]; cbn [parse_step]; [done|]. destruct (is_option a); cbn [negb].
  2: { intros [= <- <- <- <-]. cbn. split; [done|lia]. }
  destruct (_ <? 0).
  - destruct rem as [|b rem]; [intros [= <- <- <- <-]; cbn; split; [done|lia]|].
    destruct (is_option b); intros [= <- <- <- <-]; cbn; split; (done || lia).
  - destruct (options !! _) as [o|]; [|done]. destruct (option_result o) as [r f].
    destruct (param o), rem as [|b rem]; try destruct (is_param ok b) as [p|]; intros [= <- <- <- <-];
      cbn [app take drop length]; rewrite ?take_0, ?drop_0; cbn [app]; split; (done || lia).
Qed.

Lemma parse_perm ok options : ∀ n rem, vals_ok options → (length rem < n)%nat →
  let '(_, used, s) := parse n ok options rem in used ++ s ≡ₚ rem.
Proof.
  intros n. induction n as [|n IH]; intros rem Hv Hn; [lia|]. cbn [parse].
  pose proof (argopt_step ok options [[]] rem [] 0 None) as Hstep.
  destruct (parse_step ok options rem) as [[[[e used] s] rem']|] eqn:E.
  - apply parse_step_perm in E as [Hp Hlen]. specialize (IH rem' Hv ltac:(lia)).
    destruct (parse n ok options rem') as [[es u] t]. rewrite <- Hp, <- IH. solve_Permutation.
  - destruct Hstep as (o & _ & (-> & _)); done.
Qed.

(** C25: the loop of calls over a whole command line refines the reference parser
    over the list of arguments: from [*index = -1], whatever the static
    variables were, it ends within one call per argument and one more, reports
    the events of the reference (each with the argument [*index] stands for),
    leaves [argv] a permutation of itself with the operands and unknown options
    at its end in their order, and [*index] at the first of them. *)
Theorem command_line_parsed ok options a0 args st par :
  vals_ok options →
  ∃ es used operands,
    parse (S (length args)) ok options args = (es, used, operands)
    ∧ calls (S (length args)) ok options st (a0 :: args) (-1) par = Some (es, a0 :: used ++ operands, 1 + zlen used)
    ∧ used ++ operands ≡ₚ args.
Proof.
  intros Hv. pose proof (calls_spec ok options Hv (S (length args)) args [a0] [] 0 par ltac:(lia) ltac:(done) ltac:(done)) as H.
  pose proof (parse_perm ok options (S (length args)) args Hv ltac:(lia)) as Hp.
  destruct (parse (S (length args)) ok options args) as [[es used] s]. exists es, used, s. split; [done|]. split; [|done].
  cbn [app] in H. rewrite app_nil_r in H. change (1 + zlen used) with (zlen [a0] + zlen used). rewrite <- H. reflexivity.
Qed.

Definition demo_options : list option_t :=
  [mkOption (bytes_of_string "version") (Some (bytes_of_string "print the version")) NO_PARAM None 118;
   mkOption (bytes_of_string "verbose") None NO_PARAM (Some 0) 1;
   mkOption (bytes_of_string "conf") (Some (bytes_of_string "configuration file")) NEED_PARAM None 99].

Lemma command_line_parsed_witness :
  let args := bytes_of_string <$> ["one"; "-conf"; "a.conf"; "-ver"; "two"; "-versi"]%string in
  vals_ok demo_options
  ∧ calls 7 true demo_options (mkStatics 9 9) (bytes_of_string "prog" :: args) (-1) None
    = Some ([mkEvent ARGOPT_NOT_OPTION None None (bytes_of_string "one");
             mkEvent 99 (Some (bytes_of_string "a.conf")) None (bytes_of_string "a.conf");
             mkEvent ARGOPT_AMBIGIOUS_OPTION None None (bytes_of_string "-ver");
             mkEvent 118 None None (bytes_of_string "-versi")],
            bytes_of_string <$> ["prog"; "-conf"; "a.conf"; "-versi"; "one"; "-ver"; "two"]%string, 4).
Proof.
  intros args. assert (Hv : vals_ok demo_options) by (repeat constructor; done). split; [exact Hv|].
  destruct (command_line_parsed true demo_options (bytes_of_string "prog") args (mkStatics 9 9) None Hv)
    as (es & used & s & Hparse & Hcalls & _).
  change (S (length args)) with 7%nat in *. rewrite Hcalls.
  assert (Hes : parse 7 true demo_options args = (es, used, s)) by exact Hparse.
  vm_compute in Hes. injection Hes as <- <- <-. reflexivity.
Defined.

Lemma extensions_length opt options : ∀ i,
  length (extensions opt options i) = length (filter (λ o, completes opt o = true) options).
Proof.
  induction options as [|o options IH]; intros i; [done|]. cbn [extensions]. rewrite length_app, IH.
  destruct (completes opt o) eqn:E.
  - by rewrite filter_cons_True.
  - by rewrite filter_cons_False by (by rewrite E).
Qed.

Lemma exact_None opt options : ∀ i, exact opt options i = None ↔ Forall (λ o, opt ≠ name o) options.
Proof.
  induction options as [|o options IH]; intros i; cbn [exact]; [done|]. rewrite Forall_cons. case_bool_decide.
  - split; [done | by intros [? _]].
  - rewrite IH. tauto.
Qed.

(** an option is ambiguous exactly when it is no name and the completions
    [argopt_completions] lists are two or more, and unknown exactly when it is
    no name and there are none. *)
Theorem ambiguous_iff_completions c opt options :
  opt ≠ [] →
  let n := length (filter (λ o, completes opt o = true) options) in
  (find_option (c :: opt) options = Some ARGOPT_AMBIGIOUS_OPTION ↔ Forall (λ o, opt ≠ name o) options ∧ (2 ≤ n)%nat)
  ∧ (find_option (c :: opt) options = Some ARGOPT_UNKNOWN_OPTION ↔ Forall (λ o, opt ≠ name o) options ∧ n = 0%nat).
Proof.
  intros Hopt n. rewrite find_option_found by done. rewrite <- (exact_None opt options 0).
  assert (Hn : length (extensions opt options 0) = n) by apply extensions_length.
  unfold looked_up, ARGOPT_AMBIGIOUS_OPTION, ARGOPT_UNKNOWN_OPTION in *.
  destruct (exact opt options 0) as [j|] eqn:E.
  { apply exact_range in E. split; (split; [intros H; injection H; lia | by intros [? _]]). }
  destruct (extensions opt options 0) as [|j [|j' l]] eqn:Ex; cbn [length] in Hn.
  - split; (split; [intros H; first [discriminate H | split; [done|lia]] | intros [_ ?]; first [lia | done]]).
  - assert (Hj : j ∈ extensions opt options 0) by (rewrite Ex; by left). apply extensions_range in Hj.
    split; (split; [intros H; injection H; lia | intros [_ ?]; lia]).
  - split; (split; [intros H; first [discriminate H | split; [done|lia]] | intros [_ ?]; first [lia | done]]).
Qed.

Lemma ambiguous_iff_completions_witness :
  find_option (bytes_of_string "-ver") demo_options = Some ARGOPT_AMBIGIOUS_OPTION.
Proof.
  assert (Ho : bytes_of_string "ver" ≠ []) by done.
  refine (proj2 (proj1 (ambiguous_iff_completions ch_minus (bytes_of_string "ver") demo_options Ho)) _).
  split; [repeat constructor; done | vm_compute; repeat constructor].
Defined.
