(* ===== verification/Sockets.v ===== *)
(** * The network helpers: [src/stdlib/network/network.cpp], [net_interfaces.cpp]

    The answers of the operating system are arguments.  What the functions do
    to the process is a state: the set of its open descriptors, from which
    [socket] takes the lowest free number and [close] removes one.  The host is
    Linux. *)
From S2P Require Import Prelude.

(** ** [send_all] *)

Inductive send_ret := Sent (n : Z) | SendFailed.

(** [send] takes what it answers to have sent; the result is [None] as long as
    the call waits for another answer, otherwise the return value.  The second
    component is what went over the wire. *)
Fixpoint send_all_loop (kernel : list send_ret) (buf : list Z) (total bytesleft len : Z)
    : option (option Z * list Z) :=
  if total <? len then
    match kernel with
    | [] => Some (None, [])
    | SendFailed :: _ => Some (Some 0, [])
    | Sent n :: kernel =>
        d ← read_at buf total n;
        '(r, wire) ← send_all_loop kernel buf (total + n) (bytesleft - n) len;
        Some (r, d ++ wire)
    end
  else Some (Some 1, []).

Definition send_all (kernel : list send_ret) (buf : list Z) (len : Z) : option (option Z * list Z) :=
  send_all_loop kernel buf 0 len len.

(** [send] never sends more than it is given. *)
Fixpoint sends_ok (kernel : list send_ret) (left_ : Z) : Prop :=
  match kernel with
  | [] => True
  | SendFailed :: kernel => sends_ok kernel left_
  | Sent n :: kernel => 0 ≤ n ≤ left_ ∧ sends_ok kernel (left_ - n)
  end.

(** ** Flags and options *)

(** The three wrappers of [setsockopt]. *)
Definition set_recv_timeout (rc : Z) : Z := if rc =? 0 then 1 else 0.
Definition set_send_timeout (rc : Z) : Z := if rc =? 0 then 1 else 0.
Definition set_min_recv_sice (rc : Z) : Z := if rc =? 0 then 1 else 0.

Definition O_NONBLOCK : Z := 0x800.

(** [flags] is what F_GETFL answers, [rc] what F_SETFL does; the flags stored,
    if any, and the return value. *)
Definition set_non_blocking (flags rc : Z) : option Z * Z :=
  if flags =? -1 then (None, 0)
  else if rc =? -1 then (None, 0) else (Some (Z.lor flags O_NONBLOCK), 1).

Definition set_blocking (flags rc : Z) : option Z * Z :=
  if flags =? -1 then (None, 0)
  else if rc =? -1 then (None, 0) else (Some (Z.land flags (Z.lnot O_NONBLOCK)), 1).

(** ** Passing descriptors *)

Definition EMSGSIZE : Z := 90.
Definition SOL_SOCKET : Z := 1.
Definition SCM_RIGHTS : Z := 1.
(** [CMSG_LEN(sizeof(int))]. *)
Definition CMSG_LEN_INT : Z := 20.

(** A control message: [cmsg_len], [cmsg_level], [cmsg_type] and the integer
    in it. *)
Record cmsg := mkCmsg { cmsg_len : Z; cmsg_level : Z; cmsg_type : Z; cmsg_fd : Z }.

(** The control message of [send_fd]. *)
Definition rights (fd_to_send : Z) : cmsg := mkCmsg CMSG_LEN_INT SOL_SOCKET SCM_RIGHTS fd_to_send.

(** [n] is the answer of [sendmsg]; the return value and [*bytes_sent], if
    assigned. *)
Definition send_fd (n : Z) : Z * option Z :=
  if n =? EMSGSIZE then (EMSGSIZE, None) else if n =? -1 then (1, None) else (0, Some (u32 n)).

(** [recvmsg] answers [n], [msg_flags] and the control message.  The return
    value, [*recvfd] and [*bytes_recv]; [None] is undefined behaviour. *)
Definition recv_fd (n msg_flags : Z) (control : option cmsg) (recvfd bytes_recv : bool)
    : option (Z * option Z * option Z) :=
  let fd := if recvfd then Some (-1) else None in
  if negb (msg_flags =? 0) then Some (1, fd, None)
  else
    let cnt := if bytes_recv then Some (u32 n) else None in
    if n =? 0 then if bytes_recv then Some (0, fd, Some 0) else None
    else if n =? -1 then Some (1, fd, cnt)
    else
      match control with
      | Some c =>
          if negb (cmsg_len c =? CMSG_LEN_INT) then Some (0, fd, cnt)
          else if negb (cmsg_level c =? SOL_SOCKET) then Some (0, fd, cnt)
          else if negb (cmsg_type c =? SCM_RIGHTS) then Some (0, fd, cnt)
          else Some (0, if recvfd then Some (cmsg_fd c) else None, cnt)
      | None => Some (0, fd, cnt)
      end.

(** ** Descriptors *)

Abbreviation table := (gset Z).

(** POSIX: the lowest-numbered descriptor that is not open. *)
Fixpoint lowest_from (fuel : nat) (n : Z) (t : table) : Z :=
  match fuel with
  | O => n
  | S fuel => if decide (n ∈ t) then lowest_from fuel (n + 1) t else n
  end.

Definition lowest_free (t : table) : Z := lowest_from (size t) 0 t.

Definition close (fd : Z) (t : table) : table := t ∖ {[fd]}.

(** [socket]: -1, or a new descriptor. *)
Definition socket (ok : bool) (t : table) : Z * table :=
  if ok then let fd := lowest_free t in (fd, {[fd]} ∪ t) else (-1, t).

(** ** [connect_to_listening_socket] *)

Definition EAGAIN : Z := 11.
Definition ETIMEDOUT : Z := 110.

(** The answers for one address: [socket], [set_send_timeout], and 0 or the
    [errno] of [connect]. *)
Record attempt := mkAttempt { a_socket : bool; a_timeout : bool; a_connect : Z }.

(** The loop over the addresses: [sock], [close_socket], the table. *)
Fixpoint connect_loop (addresses : list attempt) (sock : Z) (t : table) : Z * bool * table :=
  match addresses with
  | [] => (sock, true, t)
  | a :: addresses =>
      let t := if sock =? -1 then close sock t else t in
      let '(sock, t) := socket (a_socket a) t in
      if sock =? -1 then connect_loop addresses sock t
      else if negb (a_timeout a) then connect_loop addresses sock t
      else if a_connect a =? 0 then (sock, false, t)
      else if (a_connect a =? EAGAIN) || (a_connect a =? ETIMEDOUT) then (sock, true, t)
      else connect_loop addresses sock t
  end.

(** [stream] tells a SOCK_STREAM; [addresses] is [None] when [getaddrinfo]
    fails. *)
Definition connect_to_listening_socket (stream : bool) (addresses : option (list attempt)) (t : table) : Z * table :=
  if negb stream then (-1, t)
  else
    match addresses with
    | None => (-1, t)
    | Some addresses =>
        let '(sock, close_socket, t) := connect_loop addresses (-1) t in
        if (close_socket : bool) then (-1, close sock t) else (sock, t)
    end.

(** ** Addresses *)

Definition PF_INET : Z := 2.
Definition PF_INET6 : Z := 10.
Definition AF_INET : Z := PF_INET.
Definition AF_INET6 : Z := PF_INET6.

(** An entry of [getifaddrs]: the name, whether it is up, and the address with
    its family, if any. *)
Record ifaddr := mkIf { ifa_name : list Z; ifa_up : bool; ifa_addr : option (Z * list Z) }.

Section Addresses.
(** [inet_ntop] and [inet_pton]: text for an address; 1 with the address, 0 or
    -1. *)
Context (inet_ntop : Z → list Z → option (list Z)) (inet_pton : Z → list Z → Z * list Z).

(** The loop: the text to be duplicated. *)
Fixpoint find_interface (inet_family : Z) (ifname : list Z) (addrs : list ifaddr) : option (list Z) :=
  match addrs with
  | [] => None
  | ifa :: addrs =>
      match ifa_addr ifa with
      | None => find_interface inet_family ifname addrs
      | Some (family, addr) =>
          if negb (ifa_up ifa) then find_interface inet_family ifname addrs
          else if negb (bool_decide (ifname = ifa_name ifa)) then find_interface inet_family ifname addrs
          else if family =? inet_family then inet_ntop family addr
          else find_interface inet_family ifname addrs
      end
  end.

(** [addrs] is [None] when [getifaddrs] fails. *)
Definition get_ip_from_ifname (strdup_ok : bool) (inet_family : Z) (ifname : list Z) (addrs : option (list ifaddr))
    : option (list Z) :=
  match addrs with
  | None => None
  | Some addrs =>
      if (inet_family =? AF_INET) || (inet_family =? AF_INET6) then
        match find_interface inet_family ifname addrs with
        | Some (c :: s) => if strdup_ok then if c =? 0 then None else Some (c :: s) else None
        | _ => None
        end
      else None
  end.

(** The address of an interface in the family: what [inet_pton] answers in the
    end, [None] when no address is found for a name. *)
Definition interface_address (strdup_ok : bool) (family : Z) (interface : list Z) (addrs : option (list ifaddr))
    : option (Z * list Z) :=
  if bool_decide (interface = bytes_of_string "localhost") then
    Some (if family =? PF_INET then inet_pton AF_INET (bytes_of_string "127.0.0.1")
          else inet_pton AF_INET6 (bytes_of_string "::1"))
  else
    let af := if family =? PF_INET then AF_INET else AF_INET6 in
    let '(tmp, a) := inet_pton af interface in
    if tmp =? 0 then
      match get_ip_from_ifname strdup_ok af interface addrs with
      | None => None
      | Some ip => Some (inet_pton af ip)
      end
    else Some (tmp, a).

(** ** [create_listening_socket] *)

Inductive sockopt : Set := SO_LINGER | TCP_NODELAY | SO_REUSEADDR | SO_KEEPALIVE.

(** [setsockopt]: 0 is success. *)
Definition set_socket_options (setsockopt : sockopt → Z) : Z :=
  if negb (setsockopt SO_LINGER =? 0) then 0
  else if negb (setsockopt TCP_NODELAY =? 0) then 0
  else if negb (setsockopt SO_REUSEADDR =? 0) then 0
  else 1.

Definition set_socket_options_low_volume (setsockopt : sockopt → Z) : Z :=
  if set_socket_options setsockopt =? 0 then 0
  else if negb (setsockopt SO_KEEPALIVE =? 0) then 0
  else 1.

(** A socket address: family, port as it is in memory, address. *)
Record sockaddr := mkSockaddr { sa_family : Z; sa_port : Z; sa_addr : list Z }.

(** [htons] on a little endian host. *)
Definition htons (port : Z) : Z := Z.lor (Z.shiftl (Z.land port 255) 8) (Z.shiftr port 8).

(** The number the bytes of a 16 bit integer in memory stand for on the
    network: the one at the lower address first. *)
Definition be_port (n : Z) : Z := 256 * (n mod 256) + n / 256.

(** The answers of the calls that follow [socket]; [bind_rc] is that of [bind]
    for an address. *)
Record answers := mkAnswers {
  socket_ok : bool; setsockopt : sockopt → Z; strdup_ok : bool; getifaddrs : option (list ifaddr);
  bind_rc : sockaddr → Z; listen_rc : Z }.

(** The return value, the address bound, and the table. *)
Definition create_listening_socket (a : answers) (interface : list Z) (port pf_family : Z) (stream keep_alive : bool)
    (t : table) : Z * option sockaddr * table :=
  if negb stream then (-1, None, t)
  else if negb ((pf_family =? PF_INET) || (pf_family =? PF_INET6)) then (-1, None, t)
  else
    let '(sock, t) := socket (socket_ok a) t in
    if sock =? -1 then (-1, None, t)
    else
      let err := (-1, None, close sock t) in
      let opts := if keep_alive then set_socket_options_low_volume (setsockopt a)
                  else set_socket_options (setsockopt a) in
      if opts =? 0 then err
      else
        match interface_address (strdup_ok a) pf_family interface (getifaddrs a) with
        | None => err
        | Some (tmp, addr) =>
            if negb (tmp =? 1) then err
            else
              let sa := mkSockaddr pf_family (htons port) addr in
              if negb (bind_rc a sa =? 0) then err
              else if negb (listen_rc a =? 0) then err
              else (sock, Some sa, t)
        end.
End Addresses.

(** ** Lemmas *)

(** What [send_all] hands the wire is a prefix of the data. *)
Lemma send_all_prefix kernel buf len :
  sends_ok kernel len → 0 ≤ len ≤ zlen buf →
  ∃ r wire rest, send_all kernel buf len = Some (r, wire)
    ∧ take (Z.to_nat len) buf = wire ++ rest
    ∧ (r = Some 1 → rest = []) ∧ (r = Some 0 → SendFailed ∈ kernel) ∧ (r = None ∨ r = Some 0 ∨ r = Some 1).
Proof.
  unfold send_all. intros Hk Hlen.
  enough (H : ∀ total bytesleft, sends_ok kernel (len - total) → 0 ≤ total ≤ len →
    ∃ r wire rest, send_all_loop kernel buf total bytesleft len = Some (r, wire)
      ∧ drop (Z.to_nat total) (take (Z.to_nat len) buf) = wire ++ rest
      ∧ (r = Some 1 → rest = []) ∧ (r = Some 0 → SendFailed ∈ kernel) ∧ (r = None ∨ r = Some 0 ∨ r = Some 1)).
  { destruct (H 0 len) as (r & w & rest & ?); [by rewrite Z.sub_0_r | lia |]. by exists r, w, rest. }
  clear Hk. induction kernel as [|x kernel IH]; intros total left_ Hk Ht; cbn [send_all_loop].
  - destruct (Z.ltb_spec total len).
    + eexists _, [], _. split_and!; [done | done | done | done | by left].
    + eexists _, [], []. split_and!; [done | | done | done | auto]. apply drop_ge. rewrite length_take. lia.
  - destruct (Z.ltb_spec total len).
    2: { eexists _, [], []. split_and!; [done | | done | done | auto]. apply drop_ge. rewrite length_take. lia. }
    destruct x as [n|].
    + destruct Hk as [Hn Hk]. unfold read_at. bsolve. obind.
      destruct (IH (total + n) (left_ - n)) as (r & w & rest & -> & Hw & H1 & H0 & Hr).
      { by replace (len - (total + n)) with (len - total - n) by lia. } { lia. }
      obind. eexists _, _, rest. split_and!; [done | | done | set_solver | done].
      rewrite <- app_assoc, <- Hw. rewrite Z2Nat.inj_add, <- drop_drop by lia.
      rewrite <- (take_drop (Z.to_nat n) (drop (Z.to_nat total) (take (Z.to_nat len) buf))) at 1. f_equal.
      rewrite skipn_firstn_comm, take_take. f_equal. lia.
    + eexists _, [], _. split_and!; [done | done | done | set_solver | auto].
Qed.

Lemma lowest_from_spec t : ∀ fuel n,
  lowest_from fuel n t ∉ t ∨ ∀ k, n ≤ k ≤ n + Z.of_nat fuel → k ∈ t.
Proof.
  induction fuel as [|fuel IH]; intros n; cbn [lowest_from].
  - destruct (decide (n ∈ t)) as [H|H]; [right | by left]. intros k Hk. by replace k with n by lia.
  - case_decide as H; [|by left]. destruct (IH (n + 1)) as [H'|H']; [by left | right].
    intros k Hk. destruct (decide (k = n)) as [->|]; [done|]. apply H'. lia.
Qed.

Lemma lowest_from_ge t : ∀ fuel n, n ≤ lowest_from fuel n t.
Proof.
  induction fuel as [|fuel IH]; intros n; cbn [lowest_from]; [lia|]. case_decide; [|lia].
  specialize (IH (n + 1)). lia.
Qed.

Lemma lowest_free_fresh t : lowest_free t ∉ t.
Proof.
  unfold lowest_free. destruct (lowest_from_spec t (size t) 0) as [H|H]; [done|]. exfalso.
  assert (Hsub : list_to_set (seqZ 0 (Z.of_nat (size t) + 1)) ⊆ t).
  { intros k Hk. apply elem_of_list_to_set, elem_of_seqZ in Hk. apply H. lia. }
  apply subseteq_size in Hsub. rewrite size_list_to_set in Hsub by apply NoDup_seqZ.
  rewrite length_seqZ in Hsub. lia.
Qed.

Lemma lowest_free_pos t : 0 ≤ lowest_free t.
Proof. apply lowest_from_ge. Qed.

Lemma close_fresh fd (t : table) : fd ∉ t → close fd ({[fd]} ∪ t) = t.
Proof. unfold close. intros. set_solver. Qed.

(** The sockets the loop creates. *)
Fixpoint created (addresses : list attempt) : nat :=
  match addresses with
  | [] => 0
  | a :: addresses =>
      if negb (a_socket a) then created addresses
      else if negb (a_timeout a) then S (created addresses)
      else if (a_connect a =? 0) || (a_connect a =? EAGAIN) || (a_connect a =? ETIMEDOUT) then 1
      else S (created addresses)
  end.

Lemma size_add fd (t : table) : fd ∉ t → size ({[fd]} ∪ t) = S (size t).
Proof. intros H. rewrite size_union by set_solver. by rewrite size_singleton. Qed.

(** [t0] is the table before the call. *)
Lemma connect_loop_table t0 addresses : ∀ sock t, t0 ⊆ t → -1 ∉ t → (sock = -1 ∨ sock ∈ t ∖ t0) →
  match connect_loop addresses sock t with
  | (r, c, t') => t ⊆ t' ∧ size t' = (size t + created addresses)%nat ∧ (r = -1 ∨ r ∈ t' ∖ t0) ∧ (c = false → r ∈ t' ∖ t0)
  end.
Proof.
  induction addresses as [|a addresses IH]; intros sock t H0 Hm Hs; cbn [connect_loop created].
  { rewrite Nat.add_0_r. by split_and!. }
  assert (Ht : (if sock =? -1 then close sock t else t) = t).
  { destruct (Z.eqb_spec sock (-1)) as [->|]; [|done]. unfold close. set_solver. }
  rewrite Ht. unfold socket. destruct (a_socket a); cbn [negb].
  2: { cbn. apply (IH (-1) t H0 Hm). by left. }
  pose proof (lowest_free_fresh t) as Hf. pose proof (lowest_free_pos t) as Hp.
  set (fd := lowest_free t) in *. clearbody fd. rewrite (proj2 (Z.eqb_neq fd (-1))) by lia.
  assert (Hm' : -1 ∉ {[fd]} ∪ t) by (rewrite not_elem_of_union, not_elem_of_singleton; split; [lia | done]).
  assert (Hnew : fd ∈ ({[fd]} ∪ t) ∖ t0) by set_solver.
  pose proof (IH fd ({[fd]} ∪ t) ltac:(set_solver) Hm' (or_intror Hnew)) as IH'.
  rewrite size_add, Nat.add_succ_comm in IH' by done.
  assert (Hgo : match connect_loop addresses fd ({[fd]} ∪ t) with
    | (r, c, t') => t ⊆ t' ∧ size t' = (size t + S (created addresses))%nat ∧ (r = -1 ∨ r ∈ t' ∖ t0)
                    ∧ (c = false → r ∈ t' ∖ t0) end).
  { destruct (connect_loop addresses fd ({[fd]} ∪ t)) as [[r c] t']. destruct IH' as (? & ? & ? & ?). split_and!; [set_solver | done..]. }
  assert (Hend : ∀ c : bool, t ⊆ {[fd]} ∪ t ∧ size ({[fd]} ∪ t) = (size t + 1)%nat ∧ (fd = -1 ∨ fd ∈ ({[fd]} ∪ t) ∖ t0)
                    ∧ (c = false → fd ∈ ({[fd]} ∪ t) ∖ t0)).
  { intros c. rewrite size_add by done. split_and!; [set_solver | lia | by right | done]. }
  destruct (a_timeout a); cbn [negb]; [|exact Hgo].
  destruct (a_connect a =? 0); cbn [orb]; [apply Hend|].
  destruct ((a_connect a =? EAGAIN) || (a_connect a =? ETIMEDOUT)); [apply Hend | exact Hgo].
Qed.

Lemma size_close fd (t : table) : (size t ≤ S (size (close fd t)))%nat.
Proof.
  assert (t ⊆ {[fd]} ∪ close fd t) as H.
  { intros x Hx. unfold close. destruct (decide (x = fd)); set_solver. }
  apply subseteq_size in H. rewrite size_union_alt in H. rewrite size_singleton in H.
  pose proof (subseteq_size (close fd t ∖ {[fd]}) (close fd t) ltac:(set_solver)). lia.
Qed.

Lemma htons_be port : 0 ≤ port < 2 ^ 16 → be_port (htons port) = port.
Proof.
  intros H. unfold htons, be_port. change 255 with (Z.ones 8). rewrite Z.land_ones, Z.shiftl_mul_pow2, Z.shiftr_div_pow2 by lia.
  rewrite (lor_mul (port mod 2 ^ 8) (port / 2 ^ 8) 8) by (try split; try apply Z.div_pos; try apply Z.div_lt_upper_bound; lia).
  change (2 ^ 8) with 256. pose proof (Z.mod_pos_bound port 256). pose proof (Z.div_mod port 256).
  assert (0 ≤ port / 256 < 256) by (split; [apply Z.div_pos | apply Z.div_lt_upper_bound]; lia).
  rewrite (Z.add_comm (_ * 256)), Z.mod_add, Z.mod_small, Z.div_add, (Z.div_small (port / 256)) by lia. lia.
Qed.

(** ** Properties *)

(** whatever parts [send] takes the data in, [send_all] hands the wire a
    prefix of it, without gaps or repetitions; when it answers 1 it is all of
    it, and it answers 0 only after a failed [send]. *)
Theorem send_all_complete kernel buf len :
  sends_ok kernel len → 0 ≤ len ≤ zlen buf →
  ∃ r wire rest, send_all kernel buf len = Some (r, wire)
    ∧ take (Z.to_nat len) buf = wire ++ rest
    ∧ (r = Some 1 → rest = []) ∧ (r = Some 0 → SendFailed ∈ kernel) ∧ (r = None ∨ r = Some 0 ∨ r = Some 1).
Proof. apply send_all_prefix. Qed.

(** [connect_to_listening_socket] keeps every socket but the last: when it
    returns a descriptor it is a new one, but all the sockets of the addresses
    tried before it are still open, and when it fails at most one of the sockets
    it created is closed.  (The test in front of [close] is the wrong way
    round.) *)
Theorem connect_leaks_sockets addresses t :
  -1 ∉ t →
  let '(r, t') := connect_to_listening_socket true (Some addresses) t in
  (t ⊆ t')
  ∧ (r ≠ -1 → r ∈ t' ∧ (r ∉ t) ∧ size t' = (size t + created addresses)%nat)
  ∧ (r = -1 → (size t + created addresses ≤ S (size t'))%nat).
Proof.
  intros Hm. unfold connect_to_listening_socket. cbn [negb].
  pose proof (connect_loop_table t addresses (-1) t (reflexivity t) Hm (or_introl eq_refl)) as H.
  destruct (connect_loop addresses (-1) t) as [[r c] t']. destruct H as (Hsub & Hsz & Hr & Hc).
  destruct c.
  - split; [|split; [done|]].
    + unfold close. set_solver.
    + intros _. pose proof (size_close r t'). lia.
  - specialize (Hc eq_refl). split; [done|]. split; [set_solver|]. intros ->. lia.
Qed.

(** [create_listening_socket] gives back either nothing, with every
    descriptor it opened closed again, or a new descriptor bound to the address
    of the interface and the port in network byte order; it does the latter
    exactly when every call succeeds and the interface has an address. *)
Theorem listening_socket_spec inet_ntop inet_pton a interface port pf keep_alive t :
  0 ≤ port < 2 ^ 16 → pf = PF_INET ∨ pf = PF_INET6 → -1 ∉ t →
  match create_listening_socket inet_ntop inet_pton a interface port pf true keep_alive t with
  | (sock, Some sa, t') =>
      (sock ∉ t) ∧ 0 ≤ sock ∧ t' = {[sock]} ∪ t
      ∧ sa_family sa = pf ∧ be_port (sa_port sa) = port
      ∧ interface_address inet_ntop inet_pton (strdup_ok a) pf interface (getifaddrs a) = Some (1, sa_addr sa)
      ∧ bind_rc a sa = 0 ∧ listen_rc a = 0
  | (sock, None, t') =>
      sock = -1 ∧ t' = t
      ∧ ¬ (socket_ok a = true
           ∧ set_socket_options (setsockopt a) = 1 ∧ (keep_alive = true → setsockopt a SO_KEEPALIVE = 0)
           ∧ ∃ addr, interface_address inet_ntop inet_pton (strdup_ok a) pf interface (getifaddrs a) = Some (1, addr)
                     ∧ bind_rc a (mkSockaddr pf (htons port) addr) = 0 ∧ listen_rc a = 0)
  end.
Proof.
  intros Hport Hpf Hm. unfold create_listening_socket, socket. cbn [negb].
  assert ((pf =? PF_INET) || (pf =? PF_INET6) = true) as -> by (destruct Hpf as [-> | ->]; done). cbn [negb].
  pose proof (lowest_free_fresh t) as Hf. pose proof (lowest_free_pos t) as Hp.
  destruct (socket_ok a); [|cbn; split_and!; [done | done | by intros []]].
  set (fd := lowest_free t) in *. clearbody fd. rewrite (proj2 (Z.eqb_neq fd (-1))) by lia.
  rewrite (close_fresh fd t Hf).
  destruct (Z.eqb_spec (if keep_alive then set_socket_options_low_volume (setsockopt a) else set_socket_options (setsockopt a)) 0)
    as [Ho|Ho].
  { split_and!; [done | done |]. intros (_ & Hs & Hk & _). destruct keep_alive; [|congruence].
    unfold set_socket_options_low_volume in Ho. by rewrite Hs, Hk in Ho. }
  destruct (interface_address inet_ntop inet_pton (strdup_ok a) pf interface (getifaddrs a)) as [[tmp addr]|];
    [|split_and!; [done | done |]; by intros (_ & _ & _ & ? & ? & _)].
  destruct (Z.eqb_spec tmp 1) as [->|Htmp]; cbn [negb].
  2: { split_and!; [done | done |]. intros (_ & _ & _ & addr' & ? & _). congruence. }
  destruct (Z.eqb_spec (bind_rc a (mkSockaddr pf (htons port) addr)) 0) as [Hb|Hb]; cbn [negb].
  2: { split_and!; [done | done |]. intros (_ & _ & _ & addr' & ? & ? & _). congruence. }
  destruct (Z.eqb_spec (listen_rc a) 0) as [Hl|Hl]; cbn [negb].
  2: { split_and!; [done | done |]. by intros (_ & _ & _ & addr' & ? & ? & ?). }
  split_and!; try done. cbn [sa_port]. by apply htons_be.
Qed.

(** a descriptor sent with [send_fd] is the one [recv_fd] delivers, and
    the blocking mode is changed without touching another flag; but the byte
    count is taken for an error code, so a message of 90 bytes that was sent is
    reported as too long and its length is not, and a receiver that does not ask
    for the byte count is undefined when the peer has closed. *)
Theorem passing_descriptors fd n flags i :
  0 < n → 0 ≤ i →
  recv_fd n 0 (Some (rights fd)) true true = Some (0, Some fd, Some (u32 n))
  ∧ (send_fd n = (0, Some (u32 n)) ↔ n ≠ EMSGSIZE) ∧ send_fd EMSGSIZE = (EMSGSIZE, None)
  ∧ recv_fd 0 0 None true false = None
  ∧ (flags ≠ -1 →
     ∃ f g, set_non_blocking flags 0 = (Some f, 1) ∧ set_blocking flags 0 = (Some g, 1)
       ∧ Z.testbit f i = Z.testbit flags i || (i =? 11) ∧ Z.testbit g i = Z.testbit flags i && negb (i =? 11)).
Proof.
  intros Hn Hi. split; [|split; [|split; [done | split; [done|]]]].
  - unfold recv_fd, rights. cbn [negb Z.eqb]. rewrite (proj2 (Z.eqb_neq n 0)), (proj2 (Z.eqb_neq n (-1))) by lia. done.
  - unfold send_fd. destruct (Z.eqb_spec n EMSGSIZE) as [->|]; [done|].
    rewrite (proj2 (Z.eqb_neq n (-1))) by lia. done.
  - intros Hf. unfold set_non_blocking, set_blocking. rewrite (proj2 (Z.eqb_neq flags (-1))) by done.
    eexists _, _. split; [done|]. split; [done|].
    rewrite Z.lor_spec, Z.land_spec, Z.lnot_spec by done. change O_NONBLOCK with (2 ^ 11).
    rewrite Z.pow2_bits_eqb by lia. by rewrite (Z.eqb_sym 11 i).
Qed.

(** ** Concrete runs *)

Lemma send_all_complete_witness :
  ∃ r wire rest, send_all [Sent 2; Sent 0; Sent 3] [1; 2; 3; 4; 5] 5 = Some (r, wire)
    ∧ take (Z.to_nat 5) [1; 2; 3; 4; 5] = wire ++ rest ∧ (r = Some 1 → rest = []).
Proof.
  destruct (send_all_complete [Sent 2; Sent 0; Sent 3] [1; 2; 3; 4; 5] 5) as (r & w & rest & H & Hw & H1 & _).
  - cbn. lia.
  - cbn. lia.
  - by exists r, w, rest.
Defined.

(** Two addresses refuse, the third accepts: descriptors 3 and 4 stay open. *)
Definition demo_addresses : list attempt := [mkAttempt true true 111; mkAttempt true false 0; mkAttempt true true 0].
Definition demo_table : table := {[0; 1; 2]}.

Lemma connect_leaks_sockets_witness :
  let '(r, t') := connect_to_listening_socket true (Some demo_addresses) demo_table in
  r = 5 ∧ size t' = 6%nat ∧ demo_table ⊆ t'.
Proof.
  assert (Hm : -1 ∉ demo_table) by (apply (bool_decide_unpack _); vm_compute; done).
  pose proof (connect_leaks_sockets demo_addresses demo_table Hm) as H.
  assert (E : (connect_to_listening_socket true (Some demo_addresses) demo_table).1 = 5) by (vm_compute; reflexivity).
  destruct (connect_to_listening_socket true (Some demo_addresses) demo_table) as [r t']. cbn in E. subst r.
  destruct H as (Hs & Hr & _). destruct (Hr ltac:(lia)) as (_ & _ & ->). repeat split; done.
Defined.

(** An environment in which everything works, and the text of an address is its
    first bytes. *)
Definition demo_pton (family : Z) (s : list Z) : Z * list Z := if bool_decide (s = bytes_of_string "eth0") then (0, []) else (1, s).
Definition demo_ntop (family : Z) (a : list Z) : option (list Z) := Some a.
Definition demo_answers : answers :=
  mkAnswers true (λ _, 0) true
    (Some [mkIf (bytes_of_string "eth0") false (Some (AF_INET, [9])); mkIf (bytes_of_string "eth0") true (Some (AF_INET, [10; 0; 0; 1]))])
    (λ _, 0) 0.

Lemma listening_socket_spec_witness :
  match create_listening_socket demo_ntop demo_pton demo_answers (bytes_of_string "eth0") 80 PF_INET true true demo_table with
  | (sock, Some sa, t') => (sock ∉ demo_table) ∧ t' = {[sock]} ∪ demo_table ∧ be_port (sa_port sa) = 80
  | (sock, None, t') => False
  end.
Proof.
  assert (Hm : -1 ∉ demo_table) by (apply (bool_decide_unpack _); vm_compute; done).
  pose proof (listening_socket_spec demo_ntop demo_pton demo_answers (bytes_of_string "eth0") 80 PF_INET true demo_table
                ltac:(lia) (or_introl eq_refl) Hm) as H.
  assert (E : (create_listening_socket demo_ntop demo_pton demo_answers (bytes_of_string "eth0") 80 PF_INET true true demo_table).1.2
              = Some (mkSockaddr 2 20480 [10; 0; 0; 1])) by (vm_compute; reflexivity).
  destruct (create_listening_socket _ _ _ _ _ _ _ _ _) as [[sock sa] t']. cbn in E. subst sa.
  destruct H as (? & ? & ? & ? & ? & _). by repeat split.
Defined.

Lemma passing_descriptors_witness :
  recv_fd 12 0 (Some (rights 7)) true true = Some (0, Some 7, Some (u32 12)).
Proof. apply (passing_descriptors 7 12 2 0); lia. Defined.
