(* ===== verification/Ipc.v ===== *)
(** * Commands between processes: [src/utillib/ipc/ipc.cpp], [ipc.h],
    [ipc_command.h]

    A command is a header of two 32 bit integers, the command and the length of
    the data, and data laid out by [Marshal].  The answers of [send] and
    [recvfrom] are lists; the static buffer of [vsend_cmd] is an argument and a
    result.  The outer [None] is undefined behaviour. *)
From S2P Require Import Prelude Primitives Marshal Sockets.
From S2P Require Popper.

Abbreviation recv_ret := Popper.recv_ret.

Definition IPC_DATALENGTH_OFFSET : Z := 4.
Definition IPC_RETURN_VALUE_OFFSET : Z := 2 * 4.
Definition IPC_HEADER_SIZE : Z := 2 * 4.
Definition IPC_RESULT_SIZE : Z := 3 * 4.
Definition IPC_BUFFER_SIZE : Z := 8 * 1024.

Definition CMD_ILLEGAL : Z := 0.
Definition CMD_UNDEF : Z := 0xDEADBEEF.
Definition CMD_RESULT : Z := 1.
Definition CMD_MESSAGE : Z := 2.
Definition CMD_PING : Z := 3.

Definition RES_ILLEGAL : Z := 0.
Definition RES_UNDEF : Z := 0xDEADBEEF.
Definition RES_OK : Z := 1.
Definition RES_FAILURE : Z := 2.

Definition CMD_RESULT_FORMAT : list Z := bytes_of_string "%ul" ++ [0].
Definition CMD_MESSAGE_FORMAT : list Z := bytes_of_string "%s" ++ [0].
Definition CMD_PING_FORMAT : list Z := [0].

Definition command_is_oneway (cmd : Z) : bool :=
  (cmd =? CMD_UNDEF) || (cmd =? CMD_RESULT) || (cmd =? CMD_MESSAGE).

(** ** The header *)

Definition ipcdata_get_cmd (ipcdata : list Z) : option Z := getu32 ipcdata 0.
Definition ipcdata_get_datalen (ipcdata : list Z) : option Z := getu32 ipcdata IPC_DATALENGTH_OFFSET.
Definition ipcdata_get_return_code (ipcdata : list Z) : option Z := getu32 ipcdata IPC_RETURN_VALUE_OFFSET.

(** The memory from the data on. *)
Definition ipcdata_get_data (ipcdata : list Z) : list Z := drop (Z.to_nat IPC_HEADER_SIZE) ipcdata.

Definition ipcdata_set_header (cmd datalen : Z) (ipcdata : list Z) : option (list Z) :=
  b ← setu32 ipcdata 0 (u32 cmd);
  setu32 b IPC_DATALENGTH_OFFSET datalen.

(** ** Receiving *)

(** What [recv_cmd] comes to: it waits for an answer, it returned false, it
    returned true with the number of bytes received. *)
Inductive received :=
  | RWaits (buf : list Z)
  | RFails (buf : list Z)
  | RDone (buf : list Z) (count : Z).

(** The first loop: until the header is there.  [timeout_ok] is the answer to the
    second [set_recv_timeout]. *)
Fixpoint recv_header (timeout_ok : bool) (kernel : list recv_ret) (buf : list Z) (acc : Z)
    : option (received * list recv_ret) :=
  match kernel with
  | [] => Some (RWaits buf, [])
  | Popper.RecvErr _ :: kernel | Popper.RecvClosed :: kernel => Some (RFails buf, kernel)
  | Popper.RecvData d :: kernel =>
      buf ← write_at buf acc d;
      if (acc =? 0) && negb timeout_ok then Some (RFails buf, kernel)
      else
        let acc := acc + zlen d in
        if IPC_HEADER_SIZE <=? acc then Some (RDone buf acc, kernel) else recv_header timeout_ok kernel buf acc
  end.

(** The second loop: until the packet is there. *)
Fixpoint recv_rest (kernel : list recv_ret) (buf : list Z) (acc packet_size : Z) : option received :=
  if acc <? packet_size then
    match kernel with
    | [] => Some (RWaits buf)
    | Popper.RecvErr _ :: _ | Popper.RecvClosed :: _ => Some (RFails buf)
    | Popper.RecvData d :: kernel => buf ← write_at buf acc d; recv_rest kernel buf (acc + zlen d) packet_size
    end
  else Some (RDone buf acc).

(** [buf] is [None] for a null pointer; its length is [buf_len].  [timeouts] are
    the answers to the two [set_recv_timeout]. *)
Definition recv_cmd (timeouts : bool * bool) (kernel : list recv_ret) (buf : option (list Z)) : option received :=
  match buf with
  | None => Some (RFails [])
  | Some buf =>
      if zlen buf =? 0 then Some (RFails buf)
      else if negb timeouts.1 then Some (RFails buf)
      else
        '(r, kernel) ← recv_header timeouts.2 kernel buf 0;
        match r with
        | RDone buf acc =>
            rem ← ipcdata_get_datalen buf;
            let packet_size := rem + IPC_HEADER_SIZE in
            if zlen buf <? packet_size then Some (RFails buf) else recv_rest kernel buf acc packet_size
        | _ => Some r
        end
  end.

(** [recv_result]: the return code with what [recv_cmd] received; [None] in the
    second place when it returned false or waits. *)
Definition recv_result (timeouts : bool * bool) (kernel : list recv_ret) (issuing_cmd : Z) (buf : option (list Z))
    : option (received * option Z) :=
  match buf with
  | None => Some (RFails [], None)
  | Some b =>
      if zlen b =? 0 then Some (RFails b, None)
      else if command_is_oneway issuing_cmd then Some (RFails b, None)
      else
        r ← recv_cmd timeouts kernel buf;
        match r with
        | RDone b count =>
            cmd ← ipcdata_get_cmd b;
            if cmd =? CMD_RESULT then
              return_code ← ipcdata_get_return_code b;
              (* the length is read for a debug message *)
              _ ← ipcdata_get_datalen b;
              Some (RDone b count, Some return_code)
            else Some (RFails b, None)
        | _ => Some (r, None)
        end
  end.

(** ** Sending *)

(** What [vsend_cmd] leaves behind: the return value ([None] while it waits),
    what went over the wire, the static buffer. *)
Abbreviation sent := (option Z * list Z * list Z)%type.

(** The data behind the header, when there is any. *)
Definition marshal_data (len : Z) (buf : list Z) (format : option (list Z)) (ap : list arg)
    : option (bool * Z * list Z) :=
  if len =? 0 then Some (true, len, buf)
  else
    f ← format;
    '(ok, len, data) ← vmarshal (ipcdata_get_data buf) len f ap;
    Some (ok, len, take (Z.to_nat IPC_HEADER_SIZE) buf ++ data).

Definition vsend_cmd (kernel : list send_ret) (buf : list Z) (cmd : Z) (format : option (list Z)) (ap : list arg)
    : option sent :=
  if cmd =? 0 then Some (Some 0, [], buf)
  else
    len ← vmarshal_size format ap;
    if IPC_BUFFER_SIZE - IPC_HEADER_SIZE <? len then Some (Some 0, [], buf)
    else
      buf ← ipcdata_set_header cmd len buf;
      '(ok, len, buf) ← marshal_data len buf format ap;
      if negb (ok : bool) then Some (Some 0, [], buf)
      else
        let len := u32 (len + IPC_HEADER_SIZE) in
        '(r, wire) ← send_all kernel buf len;
        Some (match r with Some ok => Some (if ok =? 0 then 0 else len) | None => None end, wire, buf).

Definition send_cmd := vsend_cmd.

(** The second component is the return value. *)
Definition send_result (kernel : list send_ret) (buf : list Z) (res : Z) : option (sent * option bool) :=
  if res =? 0 then Some ((Some 0, [], buf), Some false)
  else
    s ← send_cmd kernel buf CMD_RESULT (Some CMD_RESULT_FORMAT) [AInt res];
    Some (s, match s.1.1 with Some cnt => Some (IPC_RESULT_SIZE =? cnt) | None => None end).

(** ** Lemmas: the receive buffer *)

(** The answers of [recvfrom]: at least one byte, and no more than there is room
    for. *)
Fixpoint recvs_ok (kernel : list recv_ret) (room : Z) : Prop :=
  match kernel with
  | Popper.RecvData d :: kernel => 0 < zlen d ≤ room ∧ recvs_ok kernel (room - zlen d)
  | _ => True
  end.

(** The buffer after [got] has been received into it. *)
Definition filled (got rbuf : list Z) : list Z := got ++ drop (length got) rbuf.

Lemma zlen_filled got rbuf : zlen got ≤ zlen rbuf → zlen (filled got rbuf) = zlen rbuf.
Proof. intros. unfold filled. rewrite length_app, length_drop. lia. Qed.

Lemma filled_write got d rbuf : zlen (got ++ d) ≤ zlen rbuf →
  write_at (filled got rbuf) (zlen got) d = Some (filled (got ++ d) rbuf).
Proof.
  intros H. unfold filled. rewrite length_app in *.
  rewrite <- (take_drop (length d) (drop (length got) rbuf)) at 1.
  rewrite write_at_mid; [|done | rewrite length_take, length_drop; lia].
  by rewrite drop_drop, <- app_assoc.
Qed.

(** The data received by the answers. *)
Definition data_of (kernel : list recv_ret) : list Z :=
  concat ((λ r, match r with Popper.RecvData d => d | _ => [] end) <$> kernel).

(** Every answer brings data. *)
Definition delivers (kernel : list recv_ret) : Prop := Forall (λ r, ∃ d, r = Popper.RecvData d) kernel.

(** How a loop ends that wants [goal] bytes and can get [all] of them: with [got],
    a beginning of them, it waits with everything received and not enough, it
    failed although not [ok], or it is done with enough. *)
Definition comes_to (ok : Prop) (goal : Z) (all rbuf : list Z) (r : received) (got : list Z) : Prop :=
  zlen got ≤ zlen rbuf ∧ got `prefix_of` all
  ∧ match r with
    | RWaits b => b = filled got rbuf ∧ got = all ∧ zlen got < goal
    | RFails b => b = filled got rbuf ∧ ¬ ok
    | RDone b count => b = filled got rbuf ∧ count = zlen got ∧ goal ≤ count
    end.

Lemma delivers_data d kernel : delivers (Popper.RecvData d :: kernel) → delivers kernel.
Proof. by intros [_ H]%Forall_cons. Qed.

Lemma not_delivers a kernel : (∀ d, a ≠ Popper.RecvData d) → ¬ delivers (a :: kernel).
Proof. intros H [[d ->] _]%Forall_cons. by apply (H d). Qed.

Lemma recv_rest_spec rbuf packet_size : ∀ kernel got,
  recvs_ok kernel (zlen rbuf - zlen got) → zlen got ≤ zlen rbuf →
  ∃ r x, recv_rest kernel (filled got rbuf) (zlen got) packet_size = Some r
    ∧ comes_to (delivers kernel) packet_size (got ++ data_of kernel) rbuf r (got ++ x)
    ∧ (zlen (got ++ data_of kernel) = packet_size → delivers kernel → x = data_of kernel).
Proof.
  induction kernel as [|a kernel IH]; intros got Hk Hg; cbn [recv_rest];
    destruct (Z.ltb_spec (zlen got) packet_size) as [Hp|Hp].
  - eexists _, []. split; [done|]. change (data_of []) with (@nil Z). rewrite !app_nil_r. by split_and!.
  - eexists _, []. split; [done|]. change (data_of []) with (@nil Z). rewrite !app_nil_r. by split_and!.
  - destruct a as [d| |e];
      [|eexists _, []; split; [done|]; rewrite app_nil_r;
        (split; [split; [done|]; split; [by apply prefix_app_r|]; split; [done|] | intros _ Hd; exfalso; revert Hd];
         by apply not_delivers) ..].
    destruct Hk as [Hd Hk]. rewrite filled_write by llia. obind.
    replace (zlen got + zlen d) with (zlen (got ++ d)) by llia.
    destruct (IH (got ++ d)) as (r & x & E & Hr & Hx); [|llia|].
    { by replace (zlen rbuf - zlen (got ++ d)) with (zlen rbuf - zlen got - zlen d) by llia. }
    exists r, (d ++ x). split; [done|].
    change (data_of (Popper.RecvData d :: kernel)) with (d ++ data_of kernel). rewrite !app_assoc.
    split; [|intros H Hd'; f_equal; apply Hx; [done | by eapply delivers_data]].
    destruct Hr as (? & ? & Hr). split; [done|]. split; [done|]. destruct r; [done | | done]. destruct Hr as [? Hr].
    split; [done|]. by intros ?%delivers_data.
  - eexists _, []. split; [done|]. rewrite app_nil_r. split; [by split_and!; [|apply prefix_app_r|..]|]. intros Ht Hd.
    apply Forall_cons in Hd as [[d ->] _]. destruct Hk as [Hk _].
    change (data_of (Popper.RecvData d :: kernel)) with (d ++ data_of kernel) in Ht. llia.
Qed.

(** The first loop, as the second; the answers that are left are still good. *)
Lemma recv_header_spec timeout_ok rbuf : ∀ kernel got,
  recvs_ok kernel (zlen rbuf - zlen got) → zlen got ≤ zlen rbuf → zlen got < IPC_HEADER_SIZE →
  ∃ r rest x, recv_header timeout_ok kernel (filled got rbuf) (zlen got) = Some (r, rest)
    ∧ comes_to (timeout_ok = true ∧ delivers kernel) IPC_HEADER_SIZE (got ++ data_of kernel) rbuf r (got ++ x)
    ∧ ((∃ b n, r = RDone b n) →
         recvs_ok rest (zlen rbuf - zlen (got ++ x)) ∧ (delivers kernel → delivers rest)
         ∧ got ++ data_of kernel = (got ++ x) ++ data_of rest).
Proof.
  induction kernel as [|a kernel IH]; intros got Hk Hg H8; cbn [recv_header].
  { eexists _, _, []. split; [done|]. change (data_of []) with (@nil Z). rewrite !app_nil_r.
    split; [by split_and!|]. by intros (? & ? & ?). }
  destruct a as [d| |e];
    [|eexists _, _, []; split; [done|]; rewrite app_nil_r; (split; [|by intros (? & ? & ?)]);
      (split; [done|]); (split; [by apply prefix_app_r|]); (split; [done|]); intros [_ Hd]; revert Hd; by apply not_delivers ..].
  destruct Hk as [Hd Hk]. rewrite filled_write by llia. obind.
  replace (zlen got + zlen d) with (zlen (got ++ d)) by llia.
  replace (zlen rbuf - zlen got - zlen d) with (zlen rbuf - zlen (got ++ d)) in Hk by llia.
  change (data_of (Popper.RecvData d :: kernel)) with (d ++ data_of kernel). rewrite (app_assoc got).
  destruct ((zlen got =? 0) && negb timeout_ok) eqn:Et.
  { bool_hyps. eexists _, _, d. split; [done|]. split; [|by intros (? & ? & ?)]. split; [llia|].
    split; [by apply prefix_app_r|]. split; [done|]. intros [-> _]. done. }
  destruct (Z.leb_spec IPC_HEADER_SIZE (zlen (got ++ d))).
  { eexists _, _, d. split; [done|]. split; [split; [llia|]; by split_and!; [apply prefix_app_r|..]|]. intros _.
    split; [done|]. split; [apply delivers_data | done]. }
  destruct (IH (got ++ d)) as (r & rest & x & E & Hr & Hx); [done | llia | done |].
  exists r, rest, (d ++ x). split; [done|]. rewrite (app_assoc got d x). split.
  - destruct Hr as (? & ? & Hr). split; [done|]. split; [done|]. destruct r; [done | | done]. destruct Hr as [? Hr].
    split; [done|]. intros [-> ?%delivers_data]. by apply Hr.
  - intros Hdone. destruct (Hx Hdone) as (? & H1 & ?). split; [done|]. split; [|done].
    intros ?%delivers_data. by apply H1.
Qed.

(** What a header looks like. *)
Definition header (cmd len : Z) : list Z := be_bytes 4 cmd ++ be_bytes 4 len.

Lemma header_cmd cmd len z : 0 ≤ cmd < 2 ^ 32 → ipcdata_get_cmd (header cmd len ++ z) = Some cmd.
Proof.
  intros. unfold ipcdata_get_cmd, header.
  rewrite (getu32_be _ _ (be_bytes 4 cmd)), be_value_be_bytes, Z.mod_small; [done | done | | apply bytes_be_bytes].
  rewrite <- app_assoc. by apply read_at_prefix.
Qed.

Lemma header_datalen cmd len z : 0 ≤ len < 2 ^ 32 → ipcdata_get_datalen (header cmd len ++ z) = Some len.
Proof.
  intros. unfold ipcdata_get_datalen, header.
  rewrite (getu32_be _ _ (be_bytes 4 len)), be_value_be_bytes, Z.mod_small; [done | done | | apply bytes_be_bytes].
  rewrite <- app_assoc. by apply read_at_mid.
Qed.

Lemma header_set cmd len buf : 0 ≤ cmd < 2 ^ 32 → IPC_HEADER_SIZE ≤ zlen buf →
  ipcdata_set_header cmd len buf = Some (header cmd len ++ ipcdata_get_data buf).
Proof.
  unfold IPC_HEADER_SIZE. intros Hc Hl. unfold ipcdata_set_header, u32. rewrite Z.mod_small by done.
  rewrite setu32_be. do 8 (destruct buf as [|? buf]; [cbn in Hl; lia|]).
  pose proof (write_at_head [z; z0; z1; z2] (z3 :: z4 :: z5 :: z6 :: buf) (be_bytes 4 cmd) eq_refl) as E.
  cbn [app] in E. rewrite E. obind. rewrite setu32_be.
  pose proof (write_at_mid (be_bytes 4 cmd) [z3; z4; z5; z6] buf (be_bytes 4 len) IPC_DATALENGTH_OFFSET eq_refl eq_refl) as E'.
  cbn [app] in E'. rewrite E'. unfold header. by rewrite <- app_assoc.
Qed.

Lemma length_header cmd len : length (header cmd len) = 8%nat.
Proof. done. Qed.

(** The length is a number of 32 bits and does not depend on what follows the
    header. *)
Lemma datalen_defined got : IPC_HEADER_SIZE ≤ zlen got →
  ∃ n, 0 ≤ n < 2 ^ 32 ∧ ∀ z, ipcdata_get_datalen (got ++ z) = Some n.
Proof.
  unfold IPC_HEADER_SIZE. intros Hl. do 8 (destruct got as [|? got]; [cbn in Hl; lia|]).
  eexists. split; [|intros y; unfold ipcdata_get_datalen, getu32;
    change ((z :: z0 :: z1 :: z2 :: z3 :: z4 :: z5 :: z6 :: got) ++ y) with ([z; z0; z1; z2] ++ [z3; z4; z5; z6] ++ got ++ y);
    rewrite read_at_mid by done; done].
  apply Z.mod_pos_bound. lia.
Qed.

Lemma filled_nil rbuf : filled [] rbuf = rbuf.
Proof. done. Qed.

(** The whole of [recv_cmd]. *)
Lemma recv_cmd_spec timeouts kernel rbuf : recvs_ok kernel (zlen rbuf) →
  ∃ r got, recv_cmd timeouts kernel (Some rbuf) = Some r ∧ zlen got ≤ zlen rbuf ∧ got `prefix_of` data_of kernel ∧
  match r with
  | RWaits b => b = filled got rbuf ∧ got = data_of kernel ∧ zlen got < Z.max IPC_HEADER_SIZE (zlen rbuf)
  | RFails b =>
      b = filled got rbuf
      ∧ (rbuf = [] ∨ timeouts ≠ (true, true) ∨ ¬ delivers kernel
         ∨ ∃ n, ipcdata_get_datalen b = Some n ∧ zlen rbuf < n + IPC_HEADER_SIZE)
  | RDone b count =>
      b = filled got rbuf ∧ count = zlen got
      ∧ ∃ n, ipcdata_get_datalen b = Some n ∧ 0 ≤ n ∧ n + IPC_HEADER_SIZE ≤ count
  end.
Proof.
  intros Hk. unfold recv_cmd.
  destruct (Z.eqb_spec (zlen rbuf) 0) as [E0|E0].
  { exists (RFails rbuf), []. split; [done|]. split; [cbn; lia|]. split; [apply prefix_nil|]. split; [done|]. left. by destruct rbuf. }
  destruct timeouts as [t1 t2]. destruct t1; cbn [negb fst snd].
  2: { exists (RFails rbuf), []. split; [done|]. split; [cbn; lia|]. split; [apply prefix_nil|]. split; [done|]. right. by left. }
  destruct (recv_header_spec t2 rbuf kernel []) as (r & rest & x & E & Hr & Hx);
    [by rewrite Z.sub_0_r | cbn; lia | done|].
  rewrite filled_nil in E. change (zlen (@nil Z)) with 0 in E. rewrite E. obind. cbn [app] in *.
  destruct Hr as (Hl & Hpre & Hr). destruct r as [b|b|b count].
  - destruct Hr as (-> & -> & H). eexists _, _. do 3 (split; [done|]). cbv beta iota. split_and!; [done..|]. unfold IPC_HEADER_SIZE in *; lia.
  - destruct Hr as (-> & Hno). eexists _, _. do 3 (split; [done|]). split; [done|]. right.
    destruct t2; [right; left; intros Hd; by apply Hno | by left].
  - destruct Hr as (-> & -> & H8). destruct (Hx ltac:(eauto)) as (Hrk & Hdel & Hall).
    destruct (datalen_defined x H8) as (n & Hn & Hd). change (ipcdata_get_datalen (filled x rbuf)) with (ipcdata_get_datalen (x ++ drop (length x) rbuf)).
    rewrite Hd. obind.
    rewrite zlen_filled by done. destruct (Z.ltb_spec (zlen rbuf) (n + IPC_HEADER_SIZE)).
    { eexists _, _. do 3 (split; [done|]). split; [done|]. do 3 right. exists n. by split; [apply Hd|]. }
    destruct (recv_rest_spec rbuf (n + IPC_HEADER_SIZE) rest x Hrk Hl) as (r & y & -> & (Hl' & Hpre' & Hr') & _).
    exists r, (x ++ y). split; [done|]. split; [done|]. split; [by rewrite Hall|]. destruct r as [b|b|b count].
    + destruct Hr' as (-> & -> & ?). cbv beta iota. split_and!; [done | done |]. unfold IPC_HEADER_SIZE in *; lia.
    + destruct Hr' as (-> & Hno). split; [done|]. right. right. left. intros Hd'. by apply Hno, Hdel.
    + destruct Hr' as (-> & -> & ?). cbv beta iota. split_and!; [done..|]. exists n. unfold filled. rewrite <- app_assoc.
      split_and!; [apply Hd | unfold IPC_HEADER_SIZE in *; lia | done].
Qed.

(** A packet that arrives in pieces, and nothing after it. *)
Lemma recv_cmd_packet kernel rbuf cmd data :
  recvs_ok kernel (zlen rbuf) → delivers kernel → zlen data < 2 ^ 32 →
  data_of kernel = header cmd (zlen data) ++ data →
  recv_cmd (true, true) kernel (Some rbuf)
  = Some (RDone (filled (data_of kernel) rbuf) (zlen data + IPC_HEADER_SIZE)).
Proof.
  intros Hk Hd Hlen Hall. unfold recv_cmd. cbn [negb fst snd].
  assert (Hroom : ∀ k room, recvs_ok k room → delivers k → zlen (data_of k) ≤ room ∨ k = []).
  { induction k as [|a k IH]; [by right|]. intros room Hk' Hd'. left.
    apply Forall_cons in Hd' as [[d ->] Hd']. destruct Hk' as [? Hk'].
    change (data_of (Popper.RecvData d :: k)) with (d ++ data_of k).
    destruct (IH _ Hk' Hd') as [| ->]; [llia|]. change (data_of []) with (@nil Z). llia. }
  assert (Hwl : zlen (data_of kernel) = zlen data + IPC_HEADER_SIZE)
    by (rewrite Hall, length_app, length_header; unfold IPC_HEADER_SIZE; lia).
  assert (Hfit : zlen data + IPC_HEADER_SIZE ≤ zlen rbuf).
  { rewrite <- Hwl. destruct (Hroom _ _ Hk Hd) as [| ->]; [done|]. by destruct data. }
  unfold IPC_HEADER_SIZE in *.
  destruct (Z.eqb_spec (zlen rbuf) 0) as [E0|E0]; [lia|].
  destruct (recv_header_spec true rbuf kernel []) as (r & rest & x & E & Hr & Hx);
    [by rewrite Z.sub_0_r | cbn; lia | done|].
  rewrite filled_nil in E. change (zlen (@nil Z)) with 0 in E. rewrite E. obind. cbn [app] in *.
  unfold IPC_HEADER_SIZE in *.
  destruct Hr as (Hl & _ & Hr). destruct r as [b|b|b count]; [| by destruct Hr as [_ []] |].
  - destruct Hr as (_ & -> & H8). lia.
  - destruct Hr as (-> & -> & H8). destruct (Hx ltac:(eauto)) as (Hrk & Hrd & Heq).
    assert (∃ y, x = header cmd (zlen data) ++ y) as [y Hy].
    { exists (drop 8 x). rewrite <- (take_drop 8 x) at 1. f_equal.
      transitivity (take 8 (data_of kernel)); [rewrite Heq, take_app_le by lia; done|].
      rewrite Hall. by rewrite take_app_length'. }
    assert (ipcdata_get_datalen (filled x rbuf) = Some (zlen data)) as ->
      by (unfold filled; rewrite Hy, <- app_assoc; apply header_datalen; lia). obind.
    rewrite zlen_filled by done. bsolve.
    destruct (recv_rest_spec rbuf (zlen data + 2 * 4) rest x Hrk Hl) as (r & z & -> & (Hl' & _ & Hr') & Hz).
    specialize (Hrd Hd). rewrite (Hz ltac:(rewrite <- Heq; lia) Hrd) in *. rewrite <- Heq in *.
    destruct r as [b|b|b count]; [lia | tauto |]. by destruct Hr' as (-> & -> & _); rewrite Hwl.
Qed.

(** ** Lemmas: the sender *)

(** What has been laid in a buffer is still there in any buffer that begins as it
    does. *)
Lemma laid_prefix a z n l : Forall marshals l → ∀ off,
  0 ≤ off → off + total l ≤ n → n ≤ zlen a → laid a off l → laid (take (Z.to_nat n) a ++ z) off l.
Proof.
  induction 1 as [|i l Hi Hl IH]; intros off Ho Hn Ha; [done|]. cbn [laid total] in *. intros [Hr Hlaid].
  pose proof (item_inc_pos i Hi) as [? ?]. pose proof (total_nonneg l Hl).
  split; [|apply IH; done || lia].
  destruct (read_at_split _ _ _ _ Hr) as (x & y & -> & -> & _). set (d := item_bytes i) in *. clearbody d.
  rewrite app_assoc. rewrite take_app_ge by (rewrite length_app; lia). rewrite <- !app_assoc.
  by apply read_at_mid.
Qed.

Lemma zlen_data buf : zlen buf = IPC_BUFFER_SIZE → zlen (ipcdata_get_data buf) = IPC_BUFFER_SIZE - IPC_HEADER_SIZE.
Proof. unfold ipcdata_get_data, IPC_HEADER_SIZE, IPC_BUFFER_SIZE. rewrite length_drop. lia. Qed.

Lemma marshal_data_spec l cmd data : Forall marshals l → total l ≤ zlen data < 2 ^ 32 →
  ∃ data', marshal_data (total l) (header cmd (total l) ++ data) (Some (render l)) (i_arg <$> l)
           = Some (true, total l, header cmd (total l) ++ data')
    ∧ zlen data' = zlen data ∧ laid data' 0 l.
Proof.
  intros Hl Ht. pose proof (total_nonneg l Hl). unfold marshal_data. destruct (Z.eqb_spec (total l) 0) as [E|E].
  - destruct l as [|i l]; [by exists data|]. apply Forall_cons in Hl as [Hi Hl].
    pose proof (item_inc_pos i Hi). pose proof (total_nonneg l Hl). cbn [total] in *. lia.
  - obind. unfold vmarshal. bsolve.
    change (ipcdata_get_data (header cmd (total l) ++ data)) with data.
    destruct (marshal_loop_total (total l) l Hl true 0 data) as (c & data' & Hm & Hz & _ & _ & Hdone); [lia.. |].
    rewrite Hm. obind. destruct Hdone as [-> ?]; [lia|]. rewrite Z.add_0_l. bsolve.
    exists data'. by split_and!.
Qed.

(** What [vsend_cmd] does once the data is laid out. *)
Lemma vsend_cmd_wire kernel buf cmd format ap n data' :
  vmarshal_size format ap = Some n → 0 ≤ n ≤ IPC_BUFFER_SIZE - IPC_HEADER_SIZE → 0 < cmd < 2 ^ 32 →
  zlen buf = IPC_BUFFER_SIZE → sends_ok kernel (n + IPC_HEADER_SIZE) →
  marshal_data n (header cmd n ++ ipcdata_get_data buf) format ap = Some (true, n, header cmd n ++ data') →
  zlen data' = IPC_BUFFER_SIZE - IPC_HEADER_SIZE →
  ∃ r wire rest,
    vsend_cmd kernel buf cmd format ap = Some (r, wire, header cmd n ++ data')
    ∧ header cmd n ++ take (Z.to_nat n) data' = wire ++ rest
    ∧ (r = Some (n + IPC_HEADER_SIZE) ∧ rest = [] ∨ r = Some 0 ∧ SendFailed ∈ kernel ∨ r = None).
Proof.
  intros Hn Hr Hc Hb Hk Hm Hz. unfold vsend_cmd. bsolve. rewrite Hn. obind. bsolve.
  rewrite header_set by (unfold IPC_BUFFER_SIZE, IPC_HEADER_SIZE in *; lia). obind. rewrite Hm. obind. cbn [negb].
  unfold u32. rewrite Z.mod_small by (unfold IPC_BUFFER_SIZE, IPC_HEADER_SIZE in *; lia).
  destruct (send_all_prefix kernel (header cmd n ++ data') (n + IPC_HEADER_SIZE) Hk)
    as (r & wire & rest & -> & Hw & H1 & H0 & Hret).
  { rewrite length_app, length_header. unfold IPC_BUFFER_SIZE, IPC_HEADER_SIZE in *. lia. }
  obind. eexists _, wire, rest. split; [done|]. split.
  - rewrite <- Hw, take_app_ge by (rewrite length_header; unfold IPC_HEADER_SIZE; lia).
    rewrite length_header. do 2 f_equal. unfold IPC_HEADER_SIZE. lia.
  - destruct Hret as [-> | [-> | ->]]; [by right; right | right; left | left]; cbn; auto.
Qed.

(** The same for a well typed command that fits. *)
Lemma vsend_cmd_spec kernel buf cmd l :
  Forall item_ok l → total l ≤ IPC_BUFFER_SIZE - IPC_HEADER_SIZE → 0 < cmd < 2 ^ 32 → zlen buf = IPC_BUFFER_SIZE →
  sends_ok kernel (total l + IPC_HEADER_SIZE) →
  ∃ r wire rest data',
    vsend_cmd kernel buf cmd (Some (render l)) (i_arg <$> l) = Some (r, wire, header cmd (total l) ++ data')
    ∧ zlen data' = IPC_BUFFER_SIZE - IPC_HEADER_SIZE ∧ laid data' 0 l
    ∧ header cmd (total l) ++ take (Z.to_nat (total l)) data' = wire ++ rest
    ∧ (r = Some (total l + IPC_HEADER_SIZE) ∧ rest = [] ∨ r = Some 0 ∧ SendFailed ∈ kernel ∨ r = None).
Proof.
  intros Hl%all_ok_marshal Ht Hc Hb Hk. pose proof (total_nonneg l Hl). pose proof (zlen_data buf Hb) as Hzd.
  destruct (marshal_data_spec l cmd (ipcdata_get_data buf) Hl) as (data' & Hm & Hz & Hlaid);
    [unfold IPC_BUFFER_SIZE, IPC_HEADER_SIZE in *; lia|].
  destruct (vsend_cmd_wire kernel buf cmd (Some (render l)) (i_arg <$> l) (total l) data') as (r & wire & rest & E & Hw & Hr);
    try done; try lia;
    [apply vmarshal_size_total; [done | unfold IPC_BUFFER_SIZE, IPC_HEADER_SIZE in *; lia] |].
  exists r, wire, rest, data'. split_and!; try done. lia.
Qed.

(** ** Properties *)

(** C22: a command goes through: [vsend_cmd] of well typed arguments that fit
    returns the size of the packet and, however [send] splits it, puts exactly
    one packet on the wire (it returns 0 only after a failed [send]); and however
    the wire splits that packet, [recv_cmd] into a buffer with room for it
    returns its size, the command and the length, and [vunmarshal] assigns the
    arguments their values. *)
Theorem command_roundtrip kernel buf cmd l :
  Forall item_ok l → total l ≤ IPC_BUFFER_SIZE - IPC_HEADER_SIZE → 0 < cmd < 2 ^ 32 → zlen buf = IPC_BUFFER_SIZE →
  sends_ok kernel (total l + IPC_HEADER_SIZE) →
  ∃ r wire buf', vsend_cmd kernel buf cmd (Some (render l)) (i_arg <$> l) = Some (r, wire, buf')
    ∧ (r = Some 0 → SendFailed ∈ kernel)
    ∧ (∀ n, r = Some n → n ≠ 0 →
         n = total l + IPC_HEADER_SIZE
         ∧ ∀ answers rbuf, delivers answers → data_of answers = wire → recvs_ok answers (zlen rbuf) →
             ∃ rbuf', recv_cmd (true, true) answers (Some rbuf) = Some (RDone rbuf' n)
               ∧ ipcdata_get_cmd rbuf' = Some cmd ∧ ipcdata_get_datalen rbuf' = Some (total l)
               ∧ vunmarshal (λ _, true) (ipcdata_get_data rbuf') (total l) (render l) = Some (zlen l, item_out <$> l)).
Proof.
  intros Hl Ht Hc Hb Hk. pose proof (all_ok_marshal l Hl) as Hm. pose proof (total_nonneg l Hm).
  destruct (vsend_cmd_spec kernel buf cmd l Hl Ht Hc Hb Hk) as (r & wire & rest & data' & -> & Hz & Hlaid & Hw & Hr).
  eexists r, wire, _. split; [done|]. split.
  { intros ->. destruct Hr as [[[= E] _]|[[_ ?]|?]]; [unfold IPC_HEADER_SIZE in *; lia | done | done]. }
  intros n -> Hn. destruct Hr as [[[= ->] ->]|[[[= ->] _]|?]]; [|done|done].
  split; [done|]. rewrite app_nil_r in Hw. subst wire. intros answers rbuf Hd Hall Hok.
  set (data := take (Z.to_nat (total l)) data') in *.
  assert (Hdl : zlen data = total l) by (unfold data; rewrite length_take; lia). rewrite <- Hdl in Hall at 1.
  rewrite (recv_cmd_packet answers rbuf cmd data Hok Hd) by (done || (unfold IPC_BUFFER_SIZE, IPC_HEADER_SIZE in *; lia)).
  rewrite Hdl. eexists. split; [done|]. rewrite Hall. unfold filled. rewrite <- app_assoc, Hdl.
  rewrite header_cmd, header_datalen by (unfold IPC_BUFFER_SIZE, IPC_HEADER_SIZE in *; lia).
  split; [done|]. split; [done|].
  apply vunmarshal_total; [done|]. by apply laid_prefix; try lia.
Qed.

(** C30: [recv_cmd] stays inside its buffer: whatever arrives, in whatever
    pieces, it is defined and keeps the length of the buffer; what is in front is
    a beginning of the data that arrived, and the rest is untouched.  When it
    returns true the whole packet is there, and the count is the number of bytes
    in front.  It fails only when there is no room at all, a timeout cannot be
    set, the connection ends or the announced packet is larger than the buffer,
    and it waits only as long as everything that arrived was put into the buffer
    and did not fill it, so it ends. *)
Theorem recv_cmd_safe timeouts kernel rbuf : recvs_ok kernel (zlen rbuf) →
  ∃ r got, recv_cmd timeouts kernel (Some rbuf) = Some r ∧ zlen got ≤ zlen rbuf ∧ got `prefix_of` data_of kernel ∧
  match r with
  | RWaits b => b = filled got rbuf ∧ got = data_of kernel ∧ zlen got < Z.max IPC_HEADER_SIZE (zlen rbuf)
  | RFails b =>
      b = filled got rbuf
      ∧ (rbuf = [] ∨ timeouts ≠ (true, true) ∨ ¬ delivers kernel
         ∨ ∃ n, ipcdata_get_datalen b = Some n ∧ zlen rbuf < n + IPC_HEADER_SIZE)
  | RDone b count =>
      b = filled got rbuf ∧ count = zlen got
      ∧ ∃ n, ipcdata_get_datalen b = Some n ∧ 0 ≤ n ∧ n + IPC_HEADER_SIZE ≤ count
  end.
Proof. apply recv_cmd_spec. Qed.

(** What [recvfrom] with MSG_WAITALL answers for [room] bytes when [stream] is all
    the peer has sent and the connection stays open: nothing before it can fill
    the room. *)
Definition waitall (room : Z) (stream : list Z) : list recv_ret :=
  if room <=? zlen stream then [Popper.RecvData (take (Z.to_nat room) stream)] else [].

(** [recv_cmd] asks for a full buffer, not for a packet: as long as the
    commands sent do not fill the buffer it waits, although a whole command has
    arrived; when they do, it takes everything and returns the first command, so
    what followed it is lost. *)
Theorem recv_cmd_wants_full_buffer rbuf cmd data next :
  zlen data + IPC_HEADER_SIZE ≤ zlen rbuf < 2 ^ 32 →
  let stream := header cmd (zlen data) ++ data ++ next in
  recv_cmd (true, true) (waitall (zlen rbuf) stream) (Some rbuf)
  = Some (if zlen rbuf <=? zlen stream then RDone (take (length rbuf) stream) (zlen rbuf) else RWaits rbuf).
Proof.
  intros Hl stream. unfold IPC_HEADER_SIZE in Hl. unfold recv_cmd, waitall. cbn [negb fst snd].
  destruct (Z.eqb_spec (zlen rbuf) 0); [lia|].
  destruct (Z.leb_spec (zlen rbuf) (zlen stream)) as [Hs|Hs]; [|done]. cbn [recv_header].
  rewrite Nat2Z.id. set (got := take (length rbuf) stream).
  assert (Hg : zlen got = zlen rbuf) by (unfold got; rewrite length_take; lia).
  pose proof (filled_write [] got rbuf) as Hw. rewrite filled_nil in Hw. change (zlen []) with 0 in Hw. cbn [app] in Hw.
  rewrite Hw by lia. obind. rewrite andb_false_r, Hg. unfold IPC_HEADER_SIZE. bsolve. obind.
  assert (filled got rbuf = got) as -> by (unfold filled; rewrite drop_ge by lia; apply app_nil_r).
  assert (ipcdata_get_datalen got = Some (zlen data)) as ->.
  { unfold got, stream. rewrite take_app_ge by (rewrite length_header; lia). apply header_datalen. lia. }
  obind. rewrite Hg. bsolve. unfold recv_rest. by bsolve.
Qed.

Lemma recv_result_code rbuf res rest :
  0 ≤ res < 2 ^ 32 → ipcdata_get_return_code (header CMD_RESULT rbuf ++ be_bytes 4 res ++ rest) = Some res.
Proof.
  intros. unfold ipcdata_get_return_code.
  rewrite (getu32_be _ _ (be_bytes 4 res)), be_value_be_bytes, Z.mod_small; [done | done | | apply bytes_be_bytes].
  by apply read_at_mid.
Qed.

(** [send_result] never reports success: it compares the bytes of the packet
    with the size of a header and a code, but the marshaller counts a 32 bit
    number as 32 bytes, so the packet has 40.  The result does arrive: after a
    complete transmission [recv_result] returns true with the code; and 28 bytes
    of an earlier command went with it. *)
Theorem send_result_never_true kernel buf res :
  0 < res < 2 ^ 32 → zlen buf = IPC_BUFFER_SIZE → sends_ok kernel 40 →
  ∃ r wire buf' ok, send_result kernel buf res = Some (r, wire, buf', ok)
    ∧ (ok = None ∨ ok = Some false)
    ∧ ∀ n, r = Some n → n ≠ 0 →
        n = 40 ∧ wire = header CMD_RESULT 32 ++ be_bytes 4 res ++ take 28 (drop 12 buf)
        ∧ ∀ answers rbuf issuing_cmd,
            delivers answers → data_of answers = wire → recvs_ok answers (zlen rbuf) →
            command_is_oneway issuing_cmd = false →
            ∃ rbuf', recv_result (true, true) answers issuing_cmd (Some rbuf) = Some (RDone rbuf' n, Some res).
Proof.
  intros Hres Hb Hk. unfold IPC_BUFFER_SIZE in Hb. unfold send_result, send_cmd. bsolve.
  assert (Hdata : ipcdata_get_data buf = take 4 (drop 8 buf) ++ drop 12 buf)
    by (unfold ipcdata_get_data, IPC_HEADER_SIZE; rewrite <- (take_drop 4 (drop (Z.to_nat (2 * 4)) buf)), drop_drop; done).
  destruct (vsend_cmd_wire kernel buf CMD_RESULT (Some CMD_RESULT_FORMAT) [AInt res] 32 (be_bytes 4 res ++ drop 12 buf))
    as (r & wire & rest & E & Hw & Hr); [done | done | done | done | done | | |].
  - rewrite Hdata. unfold marshal_data. cbn [Z.eqb]. obind.
    change (ipcdata_get_data (header CMD_RESULT 32 ++ ?x)) with x. unfold vmarshal. cbn [Z.eqb].
    change CMD_RESULT_FORMAT with (render [mkItem true Sl (AInt res)]). rewrite marshal_loop_cons.
    cbn [marshal_inc i_spec spec_inc i_unsigned marshal_value]. obind. cbn [Z.add u64]. rewrite setu32_be.
    assert (u32 res = res) as -> by (apply Z.mod_small; lia).
    rewrite (write_at_head _ _ (be_bytes 4 res)) by (rewrite length_take, length_drop, length_be_bytes; lia). done.
  - rewrite length_app, length_drop. unfold IPC_BUFFER_SIZE, IPC_HEADER_SIZE. cbn [length be_bytes]. lia.
  - rewrite E. obind. eexists r, wire, _, _. split; [done|]. split.
    { destruct Hr as [[-> _]|[[-> _]| ->]]; auto. }
    intros n -> Hn. destruct Hr as [[[= ->] ->]|[[[= ->] _]|?]]; [|done|done]. rewrite app_nil_r in Hw.
    split; [done|].
    assert (Hwire : wire = header CMD_RESULT 32 ++ be_bytes 4 res ++ take 28 (drop 12 buf)) by (by rewrite <- Hw).
    split; [done|]. intros answers rbuf issuing_cmd Hd Hall Hok Hone.
    set (data := be_bytes 4 res ++ take 28 (drop 12 buf)) in *.
    assert (Hdl : zlen data = 32) by (unfold data; rewrite length_app, length_take, length_drop; cbn [length be_bytes]; lia).
    rewrite Hwire, <- Hdl in Hall. pose proof (recv_cmd_packet answers rbuf CMD_RESULT data Hok Hd ltac:(lia) Hall) as Hrecv.
    unfold recv_result. destruct (Z.eqb_spec (zlen rbuf) 0) as [E0|_].
    { exfalso. revert Hrecv. unfold recv_cmd. by rewrite E0. }
    rewrite Hone, Hrecv. obind. rewrite Hall. unfold filled. rewrite <- app_assoc.
    assert (Hcode : ∀ z, ipcdata_get_return_code (header CMD_RESULT (zlen data) ++ data ++ z) = Some res)
      by (intros; rewrite Hdl; unfold data; rewrite <- app_assoc; apply recv_result_code; lia).
    rewrite header_cmd, header_datalen, Hcode by (unfold CMD_RESULT; lia). obind. rewrite Hdl. cbn. eauto.
Qed.

(** ** Concrete runs *)

Definition demo_buffer : list Z := replicate (Z.to_nat IPC_BUFFER_SIZE) 7.

Definition demo_command : list item := [mkItem true Ss (AStr (Some (bytes_of_string "hi" ++ [0])))].

Lemma demo_command_ok : Forall item_ok demo_command.
Proof. repeat constructor. by exists (bytes_of_string "hi"). Qed.

(** The packet of 11 bytes is sent in two pieces and arrives in three. *)
Lemma command_roundtrip_witness :
  ∃ wire buf', vsend_cmd [Sent 5; Sent 6] demo_buffer CMD_MESSAGE (Some (render demo_command)) (i_arg <$> demo_command)
               = Some (Some 11, wire, buf')
    ∧ ∃ rbuf', recv_cmd (true, true)
                 [Popper.RecvData (take 3 wire); Popper.RecvData (take 6 (drop 3 wire)); Popper.RecvData (drop 9 wire)]
                 (Some (replicate 20 1)) = Some (RDone rbuf' 11)
      ∧ ipcdata_get_cmd rbuf' = Some CMD_MESSAGE
      ∧ vunmarshal (λ _, true) (ipcdata_get_data rbuf') 3 (render demo_command) = Some (1, [OStr (bytes_of_string "hi")]).
Proof.
  destruct (command_roundtrip [Sent 5; Sent 6] demo_buffer CMD_MESSAGE demo_command demo_command_ok)
    as (r & wire & buf' & E & _ & H); [vm_compute; congruence | done | done | vm_compute; repeat split; congruence |].
  assert (Hv : (λ s, (s.1.1, s.1.2)) <$> vsend_cmd [Sent 5; Sent 6] demo_buffer CMD_MESSAGE (Some (render demo_command))
                       (i_arg <$> demo_command)
               = Some (Some 11, [0; 0; 0; 2; 0; 0; 0; 3; 104; 105; 0])) by (vm_compute; reflexivity).
  rewrite E in Hv. cbn in Hv. injection Hv as -> ->.
  destruct (H 11 eq_refl ltac:(lia)) as [_ H'].
  destruct (H' [Popper.RecvData [0; 0; 0]; Popper.RecvData [2; 0; 0; 0; 3; 104]; Popper.RecvData [105; 0]] (replicate 20 1))
    as (rbuf' & ? & ? & _ & ?).
  - repeat constructor; eauto.
  - reflexivity.
  - vm_compute. repeat split; congruence.
  - exists [0; 0; 0; 2; 0; 0; 0; 3; 104; 105; 0], buf'. split; [done|]. by exists rbuf'.
Defined.

Lemma recv_cmd_safe_witness :
  ∃ r (got : list Z), recv_cmd (true, true) [Popper.RecvData [0; 0; 0; 9; 0; 0; 0; 9]; Popper.RecvClosed] (Some (replicate 20 1)) = Some r
    ∧ zlen got ≤ 20 ∧ got `prefix_of` [0; 0; 0; 9; 0; 0; 0; 9].
Proof.
  destruct (recv_cmd_safe (true, true) [Popper.RecvData [0; 0; 0; 9; 0; 0; 0; 9]; Popper.RecvClosed] (replicate 20 1))
    as (r & got & H & Hg & Hpre & _); [vm_compute; repeat split; congruence|]. by exists r, got.
Defined.

(** A ping of 8 bytes and a buffer of 16: nothing happens until the second ping,
    and that one is gone. *)
Lemma recv_cmd_wants_full_buffer_witness :
  recv_cmd (true, true) (waitall 16 (header CMD_PING 0)) (Some (replicate 16 1)) = Some (RWaits (replicate 16 1))
  ∧ recv_cmd (true, true) (waitall 16 (header CMD_PING 0 ++ header CMD_PING 0)) (Some (replicate 16 1))
    = Some (RDone (header CMD_PING 0 ++ header CMD_PING 0) 16).
Proof.
  split.
  - apply (recv_cmd_wants_full_buffer (replicate 16 1) CMD_PING [] []). vm_compute. split; congruence.
  - apply (recv_cmd_wants_full_buffer (replicate 16 1) CMD_PING [] (header CMD_PING 0)). vm_compute. split; congruence.
Defined.

Lemma send_result_never_true_witness :
  ∃ r wire buf' ok, send_result [Sent 40] demo_buffer RES_OK = Some (r, wire, buf', ok) ∧ (ok = None ∨ ok = Some false).
Proof.
  destruct (send_result_never_true [Sent 40] demo_buffer RES_OK) as (r & wire & buf' & ok & H & Hok & _);
    [done | done | vm_compute; repeat split; congruence |]. by exists r, wire, buf', ok.
Defined.
