(* ===== verification/Locks.v ===== *)
(** * The region lock: [src/stdlib/locks/region_lock.h]

    Any number of threads share one [reflock_t]; a step of the system is one
    atomic access of one thread (or one of its calls).  A thread that calls the
    functions in another order than the header asks for takes no step.  The
    host is little endian, so [low_part] is the lower half of [comb]. *)
From S2P Require Import Prelude.

(** Where a thread is: outside; in [enter_region] about to load [comb], to test
    the value loaded, to try the exchange, at the label [again]; in the region;
    in [block_region] with [expected] and what memory follows it; having the
    lock; in [waitfor_region]; having the region to itself. *)
Inductive pc : Set :=
  | Out
  | EnterLoad | EnterTest (lck : Z) | EnterCas (lck : Z) | EnterAgain
  | Inside
  | BlockCas (expected : Z)
  | Holding | Waiting | Exclusive.

(** [comb] as an integer of 64 bits. *)
Record region := mkRegion { comb : Z; threads : list pc }.

Definition low_part (comb : Z) : Z := comb mod 2 ^ 32.
Definition high_part (comb : Z) : Z := Z.shiftr comb 32.

Definition set_high_part (v comb : Z) : Z := Z.lor (Z.shiftl v 32) (low_part comb).

Definition init_region (n : nat) : region := mkRegion 0 (replicate n Out).

(** [expected = 0] when only the first of the four bytes the exchange accesses
    belongs to the variable. *)
Definition clear_byte (expected : Z) : Z := expected - expected mod 256.

Inductive region_action : Set :=
  | CallEnter | CallLeave | CallBlock (garbage : Z) | CallWait | CallUnblock
  | Run (spurious : bool).   (* a weak exchange may fail for no reason *)

(** One access of a thread at [p]: [comb] and where it is then. *)
Definition thread_step (a : region_action) (c : Z) (p : pc) : option (Z * pc) :=
  match a, p with
  | CallEnter, Out => Some (c, EnterLoad)
  | CallLeave, Inside => Some (u64 (c - 1), Out)
  | CallBlock garbage, Out => Some (c, BlockCas (clear_byte (u32 garbage)))
  | CallWait, Holding => Some (c, Waiting)
  | CallUnblock, (Holding | Exclusive) => Some (set_high_part 0 c, Out)
  | Run _, EnterLoad => Some (c, EnterTest c)
  | Run _, EnterTest lck => Some (c, if negb (Z.shiftr lck 32 =? 0) then EnterLoad else EnterCas lck)
  | Run spurious, EnterCas lck =>
      Some (if (c =? lck) && negb spurious then (u64 (lck + 1), Inside) else (c, EnterAgain))
  | Run _, EnterAgain => Some (c, if negb (Z.shiftr c 32 =? 0) then EnterAgain else EnterCas c)
  | Run spurious, BlockCas expected =>
      Some (if (high_part c =? expected) && negb spurious then (set_high_part 1 c, Holding)
            else (c, BlockCas (clear_byte (high_part c))))
  | Run _, Waiting => Some (c, if low_part c =? 0 then Exclusive else Waiting)
  | _, _ => None
  end.

Definition region_step (i : nat) (a : region_action) (r : region) : option region :=
  p ← threads r !! i;
  '(c, p) ← thread_step a (comb r) p;
  Some (mkRegion c (<[i := p]> (threads r))).

Inductive region_reach (n : nat) : region → Prop :=
  | reach_init : region_reach n (init_region n)
  | reach_step r i a r' : region_reach n r → region_step i a r = Some r' → region_reach n r'.

(** ** Counting threads *)

Definition inside (p : pc) : bool := match p with Inside => true | _ => false end.
Definition owner (p : pc) : bool := match p with Holding | Waiting | Exclusive => true | _ => false end.
Definition exclusive (p : pc) : bool := match p with Exclusive => true | _ => false end.

Fixpoint count (f : pc → bool) (l : list pc) : Z :=
  match l with [] => 0 | p :: l => (if f p then 1 else 0) + count f l end.

Lemma count_nonneg f l : 0 ≤ count f l ≤ zlen l.
Proof. induction l as [|p l IH]; cbn [count length]; [lia|]. destruct (f p); lia. Qed.

Lemma count_insert f l : ∀ i p q, l !! i = Some p →
  count f (<[i := q]> l) = count f l - (if f p then 1 else 0) + (if f q then 1 else 0).
Proof.
  induction l as [|x l IH]; intros [|i] p q; try done.
  - intros [= ->]. cbn. lia.
  - intros H. change (<[S i := q]> (x :: l)) with (x :: <[i := q]> l). cbn [count]. rewrite (IH i p q H). lia.
Qed.

Lemma count_pos f l i p : l !! i = Some p → f p = true → 1 ≤ count f l.
Proof.
  revert i. induction l as [|x l IH]; intros [|i]; cbn; try done.
  - intros [= ->] ->. pose proof (count_nonneg f l). lia.
  - intros H Hf. specialize (IH i H Hf). destruct (f x); lia.
Qed.

Lemma count_two f l i j p q : f Out = false → l !! i = Some p → l !! j = Some q → f p = true → f q = true → i ≠ j → 2 ≤ count f l.
Proof.
  intros Hout Hi Hj Hp Hq Hij. pose proof (count_insert f l i p Out Hi) as H. rewrite Hp, Hout in H.
  assert (Hj' : <[i := Out]> l !! j = Some q) by (by rewrite list_lookup_insert_ne).
  pose proof (count_pos f _ j q Hj' Hq). lia.
Qed.

Lemma count_exclusive l : count exclusive l ≤ count owner l.
Proof. induction l as [|[] l IH]; cbn [count exclusive owner]; lia. Qed.

Lemma count_replicate f n p : f p = false → count f (replicate n p) = 0.
Proof. intros Hf. induction n as [|n IH]; cbn; [done|]. by rewrite Hf, IH. Qed.

(** ** The invariant *)

(** What a thread knows by where it is. *)
Definition pc_ok (p : pc) : Prop :=
  match p with
  | EnterCas lck => 0 ≤ lck < 2 ^ 32
  | EnterTest lck => 0 ≤ lck
  | BlockCas expected => expected mod 256 = 0
  | _ => True
  end.

(** [comb] is the number of threads inside, with the lock bit when somebody has
    the lock; at most one has it, and nobody is inside when it has the region to
    itself. *)
Definition region_inv (n : nat) (r : region) : Prop :=
  length (threads r) = n
  ∧ comb r = 2 ^ 32 * count owner (threads r) + count inside (threads r)
  ∧ count owner (threads r) ≤ 1
  ∧ (0 < count exclusive (threads r) → count inside (threads r) = 0)
  ∧ Forall pc_ok (threads r).

Lemma high_comb o k : 0 ≤ k < 2 ^ 32 → Z.shiftr (2 ^ 32 * o + k) 32 = o.
Proof. intros. rewrite Z.shiftr_div_pow2, Z.mul_comm, Z.div_add_l, Z.div_small by lia. lia. Qed.

Lemma low_comb o k : 0 ≤ k < 2 ^ 32 → low_part (2 ^ 32 * o + k) = k.
Proof. intros. unfold low_part. rewrite Z.add_comm, Z.mul_comm, Z.mod_add, Z.mod_small by lia. done. Qed.

Lemma set_high_comb v o k : 0 ≤ k < 2 ^ 32 → set_high_part v (2 ^ 32 * o + k) = 2 ^ 32 * v + k.
Proof.
  intros. unfold set_high_part. rewrite low_comb, Z.shiftl_mul_pow2 by lia. rewrite lor_mul by lia. lia.
Qed.

Lemma clear_byte_ok e : clear_byte e mod 256 = 0.
Proof.
  unfold clear_byte. rewrite Zminus_mod, Z.mod_mod, Z.sub_diag by lia. done.
Qed.

Lemma pair_some {A B} (a c : A) (b d : B) : Some (a, b) = Some (c, d) → a = c ∧ b = d.
Proof. by intros [= -> ->]. Qed.

(** One access keeps the invariant, told by what it does to the counts. *)
Lemma thread_step_inv n r i a p c q :
  Z.of_nat n < 2 ^ 32 → region_inv n r → threads r !! i = Some p → thread_step a (comb r) p = Some (c, q) →
  region_inv n (mkRegion c (<[i := q]> (threads r))).
Proof.
  intros Hn (Hlen & Hc & Ho & Hx & Hok) Hp Hs.
  pose proof (count_nonneg inside (threads r)) as Hin. pose proof (count_nonneg owner (threads r)) as Hown.
  pose proof (count_nonneg exclusive (threads r)) as Hex. pose proof (count_exclusive (threads r)) as Hxo.
  assert (Hpk : pc_ok p) by (by eapply Forall_lookup_1 in Hok).
  assert (Hk : 0 ≤ count inside (threads r) < 2 ^ 32) by lia.
  pose proof (high_comb (count owner (threads r)) _ Hk) as Hh. rewrite <- Hc in Hh.
  pose proof (low_comb (count owner (threads r)) _ Hk) as Hl. rewrite <- Hc in Hl.
  assert (Hset : ∀ v, set_high_part v (comb r) = 2 ^ 32 * v + count inside (threads r))
    by (intros v; rewrite Hc; by apply set_high_comb).
  enough (H : c = 2 ^ 32 * count owner (<[i:=q]> (threads r)) + count inside (<[i:=q]> (threads r))
            ∧ count owner (<[i:=q]> (threads r)) ≤ 1
            ∧ (0 < count exclusive (<[i:=q]> (threads r)) → count inside (<[i:=q]> (threads r)) = 0) ∧ pc_ok q).
  { destruct H as (? & ? & ? & ?). unfold region_inv. cbn. rewrite length_insert. split_and!; try done.
    by apply Forall_insert. }
  rewrite !(count_insert _ _ _ p q Hp).
  destruct a, p; cbn [thread_step] in Hs; try done; cbn [inside owner exclusive pc_ok] in *.
  - apply pair_some in Hs as [<- <-]. cbn. lia.
  - pose proof (count_pos inside _ _ _ Hp eq_refl). apply pair_some in Hs as [<- <-]. cbn. unfold u64. rewrite Z.mod_small by lia. lia.
  - apply pair_some in Hs as [<- <-]. cbn. split_and!; try lia. apply clear_byte_ok.
  - apply pair_some in Hs as [<- <-]. cbn. lia.
  - apply pair_some in Hs as [<- <-]. cbn. rewrite Hset. pose proof (count_pos owner _ _ _ Hp eq_refl). lia.
  - apply pair_some in Hs as [<- <-]. cbn. rewrite Hset. pose proof (count_pos owner _ _ _ Hp eq_refl). lia.
  - apply pair_some in Hs as [<- <-]. cbn. lia.
  - apply pair_some in Hs as [<- <-]. destruct (Z.eqb_spec (Z.shiftr lck 32) 0) as [E|E]; cbn; [|lia].
    split_and!; try lia. rewrite Z.shiftr_div_pow2 in E by lia. apply Z.div_small_iff in E; lia.
  - destruct (Z.eqb_spec (comb r) lck) as [<-|]; destruct spurious; apply pair_some in Hs as [<- <-]; cbn; try lia.
    unfold u64. rewrite Z.mod_small by lia. lia.
  - apply pair_some in Hs as [<- <-]. rewrite Hh. destruct (Z.eqb_spec (count owner (threads r)) 0) as [E|]; cbn; [|lia]. lia.
  - unfold high_part in Hs; rewrite Hh in Hs. destruct (Z.eqb_spec (count owner (threads r)) expected) as [E|].
    + destruct spurious; apply pair_some in Hs as [<- <-]; cbn.
      * split_and!; try lia. apply clear_byte_ok.
      * assert (count owner (threads r) = 0).
        { destruct (Z.eq_dec (count owner (threads r)) 1) as [E1|]; [|lia]. rewrite E1 in E. subst expected. done. }
        rewrite Hset. lia.
    + apply pair_some in Hs as [<- <-]. cbn. split_and!; try lia. apply clear_byte_ok.
  - apply pair_some in Hs as [<- <-]. rewrite Hl. destruct (Z.eqb_spec (count inside (threads r)) 0); cbn; lia.
Qed.

Lemma region_reach_inv n r : Z.of_nat n < 2 ^ 32 → region_reach n r → region_inv n r.
Proof.
  intros Hn. induction 1 as [|r i a r' _ IH Hs].
  - unfold region_inv, init_region. cbn [comb threads]. rewrite length_replicate, !count_replicate by done.
    split_and!; try done. by apply Forall_replicate.
  - unfold region_step in Hs. destruct (threads r !! i) as [p|] eqn:Hp; [|done]. cbn [mbind option_bind] in Hs.
    destruct (thread_step a (comb r) p) as [[c q]|] eqn:Ht; [|done]. injection Hs as <-. by eapply thread_step_inv.
Qed.

(** ** A thread on its way in *)

Definition entering (p : pc) : bool :=
  match p with EnterLoad | EnterTest _ | EnterCas _ | EnterAgain => true | _ => false end.

(** A run with [k] accesses of thread [i], no exchange of which fails
    spuriously, between steps of the others that leave [comb] as it is: nobody
    else enters or leaves the region, or takes the lock.  Nothing bounds the
    accesses of a thread in other runs: each change of [comb] by another thread
    can cost it an exchange. *)
Inductive undisturbed (i : nat) : nat → region → region → Prop :=
  | undisturbed_refl r : undisturbed i 0 r r
  | undisturbed_own k r r1 r2 :
      region_step i (Run false) r = Some r1 → undisturbed i k r1 r2 → undisturbed i (S k) r r2
  | undisturbed_other k r r1 r2 j a :
      j ≠ i → region_step j a r = Some r1 → comb r1 = comb r → undisturbed i k r1 r2 → undisturbed i k r r2.

(** How many accesses are left while [comb] is [c] and the lock is free. *)
Definition accesses_left (c : Z) (p : pc) : nat :=
  match p with
  | EnterLoad => 3
  | EnterTest lck => if (Z.shiftr lck 32 =? 0) && (lck =? c) then 2 else 4
  | EnterCas lck => if lck =? c then 1 else 3
  | EnterAgain => 2
  | _ => 0
  end.

Lemma accesses_left_bound c p : (accesses_left c p ≤ 4)%nat.
Proof. destruct p; cbn [accesses_left]; repeat case_match; lia. Qed.

Lemma accesses_left_pos c p : entering p = true → (0 < accesses_left c p)%nat.
Proof. destruct p; cbn [accesses_left]; try done; intros _; repeat case_match; lia. Qed.

(** An access of a thread on its way in can always be made. *)
Lemma entering_steps c p spurious : entering p = true → ∃ x, thread_step (Run spurious) c p = Some x.
Proof. destruct p; try done; cbn [thread_step]; eauto. Qed.

(** It brings the thread inside, or nearer. *)
Lemma own_access c p c' q : Z.shiftr c 32 = 0 → entering p = true → thread_step (Run false) c p = Some (c', q) →
  accesses_left c p = S (accesses_left c q) ∧ (q = Inside ∨ (entering q = true ∧ c' = c)).
Proof.
  intros Hfree He Hs. destruct p; try done; cbn [thread_step] in Hs.
  - apply pair_some in Hs as [<- <-]. cbn [accesses_left]. rewrite Hfree, !Z.eqb_refl. auto.
  - apply pair_some in Hs as [<- <-]. cbn [accesses_left]. destruct (Z.shiftr lck 32 =? 0); cbn; [|auto].
    destruct (lck =? c); auto.
  - rewrite andb_true_r in Hs. cbn [accesses_left]. rewrite (Z.eqb_sym lck c).
    destruct (c =? lck); apply pair_some in Hs as [<- <-]; auto.
  - apply pair_some in Hs as [<- <-]. rewrite Hfree. cbn. rewrite Z.eqb_refl. auto.
Qed.

Lemma lookup_insert_here (l : list pc) i p q : l !! i = Some p → <[i := q]> l !! i = Some q.
Proof. intros H. apply list_lookup_insert_eq. by eapply lookup_lt_Some. Qed.

Lemma region_step_here i a r r' p : threads r !! i = Some p → region_step i a r = Some r' →
  ∃ q, thread_step a (comb r) p = Some (comb r', q) ∧ threads r' !! i = Some q.
Proof.
  intros Hp Hs. unfold region_step in Hs. rewrite Hp, obind_eq in Hs.
  destruct (thread_step a (comb r) p) as [[c q]|]; [|done]. rewrite obind_eq in Hs. apply Some_inj in Hs as <-.
  exists q. split; [done|]. by eapply lookup_insert_here.
Qed.

Lemma region_step_elsewhere i j a r r' : j ≠ i → region_step j a r = Some r' → threads r' !! i = threads r !! i.
Proof.
  intros Hj Hs. unfold region_step in Hs. destruct (threads r !! j) as [p|]; [rewrite obind_eq in Hs | done].
  destruct (thread_step a (comb r) p) as [[c q]|]; [|done]. rewrite obind_eq in Hs. apply Some_inj in Hs as <-.
  by apply list_lookup_insert_ne.
Qed.

Lemma undisturbed_inside i k r r' : undisturbed i k r r' → threads r !! i = Some Inside → k = O ∧ threads r' !! i = Some Inside.
Proof.
  induction 1 as [r|k r r1 r2 Hs _ _|k r r1 r2 j a Hj Hs _ _ IH]; intros Hp; [done| |].
  - by destruct (region_step_here _ _ _ _ _ Hp Hs) as (q & Ht & _).
  - apply IH. by rewrite (region_step_elsewhere i j a r r1 Hj Hs).
Qed.

Lemma undisturbed_enters i c k r r' : undisturbed i k r r' → Z.shiftr c 32 = 0 → comb r = c →
  ∀ p, threads r !! i = Some p → entering p = true →
  ∃ q, threads r' !! i = Some q ∧ (q = Inside ∨ entering q = true) ∧ (k + accesses_left c q = accesses_left c p)%nat.
Proof.
  intros Hu Hfree. induction Hu as [r|k r r1 r2 Hs Hu IH|k r r1 r2 j a Hj Hs Hc Hu IH]; intros <- p Hp He.
  - exists p. auto.
  - destruct (region_step_here _ _ _ _ _ Hp Hs) as (q & Ht & Hq).
    destruct (own_access _ _ _ _ Hfree He Ht) as [Hleft [->|[Hq' Hc]]].
    + destruct (undisturbed_inside _ _ _ _ Hu Hq) as [-> ?]. exists Inside. auto.
    + destruct (IH Hc q Hq Hq') as (q' & ? & ? & ?). exists q'. split_and!; [done..|lia].
  - apply IH; [done | | done]. by rewrite (region_step_elsewhere i j a r r1 Hj Hs).
Qed.

(** No access brings a thread inside while the lock bit is set. *)
Lemma locked_out c x a c' q : 2 ^ 32 ≤ c → pc_ok x → thread_step a c x = Some (c', q) → inside q = true → inside x = true.
Proof.
  intros Hc Hok Ht Hq. destruct a, x; cbn [thread_step] in Ht; try done;
    try (apply pair_some in Ht as [_ <-]; repeat case_match; done).
  - cbn [pc_ok] in Hok. destruct (Z.eqb_spec c lck) as [->|]; [lia|]. by apply pair_some in Ht as [_ <-].
  - destruct (_ && _); by apply pair_some in Ht as [_ <-].
Qed.

(** ** Properties *)

(** C33: exclusive access is exclusive: in every state the threads can reach,
    however they interleave and whichever exchanges fail, when one thread has
    got through [waitfor_region] no other is in the region or has the lock; and
    [comb] always counts the threads inside exactly, with the lock bit set while
    one thread, and no more, has the lock. *)
Theorem region_exclusion n r :
  Z.of_nat n < 2 ^ 32 → region_reach n r →
  low_part (comb r) = count inside (threads r) ∧ high_part (comb r) = count owner (threads r) ∧ count owner (threads r) ≤ 1
  ∧ ∀ i, threads r !! i = Some Exclusive →
      ∀ j p, j ≠ i → threads r !! j = Some p → inside p = false ∧ owner p = false.
Proof.
  intros Hn Hr. destruct (region_reach_inv n r Hn Hr) as (Hlen & Hc & Ho & Hx & _).
  pose proof (count_nonneg inside (threads r)) as Hin.
  rewrite Hc. unfold high_part. rewrite low_comb, high_comb by lia. split_and!; try done.
  intros i Hi j p Hij Hj. pose proof (count_pos exclusive _ _ _ Hi eq_refl) as Hpos. split.
  - destruct (inside p) eqn:E; [|done]. pose proof (count_pos inside _ _ _ Hj E). lia.
  - destruct (owner p) eqn:E; [|done].
    pose proof (count_two owner _ i j _ _ eq_refl Hi Hj eq_refl E ltac:(done)). lia.
Qed.

(** C34: the lock is fair to its owner: while one thread has it no step of any
    thread brings another into the region, and as soon as nobody is inside the
    next look of the waiting owner succeeds.  A thread on its way in is never
    blocked; when nobody has the lock it is inside after at most four accesses of
    its own, provided that no exchange among them fails spuriously and that no
    other thread changes [comb] in between.  (Without that proviso there is no
    bound: a weak exchange may fail for no reason, and others may enter and leave
    between any two accesses.) *)
Theorem region_progress n r i p :
  Z.of_nat n < 2 ^ 32 → region_reach n r → threads r !! i = Some p →
  (owner p = true → ∀ j a r', region_step j a r = Some r' → count inside (threads r') ≤ count inside (threads r))
  ∧ (p = Waiting → count inside (threads r) = 0 →
       ∃ r', region_step i (Run false) r = Some r' ∧ threads r' !! i = Some Exclusive)
  ∧ (entering p = true → ∀ spurious, ∃ r', region_step i (Run spurious) r = Some r')
  ∧ (entering p = true → count owner (threads r) = 0 → ∀ k r', undisturbed i k r r' →
       (k ≤ 4)%nat ∧ ∃ q, threads r' !! i = Some q ∧ (q = Inside ∨ (entering q = true ∧ (k < 4)%nat))).
Proof.
  intros Hn Hr Hp. pose proof (region_reach_inv n r Hn Hr) as (Hlen & Hc & Ho & Hx & Hok).
  pose proof (count_nonneg inside (threads r)) as Hin. destruct r as [c l]. cbn [comb threads] in *.
  pose proof (high_comb (count owner l) (count inside l) ltac:(lia)) as Hh. rewrite <- Hc in Hh.
  pose proof (low_comb (count owner l) (count inside l) ltac:(lia)) as Hl. rewrite <- Hc in Hl.
  split; [|split; [|split]].
  - intros Hown j a r' Hs. pose proof (count_pos owner _ _ _ Hp Hown) as Hpos.
    unfold region_step in Hs. cbn [threads comb] in Hs.
    destruct (l !! j) as [x|] eqn:Hj; [|done]. rewrite obind_eq in Hs.
    destruct (thread_step a c x) as [[c' q]|] eqn:Ht; [|done]. rewrite obind_eq in Hs. apply Some_inj in Hs as <-.
    cbn [threads]. rewrite (count_insert inside l j x q Hj).
    rewrite Forall_lookup in Hok. pose proof (locked_out c x a c' q ltac:(lia) (Hok _ _ Hj) Ht).
    destruct (inside q), (inside x); naive_solver lia.
  - intros -> H0. unfold region_step. cbn [threads comb]. rewrite Hp, obind_eq. cbn [thread_step].
    rewrite Hl, H0. eexists. split; [done|]. by eapply lookup_insert_here.
  - intros He spurious. unfold region_step. cbn [threads comb]. rewrite Hp, obind_eq.
    destruct (entering_steps c p spurious He) as [[c' q] ->]. by rewrite obind_eq; eauto.
  - intros He H0 k r' Hu. rewrite H0 in Hh.
    destruct (undisturbed_enters i c k _ r' Hu Hh eq_refl p Hp He) as (q & Hq & Hor & Hsum).
    pose proof (accesses_left_bound c p) as Hb. split; [lia|]. exists q. split; [done|].
    destruct Hor as [->|Heq]; [by left | right]. pose proof (accesses_left_pos c q Heq). split; [done | lia].
Qed.

(** ** Concrete runs *)

(** Two threads: the first enters, the second takes the lock with garbage behind
    its byte and waits; the first leaves. *)
Definition demo_schedule : list (nat * region_action) :=
  [(0%nat, CallEnter); (0%nat, Run false); (0%nat, Run false); (0%nat, Run false);
   (1%nat, CallBlock 0x5A00); (1%nat, Run false); (1%nat, Run false); (1%nat, CallWait); (1%nat, Run false)].

Definition run_schedule (l : list (nat * region_action)) (r : region) : option region :=
  foldl (λ r x, r ← r; region_step x.1 x.2 r) (Some r) l.

Lemma run_schedule_reach n l : ∀ r r', region_reach n r → run_schedule l r = Some r' → region_reach n r'.
Proof.
  unfold run_schedule. induction l as [|[i a] l IH]; intros r r' Hr; cbn [foldl]; [by intros [= <-]|].
  rewrite obind_eq. cbn [fst snd]. destruct (region_step i a r) as [r1|] eqn:E.
  - apply IH. by eapply reach_step.
  - intros H. exfalso. revert H. clear. induction l; [done|]. cbn. done.
Qed.

Lemma region_exclusion_witness :
  ∃ r, region_reach 2 r ∧ threads r = [Out; Exclusive] ∧ inside Out = false ∧ high_part (comb r) = 1.
Proof.
  assert (E : run_schedule (demo_schedule ++ [(0%nat, CallLeave); (1%nat, Run false)]) (init_region 2)
              = Some (mkRegion (2 ^ 32) [Out; Exclusive])) by (vm_compute; reflexivity).
  pose proof (run_schedule_reach 2 _ _ _ (reach_init 2) E) as Hr. eexists. split; [exact Hr|].
  destruct (region_exclusion 2 _ ltac:(lia) Hr) as (_ & Hh & _ & Hx).
  split; [done|]. split; [|exact Hh]. apply (Hx 1%nat eq_refl 0%nat Out); done.
Defined.

(** Two threads on their way in: the second loads and tests while the first goes
    inside. *)
Lemma demo_undisturbed :
  undisturbed 0 3 (mkRegion 0 [EnterLoad; EnterLoad]) (mkRegion 1 [Inside; EnterCas 0]).
Proof.
  eapply undisturbed_own; [reflexivity|]. eapply (undisturbed_other 0 _ _ _ _ 1 (Run false)); [done | reflexivity | done |].
  eapply undisturbed_own; [reflexivity|]. eapply (undisturbed_other 0 _ _ _ _ 1 (Run false)); [done | reflexivity | done |].
  eapply undisturbed_own; [reflexivity|]. apply undisturbed_refl.
Qed.

Lemma region_progress_witness :
  (∃ r, region_reach 2 r ∧ threads r = [Inside; Waiting]
    ∧ ∀ j a r', region_step j a r = Some r' → count inside (threads r') ≤ 1)
  ∧ (3 ≤ 4)%nat ∧ ∃ q, [Inside; EnterCas 0] !! 0%nat = Some q ∧ (q = Inside ∨ (entering q = true ∧ (3 < 4)%nat)).
Proof.
  split.
  - assert (E : run_schedule demo_schedule (init_region 2) = Some (mkRegion (2 ^ 32 + 1) [Inside; Waiting]))
      by (vm_compute; reflexivity).
    pose proof (run_schedule_reach 2 _ _ _ (reach_init 2) E) as Hr. eexists. split; [exact Hr|]. split; [done|].
    apply (proj1 (region_progress 2 _ 1 Waiting ltac:(lia) Hr eq_refl) eq_refl).
  - assert (E : run_schedule [(0%nat, CallEnter); (1%nat, CallEnter)] (init_region 2) = Some (mkRegion 0 [EnterLoad; EnterLoad]))
      by (vm_compute; reflexivity).
    pose proof (run_schedule_reach 2 _ _ _ (reach_init 2) E) as Hr.
    apply (proj2 (proj2 (proj2 (region_progress 2 _ 0 EnterLoad ltac:(lia) Hr eq_refl))) eq_refl eq_refl 3%nat _ demo_undisturbed).
Defined.
