(* ===== verification/Process.v ===== *)
(** * Process, thread and log helpers: [src/stdlib/process], [src/stdlib/log]

    The answers of the operating system are arguments; what the helpers do to
    the process is a state of its own: credentials, the table of open
    descriptors ([Sockets]), the logger.  [None] is undefined behaviour where
    nothing else is said.  The host is Linux. *)
From S2P Require Import Prelude Sockets.

(** ** CPUs and identities *)

(** [cnt] is the answer of [sysconf]. *)
Definition get_cpu_count (cnt : Z) : Z := cnt.

Definition get_available_cpu_count (cnt : Z) : Z := get_cpu_count cnt - 1.

(** The loop: [std::string::operator+=] takes a character, so the integer is
    converted to one. *)
Fixpoint id_loop (host_name domain_name : list Z) (fuel : nat) (n : Z) : list (list Z) :=
  match fuel with
  | O => []
  | S fuel => (host_name ++ [46] ++ domain_name ++ [u8 n]) :: id_loop host_name domain_name fuel (n + 1)
  end.

(** [host] and [domain] are the arrays after [gethostname] and [getdomainname],
    if these succeed. *)
Definition generate_default_ids (cnt : Z) (host domain : option (list Z)) (IDs : list (list Z))
    : option (bool * list (list Z)) :=
  let cpu_cnt := get_available_cpu_count cnt in
  if cpu_cnt <? 1 then Some (false, IDs)
  else
    match host, domain with
    | Some host, Some domain =>
        host_name ← cstr host;
        domain_name ← cstr domain;
        Some (true, id_loop host_name domain_name (Z.to_nat cpu_cnt) 0)
    | _, _ => Some (false, IDs)
    end.

(** What [c_str()] of an identity shows. *)
Definition c_str (id : list Z) : list Z := default [] (cstr (id ++ [0])).

(** ** Credentials *)

Record creds := mkCreds { ruid : Z; euid : Z; suid : Z; rgid : Z; egid : Z; sgid : Z }.

(** [setuid] and [setgid]: all three identities for a privileged process, else
    the effective one among the real and the saved; 0 or -1. *)
Definition setuid (u : Z) (c : creds) : Z * creds :=
  if euid c =? 0 then (0, mkCreds u u u (rgid c) (egid c) (sgid c))
  else if (u =? ruid c) || (u =? suid c) then (0, mkCreds (ruid c) u (suid c) (rgid c) (egid c) (sgid c))
  else (-1, c).

Definition setgid (g : Z) (c : creds) : Z * creds :=
  if euid c =? 0 then (0, mkCreds (ruid c) (euid c) (suid c) g g g)
  else if (g =? rgid c) || (g =? sgid c) then (0, mkCreds (ruid c) (euid c) (suid c) (rgid c) g (sgid c))
  else (-1, c).

(** The first half of [switch_user] and the second; [getpwnam] and [getgrnam]
    give the number of a name. *)
Definition switch_uid (getpwnam : list Z → option Z) (user : option (list Z)) (c : creds) : bool * creds :=
  match user with
  | None | Some [] => (true, c)
  | Some user =>
      match getpwnam user with
      | None => (false, c)
      | Some uid => let '(r, c) := setuid uid c in (r =? 0, c)
      end
  end.

Definition switch_gid (getgrnam : list Z → option Z) (group : option (list Z)) (c : creds) : bool * creds :=
  match group with
  | None | Some [] => (true, c)
  | Some group =>
      match getgrnam group with
      | None => (false, c)
      | Some gid => let '(r, c) := setgid gid c in (r =? 0, c)
      end
  end.

Definition switch_user (getpwnam getgrnam : list Z → option Z) (user group : option (list Z)) (c : creds)
    : bool * creds :=
  let '(ok, c) := switch_uid getpwnam user c in
  if negb ok then (false, c) else switch_gid getgrnam group c.

(** The same with the group first, as a reference. *)
Definition group_then_user (getpwnam getgrnam : list Z → option Z) (user group : option (list Z)) (c : creds)
    : bool * creds :=
  let '(ok, c) := switch_gid getgrnam group c in
  if negb ok then (false, c) else switch_uid getpwnam user c.

(** ** [become_daemon], [lock_down_process], [PidFile] *)

Inductive daemon_exit_t : Set := PROCESS_IS_CHILD | PROCESS_IS_PARENT | PROCESS_ERROR.

(** The answer of [fork]. *)
Definition become_daemon (pid : Z) : daemon_exit_t :=
  if pid =? -1 then PROCESS_ERROR else if pid =? 0 then PROCESS_IS_CHILD else PROCESS_IS_PARENT.

Definition RLIM_INFINITY : Z := 2 ^ 64 - 1.

(** The loop over the descriptors from [n] on: an open one is closed, [err]
    tells for which that fails; any other answers EBADF. *)
Fixpoint close_loop (err : Z → bool) (fuel : nat) (n : Z) (t : table) : bool * table :=
  match fuel with
  | O => (true, t)
  | S fuel =>
      if decide (n ∈ t) then
        if err n then (false, close n t) else close_loop err fuel (n + 1) (close n t)
      else close_loop err fuel (n + 1) t
  end.

(** [dup2] of a descriptor that is open. *)
Definition dup2 (fd n : Z) (t : table) : table := if fd =? -1 then t else {[n]} ∪ t.

(** [rlim] is the hard limit if [getrlimit] succeeds.  The counter has 32 bits,
    so a larger limit is never reached: [None] is a loop that does not end. *)
Definition lock_down_process (chdir_ok : bool) (rlim : option Z) (err : Z → bool) (open_ok : bool) (t : table)
    : option (bool * table) :=
  if negb chdir_ok then Some (false, t)
  else
    match rlim with
    | None => Some (false, t)
    | Some rlim_max =>
        let rlim_max := if rlim_max =? RLIM_INFINITY then 1024 else rlim_max in
        let '(ok, t) := close_loop err (Z.to_nat (Z.min rlim_max (2 ^ 32))) 0 t in
        if negb (ok : bool) then Some (false, t)
        else if 2 ^ 32 <=? rlim_max then None
        else
          let '(fd0, t) := socket open_ok t in
          let t := dup2 fd0 2 (dup2 fd0 1 t) in
          if negb (fd0 =? 0) then Some (false, t) else Some (false, t)
    end.

(** The constructor: [open] answers a descriptor, then the calls in order; the
    error flag, the descriptor, and what the file holds ([None]: not touched). *)
Definition PidFile (path : option (list Z)) (fd : Z) (flock_rc ftruncate_rc pid : Z) (written : Z → Z) (sync : Z)
    : bool * Z * option (list Z) :=
  match path with
  | None => (true, -1, None)
  | Some _ =>
      if fd =? -1 then (true, -1, None)
      else if negb (flock_rc =? 0) then (true, fd, None)
      else if negb (ftruncate_rc =? 0) then (true, fd, None)
      else
        let buf := dec pid ++ [0] in
        let w := written (zlen buf) in
        let file := Some (take (Z.to_nat w) buf) in
        if negb (zlen buf =? w) then (true, fd, file)
        else if sync =? -1 then (true, fd, file)
        else (false, fd, file)
  end.

(** ** Threads *)

(** The three answers; the thread runs when the last is 0.  The attributes'
    detach state. *)
Definition create_thread (detached : bool) (attr_rc state_rc create_rc : Z) : bool * option bool :=
  if negb (attr_rc =? 0) then (false, None)
  else if negb (state_rc =? 0) then (false, None)
  else if negb (create_rc =? 0) then (false, None)
  else (true, Some detached).

Definition create_joinable_thread := create_thread false.
Definition create_detached_thread := create_thread true.

Definition CPU_SETSIZE : Z := 1024.

(** The mask given to [sched_setaffinity]. *)
Definition pin_thread (cpu_tag : Z) : gset Z :=
  if (0 <=? cpu_tag - 1) && (cpu_tag - 1 <? CPU_SETSIZE) then {[cpu_tag - 1]} else ∅.

(** ** Reference counts *)

(** [None]: the object is gone. *)
Inductive ref_op : Set := Retain | Release.

Definition ref_step (o : ref_op) (refcnt_ : Z) : option Z :=
  match o with
  | Retain => Some (sint 32 (refcnt_ + 1))
  | Release => let n := sint 32 (refcnt_ - 1) in if n =? 0 then None else Some n
  end.

(** A sequence of operations, in the order the atomic instructions happen: the
    outer [None] is the use of a deleted object, the inner one a deleted
    object. *)
Fixpoint ref_run (ops : list ref_op) (refcnt : option Z) : option (option Z) :=
  match ops with
  | [] => Some refcnt
  | o :: ops =>
      match refcnt with
      | None => None
      | Some n => ref_run ops (ref_step o n)
      end
  end.

(** ** The log *)

Definition LOG_EMERG : Z := 0.
Definition LOG_NOTICE : Z := 5.
Definition LOG_INFO : Z := 6.
Definition LOG_DEBUG : Z := 7.
Definition LOG_UPTO (pri : Z) : Z := Z.shiftl 1 (pri + 1) - 1.

(** [openlog] keeps the pointer: to nothing, or to an object that exists or
    does not exist any more. *)
Inductive log_ident : Type := NoIdent | LiveIdent (s : list Z) | DeadIdent.

Record logger := mkLogger { log_mask : Z; ident : log_ident }.

Definition PREFIX_SIZE : Z := 1024.

(** [identity] is [None] for a null pointer.  The array with the prefix ends
    with the call. *)
Definition init_logging (PACKAGE : list Z) (debug : bool) (identity : option (list Z)) (l : logger)
    : option (bool * logger) :=
  identity ← identity;
  let prefix := PACKAGE ++ [91] ++ identity ++ [93] in
  if PREFIX_SIZE - 1 <? zlen prefix then Some (false, l)
  else Some (true, mkLogger (if debug then LOG_UPTO LOG_DEBUG else LOG_UPTO LOG_NOTICE) DeadIdent).

(** A masked priority is not written; otherwise the prefix is read. *)
Definition vlog (priority : Z) (text : list Z) (l : logger) : option (list Z) :=
  if negb (Z.testbit (log_mask l) (Z.land priority 7)) then Some []
  else
    match ident l with
    | NoIdent => Some text
    | LiveIdent s => Some (s ++ bytes_of_string ": " ++ text)
    | DeadIdent => None
    end.

Definition log := vlog.

(** ** Lemmas *)

Lemma id_loop_spec h d : ∀ fuel n,
  id_loop h d fuel n = (λ k, h ++ [46] ++ d ++ [u8 k]) <$> seqZ n (Z.of_nat fuel).
Proof.
  induction fuel as [|fuel IH]; intros n; [done|]. cbn [id_loop].
  rewrite seqZ_cons, IH by lia. cbn [fmap list_fmap]. do 3 f_equal; lia.
Qed.

(** The identity as a C string: number 0 has no character. *)
Lemma c_str_id h d n : Forall (λ c, c ≠ 0) h → Forall (λ c, c ≠ 0) d →
  c_str (h ++ [46] ++ d ++ [u8 n]) = h ++ [46] ++ d ++ (if u8 n =? 0 then [] else [u8 n]).
Proof.
  intros Hh Hd. unfold c_str. rewrite <- !app_assoc.
  assert (Hhd : Forall (λ c, c ≠ 0) (h ++ [46] ++ d)) by (apply Forall_app; split; [done|]; by apply Forall_app; split; [repeat constructor|]).
  destruct (Z.eqb_spec (u8 n) 0) as [->|Hn].
  - replace (h ++ [46] ++ d ++ [0] ++ [0]) with ((h ++ [46] ++ d) ++ 0 :: [0]) by (by app_norm).
    rewrite cstr_app by done. cbn. by rewrite app_nil_r.
  - replace (h ++ [46] ++ d ++ [u8 n] ++ [0]) with ((h ++ [46] ++ d ++ [u8 n]) ++ 0 :: []) by (by app_norm).
    rewrite cstr_app; [done|]. rewrite !Forall_app. rewrite !Forall_app in Hhd. destruct Hhd as (? & ? & ?).
    repeat split; try done. by repeat constructor.
Qed.

Lemma c_str_id_inj h d n m : Forall (λ c, c ≠ 0) h → Forall (λ c, c ≠ 0) d →
  c_str (h ++ [46] ++ d ++ [u8 n]) = c_str (h ++ [46] ++ d ++ [u8 m]) → u8 n = u8 m.
Proof.
  intros Hh Hd. rewrite !c_str_id by done. intros H. repeat apply app_inv_head in H.
  destruct (Z.eqb_spec (u8 n) 0), (Z.eqb_spec (u8 m) 0); congruence.
Qed.

Lemma close_loop_ok err : (∀ n, err n = false) → ∀ fuel n t,
  close_loop err fuel n t = (true, filter (λ x, ¬ (n ≤ x < n + Z.of_nat fuel)) t).
Proof.
  intros Herr. induction fuel as [|fuel IH]; intros n t; cbn [close_loop].
  - f_equal. apply set_eq. intros x. rewrite elem_of_filter. split; [|tauto]. split; [lia | done].
  - assert (H : ∀ s : table, (∀ x, x ∈ s ↔ x ∈ t ∧ x ≠ n) ∨ (s = t ∧ n ∉ t) →
              filter (λ x, ¬ (n + 1 ≤ x < n + 1 + Z.of_nat fuel)) s = filter (λ x, ¬ (n ≤ x < n + Z.of_nat (S fuel))) t).
    { intros s Hs. apply set_eq. intros x. rewrite !elem_of_filter. destruct Hs as [Hs|[-> Hs]].
      - rewrite Hs. split; [intros (? & ? & ?) | intros (? & ?)]; (split; [lia|]); [done|]. split; [done|]. intros ->. lia.
      - split; intros [? Hx]; (split; [|done]); [|lia]. destruct (decide (x = n)) as [->|]; [done | lia]. }
    case_decide as Hn.
    + rewrite Herr, IH. f_equal. apply H. left. intros x. unfold close. set_solver.
    + rewrite IH. f_equal. apply H. by right.
Qed.

Lemma lowest_free_empty : lowest_free ∅ = 0.
Proof. reflexivity. Qed.

(** The references taken less those given back. *)
Fixpoint balance (ops : list ref_op) : Z :=
  match ops with
  | [] => 0
  | Retain :: ops => 1 + balance ops
  | Release :: ops => balance ops - 1
  end.

(** Everyone gives back only what it holds: the creator's reference is there
    until the end. *)
Fixpoint held (n : Z) (ops : list ref_op) : Prop :=
  0 < n ∧ match ops with
          | [] => True
          | Retain :: ops => held (n + 1) ops
          | Release :: ops => held (n - 1) ops
          end.

Lemma ref_run_held ops : ∀ n more, held n ops → n + zlen ops < 2 ^ 31 →
  ref_run (ops ++ more) (Some n) = ref_run more (Some (n + balance ops)) ∧ 0 < n + balance ops.
Proof.
  induction ops as [|o ops IH]; intros n more Hh Hlen; cbn [app balance].
  - rewrite Z.add_0_r. by destruct Hh.
  - destruct o; cbn [held] in Hh; destruct Hh as [Hn Hh]; cbn [ref_run ref_step].
    + rewrite sint_small by llia. destruct (IH (n + 1) more Hh) as [-> ?]; [llia|]. split; [do 2 f_equal; lia | lia].
    + rewrite sint_small by llia. assert (0 < n - 1) by (destruct ops as [|[] ?]; cbn [held] in Hh; tauto).
      rewrite (proj2 (Z.eqb_neq _ 0)) by lia.
      destruct (IH (n - 1) more Hh) as [-> ?]; [llia|]. split; [do 2 f_equal; lia | lia].
Qed.

(** Root's process, a user and a group that exist and are not root's. *)
Lemma switch_user_both getpwnam getgrnam user group uid gid :
  user ≠ [] → group ≠ [] → getpwnam user = Some uid → getgrnam group = Some gid → uid ≠ 0 → gid ≠ 0 →
  switch_user getpwnam getgrnam (Some user) (Some group) (mkCreds 0 0 0 0 0 0) = (false, mkCreds uid uid uid 0 0 0).
Proof.
  intros Hu Hg Eu Eg Hu0 Hg0. destruct user as [|cu user]; [done|]. destruct group as [|cg group]; [done|].
  unfold switch_user, switch_uid, switch_gid. rewrite Eu, Eg. cbn. unfold setgid. cbn.
  by rewrite (proj2 (Z.eqb_neq uid 0)), (proj2 (Z.eqb_neq gid 0)).
Qed.

(** [lock_down_process] never returns true. *)
Lemma lock_down_false chdir_ok rlim err open_ok t r t' :
  lock_down_process chdir_ok rlim err open_ok t = Some (r, t') → r = false.
Proof.
  unfold lock_down_process. destruct chdir_ok; cbn [negb]; [|by intros [= <- _]].
  destruct rlim as [m|]; [|by intros [= <- _]].
  destruct (close_loop _ _ _ _) as [[] t1]; cbn [negb]; [|by intros [= <- _]].
  destruct (_ <=? _); [done|]. destruct (socket open_ok t1) as [fd t2]. destruct (fd =? 0); by intros [= <- _].
Qed.

(** ** Properties *)

(** the default identities: with at least two CPUs there is one for each
    CPU but one; they are pairwise different, as C strings, exactly when there
    are at most 256; but none is the documented HOST.DOMAIN.n: the number is
    appended as a character. *)
Theorem default_ids_spec cnt host domain h d rh rd IDs :
  2 ≤ cnt → host = h ++ 0 :: rh → domain = d ++ 0 :: rd → Forall (λ c, c ≠ 0) h → Forall (λ c, c ≠ 0) d →
  ∃ ids, generate_default_ids cnt (Some host) (Some domain) IDs = Some (true, ids)
    ∧ zlen ids = cnt - 1
    ∧ (NoDup (c_str <$> ids) ↔ cnt - 1 ≤ 256)
    ∧ ∀ id n, id ∈ ids → 0 ≤ n → c_str id ≠ h ++ [46] ++ d ++ [46] ++ dec n.
Proof.
  intros Hc -> -> Hh Hd. unfold generate_default_ids, get_available_cpu_count, get_cpu_count. bsolve.
  rewrite !cstr_app by done. obind. rewrite id_loop_spec, Z2Nat.id by lia.
  eexists. split; [done|]. split; [rewrite length_fmap, length_seqZ; lia|]. split.
  - split.
    + intros Hnd. destruct (Z.le_gt_cases (cnt - 1) 256) as [|Hbig]; [done|]. exfalso.
      rewrite <- list_fmap_compose, NoDup_alt in Hnd.
      assert (E : 0%nat = 256%nat); [|done]. apply (Hnd 0%nat 256%nat (c_str (h ++ [46] ++ d ++ [u8 0])));
        rewrite list_lookup_fmap, (lookup_seqZ_lt 0 (cnt - 1)) by lia; reflexivity.
    + intros Hle. rewrite <- list_fmap_compose. apply NoDup_fmap_2_strong; [|apply NoDup_seqZ].
      intros x y Hx%elem_of_seqZ Hy%elem_of_seqZ H. apply c_str_id_inj in H; [|done..].
      unfold u8 in H. rewrite !Z.mod_small in H by lia. done.
  - intros id n (k & -> & _)%list_elem_of_fmap Hn. rewrite c_str_id by done. intros H.
    repeat apply app_inv_head in H. pose proof (dec_length_pos n) as Hl.
    apply (f_equal length) in H. rewrite length_app in H. cbn [length] in H. destruct (_ =? 0); cbn [length] in H; lia.
Qed.

(** changing user and group: started by root with a user and a group that
    exist and are not root's, [switch_user] has given up the right to change the
    group before it does: it fails, as the new user in the old group.  The
    reference that changes the group first succeeds; and with a user alone the
    process keeps root's group. *)
Theorem switch_user_order getpwnam getgrnam user group uid gid :
  user ≠ [] → group ≠ [] → getpwnam user = Some uid → getgrnam group = Some gid → uid ≠ 0 → gid ≠ 0 →
  let root := mkCreds 0 0 0 0 0 0 in
  switch_user getpwnam getgrnam (Some user) (Some group) root = (false, mkCreds uid uid uid 0 0 0)
  ∧ group_then_user getpwnam getgrnam (Some user) (Some group) root = (true, mkCreds uid uid uid gid gid gid)
  ∧ switch_user getpwnam getgrnam (Some user) None root = (true, mkCreds uid uid uid 0 0 0).
Proof.
  intros Hu Hg Eu Eg Hu0 Hg0 root. split; [by apply (switch_user_both _ _ _ _ uid gid)|].
  destruct user as [|cu user]; [done|]. destruct group as [|cg group]; [done|].
  unfold switch_user, group_then_user, switch_uid, switch_gid. by rewrite Eu, Eg.
Qed.

(** [lock_down_process] does its work and denies it: it never returns true;
    yet when every call succeeds and the limit is above every open descriptor,
    exactly the descriptors 0, 1 and 2 are open afterwards. *)
Theorem lock_down_result chdir_ok rlim err open_ok t :
  (∀ t', lock_down_process chdir_ok rlim err open_ok t ≠ Some (true, t'))
  ∧ (∀ rlim_max, chdir_ok = true → rlim = Some rlim_max → open_ok = true → (∀ n, err n = false) →
       rlim_max < 2 ^ 32 → (∀ x, x ∈ t → 0 ≤ x < rlim_max) →
       lock_down_process chdir_ok rlim err open_ok t = Some (false, {[0; 1; 2]})).
Proof.
  split.
  - intros t' H. by apply lock_down_false in H.
  - intros m -> -> -> Herr Hm Ht. unfold lock_down_process. cbn [negb]. rewrite (proj2 (Z.eqb_neq m RLIM_INFINITY)) by (unfold RLIM_INFINITY; lia).
    rewrite Z.min_l, close_loop_ok by (done || lia). cbn [negb]. rewrite (proj2 (Z.leb_gt _ m)) by lia.
    assert (filter (λ x, ¬ (0 ≤ x < 0 + Z.of_nat (Z.to_nat m))) t = ∅) as ->.
    { apply set_eq. intros x. rewrite elem_of_filter, elem_of_empty. split; [|done]. intros [Hx Hin]. specialize (Ht x Hin). lia. }
    unfold socket. rewrite lowest_free_empty. done.
Qed.

(** a counted object lives as long as it is held: whatever the order of the
    operations of its holders, as long as nobody gives back what it does not
    hold the count is the number of references, the object is not deleted; the
    release of the last one deletes it, and any operation after that is one on a
    deleted object. *)
Theorem refcount_life ops more :
  held 1 ops → zlen ops < 2 ^ 30 →
  ref_run ops (Some 1) = Some (Some (1 + balance ops))
  ∧ (balance ops = 0 → ref_run (ops ++ [Release]) (Some 1) = Some None
                       ∧ (more ≠ [] → ref_run (ops ++ Release :: more) (Some 1) = None)).
Proof.
  intros Hh Hlen. split.
  - rewrite <- (app_nil_r ops) at 1. by destruct (ref_run_held ops 1 [] Hh) as [-> _]; [lia|].
  - intros Hb. split; [|intros Hm];
      rewrite (proj1 (ref_run_held ops 1 _ Hh ltac:(lia))), Hb; [done|]. by destruct more.
Qed.

(** the log after [init_logging]: an identity that fits is accepted and the
    mask lets through up to LOG_DEBUG or LOG_NOTICE, but the prefix was a local
    array: every message that passes the mask reads an array that has ended. *)
Theorem logging_prefix_dead PACKAGE debug identity l :
  zlen PACKAGE + zlen identity + 2 < PREFIX_SIZE →
  ∃ l', init_logging PACKAGE debug (Some identity) l = Some (true, l')
    ∧ ∀ priority text, 0 ≤ priority ≤ LOG_DEBUG →
        vlog priority text l' = if priority <=? (if debug then LOG_DEBUG else LOG_NOTICE) then None else Some [].
Proof.
  intros Hlen. unfold init_logging. obind.
  assert (zlen (PACKAGE ++ [91] ++ identity ++ [93]) = zlen PACKAGE + zlen identity + 2) as -> by llia.
  unfold PREFIX_SIZE in *. bsolve. eexists. split; [done|]. intros priority text [H0 H7].
  unfold vlog. cbn [log_mask ident]. assert (Hp : priority ∈ seqZ 0 8) by (apply elem_of_seqZ; unfold LOG_DEBUG in *; lia).
  destruct debug; cbn in Hp; repeat (apply elem_of_cons in Hp as [->|Hp]; [reflexivity|]); by apply not_elem_of_nil in Hp.
Qed.

(** ** Concrete runs *)

(** Four CPUs: the last identity is "fix.example" and the character 2. *)
Lemma default_ids_spec_witness :
  ∃ ids, generate_default_ids 4 (Some (bytes_of_string "fix" ++ [0; 0])) (Some (bytes_of_string "example" ++ [0])) []
         = Some (true, ids)
    ∧ zlen ids = 3 ∧ NoDup (c_str <$> ids) ∧ last ids = Some (bytes_of_string "fix.example" ++ [2]).
Proof.
  destruct (default_ids_spec 4 (bytes_of_string "fix" ++ [0; 0]) (bytes_of_string "example" ++ [0])
              (bytes_of_string "fix") (bytes_of_string "example") [0] [] [])
    as (ids & E & Hl & Hnd & _); [lia | done | done | repeat constructor; done | repeat constructor; done |].
  exists ids. split; [done|]. split; [done|]. split; [apply Hnd; lia|].
  assert (Hv : (r ← generate_default_ids 4 (Some (bytes_of_string "fix" ++ [0; 0])) (Some (bytes_of_string "example" ++ [0])) [];
                last r.2) = Some (bytes_of_string "fix.example" ++ [2])) by (vm_compute; reflexivity).
  by rewrite E in Hv.
Defined.

Definition demo_ids (name : list Z) : option Z := if bool_decide (name = bytes_of_string "fix") then Some 1000 else None.

Lemma switch_user_order_witness :
  switch_user demo_ids demo_ids (Some (bytes_of_string "fix")) (Some (bytes_of_string "fix")) (mkCreds 0 0 0 0 0 0)
  = (false, mkCreds 1000 1000 1000 0 0 0).
Proof.
  apply (switch_user_order demo_ids demo_ids (bytes_of_string "fix") (bytes_of_string "fix") 1000 1000); vm_compute; congruence.
Defined.

Lemma lock_down_result_witness :
  lock_down_process true (Some 16) (λ _, false) true {[0; 1; 2; 7]} = Some (false, {[0; 1; 2]}).
Proof.
  apply (proj2 (lock_down_result true (Some 16) (λ _, false) true {[0; 1; 2; 7]}) 16); try done. set_solver by lia.
Defined.

Lemma refcount_life_witness :
  ref_run [Retain; Retain; Release; Release] (Some 1) = Some (Some 1)
  ∧ ref_run ([Retain; Release] ++ [Release; Release]) (Some 1) = None.
Proof.
  split.
  - apply (refcount_life [Retain; Retain; Release; Release] []); cbn; lia.
  - apply (refcount_life [Retain; Release] [Release]); cbn; done || lia.
Defined.

Lemma logging_prefix_dead_witness :
  ∃ l', init_logging (bytes_of_string "mercury") false (Some (bytes_of_string "X")) (mkLogger 255 NoIdent) = Some (true, l')
    ∧ vlog LOG_NOTICE [] l' = None ∧ vlog LOG_INFO [] l' = Some [].
Proof.
  destruct (logging_prefix_dead (bytes_of_string "mercury") false (bytes_of_string "X") (mkLogger 255 NoIdent)) as (l' & E & H); [done|].
  exists l'. split; [done|]. split; [apply (H LOG_NOTICE []) | apply (H LOG_INFO [])]; done.
Defined.
