(* ===== verification/PusherInit.v ===== *)
(** * The pusher's constructor and [init]
    ([src/applib/fixio/fix_pusher.cpp], 879 to 997)

    The rings are those of [Disruptor], the database is that of [MsgDB], the
    settings are those of [PusherControl].  [start] and [stop] are here calls
    that happen at once: the pusher thread, when there is one, answers the flags
    before they return, and a call that nobody will answer is [Waits].  The
    interleavings of the flags are in [PusherControl]. *)
From S2P Require Import Prelude Pusher MsgDB Disruptor RingQueue.
From S2P Require PusherControl.

Definition ALFA_QUEUE_LENGTH : Z := 1024.
Definition ALFA_ENTRY_PROCESSORS : nat := 1.
Definition BRAVO_QUEUE_LENGTH : Z := 128.
Definition BRAVO_ENTRY_PROCESSORS : nat := 1.
Definition CHARLIE_QUEUE_LENGTH : Z := 512.
Definition CHARLIE_ENTRY_PROCESSORS : nat := 1.
Definition ROMEO_QUEUE_LENGTH : Z := 128.
Definition ROMEO_ENTRY_PROCESSORS : nat := 1.

Definition zeros (n : Z) : list Z := replicate (Z.to_nat n) 0.

Definition alfa_init : ring (list Z) :=
  ring_buffer_init ALFA_ENTRY_PROCESSORS (replicate (Z.to_nat ALFA_QUEUE_LENGTH) (zeros ALFA_ENTRY_SIZE)).
Definition bravo_init : ring bravo_t :=
  ring_buffer_init BRAVO_ENTRY_PROCESSORS (replicate (Z.to_nat BRAVO_QUEUE_LENGTH) (mkBravo 0 None)).
Definition charlie_init : ring (list Z) :=
  ring_buffer_init CHARLIE_ENTRY_PROCESSORS (replicate (Z.to_nat CHARLIE_QUEUE_LENGTH) (zeros CHARLIE_ENTRY_SIZE)).
Definition romeo_init : ring bravo_t :=
  ring_buffer_init ROMEO_ENTRY_PROCESSORS (replicate (Z.to_nat ROMEO_QUEUE_LENGTH) (mkBravo 0 None)).

(** The rings; romeo with [romeo_cursor_] and [romeo_reg_number_]. *)
Record rings := mkRings {
  alfa_ : option (ring (list Z)); bravo_ : option (ring bravo_t); charlie_ : option (ring (list Z));
  romeo_ : option (ring bravo_t * Z * nat) }.

(** The object.  [args_] tells that it is allocated, [pusher_threads] counts the
    threads created. *)
Record pusher_object := mkObject {
  settings_ : PusherControl.settings; soh_ : Z; sending_time_tag_ : list Z; error_ : Z;
  rings_ : rings; args_ : bool; db_is_open_ : bool; pause_thread_ : bool; started_ : bool; msg_seq_number_ : Z;
  pdb : MsgDB; pusher_threads : nat }.

Definition FIX_Pusher (soh : Z) (files : gmap (list Z) tables) : pusher_object :=
  mkObject PusherControl.make_settings soh [soh; 53; 50; 61; 0] 0 (mkRings None None None None)
    false false true false 0 (make_db files) 0.

Definition set_rings (r : rings) (o : pusher_object) : pusher_object :=
  mkObject (settings_ o) (soh_ o) (sending_time_tag_ o) (error_ o) r (args_ o) (db_is_open_ o) (pause_thread_ o)
    (started_ o) (msg_seq_number_ o) (pdb o) (pusher_threads o).
Definition set_flags (open pause started : bool) (o : pusher_object) : pusher_object :=
  mkObject (settings_ o) (soh_ o) (sending_time_tag_ o) (error_ o) (rings_ o) (args_ o) open pause started
    (msg_seq_number_ o) (pdb o) (pusher_threads o).
Definition set_pdb (db : MsgDB) (o : pusher_object) : pusher_object :=
  mkObject (settings_ o) (soh_ o) (sending_time_tag_ o) (error_ o) (rings_ o) (args_ o) (db_is_open_ o) (pause_thread_ o)
    (started_ o) (msg_seq_number_ o) db (pusher_threads o).
Definition set_seq (n : Z) (o : pusher_object) : pusher_object :=
  mkObject (settings_ o) (soh_ o) (sending_time_tag_ o) (error_ o) (rings_ o) (args_ o) (db_is_open_ o) (pause_thread_ o)
    (started_ o) n (pdb o) (pusher_threads o).
Definition set_settings (s : PusherControl.settings) (o : pusher_object) : pusher_object :=
  mkObject s (soh_ o) (sending_time_tag_ o) (error_ o) (rings_ o) (args_ o) (db_is_open_ o) (pause_thread_ o)
    (started_ o) (msg_seq_number_ o) (pdb o) (pusher_threads o).
Definition set_thread (args : bool) (threads : nat) (o : pusher_object) : pusher_object :=
  mkObject (settings_ o) (soh_ o) (sending_time_tag_ o) (error_ o) (rings_ o) args (db_is_open_ o) (pause_thread_ o)
    (started_ o) (msg_seq_number_ o) (pdb o) threads.

(** The answers of the allocator, of the calls to SQLite, and of
    [create_detached_thread]. *)
Record pusher_answers := mkPusherAnswers {
  alfa_ok : bool; bravo_ok : bool; charlie_ok : bool; romeo_ok : bool; path_ok : bool;
  open_rc : nat → Z; open_handle : bool; close_rc : nat → Z; seqnum_rc : Z; args_ok : bool; thread_ok : bool }.

(** ** The thread's answers, [stop] and [start] *)

(** A paused thread closes the database and clears the flag, one that is not
    opens it again; a close that fails is tried again without end. *)
Definition thread_pauses (a : pusher_answers) (o : pusher_object) : call pusher_object :=
  let '(r, db) := close (close_rc a) (pdb o) in
  if r =? 0 then Waits else Returns (set_pdb db (set_flags false (pause_thread_ o) (started_ o) o)).

Definition thread_resumes (a : pusher_answers) (o : pusher_object) : call pusher_object :=
  match open (open_rc a) (open_handle a) (close_rc a) (pdb o) with
  | Some (1, db) => Returns (set_pdb db (set_flags true (pause_thread_ o) (started_ o) o))
  | _ => Undefined   (* abort() *)
  end.

Definition stop (a : pusher_answers) (o : pusher_object) : call pusher_object :=
  if negb (started_ o) then Returns o
  else
    let o := set_flags (db_is_open_ o) true (started_ o) o in
    o ← (if negb (db_is_open_ o) then Returns o
         else if (pusher_threads o =? 0)%nat then Waits else thread_pauses a o);
    Returns (set_flags (db_is_open_ o) (pause_thread_ o) false o).

(** The path the database has, in the settings and back. *)
Definition with_path (db : MsgDB) (s : PusherControl.settings) : PusherControl.settings :=
  PusherControl.mkSettings (PusherControl.FIX_start_bytes_ s) (PusherControl.FIX_start_bytes_length_ s)
    (PusherControl.fix_ver_ s) (PusherControl.sink_fd_ s) (db_path_ db) (PusherControl.closed_fds s).

Definition set_path (p : option (list Z)) (db : MsgDB) : MsgDB :=
  mkDB (db_ db) p (insert_recv_msg_statement_ db) (insert_sent_msg_statement_ db) (max_recv_seqnum_statement_ db)
    (max_sent_seqnum_statement_ db) (files db).

Definition start (a : pusher_answers) (local_cache FIX_ver : option (list Z)) (sink_fd : Z) (o : pusher_object)
    : call (Z * pusher_object) :=
  if started_ o then Returns (PusherControl.start_when_started local_cache FIX_ver sink_fd, o)
  else
    '(ok, s) ← defined (PusherControl.start_settings (soh_ o) (path_ok a) local_cache FIX_ver sink_fd
                          (with_path (pdb o) (settings_ o)));
    let o := set_pdb (set_path (PusherControl.db_path s) (pdb o)) (set_settings s o) in
    if negb (ok : bool) then Returns (0, o)
    else
      let o := set_flags (db_is_open_ o) false (started_ o) o in
      o ← (if db_is_open_ o then Returns o
           else if (pusher_threads o =? 0)%nat then Waits else thread_resumes a o);
      Returns (1, set_flags (db_is_open_ o) (pause_thread_ o) true o).

(** ** [init] *)

Definition with_alfa r (o : pusher_object) := set_rings (mkRings r (bravo_ (rings_ o)) (charlie_ (rings_ o)) (romeo_ (rings_ o))) o.
Definition with_bravo r (o : pusher_object) := set_rings (mkRings (alfa_ (rings_ o)) r (charlie_ (rings_ o)) (romeo_ (rings_ o))) o.
Definition with_charlie r (o : pusher_object) := set_rings (mkRings (alfa_ (rings_ o)) (bravo_ (rings_ o)) r (romeo_ (rings_ o))) o.
Definition with_romeo r (o : pusher_object) := set_rings (mkRings (alfa_ (rings_ o)) (bravo_ (rings_ o)) (charlie_ (rings_ o)) r) o.

(** The last stage: the database, the sequence number, the arguments and the
    thread.  It is left by [goto err] where it answers [false]. *)
Definition init_thread (a : pusher_answers) (local_cache : option (list Z)) (o : pusher_object)
    : call (bool * pusher_object) :=
  let o := set_flags (db_is_open_ o) true (started_ o) o in
  match local_cache with
  | None => Returns (false, o)
  | Some path =>
      let '(r, db) := set_db_path (path_ok a) path (pdb o) in
      let o := set_pdb db o in
      if r =? 0 then Returns (false, o)
      else
        '(r, db) ← defined (open (open_rc a) (open_handle a) (close_rc a) (pdb o));
        let o := set_pdb db o in
        if r =? 0 then Returns (false, o)
        else
          let o := set_flags true (pause_thread_ o) (started_ o) o in
          let '(r, n) := get_latest_sent_seqnum (seqnum_rc a) (msg_seq_number_ o) (pdb o) in
          let o := set_seq n o in
          if r =? 0 then Returns (false, o)
          else if negb (args_ok a) then Returns (false, o)
          else if negb (thread_ok a) then Returns (false, set_thread false (pusher_threads o) o)
          else Returns (true, set_thread true (S (pusher_threads o)) o)
  end.

Definition init_rings (a : pusher_answers) : list (pusher_object → call (bool * pusher_object)) :=
  [λ o, match alfa_ (rings_ o) with
        | Some _ => Returns (true, o)
        | None => if alfa_ok a then Returns (true, with_alfa (Some alfa_init) o) else Returns (false, o)
        end;
   λ o, match bravo_ (rings_ o) with
        | Some _ => Returns (true, o)
        | None => if bravo_ok a then Returns (true, with_bravo (Some bravo_init) o) else Returns (false, o)
        end;
   λ o, match charlie_ (rings_ o) with
        | Some _ => Returns (true, o)
        | None => if charlie_ok a then Returns (true, with_charlie (Some charlie_init) o) else Returns (false, o)
        end;
   λ o, match romeo_ (rings_ o) with
        | Some _ => Returns (true, o)
        | None =>
            if romeo_ok a then
              '(s, n, r) ← barrier_register romeo_init; Returns (true, with_romeo (Some (r, s, n)) o)
            else Returns (false, o)
        end].

Definition pusher_stage (f : pusher_object → call (bool * pusher_object)) (x : bool * pusher_object)
    : call (bool * pusher_object) := if x.1 then f x.2 else Returns x.

Definition init (a : pusher_answers) (local_cache : option (list Z)) (o : pusher_object) : call (bool * pusher_object) :=
  o ← stop a o;
  foldl (λ x f, x ≫= pusher_stage f) (Returns (true, o))
    (init_rings a ++ [λ o, if args_ o then Returns (true, o) else init_thread a local_cache o]).

(** ** Lemmas *)

(** A complete object: all rings and the arguments. *)
Definition complete (o : pusher_object) : Prop :=
  is_Some (alfa_ (rings_ o)) ∧ is_Some (bravo_ (rings_ o)) ∧ is_Some (charlie_ (rings_ o)) ∧ is_Some (romeo_ (rings_ o))
  ∧ args_ o = true.

(** Everything the operating system is asked succeeds, but perhaps the last two
    requests; [ret] is what the query for the number steps to. *)
Definition allocated (a : pusher_answers) : Prop :=
  alfa_ok a = true ∧ bravo_ok a = true ∧ charlie_ok a = true ∧ romeo_ok a = true ∧ path_ok a = true
  ∧ (∀ n, open_rc a n = SQLITE_OK).

Definition romeo_registered : ring bravo_t :=
  mkRing (zlen (buffer romeo_init) - 1) 0 0 0 [1] (buffer romeo_init).

Lemma romeo_register : barrier_register romeo_init = Returns (1, O, romeo_registered).
Proof. unfold romeo_init, ROMEO_ENTRY_PROCESSORS. by rewrite register_fresh. Qed.

Definition all_rings : rings := mkRings (Some alfa_init) (Some bravo_init) (Some charlie_init) (Some (romeo_registered, 1, O)).

(** A database that has been opened. *)
Definition opened (path : list Z) (fs : gmap (list Z) tables) : MsgDB :=
  mkDB (Some path) (Some path) (Some ∅) (Some ∅) true true (<[path := default empty_tables (fs !! path)]> fs).

Lemma open_ok rc handle crc db path : (∀ n, rc n = SQLITE_OK) → db_ db = None → db_path_ db = Some path →
  open rc handle crc db = Some (1, opened path (files db)).
Proof. intros Hrc Hdb Hp. unfold open. rewrite Hdb, Hp, !Hrc. reflexivity. Qed.

Lemma set_db_path_ok path db : set_db_path true path db = (1, set_path (Some path) db).
Proof. done. Qed.

Ltac call_step := cbn [mbind call_mbind cbind defined].

Lemma init_thread_runs a path o :
  path_ok a = true → (∀ n, open_rc a n = SQLITE_OK) → db_ (pdb o) = None →
  init_thread a (Some path) o
  = let n := get_latest_sent_seqnum (seqnum_rc a) (msg_seq_number_ o) (opened path (files (pdb o))) in
    let o' := set_seq n.2 (set_pdb (opened path (files (pdb o))) (set_flags true true (started_ o) o)) in
    Returns (if n.1 =? 0 then (false, o')
             else if negb (args_ok a) then (false, o')
             else if negb (thread_ok a) then (false, set_thread false (pusher_threads o) o')
             else (true, set_thread true (S (pusher_threads o)) o')).
Proof.
  intros Hp Hrc Hdb. unfold init_thread. rewrite Hp, set_db_path_ok. cbn [Z.eqb].
  change (pdb (set_pdb ?d _)) with d.
  rewrite (open_ok _ _ _ _ path) by done. call_step.
  change (files (set_path _ _)) with (files (pdb o)).
  change (msg_seq_number_ (set_flags _ _ _ _)) with (msg_seq_number_ o).
  change (pdb (set_flags _ _ _ (set_pdb ?d _))) with d.
  destruct (get_latest_sent_seqnum _ _ _) as [r n]. cbn [fst snd].
  destruct (r =? 0); [done|]. destruct (args_ok a), (thread_ok a); done.
Qed.

(** [init] of an object without rings. *)
Lemma init_fresh a path o :
  allocated a → started_ o = false → rings_ o = mkRings None None None None → args_ o = false →
  init a (Some path) o = init_thread a (Some path) (set_rings all_rings o).
Proof.
  intros (Ha & Hb & Hc & Hr & _) Hs Hrings Hargs. unfold init, stop. rewrite Hs. cbn [negb]. call_step.
  cbn [init_rings app foldl]. call_step. unfold pusher_stage. cbn [fst snd]. rewrite Hrings. cbn [alfa_]. rewrite Ha. call_step.
  cbn [fst snd]. unfold with_alfa. rewrite Hrings. cbn [set_rings rings_ alfa_ bravo_ charlie_ romeo_]. rewrite Hb. call_step.
  cbn [fst snd]. unfold with_bravo. cbn [set_rings rings_ alfa_ bravo_ charlie_ romeo_]. rewrite Hc. call_step.
  cbn [fst snd]. unfold with_charlie. cbn [set_rings rings_ alfa_ bravo_ charlie_ romeo_]. rewrite Hr, romeo_register. call_step.
  cbn [fst snd]. unfold with_romeo. cbn [set_rings rings_ alfa_ bravo_ charlie_ romeo_ args_]. by rewrite Hargs.
Qed.

(** The last number in a file. *)
Definition last_sent (path : list Z) (fs : gmap (list Z) tables) : Z :=
  u64 (column_int64 (max_seqnum (sent_messages (default empty_tables (fs !! path))))).

Lemma latest_opened path fs n :
  get_latest_sent_seqnum SQLITE_ROW n (opened path fs) = (1, last_sent path fs).
Proof.
  unfold get_latest_sent_seqnum, latest, opened, last_sent. cbn -[max_seqnum u64 lookup].
  unfold file_tables. cbn [files]. by rewrite lookup_insert_eq.
Qed.

(** ** Properties *)

(** C18: a first [init] that gets all it asks for leaves a pusher that is ready
    for [start]: empty rings, romeo with its processor, the database open at
    the path, one thread, paused, and the sequence number the last one stored
    in that file, or 0. *)
Theorem pusher_init_ready a soh fs path :
  allocated a → seqnum_rc a = SQLITE_ROW → args_ok a = true → thread_ok a = true →
  ∃ o, init a (Some path) (FIX_Pusher soh fs) = Returns (true, o)
    ∧ rings_ o = all_rings ∧ complete o ∧ pdb o = opened path fs
    ∧ msg_seq_number_ o = last_sent path fs
    ∧ db_is_open_ o = true ∧ pause_thread_ o = true ∧ started_ o = false ∧ pusher_threads o = 1%nat.
Proof.
  intros Ha Hrow Hargs Hthr. rewrite init_fresh by done. destruct Ha as (_ & _ & _ & _ & Hp & Hrc).
  rewrite init_thread_runs by done. rewrite Hrow, Hargs, Hthr. cbv zeta.
  change (files (pdb (set_rings all_rings (FIX_Pusher soh fs)))) with fs. rewrite latest_opened. cbn [fst snd Z.eqb negb].
  eexists. split; [reflexivity|]. unfold complete. cbn. split_and!; eauto.
Qed.

(** an [init] that fails at the end leaves the database flag set without a
    thread: [start] then reports a started pusher that nobody serves, and
    neither [stop] nor another [init] ever returns. *)
Theorem init_failure_pretends a soh fs path :
  allocated a → seqnum_rc a = SQLITE_ROW → args_ok a && thread_ok a = false →
  ∃ o, init a (Some path) (FIX_Pusher soh fs) = Returns (false, o) ∧ pusher_threads o = O
    ∧ ∀ b cache ver fd s, PusherControl.start_settings soh (path_ok b) cache ver fd (with_path (opened path fs) PusherControl.make_settings)
                        = Some (true, s) →
        ∃ o', start b cache ver fd o = Returns (1, o') ∧ started_ o' = true ∧ pusher_threads o' = O
          ∧ ∀ c p, stop c o' = Waits ∧ init c p o' = Waits.
Proof.
  intros Ha Hrow Hfail. rewrite init_fresh by done. destruct Ha as (_ & _ & _ & _ & Hp & Hrc).
  rewrite init_thread_runs by done. rewrite Hrow. cbv zeta.
  change (files (pdb (set_rings all_rings (FIX_Pusher soh fs)))) with fs. rewrite latest_opened. cbn [fst snd Z.eqb].
  destruct (args_ok a); cbn [negb]; [destruct (thread_ok a); [done|]; cbn [negb]|];
    (eexists; split; [reflexivity|]; split; [done|]; intros b cache ver fd s Hs; unfold start;
     match goal with |- context [soh_ ?x] => change (soh_ x) with soh; change (settings_ x) with PusherControl.make_settings;
       change (pdb x) with (opened path fs); change (started_ x) with false end;
     cbv iota; rewrite Hs; call_step; cbn [negb]; eexists; split; [reflexivity|]; done).
Qed.

(** a repeated [init] is [stop]: once everything is there it answers 1 and
    changes nothing else; the path it is given, the documentation's local
    database, is not looked at. *)
Theorem init_again_ignores_path a local_cache o : complete o →
  init a local_cache o = (o ← stop a o; Returns (true, o)).
Proof.
  intros Hc. unfold init. destruct (stop a o) as [o1| |] eqn:Es; call_step; [|done..].
  assert (Hc1 : complete o1).
  { unfold stop in Es. destruct (started_ o); cbn [negb] in Es; [|by injection Es as <-].
    unfold thread_pauses in Es. destruct (close (close_rc a) _) as [r db].
    revert Es. cbn [set_flags db_is_open_ pusher_threads]. destruct (db_is_open_ o); cbn [negb]; call_step; [|by intros [= <-]].
    destruct (pusher_threads o =? 0)%nat; [done|]. destruct (r =? 0); [done|]. call_step. by intros [= <-]. }
  destruct Hc1 as ([x Hx] & [y Hy] & [z Hz] & [w Hw] & Hargs).
  cbn [init_rings app foldl]. call_step. unfold pusher_stage. cbn [fst snd]. rewrite Hx. call_step.
  cbn [fst snd]. rewrite Hy. call_step. cbn [fst snd]. rewrite Hz. call_step. cbn [fst snd]. rewrite Hw. call_step.
  cbn [fst snd]. by rewrite Hargs.
Qed.

(** another database: [start] with a path on a stopped pusher whose thread
    has closed the old database opens the new one but keeps the sequence number
    of the old one, whatever the new one holds. *)
Theorem start_keeps_number a ver fd s path o :
  started_ o = false → pusher_threads o ≠ O → db_is_open_ o = false → db_ (pdb o) = None → (∀ n, open_rc a n = SQLITE_OK) →
  PusherControl.start_settings (soh_ o) (path_ok a) (Some path) ver fd (with_path (pdb o) (settings_ o)) = Some (true, s) →
  ∃ o', start a (Some path) ver fd o = Returns (1, o')
    ∧ db_ (pdb o') = Some path ∧ msg_seq_number_ o' = msg_seq_number_ o ∧ started_ o' = true ∧ db_is_open_ o' = true.
Proof.
  intros Hs Ht Hflag Hdb Hrc Hset. unfold start. rewrite Hs, Hset. call_step. cbn [negb].
  change (db_is_open_ (set_flags ?f _ _ _)) with f. change (db_is_open_ (set_pdb _ _)) with (db_is_open_ o). rewrite Hflag.
  change (pusher_threads (set_flags _ _ _ _)) with (pusher_threads o). rewrite (proj2 (Nat.eqb_neq _ 0)) by done.
  assert (Hpath : PusherControl.db_path s = Some path).
  { unfold PusherControl.start_settings in Hset.
    repeat (match type of Hset with
            | @mbind option _ _ _ _ ?x = _ => destruct x; cbn [mbind option_bind] in Hset; [|done]
            | match ?x with _ => _ end = _ => destruct x
            end; try done).
    all: apply Some_inj, pair_eq in Hset as [Hok <-]; cbn; by rewrite Hok. }
  unfold thread_resumes. rewrite (open_ok _ _ _ _ path) by done. call_step. eexists. by split.
Qed.

(** ** Concrete runs *)

Definition demo_all_ok (thread : bool) : pusher_answers :=
  mkPusherAnswers true true true true true (λ _, SQLITE_OK) true (λ _, SQLITE_OK) SQLITE_ROW true thread.

Lemma demo_allocated thread : allocated (demo_all_ok thread).
Proof. by repeat split. Qed.

Definition demo_cache : list Z := bytes_of_string "/var/fix.db".
Definition demo_row : sent_row := mkSentRow SqlNull SqlNull SqlNull SqlNull SqlNull SqlNull SqlNull.
Definition demo_files : gmap (list Z) tables :=
  {[demo_cache := mkTables ∅ (<[3 := demo_row]> {[17 := demo_row]})]}.
Definition demo_version : list Z := bytes_of_string "FIX.4.4".

Lemma pusher_init_ready_witness :
  ∃ o, init (demo_all_ok true) (Some demo_cache) (FIX_Pusher 1 demo_files) = Returns (true, o)
    ∧ msg_seq_number_ o = 17 ∧ pusher_threads o = 1%nat.
Proof.
  destruct (pusher_init_ready (demo_all_ok true) 1 demo_files demo_cache (demo_allocated true) eq_refl eq_refl eq_refl)
    as (o & E & _ & _ & _ & Hn & _ & _ & _ & Ht).
  exists o. split; [exact E|]. split; [|exact Ht]. rewrite Hn. vm_compute. reflexivity.
Defined.

Lemma init_failure_pretends_witness :
  ∃ o o', init (demo_all_ok false) (Some demo_cache) (FIX_Pusher 1 demo_files) = Returns (false, o)
    ∧ start (demo_all_ok true) None (Some demo_version) 5 o = Returns (1, o') ∧ started_ o' = true
    ∧ stop (demo_all_ok true) o' = Waits.
Proof.
  destruct (init_failure_pretends (demo_all_ok false) 1 demo_files demo_cache (demo_allocated false) eq_refl eq_refl)
    as (o & E & _ & H).
  destruct (H (demo_all_ok true) None (Some demo_version) 5
              (default PusherControl.make_settings (snd <$> PusherControl.start_settings 1 true None (Some demo_version) 5
                 (with_path (opened demo_cache demo_files) PusherControl.make_settings))))
    as (o' & Hs & Hst & _ & Hstop); [vm_compute; reflexivity|].
  exists o, o'. split; [exact E|]. split; [exact Hs|]. split; [exact Hst|]. apply (Hstop (demo_all_ok true) None).
Defined.

(** The object of [pusher_init_ready], given another path and then none. *)
Definition demo_ready : pusher_object :=
  mkObject PusherControl.make_settings 1 [] 0 all_rings true false true false 17 (set_path (Some demo_cache) (make_db demo_files)) 1.

Lemma init_again_ignores_path_witness :
  complete demo_ready ∧ init (demo_all_ok true) None demo_ready = Returns (true, demo_ready).
Proof.
  assert (Hc : complete demo_ready) by (unfold complete, demo_ready; cbn [rings_ args_ alfa_ bravo_ charlie_ romeo_ all_rings]; split_and!; eauto).
  split; [exact Hc|]. exact (init_again_ignores_path (demo_all_ok true) None demo_ready Hc).
Defined.

(** The other database has never sent a message. *)
Lemma start_keeps_number_witness :
  ∃ o', start (demo_all_ok true) (Some (bytes_of_string "/var/new.db")) (Some demo_version) 5 demo_ready = Returns (1, o')
    ∧ msg_seq_number_ o' = 17 ∧ last_sent (bytes_of_string "/var/new.db") demo_files = 0.
Proof.
  destruct (start_keeps_number (demo_all_ok true) (Some demo_version) 5
              (default PusherControl.make_settings (snd <$> PusherControl.start_settings 1 true (Some (bytes_of_string "/var/new.db"))
                 (Some demo_version) 5 (with_path (pdb demo_ready) (settings_ demo_ready))))
              (bytes_of_string "/var/new.db") demo_ready eq_refl ltac:(discriminate) eq_refl eq_refl (λ _, eq_refl) ltac:(vm_compute; reflexivity))
    as (o' & E & _ & Hn & _).
  exists o'. split; [exact E|]. split; [exact Hn|]. vm_compute. reflexivity.
Defined.
