(* ===== verification/PusherQueues.v ===== *)
(** * The pusher on its rings
    ([src/applib/fixio/fix_pusher.cpp], [push], [session_push], the three
    batching functions and a round of the thread)

    [Pusher] and [PusherThread] model what is done with entries; here the entries
    are those of the rings alfa, bravo and charlie ([RingQueue]), which the
    thread reads with cursors of its own.  A call, or a round of the thread,
    happens at once; one that would wait for another thread, or for the kernel,
    is [Waits].  [pusher_spec] is what a client may rely on: three bounded queues
    that each round sends completely, alfa first, under consecutive numbers. *)
From S2P Require Import Prelude Primitives FixMsgUtils FixTypes FixFields FixMessageTX Pusher PusherThread.
From S2P Require Import Disruptor RingQueue.
From S2P Require PusherInit Splitter Delivery.

(** ** State *)

(** [vdata] is the vector the thread allocates; [alive] tells that it has not
    ended. *)
Record pusher_queues := mkPusherQueues {
  alfa : queue (list Z); bravo : queue bravo_t; charlie : queue (list Z);
  msg_seq_number : Z; error : Z; vdata : list iovec; alive : bool }.

Definition set_alfa (q : queue (list Z)) (s : pusher_queues) : pusher_queues :=
  mkPusherQueues q (bravo s) (charlie s) (msg_seq_number s) (error s) (vdata s) (alive s).
Definition set_bravo (q : queue bravo_t) (s : pusher_queues) : pusher_queues :=
  mkPusherQueues (alfa s) q (charlie s) (msg_seq_number s) (error s) (vdata s) (alive s).
Definition set_charlie (q : queue (list Z)) (s : pusher_queues) : pusher_queues :=
  mkPusherQueues (alfa s) (bravo s) q (msg_seq_number s) (error s) (vdata s) (alive s).

(** ** The client's calls *)

Definition push_call (malloc : Z → option (list Z)) (now ttl : Z * Z) (data msg_type : list Z) (s : pusher_queues)
    : call (Z * pusher_queues) :=
  a ← next_entry (alfa s);
  b ← next_entry (bravo s);
  '(r, effect) ← defined (push malloc now (error s) a b ttl data msg_type);
  match effect with
  | PushNothing => Returns (r, s)
  | PushAlfa e => q ← commit e (alfa s); Returns (r, set_alfa q s)
  | PushBravo e => q ← commit e (bravo s); Returns (r, set_bravo q s)
  | PushCharlie e => q ← commit e (charlie s); Returns (r, set_charlie q s)
  end.

Definition session_push_call (now ttl : Z * Z) (data msg_type : list Z) (s : pusher_queues)
    : call (Z * pusher_queues) :=
  c ← next_entry (charlie s);
  '(r, effect) ← defined (session_push now (error s) c ttl data msg_type);
  match effect with
  | PushCharlie e => q ← commit e (charlie s); Returns (r, set_charlie q s)
  | _ => Returns (r, s)
  end.

(** ** The thread *)

Section Round.
Context (IOV_MAX : Z) (args : pusher_thread_args_t).

Section Ring.
(** [content] is the buffer of an entry, [store] changes it. *)
Context {A : Type} (content : A → option (list Z)) (store : list Z → A → A).

(** The loop of a batching function: [push_loop] over the entries of the ring,
    [k] rounds from [n] on, where the messages are completed in place. *)
Fixpoint ring_loop (k : nat) (n : Z) (r : ring A) (b : batch) : option (option Z * batch * ring A) :=
  match k with
  | O => '(ret, b) ← flush b; Some (ret, b, r)
  | S k =>
      e ← show_entry r n;
      buf ← content e;
      len ← get_length_of_partial_msg buf;
      c ← complete_FIX_message (b_seq b) buf len args;
      b ← batch_one args b (Some buf);
      let r := store_entry n (store (c_buffer c) e) r in
      if IOV_MAX =? b_idx b then
        '(ret, b) ← flush b;
        match ret with
        | Some 0 => ring_loop k (n + 1) r (reset_idx b)
        | _ => Some (ret, b, r)
        end
      else ring_loop k (n + 1) r b
  end.

(** [push_alfa], [push_bravo] and [push_charlie]: the entries are released, and
    the cursor moves on, when all has been written. *)
Definition push_ring (q : queue A) (seq : Z) (kernel : list wret) (vdata : list iovec)
    : option (option Z * batch * queue A) :=
  let b := mkBatch seq 0 0 vdata [] kernel [] in
  match wait_for_nonblocking (cursor q) (ring_ q) with
  | None => Some (Some 0, b, q)
  | Some upper =>
      '(ret, b, r) ← ring_loop (Z.to_nat (upper + 1 - cursor q)) (cursor q) (ring_ q) b;
      match ret with
      | Some 0 => Some (ret, b, mkQueue (release_entry (reg_number q) upper r) (u64 (upper + 1)) (reg_number q))
      | _ => Some (ret, b, mkQueue r (cursor q) (reg_number q))
      end
  end.
End Ring.

Definition plain_content (e : list Z) : option (list Z) := Some e.
Definition plain_store (buf e : list Z) : list Z := buf.
Definition bravo_store (buf : list Z) (e : bravo_t) : bravo_t := mkBravo (allocated_size e) (Some buf).

Definition push_alfa_ring := push_ring plain_content plain_store.
Definition push_bravo_ring := push_ring bdata bravo_store.
Definition push_charlie_ring := push_ring plain_content plain_store.

(** After an error the thread unregisters and ends. *)
Definition thread_ends (e : Z) (s : pusher_queues) : pusher_queues :=
  mkPusherQueues (unregister_queue (alfa s)) (unregister_queue (bravo s)) (unregister_queue (charlie s))
    (msg_seq_number s) e (vdata s) false.

(** A round of the thread that is not paused: what it writes and what it
    records. *)
Definition thread_round (kernel : list wret) (s : pusher_queues) : call (list Z * list sent_record * pusher_queues) :=
  if negb (alive s) then Waits
  else
    '(ra, ba, qa) ← defined (push_alfa_ring (alfa s) (msg_seq_number s) kernel (vdata s));
    let s := mkPusherQueues qa (bravo s) (charlie s) (b_seq ba) (error s) (b_vdata ba) true in
    match ra with
    | None => Waits
    | Some 0 =>
        '(rb, bb, qb) ← defined (push_bravo_ring (bravo s) (msg_seq_number s) (b_kernel ba) (vdata s));
        let s := mkPusherQueues (alfa s) qb (charlie s) (b_seq bb) (error s) (b_vdata bb) true in
        match rb with
        | None => Waits
        | Some 0 =>
            '(rc, bc, qc) ← defined (push_charlie_ring (charlie s) (msg_seq_number s) (b_kernel bb) (vdata s));
            let s := mkPusherQueues (alfa s) (bravo s) qc (b_seq bc) (error s) (b_vdata bc) true in
            match rc with
            | None => Waits
            | Some 0 => Returns (b_out ba ++ b_out bb ++ b_out bc, b_sent ba ++ b_sent bb ++ b_sent bc, s)
            | Some e => Returns (b_out ba ++ b_out bb ++ b_out bc, b_sent ba ++ b_sent bb ++ b_sent bc, thread_ends e s)
            end
        | Some e => Returns (b_out ba ++ b_out bb, b_sent ba ++ b_sent bb, thread_ends e s)
        end
    | Some e => Returns (b_out ba, b_sent ba, thread_ends e s)
    end.
End Round.

(** The thread begins: the rings of [PusherInit], and the number [init] read. *)
Definition thread_starts (seq : Z) (vdata : list iovec) (a : ring (list Z)) (b : ring bravo_t) (c : ring (list Z))
    : call pusher_queues :=
  a ← register_queue a;
  b ← register_queue b;
  c ← register_queue c;
  Returns (mkPusherQueues a b c seq 0 vdata true).

(** ** The specification *)

(** A client's call with a partial message [x :: inner ++ "10="] as [expose]
    hands it out, or a round of the thread with the kernel's answers. *)
Inductive pusher_op :=
  | Push (now ttl : Z * Z) (mt : list Z) (x : Z) (inner : list Z)
  | SessionPush (now ttl : Z * Z) (mt : list Z) (x : Z) (inner : list Z)
  | Round (kernel : list wret).

Inductive outcome := Returned (r : Z) | Wrote (bytes : list Z) (records : list sent_record).

(** What a client sees: three bounded queues, each one place smaller once
    something has been sent from it, and the number of the last message. *)
Record pusher_spec := mkSpec {
  s_alfa : bool * list waiting; s_bravo : bool * list waiting; s_charlie : bool * list waiting; s_seq : Z }.

Definition enqueue (size : Z) (w : waiting) (q : bool * list waiting) : call (bool * list waiting) :=
  if zlen q.2 <? (if q.1 then size - 1 else size) then Returns (q.1, q.2 ++ [w]) else Waits.

Definition emptied (q : bool * list waiting) : bool * list waiting :=
  match q.2 with [] => q | _ => (true, []) end.

(** The message an operation queues. *)
Definition queued_as (now ttl : Z * Z) (mt : list Z) (x : Z) (inner : list Z) : waiting :=
  let tv := expire_time now ttl in mkWaiting mt (u64 tv.1, u64 tv.2) x inner.

(** The message a call queues, if it accepts it. *)
Definition accepted (o : pusher_op) : list waiting :=
  match o with
  | Push now ttl mt x inner => if 16 <=? zlen mt then [] else [queued_as now ttl mt x inner]
  | SessionPush now ttl mt x inner =>
      let w := queued_as now ttl mt x inner in
      if 16 <=? zlen mt then [] else if zlen (w_partial w) <=? 244 then [w] else []
  | Round _ => []
  end.

Fixpoint skip_interrupts (kernel : list wret) : list wret :=
  match kernel with
  | WErr e :: rest => if (e =? EAGAIN) || (e =? EINTR) then skip_interrupts rest else kernel
  | _ => kernel
  end.

Section Spec.
Context (IOV_MAX : Z) (start : list Z) (soh : Z) (malloc : Z → option (list Z)).
#[local] Abbreviation args := (mkArgs start (zlen start) soh).

Definition run_pusher_op (o : pusher_op) (s : pusher_queues) : call (list outcome * pusher_queues) :=
  match o with
  | Push now ttl mt x inner =>
      '(r, s) ← push_call malloc now ttl (x :: inner ++ bytes_of_string "10=") (mt ++ [0]) s;
      Returns ([Returned r], s)
  | SessionPush now ttl mt x inner =>
      '(r, s) ← session_push_call now ttl (x :: inner ++ bytes_of_string "10=") (mt ++ [0]) s;
      Returns ([Returned r], s)
  | Round kernel =>
      '(bytes, records, s) ← thread_round IOV_MAX args kernel s;
      Returns ([Wrote bytes records], s)
  end.

(** A kernel that takes the whole vector, after any number of interruptions;
    nothing is said about another one, nor about a batch that fills the vector
    ([PusherThread] shows what then happens). *)
Definition takes_all (kernel : list wret) (seq : Z) (ws : list waiting) : call (list wret) :=
  match ws with
  | [] => Returns kernel
  | _ =>
      match skip_interrupts kernel with
      | WOk n :: rest =>
          if (zlen ws <? IOV_MAX) && (n =? zlen (stream start soh seq ws)) then Returns rest else Undefined
      | _ => Undefined
      end
  end.

(** The error a round meets, with the messages written before it and those
    recorded by then: the kernel takes the batches [qs] whole up to one, and for
    that one, smaller than the vector, it answers the error before it has taken
    anything of it. *)
Fixpoint round_error (kernel : list wret) (seq : Z) (qs : list (list waiting)) : option (Z * list waiting * list waiting) :=
  match qs with
  | [] => None
  | ws :: qs =>
      match takes_all kernel seq ws with
      | Returns kernel =>
          '(e, written, recorded) ← round_error kernel (seq + zlen ws) qs; Some (e, ws ++ written, ws ++ recorded)
      | _ =>
          match skip_interrupts kernel with
          | WErr e :: _ => if (zlen ws <? IOV_MAX) && negb (e =? 0) then Some (e, [], ws) else None
          | _ => None
          end
      end
  end.

Definition spec_op (o : pusher_op) (t : pusher_spec) : call (list outcome * pusher_spec) :=
  match o with
  | Push now ttl mt x inner =>
      let w := queued_as now ttl mt x inner in
      if 16 <=? zlen mt then Returns ([Returned EINVAL], t)
      else if zlen (w_partial w) <=? 3828 then
        q ← enqueue 1024 w (s_alfa t); Returns ([Returned 0], mkSpec q (s_bravo t) (s_charlie t) (s_seq t))
      else
        q ← enqueue 128 w (s_bravo t); Returns ([Returned 0], mkSpec (s_alfa t) q (s_charlie t) (s_seq t))
  | SessionPush now ttl mt x inner =>
      let w := queued_as now ttl mt x inner in
      if 16 <=? zlen mt then Returns ([Returned EINVAL], t)
      else if zlen (w_partial w) <=? 244 then
        q ← enqueue 512 w (s_charlie t); Returns ([Returned 0], mkSpec (s_alfa t) (s_bravo t) q (s_seq t))
      else Returns ([Returned EINVAL], t)
  | Round kernel =>
      let ws := (s_alfa t).2 ++ (s_bravo t).2 ++ (s_charlie t).2 in
      k ← takes_all kernel (s_seq t) (s_alfa t).2;
      k ← takes_all k (s_seq t + zlen (s_alfa t).2) (s_bravo t).2;
      _ ← takes_all k (s_seq t + zlen (s_alfa t).2 + zlen (s_bravo t).2) (s_charlie t).2;
      Returns ([Wrote (stream start soh (s_seq t) ws) (sent_records (s_seq t) ws)],
               mkSpec (emptied (s_alfa t)) (emptied (s_bravo t)) (emptied (s_charlie t)) (s_seq t + zlen ws))
  end.

(** A message type is a C string, and a message is shorter than 2 GB. *)
Definition op_ok (o : pusher_op) : Prop :=
  match o with
  | Push _ _ mt _ inner | SessionPush _ _ mt _ inner => Forall (λ c, c ≠ 0) mt ∧ zlen inner < 2 ^ 31
  | Round _ => True
  end.

(** ** Lemmas: messages *)

Definition small (w : waiting) : Prop := zlen (w_inner w) < 2 ^ 31 ∧ zlen (w_type w) < 16.

Lemma length_partial w : zlen (w_partial w) = zlen (w_inner w) + 4.
Proof. unfold w_partial. change (bytes_of_string "10=") with [49; 48; 61]. llia. Qed.

Lemma numbered_small n w : zlen start ≤ 31 → 0 ≤ n < 2 ^ 64 → small w → zlen (numbered start soh n w) < 2 ^ 32.
Proof.
  intros Hs Hn [Hi Ht]. unfold numbered, fix_message. set (body := fix_body _ _ _ _).
  assert (Hd : zlen (dec n) ≤ 20) by (apply dec_length_le; lia).
  assert (Hb : zlen body < 2 ^ 31 + 50) by (unfold body; rewrite length_fix_body; llia).
  assert (Hbd : zlen (dec (zlen body)) ≤ 11) by (apply dec_length_le; lia).
  change (bytes_of_string "10=") with [49; 48; 61].
  clearbody body. set (m := start ++ _). assert (Hm : zlen m < 2 ^ 31 + 100) by (unfold m; rewrite !length_app, length_cons; cbn [length]; lia).
  clearbody m.
  assert (Hp : zlen (padded 3 (byte_sum m mod 256)) = 3) by (by rewrite length_padded). llia.
Qed.

Lemma stream_small ws : ∀ seq, zlen start ≤ 31 → 0 ≤ seq → seq + zlen ws < 2 ^ 64 → Forall small ws →
  zlen (stream start soh seq ws) ≤ 2 ^ 32 * zlen ws.
Proof.
  induction ws as [|w ws IH]; intros seq Hs H0 Hmax Hall; [done|]. inversion Hall; subst.
  rewrite length_cons in Hmax. rewrite length_stream_cons, length_cons.
  pose proof (numbered_small (seq + 1) w Hs ltac:(lia) ltac:(done)). specialize (IH (seq + 1) Hs ltac:(lia) ltac:(lia) ltac:(done)).
  lia.
Qed.

Lemma stream_app l1 l2 : ∀ seq,
  stream start soh seq (l1 ++ l2) = stream start soh seq l1 ++ stream start soh (seq + zlen l1) l2.
Proof.
  induction l1 as [|w l1 IH]; intros seq; cbn [app stream length]; [by rewrite Z.add_0_r|].
  rewrite IH, <- app_assoc. do 3 f_equal. lia.
Qed.

Lemma sent_records_app l1 l2 : ∀ seq,
  sent_records seq (l1 ++ l2) = sent_records seq l1 ++ sent_records (seq + zlen l1) l2.
Proof.
  induction l1 as [|w l1 IH]; intros seq; cbn [app sent_records length]; [by rewrite Z.add_0_r|].
  rewrite IH. do 3 f_equal. lia.
Qed.

Lemma skip_interrupts_split kernel :
  ∃ ints, Forall interrupt ints ∧ kernel = ints ++ skip_interrupts kernel.
Proof.
  induction kernel as [|[e|n] kernel IH]; [by exists []| |by exists []]. cbn [skip_interrupts].
  destruct ((e =? EAGAIN) || (e =? EINTR)) eqn:E; [|by exists []].
  destruct IH as (ints & Hi & Hk). exists (WErr e :: ints). split; [|by rewrite Hk at 1].
  constructor; [|done]. apply orb_prop in E as [E|E]; apply Z.eqb_eq in E as ->; [by left | by right].
Qed.

(** The records tell the messages. *)
Lemma sent_records_inj ws : ∀ seq ws', sent_records seq ws = sent_records seq ws' → ws = ws'.
Proof.
  induction ws as [|[mt ttl x inner] ws IH]; intros seq [|[mt' ttl' x' inner'] ws']; cbn [sent_records]; try done.
  unfold w_partial. cbn [w_type w_ttl w_first w_inner]. intros [= _ -> -> Hi -> Hr]. apply app_inv_tail in Hi as ->.
  by rewrite (IH _ _ Hr).
Qed.

(** Completing a message does not change the size of its buffer. *)
Lemma complete_entry d w seq : entry_holds d w → 0 ≤ seq < 2 ^ 64 - 1 → zlen start ≤ 31 →
  ∃ c, (len ← get_length_of_partial_msg d; complete_FIX_message seq d len args) = Some c ∧ zlen (c_buffer c) = zlen d.
Proof.
  intros (h & tail & -> & Hh & Ht & Hl & Hlen) Hseq Hst. rewrite Hlen. obind.
  pose proof (length_partial w) as Hp.
  destruct (complete_spec seq h (w_type w) (w_ttl w) (w_first w) (w_inner w) tail start soh) as (h1 & t2 & Hc & Hlen');
    try done; try lia.
  eexists. split; [exact Hc|]. cbn [c_buffer]. unfold w_partial. rewrite <- Hlen'. llia.
Qed.

(** ** Lemmas: a queue *)

Section Queues.
Context {A : Type} (content : A → option (list Z)) (store : list Z → A → A) (P : A → Prop) (q : Z).
Context (store_ok : ∀ e d d', P e → content e = Some d → zlen d' = zlen d → P (store d' e)).

Definition carries (e : A) (w : waiting) : Prop := ∃ d, content e = Some d ∧ entry_holds d w.

(** The queue holds the messages of [t] behind the thread's cursor, which has
    released all entries before it if there were any; all entries have the size
    they were allocated with. *)
Record queue_inv (Q : queue A) (t : bool * list waiting) (w : Z) (msgs : list A) : Prop := {
  i_holds : holds q (ring_ Q) (cursor Q) w msgs;
  i_msgs : Forall2 carries msgs t.2;
  i_small : Forall small t.2;
  i_cursors : entry_processor_cursors (ring_ Q) = [if t.1 then cursor Q - 1 else 1];
  i_reg : reg_number Q = O;
  i_first : if t.1 then 2 ≤ cursor Q else cursor Q = 1;
  i_sizes : Forall P (buffer (ring_ Q)) }.

Lemma next_entry_ok Q t w msgs : queue_inv Q t w msgs → w < 2 ^ 62 → ∃ e, next_entry Q = Returns e ∧ P e.
Proof.
  intros I Hw. destruct (i_holds _ _ _ _ I) as [Hq Hs Hb Hwr Hr H1 Hl _ _]. unfold next_entry, show_entry.
  assert (Hu : u64 (1 + write_cursor (ring_ Q)) = w + 1) by (unfold u64; rewrite Z.mod_small; lia). rewrite Hu.
  pose proof (index_within q (ring_ Q) (w + 1) ltac:(lia) Hs Hb ltac:(lia)) as Hin.
  destruct (lookup_lt_is_Some_2 (buffer (ring_ Q)) _ Hin) as [e He]. rewrite He. exists e. split; [done|].
  by eapply (Forall_lookup_1 _ _ _ _ (i_sizes _ _ _ _ I)).
Qed.

Lemma commit_ok Q t w msgs e x : queue_inv Q t w msgs → w < 2 ^ 62 - 1 → carries e x → small x → P e →
  match enqueue (2 ^ q) x t with
  | Returns t' => ∃ Q', commit e Q = Returns Q' ∧ queue_inv Q' t' (w + 1) (msgs ++ [e])
  | _ => commit e Q = Waits
  end.
Proof.
  intros I Hw He Hx HP. destruct I as [H Hm Hsm Hc Hreg Hf Hsz]. destruct t as [p ws]. cbn [fst snd] in *.
  pose proof (holds_bound _ _ _ _ _ H) as [Hn H0]. pose proof (h_len _ _ _ _ _ H) as Hl.
  pose proof (Forall2_length _ _ _ Hm) as Hlw. pose proof (h_q _ _ _ _ _ H) as Hq.
  set (c := if p then cursor Q - 1 else 1) in *.
  assert (Hcb : 1 ≤ c ≤ cursor Q ∧ c ≤ w + 1) by (unfold c; destruct p; lia).
  pose proof (holds_commit q _ _ _ _ e c H ltac:(lia)) as Hcom. rewrite Hc in Hcom.
  specialize (Hcom (slowest_one 0 c ltac:(unfold VACANT; lia)) ltac:(lia) ltac:(lia)).
  unfold enqueue, commit. cbn [fst snd].
  replace (zlen ws <? (if p then 2 ^ q - 1 else 2 ^ q)) with (w + 1 - c <=? 2 ^ q - 1)
    by (unfold c; destruct p; apply Bool.eq_iff_eq_true; rewrite Z.leb_le, Z.ltb_lt; lia).
  destruct (w + 1 - c <=? 2 ^ q - 1); [|by rewrite Hcom].
  destruct Hcom as (r' & -> & Hr' & Hc' & Hb'). eexists. split; [reflexivity|].
  split; cbn [ring_ cursor reg_number fst snd]; try done.
  - apply Forall2_app; [done|]. by constructor.
  - apply Forall_app; split; [done|]. by constructor.
  - rewrite Hb'. by apply Forall_insert.
Qed.

Lemma forall2_contents msgs ws : Forall2 carries msgs ws →
  ∃ ds, content <$> msgs = Some <$> ds ∧ Forall2 entry_holds ds ws.
Proof.
  induction 1 as [|e w msgs ws (d & Hd & Hh) _ (ds & IH1 & IH2)]; [by exists []|].
  exists (d :: ds). cbn [fmap list_fmap] in *. rewrite Hd, IH1. split; [done|]. by constructor.
Qed.

(** The loop on the ring is [push_loop] on the entries it holds. *)
Lemma ring_loop_push w msgs : ∀ ws n r b pre,
  holds q r n w msgs → Forall P (buffer r) → Forall2 carries msgs ws →
  gathered b pre → b_idx b + zlen ws < IOV_MAX → IOV_MAX ≤ zlen (b_vdata b) →
  0 ≤ b_seq b → b_seq b + zlen ws < 2 ^ 64 → zlen start ≤ 31 →
  zlen (pre ++ stream start soh (b_seq b) ws) < 2 ^ 64 →
  ∃ r', ring_loop IOV_MAX args content store (length msgs) n r b
        = ('(ret, b') ← push_loop IOV_MAX args (content <$> msgs) b; Some (ret, b', r'))
    ∧ holds q r' (w + 1) w [] ∧ Forall P (buffer r') ∧ entry_processor_cursors r' = entry_processor_cursors r.
Proof.
  induction msgs as [|e msgs IH]; intros ws n r b pre H HP Hall Hg Hn Hv H0 Hs Hst Hbig; inversion Hall as [|? x ? ws' He Hall']; subst.
  - exists r. split; [done|]. split; [|done]. replace (w + 1) with n; [done|]. pose proof (h_len _ _ _ _ _ H). cbn in *. lia.
  - destruct He as (d & Hd & Hh). cbn [length ring_loop fmap list_fmap push_loop] in *.
    rewrite (holds_show _ _ _ _ _ _ H). obind. rewrite Hd. obind.
    destruct (complete_entry d x (b_seq b) Hh ltac:(lia) Hst) as (c & Hc & Hcl).
    destruct (get_length_of_partial_msg d) as [len|]; [|done]. cbn [mbind option_bind] in Hc |- *. rewrite Hc. obind.
    cbn [stream] in Hbig. rewrite app_assoc in Hbig.
    destruct (batch_one_spec start soh b d x pre Hh Hg) as (b1 & Hb1 & Hg1 & S1 & I1 & _ & _ & _ & V1);
      [lia | lia | done | llia |]. rewrite Hb1. obind.
    rewrite (proj2 (Z.eqb_neq IOV_MAX (b_idx b1))) by lia.
    destruct (IH ws' (n + 1) (store_entry n (store (c_buffer c) e) r) b1 (pre ++ numbered start soh (b_seq b + 1) x))
      as (r' & -> & Hr' & HP' & Hc'); rewrite ?S1; try done; try lia.
    + by eapply holds_take.
    + cbn [store_entry set_buffer buffer]. apply Forall_insert; [done|]. eapply store_ok; [|done..].
      eapply Forall_lookup_1; [exact HP|]. exact (holds_show _ _ _ _ _ _ H).
    + by exists r'.
Qed.

Lemma push_ring_ok Q t w msgs seq kernel kernel' vdata : queue_inv Q t w msgs → w < 2 ^ 62 - 1 →
  takes_all kernel seq t.2 = Returns kernel' → IOV_MAX ≤ zlen vdata → IOV_MAX ≤ 2 ^ 20 →
  0 ≤ seq → seq + zlen t.2 < 2 ^ 64 → zlen start ≤ 31 →
  ∃ b Q', push_ring IOV_MAX args content store Q seq kernel vdata = Some (Some 0, b, Q')
    ∧ b_out b = stream start soh seq t.2 ∧ b_seq b = seq + zlen t.2 ∧ b_sent b = sent_records seq t.2
    ∧ b_kernel b = kernel' ∧ zlen (b_vdata b) = zlen vdata ∧ queue_inv Q' (emptied t) w [].
Proof.
  intros I Hw Hk Hv Hmax H0 Hs Hst. destruct t as [p ws]. cbn [fst snd] in *.
  destruct I as [H Hm Hsm Hc Hreg Hf Hsz]. cbn [fst snd] in *.
  pose proof (holds_bound _ _ _ _ _ H) as [Hn Hw0]. pose proof (h_len _ _ _ _ _ H) as Hl.
  pose proof (Forall2_length _ _ _ Hm) as Hlw. unfold push_ring, wait_for_nonblocking. rewrite (h_read _ _ _ _ _ H).
  destruct ws as [|x ws].
  - destruct msgs; [|done]. cbn in Hl, Hk. rewrite (proj2 (Z.ltb_lt w (cursor Q))) by lia. injection Hk as <-.
    eexists _, Q. split; [reflexivity|]. cbn. rewrite Z.add_0_r. split_and!; try done.
  - rewrite (proj2 (Z.ltb_ge w (cursor Q))) by (rewrite length_cons in Hlw; lia).
    unfold takes_all in Hk. destruct (skip_interrupts_split kernel) as (ints & Hi & Hker).
    destruct (skip_interrupts kernel) as [|[e|m] rest]; try done.
    destruct (Z.ltb_spec (zlen (x :: ws)) IOV_MAX) as [Hfit|]; [|done].
    destruct (Z.eqb_spec m (zlen (stream start soh seq (x :: ws)))) as [->|]; [|done]. injection Hk as ->.
    assert (Hbig : zlen (stream start soh seq (x :: ws)) < 2 ^ 64).
    { pose proof (stream_small (x :: ws) seq Hst H0 ltac:(lia) Hsm). nia. }
    set (b0 := mkBatch seq 0 0 vdata [] kernel []).
    destruct (ring_loop_push w msgs (x :: ws) (cursor Q) (ring_ Q) b0 [] H Hsz Hm) as (r' & Hloop & Hr' & HP' & Hc');
      try done; [split; [cbn; lia | by split]|].
    destruct (forall2_contents _ _ Hm) as (ds & Hds & Hall).
    destruct (push_alfa_batch IOV_MAX start soh ds (x :: ws) seq ints kernel' vdata Hall) as (b & Hb & Ho & Hq & Hr & Hk & Hvd);
      try done; [intros ->; by inversion Hall|].
    assert (Hpl : push_loop IOV_MAX args (content <$> msgs) b0 = Some (Some 0, b)).
    { rewrite Hds, <- Hb. unfold push_alfa, push_queue, b0. rewrite Hker. destruct ds; [by inversion Hall|done]. }
    replace (Z.to_nat (w + 1 - cursor Q)) with (length msgs) by lia.
    fold b0. rewrite Hloop, Hpl. obind. eexists b, _. split; [reflexivity|]. split_and!; try done.
    assert (Hu : u64 (w + 1) = w + 1) by (unfold u64; rewrite Z.mod_small; lia). rewrite Hu, Hreg.
    split; cbn [ring_ cursor reg_number emptied fst snd]; try done.
    + by apply holds_release.
    + cbn [release_entry set_cursors entry_processor_cursors]. rewrite Hc', Hc. cbn. do 2 f_equal. lia.
    + pose proof (h_first _ _ _ _ _ H). rewrite length_cons in Hlw. lia.
Qed.
End Queues.

(** ** Lemmas: the pusher *)

Definition alfa_size (e : list Z) : Prop := zlen e = ALFA_ENTRY_SIZE.
Definition charlie_size (e : list Z) : Prop := zlen e = CHARLIE_ENTRY_SIZE.
Definition bravo_size (e : bravo_t) : Prop := from_option (λ d, zlen d) 0 (bdata e) = allocated_size e.

Lemma plain_sizes n e d d' : zlen e = n → plain_content e = Some d → zlen d' = zlen d → zlen (plain_store d' e) = n.
Proof. by intros <- [= <-] Hd. Qed.

Lemma bravo_sizes e d d' : bravo_size e → bdata e = Some d → zlen d' = zlen d → bravo_size (bravo_store d' e).
Proof. unfold bravo_size. intros H E Hd. rewrite E in H. cbn in *. by rewrite Hd. Qed.

Definition queued (t : pusher_spec) : Z := zlen (s_alfa t).2 + zlen (s_bravo t).2 + zlen (s_charlie t).2.

(** The pusher after [w] operations, with [seq0] at the start. *)
Record pusher_inv (seq0 w : Z) (s : pusher_queues) (t : pusher_spec) : Prop := {
  p_alfa : ∃ n msgs, n ≤ w ∧ queue_inv plain_content alfa_size 10 (alfa s) (s_alfa t) n msgs;
  p_bravo : ∃ n msgs, n ≤ w ∧ queue_inv bdata bravo_size 7 (bravo s) (s_bravo t) n msgs;
  p_charlie : ∃ n msgs, n ≤ w ∧ queue_inv plain_content charlie_size 9 (charlie s) (s_charlie t) n msgs;
  p_seq : msg_seq_number s = s_seq t;
  p_error : error s = 0;
  p_alive : alive s = true;
  p_vdata : IOV_MAX ≤ zlen (vdata s);
  p_seq0 : 0 ≤ s_seq t;
  p_count : s_seq t + queued t ≤ seq0 + w }.

Context (malloc_ok : ∀ sz, 0 ≤ sz → ∃ b, malloc sz = Some b ∧ zlen b = sz).
Context (start_short : zlen start ≤ 31) (vector_size : 0 ≤ IOV_MAX ≤ 2 ^ 20).

Lemma small_queued now ttl mt x inner : zlen inner < 2 ^ 31 → zlen mt < 16 → small (queued_as now ttl mt x inner).
Proof. by split. Qed.

(** A filled entry carries the message. *)
Lemma filled_carries h tail now ttl mt x inner :
  let w := queued_as now ttl mt x inner in
  entry_head h mt (u64 (expire_time now ttl).1, u64 (expire_time now ttl).2) → 4 ≤ zlen tail → zlen inner < 2 ^ 31 →
  get_length_of_partial_msg (h ++ w_partial w ++ tail) = Some (zlen (w_partial w)) →
  entry_holds (h ++ w_partial w ++ tail) w.
Proof.
  intros w Hh Ht Hi Hg. exists h, tail. pose proof (length_partial w) as Hp. cbn [w w_inner queued_as] in Hp.
  split_and!; try done. lia.
Qed.

Lemma session_push_cases now err entry ttl data mt :
  Forall (λ c, c ≠ 0) mt → zlen data < 2 ^ 32 → zlen entry = CHARLIE_ENTRY_SIZE →
  ∃ ret eff, session_push now err entry ttl data (mt ++ [0]) = Some (ret, eff) ∧
  match eff with
  | PushCharlie e => ret = err ∧ zlen mt < 16 ∧ zlen data ≤ 244 ∧
      ∃ h tail, e = h ++ data ++ tail ∧ entry_head h mt (u64 (expire_time now ttl).1, u64 (expire_time now ttl).2) ∧
        4 ≤ zlen tail ∧ get_length_of_partial_msg e = Some (zlen data) ∧ zlen e = CHARLIE_ENTRY_SIZE
  | PushNothing => ret = EINVAL ∧ (16 ≤ zlen mt ∨ 244 < zlen data)
  | _ => False
  end.
Proof.
  intros Hz Hd He. unfold session_push. change (Z.to_nat (MSG_TYPE_MAX_LENGTH + 1)) with 17%nat.
  destruct (decide (zlen mt < 17)) as [Hmt|Hmt].
  - rewrite strnlen_cstr by (done || lia). obind. unfold MSG_TYPE_MAX_LENGTH at 1.
    destruct (Z.ltb_spec 16 (zlen mt + 1)).
    { eexists _, _. split; [reflexivity|]. cbn. split; [done | lia]. }
    change (CHARLIE_MAX_DATA_SIZE - _ - _ - _) with 244. destruct (Z.leb_spec (zlen data) 244).
    + destruct (fill_entry_spec entry (expire_time now ttl) data mt []) as (h & tail & -> & Hh & Ht & Hg & Hl); try done; try lia.
      { rewrite He. unfold PARTIAL_OFFSET, MSG_TYPE_STRING_OFFSET, FIX_BUFFER_RESERVED_HEAD, CHARLIE_ENTRY_SIZE. lia. }
      obind. eexists _, _. split; [reflexivity|]. cbn. split_and!; try (done || lia). exists h, tail. split_and!; try done. by rewrite Hl.
    + eexists _, _. split; [reflexivity|]. cbn. split; [done | lia].
  - rewrite strnlen_long by (done || lia). obind. eexists _, _. split; [reflexivity|]. cbn. split; [done | lia].
Qed.

(** A queue of [pusher_inv] after more operations. *)
Lemma later {A} content (P : A → Prop) q Q t w w' :
  (∃ n msgs, n ≤ w ∧ queue_inv content P q Q t n msgs) → w ≤ w' → ∃ n msgs, n ≤ w' ∧ queue_inv content P q Q t n msgs.
Proof. intros (n & msgs & ? & ?) ?. exists n, msgs. split; [lia | done]. Qed.

(** A commit seen from [pusher_inv]. *)
Lemma commit_later {A} content (P : A → Prop) q size Q t w e x :
  (∃ n msgs, n ≤ w ∧ queue_inv content P q Q t n msgs) → w < 2 ^ 62 - 1 → size = 2 ^ q →
  carries content e x → small x → P e →
  match enqueue size x t with
  | Returns t' => zlen t'.2 = zlen t.2 + 1 ∧ ∃ Q', commit e Q = Returns Q'
                  ∧ ∃ n msgs, n ≤ w + 1 ∧ queue_inv content P q Q' t' n msgs
  | _ => commit e Q = Waits
  end.
Proof.
  intros (n & msgs & Hn & I) Hw -> He Hx HP. pose proof (commit_ok content P q Q t n msgs e x I ltac:(lia) He Hx HP) as H.
  destruct (enqueue (2 ^ q) x t) as [t'| |] eqn:E; [|done..]. split.
  - unfold enqueue in E. case_match; [|done]. injection E as <-. cbn [snd]. rewrite length_app. cbn [length]. lia.
  - destruct H as (Q' & ? & ?). exists Q'. split; [done|]. exists (n + 1), (msgs ++ [e]). split; [lia | done].
Qed.

Lemma next_later {A} content (P : A → Prop) q Q t w :
  (∃ n msgs, n ≤ w ∧ queue_inv content P q Q t n msgs) → w < 2 ^ 62 → ∃ e, next_entry Q = Returns e ∧ P e.
Proof. intros (n & msgs & Hn & I) Hw. apply (next_entry_ok content P q Q t n msgs I). lia. Qed.

Lemma push_op_ok seq0 w s t now ttl mt x inner :
  let o := Push now ttl mt x inner in
  op_ok o → pusher_inv seq0 w s t → w < 2 ^ 62 - 1 →
  match spec_op o t with
  | Returns (a, t') => ∃ s', run_pusher_op o s = Returns (a, s') ∧ pusher_inv seq0 (w + 1) s' t'
  | _ => run_pusher_op o s = Waits
  end.
Proof.
  intros o [Hz Hi] [Ha Hb Hc Hs He Hal Hv H0 Hcount] Hw. unfold o, run_pusher_op, spec_op, push_call.
  set (x0 := queued_as now ttl mt x inner). change (x :: inner ++ bytes_of_string "10=") with (w_partial x0).
  pose proof (length_partial x0) as Hlp. cbn [x0 w_inner queued_as] in Hlp. fold x0 in Hlp.
  destruct (next_later _ _ _ _ _ _ Ha ltac:(lia)) as (ea & -> & Hea).
  destruct (next_later _ _ _ _ _ _ Hb ltac:(lia)) as (eb & -> & Heb). cbn [mbind call_mbind cbind].
  destruct (push_cases malloc now (error s) ea eb ttl (w_partial x0) mt []) as (ret & eff & -> & Heff); try done; try lia.
  { intros sz b Hsz E. destruct (malloc_ok sz Hsz) as (b' & E' & ?). congruence. }
  cbn [defined mbind call_mbind cbind]. destruct eff as [|e|e|e]; [..|done].
  - destruct Heff as [-> Hm]. rewrite (proj2 (Z.leb_le 16 (zlen mt))) by lia. exists s. split; [done|]. split; try done.
    + eapply later; [exact Ha | lia]. + eapply later; [exact Hb | lia]. + eapply later; [exact Hc | lia]. + lia.
  - destruct Heff as (-> & Hm & Hle & h & tail & -> & Hh & Ht & Hg & Hsz).
    rewrite (proj2 (Z.leb_gt 16 (zlen mt))), (proj2 (Z.leb_le (zlen (w_partial x0)) 3828)) by lia.
    pose proof (commit_later plain_content alfa_size 10 1024 (alfa s) (s_alfa t) w (h ++ w_partial x0 ++ tail) x0 Ha Hw eq_refl) as H.
    specialize (H (ex_intro _ _ (conj eq_refl (filled_carries h tail now ttl mt x inner Hh Ht Hi Hg))) (small_queued _ _ _ _ _ Hi Hm) Hsz).
    destruct (enqueue 1024 x0 (s_alfa t)) as [t'| |]; cbn [mbind call_mbind cbind]; [|by rewrite H..].
    destruct H as (Hlen & Q' & -> & HQ). cbn [cbind]. rewrite He. eexists. split; [reflexivity|].
    split; cbn [alfa bravo charlie msg_seq_number error alive vdata set_alfa s_alfa s_bravo s_charlie s_seq]; try done.
    + eapply later; [exact Hb | lia]. + eapply later; [exact Hc | lia].
    + unfold queued in *. cbn [s_alfa s_bravo s_charlie]. lia.
  - destruct Heff as (Hm & Hgt & [(_ & _ & _ & E)|(-> & h & tail & Ed & Hh & Ht & Hg & Hsz)]).
    { destruct (malloc_ok (zlen (w_partial x0) + 264)) as (b' & E' & _); [lia | congruence]. }
    rewrite (proj2 (Z.leb_gt 16 (zlen mt))), (proj2 (Z.leb_gt (zlen (w_partial x0)) 3828)) by lia.
    assert (Hes : bravo_size e) by (unfold bravo_size; by rewrite Ed).
    pose proof (commit_later bdata bravo_size 7 128 (bravo s) (s_bravo t) w e x0 Hb Hw eq_refl) as H.
    specialize (H (ex_intro _ _ (conj Ed (filled_carries h tail now ttl mt x inner Hh Ht Hi Hg))) (small_queued _ _ _ _ _ Hi Hm) Hes).
    destruct (enqueue 128 x0 (s_bravo t)) as [t'| |]; cbn [mbind call_mbind cbind]; [|by rewrite H..].
    destruct H as (Hlen & Q' & -> & HQ). cbn [cbind]. rewrite He. eexists. split; [reflexivity|].
    split; cbn [alfa bravo charlie msg_seq_number error alive vdata set_bravo s_alfa s_bravo s_charlie s_seq]; try done.
    + eapply later; [exact Ha | lia]. + eapply later; [exact Hc | lia].
    + unfold queued in *. cbn [s_alfa s_bravo s_charlie]. lia.
Qed.

Lemma session_op_ok seq0 w s t now ttl mt x inner :
  let o := SessionPush now ttl mt x inner in
  op_ok o → pusher_inv seq0 w s t → w < 2 ^ 62 - 1 →
  match spec_op o t with
  | Returns (a, t') => ∃ s', run_pusher_op o s = Returns (a, s') ∧ pusher_inv seq0 (w + 1) s' t'
  | _ => run_pusher_op o s = Waits
  end.
Proof.
  intros o [Hz Hi] [Ha Hb Hc Hs He Hal Hv H0 Hcount] Hw. unfold o, run_pusher_op, spec_op, session_push_call.
  set (x0 := queued_as now ttl mt x inner). change (x :: inner ++ bytes_of_string "10=") with (w_partial x0).
  pose proof (length_partial x0) as Hlp. cbn [x0 w_inner queued_as] in Hlp. fold x0 in Hlp.
  destruct (next_later _ _ _ _ _ _ Hc ltac:(lia)) as (ec & -> & Hec). cbn [mbind call_mbind cbind].
  destruct (session_push_cases now (error s) ec ttl (w_partial x0) mt) as (ret & eff & -> & Heff); try done; try lia.
  cbn [defined mbind call_mbind cbind]. destruct eff as [|e|e|e]; try done.
  - destruct Heff as [-> Hm].
    assert (Hspec : (if 16 <=? zlen mt then Returns ([Returned EINVAL], t)
       else if zlen (w_partial x0) <=? 244 then
         q ← enqueue 512 x0 (s_charlie t); Returns ([Returned 0], mkSpec (s_alfa t) (s_bravo t) q (s_seq t))
       else Returns ([Returned EINVAL], t)) = Returns ([Returned EINVAL], t)).
    { destruct (Z.leb_spec 16 (zlen mt)); [done|]. by rewrite (proj2 (Z.leb_gt (zlen (w_partial x0)) 244)) by lia. }
    rewrite Hspec. exists s. split; [done|]. split; try done.
    + eapply later; [exact Ha | lia]. + eapply later; [exact Hb | lia]. + eapply later; [exact Hc | lia]. + lia.
  - destruct Heff as (-> & Hm & Hle & h & tail & -> & Hh & Ht & Hg & Hsz).
    rewrite (proj2 (Z.leb_gt 16 (zlen mt))), (proj2 (Z.leb_le (zlen (w_partial x0)) 244)) by lia.
    pose proof (commit_later plain_content charlie_size 9 512 (charlie s) (s_charlie t) w (h ++ w_partial x0 ++ tail) x0 Hc Hw eq_refl) as H.
    specialize (H (ex_intro _ _ (conj eq_refl (filled_carries h tail now ttl mt x inner Hh Ht Hi Hg))) (small_queued _ _ _ _ _ Hi Hm) Hsz).
    destruct (enqueue 512 x0 (s_charlie t)) as [t'| |]; cbn [mbind call_mbind cbind]; [|by rewrite H..].
    destruct H as (Hlen & Q' & -> & HQ). cbn [cbind]. rewrite He. eexists. split; [reflexivity|].
    split; cbn [alfa bravo charlie msg_seq_number error alive vdata set_charlie s_alfa s_bravo s_charlie s_seq]; try done.
    + eapply later; [exact Ha | lia]. + eapply later; [exact Hb | lia].
    + unfold queued in *. cbn [s_alfa s_bravo s_charlie]. lia.
Qed.

Lemma push_later {A} content store (P : A → Prop) q Q t w seq kernel kernel' vd :
  (∀ e d d', P e → content e = Some d → zlen d' = zlen d → P (store d' e)) →
  (∃ n msgs, n ≤ w ∧ queue_inv content P q Q t n msgs) → w < 2 ^ 62 - 1 →
  takes_all kernel seq t.2 = Returns kernel' → IOV_MAX ≤ zlen vd → 0 ≤ seq → seq + zlen t.2 < 2 ^ 64 →
  ∃ b Q', push_ring IOV_MAX args content store Q seq kernel vd = Some (Some 0, b, Q')
    ∧ b_out b = stream start soh seq t.2 ∧ b_seq b = seq + zlen t.2 ∧ b_sent b = sent_records seq t.2
    ∧ b_kernel b = kernel' ∧ zlen (b_vdata b) = zlen vd ∧ ∃ n msgs, n ≤ w ∧ queue_inv content P q Q' (emptied t) n msgs.
Proof.
  intros Hst (n & msgs & Hn & I) Hw Hk Hv H0 Hmax.
  destruct (push_ring_ok content store P q Hst Q t n msgs seq kernel kernel' vd I) as (b & Q' & ? & ? & ? & ? & ? & ? & ?);
    try done; try lia.
  exists b, Q'. split_and!; try done. by exists n, [].
Qed.

Lemma emptied_nil t : (emptied t).2 = [].
Proof. by destruct t as [p []]. Qed.

Lemma round_op_ok seq0 w s t kernel :
  pusher_inv seq0 w s t → w < 2 ^ 62 - 1 → seq0 + w < 2 ^ 64 →
  match spec_op (Round kernel) t with
  | Returns (a, t') => ∃ s', run_pusher_op (Round kernel) s = Returns (a, s') ∧ pusher_inv seq0 (w + 1) s' t'
  | Waits => run_pusher_op (Round kernel) s = Waits
  | Undefined => True
  end.
Proof.
  intros [Ha Hb Hc Hs He Hal Hv H0 Hcount] Hw Hmax. unfold spec_op.
  assert (Hwaits : ∀ k sq ws, takes_all k sq ws ≠ Waits)
    by (intros k sq [|? ?]; [done|]; cbn [takes_all]; repeat case_match; done).
  unfold queued in Hcount.
  pose proof (Hwaits kernel (s_seq t) (s_alfa t).2) as W1.
  destruct (takes_all kernel _ _) as [k1| |] eqn:E1; cbn [mbind call_mbind cbind]; [clear W1|done..].
  pose proof (Hwaits k1 (s_seq t + zlen (s_alfa t).2) (s_bravo t).2) as W2.
  destruct (takes_all k1 _ _) as [k2| |] eqn:E2; cbn [mbind call_mbind cbind]; [clear W2|done..].
  pose proof (Hwaits k2 (s_seq t + zlen (s_alfa t).2 + zlen (s_bravo t).2) (s_charlie t).2) as W3.
  destruct (takes_all k2 _ _) as [k3| |] eqn:E3; cbn [mbind call_mbind cbind]; [clear W3|done..].
  unfold run_pusher_op, thread_round. rewrite Hal. cbn [negb].
  destruct (push_later plain_content plain_store alfa_size 10 _ _ w (s_seq t) kernel k1 (vdata s)
              (plain_sizes _) Ha Hw E1 Hv H0 ltac:(lia)) as (ba & qa & Ea & Oa & Sa & Ra & Ka & Va & Ia).
  unfold push_alfa_ring. rewrite Hs, Ea. cbn [defined mbind call_mbind cbind alfa bravo charlie msg_seq_number vdata error].
  destruct (push_later bdata bravo_store bravo_size 7 _ _ w (b_seq ba) (b_kernel ba) k2 (b_vdata ba)
              bravo_sizes Hb Hw ltac:(by rewrite Sa, Ka) ltac:(by rewrite Va) ltac:(lia) ltac:(lia))
    as (bb & qb & Eb & Ob & Sb & Rb & Kb & Vb & Ib).
  unfold push_bravo_ring. rewrite Eb. cbn [defined mbind call_mbind cbind alfa bravo charlie msg_seq_number vdata error].
  destruct (push_later plain_content plain_store charlie_size 9 _ _ w (b_seq bb) (b_kernel bb) k3 (b_vdata bb)
              (plain_sizes _) Hc Hw ltac:(by rewrite Sb, Sa, Kb) ltac:(by rewrite Vb, Va) ltac:(lia) ltac:(lia))
    as (bc & qc & Ec & Oc & Sc & Rc & Kc & Vc & Ic).
  unfold push_charlie_ring. rewrite Ec. cbn [defined mbind call_mbind cbind alfa bravo charlie msg_seq_number vdata error].
  rewrite !stream_app, !sent_records_app, Oa, Ob, Oc, Ra, Rb, Rc, Sb, Sa.
  eexists. split; [reflexivity|].
  split; cbn [alfa bravo charlie msg_seq_number error alive vdata s_alfa s_bravo s_charlie s_seq]; try done.
  - eapply later; [exact Ia | lia].
  - eapply later; [exact Ib | lia].
  - eapply later; [exact Ic | lia].
  - rewrite Sc, Sb, Sa, !length_app. lia.
  - by rewrite Vc, Vb, Va.
  - lia.
  - unfold queued. cbn [s_alfa s_bravo s_charlie s_seq]. rewrite !emptied_nil, !length_app. cbn [length]. lia.
Qed.

Lemma pusher_op_ok seq0 N o w s t : N ≤ 2 ^ 62 - 1 → seq0 + N < 2 ^ 64 →
  op_ok o → pusher_inv seq0 w s t → w < N →
  match spec_op o t with
  | Returns (a, t') => ∃ s' w', run_pusher_op o s = Returns (a, s') ∧ pusher_inv seq0 w' s' t' ∧ w' ≤ w + 1
  | Waits => run_pusher_op o s = Waits
  | Undefined => True
  end.
Proof.
  intros HN Hs Ho I Hw.
  assert (H : match spec_op o t with
    | Returns (a, t') => ∃ s', run_pusher_op o s = Returns (a, s') ∧ pusher_inv seq0 (w + 1) s' t'
    | Waits => run_pusher_op o s = Waits
    | Undefined => True end).
  { destruct o as [now ttl mt x inner|now ttl mt x inner|kernel].
    - pose proof (push_op_ok seq0 w s t now ttl mt x inner Ho I ltac:(lia)) as H. by destruct (spec_op _ _).
    - pose proof (session_op_ok seq0 w s t now ttl mt x inner Ho I ltac:(lia)) as H. by destruct (spec_op _ _).
    - apply (round_op_ok seq0 w); [done | lia..]. }
  destruct (spec_op o t) as [[a t']| |]; [|done..]. destruct H as (s' & ? & ?). exists s', (w + 1). done.
Qed.

(** ** Lemmas: a thread that has ended *)

Lemma skip_stops kernel e rest : skip_interrupts kernel = WErr e :: rest → (e =? EAGAIN) || (e =? EINTR) = false.
Proof.
  induction kernel as [|[a|n] kernel IH]; cbn [skip_interrupts]; [done| |done].
  destruct ((a =? EAGAIN) || (a =? EINTR)) eqn:E; [done|]. by intros [= -> ->].
Qed.

(** A queue that nobody reads any more. *)
Record unread {A} (P : A → Prop) (q : Z) (Q : queue A) (w : Z) : Prop := {
  u_q : 0 ≤ q < 62;
  u_size : reduced_size (ring_ Q) = 2 ^ q - 1;
  u_buffer : zlen (buffer (ring_ Q)) = 2 ^ q;
  u_count : 0 ≤ write_cursor (ring_ Q) ≤ w;
  u_read : max_read_cursor (ring_ Q) = write_cursor (ring_ Q);
  u_cursors : entry_processor_cursors (ring_ Q) = [VACANT];
  u_sizes : Forall P (buffer (ring_ Q)) }.

Lemma unread_holds {A} (P : A → Prop) q Q n w k msgs c : holds q (ring_ Q) n w msgs → w ≤ k → reg_number Q = O →
  entry_processor_cursors (ring_ Q) = [c] → Forall P (buffer (ring_ Q)) → unread P q (unregister_queue Q) k.
Proof.
  intros H Hk Hreg Hc HP. pose proof (holds_bound _ _ _ _ _ H). destruct H.
  split; cbn [unregister_queue ring_ unregister set_cursors reduced_size buffer write_cursor max_read_cursor entry_processor_cursors];
    try done; [lia | congruence |]. by rewrite Hreg, Hc.
Qed.

Lemma unread_next {A} (P : A → Prop) q Q w : unread P q Q w → w < 2 ^ 62 → ∃ e, next_entry Q = Returns e ∧ P e.
Proof.
  intros U Hw. destruct (u_count _ _ _ _ U) as [H0 Hle]. unfold next_entry, show_entry.
  assert (Hu : u64 (1 + write_cursor (ring_ Q)) = 1 + write_cursor (ring_ Q)) by (unfold u64; rewrite Z.mod_small; lia). rewrite Hu.
  pose proof (index_within q (ring_ Q) (1 + write_cursor (ring_ Q)) ltac:(pose proof (u_q _ _ _ _ U); lia)
                (u_size _ _ _ _ U) (u_buffer _ _ _ _ U) ltac:(lia)) as Hin.
  destruct (lookup_lt_is_Some_2 (buffer (ring_ Q)) _ Hin) as [e He]. rewrite He. exists e. split; [done|].
  by eapply (Forall_lookup_1 _ _ _ _ (u_sizes _ _ _ _ U)).
Qed.

Lemma unread_commit {A} (P : A → Prop) q Q w e : unread P q Q w → w < 2 ^ 62 → P e →
  ∃ Q', commit e Q = Returns Q' ∧ unread P q Q' (w + 1).
Proof.
  intros U Hw HP. destruct (u_count _ _ _ _ U) as [H0 Hle]. unfold commit.
  destruct (publish_vacant e (ring_ Q) q (write_cursor (ring_ Q))) as [Hpub _]; try apply U; try done; try lia.
  { by rewrite (u_cursors _ _ _ _ U). }
  rewrite Hpub. eexists. split; [reflexivity|].
  destruct U. split; cbn [ring_ reduced_size buffer write_cursor max_read_cursor entry_processor_cursors]; try done; try lia.
  - by rewrite length_insert.
  - by apply Forall_insert.
Qed.

Lemma unread_later {A} (P : A → Prop) q Q w w' : unread P q Q w → w ≤ w' → unread P q Q w'.
Proof. intros [? ? ? ? ? ? ?] ?. split; try done. lia. Qed.

(** The pusher whose thread has ended with the error [e]. *)
Record ended (e w : Z) (s : pusher_queues) : Prop := {
  e_alfa : unread alfa_size 10 (alfa s) w;
  e_bravo : unread bravo_size 7 (bravo s) w;
  e_charlie : unread charlie_size 9 (charlie s) w;
  e_error : error s = e }.

Lemma ended_later e w s : ended e w s → ended e (w + 1) s.
Proof. intros [? ? ? ?]. split; try done; (eapply unread_later; [done | lia]). Qed.

Definition is_push (o : pusher_op) : Prop := match o with Round _ => False | _ => True end.

(** What a call answers then. *)
Definition answer (e : Z) (o : pusher_op) : outcome := Returned (if bool_decide (accepted o = []) then EINVAL else e).

Lemma ended_op e w s o : ended e w s → w < 2 ^ 62 → op_ok o → is_push o →
  ∃ s', run_pusher_op o s = Returns ([answer e o], s') ∧ ended e (w + 1) s'.
Proof.
  intros E Hw Ho Hp. unfold answer. destruct o as [now ttl mt x inner|now ttl mt x inner|]; [| |done]; destruct Ho as [Hz Hi];
    unfold run_pusher_op, push_call, session_push_call; cbn [accepted];
    set (x0 := queued_as now ttl mt x inner); change (x :: inner ++ bytes_of_string "10=") with (w_partial x0);
    pose proof (length_partial x0) as Hlp; cbn [x0 w_inner queued_as] in Hlp; fold x0 in Hlp.
  - destruct (unread_next _ _ _ _ (e_alfa _ _ _ E) Hw) as (ea & -> & Hea).
    destruct (unread_next _ _ _ _ (e_bravo _ _ _ E) Hw) as (eb & -> & Heb). cbn [mbind call_mbind cbind].
    destruct (push_cases malloc now (error s) ea eb ttl (w_partial x0) mt []) as (ret & eff & -> & Heff); try done; try lia.
    { intros sz b Hsz Em. destruct (malloc_ok sz Hsz) as (b' & Em' & ?). congruence. }
    cbn [defined mbind call_mbind cbind]. destruct eff as [|en|en|en]; [..|done].
    + destruct Heff as [-> Hm]. rewrite (proj2 (Z.leb_le 16 (zlen mt))) by lia. exists s. split; [done|]. by apply ended_later.
    + destruct Heff as (-> & Hm & _ & h & tail & _ & _ & _ & _ & Hsz). rewrite (proj2 (Z.leb_gt 16 (zlen mt))) by lia.
      destruct (unread_commit _ _ _ _ en (e_alfa _ _ _ E) Hw Hsz) as (Q' & -> & HQ). cbn [cbind]. rewrite (e_error _ _ _ E).
      eexists. split; [reflexivity|]. apply ended_later in E as [? ? ? ?]. by split.
    + destruct Heff as (Hm & Hgt & [(_ & _ & _ & En)|(-> & h & tail & Ed & _ & _ & _ & Hsz)]).
      { destruct (malloc_ok (zlen (w_partial x0) + 264)) as (b' & En' & _); [lia | congruence]. }
      rewrite (proj2 (Z.leb_gt 16 (zlen mt))) by lia.
      destruct (unread_commit _ _ _ _ en (e_bravo _ _ _ E) Hw) as (Q' & -> & HQ); [unfold bravo_size; by rewrite Ed|].
      cbn [cbind]. rewrite (e_error _ _ _ E).
      eexists. split; [reflexivity|]. apply ended_later in E as [? ? ? ?]. by split.
  - destruct (unread_next _ _ _ _ (e_charlie _ _ _ E) Hw) as (ec & -> & Hec). cbn [mbind call_mbind cbind].
    destruct (session_push_cases now (error s) ec ttl (w_partial x0) mt) as (ret & eff & -> & Heff); try done; try lia.
    cbn [defined mbind call_mbind cbind]. destruct eff as [|en|en|en]; try done.
    + destruct Heff as [-> Hm]. exists s. split; [|by apply ended_later].
      destruct (Z.leb_spec 16 (zlen mt)); [done|]. by rewrite (proj2 (Z.leb_gt (zlen (w_partial x0)) 244)) by lia.
    + destruct Heff as (-> & Hm & Hle & h & tail & _ & _ & _ & _ & Hsz).
      rewrite (proj2 (Z.leb_gt 16 (zlen mt))), (proj2 (Z.leb_le (zlen (w_partial x0)) 244)) by lia.
      destruct (unread_commit _ _ _ _ en (e_charlie _ _ _ E) Hw Hsz) as (Q' & -> & HQ). cbn [cbind]. rewrite (e_error _ _ _ E).
      eexists. split; [reflexivity|]. apply ended_later in E as [? ? ? ?]. by split.
Qed.

Lemma push_ring_fails {A} content store (P : A → Prop) q Q t w msgs seq kernel e rest vd :
  (∀ e d d', P e → content e = Some d → zlen d' = zlen d → P (store d' e)) →
  queue_inv content P q Q t w msgs → t.2 ≠ [] → zlen t.2 < IOV_MAX → skip_interrupts kernel = WErr e :: rest →
  e ≠ 0 → IOV_MAX ≤ zlen vd → 0 ≤ seq → seq + zlen t.2 < 2 ^ 64 →
  ∃ b Q', push_ring IOV_MAX args content store Q seq kernel vd = Some (Some e, b, Q')
    ∧ b_out b = [] ∧ b_sent b = sent_records seq t.2 ∧ unread P q (unregister_queue Q') w.
Proof.
  intros Hst I Hne Hfit Hk He Hv H0 Hmax. destruct t as [p ws]. cbn [fst snd] in *.
  destruct I as [H Hm Hsm Hc Hreg Hf Hsz]. cbn [fst snd] in *.
  pose proof (holds_bound _ _ _ _ _ H) as [Hn Hw0]. pose proof (h_len _ _ _ _ _ H) as Hl.
  pose proof (Forall2_length _ _ _ Hm) as Hlw. unfold push_ring, wait_for_nonblocking. rewrite (h_read _ _ _ _ _ H).
  assert (0 < zlen ws) by (destruct ws; [done | cbn; lia]). rewrite (proj2 (Z.ltb_ge w (cursor Q))) by lia.
  destruct (skip_interrupts_split kernel) as (ints & Hi & Hker). rewrite Hk in Hker.
  assert (Hbig : zlen (stream start soh seq ws) < 2 ^ 64).
  { pose proof (stream_small ws seq start_short H0 ltac:(lia) Hsm). nia. }
  set (b0 := mkBatch seq 0 0 vd [] kernel []).
  assert (Hg0 : gathered b0 []) by (split; [cbn; lia | by split]).
  destruct (ring_loop_push content store P q Hst w msgs ws (cursor Q) (ring_ Q) b0 [] H Hsz Hm) as (r' & Hloop & Hr' & HP' & Hc'); try done.
  destruct (forall2_contents content msgs ws Hm) as (ds & Hds & Hall).
  destruct (push_loop_gathers start soh IOV_MAX [] ds ws b0 [] Hall Hg0) as (b1 & Hpl & _ & S1 & O1 & K1 & R1 & _); try done.
  rewrite app_nil_r in Hpl. replace (Z.to_nat (w + 1 - cursor Q)) with (length msgs) by lia.
  fold b0. rewrite Hloop, Hds, Hpl. cbn [push_loop]. unfold flush, do_writev. rewrite K1, O1. unfold b0 at 1. cbn [b_kernel].
  rewrite Hker, do_writev_interrupts by done. cbn [do_writev_loop]. rewrite (skip_stops _ _ _ Hk). obind.
  assert (Hu : unread P q (unregister_queue (mkQueue r' (cursor Q) (reg_number Q))) w).
  { eapply unread_holds; [exact Hr' | lia | exact Hreg | cbn [ring_]; by rewrite Hc', Hc | done]. }
  destruct e; [done|..]; (eexists _, _; split; [reflexivity|]; cbn [b_out b_sent]; split_and!; [done | by rewrite R1 | done]).
Qed.

Lemma queue_unread {A} content (P : A → Prop) q Q t n msgs w : queue_inv content P q Q t n msgs → n ≤ w →
  unread P q (unregister_queue Q) w.
Proof. intros [H _ _ Hc Hreg _ HP] Hn. by eapply unread_holds. Qed.

(** A batch in which [round_error] finds the error. *)
Lemma batch_fails {A} content store (P : A → Prop) q Q t w seq kernel e rest vd :
  (∀ e d d', P e → content e = Some d → zlen d' = zlen d → P (store d' e)) →
  (∃ n msgs, n ≤ w ∧ queue_inv content P q Q t n msgs) → t.2 ≠ [] →
  skip_interrupts kernel = WErr e :: rest → (zlen t.2 <? IOV_MAX) && negb (e =? 0) = true →
  IOV_MAX ≤ zlen vd → 0 ≤ seq → seq + zlen t.2 < 2 ^ 64 →
  ∃ b Q', push_ring IOV_MAX args content store Q seq kernel vd = Some (Some e, b, Q')
    ∧ b_out b = [] ∧ b_sent b = sent_records seq t.2 ∧ unread P q (unregister_queue Q') w.
Proof.
  intros Hst (n & msgs & Hn & I) Hne Hk Hfit Hv H0 Hmax.
  apply andb_prop in Hfit as [Hfit%Z.ltb_lt He%negb_true_iff%Z.eqb_neq].
  destruct (push_ring_fails content store P q Q t n msgs seq kernel e rest vd Hst I) as (b & Q' & ? & ? & ? & ?); try done.
  exists b, Q'. split_and!; try done. by eapply unread_later.
Qed.

Lemma unread_queue {A} content (P : A → Prop) q Q t w : (∃ n msgs, n ≤ w ∧ queue_inv content P q Q t n msgs) →
  unread P q (unregister_queue Q) w.
Proof. intros (n & msgs & Hn & I). by eapply queue_unread. Qed.

Lemma round_error_cons kernel seq ws qs e written recorded :
  round_error kernel seq (ws :: qs) = Some (e, written, recorded) →
  (∃ kernel' written' recorded', takes_all kernel seq ws = Returns kernel'
     ∧ round_error kernel' (seq + zlen ws) qs = Some (e, written', recorded')
     ∧ written = ws ++ written' ∧ recorded = ws ++ recorded')
  ∨ (ws ≠ [] ∧ (∃ rest, skip_interrupts kernel = WErr e :: rest) ∧ (zlen ws <? IOV_MAX) && negb (e =? 0) = true
     ∧ written = [] ∧ recorded = ws).
Proof.
  cbn [round_error]. destruct (takes_all kernel seq ws) as [k| |] eqn:E.
  - destruct (round_error k _ qs) as [[[? ?] ?]|] eqn:E2; [|done]. cbn. intros [= <- <- <-]. left. eauto 10.
  - by destruct ws; cbn in E; repeat case_match.
  - destruct (skip_interrupts kernel) as [|[e0|n] rest] eqn:Ek; [done| |done].
    destruct ((zlen ws <? IOV_MAX) && _) eqn:Ef; [|done]. intros [= <- <- <-]. right. split_and!; eauto. by intros ->.
Qed.

(** The round ends with [e]; the equations say what has been written and
    recorded. *)
Ltac round_ends e Hf :=
  destruct e; [by rewrite andb_false_r in Hf|..];
  rewrite ?app_nil_r, ?stream_app, ?sent_records_app; cbn [defined mbind call_mbind cbind].

Lemma round_fails seq0 w s t kernel e written recorded :
  pusher_inv seq0 w s t → w < 2 ^ 62 - 1 → seq0 + w < 2 ^ 64 →
  round_error kernel (s_seq t) [(s_alfa t).2; (s_bravo t).2; (s_charlie t).2] = Some (e, written, recorded) →
  ∃ s', run_pusher_op (Round kernel) s
        = Returns ([Wrote (stream start soh (s_seq t) written) (sent_records (s_seq t) recorded)], s') ∧ ended e w s'.
Proof.
  intros [Ha Hb Hc Hs He Hal Hv H0 Hcount] Hw Hmax Hr. unfold queued in Hcount.
  unfold run_pusher_op, thread_round, push_alfa_ring, push_bravo_ring, push_charlie_ring. rewrite Hal, Hs. cbn [negb].
  apply round_error_cons in Hr as [(k1 & wa & ra & E1 & Hr & -> & ->)|(Hne & (rest & Hk) & Hf & -> & ->)].
  2: { destruct (batch_fails plain_content plain_store alfa_size 10 _ _ w (s_seq t) kernel e rest (vdata s)
         (plain_sizes _) Ha Hne Hk Hf Hv H0 ltac:(lia)) as (ba & qa & -> & Oa & Ra & Ua).
       apply unread_queue in Hb, Hc. rewrite <- Ra. round_ends e Hf; rewrite Oa; (eexists; split; [reflexivity | by split]). }
  destruct (push_later plain_content plain_store alfa_size 10 _ _ w (s_seq t) kernel k1 (vdata s)
              (plain_sizes _) Ha Hw E1 Hv H0 ltac:(lia)) as (ba & qa & -> & Oa & Sa & Ra & Ka & Va & Ia).
  cbn [defined mbind call_mbind cbind alfa bravo charlie msg_seq_number vdata error].
  apply round_error_cons in Hr as [(k2 & wb & rb & E2 & Hr & -> & ->)|(Hne & (rest & Hk) & Hf & -> & ->)].
  2: { destruct (batch_fails bdata bravo_store bravo_size 7 _ _ w (b_seq ba) (b_kernel ba) e rest (b_vdata ba)
         bravo_sizes Hb Hne ltac:(by rewrite Ka) Hf ltac:(by rewrite Va) ltac:(lia) ltac:(lia)) as (bb & qb & -> & Ob & Rb & Ub).
       rewrite Sa in Rb. apply unread_queue in Ia, Hc. round_ends e Hf; rewrite Oa, Ob, Ra, Rb, app_nil_r; (eexists; split; [reflexivity | by split]). }
  destruct (push_later bdata bravo_store bravo_size 7 _ _ w (b_seq ba) (b_kernel ba) k2 (b_vdata ba)
              bravo_sizes Hb Hw ltac:(by rewrite Sa, Ka) ltac:(by rewrite Va) ltac:(lia) ltac:(lia))
    as (bb & qb & -> & Ob & Sb & Rb & Kb & Vb & Ib).
  cbn [defined mbind call_mbind cbind alfa bravo charlie msg_seq_number vdata error].
  apply round_error_cons in Hr as [(k3 & wc & rc & E3 & Hr & _)|(Hne & (rest & Hk) & Hf & -> & ->)]; [done|].
  destruct (batch_fails plain_content plain_store charlie_size 9 _ _ w (b_seq bb) (b_kernel bb) e rest (b_vdata bb)
              (plain_sizes _) Hc Hne ltac:(by rewrite Kb) Hf ltac:(by rewrite Vb, Va) ltac:(lia) ltac:(lia))
    as (bc & qc & -> & Oc & Rc & Uc).
  rewrite Sb, Sa in Rc. rewrite Sa in Ob, Rb. apply unread_queue in Ia, Ib.
  round_ends e Hf; rewrite Oa, Ob, Oc, Ra, Rb, Rc, app_nil_r; (eexists; split; [reflexivity | by split]).
Qed.

Lemma ended_run e : ∀ ops w s, ended e w s → w + Z.of_nat (length ops) < 2 ^ 62 → Forall op_ok ops → Forall is_push ops →
  out (run run_pusher_op ops s) = Returns (answer e <$> ops).
Proof.
  induction ops as [|o ops IH]; intros w s E Hw Ho Hp; cbn [run]; [done|]. rewrite length_cons in Hw.
  inversion Ho; subst. inversion Hp; subst. destruct (ended_op e w s o E ltac:(lia)) as (s' & -> & E'); try done.
  cbn [mbind call_mbind cbind]. specialize (IH (w + 1) s' E' ltac:(lia)). unfold out in *.
  destruct (run run_pusher_op ops s') as [[y s2]| |]; cbn in *; by specialize (IH ltac:(done) ltac:(done)); simplify_eq.
Qed.
End Spec.

(** ** The pusher from its start on *)

Definition spec_start (seq : Z) : pusher_spec := mkSpec (false, []) (false, []) (false, []) seq.

(** The thread on the rings [init] has made. *)
Definition pusher_start (seq : Z) (vdata : list iovec) : call pusher_queues :=
  thread_starts seq vdata PusherInit.alfa_init PusherInit.bravo_init PusherInit.charlie_init.

Lemma fresh_queue {A} content (P : A → Prop) q entry : 0 ≤ q < 20 → P entry →
  queue_inv content P q (mkQueue (mkRing (zlen (replicate (Z.to_nat (2 ^ q)) entry) - 1) 0 0 0 [1]
                                    (replicate (Z.to_nat (2 ^ q)) entry)) 1 0) (false, []) 0 [].
Proof.
  intros Hq HP. assert (0 < 2 ^ q) by (apply Z.pow_pos_nonneg; lia).
  split; cbn [ring_ cursor reg_number fst snd]; try done.
  - split; cbn [reduced_size buffer write_cursor max_read_cursor length]; rewrite ?length_replicate; try done; lia.
  - by apply Forall_replicate.
Qed.

Lemma pusher_starts IOV_MAX seq vd : 0 ≤ seq → IOV_MAX ≤ zlen vd →
  ∃ s, pusher_start seq vd = Returns s ∧ pusher_inv IOV_MAX seq 0 s (spec_start seq).
Proof.
  intros H0 Hv. unfold pusher_start, thread_starts, register_queue, PusherInit.alfa_init, PusherInit.bravo_init,
    PusherInit.charlie_init, PusherInit.ALFA_ENTRY_PROCESSORS, PusherInit.BRAVO_ENTRY_PROCESSORS,
    PusherInit.CHARLIE_ENTRY_PROCESSORS.
  rewrite !register_fresh. cbn [mbind call_mbind cbind]. eexists. split; [reflexivity|].
  split; cbn [alfa bravo charlie msg_seq_number error alive vdata spec_start s_alfa s_bravo s_charlie s_seq]; try done.
  - exists 0, []. split; [done|]. apply (fresh_queue plain_content alfa_size 10); [lia|].
    unfold alfa_size, PusherInit.zeros. by rewrite length_replicate.
  - exists 0, []. split; [done|]. apply (fresh_queue bdata bravo_size 7); [lia | done].
  - exists 0, []. split; [done|]. apply (fresh_queue plain_content charlie_size 9); [lia|].
    unfold charlie_size, PusherInit.zeros. by rewrite length_replicate.
Qed.

(** What the outcomes put on the wire and into the database. *)
Definition wire (outs : list outcome) : list Z :=
  concat ((λ o, match o with Wrote bytes _ => bytes | Returned _ => [] end) <$> outs).
Definition recorded (outs : list outcome) : list sent_record :=
  concat ((λ o, match o with Wrote _ records => records | Returned _ => [] end) <$> outs).

Definition in_queues (t : pusher_spec) : list waiting := (s_alfa t).2 ++ (s_bravo t).2 ++ (s_charlie t).2.

Lemma enqueue_snd size w q q' : enqueue size w q = Returns q' → q'.2 = q.2 ++ [w].
Proof. unfold enqueue. case_match; [|done]. by intros [= <-]. Qed.

Section Sent.
Context (IOV_MAX : Z) (start : list Z) (soh : Z).

Lemma spec_op_sends o t outs t' : spec_op IOV_MAX start soh o t = Returns (outs, t') →
  ∃ ws, wire outs = stream start soh (s_seq t) ws ∧ recorded outs = sent_records (s_seq t) ws
    ∧ s_seq t' = s_seq t + zlen ws ∧ ws ++ in_queues t' ≡ₚ in_queues t ++ accepted o.
Proof.
  unfold in_queues. destruct o as [now ttl mt x inner|now ttl mt x inner|kernel]; cbn [spec_op accepted].
  - set (w := queued_as now ttl mt x inner). destruct (16 <=? zlen mt).
    { intros [= <- <-]. exists []. cbn. rewrite Z.add_0_r, app_nil_r. done. }
    destruct (zlen (w_partial w) <=? 3828); destruct (enqueue _ w _) as [q| |] eqn:E; cbn [mbind call_mbind cbind];
      try done; intros [= <- <-]; exists []; cbn [s_alfa s_bravo s_charlie s_seq app length wire recorded stream sent_records];
      (split_and!; [done..| lia |]); rewrite (enqueue_snd _ _ _ _ E); solve_Permutation.
  - set (w := queued_as now ttl mt x inner). destruct (16 <=? zlen mt).
    { intros [= <- <-]. exists []. cbn. rewrite Z.add_0_r, app_nil_r. done. }
    destruct (zlen (w_partial w) <=? 244).
    + destruct (enqueue _ w _) as [q| |] eqn:E; cbn [mbind call_mbind cbind]; try done. intros [= <- <-]. exists [].
      cbn [s_alfa s_bravo s_charlie s_seq app length]. split_and!; [done..| lia |].
      rewrite (enqueue_snd _ _ _ _ E). solve_Permutation.
    + intros [= <- <-]. exists []. cbn. rewrite Z.add_0_r, app_nil_r. done.
  - destruct (takes_all _ _ _ kernel _ _) as [k1| |]; cbn [mbind call_mbind cbind]; [|done..].
    destruct (takes_all _ _ _ k1 _ _) as [k2| |]; cbn [mbind call_mbind cbind]; [|done..].
    destruct (takes_all _ _ _ k2 _ _) as [k3| |]; cbn [mbind call_mbind cbind]; [|done..].
    intros [= <- <-]. exists ((s_alfa t).2 ++ (s_bravo t).2 ++ (s_charlie t).2).
    unfold wire, recorded. cbn [fmap list_fmap concat s_alfa s_bravo s_charlie s_seq].
    rewrite !emptied_nil, !app_nil_r. done.
Qed.

Lemma spec_sends ops : ∀ t outs t', run (spec_op IOV_MAX start soh) ops t = Returns (outs, t') →
  ∃ ws, wire outs = stream start soh (s_seq t) ws ∧ recorded outs = sent_records (s_seq t) ws
    ∧ s_seq t' = s_seq t + zlen ws ∧ ws ++ in_queues t' ≡ₚ in_queues t ++ concat (accepted <$> ops).
Proof.
  induction ops as [|o ops IH]; intros t outs t'; cbn [run].
  - intros [= <- <-]. exists []. cbn. rewrite Z.add_0_r, app_nil_r. done.
  - destruct (spec_op _ _ _ o t) as [[a t1]| |] eqn:E; cbn [mbind call_mbind cbind]; [|done..].
    destruct (run _ ops t1) as [[b t2]| |] eqn:E2; cbn [mbind call_mbind cbind]; [|done..]. intros [= <- <-].
    apply spec_op_sends in E as (w1 & W1 & R1 & S1 & P1). apply IH in E2 as (w2 & W2 & R2 & S2 & P2).
    exists (w1 ++ w2). unfold wire, recorded in *. rewrite !fmap_app, !concat_app, W1, R1, W2, R2, stream_app, sent_records_app, S2, S1, length_app.
    split_and!; [done..| lia |]. cbn [fmap list_fmap concat]. rewrite <- app_assoc, P2, app_assoc, P1. by rewrite app_assoc.
Qed.
End Sent.

(** ** Properties *)

(** A client's view of a run that begins with [init] and the thread. *)
Definition pusher_run (IOV_MAX : Z) (start : list Z) (soh : Z) (malloc : Z → option (list Z)) (seq : Z) (vdata : list iovec)
    (ops : list pusher_op) : call (list outcome) :=
  s ← pusher_start seq vdata; out (run (run_pusher_op IOV_MAX start soh malloc) ops s).

Section Properties.
Context (IOV_MAX : Z) (soh : Z) (start : list Z) (malloc : Z → option (list Z)) (seq : Z) (vdata : list iovec).
Context (malloc_ok : ∀ sz, 0 ≤ sz → ∃ b, malloc sz = Some b ∧ zlen b = sz).
Context (start_short : zlen start ≤ 31) (vector_size : 0 ≤ IOV_MAX ≤ 2 ^ 20) (vector : IOV_MAX ≤ zlen vdata).
#[local] Abbreviation spec := (spec_op IOV_MAX start soh).

(** A run is long, or numbered high, when it would wrap a cursor or the number
    around. *)
Definition short_run (n : nat) : Prop := 0 ≤ seq ∧ Z.of_nat n ≤ 2 ^ 62 - 1 ∧ seq + Z.of_nat n < 2 ^ 64.

Lemma pusher_run_reaches ops outs t : Forall op_ok ops → short_run (length ops) →
  run spec ops (spec_start seq) = Returns (outs, t) →
  ∃ s s' w, pusher_start seq vdata = Returns s ∧ run (run_pusher_op IOV_MAX start soh malloc) ops s = Returns (outs, s')
    ∧ pusher_inv IOV_MAX seq w s' t ∧ w ≤ Z.of_nat (length ops).
Proof.
  intros Hok (H0 & Hn & Hs) Hr. destruct (pusher_starts IOV_MAX seq vdata H0 vector) as (s & Hst & I).
  destruct (run_reaches op_ok (run_pusher_op IOV_MAX start soh malloc) spec (λ w s t, pusher_inv IOV_MAX seq w s t) ops
              (Z.of_nat (length ops))) with (w := 0) (s := s) (t := spec_start seq) (a := outs) (t' := t)
    as (s' & w & Hrun & I' & Hw); try done.
  - intros o w s1 t1 Ho I1 Hw. by apply (pusher_op_ok _ _ _ malloc malloc_ok start_short vector_size seq (Z.of_nat (length ops))).
  - exists s, s', w. split_and!; (done || lia).
Qed.


(** C40: an error of [writev] ends the thread, whichever of the three batches of
    a round it answers, after any operations that went as [spec_op] says: of the batch that fails (smaller than the vector, and
    nothing of it taken yet) nothing is written, though it is recorded as sent,
    like the batches before it, which were taken whole; of the batches behind it
    nothing is written or recorded.  From then on no push waits, each is put on a queue that
    nobody reads and answers the error, unless its type or size is refused. *)
Theorem write_error_ends_thread ops outs t kernel e written recorded more :
  Forall op_ok (ops ++ more) → Forall is_push more → short_run (S (length (ops ++ more))) →
  run spec ops (spec_start seq) = Returns (outs, t) →
  round_error IOV_MAX start soh kernel (s_seq t) [(s_alfa t).2; (s_bravo t).2; (s_charlie t).2]
  = Some (e, written, recorded) →
  pusher_run IOV_MAX start soh malloc seq vdata (ops ++ Round kernel :: more)
  = Returns (outs ++ Wrote (stream start soh (s_seq t) written) (sent_records (s_seq t) recorded)
                  :: (answer e <$> more)).
Proof.
  intros [Ho Hm]%Forall_app Hp (H0 & Hn & Hs) Hr He. rewrite Nat2Z.inj_succ, length_app in Hn, Hs.
  destruct (pusher_run_reaches ops outs t Ho) as (s & s1 & w & Hst & Hrun & I & Hw); [split_and!; lia | done |].
  destruct (round_fails IOV_MAX start soh malloc start_short vector_size seq w s1 t kernel e written recorded I) as (s2 & Hround & E);
    [lia.. | done |].
  unfold pusher_run. rewrite Hst. cbn [mbind call_mbind cbind]. rewrite run_app, Hrun. cbn [mbind call_mbind cbind run].
  rewrite Hround. cbn [mbind call_mbind cbind].
  pose proof (ended_run IOV_MAX start soh malloc malloc_ok e more w s2 E ltac:(lia) Hm Hp) as Hend. unfold out in Hend |- *.
  destruct (run _ more s2) as [[y s3]| |]; cbn in *; by simplify_eq.
Qed.
End Properties.

Section Pushed.
Context (IOV_MAX : Z) (soh : Z) (start : list Z) (malloc : Z → option (list Z)) (seq : Z) (vdata : list iovec).
Context (malloc_ok : ∀ sz, 0 ≤ sz → ∃ b, malloc sz = Some b ∧ zlen b = sz).
Context (start_short : zlen start ≤ 31) (vector_size : 0 ≤ IOV_MAX ≤ 2 ^ 20) (vector : IOV_MAX ≤ zlen vdata).

(** After a last round all that was accepted has been written. *)
Lemma pushed_stream ops kernel outs t : Forall op_ok ops → short_run seq (S (length ops)) →
  run (spec_op IOV_MAX start soh) (ops ++ [Round kernel]) (spec_start seq) = Returns (outs, t) →
  pusher_run IOV_MAX start soh malloc seq vdata (ops ++ [Round kernel]) = Returns outs
  ∧ ∃ ws, ws ≡ₚ concat (accepted <$> ops) ∧ wire outs = stream start soh seq ws ∧ recorded outs = sent_records seq ws.
Proof.
  intros Hok (H0 & Hn & Hs) Hr. split.
  - unfold pusher_run. destruct (pusher_run_reaches IOV_MAX soh start malloc seq vdata malloc_ok start_short vector_size vector
        (ops ++ [Round kernel]) outs t) as (s & s' & w & -> & Hrun & _).
    + apply Forall_app; split; [done|]. by constructor.
    + rewrite length_app. cbn [length]. split_and!; lia.
    + done.
    + cbn [mbind call_mbind cbind]. by rewrite Hrun.
  - pose proof Hr as Hsend. apply spec_sends in Hsend as (ws & Hw & Hrec & _ & Hperm). cbn [spec_start s_seq] in Hw, Hrec.
    exists ws. assert (Hempty : in_queues t = []).
    { rewrite run_app in Hr. destruct (run _ ops _) as [[a t1]| |]; cbn [mbind call_mbind cbind run] in Hr; [|done..].
      destruct (spec_op _ _ _ (Round kernel) t1) as [[b t2]| |] eqn:E; cbn [mbind call_mbind cbind] in Hr; [|done..].
      injection Hr as _ <-. cbn [spec_op] in E.
      repeat (destruct (takes_all _ _ _ _ _ _) as [?| |]; cbn [mbind call_mbind cbind] in E; [|done..]).
      injection E as _ <-. unfold in_queues. cbn [s_alfa s_bravo s_charlie]. by rewrite !emptied_nil. }
    split_and!; try done. rewrite Hempty, app_nil_r, fmap_app, concat_app in Hperm. cbn in Hperm. by rewrite app_nil_r in Hperm.
Qed.
End Pushed.

Section Arrival.
Context (IOV_MAX : Z) (soh : Z) (ver pad : list Z) (malloc : Z → option (list Z)) (seq : Z) (vdata : list iovec).
Context (malloc_ok : ∀ sz, 0 ≤ sz → ∃ b, malloc sz = Some b ∧ zlen b = sz).
#[local] Abbreviation start := (Delivery.start_of soh ver).
Context (start_short : zlen start ≤ 31) (vector_size : 0 ≤ IOV_MAX ≤ 2 ^ 20) (vector : IOV_MAX ≤ zlen vdata).
Context (splitter_malloc : nat → Z → option (list Z)).
Context (acquire_delta : nat → Splitter.delta_t) (acquire_echo : nat → list Z).
Context (CACHE_LINE_SIZE : Z) (tx_malloc : nat → Z → option (list Z))
        (tx_realloc : nat → Z → option (bool * list Z)).
Context (fixmsg_rx : FixMessageRX.FIXMessageRX).
Context `{!Delivery.SplitterEnv splitter_malloc acquire_delta acquire_echo}.
#[local] Abbreviation entries := (Splitter.splitter_entries (start ++ 0 :: pad) (zlen start) soh splitter_malloc
  acquire_delta acquire_echo CACHE_LINE_SIZE tx_malloc tx_realloc fixmsg_rx).

(** from the clients of one side to the queues of the other: when a sequence
    of pushes and rounds ends with a round, every message accepted, and nothing
    else, is written once and recorded, under numbers from [seq + 1] on; and
    wherever the transport cuts these bytes, the splitter of the other side, if it
    expects that number, stores and delivers exactly these messages, in that
    order. *)
Theorem pushes_arrive ops kernel outs t : Forall op_ok ops → short_run seq (S (length ops)) →
  run (spec_op IOV_MAX start soh) (ops ++ [Round kernel]) (spec_start seq) = Returns (outs, t) →
  pusher_run IOV_MAX start soh malloc seq vdata (ops ++ [Round kernel]) = Returns outs
  ∧ ∃ ws, ws ≡ₚ concat (accepted <$> ops) ∧ wire outs = stream start soh seq ws ∧ recorded outs = sent_records seq ws
  ∧ ∀ chunks st, Delivery.wire_ok soh ver → Delivery.stream_ok start soh seq ws → seq + zlen ws < 2 ^ 64 - 1 →
    concat chunks = wire outs → Forall (λ c, zlen c < 2 ^ 32) chunks → Delivery.ready seq st →
    ∃ st' evs, entries chunks st = Some st' ∧ Delivery.ready (seq + zlen ws) st'
      ∧ Splitter.events st' = Splitter.events st ++ evs ∧ Delivery.stream_delivered start soh seq ws evs.
Proof.
  intros Hok Hshort Hr. destruct (pushed_stream IOV_MAX soh start malloc seq vdata malloc_ok start_short vector_size vector
    ops kernel outs t Hok Hshort Hr) as (Hrun & ws & Hperm & Hw & Hrec).
  split; [done|]. exists ws. split_and!; try done. intros chunks st Hwire Hso Hmax Hcat Hcs Hready. rewrite Hw in Hcat.
  apply (Delivery.deliver_in_env soh ver pad splitter_malloc acquire_delta acquire_echo CACHE_LINE_SIZE tx_malloc tx_realloc
    fixmsg_rx); try done. by destruct Hshort.
Qed.
End Arrival.

(** ** Witnesses *)

Definition demo_malloc (sz : Z) : option (list Z) := Some (replicate (Z.to_nat sz) 0).

Lemma demo_malloc_ok sz : 0 ≤ sz → ∃ b, demo_malloc sz = Some b ∧ zlen b = sz.
Proof. intros H. eexists. split; [reflexivity|]. rewrite length_replicate. lia. Qed.

Definition demo_vector : list iovec := replicate 4 (mkIov [] 0).
Definition demo_begin : list Z := Delivery.start_of 1 Delivery.demo_ver.

(** A message, a heartbeat, one with a type that is too long. *)
Definition demo_pushes : list pusher_op :=
  [Push (0, 0) (0, 0) [68] 1 (w_inner demo_waiting);
   SessionPush (0, 0) (0, 0) [48] 1 (w_inner Delivery.demo_heartbeat);
   Push (0, 0) (0, 0) (replicate 20 68) 1 []].

(** A round with one vector for each of the two queues. *)
Definition demo_kernel : list wret :=
  [WErr EINTR; WOk (zlen (stream demo_begin 1 7 [demo_waiting]));
   WOk (zlen (stream demo_begin 1 8 [Delivery.demo_heartbeat]))].

Definition demo_outs : list outcome :=
  [Returned 0; Returned 0; Returned EINVAL;
   Wrote (stream demo_begin 1 7 [demo_waiting; Delivery.demo_heartbeat])
     (sent_records 7 [demo_waiting; Delivery.demo_heartbeat])].

Lemma demo_pushes_ok : Forall op_ok demo_pushes.
Proof. repeat constructor; done. Qed.


(** The first batch is taken, the heartbeat behind it meets the error. *)
Lemma write_error_ends_thread_witness :
  pusher_run 4 demo_begin 1 demo_malloc 7 demo_vector
    (demo_pushes ++ Round [WErr EINTR; WOk (zlen (stream demo_begin 1 7 [demo_waiting])); WErr EAGAIN; WErr 32] :: demo_pushes)
  = Returns [Returned 0; Returned 0; Returned EINVAL;
             Wrote (stream demo_begin 1 7 [demo_waiting]) (sent_records 7 [demo_waiting; Delivery.demo_heartbeat]);
             Returned 32; Returned 32; Returned EINVAL].
Proof.
  eapply (write_error_ends_thread 4 1 demo_begin demo_malloc 7 demo_vector demo_malloc_ok ltac:(vm_compute; discriminate)
           ltac:(split; vm_compute; discriminate) ltac:(vm_compute; discriminate) demo_pushes
           [Returned 0; Returned 0; Returned EINVAL]
           (mkSpec (false, [demo_waiting]) (false, []) (false, [Delivery.demo_heartbeat]) 7)
           _ 32 [demo_waiting] [demo_waiting; Delivery.demo_heartbeat] demo_pushes).
  - apply Forall_app. split; exact demo_pushes_ok.
  - repeat constructor.
  - split_and!; vm_compute; (reflexivity || discriminate).
  - vm_compute. reflexivity.
  - vm_compute. reflexivity.
Defined.

#[local] Existing Instance Delivery.demo_env.

Lemma pushes_arrive_witness :
  ∃ outs, pusher_run 4 demo_begin 1 demo_malloc 7 demo_vector (demo_pushes ++ [Round demo_kernel]) = Returns outs
    ∧ ∃ st' evs,
        Splitter.splitter_entries (demo_begin ++ 0 :: []) (zlen demo_begin) 1
          FixMessageTX.malloc_ok Splitter.demo_delta Splitter.demo_echo 64 FixMessageTX.malloc_ok FixMessageTX.realloc_ok
          Splitter.demo_rx [wire outs] (Splitter.demo_splitter 7) = Some st'
        ∧ Delivery.ready 9 st' ∧ Splitter.events st' = Splitter.events (Splitter.demo_splitter 7) ++ evs
        ∧ Delivery.stream_delivered demo_begin 1 7 [demo_waiting; Delivery.demo_heartbeat] evs.
Proof.
  destruct (pushes_arrive 4 1 Delivery.demo_ver [] demo_malloc 7 demo_vector demo_malloc_ok ltac:(vm_compute; discriminate)
              ltac:(split; vm_compute; discriminate) ltac:(vm_compute; discriminate) FixMessageTX.malloc_ok Splitter.demo_delta
              Splitter.demo_echo 64 FixMessageTX.malloc_ok FixMessageTX.realloc_ok Splitter.demo_rx demo_pushes demo_kernel
              demo_outs
              (mkSpec (true, []) (false, []) (true, []) 9)) as (Hrun & ws & _ & Hw & Hrec & Harrive).
  - exact demo_pushes_ok.
  - split_and!; vm_compute; (reflexivity || discriminate).
  - vm_compute. reflexivity.
  - assert (Hws : ws = [demo_waiting; Delivery.demo_heartbeat]).
    { symmetry. apply (sent_records_inj _ 7). rewrite <- Hrec. vm_compute. reflexivity. }
    eexists. split; [exact Hrun|]. subst ws.
    destruct (Harrive [wire demo_outs] (Splitter.demo_splitter 7) Delivery.demo_wire_ok Delivery.demo_stream_ok) as (st' & evs & Hst & Hr & He & Hd).
    + reflexivity.
    + cbn [concat]. apply app_nil_r.
    + constructor; [vm_compute; reflexivity | constructor].
    + exact Delivery.demo_ready.
    + change (7 + zlen [demo_waiting; Delivery.demo_heartbeat]) with 9 in Hr.
      exists st', evs. exact (conj Hst (conj Hr (conj He Hd))).
Defined.
