(* ===== verification/Reception.v ===== *)
(** * From the socket to the client
    ([src/applib/fixio/fix_popper.cpp]: the sucker and the splitter thread, [pop]
    and [session_pop] on their rings)

    The sucker publishes what [recvfrom] returns on foxtrot, the splitter takes
    the entries from there one round of its loop at a time and commits messages
    on delta and echo, and a client takes them.  [Turn] is one such round, or one
    of the calls between two rounds; every call on a ring happens at once, and a
    schedule is any order of the steps that need not wait.  [inv] relates the rings
    to the stream received; the lemmas say that every turn keeps it and does some
    of the [work], so that the threads come to rest.  [EndToEnd] draws the
    conclusions. *)
From S2P Require Import Prelude Primitives FixMsgUtils FixTypes FixFields FixMessageRX FixMessageTX.
From S2P Require Import Disruptor RingQueue PopperQueues.
From S2P Require Pusher PusherThread Splitter Delivery Popper Feeding.

Abbreviation splitter := Splitter.splitter.

(** ** State *)

(** Where the splitter thread is: before its registration on foxtrot; before
    [wait_for], which begins at [cursor]; at position [k] of entry [n], when it
    may go on to entry [upper]; there too, but it has committed an entry of delta
    (of echo) and must claim the next one. *)
Inductive place := Unregistered | Top (cursor : Z) | AtEntry (n upper k : Z) | NextDelta (n upper k : Z)
                 | NextEcho (n upper k : Z).

(** [sucking]: the sucker has not ended.  [delta_cursor] and [echo_cursor] are
    the entries the splitter has claimed; the delta entry is part of the state of
    [Splitter], [echo_entry] is the other. *)
Record reception := mkReception {
  foxtrot : ring (list Z); sucking : bool;
  delta : delta_queue; echo : echo_queue;
  at_ : place; foxtrot_reg_number : nat; delta_cursor : Z; echo_cursor : Z; echo_entry : list Z;
  the_splitter : splitter }.

Definition with_foxtrot (r : ring (list Z)) (b : bool) (s : reception) : reception :=
  mkReception r b (delta s) (echo s) (at_ s) (foxtrot_reg_number s) (delta_cursor s) (echo_cursor s) (echo_entry s)
    (the_splitter s).
Definition with_place (p : place) (st : splitter) (s : reception) : reception :=
  mkReception (foxtrot s) (sucking s) (delta s) (echo s) p (foxtrot_reg_number s) (delta_cursor s) (echo_cursor s)
    (echo_entry s) st.
Definition with_delta (q : delta_queue) (c : Z) (s : reception) : reception :=
  mkReception (foxtrot s) (sucking s) q (echo s) (at_ s) (foxtrot_reg_number s) c (echo_cursor s) (echo_entry s)
    (the_splitter s).
Definition with_echo (q : echo_queue) (c : Z) (e : list Z) (s : reception) : reception :=
  mkReception (foxtrot s) (sucking s) (delta s) q (at_ s) (foxtrot_reg_number s) (delta_cursor s) c e (the_splitter s).

Definition set_echo_ (r : ring (list Z)) (q : echo_queue) : echo_queue :=
  mkEchoQueue r (echo_n_ q) (echo_cursor_upper_limit_ q) (echo_reg_number_ q).

(** ** The sucker *)

Definition retried (errno : Z) : bool := (errno =? Popper.ETIMEDOUT) || (errno =? Pusher.EAGAIN) || (errno =? Pusher.EINTR).

(** [recvfrom] returns once; the entry is the one the thread has claimed. *)
Definition receive (x : Popper.recv_ret) (s : reception) : call reception :=
  if negb (sucking s) then Waits
  else
    entry ← defined (show_entry (foxtrot s) (u64 (1 + write_cursor (foxtrot s))));
    let ends := e ← defined (setu32 entry 0 0); r ← spin_publish e (foxtrot s); Returns (with_foxtrot r false s) in
    match x with
    | Popper.RecvData d =>
        e ← defined (e ← write_at entry 4 d; setu32 e 0 (zlen d));
        r ← spin_publish e (foxtrot s);
        Returns (with_foxtrot r true s)
    | Popper.RecvClosed => ends
    | Popper.RecvErr errno =>
        if retried errno then Returns s else ends
    end.

(** ** The splitter *)

Definition claim_delta (s : reception) : call reception :=
  '(c, r) ← claim no_message (delta_ (delta s));
  d ← defined (show_entry r c);
  let s := with_delta (set_delta_ r (delta s)) c s in
  Returns (with_place (at_ s) (Splitter.set_delta d (Splitter.allocs (the_splitter s)) (the_splitter s)) s).

Definition claim_echo (s : reception) : call reception :=
  '(c, r) ← claim [] (echo_ (echo s));
  e ← defined (show_entry r c);
  Returns (with_echo (set_echo_ r (echo s)) c e s).

(** What the thread does before its loop. *)
Definition begin (s : reception) : call reception :=
  '(c, n, r) ← barrier_register (foxtrot s);
  let s := mkReception r (sucking s) (delta s) (echo s) (Top c) n (delta_cursor s) (echo_cursor s) (echo_entry s)
             (the_splitter s) in
  s ← claim_delta s;
  claim_echo s.

Section Turn.
Context (begin_string : list Z) (begin_string_length : Z) (soh : Z).
Context (malloc : nat → Z → option (list Z)).
Context (CACHE_LINE_SIZE : Z) (tx_malloc : nat → Z → option (list Z))
        (tx_realloc : nat → Z → option (bool * list Z)).
Context (fixmsg_rx : FIXMessageRX).

(** A round at position [k] of the entry [content]: the entry committed is the
    one [Splitter] reports as queued. *)
Definition round (n upper k : Z) (content : list Z) (s : reception) : call reception :=
  let st := the_splitter s in
  '(k, st') ← defined (Splitter.splitter_step begin_string begin_string_length soh malloc (λ _, no_message)
                         (λ _, echo_entry s) CACHE_LINE_SIZE tx_malloc tx_realloc fixmsg_rx content k st);
  match Feeding.queued (drop (length (Splitter.events st)) (Splitter.events st')) with
  | [] => Returns (with_place (AtEntry n upper k) st' s)
  | Splitter.ToDelta e :: _ =>
      r ← commit_entry (delta_cursor s) e (delta_ (delta s));
      Returns (with_place (NextDelta n upper k) st' (with_delta (set_delta_ r (delta s)) (delta_cursor s) s))
  | Splitter.ToEcho e :: _ =>
      r ← commit_entry (echo_cursor s) e (echo_ (echo s));
      Returns (with_place (NextEcho n upper k) st' (with_echo (set_echo_ r (echo s)) (echo_cursor s) (echo_entry s) s))
  | _ :: _ => Undefined
  end.

Definition turn (s : reception) : call reception :=
  match at_ s with
  | Unregistered => begin s
  | Top c =>
      match wait_for_nonblocking c (foxtrot s) with
      | None => Waits
      | Some upper => Returns (with_place (AtEntry c upper 0) (the_splitter s) s)
      end
  | AtEntry n upper k =>
      if upper <? n then Returns (with_place (Top (u64 (upper + 1))) (the_splitter s) s)
      else
        entry ← defined (show_entry (foxtrot s) n);
        content ← defined (Popper.foxtrot_content entry);
        if k <? zlen content then round n upper k content s
        else
          let s := with_foxtrot (release_entry (foxtrot_reg_number s) n (foxtrot s)) (sucking s) s in
          Returns (with_place (AtEntry (u64 (n + 1)) upper 0) (the_splitter s) s)
  | NextDelta n upper k => s ← claim_delta s; Returns (with_place (AtEntry n upper k) (the_splitter s) s)
  | NextEcho n upper k => s ← claim_echo s; Returns (with_place (AtEntry n upper k) (the_splitter s) s)
  end.

(** ** Schedules *)

Inductive rop := Receive (x : Popper.recv_ret) | Turn | PopMessage | PopSession.

(** What a client gets: a message, or a session message. *)
Inductive taken := Message (m : RawMessage) | Session (m : Z * Z * list Z).

Definition run_rop (o : rop) (s : reception) : call (list taken * reception) :=
  match o with
  | Receive x => s ← receive x s; Returns ([], s)
  | Turn => s ← turn s; Returns ([], s)
  | PopMessage =>
      '(m, q) ← pop true (delta s);
      Returns (Message <$> option_list m, with_delta q (delta_cursor s) s)
  | PopSession =>
      '(len, off, d, q) ← session_pop (echo s);
      Returns ([Session (len, off, d)], with_echo q (echo_cursor s) (echo_entry s) s)
  end.
End Turn.

(** After [init] and [start]: the threads run. *)
Definition reception_start (st : splitter) : call reception :=
  d ← init_delta;
  e ← init_echo;
  Returns (mkReception init_foxtrot true d e Unregistered 0 0 0 [] st).

Definition messages (l : list taken) : list RawMessage := omap (λ t, match t with Message m => Some m | _ => None end) l.
Definition sessions (l : list taken) : list (Z * Z * list Z) := omap (λ t, match t with Session m => Some m | _ => None end) l.

(** ** How much there is to do *)

(** What waits on foxtrot from entry [n] on. *)
Definition waiting_contents (r : ring (list Z)) (n : Z) : list (list Z) :=
  omap (λ t, e ← show_entry r t; Popper.foxtrot_content e) (seqZ n (max_read_cursor r + 1 - n)).

Definition first_entry (s : reception) : Z :=
  match at_ s with Unregistered => 1 | Top n | AtEntry n _ _ | NextDelta n _ _ | NextEcho n _ _ => n end.

(** Two rounds per byte, four units each, and four for every entry; a bound on
    the turns and calls that do not wait. *)
Definition all_work (cs : list (list Z)) : Z := foldr (λ c m, 8 * zlen c + 4 + m) 0 cs.

Definition entry_work (k : Z) (st : splitter) (cs : list (list Z)) : Z :=
  match cs with [] => 0 | c :: cs => 4 * Z.max 0 (Splitter.rounds c k st) + 4 + all_work cs end.

Definition fox_work (p : place) (st : splitter) (cs : list (list Z)) : Z :=
  match p with
  | Unregistered => 2 + all_work cs
  | Top _ => 1 + all_work cs
  | AtEntry n upper k => if upper <? n then 2 + all_work cs else entry_work k st cs
  | NextDelta _ _ k | NextEcho _ _ k => 1 + entry_work k st cs
  end.

Definition work (s : reception) : Z :=
  fox_work (at_ s) (the_splitter s) (waiting_contents (foxtrot s) (first_entry s))
  + (max_read_cursor (delta_ (delta s)) + 1 - delta_n_ (delta s))
  + (max_read_cursor (echo_ (echo s)) + 1 - echo_n_ (echo s)).

(** What [recvfrom] can return. *)
Definition possible (o : rop) : Prop := match o with Receive x => Popper.recv_ok x | _ => True end.

(** The foxtrot entry a return of [recvfrom] becomes. *)
Definition chunk_of (o : rop) : list (list Z) :=
  match o with
  | Receive (Popper.RecvData d) => [d]
  | Receive Popper.RecvClosed => [[]]
  | Receive (Popper.RecvErr e) =>
      if retried e then [] else [[]]
  | _ => []
  end.
Definition chunks (ops : list rop) : list (list Z) := concat (chunk_of <$> ops).

(** A condition on the schedule that nothing in the source enforces: the sucker
    publishes at most [room] entries before the splitter takes its first step, in
    which it registers.  An unregistered reader holds no writer back, and begins
    with the last entry of the lap: entries published before may be lost
    ([EndToEnd.early_entries_lost]). *)
Fixpoint prompt (room : nat) (ops : list rop) {struct ops} : Prop :=
  match ops with
  | [] | Turn :: _ => True
  | o :: ops => (length (chunk_of o) ≤ room)%nat ∧ prompt (room - length (chunk_of o)) ops
  end.

(** ** The rings as queues *)

(** [msgs] wait on delta, [w] have been committed; [claimed]: the splitter holds
    entry [w + 1]; [p]: something has been popped. *)
Record delta_inv (claimed : bool) (q : delta_queue) (p : bool) (msgs : list delta_t) (w : Z) : Prop := {
  d_ok : queue_ok (set_delta_ (set_write w (delta_ q)) q) (p, msgs) w;
  d_rest : rest_are 7 no_message (delta_ q) (delta_n_ q) w;
  d_write : write_cursor (delta_ q) = if claimed then w + 1 else w;
  d_room : claimed = true → w + 1 - delta_n_ q ≤ 127 }.

Lemma set_write_same {A} (r : ring A) w : write_cursor r = w → set_write w r = r.
Proof. intros <-. by destruct r. Qed.

Lemma delta_claim q p msgs w : delta_inv false q p msgs w → w < 2 ^ 62 - 1 →
  if zlen msgs <? (if p then 127 else 128)
  then ∃ r, claim no_message (delta_ q) = Returns (w + 1, r) ∧ show_entry r (w + 1) = Some no_message
            ∧ delta_inv true (set_delta_ r q) p msgs w
  else claim no_message (delta_ q) = Waits.
Proof.
  intros [(H & Hc & Hu & Hreg & Hp) Hrest Hw _] Hmax. cbn [set_delta_ delta_ delta_n_ delta_cursor_upper_limit_ delta_reg_number_ fst snd] in *.
  rewrite (set_write_same _ _ Hw) in H. pose proof (holds_bound _ _ _ _ _ H) as [Hn H0]. pose proof (h_len _ _ _ _ _ H) as Hl.
  cbn [set_write entry_processor_cursors] in Hc. set (c := if p then delta_n_ q - 1 else 1) in *.
  assert (Hcb : 1 ≤ c ≤ delta_n_ q ∧ c ≤ w + 1) by (unfold c; destruct p; lia).
  pose proof (holds_claim 7 _ _ w msgs no_message c H ltac:(lia)) as Hcl. rewrite Hc in Hcl. change (2 ^ 7 - 1) with 127 in Hcl.
  specialize (Hcl (slowest_one 7 c ltac:(unfold VACANT; lia)) ltac:(lia) ltac:(lia)).
  replace (zlen msgs <? (if p then 127 else 128)) with (w + 1 - c <=? 127)
    by (unfold c; destruct p; apply Bool.eq_iff_eq_true; rewrite Z.leb_le, Z.ltb_lt; lia).
  destruct (w + 1 - c <=? 127) eqn:E; [|done]. destruct Hcl as (r & -> & (Hh & Hwr & Hroom) & Hc' & Hb & Hsz).
  assert (Hshow : ∀ t, show_entry r t = show_entry (delta_ q) t) by (intros t; unfold show_entry, entry_index; by rewrite Hb, Hsz).
  change (2 ^ 7 - 1) with 127 in Hroom.
  exists r. split; [done|]. split; [rewrite Hshow; apply Hrest; change (2 ^ 7) with 128; lia|].
  split; cbn [set_delta_ delta_ delta_n_]; [|by intros t Ht; rewrite Hshow; apply Hrest|done|lia].
  split; [exact Hh|]. cbn [set_delta_ delta_ delta_n_ delta_cursor_upper_limit_ delta_reg_number_ fst snd set_write entry_processor_cursors]. by rewrite Hc'.
Qed.

Lemma delta_commit q p msgs w e : delta_inv true q p msgs w → w < 2 ^ 62 - 1 →
  ∃ r, commit_entry (w + 1) e (delta_ q) = Returns r ∧ delta_inv false (set_delta_ r q) p (msgs ++ [e]) (w + 1).
Proof.
  intros [(H & Hc & Hu & Hreg & Hp) Hrest Hw Hroom] Hmax. specialize (Hroom eq_refl).
  cbn [set_delta_ delta_ delta_n_ delta_cursor_upper_limit_ delta_reg_number_ fst snd] in *.
  destruct (claimed_commit 7 (delta_ q) (delta_n_ q) w msgs e) as (r & -> & Hr & Hc' & Hb & Hsz); [by split_and! | lia|].
  exists r. split; [done|]. pose proof (h_write _ _ _ _ _ Hr) as Hwr.
  split; cbn [set_delta_ delta_ delta_n_]; [| |done|done].
  - split; cbn [set_delta_ delta_ delta_n_ delta_cursor_upper_limit_ delta_reg_number_ fst snd]; [by rewrite (set_write_same _ _ Hwr)|].
    cbn [set_write entry_processor_cursors] in Hc |- *. rewrite Hc'. split_and!; (done || lia).
  - apply (rest_commit 7 no_message (set_write w (delta_ q)) r (delta_n_ q) w msgs e); done.
Qed.

(** What [pop] does to the ring. *)
Lemma pop_ring q m q' : pop true q = Returns (m, q') →
  delta_ q' = release_entry (delta_reg_number_ q) (delta_n_ q) (store_entry (delta_n_ q) no_message (delta_ q))
  ∧ delta_n_ q' = u64 (delta_n_ q + 1).
Proof.
  unfold pop. cbn [negb]. destruct (if delta_n_ q =? _ then _ else _) as [upper| |]; cbn [mbind call_mbind cbind]; [|done..].
  destruct (show_entry (delta_ q) (delta_n_ q)) as [e|]; cbn [defined cbind Splitter.pop]; [|done]. by intros [= _ <-].
Qed.

(** It does not look at the write cursor. *)
Lemma pop_set_write q w : pop true (set_delta_ (set_write w (delta_ q)) q)
  = '(m, q') ← pop true q; Returns (m, set_delta_ (set_write w (delta_ q')) q').
Proof.
  unfold pop. cbn [negb set_delta_ delta_ delta_n_ delta_cursor_upper_limit_ delta_reg_number_].
  change (wait_for_blocking (delta_cursor_upper_limit_ q) (set_write w (delta_ q)))
    with (wait_for_blocking (delta_cursor_upper_limit_ q) (delta_ q)).
  destruct (if delta_n_ q =? _ then _ else _) as [upper| |]; cbn [mbind call_mbind cbind]; [|done..].
  change (show_entry (set_write w (delta_ q)) (delta_n_ q)) with (show_entry (delta_ q) (delta_n_ q)).
  by destruct (show_entry (delta_ q) (delta_n_ q)) as [e|].
Qed.

Lemma delta_pop claimed q p msgs w : delta_inv claimed q p msgs w → w < 2 ^ 62 - 1 →
  match msgs with
  | [] => pop true q = Waits
  | m :: msgs => ∃ q', pop true q = Returns (Some (raw m), q') ∧ delta_inv claimed q' true msgs w
  end.
Proof.
  intros [Hok Hrest Hw Hroom] Hmax. pose proof (queue_op_ok Pop _ _ w Hok Hmax) as H. cbn [queue_op run_op snd] in H.
  rewrite pop_set_write in H. destruct msgs as [|m msgs].
  { destruct (pop true q) as [[]| |]; done. }
  destruct H as (q1 & w' & Hpop & Hok' & _). destruct (pop true q) as [[x q']| |] eqn:E; cbn [mbind call_mbind cbind] in Hpop; [|done..].
  injection Hpop as Hx Hq1. assert (Hxm : x = Some (raw m)) by (destruct x; cbn in Hx; congruence). subst x.
  exists q'. split; [done|]. apply pop_ring in E as [Hr Hn].
  destruct Hok as (H & _). destruct Hok' as (H' & Hok'). rewrite <- Hq1 in H', Hok'.
  cbn [set_delta_ delta_ delta_n_ fst snd] in H, H', Hok'. pose proof (holds_bound _ _ _ _ _ H) as [Hnb _].
  assert (Hw' : w' = w).
  { pose proof (h_read _ _ _ _ _ H') as Hm'. pose proof (h_read _ _ _ _ _ H) as Hm. rewrite Hr in Hm'. cbn in Hm', Hm. congruence. }
  pose proof (h_first _ _ _ _ _ H).
  subst w'. assert (Hn1 : u64 (delta_n_ q + 1) = delta_n_ q + 1) by (unfold u64; rewrite Z.mod_small; lia). rewrite Hn1 in Hn.
  split; [by split | | by rewrite Hr | rewrite Hn; intros Hcl; specialize (Hroom Hcl); lia].
  rewrite Hr, Hn. exact (rest_take 7 no_message (set_write w (delta_ q)) (delta_n_ q) w m msgs H Hrest).
Qed.

Lemma delta_start : delta_inv false delta_init false [] 0.
Proof.
  split; [|intros t Ht|done|done].
  - replace (set_delta_ _ delta_init) with delta_init by (vm_compute; reflexivity). exact delta_init_ok.
  - assert (Hin : (Z.to_nat (entry_index (delta_ delta_init) t) < 128)%nat).
    { apply (index_within 7); try done. change (delta_n_ delta_init) with 1 in Ht. lia. }
    change (lookup (Z.to_nat (entry_index (delta_ delta_init) t)) (replicate 128 no_message) = Some no_message).
    by apply lookup_replicate_2.
Qed.

(** [es] wait on echo; [p]: [session_pop] has been called. *)
Record echo_inv (claimed : bool) (q : echo_queue) (p : bool) (es : list (list Z)) (w : Z) : Prop := {
  e_holds : RingQueue.holds 9 (set_write w (echo_ q)) (echo_n_ q) w es;
  e_cursors : entry_processor_cursors (echo_ q) = [if p then echo_n_ q - 2 else 1];
  e_upper : echo_n_ q ≤ echo_cursor_upper_limit_ q ≤ w + 1;
  e_reg : echo_reg_number_ q = O;
  e_first : if p then 2 ≤ echo_n_ q else echo_n_ q = 1;
  e_sizes : Forall (λ e, zlen e = 512) (buffer (echo_ q));
  e_write : write_cursor (echo_ q) = if claimed then w + 1 else w;
  e_room : claimed = true → w + 1 - echo_n_ q ≤ 511 }.

Lemma echo_claim q p es w : echo_inv false q p es w → w < 2 ^ 62 - 1 →
  if zlen es <? (if p then 510 else 512)
  then ∃ r e, claim [] (echo_ q) = Returns (w + 1, r) ∧ show_entry r (w + 1) = Some e ∧ zlen e = 512
              ∧ echo_inv true (set_echo_ r q) p es w
  else claim [] (echo_ q) = Waits.
Proof.
  intros [H Hc Hu Hreg Hp Hs Hw _] Hmax. rewrite (set_write_same _ _ Hw) in H.
  pose proof (holds_bound _ _ _ _ _ H) as [Hn H0]. pose proof (h_len _ _ _ _ _ H) as Hl.
  set (c := if p then echo_n_ q - 2 else 1) in *.
  assert (Hcb : 0 ≤ c ≤ echo_n_ q ∧ c ≤ w + 1) by (unfold c; destruct p; lia).
  pose proof (holds_claim 9 _ _ w es [] c H ltac:(lia)) as Hcl. rewrite Hc in Hcl. change (2 ^ 9 - 1) with 511 in Hcl.
  specialize (Hcl (slowest_one 0 c ltac:(unfold VACANT; lia)) ltac:(lia) ltac:(lia)).
  replace (zlen es <? (if p then 510 else 512)) with (w + 1 - c <=? 511)
    by (unfold c; destruct p; apply Bool.eq_iff_eq_true; rewrite Z.leb_le, Z.ltb_lt; lia).
  destruct (w + 1 - c <=? 511) eqn:E; [|done]. destruct Hcl as (r & -> & (Hh & Hwr & Hroom) & Hc' & Hb & Hsz).
  change (2 ^ 9 - 1) with 511 in Hroom.
  assert (Hin : (Z.to_nat (entry_index r (w + 1)) < length (buffer r))%nat)
    by (apply (index_within 9); [done | exact (h_size _ _ _ _ _ Hh) | exact (h_buffer _ _ _ _ _ Hh) | lia]).
  destruct (lookup_lt_is_Some_2 (buffer r) _ Hin) as [e He]. exists r, e. split; [done|]. split; [exact He|].
  rewrite <- Hb in Hs. split; [by apply (Forall_lookup_1 _ _ _ _ Hs He)|].
  by split; cbn [set_echo_ echo_ echo_n_ echo_cursor_upper_limit_ echo_reg_number_].
Qed.

Lemma echo_commit q p es w e : echo_inv true q p es w → w < 2 ^ 62 - 1 → zlen e = 512 →
  ∃ r, commit_entry (w + 1) e (echo_ q) = Returns r ∧ echo_inv false (set_echo_ r q) p (es ++ [e]) (w + 1).
Proof.
  intros [H Hc Hu Hreg Hp Hs Hw Hroom] Hmax He. specialize (Hroom eq_refl).
  destruct (claimed_commit 9 (echo_ q) (echo_n_ q) w es e) as (r & -> & Hr & Hc' & Hb & Hsz); [by split_and! | lia|].
  exists r. split; [done|]. pose proof (h_write _ _ _ _ _ Hr) as Hwr.
  split; cbn [set_echo_ echo_ echo_n_ echo_cursor_upper_limit_ echo_reg_number_]; try done; [..|lia|].
  - by rewrite (set_write_same _ _ Hwr).
  - by rewrite Hc'.
  - rewrite Hb. by apply Forall_insert.
Qed.

Lemma session_view e : zlen e = 512 → ∃ len off d, Splitter.session_pop e = Some (len, off, d).
Proof.
  intros He. unfold Splitter.session_pop.
  destruct (split_free e 4) as (a & e1 & -> & Ha); [lia|]. destruct (split_free e1 4) as (b & e2 & -> & Hb); [llia|].
  assert (Hget : ∀ x y, zlen x = 4 → read_at (a ++ b ++ e2) y 4 = Some x → ∃ v, getu32 (a ++ b ++ e2) y = Some v).
  { intros x y Hx Hr. unfold getu32. rewrite Hr. do 5 (destruct x as [|? x]; try (cbn in Hx; lia)). eauto. }
  destruct (Hget a 0) as [v ->]; [done | by apply read_at_prefix |]. obind.
  destruct (Hget b 4) as [v' ->]; [done | by apply read_at_mid |]. obind. eauto.
Qed.

Lemma echo_pop claimed q p es w : echo_inv claimed q p es w → w < 2 ^ 62 - 1 →
  match es with
  | [] => session_pop q = Waits
  | e :: es => ∃ len off d q', Splitter.session_pop e = Some (len, off, d) ∧ session_pop q = Returns (len, off, d, q')
                 ∧ echo_inv claimed q' true es w
  end.
Proof.
  intros [H Hc Hu Hreg Hp Hs Hw Hroom] Hmax. pose proof (holds_bound _ _ _ _ _ H) as [Hn H0].
  pose proof (h_len _ _ _ _ _ H) as Hl. pose proof (h_first _ _ _ _ _ H) as H1.
  unfold session_pop, session_take, session_release. cbn [echo_ echo_n_ echo_cursor_upper_limit_ echo_reg_number_].
  unfold wait_for_blocking. change (max_read_cursor (release_entry _ _ _)) with (max_read_cursor (set_write w (echo_ q))).
  rewrite (h_read _ _ _ _ _ H). destruct es as [|e es].
  - cbn in Hl. by rewrite (proj2 (Z.eqb_eq (echo_n_ q) (echo_cursor_upper_limit_ q))), (proj2 (Z.ltb_lt w _)) by lia.
  - rewrite length_cons in Hl. set (n := echo_n_ q) in *. set (upper := echo_cursor_upper_limit_ q) in *.
    assert (Hup : ∃ upper', (if n =? upper then (if w <? upper then Waits else Returns w) ≫= λ u, Returns (u64 (u + 1)) else Returns upper)
                            = Returns upper' ∧ n + 1 ≤ upper' ≤ w + 1).
    { destruct (Z.eqb_spec n upper) as [<-|]; [|eexists; split; [done | lia]].
      rewrite (proj2 (Z.ltb_ge w n)) by lia. cbn [mbind call_mbind cbind]. eexists. split; [done|].
      unfold u64. rewrite Z.mod_small; lia. }
    destruct Hup as (upper' & -> & Hup). cbn [mbind call_mbind cbind].
    pose proof (holds_show _ _ _ _ _ _ H) as Hshow. change (show_entry (set_write w (echo_ q)) n) with (show_entry (echo_ q) n) in Hshow.
    change (show_entry (release_entry _ _ (echo_ q)) n) with (show_entry (echo_ q) n). rewrite Hshow. cbn [defined cbind].
    destruct (session_view e) as (len & off & d & Hview); [exact (Forall_lookup_1 _ _ _ _ Hs Hshow)|].
    exists len, off, d. eexists. split; [done|]. cbn [mbind call_mbind cbind]. rewrite Hview. split; [reflexivity|].
    assert (Hn1 : u64 (n + 1) = n + 1) by (unfold u64; rewrite Z.mod_small; lia).
    assert (Hn2 : u64 (n - 1) = n - 1) by (unfold u64; rewrite Z.mod_small; lia). rewrite Hn1, Hn2, Hreg.
    split; cbn [echo_ echo_n_ echo_cursor_upper_limit_ echo_reg_number_]; try done; try lia.
    + exact (holds_release 9 (set_write w (echo_ q)) (n + 1) w es 0 (n - 1) (holds_drop 9 _ _ _ _ _ H)).
    + cbn [release_entry set_cursors entry_processor_cursors]. rewrite Hc. cbn. f_equal. lia.
    + intros Hcl. specialize (Hroom Hcl). lia.
Qed.

Lemma echo_start : echo_inv false echo_init false [] 0.
Proof.
  split; [split; try (vm_compute; congruence); done | done | vm_compute; split; congruence | done | done | | done | done].
  change (buffer (echo_ echo_init)) with (replicate 512 (replicate 512 0)). by apply Forall_replicate.
Qed.

(** ** The foxtrot ring *)

(** The entries with the contents [cs] wait on foxtrot, [n] is the first. *)
Record fox_inv (registered : bool) (r : ring (list Z)) (n w : Z) (cs : list (list Z)) : Prop := {
  f_holds : ∃ es, RingQueue.holds 10 r n w es ∧ Forall2 (λ e c, Popper.foxtrot_content e = Some c) es cs;
  f_small : Forall (λ c, zlen c ≤ Popper.FOXTROT_MAX_DATA_SIZE) cs;
  f_sizes : Forall (λ e, zlen e = Popper.FOXTROT_ENTRY_SIZE) (buffer r);
  f_cursors : if registered then ∃ c, entry_processor_cursors r = [c] ∧ 0 ≤ c ≤ n ∧ c ≤ w + 1
              else entry_processor_cursors r = [VACANT] ∧ slowest_entry_processor r = 0 ∧ n = 1 ∧ w ≤ 1023 }.

Lemma fox_publish b r n w cs e c : fox_inv b r n w cs → w < 2 ^ 62 - 1 → (b = false → w < 1023) →
  Popper.foxtrot_content e = Some c → zlen c ≤ Popper.FOXTROT_MAX_DATA_SIZE → zlen e = Popper.FOXTROT_ENTRY_SIZE →
  match spin_publish e r with
  | Returns r' => fox_inv b r' n (w + 1) (cs ++ [c])
  | Waits => True
  | Undefined => False
  end.
Proof.
  intros [(es & H & Hes) Hsm Hsz Hc] Hmax Hearly He Hlc Hle. pose proof (holds_bound _ _ _ _ _ H) as [Hn H0].
  assert (Hnew : ∀ r', RingQueue.holds 10 r' n (w + 1) (es ++ [e]) → buffer r' = <[Z.to_nat (entry_index r (w + 1)) := e]> (buffer r) →
            (if b then ∃ c, entry_processor_cursors r' = [c] ∧ 0 ≤ c ≤ n ∧ c ≤ w + 1 + 1
             else entry_processor_cursors r' = [VACANT] ∧ slowest_entry_processor r' = 0 ∧ n = 1 ∧ w + 1 ≤ 1023) →
            fox_inv b r' n (w + 1) (cs ++ [c])).
  { intros r' Hr' Hb Hcur. split; [|apply Forall_app; by split; [|constructor] | rewrite Hb; by apply Forall_insert | done].
    exists (es ++ [e]). split; [done|]. apply Forall2_app; [done|]. by constructor. }
  destruct b.
  - destruct Hc as (c0 & Hc & Hc0 & Hc1).
    assert (Hsl : slowest (entry_processor_cursors r) VACANT = c0) by (rewrite Hc; apply (slowest_one 0); unfold VACANT; lia).
    rewrite (holds_spin 10 r n w es e c0 H) by (done || lia).
    pose proof (holds_commit 10 r n w es e c0 H ltac:(lia) Hsl ltac:(lia) ltac:(lia)) as Hcom.
    destruct (w + 1 - c0 <=? 2 ^ 10 - 1); [|by rewrite Hcom]. destruct Hcom as (r' & -> & Hr' & Hc' & Hb).
    apply Hnew; [done..|]. exists c0. rewrite Hc', Hc. split; [done | lia].
  - destruct Hc as (Hc & Hs & -> & Hw). specialize (Hearly eq_refl).
    assert (Hsl : slowest (entry_processor_cursors r) VACANT = VACANT) by (by rewrite Hc).
    destruct (holds_vacant 10 r 1 w es e H ltac:(lia) Hsl ltac:(change (2 ^ 10) with 1024; lia)) as (r' & -> & Hr' & Hc' & Hb & Hs').
    apply Hnew; [done..|]. rewrite Hc', Hs'. change (2 ^ 10) with 1024. rewrite Z.mod_small by lia. split_and!; (done || lia).
Qed.

Lemma fox_start : fox_inv false init_foxtrot 1 0 [].
Proof.
  split; [|by constructor| |done].
  - exists []. split; [|by constructor]. unfold init_foxtrot, ring_buffer_init.
    split; cbn [reduced_size buffer write_cursor max_read_cursor]; rewrite ?length_replicate; (done || lia).
  - unfold init_foxtrot, ring_buffer_init. cbn [buffer]. apply Forall_replicate. rewrite length_replicate. reflexivity.
Qed.

Lemma fox_contents b r n w cs : fox_inv b r n w cs → waiting_contents r n = cs.
Proof.
  intros [(es & H & Hes) _ _ _]. unfold waiting_contents. rewrite (h_read _ _ _ _ _ H).
  clear - H Hes. revert n H. induction Hes as [|e c es cs He Hes IH]; intros n H; pose proof (h_len _ _ _ _ _ H) as Hl.
  - by rewrite <- Hl.
  - rewrite length_cons in Hl. rewrite seqZ_cons by lia. cbn [omap list_omap]. rewrite (holds_show _ _ _ _ _ _ H).
    cbn [mbind option_bind]. rewrite He. f_equal. replace (Z.pred (w + 1 - n)) with (w + 1 - Z.succ n) by lia.
    apply IH. rewrite <- Z.add_1_r. by eapply holds_drop.
Qed.

(** ** The threads together *)

Section Invariant.
Context (begin_string : list Z) (begin_string_length : Z) (soh : Z).
Context (malloc : nat → Z → option (list Z)).
Context (CACHE_LINE_SIZE : Z) (tx_malloc : nat → Z → option (list Z))
        (tx_realloc : nat → Z → option (bool * list Z)).
Context (fixmsg_rx : FIXMessageRX).
#[local] Abbreviation turn := (turn begin_string begin_string_length soh malloc CACHE_LINE_SIZE tx_malloc tx_realloc fixmsg_rx).
#[local] Abbreviation round := (round begin_string begin_string_length soh malloc CACHE_LINE_SIZE tx_malloc tx_realloc fixmsg_rx).
#[local] Abbreviation run_rop := (run_rop begin_string begin_string_length soh malloc CACHE_LINE_SIZE tx_malloc tx_realloc fixmsg_rx).
#[local] Abbreviation step E := (Splitter.splitter_step begin_string begin_string_length soh malloc (λ _, no_message)
  E CACHE_LINE_SIZE tx_malloc tx_realloc fixmsg_rx).
#[local] Abbreviation fed := (Feeding.fed begin_string begin_string_length soh malloc (λ _, no_message)
  CACHE_LINE_SIZE tx_malloc tx_realloc fixmsg_rx).

(** The state the splitter begins its loop in. *)
Context (st0 : splitter) (st0_delta : Splitter.delta_entry st0 = no_message).
Implicit Types (st : splitter) (s : reception) (E : nat → list Z).

#[local] Abbreviation committed st := (drop (length (Splitter.events st0)) (Splitter.events st)).

(** Whether the splitter holds an entry of delta and one of echo. *)
Definition claims (p : place) : bool * bool :=
  match p with
  | Unregistered => (false, false)
  | NextDelta _ _ _ => (false, true)
  | NextEcho _ _ _ => (true, false)
  | _ => (true, true)
  end.

Definition registered (p : place) : bool := match p with Unregistered => false | _ => true end.

Definition small (c : list Z) : Prop := zlen c ≤ Popper.FOXTROT_MAX_DATA_SIZE.

(** The splitter has done with the entries [passed], the entries [cs], numbers
    [n] to [w], are before it. *)
Definition on_the_way E (passed cs : list (list Z)) (n w : Z) (p : place) st : Prop :=
  match p with
  | Unregistered => passed = [] ∧ st = st0
  | Top c => c = n ∧ ∀ c', fed E st0 passed c' 0 st
  | AtEntry m upper k =>
      m = n ∧ n - 1 ≤ upper ≤ w
      ∧ if upper <? n then ∀ c', fed E st0 passed c' 0 st else ∃ c rest, cs = c :: rest ∧ fed E st0 passed c k st
  | NextDelta m upper k | NextEcho m upper k =>
      m = n ∧ n ≤ upper ≤ w ∧ ∃ c rest, cs = c :: rest ∧ fed E st0 passed c k st
  end.

(** [got] is what the sucker has put on foxtrot, the splitter holds [e] if it
    holds an echo entry. *)
Definition fox_part (N : Z) (got : list (list Z)) (e : option (list Z)) (r : ring (list Z)) (reg : nat) (p : place) st : Prop :=
  ∃ E n w cs passed, fox_inv (registered p) r n w cs ∧ w ≤ N ∧ got = passed ++ cs ∧ Forall small passed ∧ reg = O
    ∧ on_the_way E passed cs n w p st ∧ (∀ i, zlen (E i) = Splitter.ECHO_ENTRY_SIZE)
    ∧ match e with Some e => E (Splitter.necho st) = e | None => True end.

(** The messages committed are those taken, [td], and those that wait. *)
Definition delta_part (N : Z) (td : list delta_t) (b : bool) (q : delta_queue) (c : Z) st : Prop :=
  ∃ p msgs w, delta_inv b q p msgs w ∧ w ≤ N ∧ (b = true → c = w + 1)
    ∧ Feeding.delta_entries (committed st) = td ++ msgs ∧ (b = false → Splitter.delta_entry st = no_message).

Definition echo_part (N : Z) (te : list (list Z)) (b : bool) (q : echo_queue) (c : Z) st : Prop :=
  ∃ p es w, echo_inv b q p es w ∧ w ≤ N ∧ (b = true → c = w + 1) ∧ Feeding.echo_entries (committed st) = te ++ es.

Definition held (p : place) (e : list Z) : option (list Z) := if (claims p).2 then Some e else None.

Record inv (N : Z) (got : list (list Z)) (td : list delta_t) (te : list (list Z)) s : Prop := {
  i_fox : fox_part N got (held (at_ s) (echo_entry s)) (foxtrot s) (foxtrot_reg_number s) (at_ s) (the_splitter s);
  i_delta : delta_part N td (claims (at_ s)).1 (delta s) (delta_cursor s) (the_splitter s);
  i_echo : echo_part N te (claims (at_ s)).2 (echo s) (echo_cursor s) (the_splitter s);
  i_events : Splitter.events st0 `prefix_of` Splitter.events (the_splitter s) }.

Lemma delta_later N td b q c st : delta_part N td b q c st → delta_part (N + 1) td b q c st.
Proof. intros (p & msgs & w & ? & ? & ?). exists p, msgs, w. split; [done | split; [lia | done]]. Qed.
Lemma echo_later N te b q c st : echo_part N te b q c st → echo_part (N + 1) te b q c st.
Proof. intros (p & es & w & ? & ? & ?). exists p, es, w. split; [done | split; [lia | done]]. Qed.
Lemma fox_later N got e r reg p st : fox_part N got e r reg p st → fox_part (N + 1) got e r reg p st.
Proof. intros (E & n & w & cs & passed & ? & ? & ?). exists E, n, w, cs, passed. split; [done | split; [lia | done]]. Qed.

(** ** Claims *)

Lemma claim_delta_ok N td s : delta_part N td false (delta s) (delta_cursor s) (the_splitter s) → N < 2 ^ 62 - 1 →
  (∃ q c, claim_delta s = Returns (with_delta q c s) ∧ delta_part N td true q c (the_splitter s))
  ∨ claim_delta s = Waits ∧ pop true (delta s) ≠ Waits ∧ Feeding.delta_entries (committed (the_splitter s)) ≠ [].
Proof.
  intros (p & msgs & w & H & Hw & _ & Hev & Hd) Hmax. specialize (Hd eq_refl). unfold claim_delta.
  pose proof (delta_claim _ _ _ _ H ltac:(lia)) as Hc. destruct (zlen msgs <? (if p then 127 else 128)) eqn:Em.
  - destruct Hc as (r & -> & Hshow & Hr). cbn [mbind call_mbind cbind]. rewrite Hshow. cbn [defined mbind call_mbind cbind].
    left. exists (set_delta_ r (delta s)), (w + 1). split.
    + f_equal. rewrite <- Hd. destruct s as [? ? ? ? ? ? ? ? ? st]. cbn in *. unfold with_place, with_delta. cbn. by destruct st.
    + exists p, msgs, w. split_and!; done.
  - rewrite Hc. right. split; [done|]. destruct msgs as [|m msgs]; [destruct p; discriminate|].
    destruct (delta_pop _ _ _ _ _ H ltac:(lia)) as (q' & -> & _). rewrite Hev. split; [done|]. by destruct td.
Qed.

Lemma claim_echo_ok N te s : echo_part N te false (echo s) (echo_cursor s) (the_splitter s) → N < 2 ^ 62 - 1 →
  (∃ q c e, claim_echo s = Returns (with_echo q c e s) ∧ zlen e = 512 ∧ echo_part N te true q c (the_splitter s))
  ∨ claim_echo s = Waits ∧ session_pop (echo s) ≠ Waits ∧ Feeding.echo_entries (committed (the_splitter s)) ≠ [].
Proof.
  intros (p & es & w & H & Hw & _ & Hev) Hmax. unfold claim_echo.
  pose proof (echo_claim _ _ _ _ H ltac:(lia)) as Hc. destruct (zlen es <? (if p then 510 else 512)) eqn:Em.
  - destruct Hc as (r & e & -> & Hshow & He & Hr). cbn [mbind call_mbind cbind]. rewrite Hshow. cbn [defined mbind call_mbind cbind].
    left. exists (set_echo_ r (echo s)), (w + 1), e. split; [done|]. split; [done|]. exists p, es, w. split_and!; done.
  - rewrite Hc. right. split; [done|]. destruct es as [|m es]; [destruct p; discriminate|].
    destruct (echo_pop _ _ _ _ _ H ltac:(lia)) as (? & ? & ? & q' & _ & -> & _). rewrite Hev. split; [done|]. by destruct te.
Qed.

(** ** One turn *)

Lemma register_fox r w cs : fox_inv false r 1 w cs →
  ∃ r', barrier_register r = Returns (1, O, r') ∧ fox_inv true r' 1 w cs.
Proof.
  intros [(es & H & Hes) Hsm Hsz (Hc & Hs & _ & Hw)]. unfold barrier_register. rewrite Hc. cbn [first_vacant].
  rewrite Z.eqb_refl. unfold register. rewrite Hc, Hs. cbn [lookup list_lookup mbind option_bind]. rewrite Z.eqb_refl.
  cbn [defined mbind call_mbind cbind Z.eqb]. eexists. split; [reflexivity|].
  pose proof (holds_bound _ _ _ _ _ H) as [? ?].
  split; [|done|done|].
  - exists es. split; [by destruct H; split | done].
  - exists 1. cbn [set_cursors entry_processor_cursors]. split; [done | lia].
Qed.

Lemma begin_ok N got td te s : inv N got td te s → at_ s = Unregistered → N < 2 ^ 62 - 1 →
  ∃ s', begin s = Returns s' ∧ inv N got td te s' ∧ registered (at_ s') = true.
Proof.
  intros [Hfx Hd He Hev] Hat Hmax. rewrite Hat in *. cbn [claims fst snd] in *.
  destruct Hfx as (E & n & w & cs & passed & Hf & Hw & Hg & Hsm & _ & [-> Hst] & _). pose proof Hf as [_ _ _ (_ & _ & -> & _)].
  destruct (register_fox _ _ _ Hf) as (r & Hr & Hf'). unfold begin. rewrite Hr. cbn [mbind call_mbind cbind].
  set (s1 := mkReception r _ _ _ _ _ _ _ _ _). rewrite Hst in *.
  assert (Hnone : committed st0 = []) by (by rewrite drop_all).
  destruct (claim_delta_ok N td s1) as [(q & c & -> & Hd')|(_ & _ & Hx)]; [by subst s1; cbn; rewrite Hst | done | |].
  2: { subst s1. cbn [the_splitter] in Hx. rewrite Hst, Hnone in Hx. done. }
  cbn [mbind call_mbind cbind].
  destruct (claim_echo_ok N te (with_delta q c s1)) as [(eq & ec & e & -> & He5 & He')|(_ & _ & Hx)];
    [by subst s1; cbn; rewrite Hst | done | |].
  2: { subst s1. cbn [the_splitter with_delta] in Hx. rewrite Hst, Hnone in Hx. done. }
  eexists. split; [done|]. subst s1. cbn [with_delta with_echo at_ the_splitter] in *. rewrite Hst in *.
  split; [|done]. split; cbn; rewrite ?Hst; try done.
  exists (λ _, e), 1, w, cs, []. split_and!; try done. split; [done|]. intros c0. apply Feeding.fed_start.
Qed.

Lemma committed_app st st' evs : Splitter.events st0 `prefix_of` Splitter.events st →
  Splitter.events st' = Splitter.events st ++ evs →
  committed st' = committed st ++ evs ∧ Splitter.events st0 `prefix_of` Splitter.events st'.
Proof.
  intros Hp ->. split; [|by apply prefix_app_r]. apply drop_app_le. destruct Hp as [x ->]. rewrite length_app. lia.
Qed.

(** A delta part sees of the splitter what is committed, and the entry it does
    not hold. *)
Lemma delta_part_events N td b q c st st' evs : delta_part N td b q c st → committed st' = committed st ++ evs →
  Feeding.delta_entries evs = [] → b = true → delta_part N td b q c st'.
Proof.
  intros (p & msgs & w & H & Hw & Hc & Hev & _) Hcom Hnone ->. exists p, msgs, w. split_and!; try done.
  by rewrite Hcom, Feeding.delta_entries_app, Hnone, app_nil_r.
Qed.

Lemma echo_part_events N te b q c st st' evs : echo_part N te b q c st → committed st' = committed st ++ evs →
  Feeding.echo_entries evs = [] → echo_part N te b q c st'.
Proof.
  intros (p & es & w & H & Hw & Hc & Hev) Hcom Hnone. exists p, es, w. split_and!; try done.
  by rewrite Hcom, Feeding.echo_entries_app, Hnone, app_nil_r.
Qed.

Lemma round_ok N got td te s n upper k E w c rest passed :
  inv N got td te s → at_ s = AtEntry n upper k → N < 2 ^ 62 - 1 →
  fox_inv true (foxtrot s) n w (c :: rest) → w ≤ N → got = passed ++ c :: rest → Forall small passed →
  foxtrot_reg_number s = O → n ≤ upper ≤ w → fed E st0 passed c k (the_splitter s) → k < zlen c →
  E (Splitter.necho (the_splitter s)) = echo_entry s → (∀ i, zlen (E i) = Splitter.ECHO_ENTRY_SIZE) →
  match round n upper k c s with
  | Returns s' => inv (N + 1) got td te s' ∧ registered (at_ s') = true
  | Waits => False
  | Undefined => step E c k (the_splitter s) = None
  end.
Proof.
  intros [_ Hd He Hev] Hat Hmax Hf Hw Hg Hsm Hreg Hu Hfed Hk HE He5. rewrite Hat in Hd, He. cbn [claims fst snd] in Hd, He.
  unfold round. set (st := the_splitter s) in *.
  rewrite (Feeding.step_echo begin_string begin_string_length soh malloc (λ _, no_message) CACHE_LINE_SIZE tx_malloc
             tx_realloc fixmsg_rx (λ _, echo_entry s) E c k st) by done.
  destruct (step E c k st) as [[k' st']|] eqn:Es; cbn [defined mbind call_mbind cbind]; [|done].
  pose proof (Feeding.fed_step _ _ _ _ _ _ _ _ _ _ _ _ _ _ _ _ _ Hfed Hk Es) as Hfed'.
  apply Feeding.step_queues in Es as (evs & Hevs & Hq). rewrite Hevs, drop_app_length.
  destruct (committed_app st st' evs Hev Hevs) as [Hcom Hev'].
  pose proof (Feeding.queued_delta evs) as Hqd. pose proof (Feeding.queued_echo evs) as Hqe.
  assert (Hplace : ∀ p' e', registered p' = true → on_the_way E passed (c :: rest) n w p' st' →
            match e' with Some e => E (Splitter.necho st') = e | None => True end →
            fox_part (N + 1) got e' (foxtrot s) (foxtrot_reg_number s) p' st').
  { intros p' e' Hr' Hon He'. exists E, n, w, (c :: rest), passed. rewrite Hr'. split_and!; (done || lia). }
  destruct Hq as [evs Hq Hnd Hne|evs d Hq Hnd Hne Hdel|evs e Hq Hnd Hne Hlen]; rewrite Hq in Hqd, Hqe |- *; cbn [mbind call_mbind cbind].
  - split; [|done]. split; cbn [with_place at_ the_splitter foxtrot foxtrot_reg_number delta delta_cursor echo echo_cursor echo_entry claims fst snd held]; try done.
    + apply Hplace; [done | | by rewrite Hne]. split; [done|]. split; [lia|].
      rewrite (proj2 (Z.ltb_ge upper n)) by lia. eauto.
    + apply delta_later. by eapply delta_part_events.
    + apply echo_later. by eapply echo_part_events.
  - destruct Hd as (p & msgs & dw & Hd & Hdw & Hcur & Hdev & _). rewrite (Hcur eq_refl).
    destruct (delta_commit _ _ _ _ d Hd ltac:(lia)) as (r & -> & Hr). cbn [mbind call_mbind cbind].
    split; [|done]. split; cbn [with_place with_delta at_ the_splitter foxtrot foxtrot_reg_number delta delta_cursor echo echo_cursor echo_entry claims fst snd held]; try done.
    + apply Hplace; [done | | by rewrite Hne]. split; [done|]. split; [lia|]. eauto.
    + exists p, (msgs ++ [d]), (dw + 1). split_and!; try done; try lia.
      rewrite Hcom, Feeding.delta_entries_app, Hdev, <- Hqd. by rewrite <- app_assoc.
    + apply echo_later. by eapply echo_part_events.
  - destruct He as (p & es & ew & He & Hew & Hcur & Heev). rewrite (Hcur eq_refl).
    destruct (echo_commit _ _ _ _ e He ltac:(lia)) as (r & -> & Hr); [rewrite Hlen; apply He5|]. cbn [mbind call_mbind cbind].
    split; [|done]. split; cbn [with_place with_echo at_ the_splitter foxtrot foxtrot_reg_number delta delta_cursor echo echo_cursor echo_entry claims fst snd held]; try done.
    + apply Hplace; [done | | done]. split; [done|]. split; [lia|]. eauto.
    + apply delta_later. by eapply delta_part_events.
    + exists p, (es ++ [e]), (ew + 1). split_and!; try done; try lia.
      rewrite Hcom, Feeding.echo_entries_app, Heev, <- Hqe. by rewrite <- app_assoc.
Qed.

(** A round without a defined result on the way through the entries. *)
Definition stuck (got : list (list Z)) : Prop :=
  ∃ E passed c rest k st, (∀ i, zlen (E i) = Splitter.ECHO_ENTRY_SIZE) ∧ got = passed ++ c :: rest ∧ fed E st0 passed c k st ∧ k < zlen c ∧ step E c k st = None.

(** What a turn comes to: one that waits does so for the client, or has nothing
    left to do; one without a defined result is a round without one. *)
Definition turned (N : Z) got td te s (x : call reception) : Prop :=
  match x with
  | Returns s' => inv (N + 1) got td te s' ∧ registered (at_ s') = true
  | Waits => pop true (delta s) ≠ Waits ∨ session_pop (echo s) ≠ Waits
             ∨ ∃ E, (∀ i, zlen (E i) = Splitter.ECHO_ENTRY_SIZE) ∧ ∀ c', fed E st0 got c' 0 (the_splitter s)
  | Undefined => stuck got
  end.

Lemma inv_later N got td te s : inv N got td te s → inv (N + 1) got td te s.
Proof. intros [? ? ? ?]. split; [by apply fox_later | by apply delta_later | by apply echo_later | done]. Qed.

Lemma top_ok N got td te s c : inv N got td te s → at_ s = Top c → turned N got td te s (turn s).
Proof.
  intros Hi Hat. pose proof (inv_later _ _ _ _ _ Hi) as [Hfx Hd He Hev]. unfold Reception.turn. rewrite Hat in *. cbn [claims fst snd] in *.
  destruct Hfx as (E & n & w & cs & passed & Hf & Hw & Hg & Hsm & Hreg & [-> Hfed] & HE5 & HE).
  pose proof Hf as [(es & H & Hes) _ _ _]. pose proof (holds_bound _ _ _ _ _ H) as [Hn H0].
  pose proof (h_len _ _ _ _ _ H) as Hl. unfold wait_for_nonblocking. rewrite (h_read _ _ _ _ _ H).
  destruct (Z.ltb_spec w n) as [Hlt|Hge]; cbn [turned].
  - right. right. exists E. split; [done|]. apply Forall2_length in Hes. destruct cs; [|cbn in *; lia].
    rewrite app_nil_r in Hg. by subst passed.
  - split; [|done]. split; cbn [with_place at_ the_splitter foxtrot foxtrot_reg_number delta delta_cursor echo echo_cursor echo_entry claims fst snd]; try done.
    exists E, n, w, cs, passed. split_and!; try done. split; [done|]. split; [lia|].
    rewrite (proj2 (Z.ltb_ge w n)) by done. apply Forall2_length in Hes. destruct cs as [|c' cs]; [cbn in *; lia|]. eauto.
Qed.

Lemma fox_release r n w c cs k : fox_inv true r n w (c :: cs) → fox_inv true (release_entry k n r) (n + 1) w cs.
Proof.
  intros [(es & H & Hes) Hsm Hsz (c0 & Hc & Hc0 & Hc1)]. inversion Hes as [|e c' es' cs' He Hes']; subst.
  pose proof (holds_bound _ _ _ _ _ H) as [Hn H0]. pose proof (h_first _ _ _ _ _ H) as H1. pose proof (h_len _ _ _ _ _ H) as Hl. rewrite length_cons in Hl.
  split; [|by inversion Hsm | done|].
  - exists es'. split; [|done]. apply holds_release. by eapply holds_drop.
  - cbn [release_entry set_cursors entry_processor_cursors]. rewrite Hc. destruct k; [exists n | exists c0]; (split; [done | lia]).
Qed.

Lemma entry_ok N got td te s n upper k : inv N got td te s → at_ s = AtEntry n upper k → N < 2 ^ 62 - 1 →
  turned N got td te s (turn s).
Proof.
  intros Hi Hat Hmax. pose proof Hi as [Hfx _ _ _]. pose proof (inv_later _ _ _ _ _ Hi) as [_ Hd He Hev].
  unfold Reception.turn. rewrite Hat in *. cbn [held claims fst snd] in *.
  destruct Hfx as (E & m & w & cs & passed & Hf & Hw & Hg & Hsm & Hreg & (<- & Hu & Hfed) & He5 & HE). cbn [registered] in Hf.
  pose proof Hf as [(es & H & Hes) Hsmall Hsz _]. pose proof (holds_bound _ _ _ _ _ H) as [Hn H0]. pose proof (h_first _ _ _ _ _ H) as H1.
  destruct (upper <? n) eqn:Eu.
  { apply Z.ltb_lt in Eu. cbn [turned]. split; [|done].
    split; cbn [with_place at_ the_splitter foxtrot foxtrot_reg_number delta delta_cursor echo echo_cursor echo_entry claims fst snd]; try done.
    exists E, n, w, cs, passed. split_and!; try done; [lia|]. split; [|done]. unfold u64. rewrite Z.mod_small; lia. }
  apply Z.ltb_ge in Eu. destruct Hfed as (c & rest & -> & Hfed). inversion Hes as [|e c' es' cs' Hec Hes']; subst c' cs' es.
  rewrite (holds_show _ _ _ _ _ _ H). cbn [defined mbind call_mbind cbind]. rewrite Hec. cbn [defined mbind call_mbind cbind].
  destruct (Z.ltb_spec k (zlen c)) as [Hk|Hk].
  - pose proof (round_ok N got td te s n upper k E w c rest passed Hi Hat Hmax Hf ltac:(lia) Hg Hsm Hreg ltac:(lia) Hfed Hk HE He5) as Hr.
    unfold turned. revert Hr. destruct (round n upper k c s) as [s'| |]; [done | done|]. intros Hr. by exists E, passed, c, rest, k, (the_splitter s).
  - cbn [turned]. split; [|done].
    split; cbn [with_place with_foxtrot at_ the_splitter foxtrot foxtrot_reg_number delta delta_cursor echo echo_cursor echo_entry claims fst snd]; try done.
    assert (Hn1 : u64 (n + 1) = n + 1) by (unfold u64; rewrite Z.mod_small; lia). rewrite Hn1.
    pose proof (fox_release _ _ _ _ _ (foxtrot_reg_number s) Hf) as Hrel. pose proof Hrel as [(es2 & H2 & Hes2) _ _ _].
    pose proof (h_len _ _ _ _ _ H2) as Hl2. apply Forall2_length in Hes2.
    inversion Hsmall; subst.
    exists E, (n + 1), w, rest, (passed ++ [c]). split_and!; try done; [lia | by rewrite <- app_assoc | apply Forall_app; by split; [|constructor] |].
    split; [done|]. split; [lia|].
    assert (Hnext : ∀ c', fed E st0 (passed ++ [c]) c' 0 (the_splitter s)) by (intros c'; by eapply Feeding.fed_next).
    destruct (Z.ltb_spec upper (n + 1)); [done|]. destruct rest as [|c2 rest]; [cbn in *; lia|]. eauto.
Qed.

Lemma next_delta_ok N got td te s n upper k : inv N got td te s → at_ s = NextDelta n upper k → N < 2 ^ 62 - 1 →
  turned N got td te s (turn s).
Proof.
  intros Hi Hat Hmax. pose proof (inv_later _ _ _ _ _ Hi) as [Hfx _ He Hev]. pose proof Hi as [_ Hd _ _].
  unfold Reception.turn. rewrite Hat in *. cbn [held claims fst snd] in *.
  destruct (claim_delta_ok N td s Hd Hmax) as [(q & c & -> & Hd')|(-> & Hp & _)]; cbn [mbind call_mbind cbind turned]; [|by left].
  split; [|done]. destruct Hfx as (E & m & w & cs & passed & Hf & Hw & Hg & Hsm & Hreg & (<- & Hu & Hfed) & HE5 & HE).
  split; cbn [with_place with_delta at_ the_splitter foxtrot foxtrot_reg_number delta delta_cursor echo echo_cursor echo_entry claims fst snd]; try done.
  - exists E, n, w, cs, passed. split_and!; try done. split; [done|]. split; [lia|]. by rewrite (proj2 (Z.ltb_ge upper n)) by lia.
  - by apply delta_later.
Qed.

(** The echo entry claimed is the one the next session message will be put in. *)
Lemma next_echo_ok N got td te s n upper k : inv N got td te s → at_ s = NextEcho n upper k → N < 2 ^ 62 - 1 →
  turned N got td te s (turn s).
Proof.
  intros Hi Hat Hmax. pose proof (inv_later _ _ _ _ _ Hi) as [Hfx Hd _ Hev]. pose proof Hi as [_ _ He _].
  unfold Reception.turn. rewrite Hat in *. cbn [held claims fst snd] in *.
  destruct (claim_echo_ok N te s He Hmax) as [(q & c & e & -> & He5 & He')|(-> & Hp & _)]; cbn [mbind call_mbind cbind turned];
    [|right; by left].
  split; [|done]. destruct Hfx as (E & m & w & cs & passed & Hf & Hw & Hg & Hsm & Hreg & (<- & Hu & c1 & rest & Hcs & Hfed) & HE & _).
  split; cbn [with_place with_echo at_ the_splitter foxtrot foxtrot_reg_number delta delta_cursor echo echo_cursor echo_entry claims fst snd]; try done.
  - set (i0 := Splitter.necho (the_splitter s)). exists (λ i, if (i =? i0)%nat then e else E i), n, w, cs, passed.
    split_and!; try done; [|intros i; by case_match | by rewrite Nat.eqb_refl]. split; [done|]. split; [lia|].
    rewrite (proj2 (Z.ltb_ge upper n)) by lia. exists c1, rest. split; [done|].
    eapply Feeding.fed_before; [exact Hfed|]. intros i Hi2. by rewrite (proj2 (Nat.eqb_neq i i0)) by lia.
  - by apply echo_later.
Qed.

Lemma turn_ok N got td te s : inv N got td te s → N < 2 ^ 62 - 1 → turned N got td te s (turn s).
Proof.
  intros Hi Hmax. destruct (at_ s) eqn:Hat.
  - destruct (begin_ok N got td te s Hi Hat Hmax) as (s' & Hb & Hi' & Hr). unfold Reception.turn. rewrite Hat, Hb.
    split; [by apply inv_later | done].
  - by eapply top_ok.
  - by eapply entry_ok.
  - by eapply next_delta_ok.
  - by eapply next_echo_ok.
Qed.

(** ** The sucker and the client *)

Lemma on_the_way_more E passed cs n w p st c : on_the_way E passed cs n w p st → on_the_way E passed (cs ++ [c]) n (w + 1) p st.
Proof.
  destruct p as [|c0|m upper k|m upper k|m upper k]; cbn [on_the_way]; [done | done|..].
  - intros (? & ? & H). split; [done|]. split; [lia|]. destruct (upper <? n); [done|].
    destruct H as (c1 & rest & -> & H). by exists c1, (rest ++ [c]).
  - intros (? & ? & c1 & rest & -> & H). split; [done|]. split; [lia|]. by exists c1, (rest ++ [c]).
  - intros (? & ? & c1 & rest & -> & H). split; [done|]. split; [lia|]. by exists c1, (rest ++ [c]).
Qed.

Lemma publish_ok N got td te s e c b : inv N got td te s → N < 2 ^ 62 - 1 →
  (at_ s = Unregistered → write_cursor (foxtrot s) < 1023) → Popper.foxtrot_content e = Some c → small c →
  zlen e = Popper.FOXTROT_ENTRY_SIZE →
  match spin_publish e (foxtrot s) with
  | Returns r => inv (N + 1) (got ++ [c]) td te (with_foxtrot r b s) ∧ write_cursor r ≤ write_cursor (foxtrot s) + 1
  | Waits => True
  | Undefined => False
  end.
Proof.
  intros [Hfx Hd He Hev] Hmax Hearly Hec Hc Hsz.
  destruct Hfx as (E & n & w & cs & passed & Hf & Hw & Hg & Hsm & Hreg & Hon & HE5 & HE).
  pose proof Hf as [(es & H & _) _ _ _]. pose proof (h_write _ _ _ _ _ H) as Hwr.
  pose proof (fox_publish _ _ _ _ _ e c Hf ltac:(lia)) as Hp.
  assert (Hreg' : registered (at_ s) = false → w < 1023).
  { intros Hr. rewrite <- Hwr. apply Hearly. by destruct (at_ s). }
  specialize (Hp Hreg' Hec Hc Hsz). destruct (spin_publish e (foxtrot s)) as [r| |]; [|done..].
  pose proof Hp as [(es' & H' & _) _ _ _]. pose proof (h_write _ _ _ _ _ H') as Hwr'. split; [|lia].
  split; cbn [with_foxtrot at_ the_splitter foxtrot foxtrot_reg_number delta delta_cursor echo echo_cursor echo_entry]; try done.
  - exists E, n, (w + 1), (cs ++ [c]), passed. split_and!; try done; [lia | by rewrite Hg, app_assoc | by apply on_the_way_more].
  - by apply delta_later.
  - by apply echo_later.
Qed.

Lemma receive_ok N got td te s x : inv N got td te s → N < 2 ^ 62 - 1 → Popper.recv_ok x →
  (at_ s = Unregistered → write_cursor (foxtrot s) + zlen (chunk_of (Receive x)) ≤ 1023) →
  match receive x s with
  | Returns s' => inv (N + 1) (got ++ chunk_of (Receive x)) td te s' ∧ at_ s' = at_ s
                  ∧ write_cursor (foxtrot s') ≤ write_cursor (foxtrot s) + zlen (chunk_of (Receive x))
  | Waits => True
  | Undefined => False
  end.
Proof.
  intros Hi Hmax Hx Hearly. unfold receive. destruct (sucking s); cbn [negb]; [|done].
  assert (Hentry : ∃ entry, show_entry (foxtrot s) (u64 (1 + write_cursor (foxtrot s))) = Some entry ∧ zlen entry = Popper.FOXTROT_ENTRY_SIZE).
  { destruct Hi as [(E & n & w & cs & passed & [(es & H & _) _ Hsz _] & Hw & _) _ _ _]. pose proof (holds_bound _ _ _ _ _ H) as [? ?].
    rewrite (h_write _ _ _ _ _ H). assert (Hu : u64 (1 + w) = 1 + w) by (unfold u64; rewrite Z.mod_small; lia). rewrite Hu.
    pose proof (index_within 10 (foxtrot s) (1 + w) ltac:(lia) (h_size _ _ _ _ _ H) (h_buffer _ _ _ _ _ H) ltac:(lia)) as Hin.
    destruct (lookup_lt_is_Some_2 (buffer (foxtrot s)) _ Hin) as [e He]. exists e. split; [done|]. exact (Forall_lookup_1 _ _ _ _ Hsz He). }
  destruct Hentry as (entry & -> & Hlen). cbn [defined mbind call_mbind cbind].
  destruct (Popper.empty_entry (λ _, entry) (λ _, Hlen) 0) as (e0 & He0 & Hc0). rewrite He0. cbn [defined mbind call_mbind cbind].
  assert (Hl0 : zlen e0 = Popper.FOXTROT_ENTRY_SIZE).
  { rewrite setu32_be in He0. apply write_at_length in He0. lia. }
  pose proof (λ H, publish_ok N got td te s e0 [] false Hi Hmax H Hc0 ltac:(by vm_compute) Hl0) as Hend.
  destruct x as [d| |errno]; cbn [chunk_of length] in Hearly |- *; [..|destruct (retried errno)];
    try (specialize (Hend ltac:(intros Hu; specialize (Hearly Hu); cbn in Hearly; lia))).
  - destruct (write_at_inside entry 4 d) as [e He]; [lia | rewrite Hlen; unfold Popper.recv_ok, Popper.FOXTROT_MAX_DATA_SIZE in Hx; lia|].
    destruct (Popper.entry_written (λ _, entry) (λ _, Hlen) 0 d e ltac:(apply Hx) He) as (e' & He' & Hce).
    rewrite He. obind. rewrite He'. cbn [defined mbind call_mbind cbind].
    assert (Hl' : zlen e' = Popper.FOXTROT_ENTRY_SIZE).
    { rewrite setu32_be in He'. apply write_at_length in He, He'. lia. }
    pose proof (publish_ok N got td te s e' d true Hi Hmax ltac:(intros Hu; specialize (Hearly Hu); lia) Hce ltac:(apply Hx) Hl') as Hp.
    destruct (spin_publish e' (foxtrot s)) as [r| |]; [|done..]. by destruct Hp.
  - destruct (spin_publish e0 (foxtrot s)) as [r| |]; [|done..]. by destruct Hend.
  - rewrite app_nil_r. split; [by apply inv_later|]. split; [done | cbn; lia].
  - destruct (spin_publish e0 (foxtrot s)) as [r| |]; [|done..]. by destruct Hend.
Qed.

Lemma pop_message_ok N got td te s : inv N got td te s → N < 2 ^ 62 - 1 →
  (∃ m q, pop true (delta s) = Returns (Some (raw m), q) ∧ inv (N + 1) got (td ++ [m]) te (with_delta q (delta_cursor s) s))
  ∨ pop true (delta s) = Waits ∧ Feeding.delta_entries (committed (the_splitter s)) = td.
Proof.
  intros Hi Hmax. pose proof Hi as [_ (p & msgs & w & H & Hw & Hc & Hev & Hd) _ _]. pose proof (delta_pop _ _ _ _ _ H ltac:(lia)) as Hp.
  destruct msgs as [|m msgs]; [right; by rewrite app_nil_r in Hev|]. destruct Hp as (q & -> & Hq). left. exists m, q. split; [done|].
  destruct (inv_later _ _ _ _ _ Hi) as [Hfx _ He Hev']. split; try done. cbn [with_delta at_ delta delta_cursor the_splitter].
  exists true, msgs, w. split_and!; try done; [lia|]. by rewrite Hev, <- app_assoc.
Qed.

Lemma pop_session_ok N got td te s : inv N got td te s → N < 2 ^ 62 - 1 →
  (∃ e len off d q, session_pop (echo s) = Returns (len, off, d, q) ∧ Splitter.session_pop e = Some (len, off, d)
     ∧ inv (N + 1) got td (te ++ [e]) (with_echo q (echo_cursor s) (echo_entry s) s))
  ∨ session_pop (echo s) = Waits ∧ Feeding.echo_entries (committed (the_splitter s)) = te.
Proof.
  intros Hi Hmax. pose proof Hi as [_ _ (p & es & w & H & Hw & Hc & Hev) _]. pose proof (echo_pop _ _ _ _ _ H ltac:(lia)) as Hp.
  destruct es as [|e es]; [right; by rewrite app_nil_r in Hev|]. destruct Hp as (len & off & d & q & Hv & -> & Hq).
  left. exists e, len, off, d, q. split; [done|]. split; [done|].
  destruct (inv_later _ _ _ _ _ Hi) as [Hfx Hd _ Hev']. split; try done. cbn [with_echo at_ echo echo_cursor the_splitter].
  exists true, es, w. split_and!; try done; [lia|]. by rewrite Hev, <- app_assoc.
Qed.

(** ** Every turn does some of the work *)

Lemma claim_delta_keeps s s' : claim_delta s = Returns s' →
  at_ s' = at_ s ∧ foxtrot s' = foxtrot s ∧ echo s' = echo s ∧ delta_n_ (delta s') = delta_n_ (delta s)
  ∧ max_read_cursor (delta_ (delta s')) = max_read_cursor (delta_ (delta s))
  ∧ Splitter.state (the_splitter s') = Splitter.state (the_splitter s).
Proof.
  unfold claim_delta. destruct (claim no_message _) as [[c r]| |] eqn:E; cbn [mbind call_mbind cbind]; [|done..].
  destruct (show_entry r c); cbn [defined mbind call_mbind cbind]; [|done]. intros [= <-]. apply claim_keeps in E. done.
Qed.

Lemma claim_echo_keeps s s' : claim_echo s = Returns s' →
  at_ s' = at_ s ∧ foxtrot s' = foxtrot s ∧ delta s' = delta s ∧ echo_n_ (echo s') = echo_n_ (echo s)
  ∧ max_read_cursor (echo_ (echo s')) = max_read_cursor (echo_ (echo s)) ∧ the_splitter s' = the_splitter s.
Proof.
  unfold claim_echo. destruct (claim [] _) as [[c r]| |] eqn:E; cbn [mbind call_mbind cbind]; [|done..].
  destruct (show_entry r c); cbn [defined mbind call_mbind cbind]; [|done]. intros [= <-]. apply claim_keeps in E. done.
Qed.

Lemma entry_work_state k st st' cs : Splitter.state st' = Splitter.state st → entry_work k st' cs = entry_work k st cs.
Proof. intros H. destruct cs as [|c cs]; [done|]. unfold entry_work, Splitter.rounds. by rewrite H. Qed.

Lemma begin_works s s' r w cs : at_ s = Unregistered → fox_inv false (foxtrot s) 1 w cs → begin s = Returns s' →
  barrier_register (foxtrot s) = Returns (1, O, r) → fox_inv true r 1 w cs → work s' < work s.
Proof.
  intros Hat Hf Hb Hr Hf'. unfold begin in Hb. rewrite Hr in Hb. cbn [mbind call_mbind cbind] in Hb.
  set (s1 := mkReception r _ _ _ _ _ _ _ _ _) in Hb.
  destruct (claim_delta s1) as [s2| |] eqn:E1; cbn [mbind call_mbind cbind] in Hb; [|done..].
  apply claim_delta_keeps in E1 as (A1 & A2 & A3 & A4 & A5 & A6). apply claim_echo_keeps in Hb as (B1 & B2 & B3 & B4 & B5 & B6).
  unfold work, first_entry. rewrite B1, B2, B3, B4, B5, A1, A2, A3, A4, A5, Hat. subst s1. cbn [at_ foxtrot echo delta].
  rewrite (fox_contents _ _ _ _ _ Hf), (fox_contents _ _ _ _ _ Hf'). cbn [fox_work]. lia.
Qed.

Context (soh_digit : isdigit soh = false) (st0_left : 0 ≤ Splitter.bytes_left_to_copy st0 < 2 ^ 32).

Lemma small_short cs : Forall small cs → Forall (λ c, zlen c < 2 ^ 32) cs.
Proof. intros H. eapply Forall_impl; [exact H|]. intros c Hc. unfold small in Hc. change Popper.FOXTROT_MAX_DATA_SIZE with 4092 in Hc. lia. Qed.

Lemma delta_count b q p msgs w : delta_inv b q p msgs w → 0 ≤ max_read_cursor (delta_ q) + 1 - delta_n_ q ∧ max_read_cursor (delta_ q) = w ∧ 0 ≤ w.
Proof. intros [(H & _) _ _ _]. pose proof (h_read _ _ _ _ _ H) as Hr. pose proof (holds_bound _ _ _ _ _ H). cbn in *. lia. Qed.
Lemma echo_count b q p es w : echo_inv b q p es w → 0 ≤ max_read_cursor (echo_ q) + 1 - echo_n_ q ∧ max_read_cursor (echo_ q) = w ∧ 0 ≤ w.
Proof. intros [H _ _ _ _ _ _ _]. pose proof (h_read _ _ _ _ _ H) as Hr. pose proof (holds_bound _ _ _ _ _ H). cbn in *. lia. Qed.

(** A round is worth four units, of which an entry committed takes two. *)
Lemma round_works N got td te s s' n upper k E w c rest passed :
  inv N got td te s → at_ s = AtEntry n upper k → N < 2 ^ 62 - 1 →
  fox_inv true (foxtrot s) n w (c :: rest) → Forall small passed → n ≤ upper → fed E st0 passed c k (the_splitter s) →
  k < zlen c → E (Splitter.necho (the_splitter s)) = echo_entry s →
  round n upper k c s = Returns s' → work s' < work s.
Proof.
  intros [_ (dp & dm & dw & Hdi & Hdw & _) (ep & em & ew & Hei & Hew & _) _] Hat Hmax Hf Hsm Hu Hfed Hk HE. unfold round.
  destruct (delta_count _ _ _ _ _ Hdi) as (Hd0 & Hdr & Hd1). destruct (echo_count _ _ _ _ _ Hei) as (He0 & Her & He1).
  pose proof (fox_contents _ _ _ _ _ Hf) as Hcs. pose proof Hf as [_ Hsmall _ _].
  apply small_short in Hsm, Hsmall. inversion Hsmall as [|? ? Hc _]; subst.
  destruct (Feeding.fed_bounds begin_string begin_string_length soh malloc (λ _, no_message) CACHE_LINE_SIZE tx_malloc tx_realloc
              fixmsg_rx soh_digit st0 st0_left E passed c k _ Hfed Hsm Hc) as [Hl Hk0].
  rewrite (Feeding.step_echo begin_string begin_string_length soh malloc (λ _, no_message) CACHE_LINE_SIZE tx_malloc
             tx_realloc fixmsg_rx (λ _, echo_entry s) E c k (the_splitter s)) by done.
  destruct (step E c k (the_splitter s)) as [[k' st']|] eqn:Es; cbn [defined mbind call_mbind cbind]; [|done].
  apply Splitter.step_progress in Es as (_ & _ & Hprog); [|done..].
  assert (H1 : 1 ≤ Splitter.rounds c k (the_splitter s)) by (unfold Splitter.rounds; case_decide; lia).
  assert (Hwork : entry_work k' st' (c :: rest) ≤ entry_work k (the_splitter s) (c :: rest) - 4) by (cbn [entry_work]; lia).
  assert (Hold : work s = entry_work k (the_splitter s) (c :: rest) + (max_read_cursor (delta_ (delta s)) + 1 - delta_n_ (delta s))
                   + (max_read_cursor (echo_ (echo s)) + 1 - echo_n_ (echo s))).
  { unfold work, first_entry. rewrite Hat, Hcs. cbn [fox_work]. by rewrite (proj2 (Z.ltb_ge upper n)). }
  destruct (Feeding.queued _) as [|[| d | e | |] l]; [|done| | |done|done].
  - intros [= <-]. rewrite Hold. unfold work, first_entry.
    cbn [with_place at_ foxtrot the_splitter delta echo fox_work]. rewrite Hcs, (proj2 (Z.ltb_ge upper n)) by done. lia.
  - destruct (commit_entry _ d _) as [r| |] eqn:Er; cbn [mbind call_mbind cbind]; [|done..]. intros [= <-].
    apply commit_read in Er. rewrite Hold. unfold work, first_entry.
    cbn [with_place with_delta set_delta_ at_ foxtrot the_splitter delta delta_ delta_n_ echo fox_work]. rewrite Hcs, Er.
    unfold u64. rewrite Z.mod_small by lia. lia.
  - destruct (commit_entry _ e _) as [r| |] eqn:Er; cbn [mbind call_mbind cbind]; [|done..]. intros [= <-].
    apply commit_read in Er. rewrite Hold. unfold work, first_entry.
    cbn [with_place with_echo set_echo_ at_ foxtrot the_splitter delta echo echo_ echo_n_ fox_work]. rewrite Hcs, Er.
    unfold u64. rewrite Z.mod_small by lia. lia.
Qed.

Lemma entry_works N got td te s s' n upper k : inv N got td te s → at_ s = AtEntry n upper k → N < 2 ^ 62 - 1 →
  turn s = Returns s' → work s' < work s.
Proof.
  intros Hi Hat Hmax. pose proof Hi as [Hfx _ _ _]. unfold Reception.turn. rewrite Hat in *. cbn [held claims fst snd] in *.
  destruct Hfx as (E & m & w & cs & passed & Hf & Hw & Hg & Hsm & Hreg & (<- & Hu & Hfed) & He5 & HE). cbn [registered] in Hf.
  pose proof (fox_contents _ _ _ _ _ Hf) as Hcs.
  pose proof Hf as [(es & H & Hes) Hsmall _ _]. pose proof (holds_bound _ _ _ _ _ H) as [Hn H0]. pose proof (h_first _ _ _ _ _ H).
  destruct (upper <? n) eqn:Eu.
  { intros [= <-]. unfold work, first_entry. cbn [with_place at_ foxtrot the_splitter delta echo]. rewrite Hat. cbn [fox_work].
    rewrite Eu. apply Z.ltb_lt in Eu. assert (Hupn : u64 (upper + 1) = n) by (unfold u64; rewrite Z.mod_small; lia). rewrite Hupn, Hcs. lia. }
  destruct Hfed as (c & rest & -> & Hfed). inversion Hes as [|e c' es' cs' Hec Hes']; subst c' cs' es.
  rewrite (holds_show _ _ _ _ _ _ H). cbn [defined mbind call_mbind cbind]. rewrite Hec. cbn [defined mbind call_mbind cbind].
  destruct (Z.ltb_spec k (zlen c)) as [Hk|Hk].
  - apply Z.ltb_ge in Eu. intros Hr. eapply (round_works N got td te s s' n upper k E w c rest passed); done.
  - intros [= <-]. assert (Hn1 : u64 (n + 1) = n + 1) by (unfold u64; rewrite Z.mod_small; lia).
    unfold work, first_entry. cbn [with_place with_foxtrot at_ foxtrot the_splitter delta echo]. rewrite Hat, Hn1. cbn [fox_work].
    rewrite (fox_contents _ _ _ _ _ (fox_release _ _ _ _ _ (foxtrot_reg_number s) Hf)), Hcs, Eu. cbn [entry_work].
    assert (entry_work 0 (the_splitter s) rest ≤ all_work rest).
    { destruct rest as [|c2 rest]; [done|]. cbn [entry_work all_work foldr]. fold (all_work rest). unfold Splitter.rounds. case_decide; lia. }
    destruct (upper <? n + 1); lia.
Qed.

(** A turn that does not wait leaves less to do. *)
Lemma turn_works N got td te s s' : inv N got td te s → N < 2 ^ 62 - 1 → turn s = Returns s' → work s' < work s.
Proof.
  intros Hi Hmax. destruct (at_ s) as [|c|n upper k|n upper k|n upper k] eqn:Hat; [..| | |].
  - unfold Reception.turn. rewrite Hat. intros Hb. destruct Hi as [(E & n & w & cs & passed & Hf & _) _ _ _]. rewrite Hat in Hf.
    cbn [registered] in Hf. pose proof Hf as [_ _ _ (_ & _ & -> & _)]. destruct (register_fox _ _ _ Hf) as (r & Hr & Hf').
    by eapply begin_works.
  - unfold Reception.turn. rewrite Hat. destruct Hi as [(E & n & w & cs & passed & Hf & _ & _ & _ & _ & Hon & _) _ _ _].
    rewrite Hat in Hon, Hf. destruct Hon as [-> _]. cbn [registered] in Hf. pose proof (fox_contents _ _ _ _ _ Hf) as Hcs.
    unfold wait_for_nonblocking. destruct (Z.ltb_spec (max_read_cursor (foxtrot s)) n) as [|Hge]; [done|]. intros [= <-].
    unfold work, first_entry. cbn [with_place at_ foxtrot the_splitter delta echo]. rewrite Hat, Hcs. cbn [fox_work].
    rewrite (proj2 (Z.ltb_ge _ n)) by done.
    destruct cs as [|c2 rest]; cbn [entry_work all_work foldr]; [lia|]. fold (all_work rest). unfold Splitter.rounds. case_decide; lia.
  - by eapply entry_works.
  - unfold Reception.turn. rewrite Hat. destruct Hi as [(E & m & w & cs & passed & Hf & _ & _ & _ & _ & Hon & _) _ _ _].
    rewrite Hat in Hon. destruct Hon as (<- & Hu & _).
    destruct (claim_delta s) as [s1| |] eqn:E1; cbn [mbind call_mbind cbind]; [|done..]. intros [= <-].
    apply claim_delta_keeps in E1 as (A1 & A2 & A3 & A4 & A5 & A6).
    unfold work, first_entry. cbn [with_place at_ foxtrot the_splitter delta echo]. rewrite Hat, A2, A3, A4, A5. cbn [fox_work].
    rewrite (entry_work_state k _ _ _ A6), (proj2 (Z.ltb_ge upper n)) by lia. lia.
  - unfold Reception.turn. rewrite Hat. destruct Hi as [(E & m & w & cs & passed & Hf & _ & _ & _ & _ & Hon & _) _ _ _].
    rewrite Hat in Hon. destruct Hon as (<- & Hu & _).
    destruct (claim_echo s) as [s1| |] eqn:E1; cbn [mbind call_mbind cbind]; [|done..]. intros [= <-].
    apply claim_echo_keeps in E1 as (A1 & A2 & A3 & A4 & A5 & A6).
    unfold work, first_entry. cbn [with_place at_ foxtrot the_splitter delta echo]. rewrite Hat, A2, A3, A4, A5, A6. cbn [fox_work].
    rewrite (proj2 (Z.ltb_ge upper n)) by lia. lia.
Qed.

(** ** Schedules *)

Definition early (ops : list rop) s : Prop :=
  at_ s = Unregistered → ∃ room, write_cursor (foxtrot s) + Z.of_nat room ≤ 1023 ∧ prompt room ops.

Lemma stuck_more got more : stuck got → stuck (got ++ more).
Proof.
  intros (E & passed & c & rest & k & st & HE & -> & H). exists E, passed, c, (rest ++ more), k, st. by rewrite <- app_assoc.
Qed.

Definition views (ms : list (Z * Z * list Z)) (te : list (list Z)) : Prop :=
  Forall2 (λ m e, Splitter.session_pop e = Some m) ms te.

Lemma rop_ok N got td te s o ops : inv N got td te s → N < 2 ^ 62 - 1 → possible o → early (o :: ops) s →
  match run_rop o s with
  | Returns (a, s') => ∃ td' te', inv (N + 1) (got ++ chunk_of o) (td ++ td') (te ++ te') s'
                         ∧ messages a = raw <$> td' ∧ views (sessions a) te' ∧ early ops s'
  | Waits => True
  | Undefined => stuck got
  end.
Proof.
  intros Hi Hmax Hpos Hearly. assert (Hnil : ∀ A (l : list A), l ++ [] = l) by (intros; apply app_nil_r).
  assert (Hroom : o ≠ Turn → at_ s = Unregistered →
            ∃ room, write_cursor (foxtrot s) + zlen (chunk_of o) + Z.of_nat room ≤ 1023 ∧ prompt room ops).
  { intros Hne Hu. destruct (Hearly Hu) as (room & Hr & Hp). destruct o; try done; destruct Hp as [Hle Hp];
      (eexists; split; [|exact Hp]; lia). }
  destruct o as [x| | |]; cbn [Reception.run_rop chunk_of].
  - pose proof (receive_ok N got td te s x Hi Hmax Hpos) as Hr. specialize (Hr ltac:(intros Hu; destruct (Hroom ltac:(done) Hu) as (? & ? & _); lia)).
    destruct (receive x s) as [s'| |]; cbn [mbind call_mbind cbind]; [|done..]. destruct Hr as (Hi' & Ha & Hw).
    exists [], []. rewrite !Hnil. split; [done|]. split; [done|]. split; [constructor|].
    intros Hu. rewrite Ha in Hu. destruct (Hroom ltac:(done) Hu) as (room & ? & ?). exists room. split; (done || lia).
  - pose proof (turn_ok N got td te s Hi Hmax) as Ht. unfold turned in Ht. destruct (turn s) as [s'| |]; cbn [mbind call_mbind cbind]; [|done|].
    + destruct Ht as [Hi' Hreg]. exists [], []. rewrite !Hnil. split; [done|]. split; [done|]. split; [constructor|].
      intros Hu. by rewrite Hu in Hreg.
    + done.
  - destruct (pop_message_ok N got td te s Hi Hmax) as [(m & q & -> & Hi')|[-> _]]; cbn [mbind call_mbind cbind]; [|done].
    exists [m], []. rewrite !Hnil. split; [done|]. split; [done|]. split; [constructor|].
    intros Hu. destruct (Hroom ltac:(done) Hu) as (room & ? & ?). exists room. split; [cbn in *; lia | done].
  - destruct (pop_session_ok N got td te s Hi Hmax) as [(e & len & off & d & q & -> & Hv & Hi')|[-> _]]; cbn [mbind call_mbind cbind]; [|done].
    exists [], [e]. rewrite !Hnil. split; [done|]. split; [done|]. split; [by constructor|].
    intros Hu. destruct (Hroom ltac:(done) Hu) as (room & ? & ?). exists room. split; [cbn in *; lia | done].
Qed.

Lemma messages_app a b : messages (a ++ b) = messages a ++ messages b.
Proof. apply omap_app. Qed.
Lemma sessions_app a b : sessions (a ++ b) = sessions a ++ sessions b.
Proof. apply omap_app. Qed.

Lemma run_ok ops more : ∀ N got td te s, inv N got td te s → N + Z.of_nat (length ops) ≤ 2 ^ 62 - 1 → Forall possible ops →
  early (ops ++ more) s →
  match run run_rop ops s with
  | Returns (outs, s') => ∃ td' te', inv (N + Z.of_nat (length ops)) (got ++ chunks ops) (td ++ td') (te ++ te') s'
                            ∧ messages outs = raw <$> td' ∧ views (sessions outs) te' ∧ early more s'
  | Waits => True
  | Undefined => stuck (got ++ chunks ops)
  end.
Proof.
  induction ops as [|o ops IH]; intros N got td te s Hi Hmax Hpos Hearly; cbn [run].
  { exists [], []. cbn. rewrite !app_nil_r, Z.add_0_r. split; [done|]. split; [done|]. split; [constructor | done]. }
  apply Forall_cons in Hpos as [Ho Hpos]. rewrite length_cons in Hmax.
  pose proof (rop_ok N got td te s o (ops ++ more) Hi ltac:(lia) Ho Hearly) as H. unfold chunks. cbn [fmap list_fmap concat].
  fold (chunks ops). destruct (run_rop o s) as [[a s1]| |]; cbn [mbind call_mbind cbind]; [|done | by apply stuck_more].
  destruct H as (td1 & te1 & Hi1 & Hm1 & Hv1 & He1).
  pose proof (IH _ _ _ _ _ Hi1 ltac:(lia) Hpos He1) as H2. rewrite <- app_assoc in H2.
  destruct (run run_rop ops s1) as [[b s2]| |]; cbn [mbind call_mbind cbind]; [|done..].
  destruct H2 as (td2 & te2 & Hi2 & Hm2 & Hv2 & He2). exists (td1 ++ td2), (te1 ++ te2).
  rewrite <- !app_assoc in Hi2. rewrite length_cons.
  split; [by replace (N + Z.of_nat (S (length ops))) with (N + 1 + Z.of_nat (length ops)) by lia|].
  split; [by rewrite messages_app, Hm1, Hm2, fmap_app|]. split; [|done].
  unfold views. rewrite sessions_app. by apply Forall2_app.
Qed.

(** Nobody can go on only when all is done. *)
Lemma nobody_moves N got td te s : inv N got td te s → N < 2 ^ 62 - 1 →
  turn s = Waits → pop true (delta s) = Waits → session_pop (echo s) = Waits →
  ∃ E, (∀ i, zlen (E i) = Splitter.ECHO_ENTRY_SIZE) ∧ (∀ c, fed E st0 got c 0 (the_splitter s)) ∧ Feeding.delta_entries (committed (the_splitter s)) = td
       ∧ Feeding.echo_entries (committed (the_splitter s)) = te.
Proof.
  intros Hi Hmax Ht Hp Hs. pose proof (turn_ok N got td te s Hi Hmax) as H. rewrite Ht in H.
  destruct H as [?|[?|(E & HE & Hfed)]]; [done..|]. exists E. split; [done|]. split; [done|].
  destruct (pop_message_ok N got td te s Hi Hmax) as [(m & q & ? & _)|[_ Hd]]; [congruence|].
  destruct (pop_session_ok N got td te s Hi Hmax) as [(? & ? & ? & ? & ? & ? & _)|[_ He]]; [congruence|]. done.
Qed.

(** ** What is left to do gets less *)

Definition received (o : rop) : bool := match o with Receive _ => true | _ => false end.

Lemma pop_counts q m q' n w : pop true q = Returns (m, q') → delta_n_ q = n → max_read_cursor (delta_ q) = w → 0 ≤ n < 2 ^ 64 - 1 →
  max_read_cursor (delta_ q') + 1 - delta_n_ q' = w + 1 - n - 1.
Proof.
  intros Hp <- <- Hn. apply pop_ring in Hp as [-> ->]. cbn [release_entry store_entry set_cursors set_buffer max_read_cursor].
  unfold u64. rewrite Z.mod_small; lia.
Qed.

Lemma session_counts q len off d q' : session_pop q = Returns (len, off, d, q') → 0 ≤ echo_n_ q < 2 ^ 64 - 1 →
  max_read_cursor (echo_ q') + 1 - echo_n_ q' = max_read_cursor (echo_ q) + 1 - echo_n_ q - 1.
Proof.
  unfold session_pop, session_take, session_release. cbn [echo_ echo_n_ echo_cursor_upper_limit_ echo_reg_number_]. intros H Hn. revert H.
  destruct (if echo_n_ q =? _ then _ else _) as [upper| |]; cbn [mbind call_mbind cbind]; [|done..].
  destruct (show_entry _ _) as [e|]; cbn [defined mbind call_mbind cbind]; [|done].
  destruct (Splitter.session_pop e) as [[[? ?] ?]|]; cbn [defined mbind call_mbind cbind]; [|done]. intros [= _ _ _ <-].
  cbn [echo_ echo_n_ release_entry set_cursors max_read_cursor]. unfold u64. rewrite Z.mod_small; lia.
Qed.

Lemma rop_works N got td te s o a s' : inv N got td te s → N < 2 ^ 62 - 1 → received o = false →
  run_rop o s = Returns (a, s') → work s' < work s.
Proof.
  intros Hi Hmax Ho. pose proof Hi as [_ (dp & dm & dw & Hdi & Hdw & _) (ep & em & ew & Hei & Hew & _) _].
  destruct (delta_count _ _ _ _ _ Hdi) as (Hd0 & Hdr & Hd1). destruct (echo_count _ _ _ _ _ Hei) as (He0 & Her & He1).
  assert (Hdn : 0 ≤ delta_n_ (delta s)).
  { destruct Hdi as [(H & _) _ _ _]. pose proof (h_first _ _ _ _ _ H). cbn in *. lia. }
  assert (Hen : 0 ≤ echo_n_ (echo s)) by (destruct Hei as [H _ _ _ _ _ _]; pose proof (h_first _ _ _ _ _ H); lia).
  destruct o as [x| | |]; [done|..]; cbn [Reception.run_rop].
  - destruct (turn s) as [s1| |] eqn:E; cbn [mbind call_mbind cbind]; [|done..]. intros [= _ <-]. by eapply turn_works.
  - destruct (pop true (delta s)) as [[m q]| |] eqn:E; cbn [mbind call_mbind cbind]; [|done..]. intros [= _ <-].
    pose proof (pop_counts _ _ _ _ _ E eq_refl eq_refl ltac:(lia)) as Hc. unfold work, first_entry.
    cbn [with_delta at_ foxtrot the_splitter delta echo]. lia.
  - destruct (session_pop (echo s)) as [[[[len off] d] q]| |] eqn:E; cbn [mbind call_mbind cbind]; [|done..]. intros [= _ <-].
    pose proof (session_counts _ _ _ _ _ E ltac:(lia)) as Hc. unfold work, first_entry.
    cbn [with_echo at_ foxtrot the_splitter delta echo]. lia.
Qed.

Lemma work_nonneg N got td te s : inv N got td te s → 0 ≤ work s.
Proof.
  intros [_ (dp & dm & dw & Hdi & Hdw & _) (ep & em & ew & Hei & Hew & _) _].
  destruct (delta_count _ _ _ _ _ Hdi) as (Hd0 & _ & _). destruct (echo_count _ _ _ _ _ Hei) as (He0 & _ & _).
  assert (Hall : ∀ cs, 0 ≤ all_work cs).
  { induction cs as [|c cs IH]; [done|]. cbn [all_work foldr]. fold (all_work cs). lia. }
  assert (Hentry : ∀ k st cs, 0 ≤ entry_work k st cs).
  { intros k st [|c cs]; [done|]. cbn [entry_work]. pose proof (Hall cs). lia. }
  unfold work. set (cs := waiting_contents _ _). pose proof (Hall cs).
  destruct (at_ s) as [|c|n upper k|n upper k|n upper k]; cbn [fox_work]; [lia | lia |..]; pose proof (Hentry k (the_splitter s) cs);
    [case_match | |]; lia.
Qed.

Lemma all_work_bound cs : Forall small cs → all_work cs ≤ 32740 * zlen cs.
Proof.
  unfold small. change Popper.FOXTROT_MAX_DATA_SIZE with 4092.
  induction 1 as [|c cs Hc _ IH]; [done|]. cbn [all_work foldr]. fold (all_work cs). rewrite length_cons. lia.
Qed.

(** There is never more to do than the rings have place for. *)
Lemma work_bound N got td te s : inv N got td te s → work s ≤ 2 ^ 26.
Proof.
  intros [(E & n & w & cs & passed & Hf & _ & _ & Hsm & _ & Hon & _) (dp & dm & dw & Hdi & _) (ep & em & ew & Hei & _) _].
  destruct (delta_count _ _ _ _ _ Hdi) as (_ & Hdr & _). destruct (echo_count _ _ _ _ _ Hei) as (_ & Her & _).
  assert (Hd : dw - delta_n_ (delta s) ≤ 2 ^ 7 - 1) by (destruct Hdi as [(H & _) _ _ _]; exact (h_lap _ _ _ _ _ H)).
  assert (He : ew - echo_n_ (echo s) ≤ 2 ^ 9 - 1) by (destruct Hei as [H _ _ _ _ _ _ _]; exact (h_lap _ _ _ _ _ H)).
  assert (Hn : first_entry s = n).
  { unfold first_entry. destruct (at_ s); cbn [registered on_the_way] in *; try (by destruct Hon).
    by destruct Hf as [_ _ _ (_ & _ & -> & _)]. }
  pose proof (fox_contents _ _ _ _ _ Hf) as Hcs. destruct Hf as [(es & H & Hes) Hcsm _ _].
  pose proof (all_work_bound cs Hcsm) as Hall. pose proof (h_lap _ _ _ _ _ H) as Hlap. pose proof (h_len _ _ _ _ _ H) as Hlen.
  apply Forall2_length in Hes. rewrite Hes in Hlen.
  assert (Hentry : ∀ k c rest, cs = c :: rest → fed E st0 passed c k (the_splitter s) →
            entry_work k (the_splitter s) cs ≤ all_work cs).
  { intros k c rest -> Hfed. apply Forall_cons in Hcsm as [Hc _]. unfold small in Hc.
    change Popper.FOXTROT_MAX_DATA_SIZE with 4092 in Hc.
    destruct (Feeding.fed_bounds begin_string begin_string_length soh malloc (λ _, no_message) CACHE_LINE_SIZE tx_malloc
                tx_realloc fixmsg_rx soh_digit st0 st0_left E passed c k _ Hfed (small_short _ Hsm) ltac:(lia)) as [_ Hk].
    cbn [entry_work all_work foldr]. fold (all_work rest). unfold Splitter.rounds. case_decide; lia. }
  unfold work. rewrite Hn, Hcs, Hdr, Her.
  assert (fox_work (at_ s) (the_splitter s) cs ≤ 2 + all_work cs); [|lia].
  destruct (at_ s) as [|c|m upper k|m upper k|m upper k]; cbn [fox_work on_the_way] in *; [lia | lia |..].
  - destruct Hon as (-> & _ & Hon). case_match; [lia|]. destruct Hon as (c & rest & Hc & Hfed). specialize (Hentry k c rest Hc Hfed). lia.
  - destruct Hon as (_ & _ & c & rest & Hc & Hfed). specialize (Hentry k c rest Hc Hfed). lia.
  - destruct Hon as (_ & _ & c & rest & Hc & Hfed). specialize (Hentry k c rest Hc Hfed). lia.
Qed.

Lemma calls_possible ops : Forall (λ o, received o = false) ops → Forall possible ops.
Proof. intros H. eapply Forall_impl; [exact H | by intros []]. Qed.

(** A schedule without receives is no longer than the work there is. *)
Lemma runs_end ops more : ∀ N got td te s outs s', inv N got td te s → N + Z.of_nat (length ops) ≤ 2 ^ 62 - 1 →
  Forall possible ops → early (ops ++ more) s → Forall (λ o, received o = false) ops → run run_rop ops s = Returns (outs, s') →
  Z.of_nat (length ops) ≤ work s.
Proof.
  induction ops as [|o ops IH]; intros N got td te s outs s' Hi Hmax Hpos Hearly Hno; cbn [run].
  { intros _. by eapply work_nonneg. }
  apply Forall_cons in Hpos as [Ho Hpos]. apply Forall_cons in Hno as [Hn Hno]. rewrite length_cons in Hmax |- *.
  pose proof (rop_ok N got td te s o (ops ++ more) Hi ltac:(lia) Ho Hearly) as H.
  destruct (run_rop o s) as [[a s1]| |] eqn:E; cbn [mbind call_mbind cbind]; [|done..].
  destruct H as (td1 & te1 & Hi1 & _ & _ & He1). apply (rop_works N got td te) in E; [|done|lia|done].
  destruct (run run_rop ops s1) as [[b s2]| |] eqn:E2; cbn [mbind call_mbind cbind]; [|done..]. intros _.
  specialize (IH _ _ _ _ _ _ _ Hi1 ltac:(lia) Hpos He1 Hno E2). lia.
Qed.

Lemma early_turn N got td te s ops : inv N got td te s → early (Turn :: ops) s.
Proof.
  intros [(E & n & w & cs & passed & [(es & H & _) _ _ Hc] & _) _ _ _] Hu. rewrite Hu in Hc. destruct Hc as (_ & _ & _ & Hw).
  exists O. rewrite (h_write _ _ _ _ _ H). split; [lia | done].
Qed.

(** If every round has a result, somebody can move or nobody. *)
Lemma one_more N got td te s : inv N got td te s → N < 2 ^ 62 - 1 → ¬ stuck got →
  (turn s = Waits ∧ pop true (delta s) = Waits ∧ session_pop (echo s) = Waits)
  ∨ ∃ o a s1 td1 te1, received o = false ∧ run_rop o s = Returns (a, s1) ∧ inv (N + 1) got td1 te1 s1
      ∧ ∀ ops, early ops s1 → early (o :: ops) s.
Proof.
  intros Hi Hmax Hst. pose proof (turn_ok N got td te s Hi Hmax) as Ht.
  destruct (turn s) as [s1| |] eqn:Et; [..|by destruct Hst].
  { right. exists Turn, [], s1, td, te. destruct Ht as [Hi1 _]. split_and!; try done; [cbn [Reception.run_rop]; by rewrite Et|].
    intros ops _. by eapply early_turn. }
  assert (Hreg : at_ s ≠ Unregistered).
  { intros Hu. destruct (begin_ok N got td te s Hi Hu Hmax) as (s' & Hb & _). unfold Reception.turn in Et. rewrite Hu, Hb in Et. done. }
  destruct (pop_message_ok N got td te s Hi Hmax) as [(m & q & Ep & Hi1)|[Ep _]].
  { right. exists PopMessage. eexists _, _, _, _. split; [done|]. cbn [Reception.run_rop]. rewrite Ep. split; [reflexivity|].
    split; [exact Hi1|]. intros ops _ Hu. by destruct Hreg. }
  destruct (pop_session_ok N got td te s Hi Hmax) as [(e & len & off & d & q & Es & _ & Hi1)|[Es _]].
  { right. exists PopSession. eexists _, _, _, _. split; [done|]. cbn [Reception.run_rop]. rewrite Es. split; [reflexivity|].
    split; [exact Hi1|]. intros ops _ Hu. by destruct Hreg. }
  by left.
Qed.

(** Turns and calls that do not wait lead to a state in which nobody can move. *)
Lemma comes_to_rest got (n : nat) : ∀ N td te s, ¬ stuck got → work s < Z.of_nat n → inv N got td te s →
  N + Z.of_nat n ≤ 2 ^ 62 - 1 →
  ∃ ops outs s', Forall (λ o, received o = false) ops ∧ (length ops ≤ n)%nat ∧ early ops s
    ∧ run run_rop ops s = Returns (outs, s') ∧ turn s' = Waits ∧ pop true (delta s') = Waits ∧ session_pop (echo s') = Waits.
Proof.
  induction n as [|n IH]; intros N td te s Hst Hn Hi Hmax; [pose proof (work_nonneg _ _ _ _ _ Hi); lia|].
  destruct (one_more N got td te s Hi ltac:(lia) Hst) as [(? & ? & ?)|(o & a & s1 & td1 & te1 & Ho & Hr & Hi1 & Hearly)].
  - exists [], [], s. split_and!; try done; [cbn; lia|]. intros Hu. destruct (early_turn _ _ _ _ _ [] Hi Hu) as (room & Hw & _).
    exists room. split; [exact Hw | exact I].
  - pose proof (rop_works N got td te s o a s1 Hi ltac:(lia) Ho Hr).
    destruct (IH (N + 1) td1 te1 s1 Hst ltac:(lia) Hi1 ltac:(lia)) as (ops & outs & s' & Hno & Hlen & He & Hrun & Hrest).
    exists (o :: ops), (a ++ outs), s'. split; [by constructor|]. split; [cbn; lia|]. split; [by apply Hearly|].
    split; [cbn [run]; rewrite Hr; cbn [mbind call_mbind cbind]; by rewrite Hrun | done].
Qed.

(** ** From the start *)

Definition reception_init : reception :=
  mkReception init_foxtrot true delta_init echo_init Unregistered 0 0 0 [] st0.

Lemma reception_start_returns : reception_start st0 = Returns reception_init.
Proof. unfold reception_start. rewrite init_delta_returns. cbn [mbind call_mbind cbind]. by rewrite init_echo_returns. Qed.

Lemma start_inv : inv 0 [] [] [] reception_init.
Proof.
  split; cbn [reception_init at_ the_splitter foxtrot foxtrot_reg_number delta delta_cursor echo echo_cursor echo_entry].
  - exists (λ _, replicate (Z.to_nat Splitter.ECHO_ENTRY_SIZE) 0), 1, 0, [], []. split_and!; (done || apply fox_start).
  - exists false, [], 0. rewrite drop_all. split_and!; (done || apply delta_start).
  - exists false, [], 0. rewrite drop_all. split_and!; (done || apply echo_start).
  - done.
Qed.

Lemma start_early ops : prompt 1023 ops → early ops reception_init.
Proof. intros H _. by exists 1023%nat. Qed.

#[local] Abbreviation entries E := (Splitter.splitter_entries begin_string begin_string_length soh malloc (λ _, no_message)
  E CACHE_LINE_SIZE tx_malloc tx_realloc fixmsg_rx).

(** The splitter of [Splitter] gets through the entries, whatever the echo
    entries it is given hold. *)
Definition passable (cs : list (list Z)) : Prop :=
  ∀ E, (∀ i, zlen (E i) = Splitter.ECHO_ENTRY_SIZE) → is_Some (entries E cs st0).

Lemma chunks_short ops : Forall possible ops → Forall (λ c, zlen c < 2 ^ 32) (chunks ops).
Proof.
  intros H. apply small_short. induction H as [|o ops Ho _ IH]; [constructor|]. unfold chunks. cbn [fmap list_fmap concat].
  apply Forall_app. split; [|exact IH]. destruct o as [[d| |e]| | |]; cbn [chunk_of].
  - constructor; [apply Ho | done].
  - by repeat constructor.
  - case_match; by repeat constructor.
  - done.
  - done.
  - done.
Qed.

Lemma passable_not_stuck cs : Forall (λ c, zlen c < 2 ^ 32) cs → passable cs → ¬ stuck cs.
Proof.
  intros Hlen Hpass (E & passed & c & rest & k & st & HE & -> & Hfed & Hk & Hnone). destruct (Hpass E HE) as [st2 Hrun].
  destruct (Feeding.fed_inside begin_string begin_string_length soh malloc (λ _, no_message) CACHE_LINE_SIZE tx_malloc
              tx_realloc fixmsg_rx soh_digit st0 st0_left E passed c rest k st st2 Hfed Hlen Hrun) as [Hstep _].
  by apply Hstep.
Qed.

(** What is committed in a state the threads come to is a beginning of what
    [Splitter] commits. *)
Lemma inv_prefix N cs td te s : inv N cs td te s → Forall (λ c, zlen c < 2 ^ 32) cs → passable cs →
  ∃ E st, (∀ i, zlen (E i) = Splitter.ECHO_ENTRY_SIZE) ∧ entries E cs st0 = Some st
    ∧ Splitter.events (the_splitter s) `prefix_of` Splitter.events st.
Proof.
  intros [(E & n & w & cs' & passed & Hf & Hw & -> & Hsm & Hreg & Hon & HE & _) _ _ _] Hlen Hpass.
  destruct (Hpass E HE) as [st Hrun]. exists E, st. split; [done|]. split; [done|].
  assert (Hcase : ∀ c rest k, passed ++ cs' = passed ++ c :: rest → fed E st0 passed c k (the_splitter s) →
            Splitter.events (the_splitter s) `prefix_of` Splitter.events st).
  { intros c rest k Heq Hfed. rewrite Heq in Hrun, Hlen.
    by destruct (Feeding.fed_inside begin_string begin_string_length soh malloc (λ _, no_message) CACHE_LINE_SIZE tx_malloc
              tx_realloc fixmsg_rx soh_digit st0 st0_left E passed c rest k _ st Hfed Hlen Hrun). }
  assert (Hall : (∀ c', fed E st0 passed c' 0 (the_splitter s)) → Splitter.events (the_splitter s) `prefix_of` Splitter.events st).
  { intros Hfed. destruct cs' as [|c rest]; [|by eapply Hcase].
    apply Forall_app in Hlen as [Hp _]. rewrite app_nil_r in Hrun.
    pose proof (Feeding.fed_entries begin_string begin_string_length soh malloc (λ _, no_message) CACHE_LINE_SIZE tx_malloc
              tx_realloc fixmsg_rx soh_digit st0 st0_left E passed [] 0 _ (Hfed []) Hp ltac:(done)) as He.
    rewrite Feeding.entries_app, Hrun in He. revert He. cbn. by intros [= ->]. }
  destruct (at_ s) as [|c|m upper k|m upper k|m upper k]; cbn [on_the_way] in Hon.
  - destruct Hon as [-> ->]. eapply (Feeding.entries_events begin_string begin_string_length soh malloc (λ _, no_message)
      CACHE_LINE_SIZE tx_malloc tx_realloc fixmsg_rx soh_digit E); done.
  - apply Hall, Hon.
  - destruct Hon as (_ & _ & Hon). case_match; [by apply Hall|]. destruct Hon as (c & rest & -> & ?). by eapply Hcase.
  - destruct Hon as (_ & _ & c & rest & -> & ?). by eapply Hcase.
  - destruct Hon as (_ & _ & c & rest & -> & ?). by eapply Hcase.
Qed.

#[local] Abbreviation started := (reception_start st0).

(** Nobody can go on. *)
Definition at_rest s : bool := waits (turn s) && waits (pop true (delta s)) && waits (session_pop (echo s)).

Lemma prefix_drop {A} (n : nat) (a b : list A) : a `prefix_of` b → drop n a `prefix_of` drop n b.
Proof. intros [c ->]. rewrite drop_app. by apply prefix_app_r. Qed.

(** [td] and [te] are a beginning of what [Splitter] makes of the entries [cs],
    and all of it when [rest]. *)
Definition outcome (cs : list (list Z)) (td : list delta_t) (te : list (list Z)) (rest : bool) : Prop :=
  ∃ E st, (∀ i, zlen (E i) = Splitter.ECHO_ENTRY_SIZE) ∧ entries E cs st0 = Some st
    ∧ td `prefix_of` Feeding.delta_entries (committed st) ∧ te `prefix_of` Feeding.echo_entries (committed st)
    ∧ (rest = true → td = Feeding.delta_entries (committed st) ∧ te = Feeding.echo_entries (committed st)).

Lemma inv_outcome N cs td te s : inv N cs td te s → N < 2 ^ 62 - 1 → Forall (λ c, zlen c < 2 ^ 32) cs → passable cs →
  outcome cs td te (at_rest s).
Proof.
  intros Hi Hmax Hshort Hpass. destruct (inv_prefix _ _ _ _ _ Hi Hshort Hpass) as (E & st & HE & Hrun & Hpre).
  pose proof Hi as [_ (p & msgs & w & _ & _ & _ & Hd & _) (p' & es & w' & _ & _ & _ & He) _].
  apply (prefix_drop (length (Splitter.events st0))) in Hpre. destruct Hpre as [more Hmore].
  destruct (at_rest s) eqn:Hrest; cycle 1.
  - exists E, st. split_and!; try done.
    + rewrite Hmore, Feeding.delta_entries_app, Hd, <- app_assoc. by apply prefix_app_r.
    + rewrite Hmore, Feeding.echo_entries_app, He, <- app_assoc. by apply prefix_app_r.
  - apply andb_true_iff in Hrest as [[H1%waits_true H2%waits_true]%andb_true_iff H3%waits_true].
    destruct (nobody_moves _ _ _ _ _ Hi ltac:(lia) H1 H2 H3) as (E' & HE' & Hfed & <- & <-).
    pose proof (Feeding.fed_entries begin_string begin_string_length soh malloc (λ _, no_message) CACHE_LINE_SIZE tx_malloc
              tx_realloc fixmsg_rx soh_digit st0 st0_left E' cs [] 0 _ (Hfed []) Hshort ltac:(done)) as Hall.
    rewrite Feeding.entries_app in Hall. destruct (Hpass E' HE') as [st' Hst']. rewrite Hst' in Hall. injection Hall as ->.
    exists E', (the_splitter s). split_and!; done.
Qed.

(** A schedule never ends in undefined behaviour, and what the client has got is
    part of the outcome. *)
Lemma threads_outcome ops : Forall possible ops → prompt 1023 ops → Z.of_nat (length ops) ≤ 2 ^ 62 - 2 →
  passable (chunks ops) →
  (s ← started; run run_rop ops s) ≠ Undefined ∧ ∀ outs s, (s ← started; run run_rop ops s) = Returns (outs, s) →
    ∃ td te, messages outs = raw <$> td ∧ views (sessions outs) te ∧ outcome (chunks ops) td te (at_rest s).
Proof.
  intros Hpos Hprompt Hlen Hpass. rewrite reception_start_returns. cbn [mbind call_mbind cbind].
  rewrite <- (app_nil_r ops) in Hprompt.
  pose proof (run_ok ops [] 0 [] [] [] _ start_inv ltac:(lia) Hpos (start_early _ Hprompt)) as H. cbn [app] in H.
  pose proof (chunks_short _ Hpos) as Hshort. pose proof (passable_not_stuck _ Hshort Hpass) as Hst.
  split; [intros Hu; rewrite Hu in H; by apply Hst|]. intros outs s Hr. rewrite Hr in H.
  destruct H as (td & te & Hi & Hm & Hv & _). exists td, te. split_and!; [done..|]. eapply inv_outcome; [exact Hi | lia | done..].
Qed.

(** From every state it comes to, turns and calls lead to rest, and no sequence of
    them goes on for longer than there is work. *)
Lemma threads_settle ops outs s : Forall possible ops → prompt 1023 ops → passable (chunks ops) →
  (s ← started; run run_rop ops s) = Returns (outs, s) → Z.of_nat (length ops) ≤ 2 ^ 61 →
  ∃ ops' outs' s', Forall (λ o, received o = false) ops' ∧ run run_rop ops' s = Returns (outs', s') ∧ at_rest s' = true
    ∧ ∃ td te, messages (outs ++ outs') = raw <$> td ∧ views (sessions (outs ++ outs')) te ∧ outcome (chunks ops) td te true.
Proof.
  intros Hpos Hprompt Hpass. rewrite reception_start_returns. cbn [mbind call_mbind cbind]. intros Hr Hlen.
  pose proof (chunks_short _ Hpos) as Hshort. pose proof (passable_not_stuck _ Hshort Hpass) as Hst. rewrite <- (app_nil_r ops) in Hprompt.
  pose proof (run_ok ops [] 0 [] [] [] _ start_inv ltac:(lia) Hpos (start_early _ Hprompt)) as H. rewrite Hr in H.
  destruct H as (td & te & Hi & Hm & Hv & _). cbn [app] in Hi. pose proof (work_nonneg _ _ _ _ _ Hi) as Hw0.
  change (2 ^ 61) with 2305843009213693952 in Hlen. pose proof (work_bound _ _ _ _ _ Hi) as Hwork. change (2 ^ 26) with 67108864 in Hwork.
  destruct (comes_to_rest (chunks ops) (S (Z.to_nat (work s))) _ td te s Hst ltac:(lia) Hi ltac:(lia))
    as (ops' & outs' & s' & Hno & Hlen' & He' & Hr' & H1 & H2 & H3).
  assert (Hchunks : chunks ops' = []).
  { clear - Hno. induction Hno as [|[] ops' Ho _ IH]; done. }
  rewrite <- (app_nil_r ops') in He'.
  pose proof (run_ok ops' [] _ _ _ _ _ Hi ltac:(lia) (calls_possible _ Hno) He') as H. rewrite Hr', Hchunks, app_nil_r in H.
  destruct H as (td' & te' & Hi' & Hm' & Hv' & _).
  exists ops', outs', s'. split; [done|]. split; [done|].
  assert (Hrest : at_rest s' = true) by (unfold at_rest; by rewrite H1, H2, H3). split; [done|].
  exists (td ++ td'), (te ++ te'). rewrite messages_app, sessions_app, Hm, Hm', fmap_app. split; [done|].
  split; [by apply Forall2_app|]. rewrite <- Hrest. eapply inv_outcome; [exact Hi' | lia | done..].
Qed.

Lemma threads_work ops more outs s x : Forall possible ops → prompt 1023 (ops ++ more) →
  (s ← started; run run_rop ops s) = Returns (outs, s) → Z.of_nat (length ops) ≤ 2 ^ 61 →
  Forall (λ o, received o = false) more → run run_rop more s = Returns x → Z.of_nat (length more) ≤ 2 ^ 26.
Proof.
  intros Hpos Hprompt. rewrite reception_start_returns. cbn [mbind call_mbind cbind]. intros Hr Hlen Hno Hmore.
  pose proof (run_ok ops more 0 [] [] [] _ start_inv ltac:(lia) Hpos (start_early _ Hprompt)) as H. rewrite Hr in H.
  destruct H as (td & te & Hi & _ & _ & Hearly). pose proof (work_nonneg _ _ _ _ _ Hi) as Hw0.
  change (2 ^ 61) with 2305843009213693952 in Hlen. pose proof (work_bound _ _ _ _ _ Hi) as Hwork. change (2 ^ 26) with 67108864 in *.
  destruct (Z.le_gt_cases (Z.of_nat (length more)) (work s)) as [|Hgt]; [lia|].
  set (k := S (Z.to_nat (work s))). rewrite <- (take_drop k more) in Hmore, Hearly, Hno.
  apply Forall_app in Hno as [Hno _]. rewrite run_app in Hmore.
  destruct (run run_rop (take k more) s) as [[a s1]| |] eqn:E; cbn [mbind call_mbind cbind] in Hmore; [|done..].
  assert (Hk : length (take k more) = k) by (rewrite length_take; lia).
  pose proof (runs_end (take k more) (drop k more) _ _ _ _ _ _ _ Hi ltac:(lia) (calls_possible _ Hno) Hearly Hno E). lia.
Qed.
End Invariant.
