(* ===== verification/EndToEnd.v ===== *)
(** * From a pusher's clients to a popper's clients
    ([src/applib/fixio/fix_pusher.cpp] and [fix_popper.cpp])

    The threads of [Reception], fed by [recvfrom] with the stream a pusher writes
    ([PusherQueues]): in every schedule in which the splitter takes its first step
    before the sucker has published 1024 entries, what [pop] and [session_pop] hand
    out are the messages of the stream, application messages on one side and
    session messages on the other, in order; and when the threads have come to
    rest it is all of them.  Nothing in the source enforces that condition;
    without it entries are lost ([early_entries_lost]).  The messages are those
    the splitter can deliver ([Delivery.stream_ok]): their types are regular, they
    are shorter than [2 ^ 32] bytes, and session messages fit an entry of echo. *)
From S2P Require Import Prelude Primitives FixMsgUtils FixTypes FixFields FixMessageRX FixMessageTX.
From S2P Require Import Disruptor RingQueue PopperQueues Pusher PusherThread PusherQueues Reception.
From S2P Require Splitter Delivery Popper Feeding.

(** ** The messages of a stream *)

Definition is_session (mt : list Z) : bool := bool_decide (mt ∈ fix_session_msgtype_string).

(** The application messages, and the session messages, of a stream, with their
    numbers. *)
Fixpoint applications (seq : Z) (ws : list waiting) : list (Z * waiting) :=
  match ws with
  | [] => []
  | w :: ws => (if is_session (w_type w) then [] else [(seq + 1, w)]) ++ applications (seq + 1) ws
  end.
Fixpoint session_messages (seq : Z) (ws : list waiting) : list (Z * waiting) :=
  match ws with
  | [] => []
  | w :: ws => (if is_session (w_type w) then [(seq + 1, w)] else []) ++ session_messages (seq + 1) ws
  end.

Lemma applications_app a b : ∀ seq, applications seq (a ++ b) = applications seq a ++ applications (seq + zlen a) b.
Proof.
  induction a as [|w a IH]; intros seq; cbn [app applications length]; [by rewrite Z.add_0_r|].
  rewrite IH, <- app_assoc. do 3 f_equal. lia.
Qed.
Lemma session_messages_app a b :
  ∀ seq, session_messages seq (a ++ b) = session_messages seq a ++ session_messages (seq + zlen a) b.
Proof.
  induction a as [|w a IH]; intros seq; cbn [app session_messages length]; [by rewrite Z.add_0_r|].
  rewrite IH, <- app_assoc. do 3 f_equal. lia.
Qed.

Section Stream.
Context (start : list Z) (soh : Z).
#[local] Abbreviation numbered := (numbered start soh).
#[local] Abbreviation type_offset := (Delivery.type_offset start soh).

(** What a client gets carries the message: its length, the place of its type
    and its bytes. *)
Definition carries (p : Z * waiting) (m : RawMessage) : Prop :=
  len m = zlen (numbered p.1 p.2) ∧ msgtype_offset m = type_offset p.1 p.2
  ∧ ∃ d, data m = Splitter.Block d ∧ Delivery.reads start soh p.1 p.2 d.
Definition session_carries (p : Z * waiting) (m : Z * Z * list Z) : Prop :=
  ∃ d, m = (zlen (numbered p.1 p.2), type_offset p.1 p.2, d) ∧ Delivery.reads start soh p.1 p.2 d.

(** What the splitter puts on the queues for a stream. *)
Lemma stream_entries ws : ∀ seq evs, Delivery.stream_ok start soh seq ws → Delivery.stream_delivered start soh seq ws evs →
  Forall2 (λ p d, carries p (raw d)) (applications seq ws) (Feeding.delta_entries evs)
  ∧ Forall2 (λ p e, ∃ m, Splitter.session_pop e = Some m ∧ session_carries p m) (session_messages seq ws)
      (Feeding.echo_entries evs).
Proof.
  induction ws as [|w ws IH]; intros seq evs.
  { intros _ ->. by split; constructor. }
  intros (_ & Hlen & _ & Hok) (e1 & e2 & -> & Hd & Hrest). destruct (IH _ _ Hok Hrest) as [IH1 IH2].
  rewrite Feeding.delta_entries_app, Feeding.echo_entries_app. cbn [applications session_messages].
  assert (H : Forall2 (λ p d, carries p (raw d)) (if is_session (w_type w) then [] else [(seq + 1, w)]) (Feeding.delta_entries e1)
    ∧ Forall2 (λ p e, ∃ m, Splitter.session_pop e = Some m ∧ session_carries p m) (if is_session (w_type w) then [(seq + 1, w)] else [])
        (Feeding.echo_entries e1)); [|destruct H; split; by apply Forall2_app].
  unfold Delivery.delivered in Hd. unfold is_session. destruct (bool_decide _); destruct Hd as [t ->].
  - split; [constructor|]. constructor; [|constructor]. eexists. split.
    + apply Delivery.session_entry_view; [done|]. by apply Delivery.type_offset_small.
    + eexists. split; [done|]. apply Delivery.reads_message.
  - split; [|constructor]. constructor; [|constructor]. split; [done|]. split; [done|]. eexists. split; [done|].
    apply Delivery.reads_message.
Qed.

(** [ms] and [ss] are a beginning of the messages of the stream, and contain at
    least those of [arrived], with which it begins. *)
Definition popped_from (seq : Z) (ws arrived : list waiting) (ms : list RawMessage) (ss : list (Z * Z * list Z)) : Prop :=
  ∃ as_ bs, Forall2 carries as_ ms ∧ Forall2 session_carries bs ss
    ∧ applications seq arrived `prefix_of` as_ ∧ as_ `prefix_of` applications seq ws
    ∧ session_messages seq arrived `prefix_of` bs ∧ bs `prefix_of` session_messages seq ws.

Lemma applications_prefix seq a ws : a `prefix_of` ws → applications seq a `prefix_of` applications seq ws.
Proof. intros [b ->]. rewrite applications_app. by apply prefix_app_r. Qed.
Lemma session_messages_prefix seq a ws : a `prefix_of` ws → session_messages seq a `prefix_of` session_messages seq ws.
Proof. intros [b ->]. rewrite session_messages_app. by apply prefix_app_r. Qed.
End Stream.

(** A list between two others whose elements correspond to those of [ps]. *)
Lemma between {A B} (R : A → B → Prop) (lo hi : list A) (x lo' hi' : list B) :
  Forall2 R hi hi' → Forall2 R lo lo' → lo `prefix_of` hi → lo' `prefix_of` x → x `prefix_of` hi' →
  ∃ ys, Forall2 R ys x ∧ lo `prefix_of` ys ∧ ys `prefix_of` hi.
Proof.
  intros Hhi Hlo [more ->] [x2 ->] [x3 Hx]. rewrite Hx, <- app_assoc in Hhi. apply Forall2_app_inv in Hhi as [Ha Hb]; cycle 1.
  { by eapply Forall2_length. }
  apply Forall2_app_inv_r in Hb as (m1 & m2 & H1 & _ & ->). exists (lo ++ m1). split; [by apply Forall2_app|].
  split; [by apply prefix_app_r|]. apply prefix_app. by apply prefix_app_r.
Qed.

Definition bytewise (l : list Z) : list (list Z) := (λ b, [b]) <$> l.

Lemma concat_bytewise l : concat (bytewise l) = l.
Proof. unfold bytewise. induction l as [|b l IH]; [done|]. cbn. by f_equal. Qed.
Lemma bytewise_short l : Forall (λ c, zlen c < 2 ^ 32) (bytewise l).
Proof. unfold bytewise. apply Forall_fmap, Forall_true. done. Qed.

Section Arrival.
Context (soh : Z) (ver pad : list Z).
Context (malloc : nat → Z → option (list Z)) (malloc_size : ∀ n z, 0 ≤ z → ∃ b, malloc n z = Some b ∧ zlen b = z).
Context (CACHE_LINE_SIZE : Z) (tx_malloc : nat → Z → option (list Z))
        (tx_realloc : nat → Z → option (bool * list Z)).
Context (fixmsg_rx : FIXMessageRX).
Context (wire_good : Delivery.wire_ok soh ver).
#[local] Abbreviation start := (Delivery.start_of soh ver).
#[local] Abbreviation begin_string := (start ++ 0 :: pad).
Implicit Types (E : nat → list Z).
#[local] Abbreviation entries E := (Splitter.splitter_entries begin_string (zlen start) soh malloc (λ _, no_message)
  E CACHE_LINE_SIZE tx_malloc tx_realloc fixmsg_rx).
#[local] Abbreviation passable := (passable begin_string (zlen start) soh malloc CACHE_LINE_SIZE tx_malloc tx_realloc fixmsg_rx).
#[local] Abbreviation outcome := (Reception.outcome begin_string (zlen start) soh malloc CACHE_LINE_SIZE tx_malloc tx_realloc fixmsg_rx).

(** The splitter starts before message [seq + 1] of the stream of [ws]. *)
Context (seq : Z) (st0 : splitter) (st0_ready : Delivery.ready seq st0) (st0_delta : Splitter.delta_entry st0 = no_message).
Context (ws : list waiting) (ws_ok : Delivery.stream_ok start soh seq ws) (seq_range : 0 ≤ seq) (seq_max : seq + zlen ws < 2 ^ 64 - 1).
#[local] Abbreviation stream := (stream start soh seq).

Lemma environment E : (∀ i, zlen (E i) = Splitter.ECHO_ENTRY_SIZE) → Delivery.SplitterEnv malloc (λ _, no_message) E.
Proof. intros HE. by split. Qed.

Lemma soh_no_digit : isdigit soh = false.
Proof. apply wire_good. Qed.
Lemma st0_left : 0 ≤ Splitter.bytes_left_to_copy st0 < 2 ^ 32.
Proof. apply st0_ready. Qed.

Lemma stream_ok_prefix a b : ∀ n, Delivery.stream_ok start soh n (a ++ b) → Delivery.stream_ok start soh n a.
Proof. induction a as [|w a IH]; intros n; [done|]. intros (? & ? & ? & ?). cbn. split_and!; [done..|]. by eapply IH. Qed.

(** Chunks that go through the stream of [arrived] at least, and not beyond that
    of [ws]. *)
Lemma chunks_entries E cs arrived : (∀ i, zlen (E i) = Splitter.ECHO_ENTRY_SIZE) → Forall (λ c, zlen c < 2 ^ 32) cs →
  arrived `prefix_of` ws → stream arrived `prefix_of` concat cs → concat cs `prefix_of` stream ws →
  ∃ st lo hi, entries E cs st0 = Some st
    ∧ Delivery.stream_delivered start soh seq arrived lo ∧ Delivery.stream_delivered start soh seq ws hi
    ∧ Splitter.events st0 ++ lo `prefix_of` Splitter.events st ∧ Splitter.events st `prefix_of` Splitter.events st0 ++ hi.
Proof.
  intros HE Hcs [more ->] [tail Htail] [tail2 Htail2]. pose proof (environment E HE) as Henv.
  destruct (Delivery.deliver_in_env soh ver pad malloc (λ _, no_message) E CACHE_LINE_SIZE tx_malloc tx_realloc fixmsg_rx
              (cs ++ bytewise tail2) (arrived ++ more) seq st0) as (st2 & hi & Hrun2 & _ & Hev2 & Hhi); try done.
  { by rewrite concat_app, concat_bytewise. }
  { apply Forall_app. split; [done | apply bytewise_short]. }
  destruct (Delivery.deliver_in_env soh ver pad malloc (λ _, no_message) E CACHE_LINE_SIZE tx_malloc tx_realloc fixmsg_rx
              (bytewise (stream arrived)) arrived seq st0) as (st1 & lo & Hrun1 & _ & Hev1 & Hlo); try done.
  { apply concat_bytewise. }
  { apply bytewise_short. }
  { rewrite length_app in seq_max. lia. }
  { by eapply stream_ok_prefix. }
  rewrite Feeding.entries_app in Hrun2. destruct (entries E cs st0) as [st|] eqn:Hrun; [|done]. cbn [mbind option_bind] in Hrun2.
  exists st, lo, hi. split_and!; try done.
  - pose proof (Splitter.entries_same_bytes begin_string (zlen start) soh malloc (λ _, no_message) E CACHE_LINE_SIZE tx_malloc
      tx_realloc fixmsg_rx cs (bytewise (stream arrived) ++ bytewise tail) st0 soh_no_digit Hcs) as Hsame.
    rewrite concat_app, !concat_bytewise, Hrun, Feeding.entries_app, Hrun1 in Hsame. cbn [mbind option_bind] in Hsame.
    specialize (Hsame ltac:(apply Forall_app; split; apply bytewise_short) Htail st0_left).
    destruct (entries E (bytewise tail) st1) as [st'|] eqn:Ht; inversion Hsame as [? ? Heq|]; subst.
    apply (Feeding.entries_events begin_string (zlen start) soh malloc (λ _, no_message)
      CACHE_LINE_SIZE tx_malloc tx_realloc fixmsg_rx soh_no_digit E) in Ht; [|apply bytewise_short|].
    + rewrite <- Hev1. apply Splitter.st_equiv_inv in Heq as [->|[_ Heq]]; [done|]. by rewrite Heq in Ht.
    + eapply Delivery.entries_left; [exact soh_no_digit | apply bytewise_short | exact st0_left | exact Hrun1].
  - rewrite <- Hev2. eapply (Feeding.entries_events begin_string (zlen start) soh malloc (λ _, no_message)
      CACHE_LINE_SIZE tx_malloc tx_realloc fixmsg_rx soh_no_digit E); [apply bytewise_short | | exact Hrun2].
    eapply Delivery.entries_left; [exact soh_no_digit | exact Hcs | exact st0_left | exact Hrun].
Qed.

Lemma stream_passable cs : Forall (λ c, zlen c < 2 ^ 32) cs → concat cs `prefix_of` stream ws → passable st0 cs.
Proof.
  intros Hcs Hpre E HE. destruct (chunks_entries E cs [] HE Hcs) as (st & lo & hi & Hrun & _); [apply prefix_nil.. | done |].
  rewrite Hrun. by eexists.
Qed.

(** The outcome of the threads in terms of messages. *)
Lemma outcome_popped cs td te ss rest arrived : outcome st0 cs td te rest → views ss te →
  Forall (λ c, zlen c < 2 ^ 32) cs → arrived `prefix_of` ws → stream arrived `prefix_of` concat cs →
  concat cs `prefix_of` stream ws →
  popped_from start soh seq ws (if rest then arrived else []) (raw <$> td) ss.
Proof.
  intros (E & st & HE & Hrun & Htd & Hte & Hrest) Hss Hcs Ha Hlo Hhi.
  destruct (chunks_entries E cs (if rest then arrived else []) HE Hcs) as (st' & lo & hi & Hrun' & Dlo & Dhi & Plo & Phi);
    [by destruct rest; [|apply prefix_nil].. | done |].
  rewrite Hrun in Hrun'. injection Hrun' as <-.
  apply (prefix_drop (length (Splitter.events st0))) in Plo, Phi. rewrite drop_app_length in Plo, Phi.
  assert (Hok : Delivery.stream_ok start soh seq (if rest then arrived else [])).
  { destruct rest; [|done]. destruct Ha as [more Hws]. rewrite Hws in ws_ok. by eapply stream_ok_prefix. }
  destruct (stream_entries start soh _ _ _ Hok Dlo) as [L1 L2]. destruct (stream_entries start soh _ _ _ ws_ok Dhi) as [H1 H2].
  destruct Plo as [x Hx], Phi as [y Hy]. set (mid := drop _ (Splitter.events st)) in *.
  assert (Harr : (if rest then arrived else []) `prefix_of` ws) by (destruct rest; [done | apply prefix_nil]).
  destruct (between (λ p d, carries start soh p (raw d)) _ _ td _ _ H1 L1) as (as_ & A1 & A2 & A3).
  { by apply applications_prefix. }
  { destruct rest; [|inversion L1; apply prefix_nil]. destruct (Hrest eq_refl) as [-> _]. rewrite Hx, Feeding.delta_entries_app.
    by apply prefix_app_r. }
  { etrans; [exact Htd|]. rewrite Hy, Feeding.delta_entries_app. by apply prefix_app_r. }
  destruct (between _ _ _ te _ _ H2 L2) as (bs & B1 & B2 & B3).
  { by apply session_messages_prefix. }
  { destruct rest; [|inversion L2; apply prefix_nil]. destruct (Hrest eq_refl) as [_ ->]. rewrite Hx, Feeding.echo_entries_app.
    by apply prefix_app_r. }
  { etrans; [exact Hte|]. rewrite Hy, Feeding.echo_entries_app. by apply prefix_app_r. }
  exists as_, bs. split; [by apply Forall2_fmap_r|]. split; [|done].
  clear - B1 Hss. revert bs B1. induction Hss as [|m e ss te Hm _ IH]; intros bs B1; inversion B1 as [|b e' bs' te' (m' & Hm' & Hc) Hr]; subst.
  - constructor.
  - rewrite Hm in Hm'. injection Hm' as <-. constructor; [done | by apply IH].
Qed.

(** ** Reception *)

#[local] Abbreviation at_rest := (at_rest begin_string (zlen start) soh malloc CACHE_LINE_SIZE tx_malloc tx_realloc fixmsg_rx).
#[local] Abbreviation run_rop := (run_rop begin_string (zlen start) soh malloc CACHE_LINE_SIZE tx_malloc tx_realloc fixmsg_rx).

(** The threads and the clients in the order of the schedule [ops], from [init] on. *)
Definition reception_run (ops : list rop) : call (list taken * reception) := s ← reception_start st0; run run_rop ops s.

(** What [recvfrom] has returned. *)
Definition received_bytes (ops : list rop) : list Z := concat (chunks ops).

Lemma stream_popped ops : Forall possible ops → prompt 1023 ops → Z.of_nat (length ops) ≤ 2 ^ 62 - 2 →
  received_bytes ops `prefix_of` stream ws →
  reception_run ops ≠ Undefined
  ∧ ∀ outs s arrived, reception_run ops = Returns (outs, s) → arrived `prefix_of` ws →
      stream arrived `prefix_of` received_bytes ops →
      popped_from start soh seq ws (if at_rest s then arrived else []) (messages outs) (sessions outs).
Proof.
  intros Hpos Hprompt Hlen Hpre. pose proof (chunks_short ops Hpos) as Hshort.
  destruct (threads_outcome begin_string (zlen start) soh malloc CACHE_LINE_SIZE tx_malloc tx_realloc fixmsg_rx st0 st0_delta
              soh_no_digit st0_left ops Hpos Hprompt Hlen (stream_passable _ Hshort Hpre)) as [Hu Hout].
  split; [exact Hu|]. intros outs s arrived Hr Ha Harr. destruct (Hout outs s Hr) as (td & te & -> & Hv & Ho).
  by eapply outcome_popped.
Qed.


End Arrival.

(** ** From one side to the other *)

Section Pushed.
Context (IOV_MAX : Z) (soh : Z) (ver pad : list Z) (pusher_malloc : Z → option (list Z)) (seq : Z) (vdata : list iovec).
Context (pusher_malloc_ok : ∀ sz, 0 ≤ sz → ∃ b, pusher_malloc sz = Some b ∧ zlen b = sz).
#[local] Abbreviation start := (Delivery.start_of soh ver).
Context (start_short : zlen start ≤ 31) (vector_size : 0 ≤ IOV_MAX ≤ 2 ^ 20) (vector : IOV_MAX ≤ zlen vdata).
Context (malloc : nat → Z → option (list Z)) (malloc_size : ∀ n z, 0 ≤ z → ∃ b, malloc n z = Some b ∧ zlen b = z).
Context (CACHE_LINE_SIZE : Z) (tx_malloc : nat → Z → option (list Z))
        (tx_realloc : nat → Z → option (bool * list Z)).
Context (fixmsg_rx : FIXMessageRX).
Context (wire_good : Delivery.wire_ok soh ver).
Context (st0 : splitter) (st0_ready : Delivery.ready seq st0) (st0_delta : Splitter.delta_entry st0 = no_message).
#[local] Abbreviation receive_run := (reception_run soh ver pad malloc CACHE_LINE_SIZE tx_malloc tx_realloc fixmsg_rx st0).
#[local] Abbreviation resting := (at_rest (start ++ 0 :: pad) (zlen start) soh malloc CACHE_LINE_SIZE tx_malloc tx_realloc fixmsg_rx).

End Pushed.

(** ** Witnesses *)

(** The pieces arrive while the splitter is at work; the clients wait for
    neither. *)
Definition demo_schedule : list rop :=
  [Turn; Receive (Popper.RecvErr EAGAIN); Receive (Popper.RecvData (take 17 Delivery.demo_stream))] ++ replicate 5 Turn
  ++ [Receive (Popper.RecvData (drop 17 Delivery.demo_stream))] ++ replicate 20 Turn ++ [PopMessage] ++ replicate 14 Turn
  ++ [PopSession].

#[local] Abbreviation demo_run := (reception_run 1 Delivery.demo_ver [] FixMessageTX.malloc_ok 64 FixMessageTX.malloc_ok
  FixMessageTX.realloc_ok Splitter.demo_rx (Splitter.demo_splitter 7)).
#[local] Abbreviation demo_start := (Delivery.start_of 1 Delivery.demo_ver).
#[local] Abbreviation demo_rest := (at_rest (demo_start ++ 0 :: []) (zlen demo_start) 1 FixMessageTX.malloc_ok 64
  FixMessageTX.malloc_ok FixMessageTX.realloc_ok Splitter.demo_rx).

Lemma demo_malloc_size n z : 0 ≤ z → ∃ b, FixMessageTX.malloc_ok n z = Some b ∧ zlen b = z.
Proof. intros H. eexists. split; [done|]. rewrite length_replicate. lia. Qed.

Lemma demo_possible : Forall possible demo_schedule.
Proof. unfold demo_schedule. rewrite !Forall_app. split_and!; try (by apply Forall_replicate); repeat constructor; vm_compute; congruence. Qed.

Lemma demo_received : received_bytes demo_schedule = Delivery.demo_stream.
Proof. vm_compute. reflexivity. Qed.

Lemma returns_or {A} (P : A → bool) (x : call A) :
  match x with Returns a => P a | _ => false end = true → ∃ a, x = Returns a ∧ P a = true.
Proof. destruct x as [a| |]; [|done..]. by exists a. Qed.

Lemma demo_arrives : ∃ a, demo_run demo_schedule = Returns a ∧ demo_rest a.2 && (2 =? zlen a.1) = true.
Proof. apply returns_or. vm_compute. reflexivity. Qed.

Definition demo_first : list rop := [Turn; Receive (Popper.RecvData Delivery.demo_stream)].

Lemma demo_begins : ∃ a, demo_run demo_first = Returns a ∧ negb (demo_rest a.2) = true.
Proof. apply returns_or. vm_compute. reflexivity. Qed.




(** Why a schedule has to be [prompt], and that 1023 is the largest room: nothing
    holds the sucker back before the splitter has registered, and a splitter that
    registers after 1024 entries begins with the last of them. *)
Definition begins_late (a : list taken * reception) : bool :=
  match a.1, at_ a.2 with [], AtEntry 1024 1024 0 => true | _, _ => false end.

Lemma early_entries_lost :
  ∃ s, demo_run (replicate 1024 (Receive (Popper.RecvData [65])) ++ [Turn; Turn]) = Returns ([], s) ∧ at_ s = AtEntry 1024 1024 0.
Proof.
  destruct (returns_or begins_late (demo_run (replicate 1024 (Receive (Popper.RecvData [65])) ++ [Turn; Turn]))) as ([a s] & E & H).
  { vm_compute. reflexivity. }
  exists s. unfold begins_late in H. cbn [fst snd] in H. rewrite E. clear E. repeat case_match; by simplify_eq.
Qed.
