(* ===== verification/GenericMain.v ===== *)
(** * The server shell: [src/servers/generic/generic_main.cpp]

    [generic_main] reads the command line ([ArgOpt]), the configuration
    ([Config]) and runs [start_server]: the master creates a slave process and a
    socket pair for each identity, writes its process number and waits for its
    worker.  [fork] makes two processes: the master's run is [start_server],
    with the state each slave starts in; a slave's run is [slave].  The answers
    of the system are arguments.  [None] is undefined behaviour, or a call that
    does not end.

    The log calls of these functions (M_INFO, M_ERROR and the like) are left out.
    They change nothing here, but after [init_logging] a call that the mask lets
    through reads a prefix that is gone ([Process.logging_prefix_dead]: errors
    always, M_INFO only with the debug flag).  What is said of runs that log
    such a message is said of the rest of the code. *)
From S2P Require Import Prelude Sockets Process ConfigItems Config.
From S2P Require ArgOpt.

Definition EXIT_SUCCESS : Z := 0.
Definition EXIT_FAILURE : Z := 1.

(** ** Thread arguments *)

Record thread_arg_t := mkThreadArg { identity : list Z; config_source : list Z; ta_socket : Z }.

(** The argument, and how many blocks are lost.  The string before a failing
    [strdup] is not given back. *)
Definition create_thread_arg (malloc_ok strdup1_ok strdup2_ok : bool) (identity source : option (list Z)) (socket : Z)
    : option thread_arg_t * nat :=
  if negb malloc_ok then (None, O)
  else if negb strdup1_ok then (None, O)
  else if negb strdup2_ok then (None, 1%nat)
  else (Some (mkThreadArg (default [] identity) (default [] source) socket), O).

Record arg_ok := mkArgOk { arg_malloc : bool; arg_strdup1 : bool; arg_strdup2 : bool }.

Definition make_arg (a : arg_ok) (identity source : option (list Z)) (socket : Z) : option thread_arg_t :=
  (create_thread_arg (arg_malloc a) (arg_strdup1 a) (arg_strdup2 a) identity source socket).1.

(** The answers of the threads library. *)
Record thread_ok := mkThreadOk { attr_rc : Z; state_rc : Z; create_rc : Z }.

Definition create_ipc_thread (a : thread_ok) : bool := (create_detached_thread (attr_rc a) (state_rc a) (create_rc a)).1.
Definition create_worker_thread (a : thread_ok) : bool := (create_joinable_thread (attr_rc a) (state_rc a) (create_rc a)).1.

(** ** Reading one setting *)

Definition LOCALHOST : list Z := bytes_of_string "LOCALHOST".

(** The answers: [new], the calls of [subscribe], the [strdup] of [get]. *)
Record setting_ok := mkSettingOk { new_ok : bool; subscribe_ok : sub_ok; get_ok : bool }.

(** A simple item: [new], [subscribe], [get], [release]; the inner [None] is the
    error exit.  [get] does not assign when the item has no value. *)
Definition read_setting (a : setting_ok) (item : list Z) (c : config) : option (option (config * option (list Z))) :=
  if negb (new_ok a) then Some None
  else
    '(r, c, it) ← @subscribe _ SimpleItem (subscribe_ok a) None (Some LOCALHOST) (Some item) (Some (mkItem 1 None)) c;
    if negb (r : bool) then Some None
    else
      it ← it;
      match line_ it with
      | None => None
      | Some _ => Some (Some (c, (Simple.get (get_ok a) it).2))
      end.

(** The vector of identities. *)
Definition read_ids (a : setting_ok) (push_ok : nat → bool) (c : config) : option (option (config * list (list Z))) :=
  '(r, c, it) ← @subscribe _ StringVectorItem (subscribe_ok a) None (Some LOCALHOST)
                  (Some (bytes_of_string "CHILD_PROCESS_IDS")) (Some (mkItem 1 None)) c;
  if negb (r : bool) then Some None
  else
    it ← it;
    '(ok, ids) ← StringVector.get (get_ok a) push_ok it;
    if negb (ok : bool) then Some None else Some (Some (c, ids)).

(** ** The slaves *)

(** Two new descriptors: [MASTER_SOCKET] and [SLAVE_SOCKET]. *)
Definition socketpair (ok : bool) (t : table) : option (Z * Z) * table :=
  if ok then
    let '(m, t) := socket true t in
    let '(s, t) := socket true t in (Some (m, s), t)
  else (None, t).

(** A slave as it starts: its identity, its end of the pair, its descriptors. *)
Record child := mkChild { c_id : list Z; c_socket : Z; c_table : table }.

Record slave_answers := mkSlaveAnswers {
  pair_ok : bool; fork_ok : bool; arg : arg_ok; min_recv_rc : Z; ipc_thread : thread_ok }.

(** One round of the loop for [IDs[count]]: whether it goes on, the slave, the
    argument of the IPC thread, and the master's descriptors. *)
Definition one_slave (source : option (list Z)) (IDs : list (list Z)) (count : Z) (a : slave_answers) (t : table)
    : option (bool * option child * option thread_arg_t * table) :=
  match socketpair (pair_ok a) t with
  | (None, t) => Some (false, None, None, t)
  | (Some (m, s), t) =>
      if negb (fork_ok a) then Some (false, None, None, t)
      else
        id ← ArgOpt.at_index IDs count;
        let slave := mkChild (c_str id) s (close m t) in
        let t := close s t in
        match make_arg (arg a) (Some (c_str id)) source m with
        | None => Some (false, Some slave, None, t)
        | Some thread_arg =>
            if set_min_recv_sice (min_recv_rc a) =? 0 then Some (false, Some slave, None, t)
            else if negb (create_ipc_thread (ipc_thread a)) then Some (false, Some slave, None, t)
            else Some (true, Some slave, Some thread_arg, t)
        end
  end.

(** The [do] loop with [count] before it is decremented. *)
Fixpoint slave_loop (source : option (list Z)) (IDs : list (list Z)) (answers : nat → slave_answers) (count : nat) (t : table)
    : option (bool * list child * list thread_arg_t * table) :=
  match count with
  | O =>
      '(ok, slave, arg, t) ← one_slave source IDs (-1) (answers O) t;
      Some (ok, option_list slave, option_list arg, t)
  | S count =>
      '(ok, slave, arg, t) ← one_slave source IDs (Z.of_nat count) (answers count) t;
      if (ok : bool) && (0 <? count)%nat then
        '(ok, slaves, args, t) ← slave_loop source IDs answers count t;
        Some (ok, option_list slave ++ slaves, option_list arg ++ args, t)
      else Some (ok, option_list slave, option_list arg, t)
  end.

(** ** The master *)

Record lock_answers := mkLockAnswers { chdir_ok : bool; rlim : option Z; close_err : Z → bool; devnull_ok : bool }.

Record pid_answers := mkPidAnswers {
  pid_setting : setting_ok; default_ok : bool; pid_fd : Z; flock_rc : Z; ftruncate_rc : Z; getpid : Z;
  written : Z → Z; sync_rc : Z }.

Record server_answers := mkServerAnswers {
  lock_down : lock_answers; vector_ok : bool; daemon_pid : Z; ids_setting : setting_ok; push_ok : nat → bool;
  cpus : Z; host : option (list Z); domain : option (list Z); slaves : nat → slave_answers;
  pid_file : pid_answers; worker_arg : arg_ok; worker_thread : thread_ok }.

(** What the master comes to: its exit code, the slaves it created, the arguments
    of its IPC threads, of its worker, whether it signalled its process group,
    and its descriptors. *)
Record server_run := mkRun {
  exit_code : Z; children : list child; ipc_args : list thread_arg_t; worker : option thread_arg_t;
  killed : bool; run_table : table }.

(** From the process number file on: the exit code and the worker.  A failing
    constructor is reported with the path that has been freed. *)
Definition master_rest (DEFAULT_PID_FILE : list Z) (source : option (list Z)) (a : server_answers) (c : config)
    : option (Z * option thread_arg_t) :=
  r ← read_setting (pid_setting (pid_file a)) (bytes_of_string "PID_FILE_PATH") c;
  match r with
  | None => Some (EXIT_FAILURE, None)
  | Some (c, path) =>
      match (match path with
             | Some p => Some p
             | None => if default_ok (pid_file a) then Some DEFAULT_PID_FILE else None
             end) with
      | None => Some (EXIT_FAILURE, None)
      | Some path =>
          let '(error, _, _) := PidFile (Some path) (pid_fd (pid_file a)) (flock_rc (pid_file a))
                                  (ftruncate_rc (pid_file a)) (getpid (pid_file a)) (written (pid_file a))
                                  (sync_rc (pid_file a)) in
          if (error : bool) then None
          else
            match make_arg (worker_arg a) (default_identity c) source 0 with
            | None => Some (EXIT_FAILURE, None)
            | Some thread_arg =>
                if negb (create_worker_thread (worker_thread a)) then Some (EXIT_FAILURE, None)
                else Some (EXIT_SUCCESS, Some thread_arg)
            end
      end
  end.

(** The master once it is the daemon (or in debug mode). *)
Definition run_master (DEFAULT_PID_FILE : list Z) (source : option (list Z)) (a : server_answers) (c : config) (t : table)
    : option server_run :=
  r ← read_ids (ids_setting a) (push_ok a) c;
  match r with
  | None => Some (mkRun EXIT_FAILURE [] [] None false t)
  | Some (c, IDs) =>
      IDs ← (if (length IDs =? 0)%nat then r ← generate_default_ids (cpus a) (host a) (domain a) IDs; Some r.2
             else Some IDs);
      '(ok, slaves, args, t) ← slave_loop source IDs (slaves a) (length IDs) t;
      if negb (ok : bool) then Some (mkRun EXIT_FAILURE slaves args None true t)
      else
        '(code, worker) ← master_rest DEFAULT_PID_FILE source a c;
        Some (mkRun code slaves args worker true t)
  end.

Definition bool_int (b : bool) : Z := if b then 1 else 0.

Definition start_server (DEFAULT_PID_FILE : list Z) (debug : bool) (source : option (list Z)) (a : server_answers)
    (c : config) (t : table) : option server_run :=
  '(ok, t) ← (if debug then Some (EXIT_SUCCESS, t)
              else
                '(r, t) ← lock_down_process (chdir_ok (lock_down a)) (rlim (lock_down a)) (close_err (lock_down a))
                            (devnull_ok (lock_down a)) t;
                Some (bool_int r, t));
  if negb debug && negb (EXIT_SUCCESS =? ok) then Some (mkRun EXIT_FAILURE [] [] None false t)
  else if negb (vector_ok a) then Some (mkRun EXIT_FAILURE [] [] None false t)
  else if debug then run_master DEFAULT_PID_FILE source a c t
  else
    match become_daemon (daemon_pid a) with
    | PROCESS_IS_CHILD => run_master DEFAULT_PID_FILE source a c t
    | PROCESS_IS_PARENT => Some (mkRun EXIT_SUCCESS [] [] None false t)
    | PROCESS_ERROR => Some (mkRun EXIT_FAILURE [] [] None false t)
    end.

(** ** A slave *)

Record slave_env := mkSlaveEnv {
  identity_ok : bool;   (* the two [strdup] of identities *)
  user_setting : setting_ok; group_setting : setting_ok; getpwnam : list Z → option Z; getgrnam : list Z → option Z;
  slave_arg : arg_ok; slave_min_rc : Z; slave_ipc : thread_ok; slave_worker_arg : arg_ok; slave_worker : thread_ok }.

(** The exit code, the credentials, the arguments of the IPC thread and of the
    worker. *)
Definition slave (source : option (list Z)) (e : slave_env) (s : child) (c : config) (cr : creds)
    : option (Z * creds * option thread_arg_t * option thread_arg_t) :=
  let failed cr := Some (EXIT_FAILURE, cr, None, None) in
  let master_identity := if identity_ok e then default_identity c else None in
  let c := mkConfigObj (if identity_ok e then Some (c_id s) else None) (file_items c) (file_refs c) in
  r ← read_setting (user_setting e) (bytes_of_string "USER") c;
  match r with
  | None => failed cr
  | Some (c, user_name) =>
      r ← read_setting (group_setting e) (bytes_of_string "GROUP") c;
      match r with
      | None => failed cr
      | Some (c, group_name) =>
          let '(switched, cr) := switch_user (getpwnam e) (getgrnam e) user_name group_name cr in
          if negb switched then failed cr
          else
            match make_arg (slave_arg e) master_identity source (c_socket s) with
            | None => failed cr
            | Some thread_arg =>
                if set_min_recv_sice (slave_min_rc e) =? 0 then failed cr
                else if negb (create_ipc_thread (slave_ipc e)) then failed cr
                else
                  match make_arg (slave_worker_arg e) (default_identity c) source 0 with
                  | None => Some (EXIT_FAILURE, cr, Some thread_arg, None)
                  | Some worker_arg =>
                      if negb (create_worker_thread (slave_worker e)) then Some (EXIT_FAILURE, cr, Some thread_arg, None)
                      else Some (EXIT_SUCCESS, cr, Some thread_arg, Some worker_arg)
                  end
            end
      end
  end.

(** ** [generic_main] *)

Definition ch_o : Z := 111.
Definition ch_v : Z := 118.
Definition ch_i : Z := 105.
Definition ch_c : Z := 99.

(** The address of [debug] is 0. *)
Definition options : list ArgOpt.option_t :=
  [ArgOpt.mkOption (bytes_of_string "origin") (Some (bytes_of_string "-origin Identifies the source used to build this server"))
     ArgOpt.NO_PARAM None ch_o;
   ArgOpt.mkOption (bytes_of_string "version") (Some (bytes_of_string "-version Prints the version of the server"))
     ArgOpt.NO_PARAM None ch_v;
   ArgOpt.mkOption (bytes_of_string "identity") (Some (bytes_of_string "-identity <IDENTITY> Identifies this server"))
     ArgOpt.NEED_PARAM None ch_i;
   ArgOpt.mkOption (bytes_of_string "debug") (Some (bytes_of_string "-debug start the controller unforked and not locked down"))
     ArgOpt.NO_PARAM (Some 0) 1;
   ArgOpt.mkOption (bytes_of_string "configuration_source")
     (Some (bytes_of_string "-configuration_source <PATH> full path to the configuration source"))
     ArgOpt.NEED_PARAM None ch_c].

(** [identity], [conf_file_path] and [debug]. *)
Record arguments := mkArguments { a_identity : option (list Z); a_conf : option (list Z); a_debug : Z }.

(** The [switch]: what a call of [argopt] changes.  The other cases print. *)
Definition handle (strdup_ok : bool) (c : Z) (parameter : option (list Z)) (flag : option (Z * Z)) (a : arguments) : arguments :=
  let a := match flag with Some (_, v) => mkArguments (a_identity a) (a_conf a) v | None => a end in
  let dup := if strdup_ok then Some (default [] parameter) else None in
  if c =? ch_i then mkArguments dup (a_conf a) (a_debug a)
  else if c =? ch_c then mkArguments (a_identity a) dup (a_debug a)
  else a.

(** The [while (1)] loop.  An ambiguous option loses its first character in
    [argv] for the completions. *)
Fixpoint option_loop (fuel : nat) (strdup_ok : bool) (st : ArgOpt.statics) (argv : list (list Z)) (index : Z) (a : arguments)
    : option (list (list Z) * Z * arguments) :=
  match fuel with
  | O => None
  | S fuel =>
      o ← ArgOpt.argopt strdup_ok (Some options) st argv index None;
      let argv := ArgOpt.out_argv o in
      let index := ArgOpt.index o in
      let c := ArgOpt.retv o in
      if c =? ArgOpt.ARGOPT_DONE then Some (argv, index, a)
      else
        argv ← (if c =? ArgOpt.ARGOPT_AMBIGIOUS_OPTION
                then s ← ArgOpt.at_index argv index; Some (<[Z.to_nat index := drop 1 s]> argv)
                else Some argv);
        option_loop fuel strdup_ok (ArgOpt.out_st o) argv index
          (handle strdup_ok c (ArgOpt.parameter o) (ArgOpt.flag_set o) a)
  end.

(** The answers: [strdup], [new], the log, and what each configuration source
    holds, as [Config.init] looks at it. *)
Record main_answers := mkMainAnswers {
  strdup_ok : bool; config_ok : bool; PACKAGE : list Z; log_state : logger;
  looks : list Z → list (bool * bool * option ConfigFile.conf_file); server : server_answers; DEFAULT_PID_FILE : list Z }.

(** From [opt_done] on, without the log calls; the inner [None] is an exit with
    EXIT_FAILURE before [start_server].  A configuration source that is never
    answered does not end. *)
Definition launch (m : main_answers) (a : arguments) (t : table) : option (option server_run) :=
  '(ok, _) ← init_logging (PACKAGE m) (negb (a_debug a =? 0)) (a_identity a) (log_state m);
  if negb (ok : bool) then Some None
  else
    match a_conf a with
    | None => if config_ok m then None else Some None
    | Some path =>
        if negb (config_ok m) then None
        else
          r ← Config.init (Some (default [] (a_identity a))) (looks m path);
          '(ok, c) ← r;
          if negb (ok : bool) then Some None
          else
            run ← start_server (DEFAULT_PID_FILE m) (negb (a_debug a =? 0)) (Some path) (server m) c t;
            Some (Some run)
    end.

(** [argv] with its first element; [None] is also a loop that has used up its
    fuel: one round per argument and one more are enough. *)
Definition generic_main (m : main_answers) (argv : list (list Z)) (t : table) : option (option server_run) :=
  '(argv, index, a) ← option_loop (S (length argv)) (strdup_ok m) (ArgOpt.mkStatics 0 0) argv 0
                        (mkArguments None (if strdup_ok m then Some [] else None) 0);
  if negb (index =? 0) && (index <? zlen argv) then Some None else launch m a t.

(** ** Lemmas: settings *)

Definition all_ok : setting_ok := mkSettingOk true (mkSubOk true true true true true) true.

(** The value of a setting for the identity of the configuration object. *)
Definition configured (item : list Z) (c : config) : option (list Z) :=
  ConfigFile.get_value (file_items c) (key_text (default_identity c) (Some LOCALHOST) (Some item)).

Definition plain_item (item : list Z) : Prop := plain (Some item).

(** The object after a subscription. *)
Definition subscribed (c : config) : config := mkConfigObj (default_identity c) (file_items c) (file_refs c + 1).

Lemma configured_subscribed item c : configured item (subscribed c) = configured item c.
Proof. done. Qed.

Lemma plain_localhost : plain (Some LOCALHOST).
Proof. apply (bool_decide_unpack _). vm_compute. done. Qed.

Lemma read_setting_spec item c : plain (default_identity c) → plain_item item →
  read_setting all_ok item c = Some ((λ v, (subscribed c, Some v)) <$> configured item c).
Proof.
  intros Hc Hi. unfold read_setting. cbn [new_ok all_ok negb subscribe_ok get_ok].
  pose proof (@subscribe_found _ SimpleItem simple_laws None (Some LOCALHOST) (Some item) (mkItem 1 None) c
                ltac:(done) Hc plain_localhost Hi) as H.
  cbv beta iota zeta in H. fold (configured item c) in H. destruct (configured item c) as [v|].
  - change (item_fill true File (Some v) (mkItem 1 None)) with (true, mkItem 1 (Some v)) in H.
    cbv beta iota in H. destruct H as [_ ->]. done.
  - by rewrite H.
Qed.

Lemma read_ids_spec push_ok c : plain (default_identity c) → (∀ n, push_ok n = true) →
  read_ids all_ok push_ok c
  = Some ((λ v, (subscribed c, fields delims v)) <$> configured (bytes_of_string "CHILD_PROCESS_IDS") c).
Proof.
  intros Hc Hp. unfold read_ids. cbn [all_ok subscribe_ok get_ok].
  assert (Hi : plain_item (bytes_of_string "CHILD_PROCESS_IDS")) by (apply (bool_decide_unpack _); vm_compute; done).
  pose proof (@subscribe_found _ StringVectorItem string_vector_laws None (Some LOCALHOST)
                (Some (bytes_of_string "CHILD_PROCESS_IDS")) (mkItem 1 None) c ltac:(done) Hc plain_localhost Hi) as H.
  cbv beta iota zeta in H. fold (configured (bytes_of_string "CHILD_PROCESS_IDS") c) in H.
  destruct (configured (bytes_of_string "CHILD_PROCESS_IDS") c) as [v|].
  - change (item_fill true File (Some v) (mkItem 1 None)) with (true, mkItem 1 (Some v)) in H.
    cbv beta iota in H. destruct H as [_ ->]. obind. cbn [negb]. unfold StringVector.get. cbn [line_].
    rewrite split_string_fields by done. done.
  - by rewrite H.
Qed.

(** ** Lemmas: slaves *)

Definition slave_fine (a : slave_answers) : Prop :=
  pair_ok a = true ∧ fork_ok a = true ∧ arg a = mkArgOk true true true ∧ min_recv_rc a = 0
  ∧ ipc_thread a = mkThreadOk 0 0 0.

(** What the slaves and the master's IPC threads get: identities and ends of
    pairs of the rounds so far, newest last. *)
Fixpoint slaves_of (t : table) (pairs : list (list Z * Z * Z)) : list child :=
  match pairs with
  | [] => []
  | (id, m, s) :: pairs => mkChild (c_str id) s ({[s]} ∪ t) :: slaves_of ({[m]} ∪ t) pairs
  end.

Definition args_of (source : option (list Z)) (pairs : list (list Z * Z * Z)) : list thread_arg_t :=
  (λ x, mkThreadArg (c_str x.1.1) (default [] source) x.1.2) <$> pairs.

Definition master_ends (pairs : list (list Z * Z * Z)) : gset Z := list_to_set ((λ x, x.1.2) <$> pairs).

(** The ends of each pair are new and different. *)
Fixpoint fresh_pairs (t : table) (pairs : list (list Z * Z * Z)) : Prop :=
  match pairs with
  | [] => True
  | (_, m, s) :: pairs => (m ∉ t) ∧ (s ∉ t) ∧ m ≠ s ∧ fresh_pairs ({[m]} ∪ t) pairs
  end.

Lemma one_slave_fine source IDs count id a t :
  slave_fine a → ArgOpt.at_index IDs count = Some id →
  ∃ m s, (m ∉ t) ∧ (s ∉ t) ∧ m ≠ s
    ∧ one_slave source IDs count a t
      = Some (true, Some (mkChild (c_str id) s ({[s]} ∪ t)), Some (mkThreadArg (c_str id) (default [] source) m), {[m]} ∪ t).
Proof.
  intros (Hp & Hf & Ha & Hm & Ht) Hid. unfold one_slave, socketpair, socket. rewrite Hp, Hf.
  pose proof (lowest_free_fresh t) as H1. set (m := lowest_free t) in *. clearbody m.
  pose proof (lowest_free_fresh ({[m]} ∪ t)) as H2. set (s := lowest_free ({[m]} ∪ t)) in *. clearbody s.
  cbn [negb]. rewrite Hid. obind. unfold make_arg. rewrite Ha, Hm, Ht. cbn.
  exists m, s. split; [done|]. split; [set_solver|]. split; [set_solver|].
  assert (close m ({[s]} ∪ ({[m]} ∪ t)) = {[s]} ∪ t) as -> by (unfold close; set_solver).
  assert (close s ({[s]} ∪ ({[m]} ∪ t)) = {[m]} ∪ t) as -> by (unfold close; set_solver). done.
Qed.

Lemma slave_loop_fine source IDs answers : (∀ n, slave_fine (answers n)) → ∀ count t,
  (0 < count ≤ length IDs)%nat →
  ∃ pairs, (λ x, x.1.1) <$> pairs = reverse (take count IDs) ∧ fresh_pairs t pairs
    ∧ slave_loop source IDs answers count t = Some (true, slaves_of t pairs, args_of source pairs, master_ends pairs ∪ t).
Proof.
  intros Hok. induction count as [|count IH]; intros t Hc; [lia|]. cbn [slave_loop].
  destruct (lookup_lt_is_Some_2 IDs count ltac:(lia)) as [id Hid].
  destruct (one_slave_fine source IDs (Z.of_nat count) id (answers count) t (Hok count)) as (m & s & Hm & Hs & Hms & ->).
  { unfold ArgOpt.at_index. rewrite (proj2 (Z.leb_le _ _)), Nat2Z.id by lia. done. }
  obind. rewrite (take_S_r _ _ _ Hid), reverse_snoc. destruct count as [|count].
  - cbn. exists [(id, m, s)]. cbn. split; [done|]. split; [done|]. do 2 f_equal. unfold master_ends. cbn. set_solver.
  - destruct (IH ({[m]} ∪ t) ltac:(lia)) as (pairs & Hids & Hf & ->). cbn [andb Nat.ltb Nat.leb]. obind.
    exists ((id, m, s) :: pairs). split; [cbn; by rewrite Hids|]. split; [done|].
    do 2 f_equal. unfold master_ends. cbn. set_solver.
Qed.

(** ** Lemmas: the command line *)

Lemma options_vals : ArgOpt.vals_ok options.
Proof. repeat constructor; done. Qed.

(** What an event of the reference parser means for the arguments: the value of
    one of the two options with a parameter, and the flag. *)
Definition effect (strdup_ok : bool) (a : arguments) (e : ArgOpt.event) : arguments :=
  let value := if strdup_ok then Some (default [] (ArgOpt.e_param e)) else None in
  mkArguments (if ArgOpt.e_ret e =? ch_i then value else a_identity a)
    (if ArgOpt.e_ret e =? ch_c then value else a_conf a)
    (match ArgOpt.e_flag e with Some (_, v) => v | None => a_debug a end).

Lemma handle_effect strdup_ok a e :
  handle strdup_ok (ArgOpt.e_ret e) (ArgOpt.e_param e) (ArgOpt.e_flag e) a = effect strdup_ok a e.
Proof.
  unfold handle, effect. destruct a, (ArgOpt.e_flag e) as [[x v]|]; cbn [a_identity a_conf a_debug];
    (destruct (Z.eqb_spec (ArgOpt.e_ret e) ch_i) as [->|]; [done|]; by destruct (ArgOpt.e_ret e =? ch_c)).
Qed.

Lemma option_codes o : o ∈ options → (ArgOpt.option_result o).1 ≠ ArgOpt.ARGOPT_AMBIGIOUS_OPTION.
Proof.
  intros Ho. repeat (apply elem_of_cons in Ho as [->|Ho]; [done|]). by apply not_elem_of_nil in Ho.
Qed.

(** An ambiguous option is put aside. *)
Lemma ambiguous_aside ok rem e used s rem' :
  ArgOpt.parse_step ok options rem = Some (e, used, s, rem') →
  ArgOpt.e_ret e = ArgOpt.ARGOPT_AMBIGIOUS_OPTION → used = [].
Proof.
  destruct rem as [|a rem]; cbn [ArgOpt.parse_step]; [done|].
  destruct (ArgOpt.is_option a); cbn [negb]; [|by intros [= <- <- <- <-]].
  destruct (_ <? 0).
  - destruct rem as [|b rem]; [by intros [= <- <- <- <-]|]. destruct (ArgOpt.is_option b); by intros [= <- <- <- <-].
  - destruct (options !! _) as [o|] eqn:Eo; [|done].
    pose proof (option_codes o (list_elem_of_lookup_2 _ _ _ Eo)) as Hcode.
    destruct (ArgOpt.option_result o) as [r f]. cbn [fst] in Hcode.
    destruct (match ArgOpt.param o, rem with ArgOpt.NO_PARAM, _ | _, [] => None | _, b :: _ => ArgOpt.is_param ok b end).
    + intros [= <- <- <- <-] He. by destruct Hcode.
    + destruct (ArgOpt.param o); intros [= <- <- <- <-] He; cbn [ArgOpt.e_ret] in He; try (by destruct Hcode); done.
Qed.

(** The argument the loop changes is among those put aside. *)
Lemma changed_aside pre rem aside i s (x : list Z) :
  zlen pre + zlen rem ≤ i →
  ∃ aside', length aside' = length (aside ++ s) ∧ <[Z.to_nat i := x]> (pre ++ rem ++ aside ++ s) = pre ++ rem ++ aside'.
Proof.
  intros Hi. exists (<[(Z.to_nat i - length (pre ++ rem))%nat := x]> (aside ++ s)). split; [by rewrite length_insert|].
  rewrite (app_assoc pre), insert_app_r_alt by (rewrite length_app; lia). by rewrite <- app_assoc.
Qed.

Lemma option_loop_spec ok : ∀ n rem pre aside idx a,
  (length rem < n)%nat → pre ≠ [] → idx ≠ -1 →
  let '(es, used, s) := ArgOpt.parse n ok options rem in
  ∃ aside', length aside' = length (aside ++ s)
    ∧ option_loop n ok (ArgOpt.mkStatics (zlen pre - 1) (zlen aside)) (pre ++ rem ++ aside) idx a
      = Some (pre ++ used ++ aside', zlen pre + zlen used, foldl (effect ok) a es).
Proof.
  induction n as [|n IH]; intros rem pre aside idx a Hn Hpre Hidx; [lia|]. cbn [ArgOpt.parse option_loop].
  destruct (ArgOpt.argopt_step ok options pre rem aside idx None Hpre options_vals Hidx) as (o & Ho & Hagree).
  rewrite Ho. obind. destruct (ArgOpt.parse_step ok options rem) as [[[[e used] s] rem']|] eqn:Eps.
  - destruct Hagree as (Hr & Hd & Hp & Hf & Harg & Hi & Hargv & Hst & Hlen & Hplace).
    rewrite (proj2 (Z.eqb_neq _ _) Hd), Hst, Hr, Hp, Hf, handle_effect.
    assert (Hchange : ∃ aside', length aside' = length (aside ++ s)
      ∧ (if ArgOpt.e_ret e =? ArgOpt.ARGOPT_AMBIGIOUS_OPTION
         then x ← ArgOpt.at_index (ArgOpt.out_argv o) (ArgOpt.index o);
              Some (<[Z.to_nat (ArgOpt.index o) := drop 1 x]> (ArgOpt.out_argv o))
         else Some (ArgOpt.out_argv o)) = Some ((pre ++ used) ++ rem' ++ aside')).
    { rewrite Harg, Hargv. destruct (Z.eqb_spec (ArgOpt.e_ret e) ArgOpt.ARGOPT_AMBIGIOUS_OPTION) as [Ea|]; [|by exists (aside ++ s)].
      pose proof (ambiguous_aside _ _ _ _ _ _ Eps Ea) as ->. obind. rewrite app_nil_r.
      destruct (changed_aside pre rem' aside (ArgOpt.index o) s (drop 1 (ArgOpt.e_arg e)) (Hplace eq_refl)) as (aside' & Hl & ->).
      by exists aside'. }
    destruct Hchange as (aside1 & Hl1 & ->). obind. rewrite <- Hl1.
    specialize (IH rem' (pre ++ used) aside1 (ArgOpt.index o) (effect ok a e) ltac:(lia) ltac:(by destruct pre) Hi).
    destruct (ArgOpt.parse n ok options rem') as [[es u] t]. destruct IH as (aside2 & Hl2 & ->).
    exists aside2. split; [rewrite Hl2, !length_app, Hl1, length_app; lia|]. cbn [foldl]. f_equal. f_equal.
    f_equal; [by app_norm | rewrite !length_app; lia].
  - destruct Hagree as (-> & -> & -> & ->). rewrite Z.eqb_refl. exists aside. split; [by rewrite app_nil_r|].
    cbn [app length foldl]. do 2 f_equal. f_equal. lia.
Qed.

(** ** Properties *)

(** C16: what the command line decides: [generic_main] starts the server with
    the values of the last "-identity" and "-configuration_source" and the
    debug flag of the reference parse, exactly when that parse leaves no
    operand, and an operand, an unknown or an ambiguous option makes it exit
    with failure before anything is started.  It always gets through the
    command line: the loop ends within one round per argument and one more. *)
Theorem command_line_decides m a0 args t :
  let '(es, used, operands) := ArgOpt.parse (S (S (length args))) (strdup_ok m) options args in
  generic_main m (a0 :: args) t
  = match operands with
    | [] => launch m (foldl (effect (strdup_ok m)) (mkArguments None (if strdup_ok m then Some [] else None) 0) es) t
    | _ => Some None
    end.
Proof.
  pose proof (option_loop_spec (strdup_ok m) (S (S (length args))) args [a0] [] 0
                (mkArguments None (if strdup_ok m then Some [] else None) 0) ltac:(lia) ltac:(done) ltac:(done)) as H.
  destruct (ArgOpt.parse _ _ _ _) as [[es used] s]. destruct H as (aside & Hl & H). rewrite app_nil_r in H.
  unfold generic_main. cbn [length app] in *. change (Z.of_nat 1 - 1) with 0 in H. change (Z.of_nat 0) with 0 in H.
  rewrite H. obind. rewrite length_cons, length_app. destruct s as [|x s]; cbn [length] in Hl.
  - rewrite (proj2 (Z.ltb_ge _ _)) by lia. by rewrite andb_false_r.
  - rewrite (proj2 (Z.eqb_neq _ 0)), (proj2 (Z.ltb_lt _ _)) by lia. done.
Qed.

(** C17: the slaves: when everything works there is one for each identity, last
    identity first; each has one end of a new pair of sockets and the master's
    IPC thread for its identity has the other.  The master keeps its own ends
    only; but a slave also has the master's ends for all slaves created before
    it, so it can speak to them as the master does. *)
Theorem slaves_created source IDs answers t :
  (∀ n, slave_fine (answers n)) → IDs ≠ [] →
  ∃ pairs, (λ x, x.1.1) <$> pairs = reverse IDs ∧ fresh_pairs t pairs
    ∧ slave_loop source IDs answers (length IDs) t
      = Some (true, slaves_of t pairs, args_of source pairs, master_ends pairs ∪ t)
    ∧ ∀ k sl, slaves_of t pairs !! k = Some sl → c_table sl = {[c_socket sl]} ∪ (master_ends (take k pairs) ∪ t).
Proof.
  intros Hok Hne. destruct (slave_loop_fine source IDs answers Hok (length IDs) t) as (pairs & Hids & Hf & Hrun).
  { destruct IDs; [done | cbn; lia]. }
  rewrite firstn_all in Hids. exists pairs. split_and!; try done. clear. revert t.
  induction pairs as [|[[id m] s] pairs IH]; intros t [|k] sl H; cbn in H; try done.
  - injection H as <-. cbn. unfold master_ends. cbn. set_solver.
  - rewrite (IH _ _ _ H). unfold master_ends. cbn. set_solver.
Qed.

(** no setting has a default: the identities read are never an empty list,
    so none are generated, and a configuration without identities ends the
    master at once; without PID_FILE_PATH it ends, and kills the slaves, after
    it has created them; and a slave without USER or GROUP for its identity
    fails before it serves. *)
Theorem settings_have_no_defaults DEFAULT_PID_FILE source a c t e s cr :
  plain (default_identity c) → Forall (λ x, x ≠ 0) (c_id s) → (∀ n, push_ok a n = true) → identity_ok e = true →
  ids_setting a = all_ok → pid_setting (pid_file a) = all_ok → user_setting e = all_ok → group_setting e = all_ok →
  (∀ c' ids, read_ids (ids_setting a) (push_ok a) c = Some (Some (c', ids)) → ids ≠ [])
  ∧ (configured (bytes_of_string "CHILD_PROCESS_IDS") c = None →
       run_master DEFAULT_PID_FILE source a c t = Some (mkRun EXIT_FAILURE [] [] None false t))
  ∧ (configured (bytes_of_string "PID_FILE_PATH") c = None → ∀ ids,
       configured (bytes_of_string "CHILD_PROCESS_IDS") c = Some ids → (∀ n, slave_fine (slaves a n)) →
       ∃ pairs, run_master DEFAULT_PID_FILE source a c t
                = Some (mkRun EXIT_FAILURE (slaves_of t pairs) (args_of source pairs) None true (master_ends pairs ∪ t))
         ∧ pairs ≠ [])
  ∧ (let own := mkConfigObj (Some (c_id s)) (file_items c) (file_refs c) in
     configured (bytes_of_string "USER") own = None ∨ configured (bytes_of_string "GROUP") own = None →
       slave source e s c cr = Some (EXIT_FAILURE, cr, None, None)).
Proof.
  intros Hc Hs Hpush Hid Hids Hpid Huser Hgroup. split; [|split; [|split]].
  - intros c' ids. rewrite Hids, read_ids_spec by done. destruct (configured _ _); [|done].
    intros [= _ <-]. apply fields_nonempty.
  - intros Hnone. unfold run_master. rewrite Hids, read_ids_spec, Hnone by done. done.
  - intros Hnone ids Hsome Hfine. unfold run_master. rewrite Hids, read_ids_spec, Hsome by done. cbn [fmap option_fmap option_map]. obind.
    pose proof (fields_nonempty delims ids) as Hne. destruct (fields delims ids) as [|i0 il] eqn:Ef; [done|].
    cbn [length Nat.eqb]. obind.
    destruct (slave_loop_fine source (i0 :: il) (slaves a) Hfine (length (i0 :: il)) t) as (pairs & Hp & _ & ->); [cbn; lia|].
    obind. cbn [negb]. unfold master_rest. rewrite Hpid.
    assert (Hi : plain_item (bytes_of_string "PID_FILE_PATH")) by (apply (bool_decide_unpack _); vm_compute; done).
    rewrite read_setting_spec, configured_subscribed, Hnone by done. obind. exists pairs. split; [done|].
    intros ->. apply (f_equal length) in Hp. rewrite length_reverse, length_take in Hp. cbn in Hp. lia.
  - intros own Hor. unfold slave. rewrite Hid. fold own. rewrite Huser, Hgroup.
    assert (Hu : plain_item (bytes_of_string "USER")) by (apply (bool_decide_unpack _); vm_compute; done).
    assert (Hg : plain_item (bytes_of_string "GROUP")) by (apply (bool_decide_unpack _); vm_compute; done).
    assert (Hown : plain (default_identity own)) by done.
    rewrite read_setting_spec by done. destruct (configured (bytes_of_string "USER") own) as [u|] eqn:Eu; [|done].
    destruct Hor as [|Hnone]; [done|]. cbn [fmap option_fmap option_map]. obind.
    rewrite read_setting_spec, configured_subscribed, Hnone by done. done.
Qed.

(** a slave that is to give up root for a user and a group never serves:
    for every configuration with both, the slave of a master that runs as root
    ends with failure, without an IPC thread or a worker, as the user in root's
    group. *)
Theorem slave_never_serves source e s c user group uid gid :
  Forall (λ x, x ≠ 0) (c_id s) → identity_ok e = true → user_setting e = all_ok → group_setting e = all_ok →
  let own := mkConfigObj (Some (c_id s)) (file_items c) (file_refs c) in
  configured (bytes_of_string "USER") own = Some user → configured (bytes_of_string "GROUP") own = Some group →
  user ≠ [] → group ≠ [] → getpwnam e user = Some uid → getgrnam e group = Some gid → uid ≠ 0 → gid ≠ 0 →
  slave source e s c (mkCreds 0 0 0 0 0 0) = Some (EXIT_FAILURE, mkCreds uid uid uid 0 0 0, None, None).
Proof.
  intros Hs Hid Huser Hgroup own Hu Hg Hne Hne' Eu Eg Hu0 Hg0. unfold slave. rewrite Hid. fold own. rewrite Huser, Hgroup.
  assert (Hpu : plain_item (bytes_of_string "USER")) by (apply (bool_decide_unpack _); vm_compute; done).
  assert (Hpg : plain_item (bytes_of_string "GROUP")) by (apply (bool_decide_unpack _); vm_compute; done).
  assert (Hown : plain (default_identity own)) by done.
  rewrite read_setting_spec, Hu by done. cbn [fmap option_fmap option_map]. obind.
  rewrite read_setting_spec, configured_subscribed, Hg by done. cbn [fmap option_fmap option_map]. obind.
  by rewrite (switch_user_both _ _ _ _ uid gid).
Qed.

(** whether the process was locked down does not matter: whatever
    [lock_down_process] came to, its answer is compared with the exit code 0,
    which it equals when it means failure, and the daemon goes on. *)
Theorem lock_down_ignored DEFAULT_PID_FILE source a c t r t' :
  let l := lock_down a in
  lock_down_process (chdir_ok l) (rlim l) (close_err l) (devnull_ok l) t = Some (r, t') →
  vector_ok a = true → daemon_pid a = 0 →
  r = false ∧ start_server DEFAULT_PID_FILE false source a c t = run_master DEFAULT_PID_FILE source a c t'.
Proof.
  intros l Hl Hv Hp. pose proof (lock_down_false _ _ _ _ _ _ _ Hl) as ->. split; [done|].
  unfold start_server. fold l. rewrite Hl. obind. by rewrite Hv, Hp.
Qed.

(** ** Concrete runs *)

Definition demo_item (identity key value : string) : ConfigFile.item :=
  (bytes_of_string identity ++ bytes_of_string ":LOCALHOST:" ++ bytes_of_string key, bytes_of_string value).

Definition demo_answers : slave_answers := mkSlaveAnswers true true (mkArgOk true true true) 0 (mkThreadOk 0 0 0).

Lemma demo_fine : slave_fine demo_answers.
Proof. done. Qed.

Definition demo_pid : pid_answers := mkPidAnswers all_ok true 9 0 0 1234 (λ n, n) 0.
Definition demo_server : server_answers :=
  mkServerAnswers (mkLockAnswers false None (λ _, false) true) true 0 all_ok (λ _, true) 4 None None
    (λ _, demo_answers) demo_pid (mkArgOk true true true) (mkThreadOk 0 0 0).

(** A master "M" with two slaves; "b" has a user and a group. *)
Definition demo_config : config :=
  mkConfigObj (Some (bytes_of_string "M"))
    [demo_item "M" "CHILD_PROCESS_IDS" "a b"; demo_item "b" "USER" "fix"; demo_item "b" "GROUP" "fix"] 1.

Definition demo_table3 : table := {[0; 1; 2]}.

(** Slave "a" has descriptor 3, the master's end for "b". *)
Lemma slaves_created_witness :
  ∃ pairs, slave_loop None [bytes_of_string "a"; bytes_of_string "b"] (λ _, demo_answers) 2 demo_table3
           = Some (true, slaves_of demo_table3 pairs, args_of None pairs, master_ends pairs ∪ demo_table3)
    ∧ (λ x, x.1.1) <$> pairs = [bytes_of_string "b"; bytes_of_string "a"] ∧ fresh_pairs demo_table3 pairs.
Proof.
  destruct (slaves_created None [bytes_of_string "a"; bytes_of_string "b"] (λ _, demo_answers) demo_table3 (λ _, demo_fine) ltac:(done))
    as (pairs & Hp & Hf & Hrun & _). exists pairs. split; [exact Hrun|]. split; [exact Hp | exact Hf].
Defined.

Example slaves_created_ends :
  match slave_loop None [bytes_of_string "a"; bytes_of_string "b"] (λ _, demo_answers) 2 demo_table3 with
  | Some (_, slaves, args, _) => map c_socket slaves = [4; 5] ∧ map ta_socket args = [3; 4]
  | None => False
  end.
Proof. vm_compute. split; reflexivity. Qed.

Definition demo_child : child := mkChild (bytes_of_string "b") 4 ∅.
Definition demo_name (s : list Z) : option Z := if bool_decide (s = bytes_of_string "fix") then Some 1000 else None.
Definition demo_env : slave_env :=
  mkSlaveEnv true all_ok all_ok demo_name demo_name (mkArgOk true true true) 0 (mkThreadOk 0 0 0) (mkArgOk true true true)
    (mkThreadOk 0 0 0).

Lemma settings_have_no_defaults_witness :
  ∃ pairs, run_master [] None demo_server demo_config demo_table3
           = Some (mkRun EXIT_FAILURE (slaves_of demo_table3 pairs) (args_of None pairs) None true
                     (master_ends pairs ∪ demo_table3)) ∧ pairs ≠ [].
Proof.
  assert (Hp : plain (default_identity demo_config)) by (apply (bool_decide_unpack _); vm_compute; done).
  assert (Hc : Forall (λ x, x ≠ 0) (c_id demo_child)) by (apply (bool_decide_unpack _); vm_compute; done).
  destruct (settings_have_no_defaults [] None demo_server demo_config demo_table3 demo_env demo_child (mkCreds 0 0 0 0 0 0)
              Hp Hc (λ _, eq_refl) eq_refl eq_refl eq_refl eq_refl eq_refl) as (_ & _ & H & _).
  apply (H ltac:(vm_compute; reflexivity) (bytes_of_string "a b") ltac:(vm_compute; reflexivity) (λ _, demo_fine)).
Defined.

Lemma slave_never_serves_witness :
  slave None demo_env demo_child demo_config (mkCreds 0 0 0 0 0 0)
  = Some (EXIT_FAILURE, mkCreds 1000 1000 1000 0 0 0, None, None).
Proof.
  assert (Hc : Forall (λ x, x ≠ 0) (c_id demo_child)) by (apply (bool_decide_unpack _); vm_compute; done).
  apply (slave_never_serves None demo_env demo_child demo_config (bytes_of_string "fix") (bytes_of_string "fix") 1000 1000 Hc
           eq_refl eq_refl eq_refl); vm_compute; congruence.
Defined.

Lemma lock_down_ignored_witness :
  start_server [] false None demo_server demo_config demo_table3 = run_master [] None demo_server demo_config demo_table3.
Proof. apply (lock_down_ignored [] None demo_server demo_config demo_table3 false demo_table3); reflexivity. Defined.

(** Without "-identity" the log prints a null pointer. *)
Example no_identity_no_server :
  ∀ m t, strdup_ok m = true → generic_main m (bytes_of_string <$> ["prog"; "-debug"]%string) t = None.
Proof.
  intros m t H. pose proof (command_line_decides m (bytes_of_string "prog") [bytes_of_string "-debug"] t) as Hd.
  rewrite H in Hd. cbn [length] in Hd.
  change (ArgOpt.parse 3 true options [bytes_of_string "-debug"])
    with ([ArgOpt.mkEvent ArgOpt.ARGOPT_OPTION_FOUND None (Some (0, 1)) (bytes_of_string "-debug")],
          [bytes_of_string "-debug"], @nil (list Z)) in Hd.
  exact Hd.
Qed.
