(* ===== verification/Session.v ===== *)
(** * Sessions and the gateway: [src/applib/fixlib/]

    [FIX_Session] reads its configuration and makes the sockets of its endpoints
    ([session.cpp]), a [FIX_Session_Instance] takes over a connection
    ([session_instance.cpp]), [FIX_Gateway] runs one session per identity in a
    thread of its own ([fix_gateway.cpp]).  The directory is not part of the
    build any more and a type or two it uses are gone; [socket_t] is taken for
    the descriptor it holds, as every use of it does.  What is done with a
    connection once its thread runs was never written.

    A session works on the descriptors of the process, the addresses its sockets
    listen on and the time it has slept ([world]); the answers of the system are
    arguments.  A call that still waits is [Waits]; [Undefined] is undefined
    behaviour, and the use of an item whose last reference is gone: the thread
    that refreshes it deletes it, at a time of its own. *)
From S2P Require Import Prelude RingQueue Sockets Process ConfigFile ConfigItems Config.

(** ** The world *)

Record world := mkWorld { open_ : table; bound : gmap Z sockaddr; clock : Z }.

Definition set_open (t : table) (w : world) : world := mkWorld t (bound w) (clock w).
Definition pass (seconds : Z) (w : world) : world := mkWorld (open_ w) (bound w) (clock w + seconds).

(** [close], with the address the descriptor is bound to. *)
Definition close_fd (fd : Z) (w : world) : world := mkWorld (close fd (open_ w)) (delete fd (bound w)) (clock w).

(** [if (-1 != fd) close(fd)]. *)
Definition close_if (fd : Z) (w : world) : world := if negb (fd =? -1) then close_fd fd w else w.

(** [dup]: of an open descriptor, the lowest free one. *)
Definition dup (ok : bool) (fd : Z) (w : world) : Z * world :=
  let '(n, t) := socket (ok && bool_decide (fd ∈ open_ w)) (open_ w) in (n, set_open t w).

Definition unsigned_int (z : Z) : Z := u32 z.

(** [do unslept = sleep(unslept); while (unslept)]; the answers are what a
    signal leaves unslept. *)
Fixpoint sleep_loop (answers : list Z) (unslept : Z) (w : world) : call world :=
  match answers with
  | [] => Waits
  | u :: answers =>
      let w := pass (unslept - u) w in
      if u =? 0 then Returns w else sleep_loop answers u w
  end.

(** ** Accepting *)

(** [accept]: a connection, or [errno] and the seconds it took. *)
Inductive accept_ret := Accepted | AcceptFailed (errno elapsed : Z).

Definition accept (k : accept_ret) (listening : Z) (w : world) : Z * world :=
  match k with
  | Accepted =>
      let '(n, t) := socket (bool_decide (listening ∈ open_ w)) (open_ w) in (n, set_open t w)
  | AcceptFailed _ _ => (-1, w)
  end.

(** On Linux.  Every branch behind a failed [accept], and behind a failed
    [set_recv_timeout], ends the [do ... while (false)], also those that say
    [continue].  The return value, [accepted_socket] and the world. *)
Definition accept_connection (timeout_rc : Z) (k : accept_ret) (duration listening accepted : Z) (w : world)
    : bool * Z * world :=
  if duration =? 0 then (false, accepted, w)
  else if listening =? -1 then (false, accepted, w)
  else if set_recv_timeout timeout_rc =? 0 then (negb (accepted =? -1), accepted, w)
  else let '(fd, w) := accept k listening w in (negb (fd =? -1), fd, w).

(** ** Making a socket *)

(** The answers for one endpoint: for each attempt to connect those of the
    addresses and what is left of the 60 seconds, or those of the calls that
    make a listening socket. *)
Record endpoint_answers := mkEndpointAnswers { tries : list (option (list attempt) * Z); listen_ok : answers }.

Definition pf_number (f : pf) : Z :=
  match f with PF_UNSPEC => 0 | PF_INET => Sockets.PF_INET | PF_INET6 => Sockets.PF_INET6 end.

Definition delay : Z := 60.

(** Until a connection is made. *)
Fixpoint connect_retry (tries : list (option (list attempt) * Z)) (w : world) : call (Z * world) :=
  match tries with
  | [] => Waits
  | (addresses, unslept) :: tries =>
      let '(sock, t) := connect_to_listening_socket true addresses (open_ w) in
      let w := set_open t w in
      if sock =? -1 then connect_retry tries (pass (delay - unslept) w) else Returns (sock, w)
  end.

Section Session.
Context (inet_ntop : Z → list Z → option (list Z)) (inet_pton : Z → list Z → Z * list Z).

Definition create_socket (e : endpoint_t) (a : endpoint_answers) (w : world) : call (bool * Z * world) :=
  match kind e with
  | ConnectToThis =>
      '(sock, w) ← connect_retry (tries a) w;
      Returns (negb (sock =? -1), sock, w)
  | ListenOnThis =>
      let '(sock, sa, t) := create_listening_socket inet_ntop inet_pton (listen_ok a) (interface e) (port e)
                              (pf_number (pf_family e)) true false (open_ w) in
      let bound := match sa with Some sa => <[sock := sa]> (bound w) | None => bound w end in
      Returns (negb (sock =? -1), sock, mkWorld t bound (clock w))
  end.

(** ** The configuration item *)

(** [retain] and [release]; the item must still have a reference. *)
Definition set_refcnt (n : Z) (it : FIXSession.session_item) : FIXSession.session_item :=
  FIXSession.mkSession n (FIXSession.data_source_ it) (FIXSession.config_vector_item_ it).

Definition alive (it : FIXSession.session_item) : bool := 0 <? FIXSession.s_refcnt it.

Definition retain (it : FIXSession.session_item) : call FIXSession.session_item :=
  if alive it then Returns (set_refcnt (sint 32 (FIXSession.s_refcnt it + 1)) it) else Undefined.

Definition release (it : FIXSession.session_item) : call FIXSession.session_item :=
  if alive it then Returns (set_refcnt (sint 32 (FIXSession.s_refcnt it - 1)) it) else Undefined.

Definition new_session_item : FIXSession.session_item := FIXSession.mkSession 1 UNKNOWN (mkItem 1 None).

(** [AppBase::init]: [config_] and the return value; the identity and the
    source are those the object was made with. *)
Record base_answers := mkBaseAnswers { new_config : bool; looks : list (bool * bool * option conf_file) }.

Definition base_init (a : base_answers) (identity : option (list Z)) : call (bool * option config) :=
  if negb (new_config a) then Returns (false, None)
  else
    match Config.init identity (looks a) with
    | None => Undefined
    | Some None => Waits
    | Some (Some (r, c)) => Returns (r, Some c)
    end.

(** ** [FIX_Session] *)

Record session := mkSess {
  config_ : option config; ci_fix_session_ : option FIXSession.session_item; session_config_ : FIX_Session_Config;
  in_going_ : Z; out_going_ : Z }.

Definition set_item it (s : session) : session :=
  mkSess (config_ s) it (session_config_ s) (in_going_ s) (out_going_ s).
Definition set_config c (s : session) : session :=
  mkSess (config_ s) (ci_fix_session_ s) c (in_going_ s) (out_going_ s).
Definition set_in_going fd (s : session) : session :=
  mkSess (config_ s) (ci_fix_session_ s) (session_config_ s) fd (out_going_ s).
Definition set_out_going fd (s : session) : session :=
  mkSess (config_ s) (ci_fix_session_ s) (session_config_ s) (in_going_ s) fd.

(** The constructor; [c] is what the members of [session_config_] happen to
    hold. *)
Definition FIX_Session (c : FIX_Session_Config) : session := mkSess None None c (-1) (-1).

(** The destructor: the item, if any, and the world. *)
Definition delete_session (s : session) (w : world) : call (option FIXSession.session_item * world) :=
  it ← match ci_fix_session_ s with
       | None => Returns None
       | Some it => it ← release it; Returns (Some it)
       end;
  Returns (it, close_if (out_going_ s) (close_if (in_going_ s) w)).

Record init_answers := mkInitAnswers {
  i_base : base_answers; i_new_item : bool; i_subscribe : sub_ok;
  i_allocs : FIXSession.allocs; i_push : nat → bool; i_push_days : nat → bool; i_errno : Z;
  i_in : endpoint_answers; i_out : endpoint_answers; i_dup : bool }.

(** The first half of [init]: the item is made and subscribed once. *)
Definition init_item (a : init_answers) (identity : option (list Z)) (s : session) : call (bool * session) :=
  match ci_fix_session_ s with
  | Some _ => Returns (true, s)
  | None =>
      '(r, c) ← base_init (i_base a) identity;
      let s := mkSess c None (session_config_ s) (in_going_ s) (out_going_ s) in
      match c with
      | Some cfg =>
          if negb (r : bool) then Returns (false, s)
          else if negb (i_new_item a) then Returns (false, s)
          else
            '(r, cfg, it) ← defined (subscribe (i_subscribe a) None (Some (bytes_of_string "PROTOCOL"))
                                       (Some (bytes_of_string "FIX_SESSION_CONFIG")) (Some new_session_item) cfg);
            let s := mkSess (Some cfg) None (session_config_ s) (in_going_ s) (out_going_ s) in
            if negb (r : bool) then Returns (false, s) else Returns (true, set_item it s)
      | None => Returns (false, s)
      end
  end.

(** The sockets for the configuration. *)
Definition init_sockets (a : init_answers) (s : session) (w : world) : call (bool * session * world) :=
  let c := session_config_ s in
  if is_duplex c then
    '(r, fd, w) ← create_socket (in_going c) (i_in a) w;
    let s := set_in_going fd s in
    if negb (r : bool) then Returns (false, s, w)
    else
      match kind (in_going c) with
      | ConnectToThis =>
          let '(fd, w) := dup (i_dup a) (in_going_ s) w in
          let s := set_out_going fd s in
          if fd =? -1 then Returns (false, set_in_going (-1) s, close_fd (in_going_ s) w)
          else Returns (true, s, w)
      | ListenOnThis => Returns (true, set_out_going (-1) s, w)
      end
  else
    '(r, fd, w) ← create_socket (in_going c) (i_in a) w;
    let s := set_in_going fd s in
    if negb (r : bool) then Returns (false, s, w)
    else
      '(r, fd, w) ← create_socket (out_going c) (i_out a) w;
      Returns (r, set_out_going fd s, w).

Definition init (a : init_answers) (identity : option (list Z)) (s : session) (w : world)
    : call (bool * session * world) :=
  '(r, s) ← init_item a identity s;
  match ci_fix_session_ s with
  | Some it =>
      if negb (r : bool) then Returns (false, s, w)
      else
        let w := close_if (out_going_ s) (close_if (in_going_ s) w) in
        if negb (alive it) then Undefined
        else
          '(r, c, _) ← defined (FIXSession.get (i_allocs a) (i_push a) (i_push_days a) it (i_errno a) (session_config_ s));
          let s := set_config c s in
          if negb (r : bool) then it ← release it; Returns (false, set_item (Some it) s, w)
          else init_sockets a s w
  | None => Returns (false, s, w)
  end.

(** ** [FIX_Session_Instance] *)

(** The descriptors it has of its own; the item is shared with the session. *)
Record instance := mkInstance { i_in_going : Z; i_out_going : Z }.

(** The constructor. *)
Definition new_instance (dup_in dup_out : bool) (in_socket out_socket : Z) (it : FIXSession.session_item) (w : world)
    : call (instance * FIXSession.session_item * world) :=
  let '(i, w) := dup dup_in in_socket w in
  let '(o, w) := dup dup_out out_socket w in
  it ← retain it;
  Returns (mkInstance i o, it, w).

Definition delete_instance (x : instance) (it : FIXSession.session_item) (w : world)
    : call (FIXSession.session_item * world) :=
  let w := close_if (i_out_going x) (close_if (i_in_going x) w) in
  it ← release it;
  Returns (it, w).

Record run_answers := mkRunAnswers { r_malloc : bool; r_dup : bool; r_attr : Z; r_state : Z; r_create : Z }.

(** [run]: the return value is the wrong way round.  The descriptor [sock] and
    the reference go to the thread; when that cannot be created, members of the
    arguments are closed that were never assigned. *)
Definition run_instance (a : run_answers) (x : instance) (it : FIXSession.session_item) (w : world)
    : call (bool * FIXSession.session_item * world) :=
  let retv := false in
  if negb (r_malloc a) then Returns (negb retv, it, w)
  else
    let '(sock, w) := dup (r_dup a) (i_in_going x) w in
    it ← retain it;
    let retv := (create_detached_thread (r_attr a) (r_state a) (r_create a)).1 in
    if negb retv then Undefined else Returns (negb retv, it, w).

(** What the session does with a pair of sockets, on three occasions. *)
Record use_answers := mkUseAnswers {
  u_new : bool; u_dup_in : bool; u_dup_out : bool; u_base : base_answers; u_run : run_answers }.

Inductive used := NoMemory | NotInitialised | Ran (x : instance).

Definition use_instance (a : use_answers) (identity : option (list Z)) (in_socket out_socket : Z)
    (it : FIXSession.session_item) (w : world) : call (used * FIXSession.session_item * world) :=
  if negb (u_new a) then Returns (NoMemory, it, w)
  else
    '(x, it, w) ← new_instance (u_dup_in a) (u_dup_out a) in_socket out_socket it w;
    '(r, _) ← base_init (u_base a) identity;
    if negb (r : bool) then '(it, w) ← delete_instance x it w; Returns (NotInitialised, it, w)
    else
      '(_, it, w) ← run_instance (u_run a) x it w;
      '(it, w) ← delete_instance x it w;
      Returns (Ran x, it, w).

(** ** The hours of the session *)

(** The three of them sleep for the time to warm up; none looks at the clock. *)
Definition sleep_til_session_start (answers : list Z) (s : session) (w : world) : call world :=
  sleep_loop answers (unsigned_int (session_warm_up_time (session_config_ s))) w.

Definition sleep_til_session_end (answers : list Z) (s : session) (w : world) : call world :=
  sleep_loop answers (unsigned_int (session_warm_up_time (session_config_ s))) w.

Definition seconds_remaining_in_session (answers : list Z) (s : session) (w : world) : call (Z * world) :=
  w ← sleep_loop answers (unsigned_int (session_warm_up_time (session_config_ s))) w;
  Returns (0, w).

Definition active_or_warming_up (s : session) : bool :=
  negb (session_warm_up_time (session_config_ s) =? 0).

(** ** [accept_duplex_FIX_connections] *)

Record round_answers := mkRoundAnswers {
  d_sleep : list Z; d_timeout : Z; d_accept : accept_ret; d_dup : bool; d_use : use_answers; d_relax : Z }.

(** A list of rounds: whether the loop has ended, what became of the
    connections, the item and the world. *)
Fixpoint accept_duplex_loop (rounds : list round_answers) (identity : option (list Z)) (listen_socket : Z)
    (in_socket out_socket : Z) (s : session) (it : FIXSession.session_item) (w : world)
    : call (bool * list used * FIXSession.session_item * world) :=
  match rounds with
  | [] => Returns (false, [], it, w)
  | a :: rounds =>
      let w := close_if out_socket (close_if in_socket w) in
      if negb (active_or_warming_up s) then Returns (true, [], it, w)
      else
        '(duration, w) ← seconds_remaining_in_session (d_sleep a) s w;
        let '(r, out_socket, w) := accept_connection (d_timeout a) (d_accept a) duration listen_socket (-1) w in
        if negb r then accept_duplex_loop rounds identity listen_socket (-1) out_socket s it w
        else
          let '(in_socket, w) := dup (d_dup a) out_socket w in
          if in_socket =? -1 then accept_duplex_loop rounds identity listen_socket in_socket out_socket s it w
          else
            '(u, it, w) ← use_instance (d_use a) identity in_socket out_socket it w;
            let w := match u with NoMemory => pass (10 - d_relax a) w | _ => w end in
            '(ended, us, it, w) ← accept_duplex_loop rounds identity listen_socket in_socket out_socket s it w;
            Returns (ended, u :: us, it, w)
  end.

Definition accept_duplex_FIX_connections (rounds : list round_answers) (identity : option (list Z)) (listen_socket : Z)
    (s : session) (it : FIXSession.session_item) (w : world) : call (bool * list used * FIXSession.session_item * world) :=
  accept_duplex_loop rounds identity listen_socket (-1) (-1) s it w.

(** ** [FIX_Session::run] *)

(** The answers for a simplex socket that is taken over: for one that listens,
    and of [dup]. *)
Record take_answers := mkTakeAnswers { t_sleep : list Z; t_timeout : Z; t_accept : accept_ret; t_dup : bool }.

Record session_answers := mkSessionAnswers {
  s_start : list Z; s_rounds : list round_answers; s_dup : bool; s_in : take_answers; s_out : take_answers;
  s_use : use_answers; s_end : list Z }.

(** A socket for the connection of [fd], which is then closed. *)
Definition take_over (a : take_answers) (k : kind_t) (fd : Z) (s : session) (w : world) : call (Z * world) :=
  '(socket, w) ← match k with
                 | ListenOnThis =>
                     '(duration, w) ← seconds_remaining_in_session (t_sleep a) s w;
                     let '(_, socket, w) := accept_connection (t_timeout a) (t_accept a) duration fd (-1) w in
                     Returns (socket, w)
                 | ConnectToThis => Returns (dup (t_dup a) fd w)
                 end;
  Returns (socket, close_fd fd w).

(** The return value, [None] while the session still accepts; the uses of
    connections; the session and the world. *)
Definition run_outcome : Type := option bool * list used * session * world.

(** The end of [run]. *)
Definition finish (a : session_answers) (us : list used) (s : session) (w : world) : call run_outcome :=
  w ← sleep_til_session_end (s_end a) s w;
  Returns (Some true, us, s, w).

(** The item is a member of an initialised session. *)
Definition run_with (a : session_answers) (identity : option (list Z)) (it : FIXSession.session_item) (s : session) (w : world)
    : call run_outcome :=
  let c := session_config_ s in
  w ← sleep_til_session_start (s_start a) s w;
  if is_duplex c then
    match kind (in_going c) with
    | ListenOnThis =>
        '(ended, us, it, w) ← accept_duplex_FIX_connections (s_rounds a) identity (in_going_ s) s it w;
        let s := set_item (Some it) s in
        if negb (ended : bool) then Returns (None, us, s, w) else finish a us s w
    | ConnectToThis =>
        let '(fd, w) := dup (s_dup a) (in_going_ s) w in
        let s := set_out_going fd s in
        if fd =? -1 then Returns (Some false, [], s, w)
        else
          '(u, it, w) ← use_instance (s_use a) identity (in_going_ s) (out_going_ s) it w;
          let s := set_item (Some it) s in
          match u with Ran _ => finish a [u] s w | _ => Returns (Some false, [u], s, w) end
    end
  else
    '(in_socket, w) ← take_over (s_in a) (kind (in_going c)) (in_going_ s) s w;
    let s := set_in_going (-1) s in
    '(out_socket, w) ← take_over (s_out a) (kind (out_going c)) (out_going_ s) s w;
    let s := set_out_going (-1) s in
    '(u, it, w) ← use_instance (s_use a) identity (in_going_ s) (out_going_ s) it w;
    let s := set_item (Some it) s in
    match u with Ran _ => finish a [u] s w | _ => Returns (Some false, [u], s, w) end.

(** Without an item there was no [init] that succeeded, and [session_config_] is
    indeterminate. *)
Definition run (a : session_answers) (identity : option (list Z)) (s : session) (w : world) : call run_outcome :=
  match ci_fix_session_ s with None => Undefined | Some it => run_with a identity it s w end.

(** ** [FIX_Gateway] *)

(** What a session's thread leaves: nothing but the world, a session that could
    not be initialised and is not deleted, or one that is still running. *)
Inductive thread_end := Deleted | Leaked (s : session) | Running (us : list used) (s : session).

Definition fix_session_thread (a : init_answers) (r : session_answers) (identity : option (list Z)) (s : session) (w : world)
    : call (thread_end * world) :=
  '(ok, s, w) ← init a identity s w;
  if negb (ok : bool) then Returns (Leaked s, w)
  else
    '(ended, us, s, w) ← run r identity s w;
    match ended with
    | None => Returns (Running us s, w)
    | Some _ => '(_, w) ← delete_session s w; Returns (Deleted, w)
    end.

End Session.

Record gateway_answers := mkGatewayAnswers {
  g_item : bool; g_base : base_answers; g_subscribe : sub_ok; g_strdup : bool; g_push : nat → bool }.

(** [FIX_Gateway::init]: the return value and [session_IDs_]. *)
Definition gateway_init (a : gateway_answers) (identity : option (list Z)) : call (bool * list (list Z)) :=
  if negb (g_item a) then Returns (false, [])
  else
    '(r, c) ← base_init (g_base a) identity;
    match c with
    | Some cfg =>
        if negb (r : bool) then Returns (false, [])
        else
          '(r, _, it) ← defined (@subscribe _ StringVectorItem (g_subscribe a) None (Some (bytes_of_string "PROTOCOL"))
                                   (Some (bytes_of_string "FIX_SESSION_IDS")) (Some (mkItem 1 None)) cfg);
          if negb (r : bool) then Returns (false, [])
          else
            it ← defined it;
            '(r, session_IDs_) ← defined (StringVector.get (g_strdup a) (g_push a) it);
            if negb (r : bool) then Returns (false, session_IDs_)
            else Returns (negb (Nat.eqb (length session_IDs_) 0), session_IDs_)
    | None => Returns (false, [])
    end.

(** For one identity: [new] and the thread; the thread's end, when it has
    one. *)
Record start_answers := mkStartAnswers { st_new : bool; st_attr : Z; st_state : Z; st_create : Z; st_ends : bool }.

(** [create_thread] of this file: a joinable thread. *)
Definition gateway_thread (a : start_answers) : bool :=
  (Process.create_thread false (st_attr a) (st_state a) (st_create a)).1.

(** The loop over the identities: those whose thread was started, with the
    question whether it ends. *)
Fixpoint start_sessions (answers : nat → start_answers) (n : nat) (session_IDs : list (list Z)) : list (list Z * bool) :=
  match session_IDs with
  | [] => []
  | id :: session_IDs =>
      let a := answers n in
      let rest := start_sessions answers (S n) session_IDs in
      if negb (st_new a) then rest
      else if negb (gateway_thread a) then rest
      else (c_str id, st_ends a) :: rest
  end.

(** [FIX_Gateway::run]: the return value, the sessions it waited for and
    [session_IDs_]. *)
Definition gateway_run (reserve_ok : bool) (answers : nat → start_answers) (session_IDs_ : list (list Z))
    : call (bool * list (list Z) * list (list Z)) :=
  if negb reserve_ok then Returns (false, [], session_IDs_)
  else
    let fix_threads := start_sessions answers 0 session_IDs_ in
    if forallb snd fix_threads then Returns (true, fst <$> fix_threads, []) else Waits.

(** ** Lemmas *)

Lemma pass_pass a b w : pass a (pass b w) = pass (a + b) w.
Proof. unfold pass. cbn. f_equal. lia. Qed.

(** Whatever interrupts it, a sleep takes the time it was asked for. *)
Lemma sleep_loop_spec answers : ∀ n w,
  sleep_loop answers n w = if bool_decide (0 ∈ answers) then Returns (pass n w) else Waits.
Proof.
  induction answers as [|u answers IH]; intros n w; cbn [sleep_loop]; [done|].
  destruct (Z.eqb_spec u 0) as [->|Hu].
  - rewrite bool_decide_true by set_solver. by rewrite Z.sub_0_r.
  - rewrite IH, pass_pass, Z.add_sub_assoc. replace (u + n - u) with n by lia.
    apply (f_equal (λ b : bool, if b then _ else _)), bool_decide_ext. set_solver.
Qed.

Lemma sleep_loop_open answers n w w' : sleep_loop answers n w = Returns w' → open_ w' = open_ w.
Proof. rewrite sleep_loop_spec. case_bool_decide; [|done]. by intros [= <-]. Qed.

(** No descriptor is negative. *)
Definition sound (w : world) : Prop := -1 ∉ open_ w.

Lemma socket_sound ok (t : table) : -1 ∉ t → -1 ∉ (socket ok t).2.
Proof.
  intros H. unfold socket. destruct ok; [|done]. cbn. pose proof (lowest_free_pos t).
  rewrite not_elem_of_union, not_elem_of_singleton. split; [lia | done].
Qed.

Lemma close_sound fd w : sound w → sound (close_fd fd w).
Proof. unfold sound, close_fd, close. cbn. set_solver. Qed.

Lemma dup_sound ok fd w n w' : dup ok fd w = (n, w') → sound w → sound w'.
Proof.
  unfold dup, sound. intros E H. pose proof (socket_sound (ok && bool_decide (fd ∈ open_ w)) _ H) as Hs.
  destruct (socket _ _) as [m t]. by injection E as <- <-.
Qed.

Lemma dup_closed ok fd w : fd ∉ open_ w → dup ok fd w = (-1, w).
Proof. intros H. unfold dup. rewrite bool_decide_false, andb_false_r by done. cbn. by destruct w. Qed.

Lemma dup_open fd w : fd ∈ open_ w →
  dup true fd w = (lowest_free (open_ w), set_open ({[lowest_free (open_ w)]} ∪ open_ w) w).
Proof. intros H. unfold dup. by rewrite bool_decide_true. Qed.

(** Nobody is accepted in a session of no duration. *)
Lemma accept_no_duration rc k l acc w : accept_connection rc k 0 l acc w = (false, acc, w).
Proof. done. Qed.

Lemma remaining_spec answers s w r :
  seconds_remaining_in_session answers s w = Returns r →
  r = (0, pass (unsigned_int (session_warm_up_time (session_config_ s))) w).
Proof.
  unfold seconds_remaining_in_session. rewrite sleep_loop_spec. case_bool_decide; [|done]. by intros [= <-].
Qed.

Lemma duplex_rounds rounds identity l s it : ∀ w,
  active_or_warming_up s = true → Forall (λ a, 0 ∈ d_sleep a) rounds →
  accept_duplex_loop rounds identity l (-1) (-1) s it w
  = Returns (false, [], it, pass (zlen rounds * unsigned_int (session_warm_up_time (session_config_ s))) w).
Proof.
  induction rounds as [|a rounds IH]; intros w Ha Hs; cbn [accept_duplex_loop].
  { unfold pass. cbn. rewrite Z.add_0_r. by destruct w. }
  apply Forall_cons in Hs as [H Hs]. rewrite Ha. unfold seconds_remaining_in_session, close_if. cbn.
  rewrite sleep_loop_spec, bool_decide_true by done. cbn. rewrite (IH _ Ha Hs), pass_pass.
  do 3 f_equal. rewrite Nat2Z.inj_succ, Z.mul_succ_l. lia.
Qed.

Lemma take_over_sound a k fd s w n w' : take_over a k fd s w = Returns (n, w') → sound w → sound w'.
Proof.
  unfold take_over. intros E H. destruct k.
  - destruct (dup (t_dup a) fd w) as [m w1] eqn:Ed. cbn in E. injection E as <- <-.
    by eapply close_sound, dup_sound.
  - destruct (seconds_remaining_in_session (t_sleep a) s w) as [r| |] eqn:Er; [|done..].
    apply remaining_spec in Er as ->. cbn in E. injection E as <- <-. by apply close_sound.
Qed.

(** An instance made from closed descriptors has none. *)
Lemma use_closed a identity i o it w u it' w' :
  i ∉ open_ w → o ∉ open_ w → sound w →
  use_instance a identity i o it w = Returns (u, it', w') →
  match u with Ran x => x = mkInstance (-1) (-1) | _ => True end ∧ w' = w.
Proof.
  intros Hi Ho Hw. unfold use_instance, new_instance. destruct (u_new a); cbn [negb]; [|by intros [= <- _ <-]].
  rewrite (dup_closed _ i), (dup_closed _ o) by done. destruct (retain it) as [it1| |]; [|done..]. cbn [mbind call_mbind cbind].
  destruct (base_init _ _) as [[r cfg]| |]; [|done..]. cbn [mbind call_mbind cbind].
  unfold delete_instance, run_instance, close_if. cbn [i_in_going i_out_going].
  destruct r; cbn [negb].
  - rewrite (dup_closed _ (-1)) by done. cbn -[release retain create_detached_thread].
    destruct (r_malloc (u_run a)); cbn -[release retain create_detached_thread].
    + destruct (retain it1) as [it2| |]; [|done..]. cbn -[release create_detached_thread].
      destruct (create_detached_thread _ _ _).1; cbn -[release]; [|done].
      destruct (release it2) as [it3| |]; [|done..]. cbn. by intros [= <- _ <-].
    + destruct (release it1) as [it3| |]; [|done..]. cbn. by intros [= <- _ <-].
  - cbn. destruct (release it1) as [it2| |]; [|done..]. cbn. by intros [= <- _ <-].
Qed.

(** Whether an instance got a connection. *)
Definition served (u : used) : bool :=
  match u with Ran x => negb ((i_in_going x =? -1) && (i_out_going x =? -1)) | _ => false end.

Definition connects (c : FIX_Session_Config) : bool :=
  is_duplex c && match kind (in_going c) with ConnectToThis => true | ListenOnThis => false end.

Lemma finish_uses a us s w o us' s' w' : finish a us s w = Returns (o, us', s', w') → us' = us ∧ o = Some true ∧ s' = s.
Proof.
  unfold finish. destruct (sleep_til_session_end _ _ _); [|done..]. by intros [= <- <- <- <-].
Qed.

Lemma simplex_serves_nobody a identity it s w r us s' w' :
  sound w → is_duplex (session_config_ s) = false →
  run_with a identity it s w = Returns (r, us, s', w') → Forall (λ u, served u = false) us.
Proof.
  intros Hw Hd. unfold run_with, sleep_til_session_start.
  destruct (sleep_loop (s_start a) _ w) as [w1| |] eqn:Es; [|done..]. cbn [mbind call_mbind cbind]. rewrite Hd.
  assert (H1 : sound w1) by (unfold sound; by rewrite (sleep_loop_open _ _ _ _ Es)).
  destruct (take_over (s_in a) _ _ s w1) as [[i w2]| |] eqn:Ei; [|done..]. cbn [mbind call_mbind cbind].
  pose proof (take_over_sound _ _ _ _ _ _ _ Ei H1) as H2.
  destruct (take_over (s_out a) _ _ _ w2) as [[o w3]| |] eqn:Eo; [|done..]. cbn [mbind call_mbind cbind].
  pose proof (take_over_sound _ _ _ _ _ _ _ Eo H2) as H3. cbn [in_going_ out_going_ set_in_going set_out_going].
  destruct (use_instance _ _ _ _ _ w3) as [[[u it1] w4]| |] eqn:Eu; [|done..]. cbn [mbind call_mbind cbind].
  apply use_closed in Eu as [Eu ->]; [|done..].
  destruct u as [| |x]; [intros [= <- <- <- <-]; by repeat constructor..|].
  intros (-> & _ & _)%finish_uses. constructor; [|done]. by rewrite Eu.
Qed.

Lemma listener_serves_nobody a identity it s w r us s' w' :
  is_duplex (session_config_ s) = true → kind (in_going (session_config_ s)) = ListenOnThis →
  Forall (λ x, 0 ∈ d_sleep x) (s_rounds a) →
  run_with a identity it s w = Returns (r, us, s', w') →
  us = [] ∧ (r = if active_or_warming_up s then None else match s_rounds a with [] => None | _ => Some true end).
Proof.
  intros Hd Hk Hs. unfold run_with, sleep_til_session_start.
  destruct (sleep_loop (s_start a) _ w) as [w1| |] eqn:Es; [|done..]. cbn [mbind call_mbind cbind]. rewrite Hd, Hk.
  unfold accept_duplex_FIX_connections. destruct (active_or_warming_up s) eqn:Ea.
  - rewrite duplex_rounds by done. cbn. by intros [= <- <- <- <-].
  - destruct (s_rounds a) as [|x rounds]; cbn [accept_duplex_loop].
    + cbn. by intros [= <- <- <- <-].
    + rewrite Ea. cbn -[finish]. by intros (-> & -> & _)%finish_uses.
Qed.

(** Answers for which a listening socket is made: the interface has the address
    [addr]. *)
Definition listens inet_ntop inet_pton (e : endpoint_t) (a : answers) (addr : list Z) : Prop :=
  kind e = ListenOnThis ∧ pf_family e ≠ PF_UNSPEC
  ∧ socket_ok a = true ∧ (∀ o, setsockopt a o = 0)
  ∧ interface_address inet_ntop inet_pton (strdup_ok a) (pf_number (pf_family e)) (interface e) (getifaddrs a) = Some (1, addr)
  ∧ (∀ sa, bind_rc a sa = 0) ∧ listen_rc a = 0.

(** The address of an endpoint. *)
Definition endpoint_address (e : endpoint_t) (addr : list Z) : sockaddr :=
  mkSockaddr (pf_number (pf_family e)) (htons (port e)) addr.

Definition listening (fd : Z) (sa : sockaddr) (w : world) : world :=
  mkWorld ({[fd]} ∪ open_ w) (<[fd := sa]> (bound w)) (clock w).

Lemma create_socket_listens inet_ntop inet_pton e a addr w :
  listens inet_ntop inet_pton e (listen_ok a) addr →
  create_socket inet_ntop inet_pton e a w
  = Returns (true, lowest_free (open_ w), listening (lowest_free (open_ w)) (endpoint_address e addr) w).
Proof.
  intros (Hk & Hpf & Hok & Hopt & Ha & Hb & Hl). unfold create_socket, create_listening_socket, socket. rewrite Hk. cbn [negb].
  assert ((pf_number (pf_family e) =? Sockets.PF_INET) || (pf_number (pf_family e) =? Sockets.PF_INET6) = true) as ->
    by (by destruct (pf_family e)).
  assert (set_socket_options (setsockopt (listen_ok a)) = 1) as Ho by (unfold set_socket_options; by rewrite !Hopt).
  rewrite Hok. cbn [negb]. pose proof (lowest_free_pos (open_ w)) as Hp.
  set (fd := lowest_free (open_ w)) in *. clearbody fd. rewrite (proj2 (Z.eqb_neq fd (-1))) by lia.
  rewrite Ho, Ha, Hb, Hl. cbn. by rewrite (proj2 (Z.eqb_neq fd (-1))) by lia.
Qed.

Definition fine_base (waits : list (bool * bool * option conf_file)) any f rest : base_answers :=
  mkBaseAnswers true (waits ++ (true, any, Some f) :: rest).

Definition PROTOCOL : list Z := bytes_of_string "PROTOCOL".
Definition FIX_SESSION_CONFIG : list Z := bytes_of_string "FIX_SESSION_CONFIG".

Lemma plain_string s : forallb (λ c, negb (c =? 0)) (bytes_of_string s) = true → plain (Some (bytes_of_string s)).
Proof.
  intros Hs. apply Forall_forall. intros x Hx%list_elem_of_In. rewrite forallb_forall in Hs.
  by apply Hs, negb_true_iff, Z.eqb_neq in Hx.
Qed.

(** The first [init] up to the sockets: the configuration of the file. *)
Lemma init_reads waits any f rest identity items kvs c c0 inet_ntop inet_pton errno ai ao d w :
  readable waits f → read_config (split_lines (line_end <$> f_content f)) = Some items → plain identity →
  get_value items (key_text identity (Some PROTOCOL) (Some FIX_SESSION_CONFIG)) = Some (join ch_space (kv_text <$> kvs)) →
  config_ok c → kvs ≡ₚ render_session c → errno ≠ ERANGE → errno ≠ EINVAL →
  let a := mkInitAnswers (fine_base waits any f rest) true (mkSubOk true true true true true) all_ok
             (λ _, true) (λ _, true) errno ai ao d in
  ∃ cfg it, FIXSession.s_refcnt it = 1
    ∧ init inet_ntop inet_pton a identity (FIX_Session c0) w
      = init_sockets inet_ntop inet_pton a (mkSess cfg (Some it) c (-1) (-1)) w.
Proof.
  intros Hf Hr Hid Hv Hc Hk H1 H2 a. unfold init, init_item, base_init. cbn [FIX_Session ci_fix_session_ a i_base fine_base new_config looks negb].
  rewrite (init_items waits any f rest identity items Hf Hr). cbn [mbind call_mbind cbind].
  destruct (session_line_read c c0 kvs new_session_item (λ _, true) (λ _, true) errno Hc Hk ltac:(done) ltac:(done)
    ltac:(done) ltac:(done) H1 H2) as (it & Hfill & Hget).
  pose proof (subscribe_found None (Some PROTOCOL) (Some FIX_SESSION_CONFIG) new_session_item (mkConfigObj identity items 1)) as Hs.
  cbn [default_identity file_items] in Hs. rewrite Hv in Hs.
  specialize (Hs ltac:(done) Hid (plain_string "PROTOCOL" eq_refl) (plain_string "FIX_SESSION_CONFIG" eq_refl)).
  cbn [item_fill FIXSessionItem] in Hs. rewrite Hfill in Hs. destruct Hs as [Hn Hs].
  exists (Some (mkConfigObj identity items 2)), it. cbn in Hn. split; [done|].
  cbn [i_new_item i_subscribe negb a]. unfold PROTOCOL, FIX_SESSION_CONFIG in Hs. rewrite Hs. cbn [defined mbind call_mbind cbind negb].
  cbn [set_item ci_fix_session_ in_going_ out_going_ session_config_]. unfold close_if, alive. cbn. rewrite Hn. cbn.
  rewrite Hget. done.
Qed.

(** [fd] is an open socket that listens on the endpoint. *)
Definition listens_on (w : world) (fd : Z) (e : endpoint_t) (addr : list Z) : Prop :=
  fd ∈ open_ w ∧ ∃ sa, bound w !! fd = Some sa
    ∧ sa_family sa = pf_number (pf_family e) ∧ be_port (sa_port sa) = port e ∧ sa_addr sa = addr.

Lemma listening_on fd e addr w : 0 ≤ port e < 2 ^ 16 → listens_on (listening fd (endpoint_address e addr) w) fd e addr.
Proof.
  intros H. split; [set_solver|]. eexists. split; [apply lookup_insert_eq|]. split_and!; [done | | done]. by apply htons_be.
Qed.

Lemma listening_other fd fd' sa e addr w :
  fd ≠ fd' → listens_on w fd e addr → listens_on (listening fd' sa w) fd e addr.
Proof.
  intros H [Ho (sa' & Hb & Hs)]. split; [set_solver|]. exists sa'. split; [|done].
  cbn [bound listening]. by rewrite lookup_insert_ne.
Qed.

Lemma delete_opened (t : table) fd : fd ∉ t → ({[fd]} ∪ t) ∖ {[fd]} = t.
Proof. set_solver. Qed.

(** What is open after the descriptors of a session are given back. *)
Lemma close_if_open fd w : sound w → open_ (close_if fd w) = open_ w ∖ {[fd]}.
Proof. unfold sound, close_if. intros H. destruct (Z.eqb_spec fd (-1)) as [->|]; cbn [negb]; [set_solver | done]. Qed.

Lemma close_if_clock fd w : clock (close_if fd w) = clock w.
Proof. unfold close_if. by destruct (negb _). Qed.

Lemma close_if_sound fd w : sound w → sound (close_if fd w).
Proof. unfold close_if. intros. destruct (negb _); [by apply close_sound | done]. Qed.

Lemma delete_session_open s it w : ci_fix_session_ s = Some it → FIXSession.s_refcnt it = 1 → sound w →
  ∃ it' w', delete_session s w = Returns (Some it', w') ∧ FIXSession.s_refcnt it' = 0
    ∧ open_ w' = open_ w ∖ {[in_going_ s]} ∖ {[out_going_ s]}.
Proof.
  intros Hi Hn Hw. unfold delete_session, release, alive. rewrite Hi, Hn. cbn -[close_if]. do 2 eexists. split; [done|].
  split; [done|]. by rewrite !close_if_open by eauto using close_if_sound.
Qed.

(** ** Properties *)

(** C19: a session written to the configuration file listens where the file
    says: once the file can be read, the first [init] ends with its
    configuration and with new sockets, bound to the addresses of the interfaces
    and to the ports of the ingoing and, unless both are one, of the outgoing
    endpoint; the destructor closes what [init] opened. *)
Theorem session_listens waits any f rest identity items kvs c c0 inet_ntop inet_pton errno ai ao d w in_addr out_addr :
  readable waits f → read_config (split_lines (line_end <$> f_content f)) = Some items → plain identity →
  get_value items (key_text identity (Some PROTOCOL) (Some FIX_SESSION_CONFIG)) = Some (join ch_space (kv_text <$> kvs)) →
  config_ok c → kvs ≡ₚ render_session c → errno ≠ ERANGE → errno ≠ EINVAL → sound w →
  listens inet_ntop inet_pton (in_going c) (listen_ok ai) in_addr →
  (is_duplex c = false → listens inet_ntop inet_pton (out_going c) (listen_ok ao) out_addr) →
  ∃ s w', init inet_ntop inet_pton
            (mkInitAnswers (fine_base waits any f rest) true (mkSubOk true true true true true) all_ok
               (λ _, true) (λ _, true) errno ai ao d) identity (FIX_Session c0) w = Returns (true, s, w')
    ∧ session_config_ s = c ∧ clock w' = clock w
    ∧ listens_on w' (in_going_ s) (in_going c) in_addr
    ∧ (if is_duplex c then out_going_ s = -1 ∧ open_ w' = {[in_going_ s]} ∪ open_ w
       else listens_on w' (out_going_ s) (out_going c) out_addr
            ∧ (out_going_ s ∉ {[in_going_ s]} ∪ open_ w) ∧ open_ w' = {[out_going_ s]} ∪ ({[in_going_ s]} ∪ open_ w))
    ∧ (in_going_ s ∉ open_ w)
    ∧ ∃ it w'', delete_session s w' = Returns (Some it, w'') ∧ open_ w'' = open_ w.
Proof.
  intros Hf Hr Hid Hv Hc Hk H1 H2 Hw Hi Ho.
  destruct (init_reads waits any f rest identity items kvs c c0 inet_ntop inet_pton errno ai ao d w Hf Hr Hid Hv Hc Hk H1 H2)
    as (cfg & it & Hn & ->).
  pose proof (lowest_free_fresh (open_ w)) as Hf1. pose proof (lowest_free_pos (open_ w)) as Hp1.
  assert (Hport : ∀ e, endpoint_ok e → 0 ≤ port e < 2 ^ 16) by (intros e (_ & _ & ?); lia).
  pose proof (Hport _ (ok_in c Hc)) as Hpi. pose proof (Hport _ (ok_out c Hc)) as Hpo.
  unfold init_sockets. cbn [session_config_ i_in i_out]. rewrite (create_socket_listens _ _ _ _ in_addr) by done.
  cbn [mbind call_mbind cbind negb]. set (fd := lowest_free (open_ w)) in *. clearbody fd.
  set (w1 := listening fd _ w). assert (Hl1 : listens_on w1 fd (in_going c) in_addr) by by apply listening_on.
  assert (Hw1 : sound w1) by (unfold sound in *; cbn; rewrite not_elem_of_union, not_elem_of_singleton; split; [lia | done]).
  destruct (is_duplex c) eqn:Ed.
  - destruct Hi as (-> & _). do 2 eexists. split; [done|]. split_and!; try done.
    destruct (delete_session_open (mkSess cfg (Some it) c fd (-1)) it w1) as (it' & w' & Hdel & _ & Hw'); [done..|].
    exists it', w'. split; [exact Hdel|]. rewrite Hw'. cbn. rewrite delete_opened by done. unfold sound in *. set_solver.
  - specialize (Ho eq_refl). rewrite (create_socket_listens _ _ _ _ out_addr) by done. cbn [mbind call_mbind cbind].
    pose proof (lowest_free_fresh (open_ w1)) as Hf2. pose proof (lowest_free_pos (open_ w1)) as Hp2.
    set (fd2 := lowest_free (open_ w1)) in *. clearbody fd2. set (w2 := listening fd2 _ w1).
    assert (Hw2 : sound w2) by (unfold sound in *; cbn; rewrite not_elem_of_union, not_elem_of_singleton; split; [lia | done]).
    do 2 eexists. split; [done|]. cbn [session_config_ set_out_going set_in_going in_going_ out_going_].
    split_and!; try done.
    + apply listening_other; [|done]. intros <-. cbn in Hf2. set_solver.
    + by apply listening_on.
    + destruct (delete_session_open (mkSess cfg (Some it) c fd fd2) it w2) as (it' & w' & Hdel & _ & Hw'); [done..|].
      exists it', w'. split; [exact Hdel|]. rewrite Hw'. cbn in *. set_solver.
Qed.

(** C39: a session that listens, and a simplex one whatever its endpoints, never
    gets a connection: the seconds left of the session are always none, so
    nothing is accepted, and the sockets a simplex session hands on are the two
    it has just closed.  A duplex listener with a time to warm up tries for
    ever. *)
Theorem session_serves_nobody a identity s w r us s' w' :
  sound w → Forall (λ x, 0 ∈ d_sleep x) (s_rounds a) → connects (session_config_ s) = false →
  run a identity s w = Returns (r, us, s', w') →
  Forall (λ u, served u = false) us
  ∧ (is_duplex (session_config_ s) = true → us = []
     ∧ (session_warm_up_time (session_config_ s) ≠ 0 → r = None)).
Proof.
  intros Hw Hs Hc. unfold run. destruct (ci_fix_session_ s) as [it|]; [|done]. unfold connects in Hc.
  destruct (is_duplex (session_config_ s)) eqn:Ed; [|split; [by eapply simplex_serves_nobody | done]].
  destruct (kind (in_going (session_config_ s))) eqn:Ek; [done|].
  intros (-> & Hr)%listener_serves_nobody; [|done..]. split; [done|]. intros _. split; [done|].
  intros Hwarm. rewrite Hr. unfold active_or_warming_up. by rewrite (proj2 (Z.eqb_neq _ 0)).
Qed.

(** Everything succeeds for an instance. *)
Definition instance_fine (a : use_answers) any f waits rest : Prop :=
  a = mkUseAnswers true true true (fine_base waits any f rest) (mkRunAnswers true true 0 0 0).

(** The whole use of a pair of open sockets: all that remains is the descriptor
    of the thread, and its reference. *)
Lemma use_open a any f waits rest identity items i o it w :
  readable waits f → read_config (split_lines (line_end <$> f_content f)) = Some items →
  instance_fine a any f waits rest → sound w → i ∈ open_ w → o ∈ open_ w → FIXSession.s_refcnt it = 1 →
  ∃ x it' w' sock, use_instance a identity i o it w = Returns (Ran x, it', w')
    ∧ FIXSession.s_refcnt it' = 2 ∧ served (Ran x) = true
    ∧ (sock ∉ open_ w) ∧ 0 ≤ sock ∧ open_ w' = {[sock]} ∪ open_ w ∧ clock w' = clock w.
Proof.
  intros Hf Hr -> Hw Hi Ho Hn. unfold use_instance, new_instance. cbn [u_new u_dup_in u_dup_out u_base u_run negb].
  rewrite dup_open by done. set (x := lowest_free (open_ w)). set (w1 := set_open _ w).
  assert (Hx : (x ∉ open_ w) ∧ 0 ≤ x) by (split; [apply lowest_free_fresh | apply lowest_free_pos]). clearbody x.
  rewrite dup_open by (cbn; set_solver). set (y := lowest_free (open_ w1)). set (w2 := set_open _ w1).
  assert (Hy : (y ∉ open_ w1) ∧ 0 ≤ y) by (split; [apply lowest_free_fresh | apply lowest_free_pos]). clearbody y.
  unfold retain, alive. rewrite Hn. cbn [Z.ltb Z.compare mbind call_mbind cbind].
  unfold base_init. cbn [fine_base new_config looks negb]. rewrite (init_items waits any f rest identity items Hf Hr).
  cbn [mbind call_mbind cbind negb]. unfold run_instance. cbn [r_malloc negb i_in_going r_dup].
  rewrite dup_open by (cbn; set_solver). set (k := lowest_free (open_ w2)). set (w3 := set_open _ w2).
  assert (Hk : (k ∉ open_ w2) ∧ 0 ≤ k) by (split; [apply lowest_free_fresh | apply lowest_free_pos]). clearbody k.
  cbn -[close_if]. do 4 eexists. split; [reflexivity|]. cbn [FIXSession.s_refcnt set_refcnt].
  destruct Hx as [Hx Hx0], Hy as [Hy Hy0], Hk as [Hk Hk0]. cbn in Hy, Hk.
  assert (Hw3 : sound w3) by (unfold sound in *; cbn; set_unfold; intuition lia).
  split; [done|]. split.
  { cbn. by rewrite (proj2 (Z.eqb_neq x (-1))) by lia. }
  split; [|split; [exact Hk0|split]]; [set_solver | | by rewrite !close_if_clock].
  rewrite !close_if_open by eauto using close_if_sound. cbn. set_unfold. intros z. split; [|intuition congruence].
  set_solver.
Qed.

(** a session that connects, with one socket for both directions, serves
    it: [run] makes an instance with open descriptors and returns true after
    two times the time to warm up.  But of the three descriptors for the
    connection it then gives back only the first and the last: [run] overwrites
    the duplicate [init] has made, which stays open, as does the one the
    instance's thread was given. *)
Theorem connected_session_leaks a any f waits rest identity items s it w :
  readable waits f → read_config (split_lines (line_end <$> f_content f)) = Some items →
  instance_fine (s_use a) any f waits rest → s_dup a = true → 0 ∈ s_start a → 0 ∈ s_end a →
  sound w → connects (session_config_ s) = true → ci_fix_session_ s = Some it → FIXSession.s_refcnt it = 1 →
  in_going_ s ∈ open_ w → out_going_ s ∈ open_ w → in_going_ s ≠ out_going_ s →
  ∃ x s' w' it' w'' sock, run a identity s w = Returns (Some true, [Ran x], s', w') ∧ served (Ran x) = true
    ∧ clock w' = clock w + 2 * unsigned_int (session_warm_up_time (session_config_ s))
    ∧ delete_session s' w' = Returns (Some it', w'') ∧ FIXSession.s_refcnt it' = 1
    ∧ (sock ∉ open_ w) ∧ open_ w'' = {[sock]} ∪ (open_ w ∖ {[in_going_ s]}) ∧ out_going_ s ∈ open_ w''.
Proof.
  intros Hf Hr Hu Hd Hs He Hw Hc Hi Hn Hin Hout Hne. unfold run. rewrite Hi. unfold run_with, sleep_til_session_start.
  rewrite sleep_loop_spec, bool_decide_true by done. cbn [mbind call_mbind cbind].
  unfold connects in Hc. apply andb_true_iff in Hc as [-> Hk]. destruct (kind (in_going (session_config_ s))); [|done].
  set (w1 := pass _ w). rewrite Hd, dup_open by done. set (fd := lowest_free (open_ w1)). set (w2 := set_open _ w1).
  pose proof (lowest_free_fresh (open_ w1)) as Hfd. pose proof (lowest_free_pos (open_ w1)) as Hp. fold fd in Hfd, Hp. clearbody fd.
  rewrite (proj2 (Z.eqb_neq fd (-1))) by lia. cbn [set_out_going in_going_ out_going_].
  assert (Hw2 : sound w2) by (unfold sound in *; cbn; set_unfold; intuition lia).
  destruct (use_open (s_use a) any f waits rest identity items (in_going_ s) fd it w2) as (x & it' & w3 & sock & -> & Hn' & Hx & Hk1 & Hk2 & Hw3 & Hclk);
    [done.. | cbn; set_solver | cbn; set_solver | done |].
  cbn [mbind call_mbind cbind]. unfold finish, sleep_til_session_end.
  rewrite sleep_loop_spec, bool_decide_true by done. cbn [mbind call_mbind cbind set_item session_config_ set_out_going].
  assert (Hsock : sock ∉ open_ w) by (cbn in Hk1; set_solver).
  do 6 eexists. split; [reflexivity|]. split; [done|]. split; [cbn [clock pass]; rewrite Hclk; cbn; lia|].
  unfold delete_session, release, alive. cbn [ci_fix_session_ set_item set_out_going]. rewrite Hn'.
  cbn [Z.ltb Z.compare mbind call_mbind cbind in_going_ out_going_].
  split; [reflexivity|]. split; [done|]. split; [exact Hsock|]. cbn [pass open_].
  assert (Hw4 : sound (pass (unsigned_int (session_warm_up_time (session_config_ s))) w3)).
  { unfold sound in *. cbn. rewrite Hw3. set_unfold. intuition lia. }
  rewrite !close_if_open by eauto using close_if_sound. cbn [pass open_]. rewrite Hw3. cbn in *. 
  assert (sock ≠ fd) by set_solver. assert (sock ≠ in_going_ s) by set_solver. set_solver.
Qed.

(** an [init] whose [get] fails poisons the session: it keeps the pointer
    to an item without a reference and the numbers of two closed descriptors, and
    neither a further [init] nor the destructor is defined after it. *)
Theorem failed_get_poisons inet_ntop inet_pton a identity s it c' e w :
  ci_fix_session_ s = Some it → FIXSession.s_refcnt it = 1 → sound w →
  FIXSession.get (i_allocs a) (i_push a) (i_push_days a) it (i_errno a) (session_config_ s) = Some (false, c', e) →
  ∃ s' w', init inet_ntop inet_pton a identity s w = Returns (false, s', w')
    ∧ in_going_ s' = in_going_ s ∧ out_going_ s' = out_going_ s
    ∧ (in_going_ s ∉ open_ w') ∧ (out_going_ s ∉ open_ w')
    ∧ (∀ a' identity' w'', init inet_ntop inet_pton a' identity' s' w'' = Undefined)
    ∧ ∀ w'', delete_session s' w'' = Undefined.
Proof.
  intros Hi Hn Hw Hg. unfold init, init_item. rewrite Hi. cbn [mbind call_mbind cbind negb]. rewrite Hi.
  unfold release, alive. rewrite Hn. cbn [Z.ltb Z.compare negb]. rewrite Hg. cbn [defined mbind call_mbind cbind negb].
  do 2 eexists. split; [done|]. split; [done|]. split; [done|].
  rewrite !close_if_open by eauto using close_if_sound. split; [set_solver|]. split; [set_solver|].
  split; [done|]. intros w''. done.
Qed.

Lemma start_all answers ids : ∀ n, (∀ k, answers k = mkStartAnswers true 0 0 0 true) →
  start_sessions answers n ids = (λ id, (c_str id, true)) <$> ids.
Proof. induction ids as [|id ids IH]; intros n H; cbn [start_sessions]; [done|]. rewrite H. cbn. f_equal. by apply IH. Qed.

Lemma start_sessions_sublist answers ids : ∀ n, (start_sessions answers n ids).*1 `sublist_of` (c_str <$> ids).
Proof.
  induction ids as [|id ids IH]; intros n; cbn [start_sessions]; [done|].
  destruct (st_new _); cbn [negb]; [|by apply sublist_cons].
  destruct (gateway_thread _); cbn [negb]; [by apply sublist_skip | by apply sublist_cons].
Qed.

Definition FIX_SESSION_IDS : list Z := bytes_of_string "FIX_SESSION_IDS".

(** a gateway reads the identities of its sessions from its file and runs
    one session for each, in their order, when everything succeeds; otherwise it
    leaves some out without a word, and it returns true exactly when every
    session it started has ended. *)
Theorem gateway_runs_sessions waits any f rest identity items ids answers :
  readable waits f → read_config (split_lines (line_end <$> f_content f)) = Some items → plain identity →
  ids ≠ [] → Forall (free_of delims) ids →
  get_value items (key_text identity (Some PROTOCOL) (Some FIX_SESSION_IDS)) = Some (join ch_space ids) →
  gateway_init (mkGatewayAnswers true (fine_base waits any f rest) (mkSubOk true true true true true) true (λ _, true)) identity
  = Returns (true, ids)
  ∧ gateway_run true (λ _, mkStartAnswers true 0 0 0 true) ids = Returns (true, c_str <$> ids, [])
  ∧ (match gateway_run true answers ids with
     | Returns (r, started, later) => r = true ∧ later = [] ∧ started `sublist_of` (c_str <$> ids)
     | Waits => ∃ id, (id, false) ∈ start_sessions answers 0 ids
     | Undefined => False
     end).
Proof.
  intros Hf Hr Hid Hne Hfree Hv. split; [|split].
  - unfold gateway_init, base_init. cbn [g_item negb g_base fine_base new_config looks].
    rewrite (init_items waits any f rest identity items Hf Hr). cbn [mbind call_mbind cbind negb].
    pose proof (@subscribe_found _ StringVectorItem string_vector_laws None (Some PROTOCOL) (Some FIX_SESSION_IDS)
                  (mkItem 1 None) (mkConfigObj identity items 1) ltac:(done) Hid
                  (plain_string "PROTOCOL" eq_refl) (plain_string "FIX_SESSION_IDS" eq_refl)) as H.
    cbn [default_identity file_items] in H. rewrite Hv in H.
    change (item_fill true File (Some (join ch_space ids)) (mkItem 1 None)) with (true, mkItem 1 (Some (join ch_space ids))) in H.
    cbv beta iota in H. destruct H as [_ H]. unfold PROTOCOL, FIX_SESSION_IDS in H. cbn [g_subscribe]. rewrite H.
    cbn [defined mbind call_mbind cbind negb]. unfold StringVector.get. cbn [line_ g_strdup g_push].
    rewrite split_string_fields by done. cbn [defined mbind call_mbind cbind negb].
    rewrite fields_join by done. by destruct ids.
  - unfold gateway_run. rewrite start_all by done. cbn [negb].
    rewrite (proj2 (forallb_forall _ _)) by (intros x (? & -> & _)%list_elem_of_In%list_elem_of_fmap; done).
    by rewrite <- list_fmap_compose.
  - unfold gateway_run. cbn [negb]. destruct (forallb snd _) eqn:E; [split_and!; [done | done | apply start_sessions_sublist]|].
    induction (start_sessions answers 0 ids) as [|[id []] l IH]; [done | |].
    + destruct (IH E) as [id' ?]. exists id'. by right.
    + exists id. by left.
Qed.

(** ** Examples *)

(** A gateway that waits for its counterparty on two ports of one interface. *)
Definition demo_simplex : FIX_Session_Config :=
  ConfigItems.mkConfig false true false [false; true; true; true; true; true; false] FIX_4_4 NO_FIXT 30 10 60 28800 59400
    (Some (bytes_of_string "Europe/Copenhagen")) demo_endpoint
    (mkEndpoint ListenOnThis (bytes_of_string "eth0") 5002 PF_INET).

Lemma demo_simplex_ok : config_ok demo_simplex.
Proof.
  destruct demo_config_ok. split; try done.
Qed.

Definition demo_address : list Z := [10; 0; 0; 1].
Definition demo_ntop (family : Z) (addr : list Z) : option (list Z) := Some (bytes_of_string "10.0.0.1").
Definition demo_pton (family : Z) (s : list Z) : Z * list Z :=
  if bool_decide (s = bytes_of_string "10.0.0.1") then (1, demo_address) else (0, []).
Definition demo_network : endpoint_answers :=
  mkEndpointAnswers [] (mkAnswers true (λ _, 0) true
    (Some [mkIf (bytes_of_string "lo") true None; mkIf (bytes_of_string "eth0") true (Some (Sockets.PF_INET, demo_address))])
    (λ _, 0) 0).

Definition demo_key : list Z := bytes_of_string "gw:PROTOCOL:FIX_SESSION_CONFIG".
Definition demo_line : list Z := join ch_space (kv_text <$> render_session demo_simplex).
Definition demo_file : list Z := demo_key ++ [32] ++ demo_line ++ [10].
Definition demo_world : world := mkWorld {[0; 1; 2]} ∅ 0.

Lemma session_listens_witness :
  ∃ s w', init demo_ntop demo_pton
            (mkInitAnswers (fine_base [(false, true, None)] false (mkConf (zlen demo_file) demo_file) []) true
               (mkSubOk true true true true true) all_ok (λ _, true) (λ _, true) 0 demo_network demo_network true)
            (Some (bytes_of_string "gw")) (FIX_Session demo_config) demo_world = Returns (true, s, w')
    ∧ session_config_ s = demo_simplex ∧ clock w' = 0
    ∧ listens_on w' (in_going_ s) (in_going demo_simplex) demo_address
    ∧ (listens_on w' (out_going_ s) (out_going demo_simplex) demo_address
       ∧ (out_going_ s ∉ {[in_going_ s]} ∪ open_ demo_world)
       ∧ open_ w' = {[out_going_ s]} ∪ ({[in_going_ s]} ∪ open_ demo_world))
    ∧ (in_going_ s ∉ open_ demo_world)
    ∧ ∃ it w'', delete_session s w' = Returns (Some it, w'') ∧ open_ w'' = open_ demo_world.
Proof.
  apply (session_listens [(false, true, None)] false (mkConf (zlen demo_file) demo_file) [] (Some (bytes_of_string "gw"))
    [(demo_key, demo_line)] (render_session demo_simplex) demo_simplex demo_config demo_ntop demo_pton 0
    demo_network demo_network true demo_world demo_address demo_address).
  - split; [by repeat constructor|]. split; [reflexivity|]. split; [vm_compute; discriminate | vm_compute; reflexivity].
  - vm_compute. reflexivity.
  - by apply plain_string.
  - vm_compute. reflexivity.
  - apply demo_simplex_ok.
  - reflexivity.
  - done.
  - done.
  - vm_compute. done.
  - split; [done|]. split; [done|]. split; [done|]. split; [done|]. split; [vm_compute; reflexivity | done].
  - intros _. split; [done|]. split; [done|]. split; [done|]. split; [done|]. split; [vm_compute; reflexivity | done].
Defined.

(** The same session, after its [init]; somebody connects to both ports. *)
Definition demo_session : session :=
  mkSess None (Some (FIXSession.mkSession 1 File (mkItem 1 (Some demo_line)))) demo_simplex 3 4.

Definition demo_use : use_answers :=
  mkUseAnswers true true true (fine_base [] false (mkConf (zlen demo_file) demo_file) []) (mkRunAnswers true true 0 0 0).

Definition demo_run : session_answers :=
  mkSessionAnswers [0] [] true (mkTakeAnswers [30; 0] 0 Accepted true) (mkTakeAnswers [0] 0 Accepted true) demo_use [0].

Lemma session_serves_nobody_witness :
  ∃ s' w', run demo_run (Some (bytes_of_string "gw")) demo_session (mkWorld {[0; 1; 2; 3; 4]} ∅ 0)
           = Returns (Some true, [Ran (mkInstance (-1) (-1))], s', w')
    ∧ Forall (λ u, served u = false) [Ran (mkInstance (-1) (-1))].
Proof.
  do 2 eexists. split; [vm_compute; reflexivity|].
  refine (proj1 (session_serves_nobody demo_run (Some (bytes_of_string "gw")) demo_session (mkWorld {[0; 1; 2; 3; 4]} ∅ 0)
    _ _ _ _ _ _ eq_refl _)).
  - vm_compute. done.
  - constructor.
  - vm_compute. reflexivity.
Defined.
